(* ===== verification/_CoqProject ===== *)
-Q . S2P
Prelude.v
Text.v
Mpi.v
MpiOps.v
MpiDiv.v
MpiExp.v
Dhm.v
MpiSafe.v
Hash.v
HashSpec.v
Prf.v
BlkCipher.v
Ctr.v
Fips197.v
AesCipher.v
AesTables.v
AesGeneric.v
AesNi.v
AesNiModes.v
PrivCrypt.v
Kex.v
CryptoMath.v
Driver.v
UsbChannel.v
PrivNet.v
PrivSound.v
PrivSwap.v
LibPriv.v
LibAesNi.v
GpuTables.v
GpuAes.v
GpuKernel.v
GpuDisplay.v
Session.v
RealSession.v
QemuNet.v
NetPath.v
NetInit.v
NetProps.v
QemuInput.v
InputPath.v
InputInit.v
InputProps.v
