(* ===== verification/Prelude.v ===== *)
(** * Lacuna: a verification library

    Lacuna keeps a private session's data off the host's disks, logs and drivers.
    Data that leaves a private program is encrypted before it crosses kernel code that
    may keep it: each channel (USB, network, sound, swap) uses an encryption context,
    the program on the other side holds the matching context, and ending the session
    destroys the keys.  This library models the code that does so, proves what it
    promises, and states precisely where it does not.

    ** The program and its parts

    - The kernel contexts and the character device that hands them out
      (src/host/linux-3.0/drivers/priv: crypto.c, priv_crypt_drv.c, kex.c).
    - The kernel's counter mode (crypto/ctr.c, crypto/algapi.c) and the AES-NI loops the
      user library uses instead (src/crypto/libprivcrypt/aesni-intel_asm.S).
    - The channels that use a context through a reference: USB (drivers/priv/usb.c,
      sysfs.c, drivers/usb/core/endpoint.c), network (drivers/priv_sysfs/privnet),
      sound (drivers/priv_sysfs/privsound), and swap (mm/privos.c with the parts of
      mm/page_io.c and mm/swapfile.c that call it).
    - The user library (src/crypto/libprivcrypt): contexts, the kernel backend over the
      device's ioctls, the Diffie-Hellman exchange, and AES-NI encryption.
    - PolarSSL, which both sides of the exchange compute with: big numbers (bignum.c),
      Diffie-Hellman (dhm.c), the hashes (md5.c, sha1.c) and the pseudo-random function
      (ssl_tls.c), as copied into the kernel (drivers/priv/polarssl) behind the crypto_math
      module (drivers/priv/crypto_math_drv.c), and in src/crypto/polarssl-1.1.1.
    - The AES of the kernel (crypto/aes_generic.c) and of the library (the assembly above).
    - The display: the guest's screen goes encrypted to the graphics card, which decrypts it
      (src/host/gpu/aes, src/host/gpu/display, and the calls in ui/sdl.c of QEMU).
    - QEMU (src/host/qemu-kvm-0.15.1), which runs the private session as a virtual machine and holds the
      other end of each channel: the network (net.c, net/queue.c, net/tap.c), with the hooks in the
      host's network driver (drivers/net/e1000e_priv), and the keyboard and mouse (priv-usb.c,
      priv-input.c, usb-linux.c, hw/usb-bus.c, ui/sdl.c).

    ** Files

    - [Prelude]: machine integers, byte strings, the state-and-fault monad [M] with its
      weakest preconditions [wp], tactics, and shared lemmas.
    - [Text]: the decimal text that sysfs attributes are read and written in.
    - [Mpi], [MpiOps], [MpiDiv], [MpiExp]: bignum.c on 64-bit limbs, with its allocations, its
      aliasing and its accesses checked: the operations, then the values of addition,
      subtraction and multiplication, of long division, of Montgomery exponentiation.
      The word-by-word division of the kernel and the one with 128-bit integers of the
      library are both there, selected by [longlong].
    - [Dhm]: dhm.c, for any allocator ([Alloc], [AllocLaws]); [MpiSafe]: which faults it and
      bignum.c can have at all when memory runs out.
    - [Hash]: md5.c and sha1.c; [HashSpec]: RFC 1321, FIPS 180-1 and RFC 2104, and that [Hash]
      computes them; [Prf]: [tls1_prf] and the PRF of RFC 2246.
    - [CryptoMath]: crypto_math_drv.c, which discharges the interface [KexLaws] of [Kex].
    - [BlkCipher]: the interface of a kernel cipher ([BlkCipher]) and what a stream mode
      promises ([StreamCipher]); [Ctr] discharges both for "ctr(aes)" over any block function
      (class [BlockCipher]) and proves the AES-NI loops equal to it.
    - [Fips197]: the standard, as a reference; [AesCipher]: the instance of [BlockCipher] it gives.
    - [AesTables], [AesGeneric]: aes_generic.c on its tables.  [AesNi]: the key set-up and the block
      functions of the assembly, instruction by instruction on a machine of registers and
      byte regions; [AesNiModes]: its counter mode on the same machine.
    - [PrivCrypt]: crypto.c.  [kstate] is the kernel heap: live and freed contexts,
      references, open files, the allocator's answers.
    - [Kex]: kex.c against the operations table of the crypto_math module.
    - [Driver]: priv_crypt_drv.c, one definition per function, the invariant [kinv] and
      the step relation [kstep].
    - [UsbChannel], [PrivNet], [PrivSound], [PrivSwap]: one channel each.
    - [LibPriv]: the user library, over the driver's ioctls.  [LibAesNi]: its cipher down to the
      instructions.
    - [GpuTables], [GpuAes]: the block cipher and the counter arithmetic of the graphics processor;
      [GpuKernel]: its threads under every schedule, and the host functions that start them;
      [GpuDisplay]: the thread that encrypts and the one that draws, with their lock.
    - [Session]: the library and the kernel together, for any exchange that satisfies the
      interface [KexAgree].
    - [RealSession]: PolarSSL in the library and crypto_math in the kernel satisfy [KexAgree], for
      the group of the sources.
    - [QemuNet]: the packet queues, the tap client and the creation of a card.  [NetPath]: the hooks of
      the network driver and the path between wire and guest; [NetInit]: creating a card
      leaves what the path needs; [NetProps]: the properties, and a concrete machine.
    - [QemuInput]: private keyboards and mice in QEMU.  [InputPath]: the path from a device through the
      kernel to the guest, and entering private mode; [InputInit]: the options of the command
      line leave what that needs; [InputProps]: the properties, and leaving private mode.

    ** How the code is modelled

    A function becomes a definition of the same name.  Pointers are addresses into maps,
    so a dangling pointer, a double free or a NULL dereference is a fault of type
    [fault] and not a value; uninitialised memory is an argument.  Every allocation
    consults a list of answers, so every error path is reachable.  Fixed-width integers
    are [Z] with their wrap-around written out.  Locks that are held for a whole
    operation make it an atomic step; where holding one matters (swap), the lock is part
    of the state.  Loops that C bounds by a length take that length as fuel, and the
    theorems are about the whole call; the exchange loop of [LibPriv.do_kex] gets three
    rounds, of which the state machine uses at most two.  The loops of bignum.c and dhm.c
    that no length bounds take a [fuel], and running out of it is the fault [Hang]: six
    passes are enough for each loop of the division and the exponentiation (the kernel's
    division excepted for divisors that make it run away), and 64 for each limb of the
    modulus plus one for the loop that shrinks the private number, 1088 for the group of the
    sources.  In QEMU, flushing a queue takes one pass for each packet in it, and
    [async_complete] one for each URB that waits and one more, which is the fuel of its
    theorems.  Theorems with fuel hold for every value from the stated one on, and
    [cm_respond_hangs] for every value.

    ** What the theorems show

    - Contexts: encryption is one contiguous key stream whatever the page cuts; the driver
      invariant holds in every reachable state; ioctls are safe but for three named
      faults; a process's death destroys exactly its contexts; ids, exclusive use, and
      creation and destruction are as intended.
    - Counter mode: the AES-NI path and the kernel's agree on every length, and decryption
      inverts encryption.
    - AES: the kernel's tables, the assembly and the graphics processor compute FIPS 197; the cipher
      of the library down to its instructions is the model the other theorems use.
    - Display: under every interleaving of the two threads and every schedule of the graphics
      processor, what is shown are frames that were drawn, and what crosses is encrypted.
    - Network and input: creating a card, or configuring devices and entering private mode, gives a
      state from which the guest exchanges frames and gets packets unchanged, in order and
      without loss under every interleaving, with everything in between encrypted.
    - Channels: what reaches the other side is the encrypted data, on every branch;
      queues are first-in first-out and stay in bounds; attributes read back what was
      written; swap returns what it stored.
    - Big numbers: addition, subtraction, multiplication, division and modular exponentiation
      on limbs are those of the integers; the hashes and the pseudo-random function are those
      of their standards, bit for bit.
    - Exchange: parameter messages are accepted exactly if they have the format and their public
      number is in range; the kernel's answer and key are the ones the peer computes; the
      driver is safe with crypto_math but for faults of bignum.c.
    - Session: connecting leaves both sides with one key and one counter or leaves the
      kernel as it was, with all of the arithmetic computed as the code does and for the group
      in the sources; traffic in both directions stays in step.
    - Defects, as theorems about the code as it is: residues of keys, dangling
      references, plaintext on error paths, shared key streams, deadlock, a division that
      runs away, a loop that never ends when memory is short, a self test that rejects one
      shared number in 256, frames encrypted twice when the tap is busy, USB devices used after
      they were freed when private mode ends, and the others named in the statements.

    ** Not modelled

    The rest of Linux and QEMU; in QEMU also the private disk (block/qcow2*.c), the sound back end
    (audio/alsaaudio.c), hubs of network clients, USB transfers other than interrupt
    transfers, and controllers assigned through PCI; the input switcher of the guest
    (host/input_switcher), which issues a hypercall that is modelled; drawing with OpenGL; the
    variants of the library's cipher that are not built with AES-NI (gpu_backend.c, gcrypt.c);
    the modes of the assembly other than counter mode.  Of bignum.c: decimal text, text output, gcd, inverses,
    primes and the self test, which the exchange does not use.  Of md5.c and sha1.c: hashing of
    files and the self tests.  The memory PolarSSL takes in the process is not limited in
    [RealSession].  Concurrency inside an operation is not modelled. *)

From stdpp Require Export base list list_numbers gmap numbers fin_maps sets.
From Stdlib Require Export ZArith Lia.

#[global] Open Scope Z_scope.

Coercion Z.of_nat : nat >-> Z.

(** ** Machine integers

    C integers are [Z]; the width is written out where it matters. *)

Definition u8 (z : Z) : Z := z mod 2 ^ 8.
Definition u16 (z : Z) : Z := z mod 2 ^ 16.
Definition u32 (z : Z) : Z := z mod 2 ^ 32.
Definition u64 (z : Z) : Z := z mod 2 ^ 64.

(** Two's-complement reading of the low [w] bits. *)
Definition signed (w : Z) (z : Z) : Z :=
  let m := z mod 2 ^ w in if m <? 2 ^ (w - 1) then m else m - 2 ^ w.
Definition s8 (z : Z) : Z := signed 8 z.
Definition s16 (z : Z) : Z := signed 16 z.
Definition s32 (z : Z) : Z := signed 32 z.

(** A C [int] used as a truth value, and the value of a C comparison. *)
Definition truthy (z : Z) : bool := negb (z =? 0).
Definition of_bool (b : bool) : Z := if b then 1 else 0.

(** ** Error numbers (include/asm-generic/errno-base.h) *)

Definition ENOMEM : Z := 12.
Definition EFAULT : Z := 14.
Definition EBUSY : Z := 16.
Definition EEXIST : Z := 17.
Definition ENODEV : Z := 19.
Definition EINVAL : Z := 22.
Definition EPIPE : Z := 32.

Definition PAGE_SIZE : nat := (16 * 256)%nat.

(** ** Faulting computations over a state

    Kernel and library code is modelled as a state transformer that either
    returns, or stops with the fault the machine would raise. *)

Inductive fault :=
  | NullDeref        (* a NULL pointer is dereferenced *)
  | UseAfterFree     (* freed memory is read or written *)
  | DoubleFree       (* a freed object is freed again *)
  | OutOfBounds      (* an access outside an array *)
  | Uninit           (* an uninitialised pointer is used *)
  | WildPtr          (* an error value is used as a pointer *)
  | Deadlock         (* a spin lock is taken by its holder *)
  | Hang             (* a loop runs longer than its budget *)
  | DivZero          (* an integer division by zero *)
  | Exit             (* the process ends itself: exit(), assert() *)
  | Bug.             (* BUG() / BUG_ON() *)

Inductive outcome (A : Type) :=
  | Done (a : A)
  | Oops (f : fault).
Arguments Done {A} a.
Arguments Oops {A} f.

Definition M (S A : Type) : Type := S -> outcome (A * S).

Definition ret {S A} (a : A) : M S A := fun s => Done (a, s).
Definition bind {S A B} (m : M S A) (k : A -> M S B) : M S B :=
  fun s => match m s with Done (a, s') => k a s' | Oops f => Oops f end.
Definition oops {S A} (f : fault) : M S A := fun _ => Oops f.
Definition get {S} : M S S := fun s => Done (s, s).
Definition gets {S A} (f : S -> A) : M S A := fun s => Done (f s, s).
Definition modify {S} (f : S -> S) : M S unit := fun s => Done (tt, f s).

Declare Scope prog_scope.
Delimit Scope prog_scope with prog.
Notation "'let!' x ':=' m 'in' k" := (bind m (fun x => k))
  (at level 10, x binder, m at level 100, k at level 200,
   format "'let!'  x  ':='  m  'in' '//' k") : prog_scope.
Notation "m ';;' k" := (bind m (fun _ => k))
  (at level 100, k at level 200, right associativity,
   format "m ';;' '//' k") : prog_scope.
#[global] Open Scope prog_scope.

(** Run a computation of a sub-state inside a larger state. *)
Definition zoom {S T A} (rd : S -> T) (wr : T -> S -> S) (m : M T A) : M S A :=
  fun s => match m (rd s) with
           | Done (a, t) => Done (a, wr t s)
           | Oops f => Oops f
           end.

(** The state a computation ends in, for evaluating examples. *)
Definition exec {S A} (m : M S A) (s : S) : S := match m s with Done (_, s') => s' | Oops _ => s end.

Definition val {S A} (m : M S A) (s : S) : option A := match m s with Done (a, _) => Some a | Oops _ => None end.

(** [wp E m Q s]: run from [s], [m] either returns with [Q] or faults with a
    fault [E] allows.  [total] allows none. *)
Definition wp {S A} (E : fault -> Prop) (m : M S A) (Q : A -> S -> Prop) (s : S) : Prop :=
  match m s with Done (a, s') => Q a s' | Oops f => E f end.

Definition total (f : fault) : Prop := False.

(** ** Byte buffers *)

Abbreviation bytes := (list Z).

Definition byte_ok (b : Z) : Prop := 0 <= b < 256.
Definition bytes_ok (l : bytes) : Prop := Forall byte_ok l.

(** [slice off n l] is [l[off .. off+n)]. *)
Definition slice {A} (off n : nat) (l : list A) : list A := take n (drop off l).

(** [memcpy (l + off) d (length d)]: callers ensure it fits. *)
Definition splice {A} (off : nat) (d l : list A) : list A :=
  take off l ++ d ++ drop (off + length d) l.

Definition zeros (n : nat) : bytes := replicate n 0.

Definition xor_bytes (a b : bytes) : bytes := zip_with Z.lxor a b.

(** Big-endian value of a byte string, and its inverse on [n] bytes. *)
Definition be_value (l : bytes) : Z := foldl (fun acc b => acc * 256 + b) 0 l.

Fixpoint be_bytes (n : nat) (z : Z) : bytes :=
  match n with
  | O => []
  | S n' => be_bytes n' (z / 256) ++ [z mod 256]
  end.

(** An element of an array; the code never reads beyond the end. *)
Definition at_ (b : list Z) (i : nat) : Z := default 0 (b !! i).

(** Little-endian. *)
Fixpoint le_value (l : bytes) : Z :=
  match l with [] => 0 | b :: t => b + 256 * le_value t end.

Fixpoint le_bytes (n : nat) (z : Z) : bytes :=
  match n with O => [] | S n' => (z mod 256) :: le_bytes n' (z / 256) end.

(** ** Tactics *)

(** Split on every [match] of the goal and the hypotheses. *)
Ltac split_match := repeat (case_match; simplify_eq/=).

(** Evaluate the monadic structure. *)
Ltac prog :=
  unfold bind, ret, oops, get, gets, modify, zoom in *; simplify_eq/=.

(** Arithmetic with division and remainder. *)
Ltac zmod := Z.div_mod_to_equations; nia.

(** ** Lemmas on computations *)

Lemma wp_bind {S A B} E (m : M S A) (k : A -> M S B) Q s :
  wp E m (fun a => wp E (k a) Q) s -> wp E (bind m k) Q s.
Proof. unfold wp, bind. destruct (m s) as [[a s']|f]; auto. Qed.

Lemma wp_mono {S A} E (m : M S A) (P Q : A -> S -> Prop) s :
  wp E m P s -> (forall a s', P a s' -> Q a s') -> wp E m Q s.
Proof. unfold wp. destruct (m s) as [[a s']|f]; auto. Qed.

Lemma wp_weaken {S A} (E F : fault -> Prop) (m : M S A) Q s :
  (forall f, E f -> F f) -> wp E m Q s -> wp F m Q s.
Proof. unfold wp. destruct (m s) as [[a s']|f]; auto. Qed.

Lemma wp_done {S A} E (m : M S A) (Q : A -> S -> Prop) s a s' :
  m s = Done (a, s') -> Q a s' -> wp E m Q s.
Proof. unfold wp. by intros ->. Qed.

Lemma wp_elim {S A} (m : M S A) (Q : A -> S -> Prop) s :
  wp total m Q s -> exists a s', m s = Done (a, s') /\ Q a s'.
Proof. unfold wp. destruct (m s) as [[a s']|f]; [eauto|done]. Qed.

Lemma wp_run {S A} E (m : M S A) (Q : A -> S -> Prop) s a s' :
  wp E m Q s -> m s = Done (a, s') -> Q a s'.
Proof. unfold wp. by intros H Hr; rewrite Hr in H. Qed.

Lemma bind_done {S A C} (m : M S A) (k : A -> M S C) s a s' : m s = Done (a, s') -> bind m k s = k a s'.
Proof. intros H. unfold bind. by rewrite H. Qed.

Lemma run_done {S A} (m : M S A) s (Q : A -> S -> Prop) a : (exists a s', m s = Done (a, s') /\ Q a s') ->
  match m s with Done (b, _) => Some b | Oops _ => None end = Some a -> m s = Done (a, exec m s) /\ Q a (exec m s).
Proof. intros (b & s' & E & H). unfold exec. rewrite E. by intros [= ->]. Qed.

Lemma bind_oops {S A C} (m : M S A) (k : A -> M S C) s f : m s = Oops f -> bind m k s = Oops f.
Proof. intros H. unfold bind. by rewrite H. Qed.

Lemma val_exec {S A} (m : M S A) s a : val m s = Some a -> m s = Done (a, exec m s).
Proof. unfold val, exec. destruct (m s) as [[b s']|]; [by intros [= ->]|done]. Qed.

(** A run that is known to return, and what is known of its value *)
Lemma val_done {S A C} (f : A -> C) (m : M S A) s a s' c : f <$> val m s = Some c -> m s = Done (a, s') -> f a = c.
Proof. unfold val. intros H E. rewrite E in H. by injection H. Qed.

(** Sequence: prove the first computation's post-condition and go on with it. *)
Ltac wp_bind := apply wp_bind; cbv beta.
Ltac wp_use H := eapply wp_mono; [eapply H|cbv beta].
(** Evaluate [ret], [oops] and [modify] at the head. *)
Ltac wp_pure := cbv beta iota delta [wp ret oops gets modify bind].

(** ** Lemmas on bytes and lists *)

Create HintDb lacuna.
Create Rewrite HintDb lacuna_len.

Lemma alter_as_insert {A} (f : A -> A) (l : list A) (i : nat) a : l !! i = Some a -> alter f i l = <[i := f a]> l.
Proof. revert i. induction l as [|b l IH]; intros [|i] E; [done..| |]; cbn in *; [by injection E as ->|]. f_equal. by apply IH. Qed.

Lemma byte_u8 z : byte_ok (u8 z).
Proof. unfold byte_ok, u8. pose proof (Z.mod_pos_bound z (2 ^ 8)). lia. Qed.

Lemma u8_small b : byte_ok b -> u8 b = b.
Proof. unfold byte_ok, u8. intros. apply Z.mod_small. lia. Qed.

Lemma u32_small z : 0 <= z < 2 ^ 32 -> u32 z = z.
Proof. apply Z.mod_small. Qed.

Lemma u64_small z : 0 <= z < 2 ^ 64 -> u64 z = z.
Proof. apply Z.mod_small. Qed.

Lemma s32_small z : - 2 ^ 31 <= z < 2 ^ 31 -> s32 z = z.
Proof.
  intros H. unfold s32, signed. change (2 ^ (32 - 1)) with (2 ^ 31).
  destruct (Z.ltb_spec (z mod 2 ^ 32) (2 ^ 31)); Z.div_mod_to_equations; lia.
Qed.

Lemma s32_range z : - 2 ^ 31 <= s32 z < 2 ^ 31.
Proof.
  unfold s32, signed. change (2 ^ (32 - 1)) with (2 ^ 31). pose proof (Z.mod_pos_bound z (2 ^ 32)).
  case_match; lia.
Qed.

(** [s32] only looks at the residue, which it keeps. *)
Lemma s32_mod z : s32 z mod 2 ^ 32 = z mod 2 ^ 32.
Proof.
  unfold s32, signed. case_match; [by rewrite Z.mod_mod|].
  rewrite <- (Z.mod_add _ 1) by lia. rewrite Z.mul_1_l, Z.sub_add. by rewrite Z.mod_mod.
Qed.

Lemma s32_ext x y : x mod 2 ^ 32 = y mod 2 ^ 32 -> s32 x = s32 y.
Proof. unfold s32, signed. by intros ->. Qed.

Lemma s32_spec z : exists k, s32 z = z + k * 2 ^ 32.
Proof.
  unfold s32, signed. pose proof (Z.div_mod z (2 ^ 32) ltac:(lia)).
  case_match; [exists (- (z / 2 ^ 32))|exists (- (z / 2 ^ 32) - 1)]; lia.
Qed.

Lemma byte_lxor a b : byte_ok a -> byte_ok b -> byte_ok (Z.lxor a b).
Proof.
  unfold byte_ok. intros Ha Hb. split.
  - apply Z.lxor_nonneg. lia.
  - destruct (Z.eq_dec (Z.lxor a b) 0) as [->|Hn]; [lia|].
    apply (Z.log2_lt_pow2 _ 8).
    + assert (0 <= Z.lxor a b) by (apply Z.lxor_nonneg; lia). lia.
    + eapply Z.le_lt_trans; [apply Z.log2_lxor; lia|].
      assert (Z.log2 a <= 7) by (change 7 with (Z.log2 255); apply Z.log2_le_mono; lia).
      assert (Z.log2 b <= 7) by (change 7 with (Z.log2 255); apply Z.log2_le_mono; lia).
      lia.
Qed.

Lemma length_zeros n : length (zeros n) = n.
Proof. apply length_replicate. Qed.

(** Bits that do not overlap *)

Lemma land_low a b n : 0 <= n -> 0 <= b < 2 ^ n -> a mod 2 ^ n = 0 -> Z.land a b = 0.
Proof.
  intros Hn Hb Ha. apply Z.bits_inj'. intros i Hi. rewrite Z.land_spec, Z.bits_0. destruct (decide (i < n)) as [H|H].
  - rewrite <- (Z.mod_pow2_bits_low a n i) by lia. by rewrite Ha, Z.bits_0.
  - destruct (decide (b = 0)) as [->|Hb0]; [by rewrite Z.bits_0, andb_false_r|].
    rewrite (Z.bits_above_log2 b i); [apply andb_false_r|lia|]. apply Z.log2_lt_pow2; [lia|].
    apply Z.lt_le_trans with (2 ^ n); [lia|]. apply Z.pow_le_mono_r; lia.
Qed.

Lemma lor_add a b n : 0 <= n -> 0 <= b < 2 ^ n -> a mod 2 ^ n = 0 -> Z.lor a b = a + b.
Proof. intros. symmetry. by apply Z.add_nocarry_lor, (land_low a b n). Qed.

Lemma lxor_add a b n : 0 <= n -> 0 <= b < 2 ^ n -> a mod 2 ^ n = 0 -> Z.lxor a b = a + b.
Proof. intros. symmetry. by apply Z.add_nocarry_lxor, (land_low a b n). Qed.

(** Elements of arrays *)

Lemma at_lookup l i (x : Z) : l !! i = Some x -> at_ l i = x.
Proof. unfold at_. by intros ->. Qed.

Lemma at_fmap f l i : f 0 = 0 -> at_ (f <$> l) i = f (at_ l i).
Proof. unfold at_. rewrite list_lookup_fmap. by destruct (l !! i). Qed.

Lemma at_app_l (l k : list Z) i : (i < length l)%nat -> at_ (l ++ k) i = at_ l i.
Proof. intros Hi. unfold at_. by rewrite lookup_app_l. Qed.

(** Constant byte strings *)
Lemma bytes_ok_check l : forallb (fun b => (0 <=? b) && (b <? 256)) l = true -> bytes_ok l.
Proof. intros H. apply Forall_forall. intros b Hb. rewrite forallb_forall in H. specialize (H b). rewrite <- list_elem_of_In in H. specialize (H Hb). unfold byte_ok. lia. Qed.

Lemma bytes_ok_zeros n : bytes_ok (zeros n).
Proof. apply Forall_replicate. unfold byte_ok. lia. Qed.

Lemma length_xor_bytes a b : length (xor_bytes a b) = Nat.min (length a) (length b).
Proof. apply length_zip_with. Qed.

Lemma xor_bytes_comm a b : xor_bytes a b = xor_bytes b a.
Proof.
  unfold xor_bytes. revert b. induction a as [|x a IH]; intros [|y b]; simpl; try done.
  by rewrite Z.lxor_comm, IH.
Qed.

Lemma xor_bytes_involutive d k :
  (length d <= length k)%nat -> xor_bytes (xor_bytes d k) k = d.
Proof.
  unfold xor_bytes. revert k. induction d as [|x d IH]; intros [|y k] H; simpl in *; try done; try lia.
  rewrite Z.lxor_assoc, Z.lxor_nilpotent, Z.lxor_0_r, IH; [done|lia].
Qed.

Lemma xor_bytes_cancel a b k :
  length a = length b -> length a = length k -> xor_bytes (xor_bytes a k) (xor_bytes b k) = xor_bytes a b.
Proof.
  unfold xor_bytes. revert b k. induction a as [|x a IH]; intros [|y b] [|z k] H1 H2; simpl in *; try done.
  rewrite IH by lia. f_equal. rewrite (Z.lxor_comm y z), Z.lxor_assoc, <- (Z.lxor_assoc z z y), Z.lxor_nilpotent. done.
Qed.

Lemma xor_bytes_app a1 a2 b1 b2 :
  length a1 = length b1 ->
  xor_bytes (a1 ++ a2) (b1 ++ b2) = xor_bytes a1 b1 ++ xor_bytes a2 b2.
Proof. intros H. apply zip_with_app, H. Qed.

Lemma bytes_ok_xor a b : bytes_ok a -> bytes_ok b -> bytes_ok (xor_bytes a b).
Proof.
  unfold bytes_ok, xor_bytes. intros Ha. revert b.
  induction Ha as [|x a Hx Ha IH]; intros [|y b] Hb; simpl; try constructor.
  - apply byte_lxor; [done|]. by apply Forall_cons_1 in Hb as [].
  - apply IH. by apply Forall_cons_1 in Hb as [].
Qed.

(** *** Big-endian numbers *)

Lemma length_be_bytes n z : length (be_bytes n z) = n.
Proof. revert z. induction n; intros; simpl; [done|]. rewrite length_app, IHn. simpl. lia. Qed.

Lemma bytes_ok_be_bytes n z : bytes_ok (be_bytes n z).
Proof.
  revert z. induction n; intros; simpl; [constructor|].
  apply Forall_app. split; [apply IHn|]. repeat constructor; apply Z.mod_pos_bound; lia.
Qed.

Lemma be_value_snoc l b : be_value (l ++ [b]) = be_value l * 256 + b.
Proof. unfold be_value. by rewrite foldl_app. Qed.

Lemma be_value_app l1 l2 :
  be_value (l1 ++ l2) = be_value l1 * 256 ^ length l2 + be_value l2.
Proof.
  induction l2 as [|b l2 IH] using rev_ind.
  - rewrite app_nil_r. simpl. unfold be_value. simpl. lia.
  - rewrite app_assoc, !be_value_snoc, IH, length_app. simpl.
    rewrite Nat2Z.inj_add, Z.pow_add_r by lia. simpl. lia.
Qed.

Lemma be_value_range l : bytes_ok l -> 0 <= be_value l < 256 ^ length l.
Proof.
  induction l as [|b l IH] using rev_ind; intros Hok.
  - unfold be_value. simpl. lia.
  - apply Forall_app in Hok as [Hl Hb]. apply Forall_cons_1 in Hb as [Hb _].
    specialize (IH Hl). unfold byte_ok in Hb.
    rewrite be_value_snoc, length_app, Nat2Z.inj_add, Z.pow_add_r by lia. simpl. lia.
Qed.

Lemma be_bytes_value l : bytes_ok l -> be_bytes (length l) (be_value l) = l.
Proof.
  induction l as [|b l IH] using rev_ind; intros Hok; [done|].
  apply Forall_app in Hok as [Hl Hb]. apply Forall_cons_1 in Hb as [Hb _]. unfold byte_ok in Hb.
  rewrite length_app, Nat.add_1_r. simpl. rewrite be_value_snoc.
  rewrite Z.div_add_l, (Z.div_small b) by lia. rewrite Z.add_0_r, IH by done.
  do 2 f_equal. rewrite Z.add_comm, Z.mod_add by lia. apply Z.mod_small; lia.
Qed.

Lemma be_value_bytes (n : nat) z : be_value (be_bytes n z) = z mod 256 ^ n.
Proof.
  revert z. induction n as [|n IH]; intros z.
  - simpl. rewrite Z.mod_1_r. done.
  - cbn [be_bytes]. rewrite be_value_snoc, IH.
    rewrite Nat2Z.inj_succ, Z.pow_succ_r by lia.
    rewrite (Z.rem_mul_r z 256 (256 ^ n)) by lia. lia.
Qed.

Lemma be_bytes_mod (n : nat) z : be_bytes n (z mod 256 ^ n) = be_bytes n z.
Proof.
  rewrite <- (be_value_bytes n z).
  pose proof (be_bytes_value (be_bytes n z) (bytes_ok_be_bytes n z)) as H.
  by rewrite length_be_bytes in H.
Qed.

Lemma be_bytes_app (n m : nat) x y :
  0 <= y < 256 ^ m -> be_bytes (n + m) (x * 256 ^ m + y) = be_bytes n x ++ be_bytes m y.
Proof.
  revert x y. induction m as [|m IH]; intros x y Hy.
  - simpl in *. rewrite Nat.add_0_r, app_nil_r. f_equal. lia.
  - rewrite Nat2Z.inj_succ, Z.pow_succ_r in * by lia.
    rewrite Nat.add_succ_r. cbn [be_bytes]. rewrite app_assoc. f_equal.
    + rewrite <- IH by (pose proof (Z.pow_pos_nonneg 256 m); split; [apply Z.div_pos; lia|apply Z.div_lt_upper_bound; lia]).
      f_equal. replace (x * (256 * 256 ^ m) + y) with ((x * 256 ^ m) * 256 + y) by lia.
      rewrite Z.div_add_l by lia. done.
    + f_equal. replace (x * (256 * 256 ^ m) + y) with (y + (x * 256 ^ m) * 256) by lia.
      by rewrite Z.mod_add by lia.
Qed.

(** *** Little-endian numbers *)

Lemma length_le_bytes n z : length (le_bytes n z) = n.
Proof. revert z. induction n; intros; simpl; auto. Qed.

Lemma le_value_bytes (n : nat) z : le_value (le_bytes n z) = z mod 256 ^ n.
Proof.
  revert z. induction n as [|n IH]; intros z; [simpl; by rewrite Z.mod_1_r|].
  cbn [le_bytes le_value]. rewrite IH, Nat2Z.inj_succ, Z.pow_succ_r by lia.
  rewrite (Z.rem_mul_r z 256 (256 ^ n)) by lia. lia.
Qed.

(** *** Slices *)

Lemma filter_all {A} (P : A -> Prop) `{!forall x, Decision (P x)} (l : list A) :
  (forall x, x ∈ l -> P x) -> filter P l = l.
Proof.
  induction l as [|x l IH]; intros Hl; [done|].
  rewrite filter_cons_True by (apply Hl; by left). f_equal. apply IH. intros y Hy. apply Hl. by right.
Qed.

Lemma length_slice {A} off n (l : list A) :
  (off + n <= length l)%nat -> length (slice off n l) = n.
Proof. intros. unfold slice. rewrite length_take, length_drop. lia. Qed.

Lemma length_splice {A} off (d l : list A) :
  (off + length d <= length l)%nat -> length (splice off d l) = length l.
Proof. intros. unfold splice. rewrite !length_app, length_take, length_drop. lia. Qed.

Lemma slice_splice {A} off (d l : list A) :
  (off + length d <= length l)%nat -> slice off (length d) (splice off d l) = d.
Proof.
  intros. unfold slice, splice. rewrite drop_app_length'; [|rewrite length_take; lia].
  by rewrite take_app_length.
Qed.

Lemma splice_split {A} (l1 l2 l3 d : list A) :
  length d = length l2 -> splice (length l1) d (l1 ++ l2 ++ l3) = l1 ++ d ++ l3.
Proof.
  intros H. unfold splice. rewrite take_app_length, H.
  rewrite (app_assoc l1 l2), drop_app_length'; [done|rewrite length_app; lia].
Qed.

Lemma slice_split {A} (l1 l2 l3 : list A) :
  slice (length l1) (length l2) (l1 ++ l2 ++ l3) = l2.
Proof. unfold slice. by rewrite drop_app_length, take_app_length. Qed.

Lemma splice_app_next (a b l : bytes) off :
  (off + length a + length b <= length l)%nat -> splice (off + length a) b (splice off a l) = splice off (a ++ b) l.
Proof.
  intros Hl. unfold splice. rewrite length_app.
  assert (E1 : take (off + length a) (take off l ++ a ++ drop (off + length a) l) = take off l ++ a).
  { rewrite app_assoc. replace (off + length a)%nat with (length (take off l ++ a)) at 1 by (rewrite length_app, length_take; lia).
    apply take_app_length. }
  assert (E2 : drop (off + length a + length b) (take off l ++ a ++ drop (off + length a) l) = drop (off + (length a + length b)) l).
  { rewrite app_assoc, drop_app_ge by (rewrite length_app, length_take; lia). rewrite drop_drop. f_equal.
    rewrite length_app, length_take. lia. }
  rewrite E1, E2. by rewrite <- !app_assoc.
Qed.

Lemma slice_splice_after {A} off off' n (a l : list A) :
  (off + length a <= off')%nat -> (off + length a <= length l)%nat -> slice off' n (splice off a l) = slice off' n l.
Proof.
  intros Ho Hl. unfold slice, splice. f_equal. rewrite app_assoc, drop_app_ge by (rewrite length_app, length_take; lia).
  rewrite drop_drop. f_equal. rewrite length_app, length_take. lia.
Qed.

Lemma splice_same (a b l : bytes) off : length a = length b -> (off + length a <= length l)%nat ->
  splice off b (splice off a l) = splice off b l.
Proof.
  intros Hab Hl. unfold splice. rewrite <- Hab. f_equal; [|f_equal].
  - rewrite take_app_le, take_take by (rewrite length_take; lia). f_equal. lia.
  - rewrite app_assoc, drop_app_ge by (rewrite length_app, length_take; lia). rewrite drop_drop. f_equal.
    rewrite length_app, length_take. lia.
Qed.

Lemma slice_app_next {A} off n m (l : list A) : slice off n l ++ slice (off + n) m l = slice off (n + m) l.
Proof. unfold slice. rewrite <- drop_drop. apply take_take_drop. Qed.

Lemma slice_splice_before {A} off off' n (a l : list A) :
  (off' + n <= off)%nat -> (off <= length l)%nat -> slice off' n (splice off a l) = slice off' n l.
Proof.
  intros Ho Hl. unfold slice, splice. rewrite drop_app_le, take_app_le by (rewrite ?length_drop, length_take; lia).
  rewrite skipn_firstn_comm, take_take. f_equal. lia.
Qed.

#[export] Hint Resolve byte_u8 bytes_ok_be_bytes bytes_ok_xor : lacuna.
#[export] Hint Rewrite length_be_bytes length_le_bytes length_xor_bytes @length_app
  @length_take @length_drop @length_replicate : lacuna_len.

(** Lengths of lists built by the operations above. *)
Ltac len := autorewrite with lacuna_len in *; try lia; cbn [length] in *; try lia.
