(* ===== verification/Text.v ===== *)
(** * Numbers as text

    What the sysfs attributes use of the kernel's string functions: the "%d" and
    "%X" conversions of printf, and simple_strtoul, simple_strtol and the "%d"
    conversion of sscanf (linux-3.0/lib/vsprintf.c). *)

From S2P Require Import Prelude.

Definition c_minus : Z := 45.
Definition c_0 : Z := 48.

Definition isdigit (c : Z) : bool := (48 <=? c) && (c <=? 57).
Definition isspace (c : Z) : bool := (c =? 32) || ((9 <=? c) && (c <=? 13)).
Definition isxdigit (c : Z) : bool :=
  isdigit c || ((65 <=? c) && (c <=? 70)) || ((97 <=? c) && (c <=? 102)).

(** [TOLOWER] *)
Definition tolower (c : Z) : Z := Z.lor c 32.

(** The character of a string, NUL at its end. *)
Definition chr (s : bytes) : Z := default 0 (head s).

Fixpoint skip_spaces (s : bytes) : bytes :=
  match s with
  | c :: s' => if isspace c then skip_spaces s' else s
  | [] => []
  end.

(** The loop of [simple_strtoull], the base given. *)
Fixpoint strtoull_loop (base acc : Z) (cp : bytes) : Z :=
  match cp with
  | [] => acc
  | c :: cp' =>
      if isxdigit c then
        let value := if isdigit c then c - 48 else tolower c - 97 + 10 in
        if base <=? value then acc else strtoull_loop base (u64 (acc * base + value)) cp'
      else acc
  end.

(** [simple_strtoull] for base 10 *)
Definition simple_strtoull (cp : bytes) : Z := strtoull_loop 10 0 cp.

(** [simple_strtol], as a 64-bit [long] *)
Definition simple_strtol (cp : bytes) : Z :=
  if chr cp =? c_minus then signed 64 (- simple_strtoull (drop 1 cp)) else signed 64 (simple_strtoull cp).

(** [sscanf(buf, "%d", &i)]: the [int] stored, if the result is 1. *)
Definition sscanf_d (buf : bytes) : option Z :=
  if chr buf =? 0 then None else
  let str := skip_spaces buf in
  let digit := if chr str =? c_minus then chr (drop 1 str) else chr str in
  if isdigit digit then Some (s32 (simple_strtol str)) else None.

(** The digits of a number, most significant first, and back. *)
Fixpoint digits (base : Z) (fuel : nat) (n : Z) : list Z :=
  match fuel with
  | O => []
  | S fuel' => if n <? base then [n] else digits base fuel' (n / base) ++ [n mod base]
  end.

Definition undigits (base : Z) (l : list Z) : Z := foldl (fun a d => a * base + d) 0 l.

Definition digit_chr (d : Z) : Z := if d <? 10 then 48 + d else 55 + d.

(** [sprintf(buf, "%d", n)] for an [int] *)
Definition sprintf_d (n : Z) : bytes :=
  if n <? 0 then c_minus :: (digit_chr <$> digits 10 10 (- n)) else digit_chr <$> digits 10 10 n.

(** [sprintf(buf, "%X", n)] for an [unsigned int] *)
Definition sprintf_X (n : Z) : bytes := digit_chr <$> digits 16 8 n.

(** ** Facts *)

Lemma digits_range base fuel n : 2 <= base -> 0 <= n -> Forall (fun d => 0 <= d < base) (digits base fuel n).
Proof.
  intros Hb. revert n. induction fuel as [|fuel IH]; intros n Hn; simpl; [constructor|].
  case_match; [repeat constructor; lia|]. apply Forall_app. split.
  - apply IH. apply Z.div_pos; lia.
  - repeat constructor; apply Z.mod_pos_bound; lia.
Qed.

Lemma undigits_snoc base l d : undigits base (l ++ [d]) = undigits base l * base + d.
Proof. unfold undigits. by rewrite foldl_app. Qed.

Lemma undigits_digits base (fuel : nat) n :
  2 <= base -> 0 <= n < base ^ fuel -> undigits base (digits base fuel n) = n.
Proof.
  intros Hb. revert n. induction fuel as [|fuel IH]; intros n Hn; [change (base ^ 0%nat) with 1 in Hn; change (0 = n); lia|]. simpl.
  case_match; [done|]. rewrite undigits_snoc, IH; [rewrite Z.mul_comm; symmetry; apply Z.div_mod; lia|].
  rewrite Nat2Z.inj_succ, Z.pow_succ_r in Hn by lia.
  split; [apply Z.div_pos; lia|apply Z.div_lt_upper_bound; lia].
Qed.

Lemma length_digits base fuel n : (length (digits base fuel n) <= fuel)%nat.
Proof.
  revert n. induction fuel as [|fuel IH]; intros n; simpl; [lia|].
  case_match; simpl; [lia|]. rewrite length_app. simpl. specialize (IH (n / base)). lia.
Qed.

Lemma digits_nonempty base fuel n : (0 < fuel)%nat -> digits base fuel n <> [].
Proof.
  destruct fuel as [|fuel]; [lia|]. intros _. simpl. case_match; [done|].
  by destruct (digits base fuel (n / base)).
Qed.

Lemma foldl_undigits base a l :
  foldl (fun a d => a * base + d) a l = a * base ^ length l + undigits base l.
Proof.
  unfold undigits. induction l as [|x l IH] using rev_ind; [simpl; lia|].
  rewrite !foldl_app, length_app. simpl. rewrite IH.
  replace (Z.of_nat (length l + 1)) with (Z.succ (length l)) by lia. rewrite Z.pow_succ_r by lia. ring.
Qed.

Lemma undigits_nonneg base l : 0 <= base -> Forall (fun d => 0 <= d < base) l -> 0 <= undigits base l.
Proof.
  intros Hb. unfold undigits. induction l as [|x l IH] using rev_ind; [simpl; lia|].
  rewrite Forall_app, Forall_singleton, foldl_app. simpl. intros [Hl Hx]. specialize (IH Hl). nia.
Qed.

(** The digit loop reads decimal digits back. *)
Lemma strtoull_digits l acc rest :
  Forall (fun d => 0 <= d < 10) l -> 0 <= acc -> acc * 10 ^ length l + undigits 10 l < 2 ^ 64 ->
  isxdigit (chr rest) = false ->
  strtoull_loop 10 acc ((digit_chr <$> l) ++ rest) = foldl (fun a d => a * 10 + d) acc l.
Proof.
  intros Hl. revert acc. induction Hl as [|d l Hd Hl IH]; intros acc Ha Hlt Hr.
  { destruct rest as [|c rest]; [done|]. change (isxdigit c = false) in Hr. simpl. by rewrite Hr. }
  cbn [fmap list_fmap app strtoull_loop foldl].
  assert (Hc : digit_chr d = 48 + d) by (unfold digit_chr; case_match; lia). rewrite Hc.
  unfold isxdigit, isdigit. replace ((48 <=? 48 + d) && (48 + d <=? 57)) with true by lia. simpl.
  replace (10 <=? 48 + d - 48) with false by lia.
  assert (Hnn : 0 <= undigits 10 l) by (apply undigits_nonneg; [lia|done]).
  assert (E : undigits 10 (d :: l) = d * 10 ^ length l + undigits 10 l) by (unfold undigits at 1; simpl; apply foldl_undigits).
  rewrite E in Hlt. simpl length in Hlt. rewrite Nat2Z.inj_succ, Z.pow_succ_r in Hlt by lia.
  assert (Hp : 1 <= 10 ^ length l) by (pose proof (Z.pow_pos_nonneg 10 (length l)); lia).
  rewrite u64_small by nia. replace (48 + d - 48) with d by lia. apply IH; [lia|nia|done].
Qed.

Lemma simple_strtol_d n rest : 0 <= n < 2 ^ 31 -> isxdigit (chr rest) = false ->
  simple_strtoull ((digit_chr <$> digits 10 10 n) ++ rest) = n.
Proof.
  intros Hn Hr. unfold simple_strtoull. rewrite strtoull_digits; try done; try lia.
  - change (undigits 10 (digits 10 10 n) = n). apply undigits_digits; lia.
  - apply digits_range; lia.
  - rewrite undigits_digits; lia.
Qed.

Lemma signed_small w z : 0 < w -> - 2 ^ (w - 1) <= z < 2 ^ (w - 1) -> signed w z = z.
Proof.
  intros Hw H. unfold signed.
  assert (E : 2 ^ w = 2 * 2 ^ (w - 1)) by (rewrite <- Z.pow_succ_r by lia; f_equal; lia). rewrite E.
  set (p := 2 ^ (w - 1)) in *. destruct (Z.le_gt_cases 0 z).
  - rewrite Z.mod_small by lia. by replace (z <? p) with true by lia.
  - rewrite <- (Z.mod_unique z (2 * p) (-1) (z + 2 * p)) by lia.
    replace (z + 2 * p <? p) with false by lia. lia.
Qed.

(** A digit string begins with a digit. *)
Lemma digits_head m rest : 0 <= m -> exists d t, (digit_chr <$> digits 10 10 m) ++ rest = (48 + d) :: t /\ 0 <= d < 10.
Proof.
  intros Hm. pose proof (digits_range 10 10 m ltac:(lia) Hm) as HF.
  destruct (digits 10 10 m) as [|d t] eqn:E; [by apply digits_nonempty in E; [|lia]|].
  apply Forall_cons in HF as [Hd _]. exists d, ((digit_chr <$> t) ++ rest). split; [|done].
  cbn [fmap list_fmap app]. f_equal. unfold digit_chr. case_match; lia.
Qed.

(** Printing an [int] and scanning it gives it back, with a newline or not. *)
Lemma sscanf_sprintf_d n rest : - 2 ^ 31 < n < 2 ^ 31 -> isxdigit (chr rest) = false ->
  sscanf_d (sprintf_d n ++ rest) = Some n.
Proof.
  intros Hn Hr. unfold sprintf_d, sscanf_d, simple_strtol. destruct (n <? 0) eqn:Hneg.
  - destruct (digits_head (- n) rest) as (d & t & E & Hd); [lia|].
    pose proof (simple_strtol_d (- n) rest ltac:(lia) Hr) as Hs. rewrite E in Hs. cbn [app]. rewrite E.
    change (skip_spaces (c_minus :: 48 + d :: t)) with (c_minus :: 48 + d :: t).
    change (drop 1 (c_minus :: 48 + d :: t)) with (48 + d :: t).
    change (chr (c_minus :: 48 + d :: t)) with c_minus. change (chr (48 + d :: t)) with (48 + d).
    change (c_minus =? 0) with false. rewrite Z.eqb_refl. cbv iota zeta.
    replace (isdigit (48 + d)) with true by (unfold isdigit; lia). rewrite Hs, Z.opp_involutive, signed_small by lia.
    by rewrite s32_small by lia.
  - destruct (digits_head n rest) as (d & t & E & Hd); [lia|].
    pose proof (simple_strtol_d n rest ltac:(lia) Hr) as Hs. rewrite E in *. cbn [skip_spaces].
    replace (isspace (48 + d)) with false by (unfold isspace; lia). change (chr (48 + d :: t)) with (48 + d).
    replace (48 + d =? 0) with false by lia. replace (48 + d =? c_minus) with false by (unfold c_minus; lia). cbv iota zeta.
    replace (isdigit (48 + d)) with true by (unfold isdigit; lia). rewrite Hs, signed_small by lia.
    by rewrite s32_small by lia.
Qed.
