(* ===== verification/Mpi.v ===== *)
(** * Multi-precision integers

    PolarSSL's bignum.c as it is built into the kernel
    (src/host/linux-3.0/drivers/priv/polarssl) and, but for one configuration switch,
    into the user library (src/crypto/polarssl-1.1.1): numbers are arrays of 64-bit
    limbs with a sign.  This file has the operations up to multiplication; [MpiDiv] has
    division and [MpiExp] modular exponentiation. *)

From S2P Require Import Prelude.

(** ** Allocation *)

(** [malloc] and [free]: kernel memory or the process's. *)
Class Alloc (S : Type) := {
  mm_alloc : M S bool;
  mm_free : M S unit;
}.

Definition POLARSSL_ERR_MPI_BAD_INPUT_DATA : Z := -4.
Definition POLARSSL_ERR_MPI_INVALID_CHARACTER : Z := -6.
Definition POLARSSL_ERR_MPI_BUFFER_TOO_SMALL : Z := -8.
Definition POLARSSL_ERR_MPI_NEGATIVE_VALUE : Z := -10.
Definition POLARSSL_ERR_MPI_DIVISION_BY_ZERO : Z := -12.
Definition POLARSSL_ERR_MPI_MALLOC_FAILED : Z := -16.
Definition POLARSSL_MPI_MAX_LIMBS : Z := 10000.

(** ** Numbers *)

(** [mpi]: the sign and the limbs, least significant first; no limbs is a NULL
    pointer. *)
Record mpi := Mpi { mp_s : Z; mp_p : list Z }.

Definition set_p (X : mpi) (p : list Z) : mpi := Mpi (mp_s X) p.
Definition set_s (s : Z) (X : mpi) : mpi := Mpi s (mp_p X).

Definition limb (p : list Z) (i : nat) : Z := default 0 (p !! i).

(** [for( j = n; j > 0; j-- ) if( p[j - 1] != 0 ) break;] *)
Fixpoint used (p : list Z) (j : nat) : nat :=
  match j with
  | O => O
  | S j' => if limb p j' =? 0 then used p j' else j
  end.

(** [for( i = n - 1; i > 0; i-- ) if( p[i] != 0 ) break;] *)
Fixpoint top_index (p : list Z) (i : nat) : nat :=
  match i with
  | O => O
  | S i' => if limb p i =? 0 then top_index p i' else i
  end.

(** [MPI_CHK]: go on with the object, or leave with the status. *)
Definition chk {St A B} (m : M St (Z * A)) (leave : A -> B) (k : A -> M St (Z * B)) : M St (Z * B) :=
  let! r := m in
  if truthy (fst r) then ret (fst r, leave (snd r)) else k (snd r).

(** An access outside the limbs is a fault. *)
Definition in_bounds {St A} (o : option A) : M St A :=
  match o with Some a => ret a | None => oops OutOfBounds end.

Section Mpi.
Context {St : Type} {AL : Alloc St}.
Abbreviation P := (M St).

(** [mpi_init], and a structure cleared with [memset] *)
Definition mpi_init : mpi := Mpi 1 [].
Definition mpi_zeroed : mpi := Mpi 0 [].

(** [mpi_free] *)
Definition mpi_free (X : mpi) : P mpi :=
  match mp_p X with
  | [] => ret mpi_init
  | _ => mm_free ;; ret mpi_init
  end.

(** [mpi_grow] *)
Definition mpi_grow (X : mpi) (nblimbs : nat) : P (Z * mpi) :=
  if POLARSSL_MPI_MAX_LIMBS <? nblimbs then ret (POLARSSL_ERR_MPI_MALLOC_FAILED, X) else
  if (length (mp_p X) <? nblimbs)%nat then
    let! ok := mm_alloc in
    if negb ok then ret (POLARSSL_ERR_MPI_MALLOC_FAILED, X) else
    (match mp_p X with [] => ret tt | _ => mm_free end) ;;
    ret (0, set_p X (mp_p X ++ zeros (nblimbs - length (mp_p X))))
  else ret (0, X).

(** [mpi_copy] of another number; [Y->n - 1] wraps around where there are no limbs. *)
Definition mpi_copy (X Y : mpi) : P (Z * mpi) :=
  match length (mp_p Y) with
  | O => oops OutOfBounds
  | S m =>
      let i := S (top_index (mp_p Y) m) in
      chk (mpi_grow (set_s (mp_s Y) X) i) id (fun X =>
      ret (0, set_p X (take i (mp_p Y) ++ zeros (length (mp_p X) - i))))
  end.

(** [mpi_lset] *)
Definition mpi_lset (X : mpi) (z : Z) : P (Z * mpi) :=
  chk (mpi_grow X 1) id (fun X =>
  ret (0, Mpi (if z <? 0 then -1 else 1) (u64 (Z.abs z) :: zeros (length (mp_p X) - 1)))).

(** The position of the highest bit: [for( j = biL; j > 0; j-- ) ...] *)
Fixpoint bits_loop (x : Z) (j : nat) : nat :=
  match j with
  | O => O
  | S j' => if Z.testbit x j' then j else bits_loop x j'
  end.

(** [mpi_msb], [mpi_size] *)
Definition mpi_msb (X : mpi) : P nat :=
  match length (mp_p X) with
  | O => oops OutOfBounds
  | S m =>
      let i := top_index (mp_p X) m in
      ret (i * 64 + bits_loop (limb (mp_p X) i) 64)%nat
  end.
Definition mpi_size (X : mpi) : P nat := let! n := mpi_msb X in ret ((n + 7) / 8)%nat.

(** ** Shifts *)

(** The bit shift of [mpi_shift_l], from the low limb with the carried bits [r0]. *)
Fixpoint shl_loop (t1 : Z) (r0 : Z) (p : list Z) : list Z :=
  match p with
  | [] => []
  | x :: p => Z.lor (u64 (Z.shiftl x t1)) r0 :: shl_loop t1 (Z.shiftr x (64 - t1)) p
  end.

Definition shift_limbs_l (v0 : nat) (p : list Z) : list Z := take (length p) (zeros v0 ++ p).

(** [mpi_shift_l] *)
Definition mpi_shift_l (X : mpi) (count : nat) : P (Z * mpi) :=
  let v0 := (count / 64)%nat in
  let t1 := (count mod 64)%nat in
  let! m := mpi_msb X in
  let i := (m + count)%nat in
  chk (if (length (mp_p X) * 64 <? i)%nat then mpi_grow X ((i + 63) / 64) else ret (0, X)) id (fun X =>
  let p := if (0 <? v0)%nat then shift_limbs_l v0 (mp_p X) else mp_p X in
  let p := if (0 <? t1)%nat then take v0 p ++ shl_loop t1 0 (drop v0 p) else p in
  ret (0, set_p X p)).

(** The bit shift of [mpi_shift_r], from the high limb: the limbs and the bits carried
    out. *)
Fixpoint shr_loop (v1 : Z) (p : list Z) : list Z * Z :=
  match p with
  | [] => ([], 0)
  | x :: p =>
      let '(p', r0) := shr_loop v1 p in
      (Z.lor (Z.shiftr x v1) r0 :: p', u64 (Z.shiftl x (64 - v1)))
  end.

(** [mpi_shift_r]: with more limbs to drop than there are, [X->n - v0] wraps around. *)
Definition mpi_shift_r (X : mpi) (count : nat) : P (Z * mpi) :=
  let v0 := (count / 64)%nat in
  let v1 := (count mod 64)%nat in
  if (length (mp_p X) <? v0)%nat then oops OutOfBounds else
  let p := if (0 <? v0)%nat then drop v0 (mp_p X) ++ zeros v0 else mp_p X in
  let p := if (0 <? v1)%nat then fst (shr_loop v1 p) else p in
  ret (0, set_p X p).

(** ** Comparison *)

(** [for( ; i > 0; i-- )] over the limbs of two numbers, [s] the sign to report. *)
Fixpoint cmp_loop (s : Z) (p q : list Z) (i : nat) : Z :=
  match i with
  | O => 0
  | S i' =>
      if limb q i' <? limb p i' then s else
      if limb p i' <? limb q i' then - s else cmp_loop s p q i'
  end.

(** [mpi_cmp_abs] *)
Definition mpi_cmp_abs (X Y : mpi) : Z :=
  let i := used (mp_p X) (length (mp_p X)) in
  let j := used (mp_p Y) (length (mp_p Y)) in
  if (i =? 0)%nat && (j =? 0)%nat then 0 else
  if (j <? i)%nat then 1 else
  if (i <? j)%nat then -1 else
  cmp_loop 1 (mp_p X) (mp_p Y) i.

(** [mpi_cmp_mpi] *)
Definition mpi_cmp_mpi (X Y : mpi) : Z :=
  let i := used (mp_p X) (length (mp_p X)) in
  let j := used (mp_p Y) (length (mp_p Y)) in
  if (i =? 0)%nat && (j =? 0)%nat then 0 else
  if (j <? i)%nat then mp_s X else
  if (i <? j)%nat then - mp_s X else
  if (0 <? mp_s X) && (mp_s Y <? 0) then 1 else
  if (0 <? mp_s Y) && (mp_s X <? 0) then -1 else
  cmp_loop (mp_s X) (mp_p X) (mp_p Y) i.

(** The one-limb number on the stack of the functions that take an integer *)
Definition of_sint (z : Z) : mpi := Mpi (if z <? 0 then -1 else 1) [u64 (Z.abs z)].

(** [mpi_cmp_int] *)
Definition mpi_cmp_int (X : mpi) (z : Z) : Z := mpi_cmp_mpi X (of_sint z).

(** ** Addition *)

(** Which operand, if any, is the object of the result. *)
Inductive alias := NoAlias | XisA | XisB.

(** One limb of the addition: [*p += c; c = ( *p < c ); *p += *o; c += ( *p < *o )] *)
Definition add1 (p o c : Z) : Z * Z :=
  let p1 := u64 (p + c) in
  let c1 := of_bool (p1 <? c) in
  let p2 := u64 (p1 + o) in
  (p2, c1 + of_bool (p2 <? o)).

(** [while( c != 0 )] over the limbs above; the carry that is left when they end *)
Fixpoint carry_loop (p : list Z) (c : Z) : list Z * Z :=
  if c =? 0 then (p, 0) else
  match p with
  | [] => ([], c)
  | x :: p =>
      let x' := u64 (x + c) in
      let '(p', c') := carry_loop p (of_bool (x' <? c)) in
      (x' :: p', c')
  end.

Fixpoint add_loop (o p : list Z) (c : Z) : list Z * Z :=
  match o, p with
  | y :: o, x :: p =>
      let '(x', c) := add1 x y c in
      let '(p', c) := add_loop o p c in
      (x' :: p', c)
  | _, _ => carry_loop p c
  end.

(** [mpi_add_abs]; with [X == B] the operands change places. *)
Definition mpi_add_abs (al : alias) (X A B : mpi) : P (Z * mpi) :=
  let '(A, B) := match al with XisB => (X, A) | _ => (A, B) end in
  chk (match al with NoAlias => mpi_copy X A | _ => ret (0, X) end) id (fun X =>
  let X := set_s 1 X in
  let j := used (mp_p B) (length (mp_p B)) in
  chk (mpi_grow X j) id (fun X =>
  let '(p, c) := add_loop (take j (mp_p B)) (mp_p X) 0 in
  let X := set_p X p in
  if c =? 0 then ret (0, X) else
  chk (mpi_grow X (S (length p))) id (fun X =>
  ret (0, set_p X (p ++ [u64 c]))))).

(** ** Subtraction *)

(** One limb: [z = ( *d < c ); *d -= c; c = ( *d < *s ) + z; *d -= *s] *)
Definition sub1 (d s c : Z) : Z * Z :=
  let z := of_bool (d <? c) in
  let d1 := u64 (d - c) in
  (u64 (d1 - s), of_bool (d1 <? s) + z).

Fixpoint borrow_loop (d : list Z) (c : Z) : option (list Z) :=
  if c =? 0 then Some d else
  match d with
  | [] => None
  | x :: d => (fun d' => u64 (x - c) :: d') <$> borrow_loop d (of_bool (x <? c))
  end.

(** [mpi_sub_hlp]: [n] is the length of [s]; no result where the borrow runs past the
    limbs. *)
Fixpoint mpi_sub_hlp_loop (s d : list Z) (c : Z) : option (list Z) :=
  match s, d with
  | [], _ => borrow_loop d c
  | y :: s, x :: d =>
      let '(x', c) := sub1 x y c in
      (fun d' => x' :: d') <$> mpi_sub_hlp_loop s d c
  | _ :: _, [] => None
  end.
Definition mpi_sub_hlp (s d : list Z) : option (list Z) := mpi_sub_hlp_loop s d 0.

(** [mpi_sub_abs] *)
Definition mpi_sub_abs (al : alias) (X A B : mpi) : P (Z * mpi) :=
  if mpi_cmp_abs A B <? 0 then ret (POLARSSL_ERR_MPI_NEGATIVE_VALUE, X) else
  let! r :=
    chk (match al with XisB => mpi_copy mpi_init B | _ => ret (0, mpi_init) end) (fun TB => (TB, X)) (fun TB =>
    let B := match al with XisB => TB | _ => B end in
    chk (match al with XisA => ret (0, X) | _ => mpi_copy X A end) (fun X => (TB, X)) (fun X =>
    let X := set_s 1 X in
    let n := used (mp_p B) (length (mp_p B)) in
    let! d := in_bounds (mpi_sub_hlp (take n (mp_p B)) (mp_p X)) in
    ret (0, (TB, set_p X d)))) in
  let! _ := mpi_free (fst (snd r)) in
  ret (fst r, snd (snd r)).

Definition swap_alias (al : alias) : alias :=
  match al with NoAlias => NoAlias | XisA => XisB | XisB => XisA end.

(** [mpi_add_mpi], [mpi_sub_mpi], [mpi_add_int], [mpi_sub_int] *)
Definition mpi_add_mpi (al : alias) (X A B : mpi) : P (Z * mpi) :=
  let s := mp_s A in
  if mp_s A * mp_s B <? 0 then
    if 0 <=? mpi_cmp_abs A B then chk (mpi_sub_abs al X A B) id (fun X => ret (0, set_s s X))
    else chk (mpi_sub_abs (swap_alias al) X B A) id (fun X => ret (0, set_s (- s) X))
  else chk (mpi_add_abs al X A B) id (fun X => ret (0, set_s s X)).
Definition mpi_sub_mpi (al : alias) (X A B : mpi) : P (Z * mpi) :=
  let s := mp_s A in
  if 0 <? mp_s A * mp_s B then
    if 0 <=? mpi_cmp_abs A B then chk (mpi_sub_abs al X A B) id (fun X => ret (0, set_s s X))
    else chk (mpi_sub_abs (swap_alias al) X B A) id (fun X => ret (0, set_s (- s) X))
  else chk (mpi_add_abs al X A B) id (fun X => ret (0, set_s s X)).
Definition mpi_add_int (al : alias) (X A : mpi) (b : Z) : P (Z * mpi) := mpi_add_mpi al X A (of_sint b).
Definition mpi_sub_int (al : alias) (X A : mpi) (b : Z) : P (Z * mpi) := mpi_sub_mpi al X A (of_sint b).

(** ** Multiplication *)

(** [MULADDC_CORE] (bn_mul.h, amd64): the limb [d] and the carry after
    [d += s * b + c], by [mulq], [addq] and [adcq]. *)
Definition muladdc (s b c d : Z) : Z * Z :=
  let rax := u64 (s * b) in
  let rdx := u64 (Z.shiftr (s * b) 64) in
  let rax' := u64 (rax + c) in
  let rdx := u64 (rdx + of_bool (rax' <? c)) in
  let d' := u64 (d + rax') in
  (d', u64 (rdx + of_bool (d' <? rax'))).

(** [do { *d += c; c = ( *d < c ); d++; } while( c != 0 )] *)
Fixpoint mul_carry (d : list Z) (c : Z) : option (list Z) :=
  match d with
  | [] => None
  | x :: d =>
      let x' := u64 (x + c) in
      let c' := of_bool (x' <? c) in
      if c' =? 0 then Some (x' :: d) else (fun d' => x' :: d') <$> mul_carry d c'
  end.

(** [mpi_mul_hlp]: [i] is the length of [s].  The unrolled loops do the same steps. *)
Fixpoint mpi_mul_hlp_loop (s d : list Z) (b c : Z) : option (list Z) :=
  match s, d with
  | [], _ => mul_carry d c
  | y :: s, x :: d =>
      let '(x', c) := muladdc y b c x in
      (fun d' => x' :: d') <$> mpi_mul_hlp_loop s d b c
  | _ :: _, [] => None
  end.
Definition mpi_mul_hlp (s d : list Z) (b : Z) : option (list Z) := mpi_mul_hlp_loop s d b 0.

(** [for( ...; j > 0; j-- ) mpi_mul_hlp( i, A->p, X->p + j - 1, B->p[j - 1] )] *)
Fixpoint mul_loop (a b x : list Z) (j : nat) : option (list Z) :=
  match j with
  | O => Some x
  | S j' => d ← mpi_mul_hlp a (drop j' x) (limb b j'); mul_loop a b (take j' x ++ d) j'
  end.

(** [mpi_mul_mpi] *)
Definition mpi_mul_mpi (al : alias) (X A B : mpi) : P (Z * mpi) :=
  let! r :=
    chk (match al with XisA => mpi_copy mpi_init A | _ => ret (0, mpi_init) end) (fun TA => (TA, mpi_init, X)) (fun TA =>
    let A := match al with XisA => TA | _ => A end in
    chk (match al with XisB => mpi_copy mpi_init B | _ => ret (0, mpi_init) end) (fun TB => (TA, TB, X)) (fun TB =>
    let B := match al with XisB => TB | _ => B end in
    let i := used (mp_p A) (length (mp_p A)) in
    let j := used (mp_p B) (length (mp_p B)) in
    chk (mpi_grow X (i + j)) (fun X => (TA, TB, X)) (fun X =>
    chk (mpi_lset X 0) (fun X => (TA, TB, X)) (fun X =>
    let! x := in_bounds (mul_loop (take i (mp_p A)) (mp_p B) (mp_p X) j) in
    ret (0, (TA, TB, Mpi (mp_s A * mp_s B) x)))))) in
  let '(rc, (TA, TB, X)) := r in
  let! _ := mpi_free TB in
  let! _ := mpi_free TA in
  ret (rc, X).

(** [mpi_mul_int]: the integer is taken as unsigned. *)
Definition mpi_mul_int (al : alias) (X A : mpi) (b : Z) : P (Z * mpi) := mpi_mul_mpi al X A (Mpi 1 [u64 b]).

(** ** Binary import and export *)

(** [for( n = 0; n < buflen; n++ ) if( buf[n] != 0 ) break;] *)
Fixpoint leading_zeros (buf : bytes) : nat :=
  match buf with
  | b :: buf => if b =? 0 then S (leading_zeros buf) else 0
  | [] => 0
  end.

(** [for( i = buflen, j = 0; i > n; i--, j++ ) X->p[j / ciL] |= buf[i - 1] << ((j % ciL) << 3)];
    [l] has the bytes from the last. *)
Fixpoint read_loop (l : bytes) (j : nat) (p : list Z) : list Z :=
  match l with
  | [] => p
  | b :: l => read_loop l (S j) (<[(j / 8)%nat := Z.lor (limb p (j / 8)) (u64 (Z.shiftl b ((j mod 8) * 8)))]> p)
  end.

(** [mpi_read_binary] *)
Definition mpi_read_binary (X : mpi) (buf : bytes) : P (Z * mpi) :=
  let n := leading_zeros buf in
  chk (mpi_grow X ((length buf - n + 7) / 8)) id (fun X =>
  chk (mpi_lset X 0) id (fun X =>
  ret (0, set_p X (read_loop (reverse (drop n buf)) 0 (mp_p X))))).

(** [mpi_write_binary]: the status and the buffer. *)
Definition mpi_write_binary (X : mpi) (buflen : nat) : P (Z * bytes) :=
  let! n := mpi_size X in
  if (buflen <? n)%nat then ret (POLARSSL_ERR_MPI_BUFFER_TOO_SMALL, []) else
  ret (0, zeros (buflen - n) ++ reverse ((fun j => u8 (Z.shiftr (limb (mp_p X) (j / 8)) ((j mod 8) * 8))) <$> seq 0 n)).
End Mpi.

(** ** Values *)

Definition LB : Z := 2 ^ 64.

Definition limb_ok (x : Z) : Prop := 0 <= x < LB.
Definition limbs_ok (p : list Z) : Prop := Forall limb_ok p.

Fixpoint lval (p : list Z) : Z :=
  match p with [] => 0 | x :: p => x + LB * lval p end.

(** [LB^n], the first number that needs more than [n] limbs *)
Definition LBn (n : nat) : Z := LB ^ n.

Lemma LB_pos : 0 < LB.
Proof. done. Qed.

Lemma LBn_0 : LBn 0 = 1.
Proof. done. Qed.

Lemma LBn_S n : LBn (S n) = LB * LBn n.
Proof. unfold LBn. rewrite Nat2Z.inj_succ, Z.pow_succ_r by lia. done. Qed.

Lemma LBn_add m n : LBn (m + n) = LBn m * LBn n.
Proof. unfold LBn. by rewrite Nat2Z.inj_add, Z.pow_add_r by lia. Qed.

Lemma LBn_pos n : 0 < LBn n.
Proof. apply Z.pow_pos_nonneg; [apply LB_pos|lia]. Qed.

Lemma LBn_mono m n : (m <= n)%nat -> LBn m <= LBn n.
Proof. intros. apply Z.pow_le_mono_r; [apply LB_pos|lia]. Qed.

Lemma LBn_bits n : LBn n = 2 ^ (64 * n).
Proof. unfold LBn, LB. by rewrite <- Z.pow_mul_r by lia. Qed.

Lemma u64_LB z : u64 z = z mod LB.
Proof. done. Qed.

Lemma u64_ok z : limb_ok (u64 z).
Proof. apply Z.mod_pos_bound. done. Qed.

Lemma u64_limb x : limb_ok x -> u64 x = x.
Proof. intros. apply u64_small. done. Qed.

Create HintDb mpi.
#[export] Hint Resolve u64_ok LBn_pos LB_pos : mpi.

Lemma lval_app p q : lval (p ++ q) = lval p + LBn (length p) * lval q.
Proof.
  induction p as [|x p IH]; cbn [app lval length]; [by rewrite LBn_0, Z.mul_1_l|]. rewrite IH, LBn_S. ring.
Qed.

Lemma lval_zeros n : lval (zeros n) = 0.
Proof. induction n as [|n IH]; [done|]. change (zeros (S n)) with (0 :: zeros n). cbn [lval]. rewrite IH. lia. Qed.

Lemma lval_bound p : limbs_ok p -> 0 <= lval p < LBn (length p).
Proof.
  induction 1 as [|x p Hx Hp IH]; [done|]. cbn [lval length]. rewrite LBn_S. unfold limb_ok in Hx. nia.
Qed.

Lemma limbs_ok_app p q : limbs_ok (p ++ q) <-> limbs_ok p /\ limbs_ok q.
Proof. apply Forall_app. Qed.

Lemma limbs_ok_zeros n : limbs_ok (zeros n).
Proof. apply Forall_replicate. done. Qed.

Lemma limbs_ok_take p n : limbs_ok p -> limbs_ok (take n p).
Proof. apply Forall_take. Qed.

Lemma limbs_ok_drop p n : limbs_ok p -> limbs_ok (drop n p).
Proof. apply Forall_drop. Qed.

#[export] Hint Resolve limbs_ok_zeros limbs_ok_take limbs_ok_drop : mpi.

Lemma limb_limb_ok p i : limbs_ok p -> limb_ok (limb p i).
Proof. intros H. unfold limb. destruct (p !! i) as [x|] eqn:E; [|done]. eapply Forall_lookup_1; eauto. Qed.

#[export] Hint Resolve limb_limb_ok : mpi.

Lemma limb_cons x p i : limb (x :: p) (S i) = limb p i.
Proof. done. Qed.

Lemma lval_split p n : (n <= length p)%nat -> lval p = lval (take n p) + LBn n * lval (drop n p).
Proof. intros. rewrite <- (take_drop n p) at 1. rewrite lval_app, length_take. do 2 f_equal. f_equal. lia. Qed.

Lemma lval_take_S p n : (n < length p)%nat -> lval (take (S n) p) = lval (take n p) + LBn n * limb p n.
Proof.
  intros Hn. destruct (lookup_lt_is_Some_2 p n Hn) as [x Hx]. unfold limb. rewrite Hx. cbn.
  rewrite (take_S_r _ _ x Hx), lval_app, length_take. cbn [lval]. rewrite Nat.min_l by lia. lia.
Qed.

(** ** Significant limbs *)

Lemma used_le p j : (used p j <= j)%nat.
Proof. induction j as [|j IH]; [done|]. cbn [used]. case_match; lia. Qed.

Lemma used_take p j : (j <= length p)%nat -> lval (take (used p j) p) = lval (take j p).
Proof.
  induction j as [|j IH]; [done|]. intros Hj. cbn [used]. case_match eqn:E; [|done].
  rewrite IH by lia. rewrite lval_take_S by lia. lia.
Qed.

Lemma used_lval p : lval (take (used p (length p)) p) = lval p.
Proof. rewrite used_take by lia. by rewrite take_ge by lia. Qed.

Lemma used_top p j : (0 < used p j)%nat -> limb p (used p j - 1) <> 0.
Proof.
  induction j as [|j IH]; [cbn; lia|]. cbn [used]. case_match eqn:E; [done|]. intros _. cbn [Nat.sub]. rewrite Nat.sub_0_r. lia.
Qed.

Lemma used_zero p : limbs_ok p -> used p (length p) = 0%nat <-> lval p = 0.
Proof.
  intros Hp. split; intros H.
  - by rewrite <- used_lval, H.
  - destruct (used p (length p)) as [|k] eqn:E; [done|]. exfalso.
    pose proof (used_top p (length p)) as Ht. pose proof (used_le p (length p)) as Hle. rewrite E in *. cbn [Nat.sub] in Ht. rewrite Nat.sub_0_r in Ht.
    specialize (Ht ltac:(lia)). rewrite <- used_lval, E, lval_take_S in H by lia.
    pose proof (lval_bound (take k p) ltac:(auto with mpi)). pose proof (limb_limb_ok p k Hp) as [? _]. pose proof (LBn_pos k). nia.
Qed.

Lemma used_bound p k : limbs_ok p -> used p (length p) = S k -> LBn k <= lval p < LBn (S k).
Proof.
  intros Hp E. pose proof (used_top p (length p)) as Ht. pose proof (used_le p (length p)) as Hle. rewrite E in *.
  cbn [Nat.sub] in Ht. rewrite Nat.sub_0_r in Ht. specialize (Ht ltac:(lia)). pose proof (limb_limb_ok p k Hp) as Hx.
  pose proof (lval_bound (take k p) ltac:(auto with mpi)) as Hb. rewrite length_take, Nat.min_l in Hb by lia.
  rewrite <- used_lval, E, lval_take_S, LBn_S by lia. unfold limb_ok in Hx. pose proof (LBn_pos k). nia.
Qed.

Lemma used_small p n : limbs_ok p -> lval p < LBn n -> (used p (length p) <= n)%nat.
Proof.
  intros Hp Hn. destruct (used p (length p)) as [|k] eqn:E; [lia|]. pose proof (used_bound p k Hp E) as [H _].
  destruct (decide (S k <= n)%nat); [done|]. pose proof (LBn_mono n k ltac:(lia)). lia.
Qed.

Lemma top_index_used p m : top_index p m = (used p (S m) - 1)%nat.
Proof.
  induction m as [|m IH]; [cbn; by case_match|]. cbn [top_index]. rewrite IH. cbn [used]. case_match; lia.
Qed.

(** ** The limb loops *)

Definition carry_ok (c : Z) : Prop := c = 0 \/ c = 1.

Lemma of_bool_ok b : carry_ok (of_bool b).
Proof. destruct b; [by right|by left]. Qed.

Lemma u64_add z : 0 <= z < 2 * LB -> z < LB /\ u64 z = z \/ LB <= z /\ u64 z = z - LB.
Proof.
  intros H. rewrite u64_LB. destruct (decide (z < LB)); [left|right]; split; try lia.
  - apply Z.mod_small; lia.
  - symmetry. apply (Z.mod_unique_pos _ _ 1); lia.
Qed.

Lemma u64_sub z : - LB <= z < LB -> 0 <= z /\ u64 z = z \/ z < 0 /\ u64 z = z + LB.
Proof.
  intros H. rewrite u64_LB. destruct (decide (0 <= z)); [left|right]; split; try lia.
  - apply Z.mod_small; lia.
  - symmetry. apply (Z.mod_unique_pos _ _ (-1)); lia.
Qed.

(** [a <? b] where the truth is known by arithmetic *)
Ltac ltb_case := repeat match goal with |- context [of_bool (?a <? ?b)] => destruct (Z.ltb_spec a b); cbn [of_bool] end.

Lemma add1_spec p o c : limb_ok p -> limb_ok o -> carry_ok c ->
  let '(p', c') := add1 p o c in limb_ok p' /\ carry_ok c' /\ p' + LB * c' = p + o + c.
Proof.
  unfold limb_ok, carry_ok, add1. intros Hp Ho Hc.
  destruct (u64_add (p + c)) as [[? E1]|[? E1]]; [lia| |]; rewrite E1;
    (destruct (u64_add (u64 (p + c) + o)) as [[? E2]|[? E2]]; rewrite E1 in *; [lia| |]); rewrite E2; ltb_case; lia.
Qed.

Lemma carry_loop_spec p c : limbs_ok p -> carry_ok c ->
  let '(p', c') := carry_loop p c in
  length p' = length p /\ limbs_ok p' /\ carry_ok c' /\ lval p' + LBn (length p) * c' = lval p + c.
Proof.
  intros Hp. revert c. induction Hp as [|x p Hx Hp IH]; intros c Hc; cbn [carry_loop].
  - destruct (Z.eqb_spec c 0) as [->|]; cbn; rewrite LBn_0; split_and!; try done; try by constructor. lia.
  - destruct (Z.eqb_spec c 0) as [->|Hc0].
    + split_and!; [done|by constructor|by left|lia].
    + specialize (IH (of_bool (u64 (x + c) <? c)) (of_bool_ok _)). unfold limb_ok, carry_ok in Hx, Hc.
      destruct (u64_add (x + c)) as [[? E]|[? E]]; [lia| |];
        destruct (carry_loop p _) as [p' c'] eqn:Ec; destruct IH as (Hl & Hok & Hc' & Hv); rewrite E in *;
        cbn [length lval]; rewrite LBn_S; (split_and!; [by rewrite Hl|constructor; [unfold limb_ok; lia|done]|done|]);
        revert Hv; ltb_case; nia.
Qed.

Lemma add_loop_spec o p c : limbs_ok o -> limbs_ok p -> carry_ok c -> (length o <= length p)%nat ->
  let '(p', c') := add_loop o p c in
  length p' = length p /\ limbs_ok p' /\ carry_ok c' /\ lval p' + LBn (length p) * c' = lval p + lval o + c.
Proof.
  intros Ho. revert p c. induction Ho as [|y o Hy Ho IH]; intros p c Hp Hc Hl.
  - destruct p; cbn [add_loop lval]; rewrite Z.add_0_r; by apply carry_loop_spec.
  - destruct Hp as [|x p Hx Hp]; [cbn in Hl; lia|]. cbn [add_loop]. pose proof (add1_spec x y c Hx Hy Hc) as H1.
    destruct (add1 x y c) as [x' c1]. destruct H1 as (Hx' & Hc1 & E1). specialize (IH p c1 Hp Hc1 ltac:(cbn in Hl; lia)).
    destruct (add_loop o p c1) as [p' c2]. destruct IH as (Hl' & Hok & Hc2 & E2). cbn [length lval]. rewrite LBn_S.
    split_and!; [by rewrite Hl'|by constructor|done|]. nia.
Qed.

Lemma sub1_spec d s c : limb_ok d -> limb_ok s -> carry_ok c ->
  let '(d', c') := sub1 d s c in limb_ok d' /\ carry_ok c' /\ d' - LB * c' = d - s - c.
Proof.
  unfold limb_ok, carry_ok, sub1. intros Hd Hs Hc.
  destruct (u64_sub (d - c)) as [[? E1]|[? E1]]; [lia| |]; rewrite E1;
    (destruct (u64_sub (u64 (d - c) - s)) as [[? E2]|[? E2]]; rewrite E1 in *; [lia| |]); rewrite E2; ltb_case; lia.
Qed.

Lemma borrow_loop_spec d c : limbs_ok d -> carry_ok c -> c <= lval d ->
  exists d', borrow_loop d c = Some d' /\ length d' = length d /\ limbs_ok d' /\ lval d' = lval d - c.
Proof.
  intros Hd. revert c. induction Hd as [|x d Hx Hd IH]; intros c Hc Hle; cbn [borrow_loop].
  - destruct (Z.eqb_spec c 0) as [->|]; [|cbn in Hle; unfold carry_ok in Hc; lia]. exists []. split_and!; try done. by constructor.
  - destruct (Z.eqb_spec c 0) as [->|Hc0].
    + exists (x :: d). split_and!; try done; [by constructor|lia].
    + cbn [lval] in *. unfold limb_ok, carry_ok in Hx, Hc. pose proof (lval_bound d Hd) as Hb.
      destruct (IH (of_bool (x <? c)) (of_bool_ok _)) as (d' & E & Hl & Hok & Hv); [ltb_case; nia|].
      rewrite E. exists (u64 (x - c) :: d'). split; [done|]. cbn [length lval].
      split_and!; [by rewrite Hl|constructor; [apply u64_ok|done]|].
      rewrite Hv. destruct (u64_sub (x - c)) as [[? E1]|[? E1]]; [lia| |]; rewrite E1; ltb_case; nia.
Qed.

Lemma sub_hlp_loop_spec s d c : limbs_ok s -> limbs_ok d -> carry_ok c -> (length s <= length d)%nat -> lval s + c <= lval d ->
  exists d', mpi_sub_hlp_loop s d c = Some d' /\ length d' = length d /\ limbs_ok d' /\ lval d' = lval d - lval s - c.
Proof.
  intros Hs. revert d c. induction Hs as [|y s Hy Hs IH]; intros d c Hd Hc Hl Hle.
  - cbn [mpi_sub_hlp_loop lval] in *. destruct (borrow_loop_spec d c Hd Hc) as (d' & E & ? & ? & ?); [lia|]. exists d'. split_and!; try done. lia.
  - destruct Hd as [|x d Hx Hd]; [cbn in Hl; lia|]. cbn [mpi_sub_hlp_loop]. pose proof (sub1_spec x y c Hx Hy Hc) as H1.
    destruct (sub1 x y c) as [x' c1]. destruct H1 as (Hx' & Hc1 & E1). cbn [lval length] in *. unfold limb_ok in *.
    destruct (IH d c1 Hd Hc1) as (d' & E & Hl' & Hok & Hv); [lia|nia|]. rewrite E. exists (x' :: d'). split; [done|].
    cbn [length lval]. split_and!; [by rewrite Hl'|by constructor|]. rewrite Hv. nia.
Qed.

Lemma mpi_sub_hlp_spec s d : limbs_ok s -> limbs_ok d -> (length s <= length d)%nat -> lval s <= lval d ->
  exists d', mpi_sub_hlp s d = Some d' /\ length d' = length d /\ limbs_ok d' /\ lval d' = lval d - lval s.
Proof.
  intros. destruct (sub_hlp_loop_spec s d 0) as (d' & ? & ? & ? & ?); try done; [by left|lia|]. exists d'. split_and!; try done. lia.
Qed.

Lemma u64_add_carry x c : limb_ok x -> limb_ok c -> u64 (x + c) + LB * of_bool (u64 (x + c) <? c) = x + c.
Proof.
  unfold limb_ok. intros Hx Hc. destruct (u64_add (x + c)) as [[? E]|[? E]]; [lia| |]; rewrite E; ltb_case; lia.
Qed.

Lemma muladdc_spec s b c d : limb_ok s -> limb_ok b -> limb_ok c -> limb_ok d ->
  let '(d', c') := muladdc s b c d in limb_ok d' /\ limb_ok c' /\ d' + LB * c' = d + s * b + c.
Proof.
  intros Hs Hb Hc Hd. unfold muladdc. rewrite Z.shiftr_div_pow2 by lia. change (2 ^ 64) with LB.
  assert (HLB : 2 <= LB) by done.
  assert (Hm : 0 <= s * b <= (LB - 1) * (LB - 1)) by (unfold limb_ok in *; nia).
  pose proof (Z.div_mod (s * b) LB ltac:(done)) as Hdm. pose proof (Z.mod_pos_bound (s * b) LB LB_pos) as Hlo.
  rewrite (u64_LB (s * b)). set (hi := s * b / LB) in *. set (lo := (s * b) mod LB) in *.
  assert (Hhi : 0 <= hi <= LB - 2) by (split; [apply Z.div_pos; lia|clear - Hm Hdm Hlo HLB; nia]).
  rewrite (u64_limb hi) by (unfold limb_ok; lia).
  pose proof (u64_add_carry lo c Hlo Hc) as E1. pose proof (u64_ok (lo + c)) as Hr. set (r := u64 (lo + c)) in *.
  pose proof (of_bool_ok (r <? c)) as Hb1. set (b1 := of_bool (r <? c)) in *.
  pose proof (u64_add_carry d r Hd Hr) as E2. pose proof (u64_ok (d + r)) as Hd'. set (d' := u64 (d + r)) in *.
  pose proof (of_bool_ok (d' <? r)) as Hb2. set (b2 := of_bool (d' <? r)) in *.
  unfold carry_ok, limb_ok in *. rewrite (u64_limb (hi + b1)) by (unfold limb_ok; lia).
  assert (Hfin : hi + b1 + b2 < LB) by (clear - Hm Hdm Hlo Hhi E1 E2 Hd Hc Hd' HLB; nia).
  rewrite u64_limb by (unfold limb_ok; lia). split_and!; try lia.
Qed.

Lemma mul_carry_spec d c : limbs_ok d -> limb_ok c -> d <> [] -> lval d + c < LBn (length d) ->
  exists d', mul_carry d c = Some d' /\ length d' = length d /\ limbs_ok d' /\ lval d' = lval d + c.
Proof.
  intros Hd. revert c. induction Hd as [|x d Hx Hd IH]; intros c Hc Hne Hlt; [done|]. cbn [mul_carry lval length] in *.
  rewrite LBn_S in Hlt. pose proof (u64_add_carry x c Hx Hc) as E. pose proof (u64_ok (x + c)) as Hx'.
  set (x' := u64 (x + c)) in *. destruct (x' <? c); cbn [of_bool Z.eqb] in *.
  - assert (Hne' : d <> []) by (intros ->; cbn in Hlt; rewrite LBn_0 in Hlt; unfold limb_ok in *; lia).
    destruct (IH 1 ltac:(done) Hne') as (d' & Ed & Hl & Hok & Hv); [unfold limb_ok in *; nia|].
    rewrite Ed. exists (x' :: d'). cbn [length lval]. split_and!; [done|by rewrite Hl|by constructor|]. rewrite Hv. lia.
  - exists (x' :: d). cbn [length lval]. split_and!; [done|done|by constructor|lia].
Qed.

Lemma mul_hlp_loop_spec s d b c :
  limbs_ok s -> limbs_ok d -> limb_ok b -> limb_ok c -> (length s < length d)%nat -> lval d + b * lval s + c < LBn (length d) ->
  exists d', mpi_mul_hlp_loop s d b c = Some d' /\ length d' = length d /\ limbs_ok d' /\ lval d' = lval d + b * lval s + c.
Proof.
  intros Hs. revert d c. induction Hs as [|y s Hy Hs IH]; intros d c Hd Hb Hc Hl Hlt.
  - cbn [mpi_mul_hlp_loop lval] in *. rewrite Z.mul_0_r, Z.add_0_r in *. apply mul_carry_spec; try done. intros ->. cbn in Hl. lia.
  - destruct Hd as [|x d Hx Hd]; [cbn in Hl; lia|]. cbn [mpi_mul_hlp_loop]. pose proof (muladdc_spec y b c x Hy Hb Hc Hx) as H1.
    destruct (muladdc y b c x) as [x' c1]. destruct H1 as (Hx' & Hc1 & E1). cbn [lval length] in *. rewrite LBn_S in Hlt.
    destruct (IH d c1 Hd Hb Hc1) as (d' & E & Hl' & Hok & Hv); [lia|unfold limb_ok in *; nia|]. rewrite E. exists (x' :: d').
    cbn [length lval]. split_and!; [done|by rewrite Hl'|by constructor|]. rewrite Hv. nia.
Qed.

Lemma mpi_mul_hlp_spec s d b :
  limbs_ok s -> limbs_ok d -> limb_ok b -> (length s < length d)%nat -> lval d + b * lval s < LBn (length d) ->
  exists d', mpi_mul_hlp s d b = Some d' /\ length d' = length d /\ limbs_ok d' /\ lval d' = lval d + b * lval s.
Proof.
  intros. destruct (mul_hlp_loop_spec s d b 0) as (d' & ? & ? & ? & ?); try done; [lia|]. exists d'. split_and!; try done. lia.
Qed.

(** ** What an allocator promises *)

(** It touches nothing but its own state ([al_frame]), and does not fail while [al_ok]. *)
Class AllocLaws {St} (AL : Alloc St) := {
  al_frame : St -> St -> Prop;
  al_frame_pre :: PreOrder al_frame;
  al_ok : St -> Prop;
  al_alloc : forall s, wp total mm_alloc (fun b s' => al_frame s s' /\ (al_ok s -> b = true /\ al_ok s')) s;
  al_free : forall s, wp total mm_free (fun _ s' => al_frame s s' /\ (al_ok s -> al_ok s')) s;
}.

Section Good.
Context {St : Type} {AL : Alloc St} {LA : AllocLaws AL}.

(** A call that returns status 0 with a result in [Q], or the status of a failed
    allocation; with memory to spare it succeeds. *)
Definition good {A} (Q : A -> Prop) (m : M St (Z * A)) : Prop :=
  forall s, wp total m (fun r s' =>
    al_frame s s' /\ (al_ok s -> fst r = 0 /\ al_ok s') /\
    (fst r = 0 /\ Q (snd r) \/ fst r = POLARSSL_ERR_MPI_MALLOC_FAILED)) s.

(** The same for calls without a status. *)
Definition calm {A} (Q : A -> Prop) (m : M St A) : Prop :=
  forall s, wp total m (fun a s' => al_frame s s' /\ (al_ok s -> al_ok s') /\ Q a) s.

Lemma good_ret {A} (Q : A -> Prop) a : Q a -> good Q (ret (0, a)).
Proof. intros H s. unfold wp, ret. split; [reflexivity|]. split; [done|]. by left. Qed.

Lemma calm_ret {A} (Q : A -> Prop) a : Q a -> calm Q (ret a).
Proof. intros H s. unfold wp, ret. split; [reflexivity|done]. Qed.

Lemma good_mono {A} (Q R : A -> Prop) m : (forall a, Q a -> R a) -> good Q m -> good R m.
Proof. intros H Hm s. eapply wp_mono; [apply Hm|]. intros r s' (F & O & [[E HQ]|E]); eauto 6. Qed.

Lemma good_chk {A C} (Q : A -> Prop) (R : C -> Prop) m (leave : A -> C) k :
  good Q m -> (forall a, Q a -> good R (k a)) -> good R (chk m leave k).
Proof.
  intros Hm Hk s. unfold chk. wp_bind. eapply wp_mono; [apply Hm|]. intros [rc a] s1 (F1 & O1 & H1). cbn [fst snd] in *.
  destruct H1 as [[-> Ha] | -> ].
  - change (truthy 0) with false. cbn iota. eapply wp_mono; [apply (Hk a Ha)|]. intros r s2 (F2 & O2 & H2).
    split; [by etransitivity|]. split; [|done]. intros Hs. apply O2. by apply O1.
  - change (truthy POLARSSL_ERR_MPI_MALLOC_FAILED) with true. cbn iota. wp_pure. cbn [fst snd].
    split; [done|]. split; [|by right]. intros Hs. by destruct (O1 Hs).
Qed.

Lemma good_calm {A C} (Q : A -> Prop) (R : C -> Prop) (m : M St A) k :
  calm Q m -> (forall a, Q a -> good R (k a)) -> good R (bind m k).
Proof.
  intros Hm Hk s. wp_bind. eapply wp_mono; [apply Hm|]. intros a s1 (F1 & O1 & Ha).
  eapply wp_mono; [apply (Hk a Ha)|]. intros r s2 (F2 & O2 & H2). split; [by etransitivity|]. split; [|done]. intros Hs. by apply O2, O1.
Qed.

(** Clean-up code that runs on every path. *)
Lemma good_finally {A C} (Q : A -> Prop) (R : C -> Prop) (m : M St (Z * A)) k :
  good Q m -> (forall rc a, (rc = 0 /\ Q a \/ rc = POLARSSL_ERR_MPI_MALLOC_FAILED) ->
    calm (fun r => fst r = rc /\ (rc = 0 -> R (snd r))) (k (rc, a))) -> good R (bind m k).
Proof.
  intros Hm Hk s. wp_bind. eapply wp_mono; [apply Hm|]. intros [rc a] s1 (F1 & O1 & H1). cbn [fst snd] in *.
  eapply wp_mono; [apply (Hk rc a H1)|]. intros [rc' c] s2 (F2 & O2 & E & H2). cbn [fst snd] in *. subst rc'.
  split; [by etransitivity|]. split; [intros Hs; destruct (O1 Hs); auto|]. destruct H1 as [[-> _] | -> ]; [left; auto|by right].
Qed.

Lemma calm_bind {A C} (Q : A -> Prop) (R : C -> Prop) (m : M St A) k :
  calm Q m -> (forall a, Q a -> calm R (k a)) -> calm R (bind m k).
Proof.
  intros Hm Hk s. wp_bind. eapply wp_mono; [apply Hm|]. intros a s1 (F1 & O1 & Ha).
  eapply wp_mono; [apply (Hk a Ha)|]. intros r s2 (F2 & O2 & H2). split; [by etransitivity|]. split; [|done]. intros Hs. by apply O2, O1.
Qed.

Lemma calm_true {A} (m : M St A) : (forall s, wp total m (fun a s' => al_frame s s' /\ (al_ok s -> al_ok s')) s) -> calm (fun _ => True) m.
Proof. intros H s. eapply wp_mono; [apply H|]. by intros a s' [F O]. Qed.

Lemma good_fail {A} (Q : A -> Prop) rc a : (rc = 0 /\ Q a \/ rc = POLARSSL_ERR_MPI_MALLOC_FAILED) ->
  calm (fun r => fst r = rc /\ (rc = 0 -> Q (snd r))) (ret (rc, a)).
Proof. intros H. apply calm_ret. split; [done|]. intros ->. by destruct H as [[_ HQ]|E]. Qed.

Lemma mpi_free_calm X : calm (fun X' => X' = mpi_init) (mpi_free X).
Proof.
  unfold mpi_free. destruct (mp_p X); [by apply calm_ret|]. eapply calm_bind; [apply calm_true, al_free|]. intros _ _. by apply calm_ret.
Qed.

(** ** With memory to spare *)

(** Calls that run to the end with a result in [Q] when no allocation fails: what holds
    of code that does not look at every status. *)
Definition fine {A} (Q : A -> Prop) (m : M St A) : Prop :=
  forall s, al_ok s -> wp total m (fun a s' => al_frame s s' /\ al_ok s' /\ Q a) s.

Definition ok0 {A} (Q : A -> Prop) (r : Z * A) : Prop := fst r = 0 /\ Q (snd r).

Lemma fine_ret {A} (Q : A -> Prop) a : Q a -> fine Q (ret a).
Proof. intros H s Hs. unfold wp, ret. split; [reflexivity|done]. Qed.

Lemma fine_mono {A} (Q R : A -> Prop) m : (forall a, Q a -> R a) -> fine Q m -> fine R m.
Proof. intros H Hm s Hs. eapply wp_mono; [by apply Hm|]. intros a s' (? & ? & ?). auto. Qed.

Lemma fine_bind {A C} (Q : A -> Prop) (R : C -> Prop) (m : M St A) k :
  fine Q m -> (forall a, Q a -> fine R (k a)) -> fine R (bind m k).
Proof.
  intros Hm Hk s Hs. wp_bind. eapply wp_mono; [by apply Hm|]. intros a s1 (F1 & O1 & Ha).
  eapply wp_mono; [by apply (Hk a Ha)|]. intros r s2 (F2 & O2 & H2). split; [by etransitivity|done].
Qed.

Lemma good_fine {A} (Q : A -> Prop) m : good Q m -> fine (ok0 Q) m.
Proof.
  intros Hm s Hs. eapply wp_mono; [apply Hm|]. intros [rc a] s' (F & O & H). destruct (O Hs) as [E O']. cbn [fst snd] in *. subst rc.
  split_and!; try done. split; [done|]. by destruct H as [[_ H]|H].
Qed.

Lemma calm_fine {A} (Q : A -> Prop) m : calm Q m -> fine Q m.
Proof. intros Hm s Hs. eapply wp_mono; [apply Hm|]. intros a s' (F & O & H). auto. Qed.

Lemma fine_chk {A C} (Q : A -> Prop) (R : Z * C -> Prop) m (leave : A -> C) k :
  fine (ok0 Q) m -> (forall a, Q a -> fine R (k a)) -> fine R (chk m leave k).
Proof. intros Hm Hk. eapply fine_bind; [done|]. intros [rc a] [E Ha]. cbn [fst snd] in *. subst rc. by apply Hk. Qed.

(** A status nobody looks at *)
Lemma fine_unchecked {A C} (Q : A -> Prop) (R : C -> Prop) (m : M St (Z * A)) k :
  good Q m -> (forall a, Q a -> fine R (k (0, a))) -> fine R (bind m k).
Proof. intros Hm Hk. eapply fine_bind; [by apply good_fine|]. intros [rc a] [E Ha]. cbn [fst snd] in *. subst rc. by apply Hk. Qed.

(** ** Growing, copying, setting *)

Lemma MAX_LIMBS_Z : POLARSSL_MPI_MAX_LIMBS = 10000.
Proof. done. Qed.

Definition grown (X : mpi) (n : nat) (X' : mpi) : Prop :=
  mp_s X' = mp_s X /\ mp_p X' = mp_p X ++ zeros (n - length (mp_p X)).

Lemma mpi_grow_good X n : Z.of_nat n <= POLARSSL_MPI_MAX_LIMBS -> good (grown X n) (mpi_grow X n).
Proof.
  intros Hn. unfold mpi_grow. replace (POLARSSL_MPI_MAX_LIMBS <? n) with false by (symmetry; apply Z.ltb_ge; lia).
  destruct (Nat.ltb_spec (length (mp_p X)) n) as [Hlt|Hge].
  - intros s. wp_bind. eapply wp_mono; [apply al_alloc|]. intros ok s1 [F1 O1]. destruct ok; cbn [negb].
    + assert (Hc : calm (fun _ => True) (match mp_p X with [] => ret tt | _ => mm_free end)).
      { destruct (mp_p X); [by apply calm_ret|]. apply calm_true, al_free. }
      wp_bind. eapply wp_mono; [apply Hc|]. intros [] s2 (F2 & O2 & _). wp_pure. cbn [fst snd].
      split; [by etransitivity|]. split; [|by left]. intros Hs. split; [done|]. by apply O2, O1.
    + wp_pure. cbn [fst snd]. split; [done|]. split; [|by right]. intros Hs. by destruct (O1 Hs).
  - apply good_ret. split; [done|]. replace (n - length (mp_p X))%nat with 0%nat by lia. cbn. by rewrite app_nil_r.
Qed.

Lemma grown_ok X n X' : grown X n X' -> limbs_ok (mp_p X) ->
  limbs_ok (mp_p X') /\ lval (mp_p X') = lval (mp_p X) /\ length (mp_p X') = Nat.max (length (mp_p X)) n.
Proof.
  intros [_ ->] Hok. rewrite lval_app, lval_zeros, length_app, length_zeros.
  split_and!; [apply limbs_ok_app; auto with mpi|lia|lia].
Qed.

Definition sig (p : list Z) : nat := used p (length p).

Lemma sig_le p : (sig p <= length p)%nat.
Proof. apply used_le. Qed.

(** [X'] has the value of [v] and at least [n] limbs. *)
Definition holds (s v : Z) (n : nat) (X' : mpi) : Prop :=
  mp_s X' = s /\ limbs_ok (mp_p X') /\ lval (mp_p X') = v /\ length (mp_p X') = n.

Lemma mpi_copy_good X Y :
  mp_p Y <> [] -> limbs_ok (mp_p Y) -> Z.of_nat (sig (mp_p Y)) <= POLARSSL_MPI_MAX_LIMBS ->
  good (holds (mp_s Y) (lval (mp_p Y)) (Nat.max (length (mp_p X)) (Nat.max 1 (sig (mp_p Y))))) (mpi_copy X Y).
Proof.
  intros Hne Hok Hmax. unfold mpi_copy. destruct (length (mp_p Y)) as [|m] eqn:El; [by destruct (mp_p Y)|].
  rewrite top_index_used. set (i := S (used (mp_p Y) (S m) - 1)). unfold sig in *. rewrite El in *.
  assert (Hi : i = Nat.max 1 (used (mp_p Y) (S m))) by lia. pose proof (used_le (mp_p Y) (S m)) as Hle.
  pose proof MAX_LIMBS_Z. eapply good_chk; [apply mpi_grow_good; lia|]. intros X' [Hs Hp]. apply good_ret.
  assert (Hlen : length (mp_p X') = Nat.max (length (mp_p X)) i) by (rewrite Hp; cbn [set_s mp_p]; rewrite length_app, length_zeros; lia).
  unfold holds. cbn [set_p mp_s mp_p]. split_and!.
  - by rewrite Hs.
  - apply limbs_ok_app. auto with mpi.
  - rewrite lval_app, lval_zeros, Z.mul_0_r, Z.add_0_r. transitivity (lval (take (used (mp_p Y) (S m)) (mp_p Y))).
    + destruct (used (mp_p Y) (S m)) as [|k] eqn:E; [|f_equal; f_equal; lia].
      replace i with (S 0) by lia. rewrite lval_take_S by lia. cbn [take lval]. pose proof (used_zero _ Hok) as [Hz _]. rewrite El in Hz.
      specialize (Hz E). destruct (mp_p Y) as [|y ys]; [done|]. cbn [limb lval lookup list_lookup] in *. unfold limb. cbn.
      inversion Hok as [|? ? Hy Hys]; subst. pose proof (lval_bound ys Hys). unfold limb_ok in Hy. rewrite LBn_0. pose proof LB_pos. nia.
    + rewrite <- El. apply used_lval.
  - rewrite length_app, length_take, length_zeros. lia.
Qed.

Lemma mpi_lset_good X z : Z.abs z < LB -> 
  good (holds (if z <? 0 then -1 else 1) (Z.abs z) (Nat.max (length (mp_p X)) 1)) (mpi_lset X z).
Proof.
  intros Hz. pose proof MAX_LIMBS_Z. eapply good_chk; [apply mpi_grow_good; lia|]. intros X' [Hs Hp]. apply good_ret.
  unfold holds. cbn [mp_s mp_p]. split_and!; [done|constructor; [apply u64_ok|apply limbs_ok_zeros]| |].
  - cbn [lval]. rewrite lval_zeros, u64_limb by (unfold limb_ok; lia). lia.
  - cbn [length]. rewrite length_zeros, Hp, length_app, length_zeros. lia.
Qed.
End Good.

(** ** Memory that never runs out *)

#[export] Instance ample : Alloc unit := {| mm_alloc := ret true; mm_free := ret tt |}.

#[export] Instance ample_laws : AllocLaws ample.
Proof. refine {| al_frame := fun _ _ => True; al_ok := fun _ => True |}; by intros []. Defined.
