(* ===== verification/MpiOps.v ===== *)
(** * The operations on multi-precision integers against the integers

    Each function of [Mpi], for numbers in the representation, returns the number it is
    named for, or the status of a failed allocation; with memory to spare it succeeds. *)

From S2P Require Import Prelude Mpi.

(** ** Bits *)

(** The number of bits of a number *)
Definition zbits (v : Z) : nat := if 0 <? v then S (Z.to_nat (Z.log2 v)) else 0.

Lemma zbits_0 : zbits 0 = 0%nat.
Proof. done. Qed.

Lemma zbits_unique v (n : nat) : 2 ^ n <= v < 2 ^ (n + 1) -> zbits v = S n.
Proof.
  intros H. pose proof (Z.pow_pos_nonneg 2 n ltac:(lia) ltac:(lia)). unfold zbits. replace (0 <? v) with true by lia.
  rewrite (Z.log2_unique v n) by (rewrite ?Z.add_1_r in *; lia). by rewrite Nat2Z.id.
Qed.

Lemma zbits_spec v : 0 < v -> 2 ^ (zbits v - 1) <= v < 2 ^ zbits v.
Proof.
  intros H. unfold zbits. replace (0 <? v) with true by lia. pose proof (Z.log2_spec v H) as [H1 H2]. pose proof (Z.log2_nonneg v).
  replace (Z.of_nat (S (Z.to_nat (Z.log2 v)))) with (Z.succ (Z.log2 v)) by lia. replace (Z.succ (Z.log2 v) - 1) with (Z.log2 v) by lia. done.
Qed.

Lemma zbits_lt v (n : nat) : 0 <= v < 2 ^ n -> (zbits v <= n)%nat.
Proof.
  intros H. destruct (decide (v = 0)) as [->|Hv]; [cbn; lia|]. pose proof (zbits_spec v ltac:(lia)) as [H1 _].
  destruct (decide (zbits v <= n)%nat); [done|]. assert (2 ^ n <= 2 ^ (zbits v - 1)) by (apply Z.pow_le_mono_r; lia). lia.
Qed.

Lemma zbits_le_iff v (n : nat) : 0 <= v -> (zbits v <= n)%nat <-> v < 2 ^ n.
Proof.
  intros Hv. split; [|intros; by apply zbits_lt]. intros Hn. destruct (decide (v = 0)) as [->|Hv0]; [apply Z.pow_pos_nonneg; lia|].
  pose proof (zbits_spec v ltac:(lia)) as [_ H]. apply Z.lt_le_trans with (2 ^ zbits v); [done|]. apply Z.pow_le_mono_r; lia.
Qed.

Lemma bits_loop_spec x (j : nat) : 0 <= x < 2 ^ j -> bits_loop x j = zbits x.
Proof.
  induction j as [|j IH]; intros Hx; [by replace x with 0 by lia|]. cbn [bits_loop].
  pose proof (Z.pow_pos_nonneg 2 j ltac:(lia) ltac:(lia)) as Hp. rewrite Nat2Z.inj_succ, Z.pow_succ_r in Hx by lia.
  rewrite Z.testbit_odd, Z.shiftr_div_pow2 by lia. destruct (decide (x < 2 ^ j)) as [Hlt|Hge].
  - rewrite Z.div_small by lia. cbn. apply IH. lia.
  - replace (x / 2 ^ j) with 1 by (apply (Z.div_unique_pos _ _ _ (x - 2 ^ j)); lia). cbn. symmetry. apply zbits_unique.
    rewrite Z.pow_add_r by lia. lia.
Qed.

(** ** Parts of a number *)

Lemma lval_take p n : limbs_ok p -> lval (take n p) = lval p mod LBn n.
Proof.
  intros Hp. destruct (decide (n <= length p)%nat) as [Hn|Hn].
  - rewrite (lval_split p n Hn). pose proof (lval_bound (take n p) ltac:(auto with mpi)) as Hb. rewrite length_take, Nat.min_l in Hb by done.
    rewrite Z.mul_comm, Z.mod_add by (pose proof (LBn_pos n); lia). by rewrite Z.mod_small.
  - rewrite take_ge by lia. symmetry. apply Z.mod_small. pose proof (lval_bound p Hp). pose proof (LBn_mono (length p) n ltac:(lia)). lia.
Qed.

Lemma lval_drop p n : limbs_ok p -> lval (drop n p) = lval p / LBn n.
Proof.
  intros Hp. destruct (decide (n <= length p)%nat) as [Hn|Hn].
  - rewrite (lval_split p n Hn). pose proof (lval_bound (take n p) ltac:(auto with mpi)) as Hb. rewrite length_take, Nat.min_l in Hb by done.
    rewrite Z.mul_comm, Z.div_add by (pose proof (LBn_pos n); lia). by rewrite Z.div_small.
  - rewrite drop_ge by lia. symmetry. apply Z.div_small. pose proof (lval_bound p Hp). pose proof (LBn_mono (length p) n ltac:(lia)). cbn. lia.
Qed.

Lemma lval_top p k : limbs_ok p -> sig p = S k -> lval p = lval (take k p) + LBn k * limb p k /\ limb p k <> 0.
Proof.
  intros Hp E. unfold sig in E. pose proof (used_le p (length p)). pose proof (used_top p (length p)) as Ht. rewrite E in *.
  cbn [Nat.sub] in Ht. rewrite Nat.sub_0_r in Ht. rewrite <- (lval_take_S p k), <- E by lia. split; [by rewrite used_lval|]. apply Ht. lia.
Qed.

(** ** Shifts of limbs *)

Lemma pow2_split t : 0 <= t <= 64 -> LB = 2 ^ t * 2 ^ (64 - t).
Proof. intros. rewrite <- Z.pow_add_r by lia. unfold LB. f_equal. lia. Qed.

Lemma shl_limb x t : limb_ok x -> 0 <= t <= 64 ->
  u64 (Z.shiftl x t) + LB * Z.shiftr x (64 - t) = x * 2 ^ t /\ u64 (Z.shiftl x t) mod 2 ^ t = 0 /\ 0 <= Z.shiftr x (64 - t) < 2 ^ t.
Proof.
  intros Hx Ht. rewrite u64_LB, Z.shiftl_mul_pow2, Z.shiftr_div_pow2 by lia. pose proof (pow2_split t Ht) as E.
  pose proof (Z.pow_pos_nonneg 2 t ltac:(lia) ltac:(lia)). pose proof (Z.pow_pos_nonneg 2 (64 - t) ltac:(lia) ltac:(lia)).
  assert (Hdiv : x * 2 ^ t / LB = x / 2 ^ (64 - t)) by (rewrite E, (Z.mul_comm x), Z.div_mul_cancel_l by lia; done).
  split_and!.
  - rewrite <- Hdiv. pose proof (Z.div_mod (x * 2 ^ t) LB ltac:(done)). lia.
  - rewrite E, (Z.mul_comm x), Z.mul_mod_distr_l by lia. rewrite Z.mul_comm. apply Z.mod_mul. lia.
  - apply Z.div_pos; unfold limb_ok in Hx; lia.
  - apply Z.div_lt_upper_bound; [lia|]. unfold limb_ok in Hx. lia.
Qed.

Lemma shl_loop_spec t p r0 : limbs_ok p -> 0 < t < 64 -> 0 <= r0 < 2 ^ t ->
  length (shl_loop t r0 p) = length p /\ limbs_ok (shl_loop t r0 p) /\
  exists c, 0 <= c /\ lval (shl_loop t r0 p) + LBn (length p) * c = lval p * 2 ^ t + r0.
Proof.
  intros Hp Ht. revert r0. induction Hp as [|x p Hx Hp IH]; intros r0 Hr.
  - cbn [shl_loop length lval]. split; [done|]. split; [by constructor|]. exists r0. rewrite LBn_0. lia.
  - cbn [shl_loop length]. destruct (shl_limb x t Hx ltac:(lia)) as (E & Hm & Hc).
    destruct (IH _ Hc) as (Hl & Hok & c & Hc0 & Hv). rewrite (lor_add _ _ t) by (done || lia). split; [by rewrite Hl|].
    pose proof (u64_ok (Z.shiftl x t)) as Hu. set (u := u64 (Z.shiftl x t)) in *. split.
    + constructor; [|done]. pose proof (pow2_split t ltac:(lia)) as EL. pose proof (Z.pow_pos_nonneg 2 (64 - t) ltac:(lia) ltac:(lia)) as H.
      apply Z.mod_divide in Hm as [k Hk]; [|lia]. unfold limb_ok in *. clearbody u. subst u.
      assert (H0 : k + 1 <= 2 ^ (64 - t)) by (clear - Hu EL Hr H; nia). clear - Hu EL Hr H0; nia.
    + exists c. split; [done|]. cbn [lval]. rewrite LBn_S. nia.
Qed.

Lemma shr_loop_spec t p : limbs_ok p -> 0 < t < 64 ->
  let '(p', r0) := shr_loop t p in
  length p' = length p /\ limbs_ok p' /\ lval p' = lval p / 2 ^ t /\ r0 = (lval p mod 2 ^ t) * 2 ^ (64 - t).
Proof.
  intros Hp Ht. pose proof (pow2_split t ltac:(lia)) as EL. pose proof (Z.pow_pos_nonneg 2 (64 - t) ltac:(lia) ltac:(lia)) as H2.
  pose proof (Z.pow_pos_nonneg 2 t ltac:(lia) ltac:(lia)) as H1.
  induction Hp as [|x p Hx Hp IH]; [cbn; split_and!; done || by constructor|]. cbn [shr_loop].
  destruct (shr_loop t p) as [p' r0]. destruct IH as (Hl & Hok & Hv & Hr). cbn [length lval].
  rewrite Z.shiftr_div_pow2, Z.shiftl_mul_pow2, u64_LB by lia.
  pose proof (Z.mod_pos_bound (lval p) (2 ^ t) H1) as Hm. unfold limb_ok in Hx.
  assert (Hx' : 0 <= x / 2 ^ t < 2 ^ (64 - t)) by (split; [apply Z.div_pos; lia|apply Z.div_lt_upper_bound; lia]).
  assert (Hlor : Z.lor (x / 2 ^ t) r0 = x / 2 ^ t + r0).
  { rewrite Z.lor_comm, (lor_add _ _ (64 - t)); [lia|lia|done|]. rewrite Hr. apply Z.mod_mul. lia. }
  rewrite Hlor. split_and!; [by rewrite Hl| | |].
  - constructor; [|done]. unfold limb_ok. rewrite Hr, EL. clear - Hx' Hm H1 H2.
    generalize dependent (x / 2 ^ t). generalize dependent (lval p mod 2 ^ t). intros m Hm a Ha. nia.
  - rewrite Hv, Hr, EL. pose proof (Z.div_mod (lval p) (2 ^ t) ltac:(lia)) as Hdm.
    replace (x + 2 ^ t * 2 ^ (64 - t) * lval p) with (x + (2 ^ (64 - t) * lval p) * 2 ^ t) by ring. rewrite Z.div_add by lia. nia.
  - rewrite EL. rewrite Z.mul_mod_distr_r by lia. f_equal.
    replace (x + 2 ^ t * 2 ^ (64 - t) * lval p) with (x + (2 ^ (64 - t) * lval p) * 2 ^ t) by ring. by rewrite Z.mod_add by lia.
Qed.

(** ** Comparison *)

Lemma cmp_loop_spec s p q i : limbs_ok p -> limbs_ok q -> (i <= length p)%nat -> (i <= length q)%nat ->
  cmp_loop s p q i = s * Z.sgn (lval (take i p) - lval (take i q)).
Proof.
  intros Hp Hq. induction i as [|i IH]; intros H1 H2; [rewrite !take_0; change (Z.sgn (lval [] - lval [])) with 0; cbn [cmp_loop]; lia|]. cbn [cmp_loop]. rewrite !lval_take_S by lia.
  pose proof (lval_bound (take i p) ltac:(auto with mpi)) as Bp. pose proof (lval_bound (take i q) ltac:(auto with mpi)) as Bq.
  rewrite !length_take, !Nat.min_l in * by lia. pose proof (LBn_pos i). set (x := limb p i) in *. set (y := limb q i) in *.
  destruct (Z.ltb_spec y x); [rewrite Z.sgn_pos; [lia|nia]|]. destruct (Z.ltb_spec x y); [rewrite Z.sgn_neg; [lia|nia]|].
  rewrite IH by lia. do 2 f_equal. replace x with y by lia. lia.
Qed.

Lemma sig_0 p : limbs_ok p -> sig p = 0%nat -> lval p = 0.
Proof. intros Hp. apply (used_zero p Hp). Qed.

Lemma sig_lt p q : limbs_ok p -> limbs_ok q -> (sig p < sig q)%nat -> lval p < lval q.
Proof.
  intros Hp Hq H. destruct (sig q) as [|k] eqn:E; [lia|]. pose proof (used_bound q k Hq E) as [Hb _].
  destruct (sig p) as [|j] eqn:E'; [rewrite (sig_0 p Hp E'); pose proof (LBn_pos k); lia|].
  pose proof (used_bound p j Hp E') as [_ Hb']. pose proof (LBn_mono (S j) k ltac:(lia)). lia.
Qed.

Lemma sig_lval p : lval (take (sig p) p) = lval p.
Proof. apply used_lval. Qed.

(** The comparison loop on numbers with as many significant limbs *)
Lemma cmp_loop_sig s X Y : limbs_ok X -> limbs_ok Y -> sig X = sig Y ->
  cmp_loop s X Y (sig X) = s * Z.sgn (lval X - lval Y).
Proof.
  intros HX HY E. pose proof (sig_le X). pose proof (sig_le Y). rewrite cmp_loop_spec by (done || lia).
  rewrite sig_lval. rewrite E. by rewrite sig_lval.
Qed.

Lemma mpi_cmp_abs_spec X Y : limbs_ok (mp_p X) -> limbs_ok (mp_p Y) ->
  mpi_cmp_abs X Y = Z.sgn (lval (mp_p X) - lval (mp_p Y)).
Proof.
  intros HX HY. unfold mpi_cmp_abs. fold (sig (mp_p X)) (sig (mp_p Y)).
  destruct ((sig (mp_p X) =? 0)%nat && (sig (mp_p Y) =? 0)%nat) eqn:E0.
  { apply andb_prop in E0 as [E1%Nat.eqb_eq E2%Nat.eqb_eq]. by rewrite !sig_0 by done. }
  destruct (Nat.ltb_spec (sig (mp_p Y)) (sig (mp_p X))) as [H|H]; [pose proof (sig_lt _ _ HY HX H); by rewrite Z.sgn_pos by lia|].
  destruct (Nat.ltb_spec (sig (mp_p X)) (sig (mp_p Y))) as [H'|H']; [pose proof (sig_lt _ _ HX HY H'); by rewrite Z.sgn_neg by lia|].
  rewrite cmp_loop_sig by (done || lia). lia.
Qed.

(** The signed comparison, of a number that is not negative with another. *)
Lemma mpi_cmp_mpi_pos X Y : limbs_ok (mp_p X) -> limbs_ok (mp_p Y) -> mp_s X = 1 -> mp_s Y = 1 ->
  mpi_cmp_mpi X Y = Z.sgn (lval (mp_p X) - lval (mp_p Y)).
Proof.
  intros HX HY SX SY. rewrite <- mpi_cmp_abs_spec by done. unfold mpi_cmp_mpi, mpi_cmp_abs. by rewrite SX, SY.
Qed.

Lemma mpi_cmp_int_0 X : limbs_ok (mp_p X) -> mp_s X = 1 \/ mp_s X = -1 ->
  mpi_cmp_int X 0 = Z.sgn (mp_s X * lval (mp_p X)).
Proof.
  intros HX SX. unfold mpi_cmp_int, mpi_cmp_mpi. cbn [of_sint mp_p length mp_s used limb]. change (used [u64 (Z.abs 0)] 1) with 0%nat.
  fold (sig (mp_p X)). destruct (sig (mp_p X)) as [|k] eqn:E; cbn -[lval LBn].
  - rewrite sig_0 by done. by rewrite Z.mul_0_r.
  - pose proof (used_bound _ _ HX E). pose proof (LBn_pos k). destruct SX as [-> | ->]; [rewrite Z.sgn_pos by lia|rewrite Z.sgn_neg by lia]; done.
Qed.

Section Ops.
Context {St : Type} {AL : Alloc St} {LA : AllocLaws AL}.

(** ** Size *)

Lemma mpi_msb_run X (s : St) : mp_p X <> [] -> limbs_ok (mp_p X) -> mpi_msb X s = Done (zbits (lval (mp_p X)), s).
Proof.
  intros Hne Hok. unfold mpi_msb. destruct (length (mp_p X)) as [|m] eqn:El; [by destruct (mp_p X)|].
  rewrite top_index_used, <- El. unfold ret. do 2 f_equal. fold (sig (mp_p X)).
  destruct (sig (mp_p X)) as [|k] eqn:E.
  - pose proof (proj1 (used_zero _ Hok) E) as Hz. rewrite Hz. cbn [Nat.sub Nat.mul Nat.add].
    destruct (mp_p X) as [|x p]; [done|]. inversion Hok as [|? ? Hx Hp]; subst. pose proof (lval_bound p Hp). cbn [lval] in Hz.
    change (limb (x :: p) 0) with x. unfold limb_ok in Hx. pose proof LB_pos. replace x with 0 by nia. done.
  - cbn [Nat.sub]. rewrite Nat.sub_0_r. destruct (lval_top _ _ Hok E) as [-> Hnz]. pose proof (limb_limb_ok (mp_p X) k Hok) as Hx.
    set (x := limb (mp_p X) k) in *. rewrite (bits_loop_spec x 64) by done. assert (0 < x) by (unfold limb_ok in Hx; lia).
    pose proof (zbits_spec x ltac:(lia)) as Hz. destruct (zbits x) as [|b] eqn:Eb; [cbn in Hz; lia|]. symmetry.
    replace (k * 64 + S b)%nat with (S (64 * k + b)) by lia. apply zbits_unique.
    pose proof (lval_bound (take k (mp_p X)) ltac:(auto with mpi)) as Hb. pose proof (sig_le (mp_p X)). rewrite length_take, Nat.min_l in Hb by lia.
    rewrite Nat2Z.inj_add, Nat2Z.inj_mul, !Z.pow_add_r by lia. change (Z.of_nat 64) with 64. rewrite <- LBn_bits.
    replace (Z.of_nat (S b)) with (b + 1) in Hz by lia. replace (b + 1 - 1) with (Z.of_nat b) in Hz by lia. rewrite Z.pow_add_r in Hz by lia.
    pose proof (LBn_pos k). nia.
Qed.

Lemma mpi_size_run X (s : St) : mp_p X <> [] -> limbs_ok (mp_p X) ->
  mpi_size X s = Done (((zbits (lval (mp_p X)) + 7) / 8)%nat, s).
Proof. intros. unfold mpi_size. by erewrite bind_done by (by apply mpi_msb_run). Qed.

(** ** Shifts *)

Lemma shift_limbs_l_spec v0 p : limbs_ok p ->
  length (shift_limbs_l v0 p) = length p /\ limbs_ok (shift_limbs_l v0 p) /\
  lval (shift_limbs_l v0 p) = (LBn v0 * lval p) mod LBn (length p).
Proof.
  intros Hp. assert (Hok : limbs_ok (zeros v0 ++ p)) by (apply limbs_ok_app; auto with mpi). unfold shift_limbs_l. split_and!.
  - rewrite length_take, length_app. lia.
  - by apply limbs_ok_take.
  - rewrite lval_take by done. by rewrite lval_app, lval_zeros, length_zeros.
Qed.

Lemma mpi_shift_l_good X count :
  mp_p X <> [] -> limbs_ok (mp_p X) -> Z.of_nat ((zbits (lval (mp_p X)) + count + 63) / 64) <= POLARSSL_MPI_MAX_LIMBS ->
  good (holds (mp_s X) (lval (mp_p X) * 2 ^ count)
    (Nat.max (length (mp_p X)) ((zbits (lval (mp_p X)) + count + 63) / 64))) (mpi_shift_l X count).
Proof.
  intros Hne Hok Hmax. unfold mpi_shift_l. set (v := lval (mp_p X)) in *. set (i := (zbits v + count)%nat) in *.
  pose proof (lval_bound _ Hok) as Hb. fold v in Hb.
  eapply (good_calm (fun m => m = zbits v)); [intros s; eapply wp_done; [by apply mpi_msb_run|split_and!; done || reflexivity]|].
  intros m ->. fold i. set (n := Nat.max (length (mp_p X)) ((i + 63) / 64)).
  assert (Hn : (i <= 64 * n)%nat) by (pose proof (Nat.div_mod_eq (i + 63) 64); pose proof (Nat.mod_upper_bound (i + 63) 64); lia).
  eapply (good_chk (holds (mp_s X) v n)).
  { destruct (Nat.ltb_spec (length (mp_p X) * 64) i) as [Hlt|Hge].
    - eapply good_mono; [|by apply mpi_grow_good]. intros X' Hg. destruct (grown_ok _ _ _ Hg Hok) as (? & ? & ?).
      split_and!; try done. apply Hg.
    - apply good_ret. split_and!; try done. unfold n. pose proof (Nat.Div0.div_lt_upper_bound (i + 63) 64 (S (length (mp_p X)))). lia. }
  intros X' (Hs & Hok' & Hv & Hl). apply good_ret.
  set (v0 := (count / 64)%nat). set (t1 := (count mod 64)%nat).
  assert (Hct : count = (64 * v0 + t1)%nat) by apply Nat.div_mod_eq. assert (Ht : (t1 < 64)%nat) by (apply Nat.mod_upper_bound; lia).
  assert (Hpow : 2 ^ count = LBn v0 * 2 ^ t1) by (rewrite LBn_bits, <- Z.pow_add_r by lia; f_equal; lia).
  assert (Hfit : v * 2 ^ count < LBn n).
  { rewrite LBn_bits. destruct (decide (v = 0)) as [->|Hv0]; [apply Z.pow_pos_nonneg; lia|].
    pose proof (zbits_spec v ltac:(lia)) as [_ Hz]. apply Z.lt_le_trans with (2 ^ zbits v * 2 ^ count).
    - apply Z.mul_lt_mono_pos_r; [apply Z.pow_pos_nonneg; lia|done].
    - rewrite <- Z.pow_add_r by lia. apply Z.pow_le_mono_r; lia. }
  pose proof (LBn_pos v0) as Hp0. pose proof (Z.pow_pos_nonneg 2 t1 ltac:(lia) ltac:(lia)) as Hp1.
  set (p1 := if (0 <? v0)%nat then shift_limbs_l v0 (mp_p X') else mp_p X').
  assert (H1 : length p1 = n /\ limbs_ok p1 /\ lval p1 = LBn v0 * v).
  { unfold p1. destruct (Nat.ltb_spec 0 v0) as [Hv0|Hv0].
    - destruct (shift_limbs_l_spec v0 (mp_p X') Hok') as (? & ? & Hval). split_and!; try done; [by rewrite Hl in *|].
      rewrite Hval, Hv, Hl. apply Z.mod_small. rewrite Hpow in Hfit. nia.
    - replace v0 with 0%nat by lia. rewrite LBn_0. split_and!; try done. lia. }
  destruct H1 as (Hl1 & Hok1 & Hv1). unfold holds. cbn [set_p mp_s mp_p].
  destruct (Nat.ltb_spec 0 t1) as [Ht1|Ht1].
  2: { replace t1 with 0%nat in * by lia. split_and!; try done. rewrite Hv1, Hpow. lia. }
  destruct (shl_loop_spec t1 (drop v0 p1) 0 ltac:(auto with mpi) ltac:(lia) ltac:(lia)) as (Hl2 & Hok2 & c & Hc & Hv2).
  rewrite (lval_drop p1 v0 Hok1), Hv1, (Z.mul_comm (LBn v0) v), Z.div_mul, Z.add_0_r in Hv2 by lia.
  assert (Htk : lval (take v0 p1) = 0) by (rewrite lval_take, Hv1, Z.mul_comm by done; apply Z.mod_mul; lia).
  split_and!.
  - done.
  - apply limbs_ok_app. auto with mpi.
  - rewrite lval_app, Htk, Hpow, length_take. rewrite length_drop, Hl1 in Hv2.
    destruct (decide (v0 <= n)%nat) as [Hle|Hgt].
    + rewrite Nat.min_l by lia. assert (Hn' : LBn n = LBn v0 * LBn (n - v0)) by (rewrite <- LBn_add; f_equal; lia).
      rewrite Hpow, Hn' in Hfit. pose proof (lval_bound _ Hok2) as Hb2. pose proof (LBn_pos (n - v0)) as Hp2.
      assert (c = 0) by (clear - Hv2 Hfit Hb2 Hp2 Hp0 Hc; nia). subst c. rewrite Z.mul_0_r, Z.add_0_r in Hv2. rewrite Hv2. ring.
    + rewrite (drop_ge p1) by lia. cbn [shl_loop lval]. pose proof (LBn_mono n v0 ltac:(lia)). rewrite Hpow in Hfit.
      assert (LBn v0 <= LBn v0 * 2 ^ t1) by (clear - Hp0 Hp1; nia). assert (Hv0 : v = 0) by (clear - Hfit Hb H H0 Hp0; nia). rewrite Hv0. lia.
  - rewrite length_app, Hl2, length_take, length_drop. lia.
Qed.

Lemma mpi_shift_r_good X count : limbs_ok (mp_p X) -> (count / 64 <= length (mp_p X))%nat ->
  good (holds (mp_s X) (lval (mp_p X) / 2 ^ count) (length (mp_p X))) (mpi_shift_r X count).
Proof.
  intros Hok Hc. unfold mpi_shift_r. set (v0 := (count / 64)%nat) in *. set (t1 := (count mod 64)%nat).
  assert (Hct : count = (64 * v0 + t1)%nat) by apply Nat.div_mod_eq. assert (Ht : (t1 < 64)%nat) by (apply Nat.mod_upper_bound; lia).
  assert (Hpow : 2 ^ count = LBn v0 * 2 ^ t1) by (rewrite LBn_bits, <- Z.pow_add_r by lia; f_equal; lia).
  pose proof (LBn_pos v0) as Hp0. pose proof (Z.pow_pos_nonneg 2 t1 ltac:(lia) ltac:(lia)) as Hp1.
  replace (length (mp_p X) <? v0)%nat with false by (symmetry; apply Nat.ltb_ge; lia).
  set (p1 := if (0 <? v0)%nat then _ else _). rewrite Hpow, <- Z.div_div by lia.
  assert (H1 : length p1 = length (mp_p X) /\ limbs_ok p1 /\ lval p1 = lval (mp_p X) / LBn v0).
  { unfold p1. destruct (Nat.ltb_spec 0 v0) as [Hv0|Hv0].
    - rewrite length_app, length_drop, length_zeros, lval_app, lval_zeros, lval_drop by done. split_and!; [lia|apply limbs_ok_app; auto with mpi|lia].
    - replace v0 with 0%nat by lia. rewrite LBn_0, Z.div_1_r. done. }
  destruct H1 as (Hl1 & Hok1 & Hv1). apply good_ret. rewrite <- Hv1. unfold holds. cbn [set_p mp_s mp_p].
  destruct (Nat.ltb_spec 0 t1) as [Ht1|Ht1].
  - pose proof (shr_loop_spec t1 p1 Hok1 ltac:(lia)) as H2. destruct (shr_loop t1 p1) as [p2 r0]. destruct H2 as (? & ? & ? & _).
    split_and!; try done. cbn [fst]. lia.
  - replace t1 with 0%nat by lia. rewrite Z.div_1_r. done.
Qed.

(** ** Addition and subtraction *)

(** [X] is the operand the alias says. *)
Definition aliased (al : alias) (X A B : mpi) : Prop :=
  match al with NoAlias => True | XisA => X = A | XisB => X = B end.

Lemma length_sig p : length (take (sig p) p) = sig p.
Proof. rewrite length_take. pose proof (sig_le p). lia. Qed.

Lemma sig_mono p q : limbs_ok p -> limbs_ok q -> lval p <= lval q -> (sig p <= sig q)%nat.
Proof. intros Hp Hq H. destruct (decide (sig p <= sig q)%nat); [done|]. pose proof (sig_lt q p Hq Hp). lia. Qed.

Lemma sig_small p n : limbs_ok p -> lval p < LBn n -> (sig p <= n)%nat.
Proof. apply used_small. Qed.

Lemma sig_eq p q : limbs_ok p -> limbs_ok q -> lval p = lval q -> sig p = sig q.
Proof. intros Hp Hq H. pose proof (sig_mono p q Hp Hq). pose proof (sig_mono q p Hq Hp). lia. Qed.

(** The limbs of the result of [mpi_sub_abs] and [mpi_add_abs] before a carry *)
Definition room (al : alias) (X A : mpi) : nat :=
  match al with XisA => length (mp_p X) | _ => Nat.max (length (mp_p X)) (Nat.max 1 (sig (mp_p A))) end.

Lemma mpi_sub_abs_good al X A B :
  aliased al X A B -> mp_p A <> [] -> mp_p B <> [] -> limbs_ok (mp_p A) -> limbs_ok (mp_p B) ->
  lval (mp_p B) <= lval (mp_p A) -> Z.of_nat (sig (mp_p A)) <= POLARSSL_MPI_MAX_LIMBS ->
  good (holds 1 (lval (mp_p A) - lval (mp_p B)) (room al X A)) (mpi_sub_abs al X A B).
Proof.
  intros Hal HA HB OA OB Hle HM. unfold mpi_sub_abs. pose proof (sig_mono _ _ OB OA Hle) as Hsig.
  rewrite mpi_cmp_abs_spec by done. replace (Z.sgn _ <? 0) with false by (symmetry; apply Z.ltb_ge, Z.sgn_nonneg; lia).
  eapply (good_finally (fun r => holds 1 (lval (mp_p A) - lval (mp_p B)) (room al X A) (snd r))).
  2: { intros rc [TB X'] Hr. cbn [fst snd]. eapply calm_bind; [apply mpi_free_calm|]. intros _ _.
    apply good_fail. by destruct Hr as [[-> H] | -> ]; [left|right]. }
  eapply (good_chk (fun TB => al = XisB -> limbs_ok (mp_p TB) /\ lval (mp_p TB) = lval (mp_p B))).
  { destruct al; [by apply good_ret|by apply good_ret|]. eapply good_mono; [|apply mpi_copy_good; done || lia]. by intros TB (_ & ? & ? & _) _. }
  intros TB HTB. set (B' := match al with XisB => TB | _ => B end).
  assert (HB' : limbs_ok (mp_p B') /\ lval (mp_p B') = lval (mp_p B)) by (destruct al; [done|done|by apply HTB]).
  destruct HB' as [OB' VB']. clearbody B'.
  eapply (good_chk (fun X' => limbs_ok (mp_p X') /\ lval (mp_p X') = lval (mp_p A) /\ length (mp_p X') = room al X A)).
  { destruct al; cbn [aliased room] in *; [|subst X; by apply good_ret|]; (eapply good_mono; [|apply mpi_copy_good; done]); by intros X' (_ & ? & ? & ?). }
  intros X' (OX & VX & LX). fold (sig (mp_p B')). cbn [set_s mp_p].
  pose proof (sig_mono _ _ OB' OX ltac:(lia)) as Hs. pose proof (sig_le (mp_p X')).
  destruct (mpi_sub_hlp_spec (take (sig (mp_p B')) (mp_p B')) (mp_p X')) as (d & E & Ld & Od & Vd); auto with mpi.
  { rewrite length_sig. lia. }
  { rewrite sig_lval. lia. }
  rewrite E. eapply (good_calm (fun d' => d' = d)); [by apply calm_ret|]. intros _ ->. apply good_ret. cbn [snd].
  rewrite sig_lval in Vd. unfold holds. cbn [set_p set_s mp_s mp_p]. split_and!; try done; lia.
Qed.

(** The result holds the number in [n] limbs, or one more. *)
Definition holds_up (s v : Z) (n : nat) (X' : mpi) : Prop :=
  mp_s X' = s /\ limbs_ok (mp_p X') /\ lval (mp_p X') = v /\ (n <= length (mp_p X') <= S n)%nat.

Definition add_room (al : alias) (X A B : mpi) : nat :=
  match al with
  | NoAlias => Nat.max (Nat.max (length (mp_p X)) (Nat.max 1 (sig (mp_p A)))) (sig (mp_p B))
  | XisA => Nat.max (length (mp_p X)) (sig (mp_p B))
  | XisB => Nat.max (length (mp_p X)) (sig (mp_p A))
  end.

Lemma mpi_add_abs_good al X A B :
  aliased al X A B -> mp_p A <> [] -> limbs_ok (mp_p A) -> limbs_ok (mp_p B) ->
  Z.of_nat (add_room al X A B) < POLARSSL_MPI_MAX_LIMBS ->
  good (holds_up 1 (lval (mp_p A) + lval (mp_p B)) (add_room al X A B)) (mpi_add_abs al X A B).
Proof.
  intros Hal HA OA OB HM. unfold mpi_add_abs. set (AB := match al with XisB => _ | _ => _ end). destruct AB as [A' B'] eqn:EAB.
  eapply (good_chk (fun X' => limbs_ok (mp_p X') /\ lval (mp_p X') + lval (mp_p B') = lval (mp_p A) + lval (mp_p B) /\
    limbs_ok (mp_p B') /\ Nat.max (length (mp_p X')) (sig (mp_p B')) = add_room al X A B)).
  { subst AB. destruct al; inversion EAB; subst A' B'; cbn [aliased add_room] in *.
    - eapply good_mono; [|apply mpi_copy_good; try done; lia]. intros X' (_ & ? & ? & ?). split_and!; try done; lia.
    - subst X. by apply good_ret.
    - subst X. apply good_ret. split_and!; try done. lia. }
  clear EAB. clearbody AB. intros X' (OX & VX & OB' & LX). fold (sig (mp_p B')).
  eapply good_chk; [apply mpi_grow_good; lia|]. intros X2 HG. destruct (grown_ok _ _ _ HG OX) as (O2 & V2 & L2).
  destruct HG as [S2 _]. cbn [set_s mp_s mp_p] in *. rewrite LX in L2.
  pose proof (add_loop_spec (take (sig (mp_p B')) (mp_p B')) (mp_p X2) 0 ltac:(auto with mpi) O2 ltac:(by left)
    ltac:(rewrite length_sig; lia)) as HL.
  destruct (add_loop _ _ 0) as [p c]. destruct HL as (Lp & Op & Hc & Vp). rewrite sig_lval in Vp. unfold holds_up.
  destruct (Z.eqb_spec c 0) as [->|Hc0].
  - apply good_ret. cbn [set_p mp_s mp_p]. split_and!; try done; lia.
  - destruct Hc as [ -> | -> ]; [done|]. eapply good_chk; [apply mpi_grow_good; lia|]. intros X3 [S3 _]. apply good_ret.
    cbn [set_p mp_s mp_p] in *. rewrite lval_app, length_app, Lp. cbn [lval length]. change (u64 1) with 1. split_and!; try lia.
    apply limbs_ok_app. split; [done|]. by repeat constructor.
Qed.

(** ** Multiplication *)

Lemma lval_drop_S p j : (j < length p)%nat -> lval (drop j p) = limb p j + LB * lval (drop (S j) p).
Proof.
  intros Hj. destruct (lookup_lt_is_Some_2 p j Hj) as [x Hx]. unfold limb. rewrite Hx. by rewrite (drop_S _ _ _ Hx).
Qed.

Lemma lval_low_zero x j : (S j <= length x)%nat -> limbs_ok x -> lval (take (S j) x) = 0 -> lval (take j x) = 0 /\ limb x j = 0.
Proof.
  intros Hj Hx. rewrite lval_take_S by lia. pose proof (lval_bound (take j x) ltac:(auto with mpi)) as Hb.
  pose proof (limb_limb_ok x j Hx) as Hl. pose proof (LBn_pos j) as Hp. unfold limb_ok in Hl. intros H. nia.
Qed.

Lemma mul_loop_spec a b x j : limbs_ok a -> limbs_ok b -> limbs_ok x -> (j <= length b)%nat -> (length a + length b <= length x)%nat ->
  lval (take j x) = 0 -> lval (drop j x) = lval a * lval (drop j b) ->
  exists x', mul_loop a b x j = Some x' /\ length x' = length x /\ limbs_ok x' /\ lval x' = lval a * lval b.
Proof.
  intros Ha Hb. revert x. induction j as [|j IH]; intros x Hx Hj Hl Hlo Hhi.
  - exists x. rewrite !drop_0 in Hhi. done.
  - cbn [mul_loop]. destruct (lval_low_zero x j ltac:(lia) Hx Hlo) as [Hlo' Hz].
    pose proof (lval_drop_S x j ltac:(lia)) as Ex. pose proof (lval_drop_S b j ltac:(lia)) as Eb. rewrite Hz, Hhi in Ex.
    destruct (mpi_mul_hlp_spec a (drop j x) (limb b j)) as (d & E & Ld & Od & Vd); auto with mpi.
    { rewrite length_drop. lia. }
    { replace (lval (drop j x) + limb b j * lval a) with (lval a * lval (drop j b)) by lia.
      pose proof (lval_bound a Ha) as Ba. pose proof (lval_bound (drop j b) ltac:(auto with mpi)) as Bb. rewrite length_drop in *.
      assert (LBn (length a) * LBn (length b - j) <= LBn (length x - j)) by (rewrite <- LBn_add; apply LBn_mono; lia).
      pose proof (LBn_pos (length a)). pose proof (LBn_pos (length b - j)). nia. }
    rewrite E. cbn [mbind option_bind]. rewrite length_drop in Ld.
    assert (Ht : length (take j x) = j) by (rewrite length_take; lia).
    destruct (IH (take j x ++ d)) as (x' & E' & L' & O' & V').
    + apply limbs_ok_app. auto with mpi.
    + lia.
    + rewrite length_app. lia.
    + rewrite take_app_length' by done. done.
    + rewrite drop_app_length' by done. lia.
    + exists x'. rewrite length_app in L'. split_and!; try done. lia.
Qed.

Lemma mul_loop_used a b x : limbs_ok a -> limbs_ok b -> limbs_ok x -> (length a + sig b <= length x)%nat -> lval x = 0 ->
  exists x', mul_loop a b x (sig b) = Some x' /\ length x' = length x /\ limbs_ok x' /\ lval x' = lval a * lval b.
Proof.
  intros Ha Hb Hx Hl Hv. pose proof (sig_le b) as Hsb.
  assert (E : forall j x, (j <= sig b)%nat -> mul_loop a b x j = mul_loop a (take (sig b) b) x j).
  { clear. induction j as [|j IH]; intros x Hj; [done|]. cbn [mul_loop]. unfold limb. rewrite lookup_take_lt by lia.
    destruct (mpi_mul_hlp _ _ _); [|done]. cbn [mbind option_bind]. apply IH. lia. }
  rewrite E by done. rewrite <- (sig_lval b). apply mul_loop_spec; auto with mpi; rewrite ?length_sig; try lia.
  - rewrite lval_take, Hv by done. apply Z.mod_0_l. pose proof (LBn_pos (sig b)). lia.
  - rewrite (drop_ge (take _ b)) by (rewrite length_sig; lia). rewrite lval_drop, Hv by done. cbn [lval].
    rewrite Z.div_0_l; [lia|]. pose proof (LBn_pos (sig b)). lia.
Qed.

Lemma mpi_mul_mpi_good al X A B :
  aliased al X A B -> mp_p A <> [] -> mp_p B <> [] -> limbs_ok (mp_p A) -> limbs_ok (mp_p B) ->
  Z.of_nat (sig (mp_p A) + sig (mp_p B)) <= POLARSSL_MPI_MAX_LIMBS ->
  good (holds (mp_s A * mp_s B) (lval (mp_p A) * lval (mp_p B))
    (Nat.max (length (mp_p X)) (Nat.max 1 (sig (mp_p A) + sig (mp_p B))))) (mpi_mul_mpi al X A B).
Proof.
  intros Hal HA HB OA OB HM. unfold mpi_mul_mpi. set (n := Nat.max (length (mp_p X)) _).
  eapply (good_finally (fun r => holds (mp_s A * mp_s B) (lval (mp_p A) * lval (mp_p B)) n (snd r))).
  2: { intros rc [[TA TB] X'] Hr. cbn [snd] in Hr. eapply calm_bind; [apply mpi_free_calm|]. intros _ _.
    eapply calm_bind; [apply mpi_free_calm|]. intros _ _. by apply good_fail. }
  assert (Hcp : forall (b : bool) Y, mp_p Y <> [] -> limbs_ok (mp_p Y) -> Z.of_nat (sig (mp_p Y)) <= POLARSSL_MPI_MAX_LIMBS ->
    good (fun T => b = true -> limbs_ok (mp_p T) /\ lval (mp_p T) = lval (mp_p Y) /\ mp_s T = mp_s Y)
      (if b then mpi_copy mpi_init Y else ret (0, mpi_init))).
  { intros b Y HY OY HMY. destruct b; [|by apply good_ret]. eapply good_mono; [|by apply mpi_copy_good]. by intros T (? & ? & ? & _) _. }
  eapply (good_chk (fun TA => al = XisA -> limbs_ok (mp_p TA) /\ lval (mp_p TA) = lval (mp_p A) /\ mp_s TA = mp_s A)).
  { destruct al; [by apply good_ret| |by apply good_ret]. eapply good_mono; [|apply (Hcp true A); done || lia]. intros T H _. by apply H. }
  intros TA HTA. set (A' := match al with XisA => TA | _ => A end).
  assert (HA' : limbs_ok (mp_p A') /\ lval (mp_p A') = lval (mp_p A) /\ mp_s A' = mp_s A) by (destruct al; [done|by apply HTA|done]).
  eapply (good_chk (fun TB => al = XisB -> limbs_ok (mp_p TB) /\ lval (mp_p TB) = lval (mp_p B) /\ mp_s TB = mp_s B)).
  { destruct al; [by apply good_ret|by apply good_ret|]. eapply good_mono; [|apply (Hcp true B); done || lia]. intros T H _. by apply H. }
  intros TB HTB. set (B' := match al with XisB => TB | _ => B end).
  assert (HB' : limbs_ok (mp_p B') /\ lval (mp_p B') = lval (mp_p B) /\ mp_s B' = mp_s B) by (destruct al; [done|done|by apply HTB]).
  destruct HA' as (OA' & VA' & SA'), HB' as (OB' & VB' & SB'). clearbody A' B'. clear HTA HTB Hcp.
  fold (sig (mp_p A')) (sig (mp_p B')). rewrite (sig_eq _ _ OA' OA VA'), (sig_eq _ _ OB' OB VB').
  eapply good_chk; [by apply mpi_grow_good|]. intros X1 [_ H1].
  eapply good_chk; [by apply mpi_lset_good|]. intros X2 (_ & O2 & V2 & L2).
  assert (HL : length (mp_p X2) = n) by (rewrite L2, H1, length_app, length_zeros; lia).
  rewrite <- (sig_eq _ _ OA' OA VA'), <- (sig_eq _ _ OB' OB VB').
  destruct (mul_loop_used (take (sig (mp_p A')) (mp_p A')) (mp_p B') (mp_p X2)) as (x & E & Lx & Ox & Vx); auto with mpi.
  { rewrite length_sig, (sig_eq _ _ OA' OA VA'), (sig_eq _ _ OB' OB VB'). lia. }
  rewrite E. eapply (good_calm (fun d' => d' = x)); [by apply calm_ret|]. intros _ ->. apply good_ret. cbn [snd].
  rewrite sig_lval in Vx. unfold holds. cbn [mp_s mp_p]. split_and!; try done; congruence.
Qed.

(** ** Signed numbers *)

Definition signed (X : mpi) : Prop := mp_s X = 1 \/ mp_s X = -1.
Definition ival (X : mpi) : Z := mp_s X * lval (mp_p X).

(** A number in the representation, of at most [n] significant limbs *)
Definition number (n : nat) (X : mpi) : Prop :=
  signed X /\ mp_p X <> [] /\ limbs_ok (mp_p X) /\ (sig (mp_p X) <= n)%nat.

Lemma mpi_cmp_abs_ge A B : limbs_ok (mp_p A) -> limbs_ok (mp_p B) -> (0 <=? mpi_cmp_abs A B) = (lval (mp_p B) <=? lval (mp_p A)).
Proof.
  intros. rewrite mpi_cmp_abs_spec by done. apply eq_true_iff_eq. rewrite !Z.leb_le, Z.sgn_nonneg. lia.
Qed.

(** The last step of the signed functions: a sign for the result *)
Lemma good_sign {Q R : mpi -> Prop} m s : good Q m -> (forall X, Q X -> R (set_s s X)) ->
  good R (chk m id (fun X => ret (0, set_s s X))).
Proof. intros Hm HR. eapply good_chk; [done|]. intros X HX. by apply good_ret, HR. Qed.

Lemma aliased_swap al X A B : aliased al X A B -> aliased (swap_alias al) X B A.
Proof. by destruct al. Qed.

Lemma nonnil_length {A} (l : list A) : l <> [] -> (0 < length l)%nat.
Proof. destruct l; [done|cbn; lia]. Qed.

Lemma room_pos al X A B : aliased al X A B -> mp_p A <> [] -> (0 < room al X A)%nat.
Proof. intros Hal HA. destruct al; cbn in *; [lia|subst X; by apply nonnil_length|lia]. Qed.

Definition result (z : Z) (X' : mpi) : Prop :=
  signed X' /\ mp_p X' <> [] /\ limbs_ok (mp_p X') /\ ival X' = z.

Lemma length_nonnil {A} (l : list A) : (0 < length l)%nat -> l <> [].
Proof. destruct l; [cbn; lia|done]. Qed.

(** The absolute values are subtracted, the smaller from the larger. *)
Lemma signed_sub_good al X A B n : Z.of_nat n <= POLARSSL_MPI_MAX_LIMBS ->
  aliased al X A B -> number n A -> number n B ->
  good (result (mp_s A * (lval (mp_p A) - lval (mp_p B))))
    (if 0 <=? mpi_cmp_abs A B then chk (mpi_sub_abs al X A B) id (fun X => ret (0, set_s (mp_s A) X))
     else chk (mpi_sub_abs (swap_alias al) X B A) id (fun X => ret (0, set_s (- mp_s A) X))).
Proof.
  intros Hn Hal (SA & NA & OA & LA') (SB & NB & OB & LB'). rewrite mpi_cmp_abs_ge by done.
  destruct (Z.leb_spec (lval (mp_p B)) (lval (mp_p A))) as [Hle|Hlt].
  - eapply good_sign; [apply mpi_sub_abs_good; done || lia|]. intros X' (_ & O & V & L). unfold result, ival, signed. cbn [set_s mp_s mp_p].
    split_and!; try done; [|by rewrite V]. apply length_nonnil. rewrite L. by eapply room_pos.
  - eapply good_sign; [apply mpi_sub_abs_good; try done; [by apply aliased_swap|lia|lia]|]. intros X' (_ & O & V & L).
    unfold result, ival, signed. cbn [set_s mp_s mp_p]. split_and!; try done; [unfold signed in SA; lia| |rewrite V; ring].
    apply length_nonnil. rewrite L. eapply room_pos; [by apply aliased_swap|done].
Qed.

Lemma signed_add_good al X A B n : Z.of_nat n < POLARSSL_MPI_MAX_LIMBS -> (length (mp_p X) <= n)%nat ->
  aliased al X A B -> number n A -> number n B ->
  good (result (mp_s A * (lval (mp_p A) + lval (mp_p B)))) (chk (mpi_add_abs al X A B) id (fun X => ret (0, set_s (mp_s A) X))).
Proof.
  intros Hn HX Hal (SA & NA & OA & LA') (SB & NB & OB & LB').
  assert (Hr : (0 < add_room al X A B)%nat).
  { apply nonnil_length in NA, NB. destruct al; cbn [aliased add_room] in *; [lia|subst; lia|subst; lia]. }
  assert (Hm : Z.of_nat (add_room al X A B) < POLARSSL_MPI_MAX_LIMBS) by (pose proof MAX_LIMBS_Z; destruct al; cbn [add_room]; lia).
  eapply good_sign; [by apply mpi_add_abs_good|]. intros X' (_ & O & V & L). unfold result, ival, signed. cbn [set_s mp_s mp_p].
  split_and!; try done; [|by rewrite V]. apply length_nonnil. lia.
Qed.

Lemma mpi_add_mpi_good al X A B n : Z.of_nat n < POLARSSL_MPI_MAX_LIMBS -> (length (mp_p X) <= n)%nat ->
  aliased al X A B -> number n A -> number n B ->
  good (result (ival A + ival B)) (mpi_add_mpi al X A B).
Proof.
  intros Hn HX Hal HA HB. unfold mpi_add_mpi. pose proof (proj1 HA) as SA. pose proof (proj1 HB) as SB. unfold signed in SA, SB. cbv zeta.
  destruct (Z.ltb_spec (mp_s A * mp_s B) 0) as [H|H].
  - eapply good_mono; [|apply (signed_sub_good al X A B n); done || lia]. unfold result, ival. intros X' (? & ? & ? & ->). split_and!; try done. nia.
  - eapply good_mono; [|apply (signed_add_good al X A B n); done || lia]. unfold result, ival. intros X' (? & ? & ? & ->). split_and!; try done. nia.
Qed.

Lemma mpi_sub_mpi_good al X A B n : Z.of_nat n < POLARSSL_MPI_MAX_LIMBS -> (length (mp_p X) <= n)%nat ->
  aliased al X A B -> number n A -> number n B ->
  good (result (ival A - ival B)) (mpi_sub_mpi al X A B).
Proof.
  intros Hn HX Hal HA HB. unfold mpi_sub_mpi. pose proof (proj1 HA) as SA. pose proof (proj1 HB) as SB. unfold signed in SA, SB. cbv zeta.
  destruct (Z.ltb_spec 0 (mp_s A * mp_s B)) as [H|H].
  - eapply good_mono; [|apply (signed_sub_good al X A B n); done || lia]. unfold result, ival. intros X' (? & ? & ? & ->). split_and!; try done. nia.
  - eapply good_mono; [|apply (signed_add_good al X A B n); done || lia]. unfold result, ival. intros X' (? & ? & ? & ->). split_and!; try done. nia.
Qed.

(** ** Import and export *)

Lemma lval_insert p i x : (i < length p)%nat -> lval (<[i:=x]> p) = lval p + LBn i * (x - limb p i).
Proof.
  revert i. induction p as [|y p IH]; intros i Hi; [cbn in Hi; lia|]. destruct i as [|i].
  - cbn [insert list_insert lval]. change (limb (y :: p) 0) with y. rewrite LBn_0. lia.
  - change (<[S i:=x]> (y :: p)) with (y :: <[i:=x]> p). cbn [lval]. rewrite limb_cons, IH, LBn_S by (cbn in Hi; lia). ring.
Qed.

Lemma limbs_ok_insert p i x : limbs_ok p -> limb_ok x -> limbs_ok (<[i:=x]> p).
Proof. intros. by apply Forall_insert. Qed.

Lemma limb_insert p i x : (i < length p)%nat -> limb (<[i:=x]> p) i = x.
Proof. intros. unfold limb. by rewrite list_lookup_insert_eq. Qed.

Lemma limb_insert_ne p i j x : i <> j -> limb (<[i:=x]> p) j = limb p j.
Proof. intros. unfold limb. by rewrite list_lookup_insert_ne. Qed.

Lemma limb_value p i : limbs_ok p -> limb p i = lval p / LBn i mod LB.
Proof.
  intros Hp. rewrite <- lval_drop by done. destruct (decide (i < length p)%nat) as [Hi|Hi].
  - rewrite lval_drop_S by done. pose proof (limb_limb_ok p i Hp) as Hl. unfold limb_ok in Hl.
    rewrite (Z.mul_comm LB), Z.mod_add by done. symmetry. by apply Z.mod_small.
  - rewrite drop_ge by lia. unfold limb. by rewrite lookup_ge_None_2 by lia.
Qed.

Lemma byte_index (j : nat) : 256 ^ j = LBn (j / 8) * 2 ^ ((j mod 8) * 8)%nat.
Proof.
  rewrite LBn_bits, <- Z.pow_add_r by lia. change 256 with (2 ^ 8). rewrite <- Z.pow_mul_r by lia. f_equal.
  pose proof (Nat.div_mod_eq j 8). lia.
Qed.

(** A digit of [w] bits put above everything else in the number *)
Lemma put_digit_spec p (i sh w : nat) d : limbs_ok p -> (i < length p)%nat -> (sh + w <= 64)%nat -> 0 <= d < 2 ^ Z.of_nat w ->
  lval p < LBn i * 2 ^ Z.of_nat sh ->
  let p' := <[i := Z.lor (limb p i) (u64 (Z.shiftl d sh))]> p in
  length p' = length p /\ limbs_ok p' /\ lval p' = lval p + LBn i * 2 ^ Z.of_nat sh * d.
Proof.
  intros Hp Hi Hsw Hd Hv. pose proof (lval_bound p Hp) as Bp. pose proof (LBn_pos i) as Hpi.
  pose proof (Z.pow_pos_nonneg 2 (Z.of_nat sh) ltac:(lia) ltac:(lia)) as Hpm.
  assert (Hb : 2 ^ Z.of_nat w * 2 ^ Z.of_nat sh <= LB) by (rewrite <- Z.pow_add_r by lia; unfold LB; apply Z.pow_le_mono_r; lia).
  assert (Hlow : 0 <= limb p i < 2 ^ Z.of_nat sh).
  { rewrite limb_value by done. assert (Hq : 0 <= lval p / LBn i < 2 ^ Z.of_nat sh) by (split; [apply Z.div_pos; lia|apply Z.div_lt_upper_bound; lia]).
    rewrite Z.mod_small; [done|]. split; [lia|]. apply Z.lt_le_trans with (2 ^ Z.of_nat sh); [lia|]. unfold LB. apply Z.pow_le_mono_r; lia. }
  assert (Ex : Z.lor (limb p i) (u64 (Z.shiftl d sh)) = limb p i + d * 2 ^ Z.of_nat sh).
  { rewrite Z.shiftl_mul_pow2, u64_limb by (unfold limb_ok; nia). rewrite Z.lor_comm, (lor_add _ _ sh); [lia|lia|done|apply Z.mod_mul; lia]. }
  cbv zeta. rewrite Ex. split_and!; [apply length_insert| |rewrite lval_insert by done; nia].
  apply limbs_ok_insert; [done|]. unfold limb_ok. nia.
Qed.

Lemma read_loop_spec l j p : bytes_ok l -> limbs_ok p -> (j + length l <= 8 * length p)%nat -> lval p < 256 ^ j ->
  length (read_loop l j p) = length p /\ limbs_ok (read_loop l j p) /\
  lval (read_loop l j p) = lval p + 256 ^ j * be_value (reverse l).
Proof.
  intros Hl. revert j p. induction Hl as [|b l Hb Hl IH]; intros j p Hp Hn Hv; cbn [read_loop].
  { split_and!; try done. change (be_value (reverse [])) with 0. lia. }
  cbn [length] in Hn. pose proof (Nat.div_mod_eq j 8). pose proof (Nat.mod_upper_bound j 8 ltac:(lia)).
  rewrite byte_index in Hv. replace (Z.of_nat j mod 8 * 8) with (Z.of_nat (j mod 8 * 8)) by (rewrite Nat2Z.inj_mul, Nat2Z.inj_mod; lia).
  destruct (put_digit_spec p (j / 8) (j mod 8 * 8) 8 b) as (Lp & Op & Vp); [done|lia..|exact Hb|done|].
  rewrite <- byte_index in Hv, Vp. set (p' := <[_:=_]> p) in *. unfold byte_ok in Hb.
  destruct (IH (S j) p' Op ltac:(lia)) as (L & O & V).
  { rewrite Vp, Nat2Z.inj_succ, Z.pow_succ_r by lia. nia. }
  rewrite Lp in L. split_and!; try done. rewrite V, Vp, reverse_cons, be_value_snoc, Nat2Z.inj_succ, Z.pow_succ_r by lia. ring.
Qed.

Lemma leading_zeros_spec buf : (leading_zeros buf <= length buf)%nat /\ be_value (drop (leading_zeros buf) buf) = be_value buf.
Proof.
  induction buf as [|b buf [IH1 IH2]]; [done|]. cbn [leading_zeros]. destruct (Z.eqb_spec b 0) as [->|]; cbn [drop length]; [|split; [lia|done]].
  split; [lia|]. rewrite IH2. done.
Qed.

Lemma mpi_read_binary_good X buf : bytes_ok buf -> Z.of_nat (length buf) <= 8 * POLARSSL_MPI_MAX_LIMBS ->
  good (holds 1 (be_value buf) (Nat.max (Nat.max (length (mp_p X)) ((length buf - leading_zeros buf + 7) / 8)) 1)) (mpi_read_binary X buf).
Proof.
  intros Hb Hn. unfold mpi_read_binary. set (n := leading_zeros buf). destruct (leading_zeros_spec buf) as [Hz Ev]. fold n in Hz, Ev.
  pose proof (Nat.div_mod_eq (length buf - n + 7) 8) as Hdm. pose proof (Nat.mod_upper_bound (length buf - n + 7) 8 ltac:(lia)) as Hm.
  eapply good_chk; [apply mpi_grow_good; lia|]. intros X1 [_ H1]. eapply good_chk; [by apply mpi_lset_good|].
  intros X2 (S2 & O2 & V2 & L2). apply good_ret. rewrite H1, length_app, length_zeros in L2.
  destruct (read_loop_spec (reverse (drop n buf)) 0 (mp_p X2)) as (L & O & V); try done.
  - apply Forall_reverse, Forall_drop, Hb.
  - rewrite length_reverse, length_drop. lia.
  - rewrite V2. done.
  - unfold holds. cbn [set_p mp_s mp_p]. rewrite reverse_involutive, Ev, V2 in V. split_and!; try done; lia.
Qed.

Lemma be_bytes_seq v (n : nat) : 0 <= v -> reverse ((fun j : nat => v / 256 ^ j mod 256) <$> seq 0 n) = be_bytes n v.
Proof.
  revert v. induction n as [|n IH]; intros v Hv; [done|]. cbn [seq fmap list_fmap be_bytes]. rewrite reverse_cons. f_equal.
  - rewrite <- IH by (apply Z.div_pos; lia). f_equal. rewrite <- fmap_S_seq, <- list_fmap_compose. apply list_fmap_ext. intros _ j _. cbn [compose].
    rewrite Nat2Z.inj_succ, Z.pow_succ_r, Z.div_div by lia. done.
  - change (256 ^ 0%nat) with 1. by rewrite Z.div_1_r.
Qed.

Lemma be_bytes_pad m n v : 0 <= v < 256 ^ Z.of_nat n -> be_bytes (m + n) v = zeros m ++ be_bytes n v.
Proof.
  intros Hv. replace v with (0 * 256 ^ Z.of_nat n + v) at 1 by lia. rewrite be_bytes_app by done. f_equal.
  clear. induction m as [|m IH]; [done|]. cbn [be_bytes]. change (0 / 256) with 0. change (0 mod 256) with 0. rewrite IH.
  unfold zeros. change [0] with (replicate 1 0). rewrite <- replicate_add. f_equal. lia.
Qed.

(** [nbytes]: the bytes of a number without leading zeros *)
Definition zbytes (v : Z) : nat := ((zbits v + 7) / 8)%nat.

Lemma zbytes_spec v : 0 <= v -> v < 256 ^ zbytes v.
Proof.
  intros Hv. change 256 with (2 ^ 8). rewrite <- Z.pow_mul_r by lia. unfold zbytes.
  pose proof (Nat.div_mod_eq (zbits v + 7) 8). pose proof (Nat.mod_upper_bound (zbits v + 7) 8 ltac:(lia)).
  replace (8 * Z.of_nat ((zbits v + 7) / 8)) with (Z.of_nat (8 * ((zbits v + 7) / 8))) by lia. apply zbits_le_iff; [done|]. lia.
Qed.

Lemma zbytes_pos v : 0 < v -> (1 <= zbytes v)%nat.
Proof.
  intros Hv. pose proof (zbytes_spec v ltac:(lia)) as H. destruct (zbytes v); [change (256 ^ Z.of_nat 0) with 1 in H; lia|lia].
Qed.

Lemma zbytes_mono v w : 0 <= v <= w -> (zbytes v <= zbytes w)%nat.
Proof.
  intros Hv. apply Nat.Div0.div_le_mono. enough (zbits v <= zbits w)%nat by lia. apply zbits_le_iff; [lia|].
  apply (Z.le_lt_trans _ w); [lia|]. by apply zbits_le_iff; [lia|].
Qed.

Lemma mpi_write_binary_run X n (s : St) : mp_p X <> [] -> limbs_ok (mp_p X) ->
  mpi_write_binary X n s =
    Done (if (n <? zbytes (lval (mp_p X)))%nat then (POLARSSL_ERR_MPI_BUFFER_TOO_SMALL, []) else (0, be_bytes n (lval (mp_p X))), s).
Proof.
  intros Hne Hok. unfold mpi_write_binary. erewrite bind_done by (by apply mpi_size_run). fold (zbytes (lval (mp_p X))).
  pose proof (lval_bound _ Hok) as Hb. set (v := lval (mp_p X)) in *. destruct (Nat.ltb_spec n (zbytes v)) as [H|H]; [done|].
  unfold ret. do 3 f_equal. replace n with (n - zbytes v + zbytes v)%nat at 2 by lia. rewrite be_bytes_pad by (split; [lia|apply zbytes_spec; lia]).
  f_equal. rewrite <- be_bytes_seq by lia. f_equal. apply list_fmap_ext. intros _ j _. unfold u8.
  replace (Z.of_nat j mod 8 * 8) with (Z.of_nat ((j mod 8) * 8)) by (rewrite Nat2Z.inj_mul, Nat2Z.inj_mod; lia).
  rewrite limb_value, Z.shiftr_div_pow2 by (done || lia). fold v. change (2 ^ 8) with 256.
  rewrite byte_index. pose proof (LBn_pos (j / 8)). pose proof (Nat.mod_upper_bound j 8 ltac:(lia)).
  set (m := ((j mod 8) * 8)%nat) in *.
  pose proof (Z.pow_pos_nonneg 2 m ltac:(lia) ltac:(lia)). rewrite <- Z.div_div by lia. set (w := v / LBn (j / 8)).
  assert (E : LB = 2 ^ m * (256 * 2 ^ (56 - m))).
  { change 256 with (2 ^ 8). rewrite <- !Z.pow_add_r by lia. unfold LB. f_equal. lia. }
  pose proof (Z.pow_pos_nonneg 2 (56 - m) ltac:(lia) ltac:(lia)).
  rewrite E, Z.rem_mul_r by nia. rewrite (Z.mul_comm (2 ^ m)), Z.div_add, Z.div_small by (lia || (apply Z.mod_pos_bound; lia)).
  rewrite Z.add_0_l, (Z.rem_mul_r _ 256) by lia. rewrite (Z.mul_comm 256), Z.mod_add, Z.mod_mod by lia. done.
Qed.
End Ops.

(** ** Claims *)

Section OpsClaims.
Context {St : Type} {AL : Alloc St} {LA : AllocLaws AL}.

Lemma mpi_mul_mpi_result al X A B n m : aliased al X A B -> number n A -> number m B -> Z.of_nat (n + m) <= POLARSSL_MPI_MAX_LIMBS ->
  good (result (ival A * ival B)) (mpi_mul_mpi al X A B).
Proof.
  intros Hal (SA & NA & OA & HA) (SB & NB & OB & HB) HM. eapply good_mono; [|apply mpi_mul_mpi_good; try done; lia].
  intros X' (S' & O' & V' & L'). unfold result, signed, ival in *. rewrite S', V'. split_and!; [lia|apply length_nonnil; lia|done|ring].
Qed.

(** C29: The arithmetic on limbs is the arithmetic of the integers: whatever the signs, and
    whichever operand is also the object of the result, [mpi_add_mpi], [mpi_sub_mpi] and
    [mpi_mul_mpi] return 0 with the sum, the difference and the product, or the status of
    a failed allocation; with memory to spare they succeed. *)
Theorem mpi_arithmetic al X A B n :
  Z.of_nat (2 * n) < POLARSSL_MPI_MAX_LIMBS -> (length (mp_p X) <= n)%nat -> aliased al X A B -> number n A -> number n B ->
  good (result (ival A + ival B)) (mpi_add_mpi al X A B) /\
  good (result (ival A - ival B)) (mpi_sub_mpi al X A B) /\
  good (result (ival A * ival B)) (mpi_mul_mpi al X A B).
Proof.
  intros HM HX Hal HA HB. split_and!.
  - apply (mpi_add_mpi_good al X A B n); done || lia.
  - apply (mpi_sub_mpi_good al X A B n); done || lia.
  - apply (mpi_mul_mpi_result al X A B n n); done || lia.
Qed.

(** Numbers survive export and import: what [mpi_read_binary] makes of a buffer,
    [mpi_write_binary] writes back as the same bytes, leading zeros included, and refuses
    a buffer that is too short. *)
Theorem mpi_binary_roundtrip X buf : bytes_ok buf -> Z.of_nat (length buf) <= 8 * POLARSSL_MPI_MAX_LIMBS ->
  good (fun X' => lval (mp_p X') = be_value buf /\
    (forall s : St, mpi_write_binary X' (length buf) s = Done ((0, buf), s)) /\
    (forall (m : nat) (s : St), (m < zbytes (be_value buf))%nat -> mpi_write_binary X' m s = Done ((POLARSSL_ERR_MPI_BUFFER_TOO_SMALL, []), s)))
    (mpi_read_binary X buf).
Proof.
  intros Hb HM. eapply good_mono; [|by apply mpi_read_binary_good]. intros X' (S' & O' & V' & L').
  assert (NX : mp_p X' <> []) by (apply length_nonnil; lia). split_and!; [done| |].
  - intros s. rewrite mpi_write_binary_run by done. rewrite V', be_bytes_value by done. destruct (Nat.ltb_spec (length buf) (zbytes (be_value buf))) as [H|H]; [|done].
    exfalso. pose proof (be_value_range buf Hb) as [H0 H1]. change 256 with (2 ^ 8) in H1. rewrite <- Z.pow_mul_r in H1 by lia.
    assert (zbits (be_value buf) <= 8 * length buf)%nat by (apply zbits_lt; split; [lia|]; by replace (Z.of_nat (8 * length buf)) with (8 * Z.of_nat (length buf)) by lia).
    unfold zbytes in H. pose proof (Nat.Div0.div_lt_upper_bound (zbits (be_value buf) + 7) 8 (S (length buf))). lia.
  - intros m s Hm. rewrite mpi_write_binary_run, V' by done. by replace (m <? _)%nat with true by (symmetry; by apply Nat.ltb_lt).
Qed.
End OpsClaims.

Lemma mpi_arithmetic_witness :
  good (result (ival (Mpi (-1) [7; 1]) + ival (Mpi 1 [9]))) (mpi_add_mpi XisA (Mpi (-1) [7; 1]) (Mpi (-1) [7; 1]) (Mpi 1 [9])) /\
  good (result (ival (Mpi (-1) [7; 1]) - ival (Mpi 1 [9]))) (mpi_sub_mpi XisA (Mpi (-1) [7; 1]) (Mpi (-1) [7; 1]) (Mpi 1 [9])) /\
  good (result (ival (Mpi (-1) [7; 1]) * ival (Mpi 1 [9]))) (mpi_mul_mpi XisA (Mpi (-1) [7; 1]) (Mpi (-1) [7; 1]) (Mpi 1 [9])).
Proof.
  apply (mpi_arithmetic XisA (Mpi (-1) [7; 1]) (Mpi (-1) [7; 1]) (Mpi 1 [9]) 2); [by vm_compute|cbn; lia|reflexivity| |].
  - split_and!; [by right|discriminate|by repeat constructor|vm_compute; lia].
  - split_and!; [by left|discriminate|by repeat constructor|vm_compute; lia].
Defined.

Definition wit_buf : bytes := [0; 1; 255; 3].

Lemma mpi_binary_roundtrip_witness :
  good (fun X' => lval (mp_p X') = be_value wit_buf /\
    (forall s : unit, mpi_write_binary X' 4 s = Done ((0, wit_buf), s)) /\
    (forall (m : nat) (s : unit), (m < zbytes (be_value wit_buf))%nat -> mpi_write_binary X' m s = Done ((POLARSSL_ERR_MPI_BUFFER_TOO_SMALL, []), s)))
    (mpi_read_binary mpi_init wit_buf).
Proof. apply (mpi_binary_roundtrip mpi_init wit_buf); [by repeat constructor|by vm_compute]. Defined.
