(* ===== verification/MpiDiv.v ===== *)
(** * Division of multi-precision integers

    [mpi_div_mpi] and [mpi_mod_mpi] of PolarSSL's bignum.c: HAC 14.20 on 64-bit limbs.
    The divisor is normalised to 63 bits in its top limb; each quotient limb is guessed
    from the top limbs, corrected by comparing the top three, and corrected once more
    when the subtraction goes below zero.  The guess comes from a 128-bit division
    ([POLARSSL_HAVE_LONGLONG], as in the user library) or from two 64 by 32 bit halves
    (as in the kernel).

    The division is right for the 128-bit guess, and for the halves unless the low half
    of the divisor's top limb is one of the last two values: then a product of the guess
    can wrap around, the quotient limb comes out far too small, and [mpi_mod_mpi]
    subtracts the modulus once for each unit that is missing. *)

From S2P Require Import Prelude Mpi MpiOps.

(** Side conditions: hypotheses and arithmetic first *)
Ltac triv := first [assumption | lia | done].

Section Div.
Context {St : Type} {AL : Alloc St}.
Abbreviation P := (M St).

(** ** Limb arrays *)

Definition get (p : list Z) (i : nat) : P Z := in_bounds (p !! i).
Definition put (p : list Z) (i : nat) (x : Z) : P (list Z) :=
  if (i <? length p)%nat then ret (<[i := x]> p) else oops OutOfBounds.

(** ** The guess *)

(** [while( r1 >= d && r1 < m ) q1--, r1 += d;] *)
Fixpoint half_loop (fuel : nat) (d m q r : Z) : option (Z * Z) :=
  if (d <=? r) && (r <? m) then
    match fuel with
    | O => None
    | S fuel => half_loop fuel d m (u64 (q - 1)) (u64 (r + d))
    end
  else Some (q, r).

(** One half of [__udiv_qrnnd_c]: a 32-bit quotient digit of [r * 2^32 + x] and the
    remainder *)
Definition div_half (fuel : nat) (d r x : Z) : option (Z * Z) :=
  let d0 := Z.shiftr (u64 (Z.shiftl d 32)) 32 in
  let d1 := Z.shiftr d 32 in
  let q1 := r / d1 in
  let r1 := u64 (r - d1 * q1) in
  let r1 := Z.lor (u64 (Z.shiftl r1 32)) x in
  let m := u64 (q1 * d0) in
  let res := if r1 <? m then half_loop fuel d m (u64 (q1 - 1)) (u64 (r1 + d)) else Some (q1, r1) in
  '(q1, r1) ← res; Some (q1, u64 (r1 - m)).

Definition udiv_qrnnd (fuel : nat) (x1 x0 d : Z) : option Z :=
  '(q1, r1) ← div_half fuel d x1 (Z.shiftr x0 32);
  '(q0, _) ← div_half fuel d r1 (Z.shiftr (u64 (Z.shiftl x0 32)) 32);
  Some (Z.lor (u64 (Z.shiftl q1 32)) q0).

(** The branch of [POLARSSL_HAVE_LONGLONG]: [t_udbl] has 128 bits. *)
Definition div_wide (x1 x0 d : Z) : Z :=
  let r := Z.lor ((Z.shiftl x1 64 mod 2 ^ 128)) x0 / d in
  let r := if 2 ^ 64 - 1 <? r then 2 ^ 64 - 1 else r in
  u64 r.

(** ** The locals of [mpi_div_mpi] *)

Record dvars := Dv { vX : mpi; vY : mpi; vZ : mpi; vT1 : mpi; vT2 : mpi }.

Definition set_vX X v := Dv X (vY v) (vZ v) (vT1 v) (vT2 v).
Definition set_vY Y v := Dv (vX v) Y (vZ v) (vT1 v) (vT2 v).
Definition set_vZ Z v := Dv (vX v) (vY v) Z (vT1 v) (vT2 v).
Definition set_vT1 T v := Dv (vX v) (vY v) (vZ v) T (vT2 v).
Definition set_vT2 T v := Dv (vX v) (vY v) (vZ v) (vT1 v) T.

(** A call that changes one of them *)
Definition on (set : mpi -> dvars -> dvars) (v : dvars) (m : P (Z * mpi)) : P (Z * dvars) :=
  let! r := m in ret (fst r, set (snd r) v).

Definition put_limb (set : mpi -> dvars -> dvars) (X : mpi) (i : nat) (x : Z) (v : dvars) : P dvars :=
  let! p := put (mp_p X) i x in ret (set (set_p X p) v).

(** [while( mpi_cmp_mpi( &X, &Y ) >= 0 ) { Z.p[n - t]++; mpi_sub_mpi( &X, &X, &Y ); }] *)
Fixpoint div_top (fuel j : nat) (v : dvars) : P dvars :=
  if 0 <=? mpi_cmp_mpi (vX v) (vY v) then
    match fuel with
    | O => oops Hang
    | S fuel =>
        let! z := get (mp_p (vZ v)) j in
        let! v := put_limb set_vZ (vZ v) j (u64 (z + 1)) v in
        let! r := mpi_sub_mpi XisA (vX v) (vX v) (vY v) in
        div_top fuel j (set_vX (snd r) v)
    end
  else ret v.

(** The guess for [Z.p[i - t - 1]] *)
Definition div_guess (longlong : bool) (fuel : nat) (x1 x0 d : Z) : P Z :=
  if d <=? x1 then ret (u64 (-1)) else
  if longlong then ret (div_wide x1 x0 d) else
  match udiv_qrnnd fuel x1 x0 d with Some z => ret z | None => oops Hang end.

(** The do-while loop that lowers [Z.p[j]], for [j = i - t - 1] *)
Fixpoint div_lower (fuel t i j : nat) (v : dvars) : P (Z * dvars) :=
  match fuel with
  | O => oops Hang
  | S fuel =>
      let! z := get (mp_p (vZ v)) j in
      let z := u64 (z - 1) in
      let! v := put_limb set_vZ (vZ v) j z v in
      chk (on set_vT1 v (mpi_lset (vT1 v) 0)) id (fun v =>
      let! y := if (t <? 1)%nat then ret 0 else get (mp_p (vY v)) (t - 1) in
      let! v := put_limb set_vT1 (vT1 v) 0 y v in
      let! y := get (mp_p (vY v)) t in
      let! v := put_limb set_vT1 (vT1 v) 1 y v in
      chk (on set_vT1 v (mpi_mul_int XisA (vT1 v) (vT1 v) z)) id (fun v =>
      chk (on set_vT2 v (mpi_lset (vT2 v) 0)) id (fun v =>
      let! x := if (i <? 2)%nat then ret 0 else get (mp_p (vX v)) (i - 2) in
      let! v := put_limb set_vT2 (vT2 v) 0 x v in
      let! x := if (i <? 1)%nat then ret 0 else get (mp_p (vX v)) (i - 1) in
      let! v := put_limb set_vT2 (vT2 v) 1 x v in
      let! x := get (mp_p (vX v)) i in
      let! v := put_limb set_vT2 (vT2 v) 2 x v in
      if 0 <? mpi_cmp_mpi (vT1 v) (vT2 v) then div_lower fuel t i j v else ret (0, v))))
  end.

(** The multiple is subtracted, and the divisor added back below zero *)
Definition div_take (j : nat) (v : dvars) : P (Z * dvars) :=
  let! z := get (mp_p (vZ v)) j in
  chk (on set_vT1 v (mpi_mul_int NoAlias (vT1 v) (vY v) z)) id (fun v =>
  chk (on set_vT1 v (mpi_shift_l (vT1 v) (64 * j))) id (fun v =>
  chk (on set_vX v (mpi_sub_mpi XisA (vX v) (vX v) (vT1 v))) id (fun v =>
  if mpi_cmp_int (vX v) 0 <? 0 then
    chk (on set_vT1 v (mpi_copy (vT1 v) (vY v))) id (fun v =>
    chk (on set_vT1 v (mpi_shift_l (vT1 v) (64 * j))) id (fun v =>
    chk (on set_vX v (mpi_add_mpi XisA (vX v) (vX v) (vT1 v))) id (fun v =>
    let! z := get (mp_p (vZ v)) j in
    let! v := put_limb set_vZ (vZ v) j (u64 (z - 1)) v in
    ret (0, v))))
  else ret (0, v)))).

(** One pass of the for loop, at [i = t + j + 1] *)
Definition div_step (longlong : bool) (fuel t j : nat) (v : dvars) : P (Z * dvars) :=
  let i := (t + j + 1)%nat in
  let! x1 := get (mp_p (vX v)) i in
  let! d := get (mp_p (vY v)) t in
  let! x0 := get (mp_p (vX v)) (i - 1) in
  let! g := div_guess longlong fuel x1 x0 d in
  let! v := put_limb set_vZ (vZ v) j g v in
  let! z := get (mp_p (vZ v)) j in
  let! v := put_limb set_vZ (vZ v) j (u64 (z + 1)) v in
  chk (div_lower fuel t i j v) id (div_take j).

(** [for( i = n; i > t; i-- )], [c = i - t] *)
Fixpoint div_for (longlong : bool) (fuel t c : nat) (v : dvars) : P (Z * dvars) :=
  match c with
  | O => ret (0, v)
  | S j => chk (div_step longlong fuel t j v) id (div_for longlong fuel t j)
  end.

(** Which results are the object [A] *)
Inductive div_alias := Apart | QisA | RisA.

(** From the copies to the end of the for loop: the shift [k] and the locals.  The
    shifts by whole limbs are not checked. *)
Definition div_setup (A B : mpi) (v : dvars) : P (Z * dvars) :=
  chk (on set_vX v (mpi_copy (vX v) A)) id (fun v =>
  chk (on set_vY v (mpi_copy (vY v) B)) id (fun v =>
  let v := set_vX (set_s 1 (vX v)) (set_vY (set_s 1 (vY v)) v) in
  chk (on set_vZ v (mpi_grow (vZ v) (length (mp_p A) + 2))) id (fun v =>
  chk (on set_vZ v (mpi_lset (vZ v) 0)) id (fun v =>
  chk (on set_vT1 v (mpi_grow (vT1 v) 2)) id (fun v =>
  on set_vT2 v (mpi_grow (vT2 v) 3)))))).

Definition div_normalise (v : dvars) : P (Z * (nat * dvars)) :=
  let! m := mpi_msb (vY v) in
  let k := (m mod 64)%nat in
  if (k <? 63)%nat then
    let k := (63 - k)%nat in
    chk (on set_vX v (mpi_shift_l (vX v) k)) (pair k) (fun v =>
    chk (on set_vY v (mpi_shift_l (vY v) k)) (pair k) (fun v => ret (0, (k, v))))
  else ret (0, (0%nat, v)).

Definition div_main (longlong : bool) (fuel : nat) (v : dvars) : P (Z * dvars) :=
  let n := (length (mp_p (vX v)) - 1)%nat in
  let t := (length (mp_p (vY v)) - 1)%nat in
  let! r := mpi_shift_l (vY v) (64 * (n - t)) in
  let v := set_vY (snd r) v in
  let! v := div_top fuel (n - t) v in
  let! r := mpi_shift_r (vY v) (64 * (n - t)) in
  let v := set_vY (snd r) v in
  div_for longlong fuel t (n - t) v.

(** The copies to [Q] and [R] (not checked); an aliased [A] has the new sign. *)
Definition div_out (al : div_alias) (Q R : option mpi) (A B : mpi) (k : nat) (v : dvars)
  : P (option mpi * option mpi * dvars) :=
  let! q :=
    match Q with
    | None => ret (None, A)
    | Some Q =>
        let! r := mpi_copy Q (vZ v) in
        let sA := match al with QisA => mp_s (snd r) | _ => mp_s A end in
        let Q := set_s (sA * mp_s B) (snd r) in
        ret (Some Q, match al with QisA => Q | _ => A end)
    end in
  let '(Q, A) := q in
  match R with
  | None => ret (Q, None, v)
  | Some R =>
      let! r := mpi_shift_r (vX v) k in
      let v := set_vX (snd r) v in
      let! r := mpi_copy R (vX v) in
      let sA := match al with RisA => mp_s (snd r) | _ => mp_s A end in
      let R := set_s sA (snd r) in
      ret (Q, Some (if mpi_cmp_int R 0 =? 0 then set_s 1 R else R), v)
  end.

(** [cleanup:] *)
Definition div_free (v : dvars) : P unit :=
  let! _ := mpi_free (vX v) in
  let! _ := mpi_free (vY v) in
  let! _ := mpi_free (vZ v) in
  let! _ := mpi_free (vT1 v) in
  let! _ := mpi_free (vT2 v) in
  ret tt.

(** [mpi_div_mpi]: the status, [Q] and [R] *)
Definition mpi_div_mpi (longlong : bool) (fuel : nat) (al : div_alias) (Q R : option mpi) (A B : mpi)
  : P (Z * (option mpi * option mpi)) :=
  if mpi_cmp_int B 0 =? 0 then ret (POLARSSL_ERR_MPI_DIVISION_BY_ZERO, (Q, R)) else
  if mpi_cmp_abs A B <? 0 then
    chk (match Q with None => ret (0, None) | Some Q => let! r := mpi_lset Q 0 in ret (fst r, Some (snd r)) end)
      (fun Q => (Q, R)) (fun Q =>
    let A := match al, Q with QisA, Some Q => Q | _, _ => A end in
    match R with
    | None => ret (0, (Q, None))
    | Some R =>
        match al with
        | RisA => ret (0, (Q, Some R))
        | _ => chk (mpi_copy R A) (fun R => (Q, Some R)) (fun R => ret (0, (Q, Some R)))
        end
    end)
  else
    let v := Dv mpi_init mpi_init mpi_init mpi_init mpi_init in
    let! r :=
      chk (div_setup A B v) (fun v => (Q, R, v)) (fun v =>
      chk (div_normalise v) (fun kv => (Q, R, snd kv)) (fun '(k, v) =>
      chk (div_main longlong fuel v) (fun v => (Q, R, v)) (fun v =>
      let! o := div_out al Q R A B k v in ret (0, o)))) in
    let '(rc, (Q, R, v)) := r in
    div_free v ;;
    ret (rc, (Q, R)).

(** [while( mpi_cmp_int( R, 0 ) < 0 ) MPI_CHK( mpi_add_mpi( R, R, B ) );] *)
Fixpoint mod_up (fuel : nat) (R B : mpi) : P (Z * mpi) :=
  if mpi_cmp_int R 0 <? 0 then
    match fuel with
    | O => oops Hang
    | S fuel => chk (mpi_add_mpi XisA R R B) id (fun R => mod_up fuel R B)
    end
  else ret (0, R).

(** [while( mpi_cmp_mpi( R, B ) >= 0 ) MPI_CHK( mpi_sub_mpi( R, R, B ) );] *)
Fixpoint mod_down (fuel : nat) (R B : mpi) : P (Z * mpi) :=
  if 0 <=? mpi_cmp_mpi R B then
    match fuel with
    | O => oops Hang
    | S fuel => chk (mpi_sub_mpi XisA R R B) id (fun R => mod_down fuel R B)
    end
  else ret (0, R).

(** [mpi_mod_mpi]; [r_is_a]: the result is the object [A]. *)
Definition mpi_mod_mpi (longlong : bool) (fuel : nat) (r_is_a : bool) (R A B : mpi) : P (Z * mpi) :=
  if mpi_cmp_int B 0 <? 0 then ret (POLARSSL_ERR_MPI_NEGATIVE_VALUE, R) else
  chk (mpi_div_mpi longlong fuel (if r_is_a then RisA else Apart) None (Some R) A B)
    (fun r => default R (snd r)) (fun r =>
  chk (mod_up fuel (default R (snd r)) B) id (fun R => mod_down fuel R B)).
End Div.

(** ** The guess is the quotient of the top limbs *)

Lemma half_loop_spec (fuel : nat) d m q r : 0 < d < 2 ^ 63 -> 0 <= m < LB -> d <= r < m + d -> m - r < fuel * d ->
  q < LB -> 0 <= q * d + r - m ->
  exists q' r', half_loop fuel d m q (u64 r) = Some (q', u64 r') /\ m <= r' < m + d /\ q' * d + r' = q * d + r /\ q' <= q.
Proof.
  intros Hd Hm. revert q r. induction fuel as [|fuel IH]; intros q r Hr Hf Hq H0; cbn [half_loop].
  - exists q, r. replace ((d <=? u64 r) && (u64 r <? m)) with false; [split_and!; done || lia|].
    symmetry. apply andb_false_iff. destruct (u64_add r ltac:(unfold LB in *; lia)) as [[? ->]|[? ->]]; [right|left]; lia.
  - destruct (decide (r < m)) as [Hlt|Hge].
    + rewrite (u64_limb r) by (unfold limb_ok; lia). replace ((d <=? r) && (r <? m)) with true by (symmetry; apply andb_true_iff; lia).
      assert (Hq1 : 1 <= q) by (assert (0 < q * d) by lia; clear - Hd H; nia). rewrite (u64_limb (q - 1)) by (unfold limb_ok; lia).
      destruct (IH (q - 1) (r + d)) as (q' & r' & E & H1 & H2 & H3); try lia. exists q', r'. split_and!; done || lia.
    + exists q, r. replace ((d <=? u64 r) && (u64 r <? m)) with false; [split_and!; done || lia|].
      symmetry. apply andb_false_iff. destruct (u64_add r ltac:(unfold LB in *; lia)) as [[? ->]|[? ->]]; [right|left]; lia.
Qed.

(** A divisor for which no product of the halves wraps around *)
Definition no_wrap (d : Z) : Prop := d mod 2 ^ 32 < 2 ^ 32 - 2.

Lemma div_half_spec fuel d r x : (4 <= fuel)%nat -> 2 ^ 62 <= d < 2 ^ 63 -> no_wrap d -> 0 <= r < d -> 0 <= x < 2 ^ 32 ->
  div_half fuel d r x = Some ((r * 2 ^ 32 + x) / d, (r * 2 ^ 32 + x) mod d).
Proof.
  intros Hf Hd Hw Hr Hx. unfold div_half, no_wrap in *.
  rewrite !Z.shiftr_div_pow2, !Z.shiftl_mul_pow2, !u64_LB by lia.
  assert (E0 : (d * 2 ^ 32) mod LB / 2 ^ 32 = d mod 2 ^ 32).
  { change LB with (2 ^ 32 * 2 ^ 32). rewrite Z.mul_mod_distr_r by done. apply Z.div_mul. done. }
  rewrite E0. set (d0 := d mod 2 ^ 32) in *. set (d1 := d / 2 ^ 32).
  pose proof (Z.div_mod d (2 ^ 32) ltac:(done)) as Ed. pose proof (Z.mod_pos_bound d (2 ^ 32) ltac:(done)) as B0. fold d0 d1 in Ed, B0.
  assert (B1 : 2 ^ 30 <= d1 < 2 ^ 31) by lia.
  set (q := r / d1). pose proof (Z.div_mod r d1 ltac:(lia)) as Er. pose proof (Z.mod_pos_bound r d1 ltac:(lia)) as Br. fold q in Er.
  assert (Bq : 0 <= q < 2 ^ 32 + 4) by (split; [apply Z.div_pos; lia|apply Z.div_lt_upper_bound; lia]).
  assert (Bm : 0 <= q * d0 < LB).
  { split; [apply Z.mul_nonneg_nonneg; lia|]. apply Z.le_lt_trans with ((2 ^ 32 + 3) * (2 ^ 32 - 3)); [apply Z.mul_le_mono_nonneg; lia|done]. }
  replace (r - d1 * q) with (r mod d1) by lia. rewrite (Z.mod_small (r mod d1)), (Z.mod_small (q * d0)) by (unfold LB in *; lia).
  rewrite (Z.mod_small (r mod d1 * 2 ^ 32)) by (unfold LB; lia). rewrite (lor_add _ _ 32) by (done || apply Z.mod_mul; done).
  set (r1 := r mod d1 * 2 ^ 32 + x). set (m := q * d0) in *. assert (Bx : 0 <= r1 < d) by (unfold r1; lia).
  assert (EN : r * 2 ^ 32 + x = q * d + r1 - m) by (unfold r1, m; rewrite Ed; rewrite Er at 1; ring).
  clearbody r1 m q. clear E0 Er. rewrite EN. destruct (Z.ltb_spec r1 m) as [Hlt|Hge].
  - assert (H1 : 1 <= q) by (assert (0 <= r * 2 ^ 32 + x) by lia; assert (0 < q * d) by lia; clear - Hd H0; nia). rewrite (Z.mod_small (q - 1)) by (unfold LB; lia).
    destruct (half_loop_spec fuel d m (q - 1) (r1 + d)) as (q' & r' & E & H2 & H3 & H4); try (unfold LB in *; lia).
    change ((r1 + d) mod LB) with (u64 (r1 + d)). rewrite E. cbn [mbind option_bind]. do 2 f_equal.
    + apply (Z.div_unique_pos _ _ _ (r' - m)); lia.
    + rewrite !u64_LB, Zminus_mod_idemp_l, Z.mod_small by (unfold LB; lia). apply (Z.mod_unique_pos _ _ q'); lia.
  - cbn [mbind option_bind]. do 2 f_equal.
    + apply (Z.div_unique_pos _ _ _ (r1 - m)); lia.
    + rewrite u64_LB, Z.mod_small by (unfold LB; lia). apply (Z.mod_unique_pos _ _ q); lia.
Qed.

Lemma udiv_qrnnd_spec fuel x1 x0 d : (4 <= fuel)%nat -> 2 ^ 62 <= d < 2 ^ 63 -> no_wrap d -> 0 <= x1 < d -> limb_ok x0 ->
  udiv_qrnnd fuel x1 x0 d = Some ((x1 * LB + x0) / d).
Proof.
  intros Hf Hd Hw H1 H0. unfold udiv_qrnnd, limb_ok in *. rewrite !Z.shiftr_div_pow2, !Z.shiftl_mul_pow2, u64_LB by lia.
  assert (E0 : (x0 * 2 ^ 32) mod LB / 2 ^ 32 = x0 mod 2 ^ 32).
  { change LB with (2 ^ 32 * 2 ^ 32). rewrite Z.mul_mod_distr_r by done. apply Z.div_mul. done. }
  rewrite E0. pose proof (Z.div_mod x0 (2 ^ 32) ltac:(done)) as Ex. pose proof (Z.mod_pos_bound x0 (2 ^ 32) ltac:(done)) as Bl.
  set (l := x0 mod 2 ^ 32) in *. set (h := x0 / 2 ^ 32) in *. assert (Bh : 0 <= h < 2 ^ 32) by (unfold LB in H0; lia).
  rewrite div_half_spec by done. cbn [mbind option_bind]. set (N := x1 * 2 ^ 32 + h).
  pose proof (Z.div_mod N d ltac:(lia)) as EN. pose proof (Z.mod_pos_bound N d ltac:(lia)) as BN.
  assert (Bq : 0 <= N / d < 2 ^ 32) by (split; [apply Z.div_pos; lia|apply Z.div_lt_upper_bound; lia]).
  rewrite div_half_spec by done. cbn [mbind option_bind]. set (N' := N mod d * 2 ^ 32 + l).
  pose proof (Z.div_mod N' d ltac:(lia)) as EN'. pose proof (Z.mod_pos_bound N' d ltac:(lia)) as BN'.
  assert (Bq' : 0 <= N' / d < 2 ^ 32) by (split; [apply Z.div_pos; lia|apply Z.div_lt_upper_bound; lia]).
  rewrite Z.shiftl_mul_pow2, u64_limb by (unfold limb_ok, LB; lia). f_equal. rewrite (lor_add _ _ 32) by (done || apply Z.mod_mul; done).
  apply (Z.div_unique_pos _ _ _ (N' mod d)); [done|]. unfold N', N, LB in *. nia.
Qed.

Lemma div_wide_spec x1 x0 d : 0 < d < LB -> 0 <= x1 < d -> limb_ok x0 -> div_wide x1 x0 d = (x1 * LB + x0) / d.
Proof.
  intros Hd H1 H0. pose proof LB_pos as HLB. unfold div_wide, limb_ok in *. rewrite Z.shiftl_mul_pow2 by lia. change (2 ^ 64) with LB.
  rewrite (Z.mod_small (x1 * LB)) by (change (2 ^ 128) with (LB * LB); clear - Hd H1 HLB; nia).
  rewrite (lor_add _ _ 64) by (done || apply Z.mod_mul; done).
  assert (B : 0 <= (x1 * LB + x0) / d < LB) by (split; [apply Z.div_pos; lia|apply Z.div_lt_upper_bound; nia]).
  replace (LB - 1 <? _) with false by (symmetry; apply Z.ltb_ge; lia). apply u64_limb. done.
Qed.

(** What the guess has to be *)
Definition guess (x1 x0 d : Z) : Z := if d <=? x1 then LB - 1 else (x1 * LB + x0) / d.

Lemma guess_ok x1 x0 d : 0 < d -> limb_ok x1 -> limb_ok x0 -> limb_ok (guess x1 x0 d).
Proof.
  unfold guess, limb_ok. intros Hd H1 H0. destruct (Z.leb_spec d x1); [unfold LB; lia|].
  split; [apply Z.div_pos; nia|apply Z.div_lt_upper_bound; nia].
Qed.

(** ** The arithmetic of one quotient limb *)

(** The dividend and the divisor, scaled to their top limbs: [U] the top three of one,
    [V] the top two of the other. *)
Record digits (X Y S W U V : Z) : Prop := {
  dg_S : 0 < S;
  dg_W : 0 < W;
  dg_X : U * (S * W) <= X < (U + 1) * (S * W);
  dg_Y : V * S <= Y < (V + 1) * S;
  dg_V : LB <= V;
  dg_U : 0 <= U;
  dg_lt : X < Y * W * LB;
}.

Lemma digit_le X Y S W U V : digits X Y S W U V -> X / (Y * W) <= U / V.
Proof.
  intros [HS HW HX HY HV HU Hlt]. pose proof LB_pos. assert (HY0 : 0 < Y) by nia.
  apply Z.div_le_lower_bound; [lia|]. set (q := X / (Y * W)).
  assert (Hq : Y * W * q <= X) by (apply Z.mul_div_le; nia). assert (0 <= q) by (apply Z.div_pos; nia).
  assert (V * S * W * q <= Y * W * q) by (apply Z.mul_le_mono_nonneg_r; [done|]; apply Z.mul_le_mono_nonneg_r; lia).
  assert (V * q * (S * W) < (U + 1) * (S * W)) by lia. apply Z.lt_succ_r. rewrite <- Z.add_1_r.
  apply Z.mul_lt_mono_pos_r with (S * W); [nia|done].
Qed.

Lemma digit_small X Y S W U V : digits X Y S W U V -> 0 <= X / (Y * W) < LB.
Proof.
  intros [HS HW HX HY HV HU Hlt]. pose proof LB_pos. assert (HY0 : 0 < Y) by nia.
  split; [apply Z.div_pos; nia|apply Z.div_lt_upper_bound; nia].
Qed.

(** A guess [z <= U / V] in range is the digit or one more; one more leaves a positive
    remainder under it. *)
Lemma digit_near X Y S W U V z : digits X Y S W U V -> z * V <= U -> z < LB -> X / (Y * W) <= z ->
  z = X / (Y * W) \/ z = X / (Y * W) + 1 /\ 0 < X mod (Y * W).
Proof.
  intros D Hz HzL Hq. pose proof (digit_small _ _ _ _ _ _ D) as Bq. destruct D as [HS HW HX HY HV HU Hlt].
  pose proof LB_pos. assert (HY0 : 0 < Y) by nia. assert (HYW : 0 < Y * W) by nia. pose proof (Z.div_mod X (Y * W) ltac:(lia)) as E. pose proof (Z.mod_pos_bound X (Y * W) HYW) as Hm.
  set (q := X / (Y * W)) in *. set (r := X mod (Y * W)) in *.
  assert (HSW : 0 < S * W) by nia. assert (HYV : Y * W < (V + 1) * (S * W)) by nia.
  assert (HzX : z * V * (S * W) <= X) by nia.
  destruct (decide (z = q)) as [->|Hne]; [by left|]. right.
  assert (Hr : q * (Y * W) <= q * ((V + 1) * (S * W))) by (apply Z.mul_le_mono_nonneg_l; lia).
  assert (Hlo : (z * V - q * (V + 1)) * (S * W) <= r) by lia.
  assert (Hup : (z * V - q * (V + 1)) * (S * W) < (V + 1) * (S * W)) by lia.
  apply Z.mul_lt_mono_pos_r in Hup; [|done].
  assert (z = q + 1) as -> by (clear - Hup Hne Hq HV Bq H; nia). split; [done|].
  apply Z.lt_le_trans with (((q + 1) * V - q * (V + 1)) * (S * W)); [|done]. apply Z.mul_pos_pos; [|done]. lia.
Qed.

Lemma guess_ge x1 x0 x2 d y : 0 < d < LB -> limb_ok x1 -> limb_ok x0 -> limb_ok x2 -> limb_ok y ->
  Z.min (LB - 1) ((x2 + LB * x0 + LB * LB * x1) / (y + LB * d)) <= guess x1 x0 d.
Proof.
  unfold limb_ok, guess. intros Hd H1 H0 H2 Hy. pose proof LB_pos as HL. destruct (Z.leb_spec d x1) as [H|H]; [lia|].
  etransitivity; [apply Z.le_min_r|]. apply Z.div_le_lower_bound; [lia|]. set (U := x2 + _ + _) in *. set (q := U / _) in *.
  assert (Hq : (y + LB * d) * q <= U) by (apply Z.mul_div_le; lia). assert (0 <= q) by (apply Z.div_pos; unfold U; nia).
  unfold U in *. apply Z.lt_succ_r, Z.mul_lt_mono_pos_l with LB; [done|]. nia.
Qed.

Lemma guess_near x1 x0 x2 d y : 2 ^ 62 <= d < 2 ^ 63 -> limb_ok x1 -> limb_ok x0 -> limb_ok x2 -> limb_ok y ->
  guess x1 x0 d - (x2 + LB * x0 + LB * LB * x1) / (y + LB * d) <= 5.
Proof.
  intros Hd H1 H0 H2 Hy. pose proof (guess_ok x1 x0 d ltac:(lia) H1 H0) as [Hg Hg'].
  assert (HL : LB <= 4 * d) by (unfold LB; lia). pose proof LB_pos as HLp. unfold limb_ok in *.
  enough (guess x1 x0 d - 5 <= (x2 + LB * x0 + LB * LB * x1) / (y + LB * d)) by lia.
  apply Z.div_le_lower_bound; [lia|]. destruct (Z.le_gt_cases (guess x1 x0 d) 5) as [Hs|Hs].
  { apply Z.le_trans with 0; [apply Z.mul_nonneg_nonpos; lia|]. assert (0 <= LB * x0 /\ 0 <= LB * LB * x1) by (split; apply Z.mul_nonneg_nonneg; lia). lia. }
  set (g := guess x1 x0 d) in *. apply Z.le_trans with ((LB * (d + 1)) * (g - 5)); [apply Z.mul_le_mono_nonneg_r; lia|].
  rewrite <- Z.mul_assoc. apply Z.le_trans with (LB * (x0 + LB * x1)); [apply Z.mul_le_mono_nonneg_l; [lia|]|lia].
  assert (E : (d + 1) * (g - 5) = g * d + g - 5 * d - 5) by ring. rewrite E. revert Hg Hg' Hs. unfold g, guess.
  destruct (Z.leb_spec d x1) as [H|H]; intros Hg Hg' Hs.
  - assert (LB * d <= LB * x1) by (apply Z.mul_le_mono_nonneg_l; lia). lia.
  - pose proof (Z.mul_div_le (x1 * LB + x0) d ltac:(lia)). lia.
Qed.

Section DivSpec.
Context {St : Type} {AL : Alloc St} {LA : AllocLaws AL}.

(** ** Steps on the locals *)

Lemma fine_get {C} (R : C -> Prop) p i (k : Z -> M St C) : (i < length p)%nat -> fine R (k (limb p i)) -> fine R (bind (get p i) k).
Proof.
  intros Hi Hk. destruct (lookup_lt_is_Some_2 p i Hi) as [x Hx]. unfold get, limb in *. rewrite Hx in *. exact Hk.
Qed.

Lemma fine_put {C} (R : C -> Prop) set X i x v (k : dvars -> M St C) :
  (i < length (mp_p X))%nat -> fine R (k (set (set_p X (<[i:=x]> (mp_p X))) v)) -> fine R (bind (put_limb set X i x v) k).
Proof.
  intros Hi Hk. unfold put_limb, put. replace (i <? length (mp_p X))%nat with true by (symmetry; apply Nat.ltb_lt; lia). exact Hk.
Qed.

Lemma fine_on {C} (Q : mpi -> Prop) (R : Z * C -> Prop) set v m (leave : dvars -> C) k :
  good Q m -> (forall X, Q X -> fine R (k (set X v))) -> fine R (chk (on set v m) leave k).
Proof.
  intros Hm Hk. apply (fine_chk (fun v' => exists X, Q X /\ v' = set X v)).
  - unfold on. eapply fine_unchecked; [done|]. intros X HX. apply fine_ret. split; [done|]. by exists X.
  - intros v' (X & HX & ->). by apply Hk.
Qed.

(** A limb [k] below [i], or 0 *)
Definition low (p : list Z) (i k : nat) : Z := if (i <? k)%nat then 0 else limb p (i - k).

Lemma fine_low {C} (R : C -> Prop) p i n (k : Z -> M St C) : (i < length p)%nat -> (0 < n)%nat ->
  fine R (k (low p i n)) -> fine R (let! x := (if (i <? n)%nat then ret 0 else get p (i - n)) in k x).
Proof. intros Hi Hn Hk. unfold low in Hk. destruct (i <? n)%nat; [exact Hk|]. apply fine_get; [lia|done]. Qed.

Lemma low_ok p i k : limbs_ok p -> limb_ok (low p i k).
Proof. intros H. unfold low. destruct (i <? k)%nat; [done|]. by apply limb_limb_ok. Qed.

Lemma limb_zero p i : limbs_ok p -> lval p = 0 -> limb p i = 0.
Proof. intros Hp Hv. rewrite limb_value, Hv by done. rewrite Z.div_0_l; [done|]. pose proof (LBn_pos i). lia. Qed.

Lemma sig_limb x : limb_ok x -> (sig [x] <= 1)%nat.
Proof. intros. apply (sig_le [x]). Qed.

Lemma mpi_mul_int_good al X A z : (al = NoAlias \/ al = XisA) -> aliased al X A X -> mp_p A <> [] -> limbs_ok (mp_p A) -> limb_ok z ->
  Z.of_nat (S (sig (mp_p A))) <= POLARSSL_MPI_MAX_LIMBS ->
  good (fun X' => mp_s X' = mp_s A /\ limbs_ok (mp_p X') /\ lval (mp_p X') = lval (mp_p A) * z /\
    (Nat.max 1 (length (mp_p X)) <= length (mp_p X'))%nat) (mpi_mul_int al X A z).
Proof.
  intros Hal Ha HA OA Hz HM. unfold mpi_mul_int. rewrite (u64_limb z) by done. pose proof (sig_limb z Hz) as Hs.
  assert (Oz : limbs_ok [z]) by by apply Forall_singleton.
  eapply good_mono; [|apply mpi_mul_mpi_good; [by destruct Hal as [ -> | -> ]|done|done|done|exact Oz|cbn [mp_p]; lia]].
  intros X' (S' & O' & V' & L'). cbn [mp_s mp_p lval] in *. rewrite Z.mul_0_r, Z.add_0_r in V'. split_and!; try done; lia.
Qed.

(** ** Lowering the guess *)

Definition temps (v : dvars) : Prop := (2 <= length (mp_p (vT1 v)))%nat /\ length (mp_p (vT2 v)) = 3%nat.

(** The top three limbs of [X] at [i], the top two of [Y] at [t] *)
Definition top3 (X : list Z) (i : nat) : Z := low X i 2 + LB * low X i 1 + LB * LB * limb X i.
Definition top2 (Y : list Z) (t : nat) : Z := low Y t 1 + LB * limb Y t.

Lemma lval_set2 p a b : limbs_ok p -> lval p = 0 -> (2 <= length p)%nat -> lval (<[1%nat := b]> (<[0%nat := a]> p)) = a + LB * b.
Proof.
  intros Hp Hv Hl. rewrite !lval_insert, limb_insert_ne, !limb_zero, Hv by (rewrite ?length_insert; done || lia).
  change (LBn 1) with LB. rewrite LBn_0. lia.
Qed.

Lemma lval_set3 p a b c : limbs_ok p -> lval p = 0 -> (3 <= length p)%nat ->
  lval (<[2%nat := c]> (<[1%nat := b]> (<[0%nat := a]> p))) = a + LB * b + LB * LB * c.
Proof.
  intros Hp Hv Hl. rewrite lval_insert, lval_set2, !limb_insert_ne, limb_zero by (rewrite ?length_insert; done || lia).
  change (LBn 2) with (LB * LB). lia.
Qed.

Lemma div_lower_fine (fuel t i j : nat) v g :
  limbs_ok (mp_p (vX v)) -> limbs_ok (mp_p (vY v)) -> (t < length (mp_p (vY v)))%nat -> (i < length (mp_p (vX v)))%nat ->
  (j < length (mp_p (vZ v)))%nat -> temps v -> limb_ok g -> limb (mp_p (vZ v)) j = u64 (g + 1) ->
  0 < top2 (mp_p (vY v)) t -> Z.max 0 (g - top3 (mp_p (vX v)) i / top2 (mp_p (vY v)) t) < fuel ->
  fine (ok0 (fun v' => vX v' = vX v /\ vY v' = vY v /\ temps v' /\
    vZ v' = set_p (vZ v) (<[j := Z.min g (top3 (mp_p (vX v)) i / top2 (mp_p (vY v)) t)]> (mp_p (vZ v))))) (div_lower fuel t i j v).
Proof.
  revert v g. induction fuel as [|fuel IH]; intros v g OX OY Ht Hi Hj HT Hg Hz HV Hf; [lia|]. cbn [div_lower].
  apply fine_get; [done|]. rewrite Hz. replace (u64 (u64 (g + 1) - 1)) with g.
  2: { rewrite !u64_LB, Zminus_mod_idemp_l. replace (g + 1 - 1) with g by lia. symmetry. by apply Z.mod_small. }
  apply fine_put; [done|]. set (v1 := set_vZ _ v). destruct HT as [HT1 HT2].
  eapply fine_on; [by apply mpi_lset_good|]. intros T1 (S1 & O1 & V1 & L1). cbn [vT1 v1 set_vZ] in L1.
  apply (fine_low _ (mp_p (vY v)) t 1); [done|lia|]. apply fine_put; [cbn; lia|]. apply fine_get; [done|]. apply fine_put; [cbn; rewrite length_insert; lia|].
  cbn [v1 set_vZ set_vT1 vT1 vT2 vX vY vZ set_p mp_p mp_s].
  assert (VT : lval (<[1%nat := limb (mp_p (vY v)) t]> (<[0%nat := low (mp_p (vY v)) t 1]> (mp_p T1))) = top2 (mp_p (vY v)) t) by (apply lval_set2; [done|exact V1|lia]).
  set (t1 := <[1%nat := _]> _) in *. assert (Lt1 : length t1 = length (mp_p T1)) by (unfold t1; by rewrite !length_insert).
  assert (Ot1 : limbs_ok t1) by (apply limbs_ok_insert; [apply limbs_ok_insert; [done|by apply low_ok]|by apply limb_limb_ok]).
  assert (Bt : top2 (mp_p (vY v)) t < LBn 2).
  { unfold top2. pose proof (low_ok (mp_p (vY v)) t 1 OY) as [? ?]. pose proof (limb_limb_ok (mp_p (vY v)) t OY) as [? ?]. change (LBn 2) with (LB * LB). nia. }
  pose proof (sig_small t1 2 Ot1 ltac:(lia)) as Hsig. pose proof MAX_LIMBS_Z as HM.
  eapply fine_on; [apply mpi_mul_int_good; [by right|done|apply length_nonnil; cbn [set_p mp_p]; lia|done|done|cbn [set_p mp_p]; lia]|].
  intros T1' (S1' & O1' & V1' & L1'). cbn [set_p mp_s mp_p] in S1', V1', L1'. eapply fine_on; [by apply mpi_lset_good|]. intros T2 (S2 & O2 & V2 & L2).
  cbn [v1 set_vT1 set_vZ vT2] in L2. rewrite HT2 in L2. change (Nat.max 3 1) with 3%nat in L2.
  apply (fine_low _ (mp_p (vX v)) i 2); [done|lia|]. apply fine_put; [cbn; lia|].
  apply (fine_low _ (mp_p (vX v)) i 1); [done|lia|]. apply fine_put; [cbn; rewrite length_insert; lia|].
  apply fine_get; [done|]. apply fine_put; [cbn; rewrite !length_insert; lia|].
  cbn [set_vT1 set_vT2 vT1 vT2 vX vY vZ set_p mp_p mp_s].
  assert (VU : lval (<[2%nat := limb (mp_p (vX v)) i]> (<[1%nat := low (mp_p (vX v)) i 1]> (<[0%nat := low (mp_p (vX v)) i 2]> (mp_p T2)))) = top3 (mp_p (vX v)) i)
    by (apply lval_set3; [done|exact V2|lia]).
  set (t2 := <[2%nat := _]> _) in *. assert (Lt2 : length t2 = 3%nat) by (unfold t2; by rewrite !length_insert).
  assert (Ot2 : limbs_ok t2).
  { apply limbs_ok_insert; [apply limbs_ok_insert; [apply limbs_ok_insert; [done|]|]|]; [by apply low_ok|by apply low_ok|by apply limb_limb_ok]. }
  change (mp_s T1 = 1) in S1. change (mp_s T2 = 1) in S2. rewrite S1 in S1'.
  rewrite mpi_cmp_mpi_pos by done. cbn [set_p mp_p]. rewrite V1', VT, VU.
  set (U := top3 _ _) in *. set (V := top2 _ _) in *.
  pose proof (Z.div_mod U V ltac:(lia)) as ED. pose proof (Z.mod_pos_bound U V HV) as BD. set (q := U / V) in *.
  match goal with |- context [div_lower fuel t i j ?w] => set (v2 := w) end. destruct (Z.ltb_spec 0 (Z.sgn (V * g - U))) as [Hgt|Hle].
  - assert (q < g) by nia. assert (Hq0 : 0 <= U) by (rewrite <- VU; apply lval_bound; done). assert (0 <= q) by (apply Z.div_pos; lia).
    eapply fine_mono; [|apply (IH v2 (g - 1)); cbn [v2 v1 set_vT1 set_vT2 set_vZ vX vY vZ vT1 vT2 set_p mp_p]; [exact OX|exact OY|exact Ht|exact Hi| | | | |exact HV|]].
    + intros [rc v'] [Hrc (HX & HY & HT' & HZ)]. cbn [fst snd] in *. split; [done|]. cbn [snd]. split_and!; [exact HX|exact HY|exact HT'|]. rewrite HZ.
      cbn [v2 v1 set_vT1 set_vT2 set_vZ vZ vX vY set_p mp_p mp_s]. fold U V. fold q. unfold set_p. cbn [mp_s mp_p]. f_equal. rewrite list_insert_insert_eq. f_equal. lia.
    + by rewrite length_insert.
    + unfold temps. cbn [v2 v1 set_vT1 set_vT2 set_vZ vT1 vT2 set_p mp_p]. split; [lia|done].
    + unfold limb_ok in *. lia.
    + rewrite limb_insert by done. replace (g - 1 + 1) with g by lia. symmetry. by apply u64_limb.
    + fold U V. fold q. lia.
  - apply fine_ret. split; [done|]. cbn [snd v2 v1 set_vT1 set_vT2 set_vZ vX vY vZ]. split_and!; [reflexivity|reflexivity| |].
    + unfold temps. cbn [v2 v1 set_vT1 set_vT2 set_vZ vT1 vT2 set_p mp_p]. split; [lia|done].
    + unfold set_p. cbn [mp_p mp_s]. f_equal. f_equal. apply Z.sgn_nonpos in Hle. assert (g <= q) by nia. lia.
Qed.

(** ** The top limbs as quotients *)

Lemma top3_value X i : limbs_ok X -> (0 < i < length X)%nat -> lval X < LBn (S i) ->
  top3 X i = if (i <? 2)%nat then lval X * LB else lval X / LBn (i - 2).
Proof.
  intros OX Hi Hv. pose proof (lval_bound _ OX) as Hb.
  assert (Hz : lval (drop (S i) X) = 0) by (rewrite lval_drop by done; apply Z.div_small; lia).
  assert (H1 : lval (drop (i - 1) X) = limb X (i - 1) + LB * limb X i).
  { rewrite lval_drop_S by lia. replace (S (i - 1)) with i by lia. rewrite (lval_drop_S X i) by lia. rewrite Hz. ring. }
  unfold top3, low. replace (i <? 1)%nat with false by (symmetry; apply Nat.ltb_ge; lia). destruct (Nat.ltb_spec i 2) as [H|H].
  - replace (i - 1)%nat with 0%nat in * by lia. rewrite drop_0 in H1. rewrite H1. ring.
  - rewrite <- lval_drop by done. rewrite lval_drop_S by lia. replace (S (i - 2)) with (i - 1)%nat by lia. rewrite H1. ring.
Qed.

Lemma top2_value Y t : limbs_ok Y -> (t < length Y)%nat -> lval Y < LBn (S t) ->
  top2 Y t = if (t <? 1)%nat then lval Y * LB else lval Y / LBn (t - 1).
Proof.
  intros OY Ht Hv. pose proof (lval_bound _ OY) as Hb.
  assert (Hz : lval (drop (S t) Y) = 0) by (rewrite lval_drop by done; apply Z.div_small; lia).
  assert (H1 : lval (drop t Y) = limb Y t) by (rewrite lval_drop_S, Hz by lia; ring).
  unfold top2, low. destruct (Nat.ltb_spec t 1) as [H|H].
  - replace t with 0%nat in * by lia. rewrite drop_0 in H1. rewrite <- H1. ring.
  - rewrite <- lval_drop by done. rewrite lval_drop_S by lia. replace (S (t - 1)) with t by lia. by rewrite H1.
Qed.

(** A divisor normalised to 63 bits in limb [t] *)
Definition normal (t : nat) (Y : Z) : Prop := 2 ^ 62 * LBn t <= Y < 2 ^ 63 * LBn t.

Lemma normal_top t Y : normal t (lval Y) -> limbs_ok Y -> limb Y t = lval Y / LBn t /\ 2 ^ 62 <= limb Y t < 2 ^ 63.
Proof.
  intros [H1 H2] OY. pose proof (LBn_pos t). rewrite limb_value by done.
  assert (B : 2 ^ 62 <= lval Y / LBn t < 2 ^ 63) by (split; [apply Z.div_le_lower_bound; lia|apply Z.div_lt_upper_bound; lia]).
  rewrite Z.mod_small by (unfold LB; lia). done.
Qed.

Lemma normal_lt t Y : normal t Y -> 0 < Y < LBn (S t).
Proof. intros [H1 H2]. rewrite LBn_S. pose proof (LBn_pos t). unfold LB. lia. Qed.

Lemma floor_bounds a b : 0 < b -> a / b * b <= a < (a / b + 1) * b.
Proof. intros Hb. pose proof (Z.div_mod a b ltac:(lia)). pose proof (Z.mod_pos_bound a b Hb). lia. Qed.

Lemma digits_at X Y t j : limbs_ok X -> limbs_ok Y -> (t < length Y)%nat -> (t + j + 1 < length X)%nat -> normal t (lval Y) ->
  lval X < lval Y * LBn (S j) ->
  exists m s, 0 < m /\ digits (lval X * m) (lval Y * m) s (LBn j) (top3 X (t + j + 1)) (top2 Y t).
Proof.
  intros OX OY Ht Hi HN Hx. set (i := (t + j + 1)%nat) in *. pose proof (normal_lt _ _ HN) as HY. pose proof (LBn_pos j) as Hj. pose proof LB_pos as HL.
  pose proof (lval_bound _ OX) as BX. destruct (normal_top _ _ HN OY) as [_ Hd]. pose proof (low_ok Y t 1 OY) as [Hl _].
  assert (HXi : lval X < LBn (S i)).
  { eapply Z.lt_le_trans; [exact Hx|]. replace (S i) with (S t + S j)%nat by lia. rewrite LBn_add. apply Z.mul_le_mono_nonneg_r; [pose proof (LBn_pos (S j))|]; lia. }
  assert (HV : LB <= top2 Y t) by (unfold top2; nia).
  assert (HU : 0 <= top3 X i).
  { unfold top3. pose proof (low_ok X i 1 OX) as [? _]. pose proof (low_ok X i 2 OX) as [? _]. pose proof (limb_limb_ok X i OX) as [? _].
    assert (0 <= LB * LB * limb X i) by (apply Z.mul_nonneg_nonneg; lia). lia. }
  assert (Hlt : lval X < lval Y * LBn j * LB) by (rewrite LBn_S in Hx; lia).
  pose proof (top3_value X i OX ltac:(lia) HXi) as E3. pose proof (top2_value Y t OY Ht (proj2 HY)) as E2.
  destruct t as [|t].
  - exists LB, 1. split; [done|]. change (top2 Y 0 = lval Y * LB) in E2. split; try done; rewrite ?E2; try lia; [|nia].
    rewrite Z.mul_1_l, E3. destruct (Nat.ltb_spec i 2) as [H|H].
    + replace j with 0%nat by lia. rewrite LBn_0. lia.
    + replace j with (S (i - 2)) by lia. rewrite LBn_S. pose proof (floor_bounds (lval X) (LBn (i - 2)) (LBn_pos _)). nia.
  - exists 1, (LBn t). split; [lia|]. rewrite !Z.mul_1_r. cbn [Nat.ltb Nat.leb Nat.sub] in E2. rewrite Nat.sub_0_r in E2.
    replace (i <? 2)%nat with false in E3 by (symmetry; apply Nat.ltb_ge; lia). replace (i - 2)%nat with (t + j)%nat in E3 by lia. rewrite LBn_add in E3.
    split; try done; [apply LBn_pos|rewrite E3|rewrite E2]; apply floor_bounds; [apply Z.mul_pos_pos|]; auto with mpi.
Qed.

(** The lowered guess is the quotient limb or one more. *)
Lemma div_digit X Y t j : limbs_ok X -> limbs_ok Y -> (t < length Y)%nat -> (t + j + 1 < length X)%nat -> normal t (lval Y) ->
  lval X < lval Y * LBn (S j) ->
  let g := guess (limb X (t + j + 1)) (limb X (t + j)) (limb Y t) in
  let r := top3 X (t + j + 1) / top2 Y t in
  let q := lval X / (lval Y * LBn j) in
  limb_ok g /\ 0 < top2 Y t /\ Z.max 0 (g - r) < 6 /\ limb_ok (Z.min g r) /\
  (Z.min g r = q \/ Z.min g r = q + 1 /\ 0 < lval X mod (lval Y * LBn j)).
Proof.
  intros OX OY Ht Hi HN Hx g r q. destruct (normal_top _ _ HN OY) as [_ Hd].
  assert (HdL : 0 < limb Y t < LB) by (unfold LB; lia).
  pose proof (limb_limb_ok X (t + j + 1) OX) as O1. pose proof (limb_limb_ok X (t + j) OX) as O0.
  pose proof (low_ok X (t + j + 1) 2 OX) as O2. pose proof (low_ok Y t 1 OY) as Oy.
  assert (E1 : low X (t + j + 1) 1 = limb X (t + j)).
  { unfold low. replace (t + j + 1 <? 1)%nat with false by (symmetry; apply Nat.ltb_ge; lia). f_equal. lia. }
  pose proof (guess_ok _ _ (limb Y t) ltac:(lia) O1 O0) as Hg. fold g in Hg.
  assert (HV : 0 < top2 Y t) by (unfold top2; unfold limb_ok in Oy; nia).
  destruct (digits_at X Y t j OX OY Ht Hi HN Hx) as (m & s & Hm & HD).
  assert (Er : r = (low X (t + j + 1) 2 + LB * limb X (t + j) + LB * LB * limb X (t + j + 1)) / (low Y t 1 + LB * limb Y t)) by (unfold r, top3, top2; by rewrite E1).
  pose proof (guess_ge _ _ _ _ _ HdL O1 O0 O2 Oy) as Hge. pose proof (guess_near _ _ _ _ _ Hd O1 O0 O2 Oy) as Hnear. rewrite <- Er in Hge, Hnear. fold g in Hge, Hnear.
  pose proof (digit_le _ _ _ _ _ _ HD) as Hle. pose proof (digit_small _ _ _ _ _ _ HD) as Hsm. fold r in Hle.
  assert (HYW : 0 < lval Y * LBn j) by (apply Z.mul_pos_pos; [by apply (normal_lt t)|auto with mpi]).
  assert (Eq : lval X * m / (lval Y * m * LBn j) = q).
  { replace (lval Y * m * LBn j) with (lval Y * LBn j * m) by ring. apply Z.div_mul_cancel_r; lia. }
  assert (Em : (lval X * m) mod (lval Y * m * LBn j) = lval X mod (lval Y * LBn j) * m).
  { replace (lval Y * m * LBn j) with (lval Y * LBn j * m) by ring. apply Z.mul_mod_distr_r; lia. }
  rewrite Eq in Hle, Hsm. unfold limb_ok in *. split_and!; try done; try lia.
  destruct (digit_near _ _ _ _ _ _ (Z.min g r) HD) as [H|[H H']]; [|lia|rewrite Eq; lia|rewrite Eq in H; by left|].
  - pose proof (Z.mul_div_le (top3 X (t + j + 1)) (top2 Y t) HV). fold r in H. apply Z.le_trans with (r * top2 Y t); [apply Z.mul_le_mono_nonneg_r; lia|lia].
  - right. rewrite Eq in H. rewrite Em in H'. split; [done|]. by apply Z.mul_pos_cancel_r in H'.
Qed.

(** ** Subtracting into the dividend *)

Lemma sub_self_ge X T : mp_s X = 1 -> mp_s T = 1 -> mp_p X <> [] -> mp_p T <> [] -> limbs_ok (mp_p X) -> limbs_ok (mp_p T) ->
  lval (mp_p T) <= lval (mp_p X) -> Z.of_nat (length (mp_p X)) <= POLARSSL_MPI_MAX_LIMBS ->
  good (holds 1 (lval (mp_p X) - lval (mp_p T)) (length (mp_p X))) (mpi_sub_mpi XisA X X T).
Proof.
  intros SX ST NX NT OX OT Hle HM. unfold mpi_sub_mpi. rewrite SX, ST, mpi_cmp_abs_ge by done.
  change (0 <? 1 * 1) with true. cbv iota zeta. replace (_ <=? _) with true by (symmetry; by apply Z.leb_le).
  eapply good_sign; [apply mpi_sub_abs_good; try done; pose proof (sig_le (mp_p X)); lia|]. by intros X' (_ & ? & ? & ?).
Qed.

Lemma sub_self_lt X T : mp_s X = 1 -> mp_s T = 1 -> mp_p X <> [] -> mp_p T <> [] -> limbs_ok (mp_p X) -> limbs_ok (mp_p T) ->
  lval (mp_p X) < lval (mp_p T) -> (sig (mp_p T) <= length (mp_p X))%nat -> Z.of_nat (length (mp_p X)) <= POLARSSL_MPI_MAX_LIMBS ->
  good (holds (-1) (lval (mp_p T) - lval (mp_p X)) (length (mp_p X))) (mpi_sub_mpi XisA X X T).
Proof.
  intros SX ST NX NT OX OT Hlt Hs HM. unfold mpi_sub_mpi. rewrite SX, ST, mpi_cmp_abs_ge by done.
  change (0 <? 1 * 1) with true. cbv iota zeta. replace (_ <=? _) with false by (symmetry; by apply Z.leb_gt).
  eapply good_sign; [apply mpi_sub_abs_good; try done; lia|]. intros X' (_ & O & V & L). split_and!; try done.
  cbn [set_s mp_p]. rewrite L. cbn [swap_alias room]. apply nonnil_length in NX. lia.
Qed.

Lemma add_self_neg X T : mp_s X = -1 -> mp_s T = 1 -> mp_p X <> [] -> mp_p T <> [] -> limbs_ok (mp_p X) -> limbs_ok (mp_p T) ->
  lval (mp_p X) < lval (mp_p T) -> (sig (mp_p T) <= length (mp_p X))%nat -> Z.of_nat (length (mp_p X)) <= POLARSSL_MPI_MAX_LIMBS ->
  good (holds 1 (lval (mp_p T) - lval (mp_p X)) (length (mp_p X))) (mpi_add_mpi XisA X X T).
Proof.
  intros SX ST NX NT OX OT Hlt Hs HM. unfold mpi_add_mpi. rewrite SX, ST, mpi_cmp_abs_ge by done.
  change (-1 * 1 <? 0) with true. cbv iota zeta. replace (_ <=? _) with false by (symmetry; by apply Z.leb_gt).
  eapply good_sign; [apply mpi_sub_abs_good; try done; lia|]. intros X' (_ & O & V & L). split_and!; try done.
  cbn [set_s mp_p]. rewrite L. cbn [swap_alias room]. apply nonnil_length in NX. lia.
Qed.

(** ** One quotient limb *)

(** The locals in the loop: a dividend [x] of [S n] limbs, the divisor [Y], the
    quotient so far. *)
Record dinv (n t nz : nat) (Y x : Z) (v : dvars) : Prop := {
  di_X : holds 1 x (S n) (vX v);
  di_Ys : mp_s (vY v) = 1;
  di_Yo : limbs_ok (mp_p (vY v));
  di_Yv : lval (mp_p (vY v)) = Y;
  di_Yl : (t < length (mp_p (vY v)))%nat;
  di_Zs : mp_s (vZ v) = 1;
  di_Zo : limbs_ok (mp_p (vZ v));
  di_Zl : length (mp_p (vZ v)) = nz;
  di_T : temps v;
}.

(** The guess does not wrap around. *)
Definition safe (longlong : bool) (d : Z) : Prop := longlong = true \/ no_wrap d.

Lemma div_guess_run longlong fuel x1 x0 d : (4 <= fuel)%nat -> 2 ^ 62 <= d < 2 ^ 63 -> safe longlong d -> limb_ok x1 -> limb_ok x0 ->
  div_guess (St:=St) longlong fuel x1 x0 d = ret (guess x1 x0 d).
Proof.
  intros Hf Hd HS [H1 _] H0. unfold div_guess, guess. destruct (Z.leb_spec d x1) as [H|H]; [done|]. destruct longlong.
  - by rewrite div_wide_spec by (done || unfold LB; lia).
  - destruct HS as [?|HS]; [done|]. by rewrite udiv_qrnnd_spec by done.
Qed.

(** The product of the divisor and a limb, moved up by [j] limbs *)
Lemma shifted_good (T : mpi) t j w : limbs_ok (mp_p T) -> mp_p T <> [] -> lval (mp_p T) = w -> w < LBn (S (S t)) ->
  Z.of_nat (S (S (t + j))) <= POLARSSL_MPI_MAX_LIMBS ->
  good (fun T' => mp_s T' = mp_s T /\ limbs_ok (mp_p T') /\ lval (mp_p T') = w * LBn j /\ (length (mp_p T) <= length (mp_p T'))%nat)
    (mpi_shift_l T (64 * j)).
Proof.
  intros OT NT VT Hw HM. pose proof (lval_bound _ OT) as Hb.
  assert (Hz : (zbits (lval (mp_p T)) <= 64 * S (S t))%nat).
  { apply zbits_lt. split; [lia|]. rewrite VT. rewrite LBn_bits in Hw. replace (Z.of_nat (64 * S (S t))) with (64 * Z.of_nat (S (S t))) by lia. done. }
  eapply good_mono; [|apply mpi_shift_l_good; try done].
  - intros T' (? & ? & V & L). split_and!; try done; [|lia]. rewrite V, VT, LBn_bits. do 2 f_equal. lia.
  - apply Z.le_trans with (Z.of_nat (S (S (t + j)))); [|done]. apply inj_le, Nat.lt_succ_r, Nat.Div0.div_lt_upper_bound. lia.
Qed.

Lemma insert_limb_id p j x : (j < length p)%nat -> limb p j = x -> <[j := x]> p = p.
Proof.
  intros Hj Hx. apply list_insert_id. destruct (lookup_lt_is_Some_2 p j Hj) as [y Hy]. unfold limb in Hx. rewrite Hy in *. cbn in Hx. by subst.
Qed.

Lemma div_take_fine n t nz Y x j v :
  dinv n t nz Y x v -> normal t Y -> (t + j + 1 <= n)%nat -> Z.of_nat (S n) <= POLARSSL_MPI_MAX_LIMBS -> (j < nz)%nat ->
  (limb (mp_p (vZ v)) j = x / (Y * LBn j) \/ limb (mp_p (vZ v)) j = x / (Y * LBn j) + 1 /\ 0 < x mod (Y * LBn j)) ->
  fine (ok0 (fun v' => dinv n t nz Y (x mod (Y * LBn j)) v' /\ mp_p (vZ v') = <[j := x / (Y * LBn j)]> (mp_p (vZ v)))) (div_take j v).
Proof.
  intros [(SX & OX & VX & LX) SY OY VY LY SZ OZ LZ [HT1 HT2]] HN Hn HM Hj Hz.
  pose proof (normal_lt _ _ HN) as HY. pose proof (LBn_pos j) as Hpj. assert (HW : 0 < Y * LBn j) by nia.
  pose proof (Z.div_mod x (Y * LBn j) ltac:(lia)) as Ex. pose proof (Z.mod_pos_bound x (Y * LBn j) HW) as Bx.
  pose proof (limb_limb_ok (mp_p (vZ v)) j OZ) as Oz.
  pose proof (lval_bound _ OX) as Hx0. rewrite VX in Hx0. assert (Hq0 : 0 <= x / (Y * LBn j)) by (apply Z.div_pos; lia).
  set (q := x / (Y * LBn j)) in *. set (z := limb (mp_p (vZ v)) j) in *.
  assert (NY : mp_p (vY v) <> []) by (apply length_nonnil; lia). assert (NX : mp_p (vX v) <> []) by (apply length_nonnil; lia).
  assert (sY : (sig (mp_p (vY v)) <= S t)%nat) by (apply sig_small; [done|lia]).
  unfold div_take. apply fine_get; [lia|]. fold z.
  eapply fine_on; [apply mpi_mul_int_good; [by left|done|exact NY|exact OY|exact Oz|lia]|]. intros T1 (S1 & O1 & V1 & L1). cbn [set_vT1 vT1 vX vY].
  assert (HzY : 0 <= Y * z < LBn (S (S t))) by (rewrite (LBn_S (S t)); unfold limb_ok in Oz; nia).
  eapply fine_on; [apply (shifted_good T1 t j (Y * z)); [exact O1|apply length_nonnil; lia|by rewrite V1, VY|lia|lia]|].
  intros T2 (S2 & O2 & V2 & L2). cbn [set_vT1 vT1 vX vY]. rewrite S1, SY in S2. assert (NT2 : mp_p T2 <> []) by (apply length_nonnil; lia).
  assert (sT : (sig (mp_p T2) <= S n)%nat).
  { apply sig_small; [done|]. rewrite V2. apply Z.lt_le_trans with (LBn (S (S t)) * LBn j); [apply Z.mul_lt_mono_pos_r; lia|].
    rewrite <- LBn_add. apply LBn_mono. lia. }
  destruct Hz as [Hz|[Hz Hr]].
  - eapply fine_on; [apply sub_self_ge; try done; [rewrite V2, VX, Hz; lia|lia]|]. intros X' (S' & O' & V' & L'). cbn [set_vX vX].
    rewrite mpi_cmp_int_0, S', Z.mul_1_l by (done || by left). replace (Z.sgn _ <? 0) with false by (symmetry; apply Z.ltb_ge, Z.sgn_nonneg, lval_bound, O').
    apply fine_ret. split; [done|]. cbn [snd set_vX set_vT1 vX vY vZ]. split; [|by rewrite insert_limb_id by (done || lia)].
    split; try done; [|split; cbn [set_vX set_vT1 vT1 vT2]; [lia|done]]. unfold holds. cbn [set_vX set_vT1 vX]. split_and!; try done; [rewrite V', VX, V2, Hz; lia|lia].
  - eapply fine_on; [apply sub_self_lt; try done; [rewrite V2, VX, Hz; lia|lia|lia]|]. intros X' (S' & O' & V' & L'). cbn [set_vX vX].
    rewrite VX, V2, Hz in V'. rewrite mpi_cmp_int_0, S' by (done || by right). replace (Z.sgn _ <? 0) with true by (symmetry; apply Z.ltb_lt; rewrite Z.sgn_neg; lia).
    eapply fine_on; [apply mpi_copy_good; [exact NY|exact OY|cbn [set_vX set_vT1 vY]; lia]|]. intros T3 (S3 & O3 & V3 & L3). cbn [set_vX set_vT1 vT1 vX vY] in *.
    eapply fine_on; [apply (shifted_good T3 t j Y); [exact O3|apply length_nonnil; lia|by rewrite V3|rewrite LBn_S; pose proof (LBn_pos (S t)); unfold LB; lia|lia]|].
    intros T4 (S4 & O4 & V4 & L4). rewrite S3, SY in S4. assert (NT4 : mp_p T4 <> []) by (apply length_nonnil; lia).
    assert (sT4 : (sig (mp_p T4) <= sig (mp_p T2))%nat) by (apply sig_mono; try done; rewrite V4, V2; nia).
    eapply fine_on; [apply add_self_neg; cbn [set_vX set_vT1 vX vT1]; try done; [apply length_nonnil; lia|lia|lia|lia]|].
    intros X2 (SX2 & OX2 & VX2 & LX2). cbn [set_vX set_vT1 vT1 vX vY vZ] in *. apply fine_get; [cbn; lia|]. apply fine_put; [cbn; lia|].
    apply fine_ret. split; [done|]. cbn [snd set_vX set_vT1 set_vZ set_p mp_p mp_s vX vY vZ]. fold z. rewrite Hz.
    replace (q + 1 - 1) with q by lia. rewrite (u64_limb q) by (unfold limb_ok in *; lia).
    split; [|done]. split; cbn [set_vX set_vT1 set_vZ set_p mp_p mp_s vX vY vZ vT1 vT2]; try done.
    + split_and!; try done; [rewrite VX2, V4, V'; lia|lia].
    + apply limbs_ok_insert; [done|]. unfold limb_ok in *. lia.
    + rewrite length_insert. done.
    + split; [cbn; lia|done].
Qed.

Lemma dinv_setZ n t nz Y x v j z : dinv n t nz Y x v -> limb_ok z ->
  dinv n t nz Y x (set_vZ (set_p (vZ v) (<[j := z]> (mp_p (vZ v)))) v).
Proof.
  intros [] Hz. split; cbn [set_vZ vX vY vZ set_p mp_p mp_s]; try done; [by apply limbs_ok_insert|by rewrite length_insert].
Qed.

Lemma div_step_fine longlong fuel n t nz Y x j v :
  (6 <= fuel)%nat -> dinv n t nz Y x v -> normal t Y -> safe longlong (Y / LBn t) -> (t + j + 1 <= n)%nat ->
  Z.of_nat (S n) <= POLARSSL_MPI_MAX_LIMBS -> (j < nz)%nat -> x < Y * LBn (S j) ->
  fine (ok0 (fun v' => dinv n t nz Y (x mod (Y * LBn j)) v' /\ mp_p (vZ v') = <[j := x / (Y * LBn j)]> (mp_p (vZ v))))
    (div_step longlong fuel t j v).
Proof.
  intros Hf HI HN HS Hn HM Hj Hx. pose proof HI as [(SX & OX & VX & LX) SY OY VY LY SZ OZ LZ HT].
  destruct (div_digit (mp_p (vX v)) (mp_p (vY v)) t j) as (Hg & HV & Hnear & Hmin & Hdig); rewrite ?VX, ?VY; try done; [lia|].
  rewrite VX, VY in Hdig. set (g := guess _ _ _) in *. set (r := top3 _ _ / top2 _ _) in *.
  destruct (normal_top t (mp_p (vY v))) as [Ed Hd]; [by rewrite VY|done|]. rewrite VY in Ed.
  unfold div_step. apply fine_get; [lia|]. apply fine_get; [lia|]. apply fine_get; [lia|]. replace (t + j + 1 - 1)%nat with (t + j)%nat by lia.
  rewrite div_guess_run; [|lia|done|by rewrite Ed|by apply limb_limb_ok|by apply limb_limb_ok]. fold g.
  change (bind (ret g) ?k) with (k g). cbv beta. apply fine_put; [lia|]. apply fine_get; [cbn; rewrite length_insert; lia|].
  apply fine_put; [cbn; rewrite length_insert; lia|]. cbn [set_vZ vZ set_p mp_p]. rewrite limb_insert by lia. rewrite list_insert_insert_eq.
  set (v1 := set_vZ _ _). assert (H1 : dinv n t nz Y x v1) by (apply (dinv_setZ n t nz Y x v); [done|apply u64_ok]).
  assert (HZ1 : mp_p (vZ v1) = <[j := u64 (g + 1)]> (mp_p (vZ v))) by done.
  eapply fine_chk.
  { apply (div_lower_fine fuel t (t + j + 1) j v1 g); try apply H1; try done.
    - destruct H1 as [(_ & _ & _ & ->)]. lia.
    - rewrite (di_Zl _ _ _ _ _ _ H1). done.
    - rewrite HZ1, limb_insert by lia. done.
    - change (mp_p (vX v1)) with (mp_p (vX v)). change (mp_p (vY v1)) with (mp_p (vY v)). fold r. lia. }
  intros v2 (EX & EY & T2 & EZ). change (mp_p (vX v1)) with (mp_p (vX v)) in EZ. change (mp_p (vY v1)) with (mp_p (vY v)) in EZ. fold r in EZ.
  assert (HZ2 : mp_p (vZ v2) = <[j := Z.min g r]> (mp_p (vZ v))) by (rewrite EZ; cbn [set_p mp_p]; by rewrite HZ1, list_insert_insert_eq).
  assert (H2 : dinv n t nz Y x v2).
  { split; rewrite ?EX, ?EY, ?EZ; try apply H1; [apply limbs_ok_insert; [apply H1|done]| |done]. cbn [set_p mp_p]. rewrite length_insert. apply H1. }
  eapply fine_mono; [|apply (div_take_fine n t nz Y x j v2); try done].
  - intros [rc v'] [Hrc [H' E']]. cbn [fst snd] in *. split; [done|]. split; [done|]. cbn [snd]. by rewrite E', HZ2, list_insert_insert_eq.
  - rewrite HZ2, limb_insert by lia. done.
Qed.

(** All of them *)
Lemma div_for_fine longlong fuel n t nz Y x c v :
  (6 <= fuel)%nat -> dinv n t nz Y x v -> normal t Y -> safe longlong (Y / LBn t) -> (t + c <= n)%nat ->
  Z.of_nat (S n) <= POLARSSL_MPI_MAX_LIMBS -> (c <= nz)%nat -> x < Y * LBn c -> (forall j, (j < c)%nat -> limb (mp_p (vZ v)) j = 0) ->
  fine (ok0 (fun v' => dinv n t nz Y (x mod Y) v' /\ lval (mp_p (vZ v')) = lval (mp_p (vZ v)) + x / Y)) (div_for longlong fuel t c v).
Proof.
  intros Hf HI HN HS. pose proof (normal_lt _ _ HN) as HY. revert x v HI.
  induction c as [|j IH]; intros x v HI Hn HM Hc Hx Hz; cbn [div_for].
  - assert (Hx0 : 0 <= x) by (destruct (di_X _ _ _ _ _ _ HI) as (_ & O & <- & _); by apply lval_bound). rewrite LBn_0 in Hx.
    apply fine_ret. split; [done|]. cbn [snd]. rewrite Z.mod_small, Z.div_small by lia. split; [done|lia].
  - pose proof (LBn_pos j) as Hp. assert (HW : 0 < Y * LBn j) by nia.
    eapply fine_chk; [apply (div_step_fine longlong fuel n t nz Y x j v); done || lia|]. intros v1 [H1 E1].
    pose proof (Z.mod_pos_bound x (Y * LBn j) HW) as Bm. pose proof (Z.div_mod x (Y * LBn j) ltac:(lia)) as Em.
    set (x1 := x mod (Y * LBn j)) in *. set (q := x / (Y * LBn j)) in *.
    assert (Ex : x = x1 + (LBn j * q) * Y) by lia.
    eapply fine_mono; [|apply (IH x1 v1); try done; try lia].
    + intros [rc v'] [Hrc [H' E']]. split; [done|]. cbn [snd] in *. rewrite Ex, Z.mod_add, Z.div_add by lia. split; [done|].
      rewrite E', E1, lval_insert, (Hz j) by (rewrite ?(di_Zl _ _ _ _ _ _ HI); lia). lia.
    + intros i Hi. rewrite E1, limb_insert_ne by lia. apply Hz. lia.
Qed.

(** ** The top of the quotient *)

Lemma div_top_fine (fuel j : nat) v x Y q : holds 1 x (length (mp_p (vX v))) (vX v) -> mp_p (vX v) <> [] ->
  Z.of_nat (length (mp_p (vX v))) <= POLARSSL_MPI_MAX_LIMBS -> mp_s (vY v) = 1 -> limbs_ok (mp_p (vY v)) -> mp_p (vY v) <> [] -> lval (mp_p (vY v)) = Y ->
  0 < Y -> (j < length (mp_p (vZ v)))%nat -> limb (mp_p (vZ v)) j = q -> 0 <= q -> q + x / Y < LB -> x / Y < fuel ->
  fine (fun v' => holds 1 (x mod Y) (length (mp_p (vX v))) (vX v') /\ vY v' = vY v /\ vT1 v' = vT1 v /\ vT2 v' = vT2 v /\
    vZ v' = set_p (vZ v) (<[j := q + x / Y]> (mp_p (vZ v)))) (div_top fuel j v).
Proof.
  intros HX NX HM SY OY NY VY HY Hj. revert x v q HX NX HM SY OY NY VY Hj.
  induction fuel as [|fuel IH]; intros x v q HX NX HM SY OY NY VY Hj Hq Hq0 HqL Hf; pose proof HX as (SX & OX & VX & _);
    pose proof (lval_bound _ OX) as Bx; rewrite VX in Bx; assert (Hd : 0 <= x / Y) by (apply Z.div_pos; lia); [lia|].
  cbn [div_top]. rewrite mpi_cmp_mpi_pos, VX, VY by done. destruct (Z.leb_spec 0 (Z.sgn (x - Y))) as [H|H].
  - rewrite Z.sgn_nonneg in H. assert (E : x / Y = (x - Y) / Y + 1) by (rewrite <- (Z.div_add _ 1) by lia; f_equal; lia).
    assert (0 <= (x - Y) / Y) by (apply Z.div_pos; lia).
    apply fine_get; [done|]. rewrite Hq. apply fine_put; [done|]. rewrite (u64_limb (q + 1)) by (unfold limb_ok; lia).
    cbn [set_vZ vX vY]. eapply fine_unchecked; [apply sub_self_ge; try done; lia|]. intros X' (S' & O' & V' & L'). cbn [snd].
    eapply fine_mono; [|apply (IH (x - Y) (set_vX X' (set_vZ (set_p (vZ v) (<[j := q + 1]> (mp_p (vZ v)))) v)) (q + 1)); cbn [set_vX set_vZ set_p vX vY vZ mp_p]; try done; try lia].
    + intros v' (H1 & H2 & H3 & H4 & H5). cbn [set_vX set_vZ set_p vX vY vZ vT1 vT2 mp_p mp_s] in *. rewrite L' in H1. split_and!; try done.
      * replace (x mod Y) with ((x - Y) mod Y); [done|]. rewrite <- (Z.mod_add (x - Y) 1 Y) by lia. f_equal. lia.
      * rewrite H5. unfold set_p. cbn [mp_s mp_p]. f_equal. rewrite list_insert_insert_eq. f_equal. lia.
    + split_and!; try done; lia.
    + apply length_nonnil. apply nonnil_length in NX. lia.
    + by rewrite length_insert.
    + by rewrite limb_insert.
  - assert (Hlt : x < Y) by (pose proof (Z.sgn_nonneg (x - Y)); lia). apply fine_ret. rewrite Z.div_small, Z.mod_small, Z.add_0_r by lia.
    split_and!; try done. rewrite insert_limb_id by done. by destruct (vZ v).
Qed.

Lemma div_main_fine longlong fuel n t nz Y x v :
  (6 <= fuel)%nat -> (t <= n)%nat -> (n < t + nz)%nat -> Z.of_nat (S n) <= POLARSSL_MPI_MAX_LIMBS -> normal t Y -> safe longlong (Y / LBn t) ->
  holds 1 x (S n) (vX v) -> holds 1 Y (S t) (vY v) -> holds 1 0 nz (vZ v) -> temps v ->
  fine (ok0 (fun v' => holds 1 (x mod Y) (S n) (vX v') /\ holds 1 (x / Y) nz (vZ v'))) (div_main longlong fuel v).
Proof.
  intros Hf Htn Hnz HM HN HS (SX & OX & VX & LX) (SY & OY & VY & LY) (SZ & OZ & VZ & LZ) HT.
  pose proof (normal_lt _ _ HN) as HY. unfold div_main. rewrite LX, LY. cbn [Nat.sub]. rewrite !Nat.sub_0_r. set (m := (n - t)%nat).
  pose proof (LBn_pos m) as Hpm. pose proof (lval_bound _ OX) as Bx. rewrite VX, LX in Bx.
  assert (Hzb : zbits Y = (64 * t + 63)%nat).
  { replace (64 * t + 63)%nat with (S (64 * t + 62)) by lia. apply zbits_unique. destruct HN as [HN1 HN2]. rewrite LBn_bits in HN1, HN2.
    rewrite <- Z.pow_add_r in HN1, HN2 by lia. replace (Z.of_nat (64 * t + 62)) with (62 + 64 * Z.of_nat t) by lia.
    replace (62 + 64 * Z.of_nat t + 1) with (63 + 64 * Z.of_nat t) by lia. done. }
  assert (Hsz : ((zbits (lval (mp_p (vY v))) + 64 * m + 63) / 64 = S n)%nat).
  { rewrite VY, Hzb. symmetry. apply (Nat.div_unique _ _ _ 62); lia. }
  assert (Epow : 2 ^ (64 * m)%nat = LBn m) by (rewrite LBn_bits; f_equal; lia).
  eapply fine_unchecked; [apply mpi_shift_l_good; [apply length_nonnil; lia|done|rewrite Hsz; lia]|]. intros Y1 (SY1 & OY1 & VY1 & LY1).
  rewrite Hsz in LY1. rewrite VY, Epow in VY1. cbn [snd]. assert (HYm : 0 < Y * LBn m) by nia.
  assert (Hq : 0 <= x / (Y * LBn m) < 4).
  { split; [apply Z.div_pos; lia|]. apply Z.div_lt_upper_bound; [done|]. destruct HN as [HN1 _]. apply Z.lt_le_trans with (LBn (S n)); [lia|].
    replace (S n) with (S (t + m)) by lia. rewrite LBn_S, LBn_add. unfold LB. nia. }
  eapply fine_bind.
  { apply (div_top_fine fuel m (set_vY Y1 v) x (Y * LBn m) 0); cbn [set_vY vX vY vZ]; try done; try lia.
    - apply length_nonnil. lia.
    - apply length_nonnil. lia.
    - by apply limb_zero.
    - unfold LB; lia. }
  intros v1 (HX1 & EY1 & ET1 & ET2 & EZ1). cbn [set_vY vX vY vZ vT1 vT2] in *. rewrite LX in HX1. rewrite EY1. rewrite Z.add_0_l in EZ1.
  eapply fine_unchecked; [apply mpi_shift_r_good; [done|]; rewrite Nat.mul_comm, Nat.div_mul by lia; lia|]. intros Y2 (SY2 & OY2 & VY2 & LY2).
  rewrite VY1, Epow, Z.div_mul in VY2 by lia. cbn [snd].
  pose proof (Z.mod_pos_bound x (Y * LBn m) HYm) as Bm. pose proof (Z.div_mod x (Y * LBn m) ltac:(lia)) as Em.
  set (x1 := x mod (Y * LBn m)) in *. set (q := x / (Y * LBn m)) in *. assert (Ex : x = x1 + (LBn m * q) * Y) by lia.
  eapply fine_mono; [|apply (div_for_fine longlong fuel n t nz Y x1 m (set_vY Y2 v1)); try done; try lia].
  - intros [rc v'] [Hrc [H' E']]. cbn [fst snd set_vY vZ] in *. split; [done|]. cbn [snd]. rewrite Ex, Z.mod_add, Z.div_add by lia. split; [apply H'|].
    split_and!; try apply H'. rewrite E', EZ1. cbn [set_p mp_p]. rewrite lval_insert, VZ, limb_zero by (done || lia). lia.
  - split; cbn [set_vY vX vY vZ]; try done; rewrite ?EZ1; try done; try lia; try congruence.
    + apply limbs_ok_insert; [done|]. unfold limb_ok, LB. lia.
    + cbn [set_p mp_p]. by rewrite length_insert.
    + unfold temps. cbn [set_vY vT1 vT2]. by rewrite ET1, ET2.
  - intros j Hj. cbn [set_vY vZ]. rewrite EZ1. cbn [set_p mp_p]. rewrite limb_insert_ne by lia. by apply limb_zero.
Qed.

(** ** Normalisation *)

Definition norm_shift (b : Z) : nat := (63 - zbits b mod 64)%nat.
Definition norm_top (b : Z) : nat := ((zbits b + norm_shift b) / 64)%nat.

(** The top limb of the normalised divisor *)
Definition top_limb (b : Z) : Z := b * 2 ^ norm_shift b / LBn (norm_top b).

Lemma norm_bits b : (zbits b + norm_shift b = 64 * norm_top b + 63)%nat.
Proof.
  unfold norm_top. set (w := (zbits b + norm_shift b)%nat). assert (Hw : (w mod 64 = 63)%nat).
  { unfold w, norm_shift. pose proof (Nat.div_mod_eq (zbits b) 64) as E. pose proof (Nat.mod_upper_bound (zbits b) 64 ltac:(lia)).
    symmetry. apply (Nat.mod_unique _ _ (zbits b / 64)); lia. }
  pose proof (Nat.div_mod_eq w 64). lia.
Qed.

Lemma norm_normal b : 0 < b -> normal (norm_top b) (b * 2 ^ norm_shift b).
Proof.
  intros Hb. pose proof (zbits_spec b Hb) as [H1 H2]. pose proof (norm_bits b) as E. set (k := norm_shift b) in *. set (t := norm_top b) in *.
  pose proof (Z.pow_pos_nonneg 2 k ltac:(lia) ltac:(lia)) as Hk. unfold normal. rewrite LBn_bits, <- !Z.pow_add_r by lia.
  assert (Hz0 : (0 < zbits b)%nat) by (unfold zbits; destruct (Z.ltb_spec 0 b); lia).
  replace (62 + 64 * Z.of_nat t) with (Z.of_nat (zbits b) - 1 + k) by lia. replace (63 + 64 * Z.of_nat t) with (Z.of_nat (zbits b) + k) by lia.
  rewrite !Z.pow_add_r by lia. split; [apply Z.mul_le_mono_nonneg_r; lia|apply Z.mul_lt_mono_pos_r; lia].
Qed.

Lemma sig_gt p t : limbs_ok p -> LBn t <= lval p -> (t < sig p)%nat.
Proof.
  intros Hp H. destruct (decide (t < sig p)%nat); [done|]. pose proof (lval_bound (take (sig p) p) ltac:(auto with mpi)) as Hb.
  rewrite sig_lval, length_sig in Hb. pose proof (LBn_mono (sig p) t ltac:(lia)). lia.
Qed.

Lemma zbits_mono a b : 0 <= a <= b -> (zbits a <= zbits b)%nat.
Proof.
  intros H. destruct (decide (b = 0)) as [->|]; [by replace a with 0 by lia|]. pose proof (zbits_spec b ltac:(lia)) as [_ Hb].
  apply zbits_lt. lia.
Qed.

Lemma zbits_sig p : limbs_ok p -> (zbits (lval p) <= 64 * sig p)%nat.
Proof.
  intros Hp. apply zbits_lt. pose proof (lval_bound (take (sig p) p) ltac:(auto with mpi)) as Hb. rewrite sig_lval, length_sig, LBn_bits in Hb.
  replace (Z.of_nat (64 * sig p)) with (64 * Z.of_nat (sig p)) by lia. done.
Qed.

Lemma div_normalise_fine v a b n0 :
  holds 1 a (Nat.max 1 (sig (mp_p (vX v)))) (vX v) -> holds 1 b (Nat.max 1 (sig (mp_p (vY v)))) (vY v) -> 0 < b <= a ->
  (sig (mp_p (vX v)) <= n0)%nat -> Z.of_nat (S n0) <= POLARSSL_MPI_MAX_LIMBS ->
  fine (ok0 (fun kv => fst kv = norm_shift b /\ exists n, (norm_top b <= n <= n0)%nat /\
    holds 1 (a * 2 ^ norm_shift b) (S n) (vX (snd kv)) /\ holds 1 (b * 2 ^ norm_shift b) (S (norm_top b)) (vY (snd kv)) /\
    vZ (snd kv) = vZ v /\ vT1 (snd kv) = vT1 v /\ vT2 (snd kv) = vT2 v)) (div_normalise v).
Proof.
  intros (SX & OX & VX & LX) (SY & OY & VY & LY) Hab Hn0 HM. unfold div_normalise.
  eapply (fine_bind (fun m => m = zbits b)).
  { intros s Hs. eapply wp_done; [apply mpi_msb_run; [apply length_nonnil; lia|done]|]. rewrite VY. split; [reflexivity|done]. }
  intros m ->. pose proof (norm_bits b) as E. set (t := norm_top b) in *. pose proof (norm_normal b ltac:(lia)) as HN. fold t in HN.
  pose proof (Nat.mod_upper_bound (zbits b) 64 ltac:(lia)) as Hm. unfold norm_shift in *.
  pose proof (zbits_mono b a ltac:(lia)) as Hz. pose proof (zbits_sig _ OX) as HzX. rewrite VX in HzX. pose proof (zbits_sig _ OY) as HzY. rewrite VY in HzY.
  assert (HsY : (sig (mp_p (vY v)) <= S t)%nat).
  { apply sig_small; [done|]. rewrite VY, LBn_bits. pose proof (zbits_spec b ltac:(lia)) as [_ Hb]. eapply Z.lt_le_trans; [exact Hb|]. apply Z.pow_le_mono_r; lia. }
  destruct (Nat.ltb_spec (zbits b mod 64) 63) as [H|H].
  - set (k := (63 - zbits b mod 64)%nat) in *.
    assert (Ht : ((zbits b + k + 63) / 64 = S t)%nat) by (rewrite E; symmetry; apply (Nat.div_unique _ _ _ 62); lia).
    assert (Hup : ((zbits a + k + 63) / 64 <= S n0)%nat) by (apply Nat.lt_succ_r, Nat.Div0.div_lt_upper_bound; lia).
    assert (Hlo : (S t <= (zbits a + k + 63) / 64)%nat) by (rewrite <- Ht; apply Nat.Div0.div_le_mono; lia).
    eapply fine_on; [apply mpi_shift_l_good; [apply length_nonnil; lia|done|rewrite VX; lia]|]. intros X1 (S1 & O1 & V1 & L1). rewrite VX in *.
    eapply fine_on; [apply mpi_shift_l_good; cbn [set_vX vY]; [apply length_nonnil; lia|done|rewrite VY, Ht; lia]|]. intros Y1 (S2 & O2 & V2 & L2).
    cbn [set_vX vY] in *. rewrite VY, Ht in *. apply fine_ret. split; [done|]. cbn [fst snd set_vX set_vY vX vY vZ vT1 vT2]. split; [done|].
    exists (length (mp_p X1) - 1)%nat. unfold holds. split_and!; try done; try lia; try congruence.
  - replace (63 - zbits b mod 64)%nat with 0%nat in * by lia. apply fine_ret. split; [done|]. cbn [fst snd]. rewrite !Z.mul_1_r in *. split; [done|].
    pose proof (sig_gt (mp_p (vY v)) t OY) as HgY. pose proof (sig_mono _ _ OY OX ltac:(lia)) as HsX.
    assert (LBn t <= b) by (destruct HN; pose proof (LBn_pos t); lia). rewrite VY in HgY.
    exists (length (mp_p (vX v)) - 1)%nat. unfold holds. split_and!; try done; try lia; try congruence.
Qed.

(** ** Division *)

(** A number with a sign; zero is not negative. *)
Definition proper (X : mpi) : Prop :=
  signed X /\ mp_p X <> [] /\ limbs_ok (mp_p X) /\ (lval (mp_p X) = 0 -> mp_s X = 1).

Lemma div_setup_fine A B n : proper A -> proper B -> (length (mp_p A) <= n)%nat -> (sig (mp_p B) <= n)%nat ->
  Z.of_nat (n + 2) <= POLARSSL_MPI_MAX_LIMBS ->
  fine (ok0 (fun v => holds 1 (lval (mp_p A)) (Nat.max 1 (sig (mp_p (vX v)))) (vX v) /\ sig (mp_p (vX v)) = sig (mp_p A) /\
    holds 1 (lval (mp_p B)) (Nat.max 1 (sig (mp_p (vY v)))) (vY v) /\ holds 1 0 (length (mp_p A) + 2) (vZ v) /\ temps v))
    (div_setup A B (Dv mpi_init mpi_init mpi_init mpi_init mpi_init)).
Proof.
  intros (SA & NA & OA & _) (SB & NB & OB & _) Hn HnB HM. pose proof (sig_le (mp_p A)) as Hs. pose proof MAX_LIMBS_Z. unfold div_setup.
  eapply fine_on; [apply mpi_copy_good; triv|]. intros X (_ & OX & VX & LX).
  eapply fine_on; [apply mpi_copy_good; triv|]. intros Y (_ & OY & VY & LY).
  eapply fine_on; [apply mpi_grow_good; lia|]. intros Z1 [_ HZ1]. cbn in HZ1.
  eapply fine_on; [by apply mpi_lset_good|]. intros Z2 HZ2. cbn [set_vX set_vY set_vZ vZ] in HZ2.
  eapply fine_on; [apply mpi_grow_good; lia|]. intros T1 [_ HT1]. cbn in HT1.
  unfold on. eapply fine_unchecked; [apply mpi_grow_good; lia|]. intros T2 [_ HT2]. cbn in HT2. apply fine_ret. split; [done|].
  cbn [set_vX set_vY set_vZ set_vT1 set_vT2 snd vX vY vZ vT1 vT2 set_s mp_p mp_s]. rewrite (sig_eq _ _ OX OA VX), (sig_eq _ _ OY OB VY).
  split_and!; try triv.
  - destruct HZ2 as (? & ? & ? & L). split_and!; try triv. rewrite L, HZ1, length_zeros. lia.
  - unfold temps. cbn [set_vX set_vY set_vZ set_vT1 set_vT2 vT1 vT2]. rewrite HT1, HT2. cbn. lia.
Qed.

(** What is stored at [Q] and at [R], if anything *)
Definition quot_is (z : Z) (Q Q' : option mpi) : Prop :=
  match Q with None => Q' = None | Some _ => exists X, Q' = Some X /\ result z X end.
Definition rem_is (z : Z) (n : nat) (R R' : option mpi) : Prop :=
  match R with
  | None => R' = None
  | Some R => exists X, R' = Some X /\ proper X /\ ival X = z /\ (length (mp_p R) <= length (mp_p X) <= Nat.max (length (mp_p R)) n)%nat
  end.

(** [R] apart from the operands, or the object of a dividend that is not negative *)
Definition div_fits (al : div_alias) (R : option mpi) (A : mpi) : Prop :=
  match al with Apart => True | QisA => False | RisA => R = Some A /\ mp_s A = 1 end.

Lemma quot_signed sa sb a b : (sa = 1 \/ sa = -1) -> (sb = 1 \/ sb = -1) -> 0 <= a -> 0 < b ->
  sa * sb * (a / b) = Z.quot (sa * a) (sb * b) /\ sa * (a mod b) = Z.rem (sa * a) (sb * b).
Proof.
  intros Ha Hb H1 H2. destruct Ha as [-> | ->], Hb as [-> | ->]; rewrite ?Z.mul_1_l, <- ?Z.opp_eq_mul_m1; 
    rewrite ?(Z.mul_comm (-1)), <- ?Z.opp_eq_mul_m1, ?Z.quot_opp_l, ?Z.quot_opp_r, ?Z.rem_opp_l, ?Z.rem_opp_r by lia;
    rewrite ?Z.quot_div_nonneg, ?Z.rem_mod_nonneg by lia; lia.
Qed.

Lemma div_out_fine al Q R A B (k : nat) v n q r :
  div_fits al R A -> signed A -> signed B -> holds 1 q n (vZ v) -> 0 < Z.of_nat n <= POLARSSL_MPI_MAX_LIMBS ->
  holds 1 (r * 2 ^ k) (length (mp_p (vX v))) (vX v) -> Z.of_nat (length (mp_p (vX v))) <= POLARSSL_MPI_MAX_LIMBS ->
  (k < 64)%nat -> mp_p (vX v) <> [] -> 0 <= r < LBn (length (mp_p A)) -> mp_p A <> [] ->
  fine (fun o => quot_is (mp_s A * mp_s B * q) Q (fst (fst o)) /\ rem_is (mp_s A * r) (length (mp_p A)) R (snd (fst o))) (div_out al Q R A B k v).
Proof.
  intros Hal SA SB (SZ & OZ & VZ & LZ) Hn (SX & OX & VX & _) HM Hk NX Hr NA. unfold div_out.
  apply (fine_bind (fun o => quot_is (mp_s A * mp_s B * q) Q (fst o) /\ snd o = A)).
  { destruct Q as [Q|]; [|by apply fine_ret]. eapply fine_unchecked.
    { apply mpi_copy_good; [apply length_nonnil; lia|done|]. pose proof (sig_le (mp_p (vZ v))). lia. }
    intros Q' (SQ & OQ & VQ & LQ). apply fine_ret. cbn [fst snd]. destruct al; [|done|]; (split; [|done]); (exists (set_s (mp_s A * mp_s B) Q'); split; [done|]);
      (unfold result, signed, ival in *; cbn [set_s mp_s mp_p]; split_and!; try triv; try (apply length_nonnil; lia); by rewrite ?VQ, ?VZ). }
  intros [Q' A'] [HQ EA]. cbn [fst snd] in *. subst A'. destruct R as [R|]; [|apply fine_ret; by split].
  pose proof (nonnil_length _ NX) as LX. pose proof (Z.pow_pos_nonneg 2 k ltac:(lia) ltac:(lia)) as Hpk.
  eapply fine_unchecked; [apply mpi_shift_r_good; [done|]; rewrite Nat.div_small by lia; lia|]. intros X1 (S1 & O1 & V1 & L1). cbn [snd set_vX vX].
  rewrite VX, Z.div_mul in V1 by lia.
  eapply fine_unchecked; [apply mpi_copy_good; [apply length_nonnil; lia|done|]; pose proof (sig_le (mp_p X1)); lia|]. intros R' (SR & OR & VR & LR).
  apply fine_ret. cbn [fst snd]. split; [done|]. rewrite V1 in VR. pose proof (sig_small (mp_p X1) (length (mp_p A)) O1 ltac:(lia)) as Hsig.
  set (R2 := set_s _ R'). assert (E2 : mp_s R2 = mp_s A) by (unfold R2; destruct al; [done|done|]; cbn [set_s mp_s]; rewrite SR, S1, SX; destruct Hal as [_ ->]; done).
  assert (EP : mp_p R2 = mp_p R') by done. clearbody R2. unfold signed in *. rewrite mpi_cmp_int_0 by (rewrite ?EP, ?E2; done). rewrite EP, VR, E2.
  apply nonnil_length in NA. eexists. split; [reflexivity|]. destruct (Z.eqb_spec (Z.sgn (mp_s A * r)) 0) as [Hz|Hz].
  - apply Z.sgn_null_iff in Hz. assert (Hr0 : r = 0) by nia. unfold proper, signed, ival. cbn [set_s mp_s mp_p]. rewrite EP, VR. split_and!; try triv; apply length_nonnil; lia.
  - unfold proper, signed, ival. rewrite EP, E2, VR. split_and!; try triv; apply length_nonnil; lia.
Qed.

Lemma div_free_calm v : calm (fun _ => True) (div_free v).
Proof. unfold div_free. do 5 (eapply calm_bind; [apply mpi_free_calm|]; intros _ _). by apply calm_ret. Qed.

Lemma mpi_div_mpi_fine longlong fuel al Q R A B n :
  (6 <= fuel)%nat -> div_fits al R A -> proper A -> proper B -> lval (mp_p B) <> 0 ->
  (length (mp_p A) <= n)%nat -> (sig (mp_p B) <= n)%nat -> Z.of_nat (n + 2) <= POLARSSL_MPI_MAX_LIMBS ->
  safe longlong (top_limb (lval (mp_p B))) ->
  fine (ok0 (fun o => quot_is (Z.quot (ival A) (ival B)) Q (fst o) /\ rem_is (Z.rem (ival A) (ival B)) (length (mp_p A)) R (snd o)))
    (mpi_div_mpi longlong fuel al Q R A B).
Proof.
  intros Hf Hal PA PB HB Hn HnB HM HS. pose proof PA as (SA & NA & OA & ZA). pose proof PB as (SB & NB & OB & ZB).
  pose proof (lval_bound _ OA) as BA. pose proof (lval_bound _ OB) as BB. set (a := lval (mp_p A)) in *. set (b := lval (mp_p B)) in *.
  destruct (quot_signed (mp_s A) (mp_s B) a b SA SB ltac:(lia) ltac:(lia)) as [Eq Er]. unfold ival at 1 2 3 4. fold a b. rewrite <- Eq, <- Er.
  unfold mpi_div_mpi. rewrite mpi_cmp_int_0 by done. fold b. replace (Z.sgn _ =? 0) with false by (symmetry; apply Z.eqb_neq; intros E; apply Z.sgn_null_iff in E; unfold signed in SB; nia).
  rewrite mpi_cmp_abs_spec by done. fold a b. destruct (Z.ltb_spec (Z.sgn (a - b)) 0) as [Hlt|Hge].
  - assert (Hab : a < b) by (destruct (Z.sgn_spec (a - b)) as [[? ?]|[[? ?]|[? ?]]]; lia). rewrite Z.div_small, Z.mod_small, Z.mul_0_r by lia.
    apply (fine_chk (quot_is 0 Q)).
    { destruct Q as [Q|]; [|by apply fine_ret]. eapply fine_unchecked; [by apply mpi_lset_good|]. intros Q' (S' & O' & V' & L'). apply fine_ret. split; [done|].
      exists Q'. unfold result, signed, ival. change (mp_s Q' = 1) in S'. rewrite V', S'. split_and!; try triv; apply length_nonnil; lia. }
    intros Q' HQ. assert (HA' : match al, Q' with QisA, Some Q => Q | _, _ => A end = A) by (by destruct al). rewrite HA'.
    destruct R as [R|]; [|by apply fine_ret]. destruct al; [|done|].
    + eapply fine_chk; [apply good_fine, mpi_copy_good; [done|done|]; pose proof (sig_le (mp_p A)); lia|]. intros R' (S' & O' & V' & L'). apply fine_ret. split; [done|].
      cbn [fst snd]. split; [done|]. exists R'. pose proof (sig_le (mp_p A)). pose proof (nonnil_length _ NA). unfold proper, signed, ival in *. rewrite V', S'. fold a. split_and!; try triv. apply length_nonnil. lia.
    + destruct Hal as [[= ->] HsA]. apply fine_ret. split; [done|]. cbn [fst snd]. split; [done|]. exists A. split_and!; triv.
  - assert (Hab : b <= a) by (pose proof (Z.sgn_nonneg (a - b)); lia).
    apply (fine_bind (ok0 (fun o => quot_is (mp_s A * mp_s B * (a / b)) Q (fst (fst o)) /\ rem_is (mp_s A * (a mod b)) (length (mp_p A)) R (snd (fst o))))).
    2: { intros [rc [[Q' R'] v]] [Hrc [H1 H2]]. cbn [fst snd] in *. subst rc. eapply fine_bind; [apply calm_fine, div_free_calm|]. intros _ _. by apply fine_ret. }
    eapply fine_chk; [apply (div_setup_fine A B n); triv|]. fold a b. intros v (HX & EX & HY & HZ & HT).
    eapply fine_chk; [apply (div_normalise_fine v a b (length (mp_p A))); [done|done|lia|rewrite EX; apply sig_le|lia]|]. intros [k v1] (Ek & n1 & Hn1 & HX1 & HY1 & EZ & ET1 & ET2). cbn [fst snd] in *. subst k.
    pose proof (Z.pow_pos_nonneg 2 (norm_shift b) ltac:(lia) ltac:(lia)) as Hpk.
    eapply fine_chk; [apply (div_main_fine longlong fuel n1 (norm_top b) (length (mp_p A) + 2) (b * 2 ^ norm_shift b) (a * 2 ^ norm_shift b) v1); try triv; [apply norm_normal; lia|by rewrite EZ|by unfold temps; rewrite ET1, ET2]|].
    intros v2 [HX2 HZ2]. rewrite Z.div_mul_cancel_r in HZ2 by lia. rewrite Z.mul_mod_distr_r in HX2 by lia.
    pose proof HX2 as (_ & _ & _ & LX2). pose proof (Z.mod_pos_bound a b ltac:(lia)). pose proof (Z.mod_le a b ltac:(lia) ltac:(lia)).
    eapply fine_bind; [apply (div_out_fine al Q R A B (norm_shift b) v2 (length (mp_p A) + 2) (a / b) (a mod b)); try triv|].
    + by rewrite LX2.
    + unfold norm_shift. lia.
    + apply length_nonnil. lia.
    + intros o Ho. by apply fine_ret.
Qed.

(** ** Reduction *)

Lemma result_nonneg z X : result z X -> 0 < z -> mp_s X = 1 /\ lval (mp_p X) = z.
Proof.
  intros (SX & _ & OX & VX) Hz. pose proof (lval_bound _ OX). unfold signed, ival in *. destruct SX as [E|E]; rewrite E in *; split; lia.
Qed.

Lemma mpi_cmp_mpi_lt X Y : limbs_ok (mp_p X) -> limbs_ok (mp_p Y) -> mp_s X = 1 -> mp_s Y = 1 ->
  (0 <=? mpi_cmp_mpi X Y) = (lval (mp_p Y) <=? lval (mp_p X)).
Proof. intros. rewrite mpi_cmp_mpi_pos by done. apply eq_true_iff_eq. rewrite !Z.leb_le, Z.sgn_nonneg. lia. Qed.

(** A result of [mpi_mod_mpi]: not negative, with no fewer limbs than the object had where
    the operand was not negative *)
Definition residue (r : Z) (A R R' : mpi) : Prop :=
  mp_s R' = 1 /\ mp_p R' <> [] /\ limbs_ok (mp_p R') /\ lval (mp_p R') = r /\
  (mp_s A = 1 -> (length (mp_p R) <= length (mp_p R') <= Nat.max (length (mp_p R)) (length (mp_p A)))%nat).

Lemma mpi_mod_mpi_fine longlong fuel (r_is_a : bool) R A B n :
  (6 <= fuel)%nat -> (r_is_a = true -> R = A /\ mp_s A = 1) -> proper A -> mp_s B = 1 -> limbs_ok (mp_p B) -> 0 < lval (mp_p B) ->
  (length (mp_p A) <= n)%nat -> (length (mp_p R) <= n)%nat -> (length (mp_p B) <= n)%nat -> Z.of_nat (n + 2) <= POLARSSL_MPI_MAX_LIMBS ->
  safe longlong (top_limb (lval (mp_p B))) ->
  fine (ok0 (residue (ival A mod lval (mp_p B)) A R)) (mpi_mod_mpi longlong fuel r_is_a R A B).
Proof.
  intros Hf Hal PA SB OB HB HnA HnR HnB HM HS. unfold mpi_mod_mpi. set (b := lval (mp_p B)) in *. pose proof PA as (SA & NA & OA & ZA).
  assert (NB : mp_p B <> []) by (intros E; unfold b in HB; by rewrite E in HB). pose proof (sig_le (mp_p B)) as HsB.
  rewrite mpi_cmp_int_0, SB, Z.mul_1_l by (done || by left). fold b. replace (Z.sgn b <? 0) with false by (symmetry; apply Z.ltb_ge, Z.sgn_nonneg; lia).
  eapply fine_chk.
  { apply (mpi_div_mpi_fine longlong fuel _ None (Some R) A B n); try triv; [|split_and!; try triv; by left].
    destruct r_is_a; [|done]. destruct (Hal eq_refl) as [-> ?]. done. }
  intros [Q' R'] [_ (X & -> & PX & VX & LX)]. cbn [fst snd]. change (default R (Some X)) with X. unfold ival at 3 in VX. rewrite SB, Z.mul_1_l in VX. fold b in VX.
  pose proof PX as (SX & NX & OX & ZX). pose proof (Z.rem_bound_abs (ival A) b ltac:(lia)) as Hrem.
  assert (Hmod : ival A mod b = if Z.rem (ival A) b <? 0 then Z.rem (ival A) b + b else Z.rem (ival A) b).
  { pose proof (Z.quot_rem (ival A) b ltac:(lia)) as E. destruct (Z.ltb_spec (Z.rem (ival A) b) 0); symmetry.
    - apply (Z.mod_unique_pos _ _ (Z.quot (ival A) b - 1)); lia.
    - apply (Z.mod_unique_pos _ _ (Z.quot (ival A) b)); lia. }
  assert (Hsg : mp_s A = 1 -> 0 <= ival X).
  { intros E. rewrite VX. apply Z.rem_nonneg; [lia|]. unfold ival. rewrite E. pose proof (lval_bound _ OA). lia. }
  rewrite Hmod. rewrite <- VX in *. clear Hmod VX.
  apply (fine_chk (residue (if ival X <? 0 then ival X + b else ival X) A R)).
  - assert (Hup : mod_up fuel X B = if ival X <? 0 then chk (mpi_add_mpi XisA X X B) id (fun R => mod_up (pred fuel) R B) else ret (0, X)).
    { destruct fuel as [|fuel]; [lia|]. cbn [mod_up pred]. rewrite mpi_cmp_int_0 by done. fold (ival X).
      destruct (Z.ltb_spec (ival X) 0); [replace (Z.sgn _ <? 0) with true by (symmetry; apply Z.ltb_lt, Z.sgn_neg_iff; lia); done|].
      by replace (Z.sgn _ <? 0) with false by (symmetry; apply Z.ltb_ge, Z.sgn_nonneg; lia). }
    rewrite Hup. destruct (Z.ltb_spec (ival X) 0) as [Hneg|Hpos].
    + assert (SX1 : mp_s X = -1) by (destruct SX as [E|]; [unfold ival in Hneg; rewrite E in Hneg; pose proof (lval_bound _ OX); lia|done]).
      eapply fine_chk; [apply good_fine, (mpi_add_mpi_good XisA X X B n); try triv; [split_and!; try triv; pose proof (sig_le (mp_p X)); lia|split_and!; try triv; by left]|].
      intros X2 H2. assert (Hz : ival X + ival B = ival X + b) by (unfold ival at 2; by rewrite SB, Z.mul_1_l). rewrite Hz in H2.
      destruct (result_nonneg _ _ H2 ltac:(lia)) as [S2 V2]. destruct H2 as (_ & N2 & O2 & _).
      assert (Hup2 : mod_up (pred fuel) X2 B = ret (0, X2)).
      { destruct (pred fuel); cbn [mod_up]; rewrite mpi_cmp_int_0, S2, V2 by (done || by left); by replace (Z.sgn _ <? 0) with false by (symmetry; apply Z.ltb_ge, Z.sgn_nonneg; lia). }
      rewrite Hup2. apply fine_ret. split; [done|]. cbn [snd]. split_and!; try triv.
    + apply fine_ret. split; [done|]. cbn [snd]. assert (SX1 : mp_s X = 1).
      { destruct SX as [|E]; [done|]. unfold ival in Hpos. rewrite E in Hpos. apply ZX. pose proof (lval_bound _ OX). lia. }
      split_and!; try triv. unfold ival. rewrite SX1. lia.
  - set (r := if ival X <? 0 then _ else _). assert (Hr : 0 <= r < b) by (unfold r; destruct (Z.ltb_spec (ival X) 0); lia).
    intros X2 H2. pose proof H2 as (S2 & N2 & O2 & V2 & _).
    assert (Hdown : mod_down fuel X2 B = ret (0, X2)).
    { destruct fuel; cbn [mod_down]; rewrite mpi_cmp_mpi_lt, V2 by done; fold b; by replace (b <=? r) with false by (symmetry; apply Z.leb_gt; lia). }
    rewrite Hdown. by apply fine_ret.
Qed.

(** A remainder that is far too large: the loop of [mpi_mod_mpi] outlasts any budget below
    the quotient that is missing. *)
Lemma mod_down_hangs (fuel : nat) R B s : al_ok s -> mp_s R = 1 -> mp_s B = 1 -> mp_p R <> [] -> mp_p B <> [] -> limbs_ok (mp_p R) -> limbs_ok (mp_p B) ->
  0 < lval (mp_p B) -> Z.of_nat (length (mp_p R)) <= POLARSSL_MPI_MAX_LIMBS -> (fuel + 1) * lval (mp_p B) <= lval (mp_p R) ->
  mod_down fuel R B s = Oops Hang.
Proof.
  intros Hs SR SB NR NB OR OB HB. revert R s Hs SR NR OR. induction fuel as [|fuel IH]; intros R s Hs SR NR OR HM Hle; cbn [mod_down];
    rewrite mpi_cmp_mpi_lt by done; replace (_ <=? _) with true by (symmetry; apply Z.leb_le; nia); [done|].
  pose proof (good_fine _ _ (sub_self_ge R B SR SB NR NB OR OB ltac:(nia) HM) s Hs) as W.
  apply wp_elim in W as ([rc X] & s' & E & _ & Hs' & Hrc & SX & OX & VX & LX). cbn [fst snd] in *. subst rc.
  unfold chk. rewrite (bind_done _ _ _ _ _ E). cbn [fst snd]. change (truthy 0) with false. cbv iota. apply IH; try done.
  - apply length_nonnil. rewrite LX. by apply nonnil_length.
  - by rewrite LX.
  - rewrite VX. lia.
Qed.
End DivSpec.

(** The kernel's guess for this divisor and dividend wraps around. *)
Definition wrap_B : mpi := Mpi 1 [2 ^ 62 + 2 ^ 32 - 1].
Definition wrap_A : mpi := Mpi 1 [0; 2 ^ 62 + 2 ^ 31].

(** ** Claims *)

(** C28: [mpi_div_mpi] divides: with memory to spare it returns 0, [Q] gets the quotient
    and [R] the remainder of the division that rounds towards zero, whichever of the two
    are asked for, and [R] may be the object of the dividend.  No loop runs more than six
    times.  This holds of the build with 128-bit division, and of the one without unless
    the low half of the divisor's normalised top limb is one of the last two values. *)
Theorem mpi_div_correct {St} {AL : Alloc St} {LA : AllocLaws AL} longlong fuel al Q R A B n :
  (6 <= fuel)%nat -> div_fits al R A -> proper A -> proper B -> lval (mp_p B) <> 0 ->
  (length (mp_p A) <= n)%nat -> (sig (mp_p B) <= n)%nat -> Z.of_nat (n + 2) <= POLARSSL_MPI_MAX_LIMBS ->
  safe longlong (top_limb (lval (mp_p B))) ->
  fine (ok0 (fun o => quot_is (Z.quot (ival A) (ival B)) Q (fst o) /\ rem_is (Z.rem (ival A) (ival B)) (length (mp_p A)) R (snd o)))
    (mpi_div_mpi longlong fuel al Q R A B).
Proof. apply mpi_div_mpi_fine. Qed.

Definition wit_A : mpi := Mpi (-1) [1; 2; 1].
Definition wit_B : mpi := Mpi 1 [6; 1].

Lemma wit_ab : proper wit_A /\ proper wit_B /\ safe false (top_limb (lval (mp_p wit_B))).
Proof. repeat split; try (by left); try (by right); try (by repeat constructor); try by vm_compute. Qed.

Lemma mpi_div_correct_witness :
  fine (ok0 (fun o => quot_is (Z.quot (ival wit_A) (ival wit_B)) (Some mpi_init) (fst o) /\
                      rem_is (Z.rem (ival wit_A) (ival wit_B)) 3 (Some mpi_init) (snd o)))
    (mpi_div_mpi false 6 Apart (Some mpi_init) (Some mpi_init) wit_A wit_B).
Proof.
  destruct wit_ab as (HA & HB & HS).
  apply (mpi_div_correct false 6 Apart (Some mpi_init) (Some mpi_init) wit_A wit_B 3 (le_n 6) I HA HB); [by vm_compute|apply le_n|by vm_compute; lia|by vm_compute|exact HS].
Defined.

(** The remainder the kernel's build leaves *)
Definition wrap_R : mpi := Mpi 1 [25769803772; 4611686018427387903].

Lemma wrap_div fuel : mpi_div_mpi false (6 + fuel) Apart None (Some mpi_init) wrap_A wrap_B tt = Done (0, (None, Some wrap_R), tt).
Proof. by vm_compute. Qed.

(** C40: In the kernel's build [mpi_mod_mpi] does not reduce every number in reasonable
    time: for this modulus of one limb and this number of two, any budget of fewer than
    2^62 passes of its last loop is used up. *)
Theorem kernel_mod_runs_away (fuel : nat) : Z.of_nat fuel < 2 ^ 62 ->
  mpi_mod_mpi false (6 + fuel) false mpi_init wrap_A wrap_B tt = Oops Hang.
Proof.
  intros Hf. unfold mpi_mod_mpi. change (mpi_cmp_int wrap_B 0 <? 0) with false. cbv iota.
  unfold chk. rewrite (bind_done _ _ _ _ _ (wrap_div fuel)). cbn [fst snd]. change (truthy 0) with false. cbv iota.
  change (default mpi_init (Some wrap_R)) with wrap_R.
  assert (Hup : mod_up (6 + fuel) wrap_R wrap_B tt = Done (0, wrap_R, tt)) by by vm_compute.
  rewrite (bind_done _ _ _ _ _ Hup). cbn [fst snd]. change (truthy 0) with false. cbv iota.
  apply mod_down_hangs; try done; [by repeat constructor|by repeat constructor|].
  change (lval (mp_p wrap_B)) with (2 ^ 62 + 2 ^ 32 - 1). change (lval (mp_p wrap_R)) with (25769803772 + 2 ^ 64 * (4611686018427387903 + 2 ^ 64 * 0)). lia.
Qed.

Lemma kernel_mod_runs_away_witness : mpi_mod_mpi false (6 + 1000) false mpi_init wrap_A wrap_B tt = Oops Hang.
Proof. apply (kernel_mod_runs_away 1000). by vm_compute. Defined.
