(* ===== verification/MpiExp.v ===== *)
(** * Modular exponentiation

    [mpi_exp_mod] of PolarSSL's bignum.c: Montgomery multiplication (HAC 14.36) and a
    sliding window over the exponent's bits (HAC 14.85), as the Diffie-Hellman code calls
    it.  With memory to spare the result is the power modulo [N]; the window table, the
    three-state loop and the reductions are proved against it. *)

From S2P Require Import Prelude Mpi MpiOps MpiDiv.

(** ** Montgomery multiplication *)

(** [x *= ( 2 - ( m0 * x ) )] *)
Definition montg_step (m0 x : Z) : Z := u64 (x * u64 (2 - u64 (m0 * x))).

(** [mpi_montg_init] for the low limb of the modulus *)
Definition mpi_montg_init (m0 : Z) : Z :=
  let x := u64 (m0 + u64 (Z.shiftl (Z.land (u64 (m0 + 2)) 4) 1)) in
  let x := montg_step m0 x in
  let x := montg_step m0 x in
  let x := montg_step m0 x in
  let x := montg_step m0 x in
  u64 (u64 (Z.lnot x) + 1).

(** The loop of [mpi_montmul] over the limbs [a] of one factor.  [t] has the limbs of the
    accumulator [d] has moved past, in reverse. *)
Fixpoint montmul_loop (a B N : list Z) (mm : Z) (t d : list Z) : option (list Z * list Z) :=
  match a with
  | [] => Some (t, d)
  | u0 :: a =>
      let n := length N in
      b0 ← B !! 0%nat;
      d0 ← d !! 0%nat;
      let u1 := u64 (u64 (d0 + u64 (u0 * b0)) * mm) in
      d ← mpi_mul_hlp (take n B) d u0;
      d ← mpi_mul_hlp N d u1;
      match d with
      | [] => None
      | _ :: d => if (n + 1 <? length d)%nat then montmul_loop a B N mm (u0 :: t) (<[(n + 1)%nat := 0]> d) else None
      end
  end.

(** [mpi_montmul]: the product and the accumulator; no result where an access leaves the
    limbs *)
Definition mpi_montmul (A B N : mpi) (mm : Z) (T : mpi) : option (mpi * mpi) :=
  let n := length (mp_p N) in
  if (length (mp_p A) <? n + 1)%nat then None else
  '(t, d) ← montmul_loop (take n (mp_p A)) (mp_p B) (mp_p N) mm [] (zeros (length (mp_p T)));
  if (length d <? n + 1)%nat then None else
  let T := set_p T (reverse t ++ d) in
  let A := set_p A (take (n + 1) d ++ drop (n + 1) (mp_p A)) in
  if 0 <=? mpi_cmp_abs A N then
    p ← mpi_sub_hlp (mp_p N) (mp_p A); Some (set_p A p, T)
  else
    p ← mpi_sub_hlp (take n (mp_p A)) (mp_p T); Some (A, set_p T p).

(** [mpi_montred] *)
Definition mpi_montred (A N : mpi) (mm : Z) (T : mpi) : option (mpi * mpi) := mpi_montmul A (Mpi 1 [1]) N mm T.

Definition POLARSSL_MPI_WINDOW_SIZE : nat := 6.

(** The window size for an exponent of [i] bits *)
Definition window_size (i : nat) : nat :=
  let wsize := (if 671 <? i then 6 else if 239 <? i then 5 else if 79 <? i then 4 else if 23 <? i then 3 else 1)%nat in
  if (POLARSSL_MPI_WINDOW_SIZE <? wsize)%nat then POLARSSL_MPI_WINDOW_SIZE else wsize.

Section Exp.
Context {St : Type} {AL : Alloc St}.
Abbreviation P := (M St).

(** The locals of [mpi_exp_mod] and the result [X]; [ev_W] is the table [W]. *)
Record evars := Ev { ev_X : mpi; ev_RR : mpi; ev_T : mpi; ev_W : list mpi }.

Definition set_eX X v := Ev X (ev_RR v) (ev_T v) (ev_W v).
Definition set_eRR R v := Ev (ev_X v) R (ev_T v) (ev_W v).
Definition set_eT T v := Ev (ev_X v) (ev_RR v) T (ev_W v).
Definition set_eW (i : nat) (W : mpi) v := Ev (ev_X v) (ev_RR v) (ev_T v) (<[i := W]> (ev_W v)).

Definition W_at (v : evars) (i : nat) : mpi := default mpi_zeroed (ev_W v !! i).

Definition on_e (set : mpi -> evars -> evars) (v : evars) (m : P (Z * mpi)) : P (Z * evars) :=
  let! r := m in ret (fst r, set (snd r) v).

Section Mod.
Variables (N : mpi) (mm : Z).

(** [mpi_montmul( A, B, N, mm, &T )] *)
Definition montmul (set : mpi -> evars -> evars) (A B : mpi) (v : evars) : P evars :=
  let! r := in_bounds (mpi_montmul A B N mm (ev_T v)) in
  ret (set_eT (snd r) (set (fst r) v)).

Definition square_X (v : evars) : P evars := montmul set_eX (ev_X v) (ev_X v) v.

(** [for( i = 0; i < k; i++ ) mpi_montmul( &W[j], &W[j], ... )] and the same on [X] *)
Fixpoint square_W (j k : nat) (v : evars) : P evars :=
  match k with
  | O => ret v
  | S k => let! v := montmul (set_eW j) (W_at v j) (W_at v j) v in square_W j k v
  end.
Fixpoint squares_X (k : nat) (v : evars) : P evars :=
  match k with
  | O => ret v
  | S k => let! v := square_X v in squares_X k v
  end.

(** [for( i = j + 1; i < (one << wsize); i++ )], [k] entries from [i] *)
Fixpoint fill_W (i k : nat) (v : evars) : P (Z * evars) :=
  match k with
  | O => ret (0, v)
  | S k =>
      chk (on_e (set_eW i) v (mpi_grow (W_at v i) (length (mp_p N) + 1))) id (fun v =>
      chk (on_e (set_eW i) v (mpi_copy (W_at v i) (W_at v (i - 1)))) id (fun v =>
      let! v := montmul (set_eW i) (W_at v i) (W_at v 1) v in
      fill_W (S i) k v))
  end.

(** The table of the window *)
Definition exp_table (wsize : nat) (v : evars) : P (Z * evars) :=
  if (1 <? wsize)%nat then
    let j := (2 ^ (wsize - 1))%nat in
    chk (on_e (set_eW j) v (mpi_grow (W_at v j) (length (mp_p N) + 1))) id (fun v =>
    chk (on_e (set_eW j) v (mpi_copy (W_at v j) (W_at v 1))) id (fun v =>
    let! v := square_W j (wsize - 1) v in
    fill_W (j + 1) (2 ^ wsize - (j + 1)) v))
  else ret (0, v).

(** [state], [nbits] and [wbits] of the loop *)
Record window := Win { wi_state : Z; wi_nbits : nat; wi_wbits : Z }.

(** The exponent's bits from the top; bit [c] of [e] is next. *)
Fixpoint exp_loop (wsize : nat) (e : list Z) (c : nat) (w : window) (v : evars) : P (window * evars) :=
  match c with
  | O => ret (w, v)
  | S c =>
      let ei := Z.land (Z.shiftr (limb e (c / 64)) ((c mod 64)%nat)) 1 in
      if (ei =? 0) && (wi_state w =? 0) then exp_loop wsize e c w v else
      if (ei =? 0) && (wi_state w =? 1) then
        let! v := square_X v in
        exp_loop wsize e c w v
      else
        let nbits := S (wi_nbits w) in
        let wbits := Z.lor (wi_wbits w) (u64 (Z.shiftl ei (wsize - nbits)%nat)) in
        if (nbits =? wsize)%nat then
          let! v := squares_X wsize v in
          let! v := montmul set_eX (ev_X v) (W_at v (Z.to_nat wbits)) v in
          exp_loop wsize e c (Win 1 0 0) v
        else exp_loop wsize e c (Win 2 nbits wbits) v
  end.

(** [for( i = 0; i < nbits; i++ )] *)
Fixpoint exp_rest (wsize : nat) (k : nat) (wbits : Z) (v : evars) : P evars :=
  match k with
  | O => ret v
  | S k =>
      let! v := square_X v in
      let wbits := u64 (Z.shiftl wbits 1) in
      if truthy (Z.land wbits (Z.shiftl 1 wsize)) then
        let! v := montmul set_eX (ev_X v) (W_at v 1) v in
        exp_rest wsize k wbits v
      else exp_rest wsize k wbits v
  end.
End Mod.

(** [R^2 mod N], computed or taken from [_RR]: the locals and [*_RR] *)
Definition exp_RR (longlong : bool) (fuel : nat) (N : mpi) (RP : option mpi) (v : evars) : P (Z * (option mpi * evars)) :=
  match RP with
  | Some (Mpi _ (_ :: _)) => ret (0, (RP, set_eRR (default mpi_init RP) v))
  | _ =>
      chk (on_e set_eRR v (mpi_lset (ev_RR v) 1)) (pair RP) (fun v =>
      chk (on_e set_eRR v (mpi_shift_l (ev_RR v) (length (mp_p N) * 2 * 64))) (pair RP) (fun v =>
      chk (on_e set_eRR v (mpi_mod_mpi longlong fuel true (ev_RR v) (ev_RR v) N)) (pair RP) (fun v =>
      ret (0, (match RP with None => None | Some _ => Some (ev_RR v) end, v)))))
  end.

(** [W[1]] and [X] before the table; the first is not checked. *)
Definition exp_start (longlong : bool) (fuel : nat) (A N : mpi) (mm : Z) (v : evars) : P (Z * evars) :=
  let! r :=
    if 0 <=? mpi_cmp_mpi A N then mpi_mod_mpi longlong fuel false (W_at v 1) A N
    else mpi_copy (W_at v 1) A in
  let v := set_eW 1 (snd r) v in
  let! v := montmul N mm (set_eW 1) (W_at v 1) (ev_RR v) v in
  chk (on_e set_eX v (mpi_copy (ev_X v) (ev_RR v))) id (fun v =>
  let! v := montmul N mm set_eX (ev_X v) (Mpi 1 [1]) v in
  ret (0, v)).

(** From the table to the result *)
Definition exp_run (N : mpi) (mm : Z) (wsize : nat) (E : mpi) (v : evars) : P (Z * evars) :=
  chk (exp_table N mm wsize v) id (fun v =>
  let! wv := exp_loop N mm wsize (mp_p E) (length (mp_p E) * 64) (Win 0 0 0) v in
  let! v := exp_rest N mm wsize (wi_nbits (fst wv)) (wi_wbits (fst wv)) (snd wv) in
  let! v := montmul N mm set_eX (ev_X v) (Mpi 1 [1]) v in
  ret (0, v)).

(** [cleanup:] *)
Fixpoint free_W (i k : nat) (v : evars) : P evars :=
  match k with
  | O => ret v
  | S k => let! W := mpi_free (W_at v i) in free_W (S i) k (set_eW i W v)
  end.
Definition exp_free (wsize : nat) (no_RR : bool) (v : evars) : P unit :=
  let! v := free_W (2 ^ (wsize - 1)) (2 ^ wsize - 2 ^ (wsize - 1)) v in
  let! _ := mpi_free (W_at v 1) in
  let! _ := mpi_free (ev_T v) in
  if no_RR then let! _ := mpi_free (ev_RR v) in ret tt else ret tt.

(** [mpi_exp_mod]: the status, [X] and [*_RR]; no [RP] is a NULL [_RR]. *)
Definition mpi_exp_mod (longlong : bool) (fuel : nat) (X A E N : mpi) (RP : option mpi) : P (Z * (mpi * option mpi)) :=
  let! odd := if mpi_cmp_int N 0 <? 0 then ret false else let! m0 := get (mp_p N) 0 in ret (Z.odd m0) in
  if negb odd then ret (POLARSSL_ERR_MPI_BAD_INPUT_DATA, (X, RP)) else
  let mm := mpi_montg_init (limb (mp_p N) 0) in
  let! i := mpi_msb E in
  let wsize := window_size i in
  let j := (length (mp_p N) + 1)%nat in
  let v := Ev X mpi_init mpi_init (replicate 128 mpi_zeroed) in
  let! r :=
    chk (on_e set_eX v (mpi_grow (ev_X v) j)) (pair RP) (fun v =>
    chk (on_e (set_eW 1) v (mpi_grow (W_at v 1) j)) (pair RP) (fun v =>
    chk (on_e set_eT v (mpi_grow (ev_T v) (j * 2))) (pair RP) (fun v =>
    chk (exp_RR longlong fuel N RP v) id (fun '(RP, v) =>
    chk (exp_start longlong fuel A N mm v) (pair RP) (fun v =>
    chk (exp_run N mm wsize E v) (pair RP) (fun v => ret (0, (RP, v)))))))) in
  let '(rc, (RP, v)) := r in
  exp_free wsize (match RP with None => true | Some _ => false end) v ;;
  ret (rc, (ev_X v, RP)).
End Exp.

(** ** The inverse of the low limb *)

Lemma LB_div (k : Z) : 0 <= k <= 64 -> (2 ^ k | LB).
Proof. intros Hk. exists (2 ^ (64 - k)). unfold LB. rewrite <- Z.pow_add_r by lia. f_equal. lia. Qed.

Lemma u64_mod_pow z k : 0 <= k <= 64 -> u64 z mod 2 ^ k = z mod 2 ^ k.
Proof.
  intros Hk. rewrite u64_LB. pose proof (pow2_split k Hk) as E. rewrite E. pose proof (Z.pow_pos_nonneg 2 k ltac:(lia) ltac:(lia)).
  pose proof (Z.pow_pos_nonneg 2 (64 - k) ltac:(lia) ltac:(lia)).
  rewrite Z.rem_mul_r by lia. rewrite Z.mul_comm, Z.mod_add, Z.mod_mod by lia. done.
Qed.

Lemma u64_ex z : exists k, u64 z = z + k * LB.
Proof. exists (- (z / LB)). rewrite u64_LB, Z.mod_eq by done. ring. Qed.

(** One step of Newton's iteration doubles the bits that are right. *)
Lemma montg_step_spec m0 x k : 0 <= k <= 32 -> (m0 * x) mod 2 ^ k = 1 mod 2 ^ k -> (m0 * montg_step m0 x) mod 2 ^ (2 * k) = 1 mod 2 ^ (2 * k).
Proof.
  intros Hk H. unfold montg_step. set (p := 2 ^ (2 * k)). pose proof (Z.pow_pos_nonneg 2 (2 * k) ltac:(lia) ltac:(lia)) as Hp. fold p in Hp.
  destruct (LB_div (2 * k) ltac:(lia)) as [c0 HLB]. fold p in HLB.
  assert (Em : (m0 * u64 (x * u64 (2 - u64 (m0 * x)))) mod p = (m0 * x * (2 - m0 * x)) mod p).
  { destruct (u64_ex (m0 * x)) as [k1 ->]. destruct (u64_ex (2 - (m0 * x + k1 * LB))) as [k2 ->]. destruct (u64_ex (x * (2 - (m0 * x + k1 * LB) + k2 * LB))) as [k3 ->].
    rewrite HLB. rewrite <- (Z.mod_add (m0 * x * (2 - m0 * x)) ((m0 * x * (k2 - k1) + m0 * k3) * c0)) by lia. f_equal. ring. }
  rewrite Em. set (w := m0 * x) in *. pose proof (Z.pow_pos_nonneg 2 k ltac:(lia) ltac:(lia)) as Hq.
  assert (Hd : (2 ^ k | w - 1)) by (apply Z.mod_divide; [lia|]; rewrite Zminus_mod, H, Z.sub_diag; apply Z.mod_0_l; lia).
  destruct Hd as [c Hc]. replace (w * (2 - w)) with (1 + (- (c * c)) * p); [by rewrite Z.mod_add by lia|].
  unfold p. replace (2 * k) with (k + k) by lia. rewrite Z.pow_add_r by lia. replace w with (c * 2 ^ k + 1) by lia. ring.
Qed.

Lemma montg_first m0 : Z.odd m0 = true -> (m0 * u64 (m0 + u64 (Z.shiftl (Z.land (u64 (m0 + 2)) 4) 1))) mod 2 ^ 4 = 1 mod 2 ^ 4.
Proof.
  intros Hodd. rewrite <- Z.mul_mod_idemp_r, u64_mod_pow, <- Z.add_mod_idemp_r, u64_mod_pow by lia.
  assert (E : Z.land (u64 (m0 + 2)) 4 = Z.land ((m0 + 2) mod 2 ^ 3) 4).
  { change 4 with (Z.land (Z.ones 3) 4) at 1. rewrite Z.land_assoc, Z.land_ones, u64_mod_pow by lia. done. }
  rewrite E, Z.add_mod_idemp_r, Z.mul_mod_idemp_r by lia. pose proof (Z.div_mod m0 16 ltac:(lia)) as Hdm. pose proof (Z.mod_pos_bound m0 16 ltac:(lia)) as Hb.
  set (q := m0 / 16) in *. set (r := m0 mod 16) in *.
  assert (E3 : (m0 + 2) mod 2 ^ 3 = (r + 2) mod 8) by (replace (m0 + 2) with (r + 2 + (2 * q) * 8) by lia; apply Z.mod_add; lia).
  rewrite E3. set (l := Z.shiftl (Z.land ((r + 2) mod 8) 4) 1).
  replace (m0 * (m0 + l)) with (r * (r + l) + (q * (m0 + l) + r * q) * 16) by (rewrite Hdm; ring). rewrite Z.mod_add by lia.
  assert (Hr : Z.odd r = true) by (rewrite Hdm, Z.add_comm, Z.odd_add_mul_even in Hodd; [done|by exists 8]).
  assert (Hcases : r = 1 \/ r = 3 \/ r = 5 \/ r = 7 \/ r = 9 \/ r = 11 \/ r = 13 \/ r = 15).
  { clearbody r. clear - Hb Hr. destruct (Z.odd_spec r) as [Ho _]. destruct (Ho Hr) as [h Hh]. lia. }
  unfold l. clearbody r. clear - Hcases. destruct Hcases as [-> |[-> |[-> |[-> |[-> |[-> |[-> | -> ]]]]]]]; done.
Qed.

Lemma mpi_montg_init_spec m0 : Z.odd m0 = true -> limb_ok (mpi_montg_init m0) /\ (m0 * mpi_montg_init m0 + 1) mod LB = 0.
Proof.
  intros Hodd. unfold mpi_montg_init. split; [apply u64_ok|].
  pose proof (montg_first m0 Hodd) as H. set (x0 := u64 (m0 + _)) in *.
  apply (montg_step_spec _ _ 4) in H; [|lia]. apply (montg_step_spec _ _ 8) in H; [|lia]. apply (montg_step_spec _ _ 16) in H; [|lia]. apply (montg_step_spec _ _ 32) in H; [|lia].
  change (2 ^ (2 * 32)) with LB in H. set (x := montg_step _ (montg_step _ (montg_step _ (montg_step _ x0)))) in *.
  assert (E : u64 (u64 (Z.lnot x) + 1) = (- x) mod LB).
  { rewrite !u64_LB, Z.add_mod_idemp_l by done. unfold Z.lnot. f_equal. lia. }
  rewrite E, <- Z.add_mod_idemp_l, Z.mul_mod_idemp_r, Z.add_mod_idemp_l by done. replace (m0 * - x + 1) with (1 - m0 * x) by ring.
  rewrite Zminus_mod, H, Z.sub_diag. done.
Qed.

(** ** Montgomery multiplication *)

Lemma lval_low p : (0 < length p)%nat -> limbs_ok p -> lval p mod LB = limb p 0.
Proof. intros Hl Hp. rewrite limb_value, LBn_0, Z.div_1_r by done. done. Qed.

(** One pass of the loop is exact division by a limb. *)
Lemma mont_exact D u0 b u1 N mm : limb_ok u0 -> (N * mm + 1) mod LB = 0 ->
  u1 = u64 (u64 (D mod LB + u64 (u0 * (b mod LB))) * mm) -> (D + u0 * b + u1 * N) mod LB = 0.
Proof.
  intros Hu Hmm ->. set (S := D + u0 * b).
  assert (E : u64 (u64 (D mod LB + u64 (u0 * (b mod LB))) * mm) mod LB = (S * mm) mod LB).
  { rewrite !u64_LB. rewrite Z.mod_mod, Z.mul_mod_idemp_l by done. rewrite <- (Z.mul_mod_idemp_l (D mod LB + _)) by done.
    rewrite Z.add_mod_idemp_l, Z.add_mod_idemp_r by done. rewrite <- (Z.add_mod_idemp_r D), Z.mul_mod_idemp_r, Z.add_mod_idemp_r by done.
    by rewrite Z.mul_mod_idemp_l. }
  rewrite <- Z.add_mod_idemp_r, <- Z.mul_mod_idemp_l, E, Z.mul_mod_idemp_l, Z.add_mod_idemp_r by done.
  replace (S + S * mm * N) with (S * (N * mm + 1)) by ring. rewrite <- Z.mul_mod_idemp_r, Hmm, Z.mul_0_r by done. done.
Qed.

Lemma lval_tail x p : limbs_ok (x :: p) -> lval (x :: p) mod LB = 0 -> lval p = lval (x :: p) / LB /\ lval p * LB = lval (x :: p).
Proof.
  intros Hp H. inversion Hp as [|? ? Hx _]; subst. cbn [lval] in *. rewrite Z.mul_comm, Z.mod_add, Z.mod_small in H by done. subst x.
  rewrite Z.add_0_l, Z.mul_comm, Z.div_mul by done. lia.
Qed.

Lemma montmul_loop_spec a B N mm t d b :
  limbs_ok a -> limbs_ok B -> limbs_ok N -> limbs_ok d -> B <> [] -> N <> [] -> (lval N * mm + 1) mod LB = 0 ->
  lval (take (length N) B) = b -> b <= lval N -> (length N + 2 + length a <= length d)%nat -> lval d < lval N + b ->
  exists d' k, montmul_loop a B N mm t d = Some (reverse a ++ t, d') /\ length d = (length d' + length a)%nat /\ limbs_ok d' /\
    lval d' < lval N + b /\ lval d' * LBn (length a) = lval d + lval a * b + k * lval N.
Proof.
  intros Ha OB ON. intros Od NB NN Hmm Eb HbN. set (n := length N) in *. pose proof (lval_bound _ ON) as BN. fold n in BN.
  assert (Hb0 : 0 <= b) by (subst b; apply lval_bound; auto with mpi). assert (Hn : (0 < n)%nat) by by apply nonnil_length.
  assert (Eb0 : b mod LB = limb B 0).
  { subst b. rewrite lval_low by (try apply limbs_ok_take; try done; rewrite length_take; apply nonnil_length in NB; lia).
    unfold limb. rewrite lookup_take_lt by lia. done. }
  revert t d Od. induction Ha as [|u0 a Hu Ha IH]; intros t d Od Hl Hd.
  { exists d, 0. cbn [montmul_loop length reverse app lval]. rewrite LBn_0. split_and!; try done; lia. }
  cbn [montmul_loop length] in *. fold n. pose proof (lval_bound _ Od) as Bd.
  destruct (lookup_lt_is_Some_2 B 0 (nonnil_length _ NB)) as [b0 Hb0']. destruct (lookup_lt_is_Some_2 d 0 ltac:(lia)) as [d0 Hd0].
  rewrite Hb0', Hd0. cbn [mbind option_bind].
  assert (Ed0 : d0 = lval d mod LB) by (rewrite lval_low by (done || lia); unfold limb; by rewrite Hd0).
  assert (Eb0' : b0 = b mod LB) by (rewrite Eb0; unfold limb; by rewrite Hb0').
  set (u1 := u64 _). assert (Hu1 : limb_ok u1) by apply u64_ok.
  pose proof (mont_exact (lval d) u0 b u1 (lval N) mm Hu Hmm ltac:(unfold u1; by rewrite Ed0, Eb0')) as Hex.
  assert (HLn : LBn n * LB * LB <= LBn (length d)).
  { replace (length d) with (n + 2 + (length d - n - 2))%nat by lia. rewrite !LBn_add. change (LBn 2) with (LB * LB). pose proof (LBn_pos (length d - n - 2)). pose proof (LBn_pos n). pose proof LB_pos. nia. }
  pose proof (LBn_pos n) as HpN. assert (HL2 : 4 <= LB) by done. unfold limb_ok in Hu, Hu1.
  assert (Hub : 0 <= u0 * b <= (LB - 1) * LBn n) by (split; [apply Z.mul_nonneg_nonneg; lia|apply Z.mul_le_mono_nonneg; lia]).
  assert (HLL : (LB + 1) * LBn n <= LBn n * LB * LB) by (clear - HL2 HpN; nia).
  assert (H1 : lval d + u0 * b < LBn (length d)) by lia.
  destruct (mpi_mul_hlp_spec (take n B) d u0) as (d1 & E1 & L1 & O1 & V1); auto with mpi.
  { rewrite length_take. lia. }
  { by rewrite Eb. }
  rewrite E1. cbn [mbind option_bind]. rewrite Eb in V1.
  assert (H2 : lval d + u0 * b + u1 * lval N < LB * (lval N + b)).
  { assert (u0 * b <= (LB - 1) * b) by (apply Z.mul_le_mono_nonneg_r; lia). assert (u1 * lval N <= (LB - 1) * lval N) by (apply Z.mul_le_mono_nonneg_r; lia). lia. }
  assert (H3 : LB * (lval N + b) <= LBn (length d)).
  { assert (LB * (lval N + b) <= LB * (2 * LBn n)) by (apply Z.mul_le_mono_nonneg_l; lia). clear - H HLn HL2 HpN. nia. }
  destruct (mpi_mul_hlp_spec N d1 u1) as (d2 & E2 & L2 & O2 & V2); try done; [lia|rewrite L1, V1; lia|].
  rewrite E2. cbn [mbind option_bind]. rewrite V1 in V2. destruct d2 as [|z d2]; [cbn in L2; lia|]. cbn [length] in L2.
  replace (n + 1 <? length d2)%nat with true by (symmetry; apply Nat.ltb_lt; lia).
  destruct (lval_tail z d2 O2 ltac:(by rewrite V2)) as [_ Vt]. rewrite V2 in Vt. assert (Od2 : limbs_ok d2) by (by inversion O2).
  assert (Hd2 : lval d2 < lval N + b) by (apply Z.mul_lt_mono_pos_r with LB; [done|lia]).
  rewrite insert_limb_id; [|lia|].
  2: { rewrite limb_value by done. rewrite Z.div_small; [done|]. split; [by apply lval_bound|]. rewrite LBn_add. change (LBn 1) with LB. clear - Hd2 HbN BN HL2 HpN. nia. }
  destruct (IH (u0 :: t) d2 Od2 ltac:(lia) Hd2) as (d' & k & E' & L' & O' & B' & V'). exists d', (u1 + k * LB).
  rewrite E'. split_and!; try done; [by rewrite reverse_cons, <- app_assoc|lia|]. cbn [lval]. rewrite LBn_S.
  replace (lval d' * (LB * LBn (length a))) with (LB * (lval d' * LBn (length a))) by ring. rewrite V'. lia.
Qed.

(** The product, divided by [R] *)
Lemma mpi_montmul_spec A B N mm T :
  limbs_ok (mp_p A) -> limbs_ok (mp_p B) -> limbs_ok (mp_p N) -> mp_p B <> [] -> mp_p N <> [] -> (lval (mp_p N) * mm + 1) mod LB = 0 ->
  lval (mp_p A) < LBn (length (mp_p N)) -> lval (mp_p B) <= lval (mp_p N) -> 0 < lval (mp_p N) ->
  (length (mp_p N) + 1 <= length (mp_p A))%nat -> length (mp_p T) = (2 * (length (mp_p N) + 1))%nat ->
  exists A' T' k, mpi_montmul A B N mm T = Some (A', T') /\ mp_s A' = mp_s A /\ limbs_ok (mp_p A') /\ length (mp_p A') = length (mp_p A) /\
    0 <= lval (mp_p A') < lval (mp_p N) /\ length (mp_p T') = length (mp_p T) /\
    lval (mp_p A') * LBn (length (mp_p N)) = lval (mp_p A) * lval (mp_p B) + k * lval (mp_p N).
Proof.
  intros OA OB ON NB NN Hmm HA HB HN HlA HlT. set (n := length (mp_p N)) in *. unfold mpi_montmul. fold n.
  replace (length (mp_p A) <? n + 1)%nat with false by (symmetry; apply Nat.ltb_ge; lia).
  pose proof (lval_bound _ ON) as BN. fold n in BN. pose proof (lval_bound _ OA) as BA. pose proof (lval_bound _ OB) as BB.
  assert (Eb : lval (take n (mp_p B)) = lval (mp_p B)) by (rewrite lval_take by done; apply Z.mod_small; lia).
  assert (Ea : lval (take n (mp_p A)) = lval (mp_p A)) by (rewrite lval_take by done; apply Z.mod_small; lia).
  assert (Hta : length (take n (mp_p A)) = n) by (rewrite length_take; lia).
  destruct (montmul_loop_spec (take n (mp_p A)) (mp_p B) (mp_p N) mm [] (zeros (length (mp_p T))) (lval (mp_p B))) as (d & k & E & Ld & Od & Bd & Vd); auto with mpi.
  { fold n. rewrite Hta, length_zeros. lia. }
  { rewrite lval_zeros. lia. }
  rewrite Hta, length_zeros in Ld. rewrite Hta, Ea, lval_zeros, Z.add_0_l in Vd. rewrite E. cbn [mbind option_bind].
  replace (length d <? n + 1)%nat with false by (symmetry; apply Nat.ltb_ge; lia). rewrite app_nil_r, reverse_involutive.
  pose proof (lval_bound _ Od) as Bd0. assert (HL2 : 4 <= LB) by done. pose proof (LBn_pos n) as HpN.
  assert (Hd1 : lval d < LBn (n + 1)) by (rewrite LBn_add; change (LBn 1) with LB; clear - Bd HB BN HL2 HpN; nia).
  assert (Vt : lval (take (n + 1) d) = lval d) by (rewrite lval_take by done; apply Z.mod_small; lia).
  assert (Vh : lval (drop (n + 1) (mp_p A)) = 0).
  { rewrite lval_drop by done. apply Z.div_small. pose proof (LBn_mono n (n + 1) ltac:(lia)). lia. }
  set (p := take (n + 1) d ++ drop (n + 1) (mp_p A)).
  assert (Op : limbs_ok p) by (apply limbs_ok_app; auto with mpi).
  assert (Vp : lval p = lval d) by (unfold p; rewrite lval_app, Vt, Vh; lia).
  assert (Lp : length p = length (mp_p A)) by (unfold p; rewrite length_app, length_take, length_drop; lia).
  rewrite mpi_cmp_abs_ge by done. cbn [set_p mp_p mp_s]. rewrite Vp. destruct (Z.leb_spec (lval (mp_p N)) (lval d)) as [Hge|Hlt].
  - destruct (mpi_sub_hlp_spec (mp_p N) p) as (p' & E' & L' & O' & V'); try done; [fold n; lia|lia|].
    rewrite E'. cbn [mbind option_bind]. exists (Mpi (mp_s A) p'). eexists. exists (k - LBn n). split; [reflexivity|]. unfold set_p. cbn [mp_s mp_p].
    split_and!; try done; try lia. rewrite length_app, Hta. lia.
  - set (Tp := take n (mp_p A) ++ d). assert (OT : limbs_ok Tp) by (apply limbs_ok_app; auto with mpi).
    assert (VT : lval Tp = lval (take n (mp_p A)) + LBn n * lval d) by (unfold Tp; by rewrite lval_app, Hta).
    pose proof (lval_bound (take n (mp_p A)) ltac:(auto with mpi)) as Bt. pose proof (LBn_mono 0 n ltac:(lia)) as H1. rewrite LBn_0 in H1.
    assert (Vtp : lval (take n p) <= lval d) by (rewrite lval_take, Vp by done; apply Z.mod_le; lia).
    destruct (mpi_sub_hlp_spec (take n p) Tp) as (p' & E' & L' & O' & V'); auto with mpi.
    { rewrite length_take. unfold Tp. rewrite length_app, Hta. lia. }
    { rewrite VT. clear - Vtp H1 Bt Bd0. nia. }
    rewrite E'. cbn [mbind option_bind]. exists (Mpi (mp_s A) p). eexists. exists k. split; [reflexivity|]. unfold set_p. cbn [mp_s mp_p].
    split_and!; try done; try lia. rewrite L'. unfold Tp. rewrite length_app, Hta. lia.
Qed.

(** ** Numbers in Montgomery form *)

Section ExpSpec.
Context {St : Type} {AL : Alloc St} {LA : AllocLaws AL}.
Variables (N : mpi) (mm : Z).
Hypothesis SN : mp_s N = 1.
Hypothesis ON : limbs_ok (mp_p N).
Hypothesis HN : 0 < lval (mp_p N).
Hypothesis Hmm : (lval (mp_p N) * mm + 1) mod LB = 0.

Abbreviation n := (length (mp_p N)).
Abbreviation Nv := (lval (mp_p N)).
Abbreviation R := (LBn (length (mp_p N))).

Lemma N_nonnil : mp_p N <> [].
Proof. intros E. rewrite E in HN. by cbn in HN. Qed.

Lemma N_lt_R : Nv < R.
Proof. by apply lval_bound. Qed.

Lemma R_coprime : Z.gcd Nv R = 1.
Proof.
  apply (Z.coprime_pow_r Nv LB); [lia|]. apply Z.bezout_1_gcd.
  apply Z.mod_divide in Hmm as [k Hk]; [|done]. exists (- mm), k. lia.
Qed.

(** Division by [R] modulo [N] *)
Lemma mont_cancel r w : 0 <= r < Nv -> (r * R) mod Nv = (w * R) mod Nv -> r = w mod Nv.
Proof.
  intros Hr E. rewrite <- (Z.mod_small r Nv) by done. apply (Z.cong_iff_0 r w Nv). apply Z.mod_divide; [lia|].
  apply (Z.gauss _ R); [|apply R_coprime]. apply Z.mod_divide; [lia|]. replace (R * (r - w)) with (r * R - w * R) by ring.
  by rewrite Zminus_mod, E, Z.sub_diag.
Qed.

(** [X] is [v * R mod N], with room for a product. *)
Definition inmont (v : Z) (X : mpi) : Prop :=
  mp_s X = 1 /\ limbs_ok (mp_p X) /\ (n + 1 <= length (mp_p X))%nat /\ lval (mp_p X) = (v * R) mod Nv.

Lemma inmont_lt v X : inmont v X -> 0 <= lval (mp_p X) < Nv.
Proof. intros (_ & _ & _ & ->). by apply Z.mod_pos_bound. Qed.

Lemma inmont_nonnil v X : inmont v X -> mp_p X <> [].
Proof. intros (_ & _ & H & _). apply length_nonnil. lia. Qed.

Lemma inmont_sig v X : inmont v X -> (sig (mp_p X) <= n)%nat.
Proof. intros H. apply sig_small; [apply H|]. pose proof (inmont_lt _ _ H). pose proof N_lt_R. lia. Qed.

Definition ready (T : mpi) : Prop := length (mp_p T) = (2 * (n + 1))%nat.

(** One multiplication, whose result is [w mod N] *)
Lemma fine_montmul {C} (Q : C -> Prop) set A B v w (k : evars -> M St C) :
  mp_s A = 1 -> limbs_ok (mp_p A) -> (n + 1 <= length (mp_p A))%nat -> lval (mp_p A) < R ->
  limbs_ok (mp_p B) -> mp_p B <> [] -> lval (mp_p B) <= Nv -> (lval (mp_p A) * lval (mp_p B)) mod Nv = (w * R) mod Nv -> ready (ev_T v) ->
  (forall A' T', mp_s A' = 1 -> limbs_ok (mp_p A') -> (n + 1 <= length (mp_p A'))%nat -> lval (mp_p A') = w mod Nv -> ready T' ->
    fine Q (k (set_eT T' (set A' v)))) ->
  fine Q (bind (montmul N mm set A B v) k).
Proof.
  intros SA OA LA' BA OB NB BB Hw HT Hk. unfold montmul.
  destruct (mpi_montmul_spec A B N mm (ev_T v)) as (A' & T' & c & E & S' & O' & L' & B' & LT & V'); try done; [apply N_nonnil|].
  rewrite E. change (bind (bind (in_bounds (Some (A', T'))) ?f) k) with (k (set_eT T' (set A' v))). apply Hk; try done; [congruence|lia| |].
  - apply mont_cancel; [done|]. rewrite V', Z.mod_add by lia. done.
  - unfold ready. by rewrite LT.
Qed.

Lemma mont_mul u x : ((u * R) mod Nv * ((x * R) mod Nv)) mod Nv = (u * x * R * R) mod Nv.
Proof. rewrite <- Z.mul_mod by lia. f_equal. ring. Qed.

Lemma fine_mont {C} (Q : C -> Prop) set A B v u x (k : evars -> M St C) :
  inmont u A -> inmont x B -> ready (ev_T v) ->
  (forall A' T', inmont (u * x) A' -> ready T' -> fine Q (k (set_eT T' (set A' v)))) -> fine Q (bind (montmul N mm set A B v) k).
Proof.
  intros HA HB HT Hk. pose proof (inmont_lt _ _ HA). pose proof (inmont_lt _ _ HB). pose proof N_lt_R. pose proof (inmont_nonnil _ _ HB).
  destruct HA as (SA & OA & LA' & VA), HB as (SB & OB & LB' & VB). apply (fine_montmul Q set A B v (u * x * R) k); try triv; [rewrite VA, VB; apply mont_mul|].
  intros A' T' S' O' L' V' HT'. by apply Hk.
Qed.

(** [mpi_montred]: out of Montgomery form *)
Lemma fine_montred {C} (Q : C -> Prop) set A v w (k : evars -> M St C) :
  mp_s A = 1 -> limbs_ok (mp_p A) -> (n + 1 <= length (mp_p A))%nat -> lval (mp_p A) = (w * R) mod Nv -> ready (ev_T v) ->
  (forall A' T', mp_s A' = 1 -> limbs_ok (mp_p A') -> (n + 1 <= length (mp_p A'))%nat -> lval (mp_p A') = w mod Nv -> ready T' ->
    fine Q (k (set_eT T' (set A' v)))) ->
  fine Q (bind (montmul N mm set A (Mpi 1 [1]) v) k).
Proof.
  intros SA OA LA' VA HT Hk. pose proof (Z.mod_pos_bound (w * R) Nv HN). pose proof N_lt_R.
  apply (fine_montmul Q set A (Mpi 1 [1]) v w k); try triv; [by apply Forall_singleton|cbn; lia|].
  cbn [mp_p lval]. rewrite Z.mul_0_r, Z.add_0_r, Z.mul_1_r, VA. apply Z.mod_mod. lia.
Qed.

(** ** The table *)

Lemma W_at_eq i W v : (i < length (ev_W v))%nat -> W_at (set_eW i W v) i = W.
Proof. intros. unfold W_at. cbn [set_eW ev_W]. by rewrite list_lookup_insert_eq. Qed.
Lemma W_at_ne i j W v : i <> j -> W_at (set_eW i W v) j = W_at v j.
Proof. intros. unfold W_at. cbn [set_eW ev_W]. by rewrite list_lookup_insert_ne. Qed.

(** The parts of the locals that a loop over entry [j] of the table keeps *)
Definition keeps (j : nat) (v v' : evars) : Prop :=
  ev_X v' = ev_X v /\ (forall i, i <> j -> W_at v' i = W_at v i) /\ length (ev_W v') = length (ev_W v).

Lemma keeps_set j W T v v' : keeps j v v' -> keeps j v (set_eT T (set_eW j W v')).
Proof.
  intros (HX & HW & HL). split_and!; [done| |cbn; by rewrite length_insert]. intros i Hi. change (W_at (set_eW j W v') i = W_at v i). rewrite W_at_ne by done. by apply HW.
Qed.

Lemma square_W_fine j (k : nat) v y : (j < length (ev_W v))%nat -> inmont y (W_at v j) -> ready (ev_T v) ->
  fine (fun v' => keeps j v v' /\ inmont (y ^ (2 ^ k)) (W_at v' j) /\ ready (ev_T v')) (square_W N mm j k v).
Proof.
  intros Hj Hy HT. assert (H : forall k y v', keeps j v v' -> inmont y (W_at v' j) -> ready (ev_T v') ->
    fine (fun v' => keeps j v v' /\ inmont (y ^ (2 ^ Z.of_nat k)) (W_at v' j) /\ ready (ev_T v')) (square_W N mm j k v')); [|by apply H].
  clear y k Hy HT. induction k as [|k IH]; intros y v' HK Hy HT; cbn [square_W].
  - apply fine_ret. by rewrite Z.pow_1_r.
  - eapply fine_mont; [exact Hy|exact Hy|done|]. intros A' T' HA' HT'.
    assert (Hj' : (j < length (ev_W v'))%nat) by (destruct HK as (_ & _ & ->); done).
    rewrite Nat2Z.inj_succ, Z.pow_succ_r, Z.pow_mul_r, Z.pow_2_r by lia. apply IH; [by apply keeps_set| |done].
    change (W_at (set_eT T' ?w) j) with (W_at w j). by rewrite W_at_eq.
Qed.

Lemma fine_on_e {C} (Q : mpi -> Prop) (F : Z * C -> Prop) set v m (leave : evars -> C) k :
  fine (ok0 Q) m -> (forall X, Q X -> fine F (k (set X v))) -> fine F (chk (on_e set v m) leave k).
Proof.
  intros Hm Hk. apply (fine_chk (fun v' => exists X, Q X /\ v' = set X v)).
  - unfold on_e. eapply fine_bind; [done|]. intros [rc X] [E HX]. cbn [fst snd] in *. subst rc. apply fine_ret. split; [done|]. by exists X.
  - intros v' (X & HX & ->). by apply Hk.
Qed.

Hypothesis HM : Z.of_nat (n + 1) <= POLARSSL_MPI_MAX_LIMBS.

(** A new entry, as a copy of another *)
Lemma copy_entry {C} (F : Z * C -> Prop) (leave1 leave2 : evars -> C) i j u v (k : evars -> M St (Z * C)) :
  (i < length (ev_W v))%nat -> i <> j -> inmont u (W_at v j) ->
  (forall W, inmont u W -> fine F (k (set_eW i W v))) ->
  fine F (chk (on_e (set_eW i) v (mpi_grow (W_at v i) (n + 1))) leave1 (fun v =>
          chk (on_e (set_eW i) v (mpi_copy (W_at v i) (W_at v j))) leave2 k)).
Proof.
  intros Hi Hij Hu Hk. eapply fine_on_e; [by apply good_fine, mpi_grow_good|]. intros W1 [_ H1].
  rewrite W_at_eq, W_at_ne by done. pose proof (inmont_sig _ _ Hu) as Hs. eapply fine_on_e.
  { apply good_fine, mpi_copy_good; [by apply (inmont_nonnil u)|apply Hu|lia]. }
  intros W2 (S2 & O2 & V2 & L2). destruct Hu as (Su & Ou & Lu & Vu).
  replace (set_eW i W2 (set_eW i W1 v)) with (set_eW i W2 v) by (unfold set_eW; cbn; by rewrite list_insert_insert_eq).
  apply Hk. split_and!; [congruence|done| |congruence]. rewrite L2, H1, length_app, length_zeros. lia.
Qed.

(** Entries [lo] to [hi - 1] are powers of [g]. *)
Definition table (g : Z) (lo hi : nat) (v : evars) : Prop := forall i : nat, (lo <= i < hi)%nat -> inmont (g ^ i) (W_at v i).

Lemma fill_W_fine g lo k : forall i v, (i + k <= length (ev_W v))%nat -> (1 < lo < i)%nat -> table g lo i v -> inmont g (W_at v 1) -> ready (ev_T v) ->
  fine (ok0 (fun v' => ev_X v' = ev_X v /\ table g lo (i + k) v' /\ inmont g (W_at v' 1) /\ ready (ev_T v'))) (fill_W N mm i k v).
Proof.
  induction k as [|k IH]; intros i v Hi Hlo Htab H1 HT; cbn [fill_W].
  - apply fine_ret. split; [done|]. cbn [snd]. by rewrite Nat.add_0_r.
  - apply (copy_entry _ _ _ i (i - 1) (g ^ (i - 1)%nat)); [lia|lia|apply Htab; lia|]. intros W HW.
    eapply fine_mont; [rewrite W_at_eq by lia; exact HW|rewrite W_at_ne by lia; exact H1|done|]. intros A' T' HA' HT'.
    assert (Eg : g ^ (i - 1)%nat * g = g ^ i) by (rewrite Z.mul_comm, <- Z.pow_succ_r by lia; f_equal; lia). rewrite Eg in HA'.
    replace (set_eW i A' (set_eW i W v)) with (set_eW i A' v) by (unfold set_eW; cbn; by rewrite list_insert_insert_eq).
    eapply fine_mono; [|apply (IH (S i) (set_eT T' (set_eW i A' v))); try done].
    + intros [rc v'] [Hrc (HX & Ht & Hg & HT2)]. cbn [fst snd] in *. split; [done|]. cbn [snd]. split_and!; try done. by replace (i + S k)%nat with (S i + k)%nat by lia.
    + cbn. rewrite length_insert. lia.
    + lia.
    + intros i' Hi'. change (W_at (set_eT T' ?w) i') with (W_at w i'). destruct (decide (i' = i)) as [->|Hne]; [by rewrite W_at_eq by lia|].
      rewrite W_at_ne by lia. apply Htab. lia.
    + change (W_at (set_eT T' ?w) 1) with (W_at w 1). by rewrite W_at_ne by lia.
Qed.

Lemma exp_table_fine g wsize v : (0 < wsize <= 6)%nat -> length (ev_W v) = 128%nat -> inmont g (W_at v 1) -> ready (ev_T v) ->
  fine (ok0 (fun v' => ev_X v' = ev_X v /\ table g (2 ^ (wsize - 1)) (2 ^ wsize) v' /\ inmont g (W_at v' 1) /\ ready (ev_T v'))) (exp_table N mm wsize v).
Proof.
  intros Hw HL H1 HT. unfold exp_table. destruct (Nat.ltb_spec 1 wsize) as [Hlt|Hle].
  - assert (Hj : (1 < 2 ^ (wsize - 1) <= 32)%nat).
    { split; [apply (Nat.pow_lt_mono_r 2 0); lia|]. change 32%nat with (2 ^ 5)%nat. apply Nat.pow_le_mono_r; lia. }
    assert (H2 : (2 ^ wsize = 2 * 2 ^ (wsize - 1))%nat) by (rewrite <- Nat.pow_succ_r'; f_equal; lia).
    set (j := (2 ^ (wsize - 1))%nat) in *. apply (copy_entry _ _ _ j 1 g); [lia|lia|done|]. intros W HW.
    eapply fine_bind; [apply (square_W_fine j (wsize - 1) _ g); [cbn; rewrite length_insert; lia|by rewrite W_at_eq by lia|done]|].
    intros v1 ((HX & HW1 & HL1) & Hg & HT1). cbn [set_eW ev_W] in HL1. rewrite length_insert in HL1.
    eapply fine_mono; [|apply (fill_W_fine g j (2 ^ wsize - (j + 1)) (j + 1)); [lia|lia| | |done]].
    + intros [rc v'] [Hrc (HX' & Ht & Hg' & HT2)]. cbn [fst snd] in *. split; [done|]. cbn [snd]. split_and!; try done; [by rewrite HX', HX|].
      by replace (2 ^ wsize)%nat with (j + 1 + (2 ^ wsize - (j + 1)))%nat by lia.
    + intros i Hi. replace i with j by lia. replace (Z.of_nat j) with (2 ^ Z.of_nat (wsize - 1)); [done|]. unfold j. by rewrite Nat2Z.inj_pow.
    + rewrite HW1, W_at_ne by lia. done.
  - replace wsize with 1%nat by lia. apply fine_ret. split; [done|]. cbn [snd]. split_and!; try done. intros i Hi. cbn in Hi. replace i with 1%nat by lia. by rewrite Z.pow_1_r.
Qed.

(** ** The window *)

Lemma squares_X_fine (k : nat) : forall v x, inmont x (ev_X v) -> ready (ev_T v) ->
  fine (fun v' => inmont (x ^ (2 ^ k)) (ev_X v') /\ ev_W v' = ev_W v /\ ready (ev_T v')) (squares_X N mm k v).
Proof.
  induction k as [|k IH]; intros v x Hx HT; cbn [squares_X].
  - apply fine_ret. by rewrite Z.pow_1_r.
  - eapply fine_mont; [exact Hx|exact Hx|done|]. intros A' T' HA' HT'.
    rewrite Nat2Z.inj_succ, Z.pow_succ_r, Z.pow_mul_r, Z.pow_2_r by lia. by apply (IH (set_eT T' (set_eX A' v))).
Qed.

(** Bit [c] of a number *)
Lemma limb_bit e c : limbs_ok e -> Z.land (Z.shiftr (limb e (c / 64)) (c mod 64)%nat) 1 = (lval e / 2 ^ c) mod 2.
Proof.
  intros He. change 1 with (Z.ones 1) at 1. rewrite Z.land_ones by lia. change (2 ^ 1) with 2. rewrite Z.shiftr_div_pow2, limb_value by (done || lia).
  pose proof (Nat.div_mod_eq c 64) as E. pose proof (Nat.mod_upper_bound c 64 ltac:(lia)) as Hm. set (i := (c / 64)%nat) in *. set (m := (c mod 64)%nat) in *.
  assert (Ep : 2 ^ c = LBn i * 2 ^ m) by (rewrite LBn_bits, <- Z.pow_add_r by lia; f_equal; lia). rewrite Ep.
  pose proof (LBn_pos i). pose proof (Z.pow_pos_nonneg 2 m ltac:(lia) ltac:(lia)). rewrite <- Z.div_div by lia. set (w := lval e / LBn i).
  assert (EL : LB = 2 ^ m * (2 * 2 ^ (63 - m))) by (rewrite <- Z.pow_succ_r, <- Z.pow_add_r by lia; unfold LB; f_equal; lia).
  pose proof (Z.pow_pos_nonneg 2 (63 - m) ltac:(lia) ltac:(lia)).
  rewrite EL, Z.rem_mul_r by lia. rewrite (Z.mul_comm (2 ^ m)), Z.div_add, Z.div_small by (lia || (apply Z.mod_pos_bound; lia)).
  rewrite Z.add_0_l, (Z.rem_mul_r _ 2) by lia. rewrite (Z.mul_comm 2), Z.mod_add, Z.mod_mod by lia. done.
Qed.

(** The loop has consumed [pre = p * 2^nbits + u]: [X] is the power [p], the [nbits] bits
    [u] are in the window. *)
Record winv (g : Z) (wsize : nat) (pre : Z) (w : window) (v : evars) : Prop := {
  wv_state : wi_state w = 0 /\ pre = 0 /\ wi_nbits w = 0%nat \/ wi_state w = 1 /\ wi_nbits w = 0%nat \/ wi_state w = 2 /\ (0 < wi_nbits w)%nat;
  wv_nbits : (wi_nbits w < wsize)%nat;
  wv_bits : exists p u, 0 <= p /\ pre = p * 2 ^ wi_nbits w + u /\ 0 <= u < 2 ^ wi_nbits w /\ wi_wbits w = u * 2 ^ (wsize - wi_nbits w)%nat /\
    ((0 < wi_nbits w)%nat -> 2 ^ (wi_nbits w - 1) <= u) /\ inmont (g ^ p) (ev_X v);
  wv_T : ready (ev_T v);
}.

Lemma wbits_or u (b k : Z) : 0 <= k < 62 -> b = 0 \/ b = 1 -> Z.lor (u * 2 ^ (k + 1)) (u64 (Z.shiftl b k)) = (2 * u + b) * 2 ^ k.
Proof.
  intros Hk Hb. assert (Hp : 0 < 2 ^ k < 2 ^ 62) by (split; [apply Z.pow_pos_nonneg; lia|apply Z.pow_lt_mono_r; lia]).
  rewrite Z.shiftl_mul_pow2, u64_limb by (unfold limb_ok, LB; lia). rewrite (lor_add _ _ (k + 1)).
  - rewrite Z.pow_add_r by lia. change (2 ^ 1) with 2. ring.
  - lia.
  - rewrite Z.pow_add_r by lia. lia.
  - apply Z.mod_mul. pose proof (Z.pow_pos_nonneg 2 (k + 1) ltac:(lia) ltac:(lia)). lia.
Qed.

Lemma exp_loop_fine g wsize e : (0 < wsize <= 6)%nat -> limbs_ok e -> forall (c : nat) w v,
  table g (2 ^ (wsize - 1)) (2 ^ wsize) v -> winv g wsize (lval e / 2 ^ c) w v ->
  fine (fun r => winv g wsize (lval e) (fst r) (snd r) /\ ev_W (snd r) = ev_W v) (exp_loop N mm wsize e c w v).
Proof.
  intros Hw He. induction c as [|c IH]; intros w v Htab HI; cbn [exp_loop].
  { apply fine_ret. cbn [fst snd]. change (2 ^ 0%nat) with 1 in HI. by rewrite Z.div_1_r in HI. }
  rewrite limb_bit by done. pose proof (Z.mod_pos_bound (lval e / 2 ^ c) 2 ltac:(lia)) as Hb2. set (b := (lval e / 2 ^ c) mod 2) in *.
  pose proof (Z.pow_pos_nonneg 2 c ltac:(lia) ltac:(lia)) as Hpc.
  assert (Epre : lval e / 2 ^ c = 2 * (lval e / 2 ^ S c) + b).
  { rewrite Nat2Z.inj_succ, Z.pow_succ_r, (Z.mul_comm 2 (2 ^ c)), <- Z.div_div by lia. unfold b. apply Z.div_mod. lia. }
  set (pre := lval e / 2 ^ S c) in *. destruct HI as [Hst Hnb (p & u & Hp0 & Epu & Bu & Ewb & Hlow & HX) HT].
  destruct ((b =? 0) && (wi_state w =? 0)) eqn:E0.
  { apply andb_prop in E0 as [Eb%Z.eqb_eq Es%Z.eqb_eq]. apply IH; [done|]. destruct Hst as [(_ & Hz & Hn0)|[[Hs _]|[Hs _]]]; [|lia|lia].
    rewrite Epre, Eb, Hz. split; try done; [left; split_and!; triv|]. exists p, u. rewrite Hz in Epu. split_and!; triv. }
  destruct ((b =? 0) && (wi_state w =? 1)) eqn:E1.
  { apply andb_prop in E1 as [Eb%Z.eqb_eq Es%Z.eqb_eq]. destruct Hst as [(Hs & _)|[[_ Hn0]|[Hs _]]]; [lia| |lia].
    rewrite Hn0 in *. change (2 ^ 0%nat) with 1 in *. assert (Hu0 : u = 0) by lia.
    unfold square_X. eapply fine_mont; [exact HX|exact HX|done|]. intros A' T' HA' HT'.
    apply (IH w (set_eT T' (set_eX A' v))); [done|]. rewrite Epre, Eb. split; try done; [right; left; done|lia|].
    exists (2 * p), 0. rewrite Hn0, Ewb, Hu0. split_and!; try triv.
    cbn [set_eT set_eX ev_X]. replace (2 * p) with (p + p) by lia. by rewrite Z.pow_add_r by lia. }
  set (k := (wsize - S (wi_nbits w))%nat). assert (Ek : (wsize - wi_nbits w)%nat = S k) by lia.
  rewrite Ek, Nat2Z.inj_succ, <- Z.add_1_r in Ewb. rewrite Ewb, wbits_or by lia. set (u' := 2 * u + b).
  assert (Epow : 2 ^ S (wi_nbits w) = 2 * 2 ^ wi_nbits w) by (rewrite Nat2Z.inj_succ, Z.pow_succ_r by lia; done).
  assert (Bu' : 0 <= u' < 2 ^ S (wi_nbits w)) by lia.
  assert (Epu' : lval e / 2 ^ c = p * 2 ^ S (wi_nbits w) + u') by (unfold u'; rewrite Epre, Epu, Epow; ring).
  assert (Hlow' : 2 ^ wi_nbits w <= u').
  { destruct (decide (wi_nbits w = 0%nat)) as [Hz|Hnz].
    - rewrite Hz in *. change (2 ^ 0%nat) with 1 in *. unfold u'. destruct (Z.eqb_spec b 0) as [Eb|Eb]; [|lia]. cbn [andb] in E0, E1. lia.
    - specialize (Hlow ltac:(lia)). unfold u'. replace (Z.of_nat (wi_nbits w)) with (Z.of_nat (wi_nbits w) - 1 + 1) by lia. rewrite Z.pow_add_r by lia. lia. }
  destruct (Nat.eqb_spec (S (wi_nbits w)) wsize) as [Hfull|Hmore].
  - replace k with 0%nat by lia. change (2 ^ 0%nat) with 1. rewrite Z.mul_1_r.
    eapply fine_bind; [by apply squares_X_fine|]. intros v1 (HX1 & HW1 & HT1).
    assert (Hu : inmont (g ^ u') (W_at v1 (Z.to_nat u'))).
    { unfold W_at. rewrite HW1. rewrite <- (Z2Nat.id u') at 1 by lia. apply Htab. rewrite Hfull in Bu'. split.
      - apply Nat2Z.inj_le. rewrite Nat2Z.inj_pow, Z2Nat.id by lia. replace (wsize - 1)%nat with (wi_nbits w) by lia. done.
      - apply Nat2Z.inj_lt. rewrite Nat2Z.inj_pow, Z2Nat.id by lia. apply Bu'. }
    eapply fine_mont; [exact HX1|exact Hu|done|]. intros A' T' HA' HT'.
    assert (HXf : inmont (g ^ (lval e / 2 ^ c)) A').
    { rewrite Epu', Hfull, Z.pow_add_r, Z.pow_mul_r by lia. exact HA'. }
    eapply fine_mono; [|apply (IH (Win 1 0 0) (set_eT T' (set_eX A' v1))); [|]].
    + intros [w' v'] [H1 H2]. cbn [fst snd set_eT set_eX ev_W] in *. split; [done|congruence].
    + intros i Hi. unfold W_at. cbn [set_eT set_eX ev_W]. rewrite HW1. by apply Htab.
    + split; cbn [wi_state wi_nbits wi_wbits set_eT set_eX ev_T ev_X]; [right; left; done|lia| |done].
      exists (lval e / 2 ^ c), 0. change (2 ^ 0%nat) with 1. split_and!; [apply Z.div_pos; [by apply lval_bound|lia]|lia|lia|lia|lia|lia|exact HXf].
  - apply IH; [done|]. split; cbn [wi_state wi_nbits wi_wbits]; [right; right; split; [done|lia]|lia| |done].
    exists p, u'. fold k. split_and!; try triv. intros _. replace (Z.of_nat (S (wi_nbits w)) - 1) with (Z.of_nat (wi_nbits w)) by lia. done.
Qed.

Lemma truthy_bit a (w : nat) : truthy (Z.land a (Z.shiftl 1 w)) = Z.testbit a w.
Proof.
  assert (E : Z.land a (Z.shiftl 1 w) = if Z.testbit a w then 2 ^ w else 0).
  { rewrite Z.shiftl_1_l. apply Z.bits_inj'. intros i Hi. rewrite Z.land_spec, Z.pow2_bits_eqb by lia.
    destruct (Z.eqb_spec w i) as [<-|Hne]; [|rewrite andb_false_r; destruct (Z.testbit a w); [by rewrite Z.pow2_bits_false by lia|by rewrite Z.bits_0]].
    rewrite andb_true_r. destruct (Z.testbit a w) eqn:Et; [by rewrite Z.pow2_bits_true by lia|by rewrite Z.bits_0]. }
  rewrite E. destruct (Z.testbit a w); [|done]. unfold truthy. pose proof (Z.pow_pos_nonneg 2 w ltac:(lia) ltac:(lia)). lia.
Qed.

(** The bits left in the window, [h] the ones that were shifted out of it *)
Lemma exp_rest_fine g (wsize : nat) : (0 < wsize <= 6)%nat -> forall (k : nat) h u x v, (k < wsize)%nat -> 0 <= u < 2 ^ k -> 0 <= h < 2 ^ (wsize - k)%nat ->
  inmont x (ev_X v) -> inmont g (W_at v 1) -> ready (ev_T v) ->
  fine (fun v' => inmont (x ^ (2 ^ k) * g ^ u) (ev_X v') /\ ready (ev_T v'))
    (exp_rest N mm wsize k (h * 2 ^ wsize + u * 2 ^ (wsize - k)%nat) v).
Proof.
  intros Hw. induction k as [|k IH]; intros h u x v Hk Hu Hh HX H1 HT; cbn [exp_rest].
  { apply fine_ret. change (2 ^ 0%nat) with 1 in *. replace u with 0 by lia. by rewrite Z.pow_1_r, Z.mul_1_r. }
  unfold square_X. eapply fine_mont; [exact HX|exact HX|done|]. intros A' T' HA' HT'.
  assert (E2 : 2 ^ S k = 2 * 2 ^ k) by (rewrite Nat2Z.inj_succ, Z.pow_succ_r by lia; done). rewrite E2 in *.
  pose proof (Z.pow_pos_nonneg 2 k ltac:(lia) ltac:(lia)) as Hpk. pose proof (Z.pow_pos_nonneg 2 wsize ltac:(lia) ltac:(lia)) as Hpw.
  assert (Ew : 2 ^ (wsize - k)%nat = 2 * 2 ^ (wsize - S k)%nat) by (replace (wsize - k)%nat with (S (wsize - S k)) by lia; rewrite Nat2Z.inj_succ, Z.pow_succ_r by lia; done).
  assert (Ewk : 2 ^ wsize = 2 ^ k * 2 ^ (wsize - k)%nat) by (rewrite <- Z.pow_add_r by lia; f_equal; lia).
  set (q := u / 2 ^ k). pose proof (Z.div_mod u (2 ^ k) ltac:(lia)) as Ed. pose proof (Z.mod_pos_bound u (2 ^ k) Hpk) as Bm. fold q in Ed. set (u' := u mod 2 ^ k) in *.
  assert (Hq : 0 <= q < 2) by (split; [apply Z.div_pos; lia|apply Z.div_lt_upper_bound; lia]).
  assert (Bw : 2 ^ wsize <= 64) by (change 64 with (2 ^ 6); apply Z.pow_le_mono_r; lia). assert (Bh : 2 ^ (wsize - k)%nat <= 64) by (change 64 with (2 ^ 6); apply Z.pow_le_mono_r; lia).
  pose proof (Z.pow_pos_nonneg 2 (wsize - k)%nat ltac:(lia) ltac:(lia)) as Hpwk.
  assert (Es : u64 (Z.shiftl (h * 2 ^ wsize + u * 2 ^ (wsize - S k)%nat) 1) = (2 * h + q) * 2 ^ wsize + u' * 2 ^ (wsize - k)%nat).
  { rewrite Z.shiftl_mul_pow2 by lia. change (2 ^ 1) with 2. replace ((h * 2 ^ wsize + u * 2 ^ (wsize - S k)%nat) * 2) with ((2 * h + q) * 2 ^ wsize + u' * 2 ^ (wsize - k)%nat) by (rewrite Ewk, Ew, Ed; ring).
    apply u64_limb. unfold limb_ok. split; [nia|]. apply Z.lt_le_trans with (2 ^ 20); [|done].
    assert ((2 * h + q) * 2 ^ wsize <= 64 * 64) by (apply Z.mul_le_mono_nonneg; lia). assert (u' * 2 ^ (wsize - k)%nat <= 2 ^ k * 2 ^ (wsize - k)%nat) by (apply Z.mul_le_mono_nonneg_r; lia). lia. }
  rewrite Es, truthy_bit. assert (Hbit : Z.testbit ((2 * h + q) * 2 ^ wsize + u' * 2 ^ (wsize - k)%nat) wsize = (q =? 1)).
  { rewrite Z.testbit_odd, Z.shiftr_div_pow2 by lia. rewrite Z.div_add_l, Z.div_small by (lia || nia). rewrite Z.add_0_r.
    rewrite Z.add_comm, Z.odd_add_mul_2. assert (q = 0 \/ q = 1) as [-> | ->] by lia; done. }
  rewrite Hbit. assert (Hh' : 0 <= 2 * h + q < 2 ^ (wsize - k)%nat) by lia. destruct (Z.eqb_spec q 1) as [Hq1|Hq0].
  - eapply fine_mont; [exact HA'|exact H1|done|]. intros A2 T2 HA2 HT2.
    eapply fine_mono; [|apply (IH (2 * h + q) u' (x * x * g) (set_eT T2 (set_eX A2 (set_eT T' (set_eX A' v))))); try done; lia].
    intros v' [HX' HT3]. split; [|done]. replace (x ^ (2 * 2 ^ k) * g ^ u) with ((x * x * g) ^ 2 ^ k * g ^ u'); [done|].
    rewrite Ed, Hq1, Z.mul_1_r, Z.pow_add_r, !Z.pow_mul_l, Z.pow_mul_r, Z.pow_2_r, Z.pow_mul_l by lia. ring.
  - eapply fine_mono; [|apply (IH (2 * h + q) u' (x * x) (set_eT T' (set_eX A' v))); try done; lia].
    intros v' [HX' HT3]. split; [|done]. replace (x ^ (2 * 2 ^ k) * g ^ u) with ((x * x) ^ 2 ^ k * g ^ u'); [done|].
    rewrite Ed. replace q with 0 by lia. rewrite Z.mul_0_r, Z.add_0_l, Z.pow_mul_r, Z.pow_2_r by lia. done.
Qed.

Lemma exp_run_fine g wsize E v : (0 < wsize <= 6)%nat -> limbs_ok (mp_p E) -> length (ev_W v) = 128%nat ->
  inmont g (W_at v 1) -> inmont 1 (ev_X v) -> ready (ev_T v) ->
  fine (ok0 (fun v' => mp_s (ev_X v') = 1 /\ limbs_ok (mp_p (ev_X v')) /\ (n + 1 <= length (mp_p (ev_X v')))%nat /\ lval (mp_p (ev_X v')) = g ^ lval (mp_p E) mod Nv))
    (exp_run N mm wsize E v).
Proof.
  intros Hw OE HL H1 HX HT. unfold exp_run. eapply fine_chk; [by apply exp_table_fine|]. intros v1 (EX & Htab & Hg & HT1).
  pose proof (lval_bound _ OE) as BE. set (c := (length (mp_p E) * 64)%nat).
  assert (Ec : lval (mp_p E) / 2 ^ c = 0) by (apply Z.div_small; rewrite LBn_bits in BE; replace (Z.of_nat c) with (64 * Z.of_nat (length (mp_p E))) by lia; done).
  eapply fine_bind; [apply (exp_loop_fine g wsize (mp_p E) Hw OE c (Win 0 0 0) v1 Htab)|].
  { rewrite Ec. split; cbn [wi_state wi_nbits wi_wbits]; [by left|lia| |done]. exists 0, 0. rewrite EX. split_and!; try triv. }
  intros [w v2] [[Hst Hnb (p & u & Hp & Epu & Bu & Ewb & _ & HX2) HT2] HW2]. cbn [fst snd] in *. rewrite Ewb.
  replace (u * 2 ^ (wsize - wi_nbits w)%nat) with (0 * 2 ^ wsize + u * 2 ^ (wsize - wi_nbits w)%nat) by lia.
  eapply fine_bind; [apply (exp_rest_fine g wsize Hw (wi_nbits w) 0 u (g ^ p)); try triv; unfold W_at; by rewrite HW2|].
  intros v3 [HX3 HT3]. rewrite <- Z.pow_mul_r, <- Z.pow_add_r, <- Epu in HX3 by lia.
  destruct HX3 as (S3 & O3 & L3 & V3). apply (fine_montred _ _ _ _ (g ^ lval (mp_p E))); [done|done|done|done|done|].
  intros A' T' S' O' L' V' HT'. apply fine_ret. split; [done|]. by cbn [snd set_eT set_eX ev_X].
Qed.

(** [R^2 mod N] in [RR], and in [*_RR] where there is one *)
Definition is_RR (X : mpi) : Prop := mp_s X = 1 /\ mp_p X <> [] /\ limbs_ok (mp_p X) /\ lval (mp_p X) = (R * R) mod Nv.

(** What [*_RR] may be: unset, or computed before for the same modulus *)
Definition valid_RP (RP : option mpi) : Prop :=
  match RP with Some X => mp_p X <> [] -> is_RR X | None => True end.
Definition valid_RP' (RP RP' : option mpi) : Prop :=
  match RP with None => RP' = None | Some _ => exists X, RP' = Some X /\ is_RR X end.

Variables (longlong : bool) (fuel big : nat).
Hypothesis Hfuel : (6 <= fuel)%nat.
Hypothesis Hsafe : safe longlong (top_limb Nv).
Hypothesis Hbig : (2 * n + 1 <= big)%nat.
Hypothesis HMbig : Z.of_nat (big + 2) <= POLARSSL_MPI_MAX_LIMBS.

Lemma exp_RR_fine RP v : valid_RP RP -> ev_RR v = mpi_init ->
  fine (ok0 (fun r => valid_RP' RP (fst r) /\ is_RR (ev_RR (snd r)) /\ ev_X (snd r) = ev_X v /\ ev_T (snd r) = ev_T v /\ ev_W (snd r) = ev_W v))
    (exp_RR longlong fuel N RP v).
Proof.
  intros HR HI. assert (Hnew : RP = None \/ RP <> None -> fine (ok0 (fun r => valid_RP' RP (fst r) /\ is_RR (ev_RR (snd r)) /\ ev_X (snd r) = ev_X v /\ ev_T (snd r) = ev_T v /\ ev_W (snd r) = ev_W v))
    (chk (on_e set_eRR v (mpi_lset (ev_RR v) 1)) (pair RP) (fun v =>
      chk (on_e set_eRR v (mpi_shift_l (ev_RR v) (length (mp_p N) * 2 * 64))) (pair RP) (fun v =>
      chk (on_e set_eRR v (mpi_mod_mpi longlong fuel true (ev_RR v) (ev_RR v) N)) (pair RP) (fun v =>
      ret (0, (match RP with None => None | Some _ => Some (ev_RR v) end, v))))))).
  { intros _. rewrite HI. eapply fine_on_e; [by apply good_fine, mpi_lset_good|]. intros X1 (S1 & O1 & V1 & L1). cbn [set_eRR ev_RR]. cbn in L1.
    assert (Hz : ((zbits (lval (mp_p X1)) + length (mp_p N) * 2 * 64 + 63) / 64 = 2 * length (mp_p N) + 1)%nat).
    { rewrite V1. change (zbits (Z.abs 1)) with 1%nat. symmetry. apply (Nat.div_unique _ _ _ 0); lia. }
    eapply fine_on_e; [apply good_fine, mpi_shift_l_good; [apply length_nonnil; lia|done|rewrite Hz; lia]|]. rewrite Hz. intros X2 (S2 & O2 & V2 & L2). cbn [set_eRR ev_RR].
    assert (E2 : lval (mp_p X2) = R * R).
    { rewrite V2, V1, !LBn_bits, <- Z.pow_add_r by lia. change (Z.abs 1) with 1. rewrite Z.mul_1_l. f_equal. lia. }
    pose proof (LBn_pos n) as HpR. change (mp_s X1 = 1) in S1.
    eapply fine_on_e.
    { apply (mpi_mod_mpi_fine longlong fuel true X2 X2 N big); try triv; try lia.
      - intros _. split; [done|congruence].
      - split_and!; [left; congruence|apply length_nonnil; lia|done|intros; congruence]. }
    intros X3 (S3 & N3 & O3 & V3 & _). apply fine_ret. split; [done|]. cbn [fst snd set_eRR ev_RR ev_X ev_T ev_W]. unfold ival in V3. rewrite S2, S1, E2, Z.mul_1_l in V3.
    assert (is_RR X3) by done. destruct RP; split_and!; try done. by exists X3. }
  destruct RP as [[sr [|x p]]|]; [apply Hnew; by right| |apply Hnew; by left].
  cbn [exp_RR]. apply fine_ret. split; [done|]. cbn [fst snd default set_eRR ev_RR ev_X ev_T ev_W]. assert (H : is_RR (Mpi sr (x :: p))) by (by apply HR).
  split_and!; try done. by exists (Mpi sr (x :: p)).
Qed.

Lemma exp_start_fine A v : mp_s A = 1 -> mp_p A <> [] -> limbs_ok (mp_p A) -> (length (mp_p A) <= big)%nat ->
  is_RR (ev_RR v) -> length (ev_W v) = 128%nat -> length (mp_p (W_at v 1)) = (n + 1)%nat -> (n + 1 <= length (mp_p (ev_X v)))%nat -> ready (ev_T v) ->
  fine (ok0 (fun v' => inmont (lval (mp_p A)) (W_at v' 1) /\ inmont 1 (ev_X v') /\ ready (ev_T v') /\ length (ev_W v') = 128%nat)) (exp_start longlong fuel A N mm v).
Proof.
  intros SA NA OA LA' (SR & NR & OR & VR) HL HW1 LX HT. unfold exp_start. pose proof N_nonnil as NN. pose proof N_lt_R as HNR. set (a := lval (mp_p A)) in *.
  pose proof (lval_bound _ OA) as BA. fold a in BA. pose proof (Z.mod_pos_bound (R * R) Nv HN) as BR. rewrite <- VR in BR.
  apply (fine_bind (ok0 (fun W => mp_s W = 1 /\ limbs_ok (mp_p W) /\ (n + 1 <= length (mp_p W))%nat /\ lval (mp_p W) = a mod Nv))).
  { rewrite mpi_cmp_mpi_lt by done. fold a. destruct (Z.leb_spec Nv a) as [H|H].
    - eapply fine_mono; [|apply (mpi_mod_mpi_fine longlong fuel false (W_at v 1) A N big); try triv; [split_and!; try triv; by left]].
      intros [rc W] [Hrc (SW & NW & OW & VW & LW)]. specialize (LW SA). cbn [fst snd] in *. split; [done|]. cbn [snd]. unfold ival in VW. rewrite SA, Z.mul_1_l in VW. split_and!; triv.
    - eapply fine_mono; [|apply good_fine, mpi_copy_good; [done|done|pose proof (sig_le (mp_p A)); lia]].
      intros [rc W] [Hrc (SW & OW & VW & LW)]. cbn [fst snd] in *. split; [done|]. cbn [snd]. fold a in VW. rewrite Z.mod_small by lia. split_and!; triv. }
  intros [rc W] [Hrc (SW & OW & LW & VW)]. cbn [fst snd] in *. pose proof (Z.mod_pos_bound a Nv HN). rewrite W_at_eq by lia.
  apply (fine_montmul _ _ _ _ _ (a * R)); cbn [set_eW ev_RR]; [done|done|done|lia|done|done|lia| |done|].
  { rewrite VW, VR. rewrite <- Z.mul_mod by lia. f_equal. ring. }
  intros W' T' S' O' L' V' HT'. eapply fine_on_e.
  { apply good_fine, mpi_copy_good; cbn [set_eT set_eW ev_RR]; [done|done|]. pose proof (sig_small (mp_p (ev_RR v)) n OR ltac:(lia)). lia. }
  intros X (SX & OX & VX & LX'). cbn [set_eT set_eW set_eX ev_X ev_RR ev_T] in *.
  apply (fine_montred _ _ _ _ R); cbn [set_eX ev_X]; [congruence|done|lia|by rewrite VX, VR|done|].
  intros X' T2 SX' OX' LX2 VX' HT2. apply fine_ret. split; [done|]. cbn [snd].
  assert (EW : W_at (set_eT T2 (set_eX X' (set_eX X (set_eT T' (set_eW 1 W' (set_eW 1 W v)))))) 1 = W').
  { unfold W_at. cbn [set_eT set_eX set_eW ev_W]. rewrite list_lookup_insert_eq; [done|]. rewrite length_insert. lia. }
  rewrite EW. split_and!; try triv; cbn [set_eT set_eX set_eW ev_W ev_X ev_T]; [split_and!; try triv; by rewrite Z.mul_1_l|]. rewrite !length_insert. done.
Qed.

Lemma free_W_calm i k v : calm (fun _ => True) (free_W i k v).
Proof. revert i v. induction k as [|k IH]; intros i v; cbn [free_W]; [by apply calm_ret|]. eapply calm_bind; [apply mpi_free_calm|]. intros; apply IH. Qed.

Lemma exp_free_calm wsize b v : calm (fun _ => True) (exp_free wsize b v).
Proof.
  unfold exp_free. eapply calm_bind; [apply free_W_calm|]. intros v' _. do 2 (eapply calm_bind; [apply mpi_free_calm|]; intros _ _).
  destruct b; [|by apply calm_ret]. eapply calm_bind; [apply mpi_free_calm|]. intros _ _. by apply calm_ret.
Qed.
End ExpSpec.

Lemma window_size_range i : (0 < window_size i <= 6)%nat.
Proof.
  unfold window_size. cbv zeta. set (w := if (671 <? i)%nat then _ else _). assert (0 < w <= 6)%nat by (unfold w; repeat case_match; lia).
  destruct (_ <? w)%nat; [unfold POLARSSL_MPI_WINDOW_SIZE; lia|done].
Qed.

(** The result of [mpi_exp_mod]: the power, and [R^2 mod N] in [*_RR] *)
Definition power (a e : Z) (N : mpi) (RP : option mpi) (r : mpi * option mpi) : Prop :=
  mp_s (fst r) = 1 /\ mp_p (fst r) <> [] /\ limbs_ok (mp_p (fst r)) /\ lval (mp_p (fst r)) = a ^ e mod lval (mp_p N) /\ valid_RP' N RP (snd r).

Lemma mpi_exp_mod_fine {St} {AL : Alloc St} {LA : AllocLaws AL} longlong fuel X A E N RP big :
  (6 <= fuel)%nat -> mp_s N = 1 -> limbs_ok (mp_p N) -> Z.odd (lval (mp_p N)) = true ->
  mp_s A = 1 -> mp_p A <> [] -> limbs_ok (mp_p A) -> mp_p E <> [] -> limbs_ok (mp_p E) -> valid_RP N RP ->
  (length (mp_p A) <= big)%nat -> (2 * length (mp_p N) + 2 <= big)%nat -> Z.of_nat (big + 2) <= POLARSSL_MPI_MAX_LIMBS ->
  safe longlong (top_limb (lval (mp_p N))) ->
  fine (ok0 (power (lval (mp_p A)) (lval (mp_p E)) N RP)) (mpi_exp_mod longlong fuel X A E N RP).
Proof.
  intros Hf SN ON Hodd SA NA OA NE OE HRP LA' Hbig HM HS. set (n := length (mp_p N)) in *.
  pose proof (lval_bound _ ON) as BN. assert (HN : 0 < lval (mp_p N)) by (destruct (Z.eq_dec (lval (mp_p N)) 0) as [E0|]; [by rewrite E0 in Hodd|lia]).
  pose proof (N_nonnil N HN) as NN. pose proof (nonnil_length _ NN) as Ln.
  assert (Hm0 : Z.odd (limb (mp_p N) 0) = true).
  { rewrite <- lval_low by done. rewrite Z.mod_eq by done. replace (lval (mp_p N) - LB * (lval (mp_p N) / LB)) with (lval (mp_p N) + 2 * (- (2 ^ 63 * (lval (mp_p N) / LB)))) by (unfold LB; ring).
    by rewrite Z.odd_add_mul_2. }
  destruct (mpi_montg_init_spec _ Hm0) as [_ Hmm0]. set (mm := mpi_montg_init (limb (mp_p N) 0)) in *.
  assert (Hmm : (lval (mp_p N) * mm + 1) mod LB = 0).
  { rewrite <- Z.add_mod_idemp_l, <- Z.mul_mod_idemp_l, lval_low, Z.add_mod_idemp_l by done. done. }
  unfold mpi_exp_mod. fold mm. rewrite mpi_cmp_int_0, SN, Z.mul_1_l by (done || by left). replace (Z.sgn _ <? 0) with false by (symmetry; apply Z.ltb_ge, Z.sgn_nonneg; lia).
  apply (fine_bind (fun b => b = true)); [apply fine_get; [done|]; by apply fine_ret|]. intros _ ->. cbn [negb].
  apply (fine_bind (fun _ => True)).
  { intros s Hs. eapply wp_done; [by apply mpi_msb_run|]. split; [reflexivity|done]. }
  intros i _. set (wsize := window_size i). fold n.
  apply (fine_bind (ok0 (fun r => power (lval (mp_p A)) (lval (mp_p E)) N RP (ev_X (snd r), fst r)))).
  2: { intros [rc [RP' v]] [Hrc Hp]. cbn [fst snd] in *. subst rc. eapply fine_bind; [apply calm_fine, exp_free_calm|]. intros _ _. by apply fine_ret. }
  eapply fine_on_e; [apply good_fine, mpi_grow_good; lia|]. intros X1 [_ H1]. cbn [set_eX ev_X] in H1.
  eapply fine_on_e; [apply good_fine, mpi_grow_good; lia|]. intros W1 [_ HW1]. change (mp_p (W_at _ 1)) with (@nil Z) in HW1. cbn [app length] in HW1.
  eapply fine_on_e; [apply good_fine, mpi_grow_good; lia|]. intros T [_ HT]. cbn [set_eX set_eW ev_T mpi_init mp_p app length] in HT.
  set (v1 := set_eT T _). eapply fine_chk; [apply (exp_RR_fine N SN ON HN ltac:(lia) longlong fuel big Hf HS ltac:(lia) HM RP v1 HRP); done|].
  intros [RP' v2] (HRP' & HRR & EX & ET & EW). cbn [fst snd] in *.
  assert (HT2 : ready N (ev_T v2)) by (unfold ready; rewrite ET; cbn; rewrite HT, length_zeros; fold n; lia).
  assert (HW2 : W_at v2 1 = W1) by (unfold W_at; by rewrite EW). assert (HL2 : length (ev_W v2) = 128%nat) by (by rewrite EW).
  eapply fine_chk; [apply (exp_start_fine N mm SN ON HN Hmm ltac:(lia) longlong fuel big Hf HS ltac:(lia) HM A v2); try done|].
  { rewrite HW2, HW1, length_zeros. fold n. lia. }
  { rewrite EX. cbn. rewrite H1, length_app, length_zeros. fold n. lia. }
  intros v3 (HW3 & HX3 & HT3 & HL3).
  eapply fine_chk; [apply (exp_run_fine N mm ON HN Hmm ltac:(lia) (lval (mp_p A)) wsize E v3); try done; apply window_size_range|].
  intros v4 (S4 & O4 & L4 & V4). apply fine_ret. split; [done|]. cbn [fst snd]. split_and!; try done. apply length_nonnil. cbn [fst]. lia.
Qed.

(** ** Claims *)


Definition wit_N : mpi := Mpi 1 [2 ^ 63 + 29; 17].

Lemma wit_N_ok : limbs_ok (mp_p wit_N) /\ safe false (top_limb (lval (mp_p wit_N))).
Proof. split; [by repeat constructor|]. right. by vm_compute. Qed.

