(* ===== verification/Dhm.v ===== *)
(** * Diffie-Hellman-Merkle

    PolarSSL's dhm.c as built into the kernel (src/host/linux-3.0/drivers/priv/polarssl,
    with the added [dhm_calc_secret_no_export]) and into the user library
    (src/crypto/polarssl-1.1.1), with [mpi_fill_random] and the hexadecimal
    [mpi_read_string] of bignum.c.

    With memory to spare the two sides, one writing its parameters and reading the
    answer, the other reading the parameters and answering, hold the same secret, whatever
    their random numbers.  Without memory the code is not safe: a failed allocation for
    the private number makes the loop that brings it under the modulus run forever. *)

From Stdlib Require Import Zpow_facts.
From S2P Require Import Prelude Mpi MpiOps MpiDiv MpiExp.

Definition POLARSSL_ERR_DHM_BAD_INPUT_DATA : Z := -12416.        (* -0x3080 *)
Definition POLARSSL_ERR_DHM_READ_PARAMS_FAILED : Z := -12544.    (* -0x3100 *)
Definition POLARSSL_ERR_DHM_MAKE_PARAMS_FAILED : Z := -12672.    (* -0x3180 *)
Definition POLARSSL_ERR_DHM_READ_PUBLIC_FAILED : Z := -12800.    (* -0x3200 *)
Definition POLARSSL_ERR_DHM_MAKE_PUBLIC_FAILED : Z := -12928.    (* -0x3280 *)
Definition POLARSSL_ERR_DHM_CALC_SECRET_FAILED : Z := -13056.    (* -0x3300 *)

(** [dhm_context] *)
Record dhm_context := Dhm {
  dh_len : nat; dh_P : mpi; dh_G : mpi; dh_X : mpi; dh_GX : mpi; dh_GY : mpi; dh_K : mpi; dh_RP : mpi;
}.

(** A context cleared with [memset] *)
Definition dhm_zero : dhm_context :=
  Dhm 0 mpi_zeroed mpi_zeroed mpi_zeroed mpi_zeroed mpi_zeroed mpi_zeroed mpi_zeroed.

Definition set_len n c := Dhm n (dh_P c) (dh_G c) (dh_X c) (dh_GX c) (dh_GY c) (dh_K c) (dh_RP c).
Definition set_P P c := Dhm (dh_len c) P (dh_G c) (dh_X c) (dh_GX c) (dh_GY c) (dh_K c) (dh_RP c).
Definition set_G G c := Dhm (dh_len c) (dh_P c) G (dh_X c) (dh_GX c) (dh_GY c) (dh_K c) (dh_RP c).
Definition set_X X c := Dhm (dh_len c) (dh_P c) (dh_G c) X (dh_GX c) (dh_GY c) (dh_K c) (dh_RP c).
Definition set_GX GX c := Dhm (dh_len c) (dh_P c) (dh_G c) (dh_X c) GX (dh_GY c) (dh_K c) (dh_RP c).
Definition set_GY GY c := Dhm (dh_len c) (dh_P c) (dh_G c) (dh_X c) (dh_GX c) GY (dh_K c) (dh_RP c).
Definition set_K K c := Dhm (dh_len c) (dh_P c) (dh_G c) (dh_X c) (dh_GX c) (dh_GY c) K (dh_RP c).
Definition set_RP RP c := Dhm (dh_len c) (dh_P c) (dh_G c) (dh_X c) (dh_GX c) (dh_GY c) (dh_K c) RP.

Section Dhm.
Context {St : Type} {AL : Alloc St}.
Abbreviation P := (M St).

(** ** More of bignum.c *)

(** The limbs in a buffer of bytes, on a little-endian machine *)
Fixpoint le_limbs (n : nat) (buf : bytes) : list Z :=
  match n with
  | O => []
  | S n => le_value (take 8 buf) :: le_limbs n (drop 8 buf)
  end.

(** [mpi_fill_random] *)
Definition mpi_fill_random (rng : nat -> P (Z * bytes)) (X : mpi) (size : nat) : P (Z * mpi) :=
  chk (mpi_grow X size) id (fun X =>
  chk (mpi_lset X 0) id (fun X =>
  let! r := rng (length (mp_p X) * 8)%nat in
  ret (fst r, set_p X (le_limbs (length (mp_p X)) (snd r))))).

(** [mpi_get_digit]; no digit is the error. *)
Definition mpi_get_digit (radix c : Z) : option Z :=
  let d := 255 in
  let d := if (48 <=? c) && (c <=? 57) then c - 48 else d in
  let d := if (65 <=? c) && (c <=? 70) then c - 55 else d in
  let d := if (97 <=? c) && (c <=? 102) then c - 87 else d in
  if radix <=? d then None else Some d.

(** The loop of [mpi_read_string] for radix 16; [l] has the characters from the last. *)
Fixpoint read_hex (l : bytes) (j : nat) (X : mpi) : Z * mpi :=
  match l with
  | [] => (0, X)
  | c :: l' =>
      if (match l' with [] => true | _ => false end) && (c =? 45) then (0, set_s (-1) X) else
      match mpi_get_digit 16 c with
      | None => (POLARSSL_ERR_MPI_INVALID_CHARACTER, X)
      | Some d =>
          let p := mp_p X in
          read_hex l' (S j) (set_p X (<[(j / 16)%nat := Z.lor (limb p (j / 16)) (u64 (Z.shiftl d ((j mod 16) * 4)))]> p))
      end
  end.

(** [mpi_read_string( X, 16, s )] *)
Definition mpi_read_hex (X : mpi) (s : bytes) : P (Z * mpi) :=
  chk (mpi_grow X ((length s * 4 + 63) / 64)) id (fun X =>
  chk (mpi_lset X 0) id (fun X => ret (read_hex (reverse s) 0 X))).

(** The group of an exchange from its texts, as [get_public] of the library and
    [dhm_import_public] of the kernel read it *)
Definition read_group (ctx : dhm_context) (P G : bytes) : M St (Z * dhm_context) :=
  let! r := mpi_read_hex (dh_P ctx) P in
  let ctx := set_P (snd r) ctx in
  if truthy (fst r) then ret (-1, ctx) else
  let! r := mpi_read_hex (dh_G ctx) G in
  let ctx := set_G (snd r) ctx in
  if truthy (fst r) then ret (-1, ctx) else
  ret (0, ctx).

(** ** dhm.c *)

(** [dhm_read_bignum]: the status, the number and the rest of the buffer *)
Definition dhm_read_bignum (X : mpi) (buf : bytes) : P (Z * (mpi * bytes)) :=
  match buf with
  | h :: l :: buf =>
      let n := Z.to_nat (Z.lor (Z.shiftl h 8) l) in
      if (length buf <? n)%nat then ret (POLARSSL_ERR_DHM_BAD_INPUT_DATA, (X, buf)) else
      let! r := mpi_read_binary X (take n buf) in
      if truthy (fst r) then ret (POLARSSL_ERR_DHM_READ_PARAMS_FAILED + fst r, (snd r, buf)) else
      ret (0, (snd r, drop n buf))
  | _ => ret (POLARSSL_ERR_DHM_BAD_INPUT_DATA, (X, buf))
  end.

(** [dhm_check_range]; neither call is checked. *)
Definition dhm_check_range (public_param P : mpi) : M St Z :=
  let! L := mpi_lset mpi_init 2 in
  let! U := mpi_sub_int NoAlias mpi_init P 2 in
  let rc :=
    if (0 <=? mpi_cmp_mpi public_param (snd L)) && (mpi_cmp_mpi public_param (snd U) <=? 0) then 0
    else POLARSSL_ERR_DHM_BAD_INPUT_DATA in
  let! _ := mpi_free (snd L) in
  let! _ := mpi_free (snd U) in
  ret rc.

(** [dhm_read_params]: the status, the context and the rest of the buffer *)
Definition dhm_read_params (buf : bytes) : P (Z * (dhm_context * bytes)) :=
  let ctx := dhm_zero in
  chk (dhm_read_bignum (dh_P ctx) buf) (fun r => (set_P (fst r) ctx, snd r)) (fun '(X, buf) =>
  let ctx := set_P X ctx in
  chk (dhm_read_bignum (dh_G ctx) buf) (fun r => (set_G (fst r) ctx, snd r)) (fun '(X, buf) =>
  let ctx := set_G X ctx in
  chk (dhm_read_bignum (dh_GY ctx) buf) (fun r => (set_GY (fst r) ctx, snd r)) (fun '(X, buf) =>
  let ctx := set_GY X ctx in
  let! rc := dhm_check_range (dh_GY ctx) (dh_P ctx) in
  if truthy rc then ret (rc, (ctx, buf)) else
  let! len := mpi_size (dh_P ctx) in
  let ctx := set_len len ctx in
  match buf with
  | h :: l :: buf =>
      let n := Z.to_nat (Z.lor (Z.shiftl h 8) l) in
      if (length buf =? n)%nat then ret (0, (ctx, buf)) else ret (POLARSSL_ERR_DHM_BAD_INPUT_DATA, (ctx, buf))
  | _ => ret (POLARSSL_ERR_DHM_BAD_INPUT_DATA, (ctx, buf))
  end))).

(** [while( mpi_cmp_mpi( &ctx->X, &ctx->P ) >= 0 ) mpi_shift_r( &ctx->X, 1 );] *)
Fixpoint shrink_X (fuel : nat) (X P : mpi) : M St mpi :=
  if 0 <=? mpi_cmp_mpi X P then
    match fuel with
    | O => oops Hang
    | S fuel => let! r := mpi_shift_r X 1 in shrink_X fuel (snd r) P
    end
  else ret X.

(** The private number, and [GX = G^X mod P]; [mpi_fill_random] is not checked. *)
Definition dhm_make_X (longlong : bool) (fuel : nat) (rng : nat -> P (Z * bytes)) (ctx : dhm_context) (x_size : nat) : P (Z * dhm_context) :=
  let! r := mpi_fill_random rng (dh_X ctx) (x_size / 8 + 1) in
  let! X := shrink_X fuel (snd r) (dh_P ctx) in
  let ctx := set_X X ctx in
  let! r := mpi_exp_mod longlong fuel (dh_GX ctx) (dh_G ctx) (dh_X ctx) (dh_P ctx) (Some (dh_RP ctx)) in
  let '(rc, (GX, RP)) := r in
  ret (rc, set_RP (default (dh_RP ctx) RP) (set_GX GX ctx)).

(** [DHM_MPI_EXPORT]: two bytes of length and the number *)
Definition dhm_export (X : mpi) (n : nat) : P (Z * bytes) :=
  chk (mpi_write_binary X n) id (fun b => ret (0, u8 (Z.shiftr n 8) :: u8 n :: b)).

(** [dhm_make_params]: the status, the context and the output *)
Definition dhm_make_params (longlong : bool) (fuel : nat) (rng : nat -> P (Z * bytes)) (ctx : dhm_context) (x_size : nat)
  : P (Z * (dhm_context * bytes)) :=
  let! r := dhm_make_X longlong fuel rng ctx x_size in
  let '(rc, ctx) := r in
  if truthy rc then ret (POLARSSL_ERR_DHM_MAKE_PARAMS_FAILED + rc, (ctx, [])) else
  let! rc := dhm_check_range (dh_GX ctx) (dh_P ctx) in
  if truthy rc then ret (rc, (ctx, [])) else
  let! n1 := mpi_size (dh_P ctx) in
  let! n2 := mpi_size (dh_G ctx) in
  let! n3 := mpi_size (dh_GX ctx) in
  let! r :=
    chk (dhm_export (dh_P ctx) n1) id (fun b1 =>
    chk (dhm_export (dh_G ctx) n2) (app b1) (fun b2 =>
    chk (dhm_export (dh_GX ctx) n3) (app (b1 ++ b2)) (fun b3 => ret (0, b1 ++ b2 ++ b3)))) in
  if truthy (fst r) then ret (POLARSSL_ERR_DHM_MAKE_PARAMS_FAILED + fst r, (ctx, snd r)) else
  ret (0, (set_len n1 ctx, snd r)).

(** [dhm_read_public] *)
Definition dhm_read_public (ctx : dhm_context) (input : bytes) : P (Z * dhm_context) :=
  if (length input <? 1)%nat || (dh_len ctx <? length input)%nat then ret (POLARSSL_ERR_DHM_BAD_INPUT_DATA, ctx) else
  let! r := mpi_read_binary (dh_GY ctx) input in
  let ctx := set_GY (snd r) ctx in
  if truthy (fst r) then ret (POLARSSL_ERR_DHM_READ_PUBLIC_FAILED + fst r, ctx) else ret (0, ctx).

(** [dhm_make_public]: the status, the context and the output of [olen] bytes *)
Definition dhm_make_public (longlong : bool) (fuel : nat) (rng : nat -> P (Z * bytes)) (ctx : dhm_context) (x_size olen : nat)
  : P (Z * (dhm_context * bytes)) :=
  if (olen <? 1)%nat || (dh_len ctx <? olen)%nat then ret (POLARSSL_ERR_DHM_BAD_INPUT_DATA, (ctx, [])) else
  let! r := dhm_make_X longlong fuel rng ctx x_size in
  let '(rc, ctx) := r in
  if truthy rc then ret (POLARSSL_ERR_DHM_MAKE_PUBLIC_FAILED + rc, (ctx, [])) else
  let! rc := dhm_check_range (dh_GX ctx) (dh_P ctx) in
  if truthy rc then ret (rc, (ctx, [])) else
  let! r := mpi_write_binary (dh_GX ctx) olen in
  if truthy (fst r) then ret (POLARSSL_ERR_DHM_MAKE_PUBLIC_FAILED + fst r, (ctx, [])) else
  ret (0, (ctx, snd r)).

(** [K = GY^X mod P] *)
Definition dhm_exp_K (longlong : bool) (fuel : nat) (ctx : dhm_context) : P (Z * dhm_context) :=
  let! r := mpi_exp_mod longlong fuel (dh_K ctx) (dh_GY ctx) (dh_X ctx) (dh_P ctx) (Some (dh_RP ctx)) in
  let '(rc, (K, RP)) := r in
  ret (rc, set_RP (default (dh_RP ctx) RP) (set_K K ctx)).

(** [dhm_calc_secret_no_export] *)
Definition dhm_calc_secret_no_export (longlong : bool) (fuel : nat) (ctx : dhm_context) : P (Z * dhm_context) :=
  let! r := dhm_exp_K longlong fuel ctx in
  let '(rc, ctx) := r in
  if truthy rc then ret (POLARSSL_ERR_DHM_CALC_SECRET_FAILED + rc, ctx) else
  let! rc := dhm_check_range (dh_GY ctx) (dh_P ctx) in
  ret (rc, ctx).

(** [dhm_calc_secret]: the status, the context and the output; [olen] is the room. *)
Definition dhm_calc_secret (longlong : bool) (fuel : nat) (ctx : dhm_context) (olen : nat) : P (Z * (dhm_context * bytes)) :=
  if (olen <? dh_len ctx)%nat then ret (POLARSSL_ERR_DHM_BAD_INPUT_DATA, (ctx, [])) else
  let! r := dhm_exp_K longlong fuel ctx in
  let '(rc, ctx) := r in
  if truthy rc then ret (POLARSSL_ERR_DHM_CALC_SECRET_FAILED + rc, (ctx, [])) else
  let! rc := dhm_check_range (dh_GY ctx) (dh_P ctx) in
  if truthy rc then ret (rc, (ctx, [])) else
  let! n := mpi_size (dh_K ctx) in
  let! r := mpi_write_binary (dh_K ctx) n in
  if truthy (fst r) then ret (POLARSSL_ERR_DHM_CALC_SECRET_FAILED + fst r, (ctx, [])) else
  ret (0, (ctx, snd r)).

(** [dhm_free] *)
Definition dhm_free (ctx : dhm_context) : P unit :=
  let! _ := mpi_free (dh_RP ctx) in
  let! _ := mpi_free (dh_K ctx) in
  let! _ := mpi_free (dh_GY ctx) in
  let! _ := mpi_free (dh_GX ctx) in
  let! _ := mpi_free (dh_X ctx) in
  let! _ := mpi_free (dh_G ctx) in
  let! _ := mpi_free (dh_P ctx) in
  ret tt.
End Dhm.

(** ** Numbers *)

(** [X] holds [v], which is not negative. *)
Definition num (v : Z) (X : mpi) : Prop := mp_s X = 1 /\ mp_p X <> [] /\ limbs_ok (mp_p X) /\ lval (mp_p X) = v.

(** Few enough limbs for the intermediate results of [mpi_exp_mod] *)
Definition short (X : mpi) : Prop := Z.of_nat (length (mp_p X)) <= 4998.

Lemma num_nonneg v X : num v X -> 0 <= v.
Proof. intros (_ & _ & Hok & <-). apply lval_bound, Hok. Qed.

Lemma holds_num v n X : holds 1 v n X -> (0 < n)%nat -> num v X /\ length (mp_p X) = n.
Proof. intros (Hs & Hok & Hv & Hn) H. split; [|done]. split_and!; try done. apply length_nonnil. lia. Qed.

Lemma num_cmp v w X Y : num v X -> num w Y -> mpi_cmp_mpi X Y = Z.sgn (v - w).
Proof. intros (? & _ & ? & <-) (? & _ & ? & <-). by apply mpi_cmp_mpi_pos. Qed.

Lemma sgn_ge a b : (0 <=? Z.sgn (a - b)) = (b <=? a).
Proof. apply eq_true_iff_eq. rewrite !Z.leb_le, Z.sgn_nonneg. lia. Qed.

Lemma sgn_le a b : (Z.sgn (a - b) <=? 0) = (a <=? b).
Proof. apply eq_true_iff_eq. rewrite !Z.leb_le, Z.sgn_nonpos. lia. Qed.

Lemma length_le_limbs n buf : length (le_limbs n buf) = n.
Proof. revert buf. induction n; intros; cbn; auto. Qed.

Lemma le_value_range l : bytes_ok l -> 0 <= le_value l < 256 ^ length l.
Proof.
  induction 1 as [|b l Hb Hl IH]; [done|]. cbn [le_value length]. rewrite Nat2Z.inj_succ, Z.pow_succ_r by lia. unfold byte_ok in Hb. lia.
Qed.

Lemma limbs_ok_le n buf : bytes_ok buf -> limbs_ok (le_limbs n buf).
Proof.
  revert buf. induction n as [|n IH]; intros buf Hb; [constructor|]. cbn [le_limbs].
  assert (bytes_ok (take 8 buf) /\ bytes_ok (drop 8 buf)) as [H1 H2] by (split; [by apply Forall_take|by apply Forall_drop]).
  constructor; [|by apply IH]. pose proof (le_value_range _ H1) as Hr. pose proof (length_take buf 8).
  assert (256 ^ length (take 8 buf) <= 256 ^ 8) by (apply Z.pow_le_mono_r; lia). unfold limb_ok. change LB with (256 ^ 8). lia.
Qed.

(** Both sides compute one number. *)
Lemma dh_shared p g x y : 0 < p -> 0 <= x -> 0 <= y -> (g ^ x mod p) ^ y mod p = (g ^ y mod p) ^ x mod p.
Proof. intros Hp Hx Hy. rewrite <- !Zpower_mod by lia. by rewrite <- !Z.pow_mul_r, Z.mul_comm by lia. Qed.

(** ** Hexadecimal text *)

(** The number of a text, from its last digit *)
Fixpoint hex_le (l : bytes) : option Z :=
  match l with
  | [] => Some 0
  | c :: l =>
      match mpi_get_digit 16 c, hex_le l with
      | Some d, Some v => Some (d + 16 * v)
      | _, _ => None
      end
  end.
Definition hex_value (s : bytes) : option Z := hex_le (reverse s).

Lemma get_digit_range c d : mpi_get_digit 16 c = Some d -> 0 <= d < 16.
Proof. unfold mpi_get_digit. cbv zeta. repeat case_match; intros E; simplify_eq; lia. Qed.

Lemma hex_index (j : nat) : 16 ^ Z.of_nat j = LBn (j / 16) * 2 ^ Z.of_nat (j mod 16 * 4).
Proof.
  rewrite LBn_bits, <- Z.pow_add_r by lia. change 16 with (2 ^ 4). rewrite <- Z.pow_mul_r by lia. f_equal.
  pose proof (Nat.div_mod_eq j 16). lia.
Qed.

Lemma read_hex_spec l j X v : hex_le l = Some v -> limbs_ok (mp_p X) -> (j + length l <= 16 * length (mp_p X))%nat ->
  lval (mp_p X) < 16 ^ Z.of_nat j ->
  exists p, read_hex l j X = (0, set_p X p) /\ length p = length (mp_p X) /\ limbs_ok p /\ lval p = lval (mp_p X) + 16 ^ Z.of_nat j * v.
Proof.
  revert j X v. induction l as [|c l IH]; intros j X v E Hp Hn Hv; cbn [read_hex hex_le length] in *.
  { injection E as <-. exists (mp_p X). split_and!; try done; [by destruct X|lia]. }
  destruct (mpi_get_digit 16 c) as [d|] eqn:Ed; [|done]. destruct (hex_le l) as [v'|]; [|done]. injection E as <-.
  pose proof (get_digit_range _ _ Ed). replace (_ && (c =? 45)) with false.
  2: { destruct (Z.eqb_spec c 45) as [->|]; [done|]. by rewrite andb_false_r. }
  pose proof (Nat.div_mod_eq j 16). pose proof (Nat.mod_upper_bound j 16 ltac:(lia)). rewrite hex_index in Hv.
  replace (Z.of_nat j mod 16 * 4) with (Z.of_nat (j mod 16 * 4)) by (rewrite Nat2Z.inj_mul, Nat2Z.inj_mod; lia).
  destruct (put_digit_spec (mp_p X) (j / 16) (j mod 16 * 4) 4 d) as (Lp & Op & Vp); [done|lia..|done|].
  rewrite <- hex_index in Hv, Vp. set (p' := <[_:=_]> (mp_p X)) in *.
  destruct (IH (S j) (set_p X p') v' eq_refl Op) as (p & -> & L & O & V); cbn [set_p mp_p] in *; [lia| |].
  { rewrite Vp, Nat2Z.inj_succ, Z.pow_succ_r by lia. nia. }
  exists p. split_and!; try done; [by rewrite L|]. rewrite V, Vp, Nat2Z.inj_succ, Z.pow_succ_r by lia. ring.
Qed.

Section DhmFacts.
Context {St : Type} {AL : Alloc St} {LA : AllocLaws AL}.

Lemma mpi_size_fine v X : num v X -> fine (St:=St) (fun n => n = zbytes v) (mpi_size X).
Proof. intros (_ & Hne & Hok & <-) s Hs. eapply wp_done; [by apply mpi_size_run|]. split; [reflexivity|done]. Qed.

Lemma mpi_write_binary_fine v X n : num v X -> (zbytes v <= n)%nat ->
  fine (St:=St) (ok0 (fun b => b = be_bytes n v)) (mpi_write_binary X n).
Proof.
  intros (_ & Hne & Hok & <-) Hn s Hs. eapply wp_done; [by apply mpi_write_binary_run|].
  replace (n <? _)%nat with false by (symmetry; apply Nat.ltb_ge; lia). split; [reflexivity|done].
Qed.

Lemma mpi_read_hex_fine X str v : hex_value str = Some v -> (length (mp_p X) <= (length str * 4 + 63) / 64)%nat ->
  Z.of_nat (length str) <= 16 * 4998 ->
  fine (St:=St) (ok0 (fun Y => num v Y /\ short Y)) (mpi_read_hex X str).
Proof.
  intros E HX Hl. unfold mpi_read_hex. set (n := ((length str * 4 + 63) / 64)%nat) in *.
  pose proof (Nat.div_mod_eq (length str * 4 + 63) 64) as Hdm. pose proof (Nat.mod_upper_bound (length str * 4 + 63) 64 ltac:(lia)).
  fold n in Hdm. eapply fine_chk; [apply good_fine, mpi_grow_good; rewrite MAX_LIMBS_Z; lia|]. intros X1 [_ E1].
  eapply fine_chk; [apply good_fine, mpi_lset_good; done|]. intros X2 (S2 & O2 & V2 & L2). apply fine_ret.
  assert (L : length (mp_p X2) = Nat.max n 1) by (rewrite L2, E1, length_app, length_zeros; lia).
  destruct (read_hex_spec (reverse str) 0 X2 v E O2) as (q & -> & Lq & Oq & Vq); [rewrite length_reverse; lia|rewrite V2; done|].
  rewrite V2 in Vq. change (16 ^ Z.of_nat 0) with 1 in Vq. split; [done|]. unfold num, short. cbn [snd set_p mp_s mp_p].
  split_and!; try done; [apply length_nonnil; lia|lia|lia].
Qed.

(** A range check that nobody's allocation spoils *)
Definition range_ok (p v : Z) : bool := (2 <=? v) && (v <=? p - 2).

(** The comparison with a number that is not positive; only then does its sign count. *)
Lemma cmp_neg v X U : num v X -> 0 < v -> mp_s U = -1 -> limbs_ok (mp_p U) -> lval (mp_p U) < LB -> mpi_cmp_mpi X U = 1.
Proof.
  intros (SX & _ & OX & VX) Hv SU OU HU. unfold mpi_cmp_mpi. fold (sig (mp_p X)) (sig (mp_p U)). rewrite SX, SU.
  destruct (sig (mp_p X)) as [|i] eqn:Ei; [rewrite sig_0 in VX by done; lia|]. cbn [Nat.eqb andb].
  destruct (sig (mp_p U)) as [|[|j]] eqn:Ej; [done| |].
  - destruct (Nat.ltb_spec 1 (S i)); [done|]. destruct (Nat.ltb_spec (S i) 1); [lia|done].
  - exfalso. pose proof (used_bound _ _ OU Ej) as Hb. rewrite LBn_S in Hb. pose proof (LBn_pos j). unfold LB in *. nia.
Qed.

Lemma dhm_check_range_runs X P v p : num v X -> num p P -> Z.of_nat (length (mp_p P)) <= 9998 ->
  fine (St:=St) (fun rc => rc = if range_ok p v then 0 else POLARSSL_ERR_DHM_BAD_INPUT_DATA) (dhm_check_range X P).
Proof.
  intros HX HP Hsh. pose proof (num_nonneg _ _ HP) as Hp0. unfold dhm_check_range.
  eapply fine_unchecked; [apply mpi_lset_good; unfold LB; lia|]. intros L HL. apply holds_num in HL as [HL _]; [|lia].
  change (Z.abs 2) with 2 in HL. destruct HP as (SP & NP & OP & VP). pose proof (sig_le (mp_p P)).
  pose proof (nonnil_length _ NP). eapply fine_unchecked.
  { apply (mpi_sub_mpi_good NoAlias mpi_init P (of_sint 2) (length (mp_p P))); [unfold POLARSSL_MPI_MAX_LIMBS; lia|cbn; lia|done|..].
    - split_and!; try done. by left.
    - split_and!; [by left|done|by repeat constructor|]. etransitivity; [apply sig_le|]. cbn [of_sint mp_p length]. lia. }
  intros U (SU & NU & OU & VU). cbn [snd]. unfold ival in VU. rewrite SP, VP in VU. change (mp_s (of_sint 2)) with 1 in VU.
  change (lval (mp_p (of_sint 2))) with 2 in VU. pose proof (lval_bound _ OU).
  assert (Ec : (0 <=? mpi_cmp_mpi X (snd (0, L))) && (mpi_cmp_mpi X U <=? 0) = range_ok p v).
  { unfold range_ok. cbn [snd]. rewrite (num_cmp v 2), sgn_ge by done. destruct (Z.leb_spec 2 v); [|done].
    destruct SU as [SU|SU]; rewrite SU in VU; cbn [andb].
    - rewrite (num_cmp v (p - 2)), sgn_le; [done|done|]. split_and!; try done. lia.
    - rewrite (cmp_neg v) by (done || lia || unfold LB; lia). symmetry. apply Z.leb_gt. lia. }
  cbn [snd] in Ec. rewrite Ec.
  eapply fine_bind; [apply calm_fine, mpi_free_calm|]. intros _ _. eapply fine_bind; [apply calm_fine, mpi_free_calm|]. intros _ _.
  by apply fine_ret.
Qed.

Lemma dhm_check_range_fine X P v p : num v X -> num p P -> short P ->
  fine (St:=St) (fun rc => rc = if range_ok p v then 0 else POLARSSL_ERR_DHM_BAD_INPUT_DATA) (dhm_check_range X P).
Proof. intros HX HP Hsh. apply dhm_check_range_runs; [done..|]. unfold short in Hsh. lia. Qed.

(** ** The private number *)

(** A source of random bytes that does not fail and gives numbers of [n] limbs in [V n] *)
Definition rng_ok (V : nat -> Z -> Prop) (rng : nat -> M St (Z * bytes)) : Prop :=
  forall n, fine (fun r => fst r = 0 /\ length (snd r) = n /\ bytes_ok (snd r) /\ V (n / 8)%nat (lval (le_limbs (n / 8) (snd r)))) (rng n).

Lemma mpi_fill_random_fine V rng X size : rng_ok V rng -> Z.of_nat size <= POLARSSL_MPI_MAX_LIMBS ->
  fine (ok0 (fun X' => exists x, V (length (mp_p X')) x /\ num x X' /\ length (mp_p X') = Nat.max (Nat.max (length (mp_p X)) size) 1)) (mpi_fill_random rng X size).
Proof.
  intros Hr Hs. eapply fine_chk; [by apply good_fine, mpi_grow_good|]. intros X1 [_ E1].
  eapply fine_chk; [apply good_fine, mpi_lset_good; done|]. intros X2 (S2 & _ & _ & L2). cbn in S2.
  assert (L : length (mp_p X2) = Nat.max (Nat.max (length (mp_p X)) size) 1) by (rewrite L2, E1, length_app, length_zeros; lia).
  eapply fine_bind; [apply Hr|]. intros [rc b] (E & _ & Hb & HV). cbn [fst snd] in *. subst rc. rewrite Nat.div_mul in HV by lia.
  apply fine_ret. split; [done|]. cbn [snd].
  exists (lval (le_limbs (length (mp_p X2)) b)). unfold num. cbn [set_p mp_s mp_p]. rewrite length_le_limbs. split_and!; try done.
  - apply length_nonnil. rewrite length_le_limbs. lia.
  - by apply limbs_ok_le.
Qed.

(** [x0] without as many low bits as it takes to come below [p] *)
Definition shrunk (p x0 x : Z) : Prop :=
  x < p /\ exists k : nat, x = x0 / 2 ^ k /\ forall j : nat, (j < k)%nat -> p <= x0 / 2 ^ j.

Lemma shrunk_unique p x0 x y : shrunk p x0 x -> shrunk p x0 y -> x = y.
Proof.
  intros (Hx & k & -> & Hk) (Hy & j & -> & Hj). destruct (Nat.lt_trichotomy k j) as [H|[-> |H]]; [|done|].
  - specialize (Hj _ H). lia.
  - specialize (Hk _ H). lia.
Qed.

Lemma shrink_X_fine fuel : forall X P x p, num x X -> num p P -> 0 < p -> x < 2 ^ Z.of_nat fuel ->
  fine (St:=St) (fun X' => exists x', num x' X' /\ shrunk p x x') (shrink_X fuel X P).
Proof.
  induction fuel as [|fuel IH]; intros X P x p HX HP Hp Hx; cbn [shrink_X]; rewrite (num_cmp x p), sgn_ge by done;
    destruct (Z.leb_spec p x) as [H|H].
  1: change (2 ^ Z.of_nat 0) with 1 in Hx; lia.
  1, 3: apply fine_ret; exists x; split; [done|]; split; [lia|]; exists 0%nat; split; [by rewrite Z.div_1_r|lia].
  pose proof HX as (SX & NX & OX & VX).
  eapply fine_unchecked; [apply mpi_shift_r_good; [done|cbn; lia]|]. intros X1 H1. rewrite SX in H1.
  apply holds_num in H1 as [H1 _]; [|by apply nonnil_length]. rewrite VX in H1. change (2 ^ Z.of_nat 1) with 2 in H1.
  rewrite Nat2Z.inj_succ, Z.pow_succ_r in Hx by lia.
  eapply fine_mono; [|eapply IH; [exact H1|done..|apply Z.div_lt_upper_bound; lia]].
  intros X' (x' & Hx' & Hlt & k & -> & Hk). eexists. split; [exact Hx'|]. split; [done|].
  assert (E : forall j : nat, x / 2 / 2 ^ j = x / 2 ^ (S j)%nat) by (intros j; rewrite Nat2Z.inj_succ, Z.pow_succ_r, Z.div_div by lia; done).
  exists (S k). split; [apply E|]. intros [|j] Hj; [by rewrite Z.div_1_r|]. rewrite <- E. apply Hk. lia.
Qed.

(** Without memory for the private number nothing brings it below the modulus: the structure
    is still cleared, and the comparison with its sign 0 says "equal". *)
Lemma shrink_X_hangs fuel P (s : St) : shrink_X fuel mpi_zeroed P s = Oops Hang.
Proof.
  assert (E : (0 <=? mpi_cmp_mpi mpi_zeroed P) = true) by (unfold mpi_cmp_mpi; cbn; by destruct (used _ _)).
  induction fuel as [|fuel IH]; cbn [shrink_X]; rewrite E; [done|]. unfold bind. by rewrite <- IH.
Qed.

(** The contexts [dhm_read_params] leaves have no private number yet. *)
Lemma wp_anything {A} (m : M St A) (Q : A -> St -> Prop) s : (forall a s', Q a s') -> wp (fun _ => True) m Q s.
Proof. intros H. unfold wp. by destruct (m s) as [[a s']|]. Qed.

Lemma mpi_size_same X (s s' s1 : St) n : mpi_size X s = Done (n, s1) -> mpi_size X s' = Done (n, s').
Proof. unfold mpi_size, mpi_msb, bind, ret. destruct (length _); [done|]. congruence. Qed.

Definition unused (r : Z * (dhm_context * bytes)) : Prop :=
  dh_X (fst (snd r)) = mpi_zeroed /\ (fst r = 0 -> forall s : St, mpi_size (dh_P (fst (snd r))) s = Done (dh_len (fst (snd r)), s)).

Lemma dhm_read_params_unused buf s : wp (fun _ => True) (dhm_read_params buf) (fun r _ => unused r) s.
Proof.
  unfold dhm_read_params. unfold chk at 1. wp_bind. apply wp_anything. intros [rc [P b]] s1. cbn [fst snd].
  destruct (truthy rc) eqn:E1; [wp_pure; by split; [|cbn; intros ->]|]. unfold chk at 1. wp_bind. apply wp_anything. intros [rc2 [G b2]] s2. cbn [fst snd].
  destruct (truthy rc2) eqn:E2; [wp_pure; by split; [|cbn; intros ->]|]. unfold chk at 1. wp_bind. apply wp_anything. intros [rc3 [Y b3]] s3. cbn [fst snd].
  destruct (truthy rc3) eqn:E3; [wp_pure; by split; [|cbn; intros ->]|]. wp_bind. apply wp_anything. intros rc4 s4.
  destruct (truthy rc4) eqn:E4; [wp_pure; by split; [|cbn; intros ->]|]. wp_bind. unfold wp at 1.
  destruct (mpi_size _ s4) as [[n s5]|] eqn:En; [|done].
  assert (H : forall rc b, unused (rc, (set_len n (set_GY Y (set_G G (set_P P dhm_zero))), b))).
  { intros rc' b'. split; [done|]. intros _ s6. by apply (mpi_size_same _ s4 _ s5). }
  destruct b3 as [|h [|l b3]]; [wp_pure; apply H..|]. destruct (length b3 =? _)%nat; wp_pure; apply H.
Qed.

(** ** One side of an exchange *)

(** A modulus the code can work with: odd, not too long, with a top limb that does not
    make the kernel's division wrap around; [fuel] covers the loop that brings the private
    number below it. *)
Record modulus (longlong : bool) (fuel : nat) (p : Z) : Prop := {
  mo_p : 3 <= p;
  mo_odd : Z.odd p = true;
  mo_safe : safe longlong (top_limb p);
  mo_size : Z.of_nat (zbytes p) <= 8 * 4998;
  mo_fuel : (64 * (zbytes p / 8 + 1) <= fuel)%nat;
}.

Definition modulus_check (longlong : bool) (fuel : nat) (p : Z) : bool :=
  (3 <=? p) && Z.odd p && (longlong || (top_limb p mod 2 ^ 32 <? 2 ^ 32 - 2)) && (Z.of_nat (zbytes p) <=? 8 * 4998) &&
  (64 * (zbytes p / 8 + 1) <=? fuel)%nat.

Lemma modulus_checked longlong fuel p : modulus_check longlong fuel p = true -> modulus longlong fuel p.
Proof.
  unfold modulus_check. rewrite !andb_true_iff, Nat.leb_le, !Z.leb_le. intros [[[[H1 H2] H3] H4] H5]. split; try done.
  destruct longlong; [by left|]. right. cbn [orb] in H3. unfold no_wrap. lia.
Qed.

Section Side.
Variables (longlong : bool) (fuel : nat) (V : nat -> Z -> Prop) (rng : nat -> M St (Z * bytes)) (p g : Z).
Hypothesis Hmod : modulus longlong fuel p.
Hypothesis Hrng : rng_ok V rng.
Let Hp := mo_p _ _ _ Hmod.
Let Hodd := mo_odd _ _ _ Hmod.
Let Hsafe := mo_safe _ _ _ Hmod.
Let Hsize := mo_size _ _ _ Hmod.
Let Hfuel := mo_fuel _ _ _ Hmod.

Lemma fuel_6 : (6 <= fuel)%nat.
Proof. lia. Qed.

(** A context with its parameters *)
Record params (c : dhm_context) : Prop := {
  pm_P : num p (dh_P c); pm_P_short : short (dh_P c);
  pm_G : num g (dh_G c); pm_G_short : short (dh_G c);
  pm_RP : valid_RP (dh_P c) (Some (dh_RP c));
}.

(** ... and with its private number *)
Record private (x : Z) (c : dhm_context) : Prop := {
  pv_params : params c; pv_X : num x (dh_X c); pv_range : 0 <= x < p; pv_GX : num (g ^ x mod p) (dh_GX c);
}.

Lemma read_group_fine Ps Gs : hex_value Ps = Some p -> hex_value Gs = Some g ->
  Z.of_nat (length Ps) <= 16 * 4998 -> Z.of_nat (length Gs) <= 16 * 4998 ->
  fine (St := St) (ok0 (fun c => params c /\ dh_X c = mpi_zeroed /\ dh_GY c = mpi_zeroed)) (read_group dhm_zero Ps Gs).
Proof.
  clear Hmod Hrng Hp Hodd Hsafe Hsize Hfuel. intros HP HG HPl HGl. unfold read_group. eapply fine_bind; [apply (mpi_read_hex_fine _ _ p); [done|cbn; lia|done]|]. intros [rc P] [E [H1 H2]].
  cbn [fst snd] in *. subst rc. change (truthy 0) with false. cbn iota.
  eapply fine_bind; [apply (mpi_read_hex_fine _ _ g); [done|cbn; lia|done]|]. intros [rc G] [E [H3 H4]].
  cbn [fst snd] in *. subst rc. apply fine_ret. split; [done|]. cbn [fst snd]. by split_and!; [split|..].
Qed.

(** Private numbers that come from [V] *)
Definition drawn (x : Z) : Prop := exists x0, V (zbytes p / 8 + 1)%nat x0 /\ shrunk p x0 x.

(** [mpi_exp_mod] into a field of the context *)
Lemma exp_mod_fine {C} (Q : C -> Prop) c X A a E e (k : Z * (mpi * option mpi) -> M St C) :
  params c -> num a A -> short A -> num e E ->
  (forall Y RP, num (a ^ e mod p) Y -> valid_RP (dh_P c) (Some RP) -> fine Q (k (0, (Y, Some RP)))) ->
  fine Q (let! r := mpi_exp_mod longlong fuel X A E (dh_P c) (Some (dh_RP c)) in k r).
Proof.
  intros [(SP & NP & OP & VP) Psh _ _ HRP] (SA & NA & OA & VA) Ash (SE & NE & OE & VE) Hk. unfold short in *.
  assert (exists big, Z.of_nat big = 9998) as [big Hbig] by (exists (Z.to_nat 9998); apply Z2Nat.id; lia). eapply fine_bind.
  - apply (mpi_exp_mod_fine longlong fuel X A E (dh_P c) (Some (dh_RP c)) big); try assumption;
      [apply fuel_6|by rewrite VP|lia|lia|rewrite MAX_LIMBS_Z; lia|by rewrite VP].
  - intros [rc [Y RP']] [E0 (SY & NY & OY & VY & R & ER & HR)]. cbn [fst snd] in *. subst rc RP'. apply Hk; [|by intros _].
    rewrite VA, VE, VP in VY. by split_and!.
Qed.

Lemma dhm_make_X_fine c : params c -> (length (mp_p (dh_X c)) <= zbytes p / 8 + 1)%nat ->
  fine (ok0 (fun c' => dh_len c' = dh_len c /\ dh_GY c' = dh_GY c /\ dh_K c' = dh_K c /\ exists x, drawn x /\ private x c'))
    (dhm_make_X longlong fuel rng c (zbytes p)).
Proof.
  intros Hc HX. unfold dhm_make_X. eapply fine_bind.
  { apply mpi_fill_random_fine; [done|]. rewrite MAX_LIMBS_Z. pose proof (Nat.div_mod_eq (zbytes p) 8). lia. }
  intros [rc X] [E (x & Vx & Hx & Lx)]. cbn [fst snd] in *.
  replace (length (mp_p X)) with (zbytes p / 8 + 1)%nat in Vx by lia. eapply fine_bind.
  { eapply shrink_X_fine; [exact Hx|apply Hc|lia|]. destruct Hx as (_ & _ & OX & <-). pose proof (lval_bound _ OX) as Hb.
    rewrite LBn_bits in Hb. eapply Z.lt_le_trans; [apply Hb|]. apply Z.pow_le_mono_r; lia. }
  intros X' (x' & Hx' & Hsh). pose proof (num_nonneg _ _ Hx'). pose proof (proj1 Hsh). cbn [set_X dh_X dh_GX dh_G dh_P dh_RP].
  apply (exp_mod_fine _ c _ _ g _ x'); [done|apply Hc|apply Hc|done|]. intros Y RP HY HR. apply fine_ret.
  split; [done|]. cbn [snd default set_RP set_GX dh_len dh_GY dh_K set_X]. split_and!; try done. exists x'. split; [by exists x|].
  split; [|done|lia|done]. destruct Hc. by split.
Qed.

(** The numbers as the messages have them *)
Definition exported (v : Z) : bytes := be_bytes 2 (zbytes v) ++ be_bytes (zbytes v) v.

Lemma dhm_export_fine v X : num v X -> fine (St:=St) (ok0 (fun b => b = exported v)) (dhm_export X (zbytes v)).
Proof.
  intros HX. eapply fine_chk; [by apply mpi_write_binary_fine|]. intros b ->. apply fine_ret. split; [done|]. cbn [snd].
  unfold exported. cbn [be_bytes app]. unfold u8. rewrite Z.shiftr_div_pow2 by lia. done.
Qed.

Lemma dhm_make_params_fine c : params c -> (length (mp_p (dh_X c)) <= zbytes p / 8 + 1)%nat ->
  fine (fun r => exists x, drawn x /\ private x (fst (snd r)) /\ dh_GY (fst (snd r)) = dh_GY c /\
    let gx := g ^ x mod p in
    if range_ok p gx then fst r = 0 /\ dh_len (fst (snd r)) = zbytes p /\ snd (snd r) = exported p ++ exported g ++ exported gx
    else fst r = POLARSSL_ERR_DHM_BAD_INPUT_DATA /\ snd (snd r) = []) (dhm_make_params longlong fuel rng c (zbytes p)).
Proof.
  intros Hc HX. unfold dhm_make_params. eapply fine_bind; [by apply dhm_make_X_fine|].
  intros [rc c1] [E (L1 & GY1 & K1 & x & Dx & [H1 X1 R1 GX1])]. cbn [fst snd] in *. subst rc. change (truthy 0) with false. cbn iota.
  assert (Hv : private x c1) by done. destruct H1 as [HP HPs HG HGs HRP].
  eapply fine_bind; [by apply (dhm_check_range_fine _ _ (g ^ x mod p) p)|]. intros rc ->.
  destruct (range_ok p (g ^ x mod p)) eqn:ER; [|apply fine_ret; exists x; cbn [fst snd]; by rewrite ER].
  change (truthy 0) with false. cbn iota.
  eapply fine_bind; [by apply mpi_size_fine|]. intros ? ->. eapply fine_bind; [by apply mpi_size_fine|]. intros ? ->.
  eapply fine_bind; [by apply mpi_size_fine|]. intros ? ->.
  apply (fine_bind (ok0 (fun b => b = exported p ++ exported g ++ exported (g ^ x mod p)))).
  - eapply fine_chk; [by apply dhm_export_fine|]. intros ? ->. eapply fine_chk; [by apply dhm_export_fine|]. intros ? ->.
    eapply fine_chk; [by apply dhm_export_fine|]. intros ? ->. by apply fine_ret.
  - intros [rc b] [E ->]. cbn [fst snd] in *. subst rc. apply fine_ret. exists x. cbn [fst snd]. rewrite ER. by destruct Hv as [[] ? ? ?].
Qed.

Lemma dhm_make_public_fine c : params c -> (length (mp_p (dh_X c)) <= zbytes p / 8 + 1)%nat -> dh_len c = zbytes p ->
  fine (fun r => exists x, drawn x /\ private x (fst (snd r)) /\ dh_GY (fst (snd r)) = dh_GY c /\ dh_len (fst (snd r)) = zbytes p /\
    let gx := g ^ x mod p in
    if range_ok p gx then fst r = 0 /\ snd (snd r) = be_bytes (zbytes p) gx
    else fst r = POLARSSL_ERR_DHM_BAD_INPUT_DATA) (dhm_make_public longlong fuel rng c (zbytes p) (zbytes p)).
Proof.
  intros Hc HX Hl. unfold dhm_make_public. pose proof (zbytes_pos p ltac:(lia)) as Hz.
  rewrite Hl. replace ((zbytes p <? 1)%nat || (zbytes p <? zbytes p)%nat) with false
    by (symmetry; apply orb_false_intro; apply Nat.ltb_ge; lia).
  eapply fine_bind; [by apply dhm_make_X_fine|].
  intros [rc c1] [E (L1 & GY1 & K1 & x & Dx & [H1 X1 R1 GX1])]. cbn [fst snd] in *. subst rc. change (truthy 0) with false. cbn iota.
  assert (Hv : private x c1) by done. destruct H1 as [HP HPs HG HGs HRP].
  eapply fine_bind; [by apply (dhm_check_range_fine _ _ (g ^ x mod p) p)|]. intros rc ->.
  destruct (range_ok p (g ^ x mod p)) eqn:ER; [|apply fine_ret; exists x; cbn [fst snd]; rewrite ER, L1; done].
  change (truthy 0) with false. cbn iota. pose proof (Z.mod_pos_bound (g ^ x) p ltac:(lia)).
  eapply fine_bind; [apply (mpi_write_binary_fine (g ^ x mod p)); [done|]|].
  { pose proof (zbytes_mono (g ^ x mod p) p). lia. }
  intros [rc b] [E ->]. cbn [fst snd] in *. subst rc. apply fine_ret. exists x. cbn [fst snd]. rewrite ER, L1. done.
Qed.

(** ** The other side's number *)

Lemma dhm_exp_K_fine x y c : private x c -> num y (dh_GY c) -> short (dh_GY c) ->
  fine (ok0 (fun c' => private x c' /\ num (y ^ x mod p) (dh_K c') /\ dh_GY c' = dh_GY c /\ dh_len c' = dh_len c)) (dhm_exp_K longlong fuel c).
Proof.
  intros [Hc HX Hr HGX] HY HYs. unfold dhm_exp_K. apply (exp_mod_fine _ c _ _ y _ x); try done. intros Y RP H1 H2. apply fine_ret.
  split; [done|]. cbn [snd default set_RP set_K dh_len dh_GY dh_K]. split_and!; try done. destruct Hc. by split; [split|..].
Qed.

Lemma dhm_calc_secret_no_export_fine x y c : private x c -> num y (dh_GY c) -> short (dh_GY c) -> range_ok p y = true ->
  fine (ok0 (fun c' => private x c' /\ num (y ^ x mod p) (dh_K c') /\ dh_len c' = dh_len c)) (dhm_calc_secret_no_export longlong fuel c).
Proof.
  intros Hc HY HYs ER. eapply fine_bind; [by apply dhm_exp_K_fine|]. intros [rc c1] [E (Hc1 & HK & EY & EL)]. cbn [fst snd] in *. subst rc.
  change (truthy 0) with false. cbn iota. destruct Hc1 as [[] ? ? ?].
  eapply fine_bind; [apply (dhm_check_range_fine _ _ y p); [by rewrite EY|done..]|]. intros rc ->. rewrite ER. apply fine_ret. split; [done|]. split_and!; [by split; [split|..]|done..].
Qed.

Lemma dhm_calc_secret_fine x y c olen : private x c -> num y (dh_GY c) -> short (dh_GY c) -> range_ok p y = true -> dh_len c = zbytes p ->
  fine (fun r => if (olen <? zbytes p)%nat then fst r = POLARSSL_ERR_DHM_BAD_INPUT_DATA else
    fst r = 0 /\ num (y ^ x mod p) (dh_K (fst (snd r))) /\ snd (snd r) = be_bytes (zbytes (y ^ x mod p)) (y ^ x mod p))
    (dhm_calc_secret longlong fuel c olen).
Proof.
  intros Hc HY HYs ER Hl. unfold dhm_calc_secret. rewrite Hl. destruct (olen <? zbytes p)%nat; [by apply fine_ret|].
  eapply fine_bind; [by apply dhm_exp_K_fine|]. intros [rc c1] [E (Hc1 & HK & EY & EL)]. cbn [fst snd] in *. subst rc.
  change (truthy 0) with false. cbn iota. destruct Hc1 as [[] ? ? ?].
  eapply fine_bind; [apply (dhm_check_range_fine _ _ y p); [by rewrite EY|done..]|]. intros rc ->. rewrite ER.
  change (truthy 0) with false. cbn iota. eapply fine_bind; [by apply mpi_size_fine|]. intros ? ->.
  eapply fine_bind; [by apply mpi_write_binary_fine|]. intros [rc b] [E ->]. cbn [fst snd] in *. subst rc. by apply fine_ret.
Qed.

(** ** Reading the messages *)

Lemma read_num_fine {C} (Q : Z * C -> Prop) X v n (k : Z * mpi -> M St (Z * C)) :
  short X -> 0 <= v < 256 ^ Z.of_nat n -> Z.of_nat n <= 8 * 4998 ->
  (forall Y, num v Y -> short Y -> fine Q (k (0, Y))) -> fine Q (let! r := mpi_read_binary X (be_bytes n v) in k r).
Proof.
  intros HX Hv Hn Hk. eapply fine_unchecked.
  { apply mpi_read_binary_good; [apply bytes_ok_be_bytes|]. rewrite length_be_bytes, MAX_LIMBS_Z. lia. }
  intros Y HY. apply holds_num in HY as [HY HL]; [|lia]. rewrite be_value_bytes, Z.mod_small in HY by done. apply Hk; [done|].
  unfold short in *. rewrite HL, length_be_bytes. set (m := (n - leading_zeros _ + 7)%nat). pose proof (Nat.div_mod_eq m 8). lia.
Qed.

Lemma length_two (n : nat) : be_bytes 2 n = [n / 256 mod 256; n mod 256].
Proof. done. Qed.

Lemma length_bytes (n : nat) : Z.of_nat n < 65536 -> Z.to_nat (Z.lor (Z.shiftl (n / 256 mod 256) 8) (n mod 256)) = n.
Proof.
  intros Hn. pose proof (Z.mod_pos_bound n 256 ltac:(lia)). pose proof (Z.div_mod n 256 ltac:(lia)).
  rewrite (Z.mod_small (n / 256)) by (split; [apply Z.div_pos|apply Z.div_lt_upper_bound]; lia).
  rewrite Z.shiftl_mul_pow2, (lor_add _ _ 8) by (lia || by apply Z.mod_mul). change (2 ^ 8) with 256. lia.
Qed.

Lemma dhm_read_bignum_fine v rest : 0 <= v -> Z.of_nat (zbytes v) <= 8 * 4998 ->
  fine (St:=St) (ok0 (fun r => num v (fst r) /\ short (fst r) /\ snd r = rest)) (dhm_read_bignum mpi_zeroed (exported v ++ rest)).
Proof.
  intros Hv Hz. unfold exported. rewrite length_two. cbn [app]. unfold dhm_read_bignum. rewrite length_bytes by lia.
  replace (length _ <? zbytes v)%nat with false by (symmetry; apply Nat.ltb_ge; rewrite length_app, length_be_bytes; lia).
  rewrite take_app_length' by (by rewrite length_be_bytes). rewrite drop_app_length' by (by rewrite length_be_bytes).
  apply read_num_fine; [done|split; [done|by apply zbytes_spec]|done|]. intros Y HY HS. by apply fine_ret.
Qed.

Lemma dhm_read_params_fine gx : 0 <= g -> Z.of_nat (zbytes g) <= 8 * 4998 -> range_ok p gx = true ->
  fine (St:=St) (ok0 (fun r => params (fst r) /\ num gx (dh_GY (fst r)) /\ short (dh_GY (fst r)) /\
      dh_X (fst r) = mpi_zeroed /\ dh_len (fst r) = zbytes p))
    (dhm_read_params (exported p ++ exported g ++ exported gx ++ [0; 0])).
Proof.
  intros Hg Hgs ER. pose proof ER as Hgx. unfold range_ok in Hgx. pose proof (zbytes_mono gx p ltac:(lia)).
  unfold dhm_read_params. cbn [dhm_zero dh_P].
  eapply fine_chk; [apply dhm_read_bignum_fine; lia|]. intros [P b] (HP & HPs & Eb). cbn [fst snd] in *. subst b.
  eapply fine_chk; [apply dhm_read_bignum_fine; lia|]. intros [G b] (HG & HGs & Eb). cbn [fst snd] in *. subst b.
  eapply fine_chk; [apply dhm_read_bignum_fine; lia|]. intros [GY b] (HY & HYs & Eb). cbn [fst snd] in *. subst b.
  cbn [set_P set_G set_GY dh_P dh_G dh_GY dh_len dh_X dh_GX dh_K dh_RP].
  eapply fine_bind; [by apply (dhm_check_range_fine _ _ gx p)|]. intros rc ->. rewrite ER. change (truthy 0) with false. cbn iota.
  eapply fine_bind; [by apply mpi_size_fine|]. intros ? ->. apply fine_ret. split; [done|]. by split_and!; [split|..].
Qed.

Lemma dhm_read_public_fine x c y : private x c -> dh_len c = zbytes p -> range_ok p y = true -> short (dh_GY c) ->
  fine (ok0 (fun c' => private x c' /\ num y (dh_GY c') /\ short (dh_GY c') /\ dh_len c' = zbytes p)) (dhm_read_public c (be_bytes (zbytes p) y)).
Proof.
  intros Hc Hl ER HY. unfold range_ok in ER. unfold dhm_read_public. rewrite length_be_bytes, Hl.
  pose proof (zbytes_spec p ltac:(lia)). pose proof (zbytes_pos p ltac:(lia)).
  replace ((zbytes p <? 1)%nat || (zbytes p <? zbytes p)%nat) with false
    by (symmetry; apply orb_false_intro; apply Nat.ltb_ge; lia).
  apply read_num_fine; [done|lia|done|]. intros Y H1 H2. apply fine_ret. split; [done|]. destruct Hc as [[] ? ? ?].
  split_and!; [by split; [split|..]|done..].
Qed.
End Side.

(** ** Any message *)

(** A number of a message and what follows it *)
Definition field (buf : bytes) : option (Z * bytes) :=
  match buf with
  | h :: l :: buf =>
      let n := Z.to_nat (256 * h + l) in
      if (length buf <? n)%nat then None else Some (be_value (take n buf), drop n buf)
  | _ => None
  end.

(** The parameters of a message: modulus, generator and public number, in range, and then a
    signature that has the length it says. *)
Definition parse_params (buf : bytes) : option (Z * Z * Z) :=
  match field buf with
  | None => None
  | Some (p, buf) =>
      match field buf with
      | None => None
      | Some (g, buf) =>
          match field buf with
          | None => None
          | Some (gy, buf) =>
              if negb (range_ok p gy) then None else
              match buf with
              | h :: l :: sgn => if (length sgn =? Z.to_nat (256 * h + l))%nat then Some (p, g, gy) else None
              | _ => None
              end
          end
      end
  end.

Lemma length_field h l : byte_ok h -> byte_ok l -> Z.lor (Z.shiftl h 8) l = 256 * h + l.
Proof.
  unfold byte_ok. intros Hh Hl. rewrite Z.shiftl_mul_pow2, (lor_add _ _ 8) by (lia || by apply Z.mod_mul). lia.
Qed.

Lemma field_bytes buf v rest : bytes_ok buf -> field buf = Some (v, rest) -> bytes_ok rest.
Proof.
  intros Hb. unfold field. destruct buf as [|h [|l buf]]; [done..|]. apply Forall_cons in Hb as [_ [_ Hb]%Forall_cons].
  case_match; [done|]. intros E. simplify_eq. by apply Forall_drop.
Qed.

Lemma dhm_read_bignum_any buf : bytes_ok buf ->
  fine (St:=St) (fun r => match field buf with
    | None => fst r = POLARSSL_ERR_DHM_BAD_INPUT_DATA
    | Some (v, rest) => fst r = 0 /\ num v (fst (snd r)) /\ Z.of_nat (length (mp_p (fst (snd r)))) <= 9998 /\ snd (snd r) = rest
    end) (dhm_read_bignum mpi_zeroed buf).
Proof.
  intros Hb. unfold dhm_read_bignum, field. destruct buf as [|h [|l buf]]; [by apply fine_ret..|].
  apply Forall_cons in Hb as [Hh [Hl Hb]%Forall_cons]. rewrite length_field by done. unfold byte_ok in Hh, Hl.
  set (n := Z.to_nat (256 * h + l)). destruct (Nat.ltb_spec (length buf) n); [by apply fine_ret|].
  assert (Ln : length (take n buf) = n) by (rewrite length_take; lia).
  eapply fine_unchecked; [apply mpi_read_binary_good; [by apply Forall_take|rewrite Ln, MAX_LIMBS_Z; lia]|].
  intros Y HY. apply holds_num in HY as [HY HL]; [|lia]. cbn [fst snd]. change (truthy 0) with false. cbn iota. apply fine_ret.
  cbn [fst snd]. split_and!; try done. rewrite HL, Ln. set (m := (n - leading_zeros _ + 7)%nat).
  pose proof (Nat.div_mod_eq m 8). change (length (mp_p mpi_zeroed)) with 0%nat. lia.
Qed.

(** A step of [dhm_read_params]: one number more, or the end *)
Lemma read_step {C} (Q : Z * C -> Prop) buf f k : bytes_ok buf ->
  (field buf = None -> forall c, Q (POLARSSL_ERR_DHM_BAD_INPUT_DATA, c)) ->
  (forall v rest X, field buf = Some (v, rest) -> bytes_ok rest -> num v X -> Z.of_nat (length (mp_p X)) <= 9998 -> fine Q (k (X, rest))) ->
  fine (St:=St) Q (chk (dhm_read_bignum mpi_zeroed buf) f k).
Proof.
  intros Hb H0 H1. eapply fine_bind; [by apply dhm_read_bignum_any|]. intros [rc [X rest]]. cbn [fst snd].
  destruct (field buf) as [[v rest']|] eqn:E.
  - intros (-> & HX & HL & ->). change (truthy 0) with false. cbn iota. eapply H1; try done. by eapply field_bytes.
  - intros ->. apply fine_ret. by apply H0.
Qed.

Lemma dhm_read_params_any buf : bytes_ok buf ->
  fine (St:=St) (fun r => match parse_params buf with
    | None => fst r = POLARSSL_ERR_DHM_BAD_INPUT_DATA
    | Some (p, g, gy) => fst r = 0 /\ num p (dh_P (fst (snd r))) /\ num g (dh_G (fst (snd r))) /\ num gy (dh_GY (fst (snd r))) /\
        dh_len (fst (snd r)) = zbytes p
    end) (dhm_read_params buf).
Proof.
  intros Hb. unfold dhm_read_params, parse_params. cbn [dhm_zero dh_P].
  apply read_step; [done|by intros ->|]. intros p b1 P -> Hb1 HP HPl. cbn [set_P dh_G].
  apply read_step; [done|by intros ->|]. intros g b2 G -> Hb2 HG _. cbn [set_G dh_GY].
  apply read_step; [done|by intros ->|]. intros gy b3 GY -> Hb3 HY _. cbn [set_GY dh_P dh_GY].
  eapply fine_bind; [by apply (dhm_check_range_runs _ _ gy p)|]. intros rc ->.
  destruct (range_ok p gy) eqn:ER; [|by apply fine_ret]. change (truthy 0) with false. cbn iota. cbn [negb].
  eapply fine_bind; [by apply mpi_size_fine|]. intros ? ->. destruct b3 as [|h [|l sgn]]; [by apply fine_ret..|].
  apply Forall_cons in Hb3 as [Hh [Hl _]%Forall_cons]. rewrite length_field by done.
  destruct (length sgn =? _)%nat; by apply fine_ret.
Qed.
End DhmFacts.

(** C27: Whatever the bytes of a parameter message, [dhm_read_params] with memory to spare
    returns, and it accepts exactly the messages that [parse_params] describes: three
    length-prefixed numbers, the public one between 2 and P - 2, and a signature of the
    stated length.  The context then has these numbers, well formed, and the size of P. *)
Theorem dhm_read_params_exact {St} {AL : Alloc St} {LA : AllocLaws AL} buf s : bytes_ok buf -> al_ok s ->
  wp total (dhm_read_params buf) (fun r s' => al_ok s' /\
    match parse_params buf with
    | None => fst r = POLARSSL_ERR_DHM_BAD_INPUT_DATA
    | Some (p, g, gy) => fst r = 0 /\ num p (dh_P (fst (snd r))) /\ num g (dh_G (fst (snd r))) /\ num gy (dh_GY (fst (snd r))) /\
        dh_len (fst (snd r)) = zbytes p
    end) s.
Proof. intros Hb Hs. eapply wp_mono; [by apply dhm_read_params_any|]. by intros r s' (_ & Ho & H). Qed.

Lemma dhm_read_params_exact_witness :
  parse_params [0; 1; 23; 0; 1; 5; 0; 1; 3; 0; 0] = Some (23, 5, 3) /\ parse_params [0; 1; 2; 0; 1; 5; 0; 1; 3; 0; 0] = None /\
  match dhm_read_params (AL := ample) [0; 1; 23; 0; 1; 5; 0; 1; 3; 0; 0] tt with Done (r, _) => fst r = 0 | Oops _ => False end.
Proof.
  split_and!; [done..|].
  pose proof (dhm_read_params_exact (AL := ample) [0; 1; 23; 0; 1; 5; 0; 1; 3; 0; 0] tt ltac:(by apply bytes_ok_check) I) as H.
  unfold wp in H. destruct (dhm_read_params _ _) as [[r s]|f]; [apply H|by destruct H].
Defined.
