(* ===== verification/MpiSafe.v ===== *)
(** * What the big-number code can do at worst

    Whatever the numbers and however many allocations fail, a call of bignum.c or dhm.c
    changes nothing but the allocator's state, and its only faults are a loop that does
    not end and an access outside the limbs.  Both happen (see [Dhm]), which is why the
    client of the key exchange is verified against a set of faults. *)

From S2P Require Import Prelude Mpi MpiOps MpiDiv MpiExp Dhm.

Definition confined (f : fault) : Prop := f = Hang \/ f = OutOfBounds.

Create HintDb tame.

Section Tame.
Context {St : Type} {AL : Alloc St} {LA : AllocLaws AL}.

Definition tame {A} (m : M St A) : Prop := forall s, wp confined m (fun _ s' => al_frame s s') s.

Lemma tame_ret {A} (a : A) : tame (ret a).
Proof. intros s. unfold wp, ret. reflexivity. Qed.

Lemma tame_hang {A} : tame (oops (A := A) Hang).
Proof. intros s. by left. Qed.

Lemma tame_oob {A} : tame (oops (A := A) OutOfBounds).
Proof. intros s. by right. Qed.

Lemma tame_bind {A C} (m : M St A) (k : A -> M St C) : tame m -> (forall a, tame (k a)) -> tame (bind m k).
Proof.
  intros Hm Hk s. wp_bind. eapply wp_mono; [apply Hm|]. intros a s1 F1. eapply wp_mono; [apply Hk|]. intros c s2 F2. by transitivity s1.
Qed.

Lemma tame_chk {A C} (m : M St (Z * A)) (leave : A -> C) k : tame m -> (forall a, tame (k a)) -> tame (chk m leave k).
Proof. intros Hm Hk. apply tame_bind; [done|]. intros [rc a]. cbn. destruct (truthy rc); [apply tame_ret|apply Hk]. Qed.

(** The same, with what is known of the result *)
Definition tamed {A} (Q : A -> Prop) (m : M St A) : Prop := forall s, wp confined m (fun a s' => al_frame s s' /\ Q a) s.

Lemma tamed_ret {A} (Q : A -> Prop) a : Q a -> tamed Q (ret a).
Proof. intros H s. unfold wp, ret. split; [reflexivity|done]. Qed.

Lemma tamed_bind {A C} (Q : A -> Prop) (R : C -> Prop) (m : M St A) k : tamed Q m -> (forall a, Q a -> tamed R (k a)) -> tamed R (bind m k).
Proof.
  intros Hm Hk s. wp_bind. eapply wp_mono; [apply Hm|]. intros a s1 [F1 Ha]. eapply wp_mono; [apply (Hk a Ha)|].
  intros c s2 [F2 Hc]. split; [by transitivity s1|done].
Qed.

Lemma tamed_true {A} (m : M St A) : tame m -> tamed (fun _ => True) m.
Proof. intros H s. eapply wp_mono; [apply H|]. done. Qed.

Lemma tamed_tame {A} (Q : A -> Prop) (m : M St A) : tamed Q m -> tame m.
Proof. intros H s. eapply wp_mono; [apply H|]. by intros a s' [F _]. Qed.

(** A step whose result does not matter *)
Lemma tamed_after {A C} (R : C -> Prop) (m : M St A) k : tame m -> (forall a, tamed R (k a)) -> tamed R (bind m k).
Proof. intros Hm Hk. eapply tamed_bind; [by apply tamed_true|]. intros a _. apply Hk. Qed.

Lemma tame_alloc : tame mm_alloc.
Proof. intros s. eapply wp_weaken with (E := total); [done|]. eapply wp_mono; [apply al_alloc|]. by intros b s' [F _]. Qed.

Lemma tame_free : tame mm_free.
Proof. intros s. eapply wp_weaken with (E := total); [done|]. eapply wp_mono; [apply al_free|]. by intros b s' [F _]. Qed.
End Tame.

#[export] Hint Resolve tame_ret tame_hang tame_oob tame_alloc tame_free : tame.

(** Follow the structure of a program. *)
Ltac tame_step :=
  cbv beta zeta;
  lazymatch goal with
  | |- tame (bind _ _) => apply tame_bind; [|intros ?]
  | |- tame (chk _ _ _) => apply tame_chk; [|intros ?]
  | |- tame (match ?x with _ => _ end) => destruct x
  | |- _ => solve [eauto with tame]
  end.
Ltac tame := intros; repeat tame_step.

Section Programs.
Context {St : Type} {AL : Alloc St} {LA : AllocLaws AL}.

(** ** bignum.c *)

Lemma in_bounds_tame {A} (o : option A) : tame (St := St) (in_bounds o).
Proof. unfold in_bounds. tame. Qed.
Hint Resolve in_bounds_tame : tame.

Lemma mpi_free_tame X : tame (mpi_free X).
Proof. unfold mpi_free. tame. Qed.
Lemma mpi_grow_tame X n : tame (mpi_grow X n).
Proof. unfold mpi_grow. tame. Qed.
Hint Resolve mpi_free_tame mpi_grow_tame : tame.

Lemma mpi_copy_tame X Y : tame (mpi_copy X Y).
Proof. unfold mpi_copy. tame. Qed.
Lemma mpi_lset_tame X z : tame (mpi_lset X z).
Proof. unfold mpi_lset. tame. Qed.
Lemma mpi_msb_tame X : tame (St := St) (mpi_msb X).
Proof. unfold mpi_msb. tame. Qed.
Hint Resolve mpi_copy_tame mpi_lset_tame mpi_msb_tame : tame.

Lemma mpi_size_tame X : tame (St := St) (mpi_size X).
Proof. unfold mpi_size. tame. Qed.
Lemma mpi_shift_l_tame X c : tame (mpi_shift_l X c).
Proof. unfold mpi_shift_l. tame. Qed.
Lemma mpi_shift_r_tame X c : tame (St := St) (mpi_shift_r X c).
Proof. unfold mpi_shift_r. tame. Qed.
Lemma mpi_add_abs_tame al X A B : tame (mpi_add_abs al X A B).
Proof. unfold mpi_add_abs. tame. Qed.
Lemma mpi_sub_abs_tame al X A B : tame (mpi_sub_abs al X A B).
Proof. unfold mpi_sub_abs. tame. Qed.
Hint Resolve mpi_size_tame mpi_shift_l_tame mpi_shift_r_tame mpi_add_abs_tame mpi_sub_abs_tame : tame.

Lemma mpi_add_mpi_tame al X A B : tame (mpi_add_mpi al X A B).
Proof. unfold mpi_add_mpi. tame. Qed.
Lemma mpi_sub_mpi_tame al X A B : tame (mpi_sub_mpi al X A B).
Proof. unfold mpi_sub_mpi. tame. Qed.
Lemma mpi_mul_mpi_tame al X A B : tame (mpi_mul_mpi al X A B).
Proof. unfold mpi_mul_mpi. tame. Qed.
Lemma mpi_read_binary_tame X b : tame (mpi_read_binary X b).
Proof. unfold mpi_read_binary. tame. Qed.
Hint Resolve mpi_add_mpi_tame mpi_sub_mpi_tame mpi_mul_mpi_tame mpi_read_binary_tame : tame.

Lemma mpi_sub_int_tame al X A b : tame (mpi_sub_int al X A b).
Proof. apply mpi_sub_mpi_tame. Qed.
Lemma mpi_mul_int_tame al X A b : tame (mpi_mul_int al X A b).
Proof. apply mpi_mul_mpi_tame. Qed.
Lemma mpi_write_binary_tame X n : tame (St := St) (mpi_write_binary X n).
Proof. unfold mpi_write_binary. tame. Qed.
Hint Resolve mpi_sub_int_tame mpi_mul_int_tame mpi_write_binary_tame : tame.

(** What is written fills the buffer, or nothing is written. *)
Lemma mpi_write_binary_tamed X n : tamed (St := St) (fun r => fst r = 0 /\ length (snd r) = n \/ fst r <> 0 /\ snd r = []) (mpi_write_binary X n).
Proof.
  unfold mpi_write_binary. apply tamed_after; [tame|]. intros k. destruct (Nat.ltb_spec n k); apply tamed_ret; cbn [fst snd]; [by right|left].
  split; [done|]. rewrite length_app, length_zeros, length_reverse, length_fmap, length_seq. lia.
Qed.

(** Division *)

Lemma get_tame p i : tame (St := St) (get p i).
Proof. unfold get. tame. Qed.
Lemma put_limb_tame set X i x v : tame (St := St) (put_limb set X i x v).
Proof. unfold put_limb, put. tame. Qed.
Lemma on_tame set v (m : M St (Z * mpi)) : tame m -> tame (on set v m).
Proof. intros Hm. unfold on. tame. Qed.
Hint Resolve get_tame put_limb_tame on_tame : tame.

Lemma div_top_tame fuel j : forall v, tame (div_top fuel j v).
Proof. induction fuel; intros v; cbn [div_top]; tame. Qed.
Lemma div_lower_tame fuel t i j : forall v, tame (div_lower fuel t i j v).
Proof. induction fuel; intros v; cbn [div_lower]; tame. Qed.
Lemma div_guess_tame longlong fuel x1 x0 d : tame (St := St) (div_guess longlong fuel x1 x0 d).
Proof. unfold div_guess. tame. Qed.
Lemma div_take_tame j v : tame (div_take j v).
Proof. unfold div_take. tame. Qed.
Hint Resolve div_top_tame div_lower_tame div_guess_tame div_take_tame : tame.

Lemma div_for_tame longlong fuel t c : forall v, tame (div_for longlong fuel t c v).
Proof. induction c; intros v; cbn [div_for]; unfold div_step; tame. Qed.
Hint Resolve div_for_tame : tame.

Lemma mpi_div_mpi_tame longlong fuel al Q R A B : tame (mpi_div_mpi longlong fuel al Q R A B).
Proof. unfold mpi_div_mpi, div_setup, div_normalise, div_main, div_out, div_free. tame. Qed.
Lemma mod_up_tame fuel B : forall R, tame (mod_up fuel R B).
Proof. induction fuel; intros R; cbn [mod_up]; tame. Qed.
Lemma mod_down_tame fuel B : forall R, tame (mod_down fuel R B).
Proof. induction fuel; intros R; cbn [mod_down]; tame. Qed.
Hint Resolve mpi_div_mpi_tame mod_up_tame mod_down_tame : tame.

Lemma mpi_mod_mpi_tame longlong fuel b R A B : tame (mpi_mod_mpi longlong fuel b R A B).
Proof. unfold mpi_mod_mpi. tame. Qed.
Hint Resolve mpi_mod_mpi_tame : tame.

(** Exponentiation *)

Lemma on_e_tame set v (m : M St (Z * mpi)) : tame m -> tame (on_e set v m).
Proof. intros Hm. unfold on_e. tame. Qed.
Lemma montmul_tame N mm set A B v : tame (St := St) (montmul N mm set A B v).
Proof. unfold montmul. tame. Qed.
Hint Resolve on_e_tame montmul_tame : tame.

Lemma square_X_tame N mm v : tame (St := St) (square_X N mm v).
Proof. unfold square_X. tame. Qed.
Lemma square_W_tame N mm j k : forall v, tame (St := St) (square_W N mm j k v).
Proof. induction k; intros v; cbn [square_W]; tame. Qed.
Hint Resolve square_X_tame square_W_tame : tame.
Lemma squares_X_tame N mm k : forall v, tame (St := St) (squares_X N mm k v).
Proof. induction k; intros v; cbn [squares_X]; tame. Qed.
Lemma fill_W_tame N mm k : forall i v, tame (fill_W N mm i k v).
Proof. induction k; intros i v; cbn [fill_W]; tame. Qed.
Hint Resolve squares_X_tame fill_W_tame : tame.
Lemma exp_loop_tame N mm wsize e c : forall w v, tame (St := St) (exp_loop N mm wsize e c w v).
Proof. induction c; intros w v; cbn [exp_loop]; tame. Qed.
Lemma exp_rest_tame N mm wsize k : forall b v, tame (St := St) (exp_rest N mm wsize k b v).
Proof. induction k; intros b v; cbn [exp_rest]; tame. Qed.
Lemma free_W_tame k : forall i v, tame (free_W i k v).
Proof. induction k; intros i v; cbn [free_W]; tame. Qed.
Hint Resolve exp_loop_tame exp_rest_tame free_W_tame : tame.

Lemma mpi_exp_mod_tame longlong fuel X A E N RP : tame (mpi_exp_mod longlong fuel X A E N RP).
Proof. unfold mpi_exp_mod, exp_RR, exp_start, exp_run, exp_table, exp_free. tame. Qed.
Hint Resolve mpi_exp_mod_tame : tame.

(** ** dhm.c *)

Lemma dhm_check_range_tame X P : tame (dhm_check_range X P).
Proof. unfold dhm_check_range. tame. Qed.
Lemma dhm_read_bignum_tame X b : tame (dhm_read_bignum X b).
Proof. unfold dhm_read_bignum. tame. Qed.
Hint Resolve dhm_check_range_tame dhm_read_bignum_tame : tame.

Lemma dhm_read_params_tame b : tame (dhm_read_params b).
Proof. unfold dhm_read_params. tame. Qed.
Lemma dhm_read_public_tame c b : tame (dhm_read_public c b).
Proof. unfold dhm_read_public. tame. Qed.
Lemma shrink_X_tame fuel P : forall X, tame (St := St) (shrink_X fuel X P).
Proof. induction fuel; intros X; cbn [shrink_X]; tame. Qed.
Lemma dhm_exp_K_tame longlong fuel c : tame (dhm_exp_K longlong fuel c).
Proof. unfold dhm_exp_K. tame. Qed.
Hint Resolve shrink_X_tame dhm_exp_K_tame : tame.

Lemma dhm_make_X_tame longlong fuel rng c n : (forall k, tame (rng k)) -> tame (dhm_make_X longlong fuel rng c n).
Proof. intros Hr. unfold dhm_make_X, mpi_fill_random. tame. Qed.
Hint Resolve dhm_make_X_tame : tame.
Lemma dhm_make_params_tame longlong fuel rng c n : (forall k, tame (rng k)) -> tame (dhm_make_params longlong fuel rng c n).
Proof. intros Hr. unfold dhm_make_params, dhm_export. tame. Qed.
Lemma dhm_make_public_tame longlong fuel rng c n m : (forall k, tame (rng k)) -> tame (dhm_make_public longlong fuel rng c n m).
Proof. intros Hr. unfold dhm_make_public. tame. Qed.
Lemma dhm_calc_secret_no_export_tame longlong fuel c : tame (dhm_calc_secret_no_export longlong fuel c).
Proof. unfold dhm_calc_secret_no_export. tame. Qed.

(** The length of the public numbers stays, and the output has it. *)
Lemma dhm_make_X_tamed longlong fuel rng c n : (forall k, tame (rng k)) ->
  tamed (fun r => dh_len (snd r) = dh_len c) (dhm_make_X longlong fuel rng c n).
Proof.
  intros Hr. unfold dhm_make_X. apply tamed_after; [unfold mpi_fill_random; tame|]. intros r. apply tamed_after; [tame|]. intros X.
  apply tamed_after; [tame|]. intros [rc [GX RP]]. by apply tamed_ret.
Qed.

Lemma dhm_make_public_tamed longlong fuel rng c n m : (forall k, tame (rng k)) ->
  tamed (fun r => dh_len (fst (snd r)) = dh_len c /\ (length (snd (snd r)) <= m)%nat) (dhm_make_public longlong fuel rng c n m).
Proof.
  intros Hr. unfold dhm_make_public. destruct (_ || _); [apply tamed_ret; cbn; split; [done|lia]|].
  eapply tamed_bind; [by apply dhm_make_X_tamed|]. intros [rc c1] E1. cbn [snd] in E1.
  destruct (truthy rc); [apply tamed_ret; cbn; split; [done|lia]|]. apply tamed_after; [tame|]. intros rc2.
  destruct (truthy rc2); [apply tamed_ret; cbn; split; [done|lia]|]. eapply tamed_bind; [apply mpi_write_binary_tamed|].
  intros [rc3 b] Hw. cbn [fst snd] in *. destruct (truthy rc3); apply tamed_ret; cbn; (split; [done|]); [lia|].
  destruct Hw as [[_ ->]|[_ ->]]; cbn; lia.
Qed.

Lemma dhm_calc_secret_no_export_tamed longlong fuel c : tamed (fun r => dh_len (snd r) = dh_len c) (dhm_calc_secret_no_export longlong fuel c).
Proof.
  unfold dhm_calc_secret_no_export, dhm_exp_K. eapply (tamed_bind (fun r => dh_len (snd r) = dh_len c)).
  - apply tamed_after; [tame|]. intros [rc [K RP]]. by apply tamed_ret.
  - intros [rc c1] E. cbn [snd] in E. destruct (truthy rc); [by apply tamed_ret|]. apply tamed_after; [tame|]. intros rc2. by apply tamed_ret.
Qed.
Lemma dhm_calc_secret_tame longlong fuel c n : tame (dhm_calc_secret longlong fuel c n).
Proof. unfold dhm_calc_secret. tame. Qed.
End Programs.

#[export] Hint Resolve mpi_size_tame mpi_write_binary_tame mpi_free_tame dhm_read_params_tame dhm_read_public_tame dhm_make_params_tame
  dhm_make_public_tame dhm_calc_secret_no_export_tame dhm_calc_secret_tame : tame.
