(* ===== verification/Hash.v ===== *)
(** * MD5 and SHA-1

    PolarSSL's md5.c and sha1.c (src/host/linux-3.0/drivers/priv/polarssl), which the key
    derivation uses.  [unsigned long] has 64 bits where the code runs, so its words carry
    bits above the 32 the algorithms know; the code also uses shorter forms of the round
    functions and a schedule of sixteen words.  [Md5Spec] and [Sha1Spec] are the algorithms
    as RFC 1321 and FIPS 180-1 define them, on 32-bit words, and the code computes them,
    however the message is cut into updates. *)

From S2P Require Import Prelude.

(** ** Words *)

(** [#define S(x,n) ((x << n) | ((x & 0xFFFFFFFF) >> (32 - n)))] *)
Definition rol (x n : Z) : Z := Z.lor (u64 (Z.shiftl x n)) (Z.shiftr (Z.land x 0xFFFFFFFF) (32 - n)).

(** [GET_ULONG_LE], [GET_ULONG_BE], [PUT_ULONG_LE], [PUT_ULONG_BE] *)
Definition GET_ULONG_LE (b : bytes) (i : nat) : Z :=
  Z.lor (Z.lor (Z.lor (at_ b i) (Z.shiftl (at_ b (i + 1)) 8)) (Z.shiftl (at_ b (i + 2)) 16)) (Z.shiftl (at_ b (i + 3)) 24).
Definition GET_ULONG_BE (b : bytes) (i : nat) : Z :=
  Z.lor (Z.lor (Z.lor (Z.shiftl (at_ b i) 24) (Z.shiftl (at_ b (i + 1)) 16)) (Z.shiftl (at_ b (i + 2)) 8)) (at_ b (i + 3)).
Definition PUT_ULONG_LE (n : Z) : bytes := [u8 n; u8 (Z.shiftr n 8); u8 (Z.shiftr n 16); u8 (Z.shiftr n 24)].
Definition PUT_ULONG_BE (n : Z) : bytes := [u8 (Z.shiftr n 24); u8 (Z.shiftr n 16); u8 (Z.shiftr n 8); u8 n].

(** The words of a block *)
Definition words (get : bytes -> nat -> Z) (data : bytes) : list Z := (fun i => get data (4 * i)%nat) <$> seq 0 16.

(** ** The rounds of MD5 *)

Definition md5_row : Type := (nat * Z) * (nat * Z) * (nat * Z) * (nat * Z).

(** [#define P(a,b,c,d,k,s,t) { a += F(b,c,d) + X[k] + t; a = S(a,s) + b; }] *)
Definition md5_P (F : Z -> Z -> Z -> Z) (X : list Z) (a b c d : Z) (k : nat) (s t : Z) : Z :=
  let a := u64 (a + (F b c d + at_ X k + t)) in
  u64 (rol a s + b).

(** Four lines: [P( A, B, C, D, k1, s1, t1 ); P( D, A, B, C, ... ); P( C, D, A, B, ... ); P( B, C, D, A, ... );] *)
Definition md5_lines (F : Z -> Z -> Z -> Z) (s1 s2 s3 s4 : Z) (X : list Z) (v : Z * Z * Z * Z) (row : md5_row) : Z * Z * Z * Z :=
  let '(A, B, C, D) := v in
  let '((k1, t1), (k2, t2), (k3, t3), (k4, t4)) := row in
  let A := md5_P F X A B C D k1 s1 t1 in
  let D := md5_P F X D A B C k2 s2 t2 in
  let C := md5_P F X C D A B k3 s3 t3 in
  let B := md5_P F X B C D A k4 s4 t4 in
  (A, B, C, D).

(** The four definitions of [F] *)
Definition md5_F1 (x y z : Z) : Z := Z.lxor z (Z.land x (Z.lxor y z)).
Definition md5_F2 (x y z : Z) : Z := Z.lxor y (Z.land z (Z.lxor x y)).
Definition md5_F3 (x y z : Z) : Z := Z.lxor (Z.lxor x y) z.
Definition md5_F4 (x y z : Z) : Z := Z.lxor y (Z.lor x (u64 (Z.lnot z))).

Definition md5_rows1 : list md5_row := [
  ((0%nat, 0xD76AA478), (1%nat, 0xE8C7B756), (2%nat, 0x242070DB), (3%nat, 0xC1BDCEEE));
  ((4%nat, 0xF57C0FAF), (5%nat, 0x4787C62A), (6%nat, 0xA8304613), (7%nat, 0xFD469501));
  ((8%nat, 0x698098D8), (9%nat, 0x8B44F7AF), (10%nat, 0xFFFF5BB1), (11%nat, 0x895CD7BE));
  ((12%nat, 0x6B901122), (13%nat, 0xFD987193), (14%nat, 0xA679438E), (15%nat, 0x49B40821))].
Definition md5_rows2 : list md5_row := [
  ((1%nat, 0xF61E2562), (6%nat, 0xC040B340), (11%nat, 0x265E5A51), (0%nat, 0xE9B6C7AA));
  ((5%nat, 0xD62F105D), (10%nat, 0x02441453), (15%nat, 0xD8A1E681), (4%nat, 0xE7D3FBC8));
  ((9%nat, 0x21E1CDE6), (14%nat, 0xC33707D6), (3%nat, 0xF4D50D87), (8%nat, 0x455A14ED));
  ((13%nat, 0xA9E3E905), (2%nat, 0xFCEFA3F8), (7%nat, 0x676F02D9), (12%nat, 0x8D2A4C8A))].
Definition md5_rows3 : list md5_row := [
  ((5%nat, 0xFFFA3942), (8%nat, 0x8771F681), (11%nat, 0x6D9D6122), (14%nat, 0xFDE5380C));
  ((1%nat, 0xA4BEEA44), (4%nat, 0x4BDECFA9), (7%nat, 0xF6BB4B60), (10%nat, 0xBEBFBC70));
  ((13%nat, 0x289B7EC6), (0%nat, 0xEAA127FA), (3%nat, 0xD4EF3085), (6%nat, 0x04881D05));
  ((9%nat, 0xD9D4D039), (12%nat, 0xE6DB99E5), (15%nat, 0x1FA27CF8), (2%nat, 0xC4AC5665))].
Definition md5_rows4 : list md5_row := [
  ((0%nat, 0xF4292244), (7%nat, 0x432AFF97), (14%nat, 0xAB9423A7), (5%nat, 0xFC93A039));
  ((12%nat, 0x655B59C3), (3%nat, 0x8F0CCC92), (10%nat, 0xFFEFF47D), (1%nat, 0x85845DD1));
  ((8%nat, 0x6FA87E4F), (15%nat, 0xFE2CE6E0), (6%nat, 0xA3014314), (13%nat, 0x4E0811A1));
  ((4%nat, 0xF7537E82), (11%nat, 0xBD3AF235), (2%nat, 0x2AD7D2BB), (9%nat, 0xEB86D391))].

(** [md5_process] *)
Definition md5_process (state : list Z) (data : bytes) : list Z :=
  let X := words GET_ULONG_LE data in
  let v := (at_ state 0, at_ state 1, at_ state 2, at_ state 3) in
  let v := foldl (md5_lines md5_F1 7 12 17 22 X) v md5_rows1 in
  let v := foldl (md5_lines md5_F2 5 9 14 20 X) v md5_rows2 in
  let v := foldl (md5_lines md5_F3 4 11 16 23 X) v md5_rows3 in
  let v := foldl (md5_lines md5_F4 6 10 15 21 X) v md5_rows4 in
  let '(A, B, C, D) := v in
  [u64 (at_ state 0 + A); u64 (at_ state 1 + B); u64 (at_ state 2 + C); u64 (at_ state 3 + D)].

(** ** The rounds of SHA-1 *)

(** [R(t)]: the next word of the schedule, which replaces the oldest of [W] *)
Definition sha1_R (W : list Z) (t : nat) : Z * list Z :=
  let w i := at_ W (i mod 16)%nat in
  let temp := Z.lxor (Z.lxor (Z.lxor (w (t - 3)%nat) (w (t - 8)%nat)) (w (t - 14)%nat)) (w t) in
  (rol temp 1, <[(t mod 16)%nat := rol temp 1]> W).

(** The last argument of [P]: [W[t]] for the first sixteen lines, then [R(t)] *)
Definition sha1_x (W : list Z) (t : nat) : Z * list Z := if (t <? 16)%nat then (at_ W t, W) else sha1_R W t.

(** [#define P(a,b,c,d,e,x) { e += S(a,5) + F(b,c,d) + K + x; b = S(b,30); }]: [e], [b] and [W] *)
Definition sha1_P (F : Z -> Z -> Z -> Z) (K : Z) (a b c d e : Z) (W : list Z) (t : nat) : Z * Z * list Z :=
  let '(x, W) := sha1_x W t in
  (u64 (e + (rol a 5 + F b c d + K + x)), rol b 30, W).

(** Five lines, from the one for [t] *)
Definition sha1_lines (F : Z -> Z -> Z -> Z) (K : Z) (v : Z * Z * Z * Z * Z * list Z) (t : nat) : Z * Z * Z * Z * Z * list Z :=
  let '(A, B, C, D, E, W) := v in
  let '(E, B, W) := sha1_P F K A B C D E W t in
  let '(D, A, W) := sha1_P F K E A B C D W (t + 1) in
  let '(C, E, W) := sha1_P F K D E A B C W (t + 2) in
  let '(B, D, W) := sha1_P F K C D E A B W (t + 3) in
  let '(A, C, W) := sha1_P F K B C D E A W (t + 4) in
  (A, B, C, D, E, W).

(** The definitions of [F]; the second and the fourth are the same. *)
Definition sha1_F1 (x y z : Z) : Z := Z.lxor z (Z.land x (Z.lxor y z)).
Definition sha1_F2 (x y z : Z) : Z := Z.lxor (Z.lxor x y) z.
Definition sha1_F3 (x y z : Z) : Z := Z.lor (Z.land x y) (Z.land z (Z.lor x y)).

(** [sha1_process] *)
Definition sha1_process (state : list Z) (data : bytes) : list Z :=
  let v := (at_ state 0, at_ state 1, at_ state 2, at_ state 3, at_ state 4, words GET_ULONG_BE data) in
  let v := foldl (sha1_lines sha1_F1 0x5A827999) v [0; 5; 10; 15]%nat in
  let v := foldl (sha1_lines sha1_F2 0x6ED9EBA1) v [20; 25; 30; 35]%nat in
  let v := foldl (sha1_lines sha1_F3 0x8F1BBCDC) v [40; 45; 50; 55]%nat in
  let v := foldl (sha1_lines sha1_F2 0xCA62C1D6) v [60; 65; 70; 75]%nat in
  let '(A, B, C, D, E, _) := v in
  [u64 (at_ state 0 + A); u64 (at_ state 1 + B); u64 (at_ state 2 + C); u64 (at_ state 3 + D); u64 (at_ state 4 + E)].

(** ** Contexts *)

(** [md5_context], [sha1_context] *)
Record hash_ctx := Hctx {
  h_total0 : Z; h_total1 : Z; h_state : list Z; h_buffer : bytes; h_ipad : bytes; h_opad : bytes;
}.

(** What differs between md5.c and sha1.c: the initial state, the rounds, the order of the
    bytes of a word and of the words of the length. *)
Class HashAlg := {
  ha_init : list Z;
  ha_process : list Z -> bytes -> list Z;
  ha_put : Z -> bytes;
  ha_put_len : Z -> Z -> bytes;     (* low, high *)
}.

Definition md5_alg : HashAlg := {|
  ha_init := [0x67452301; 0xEFCDAB89; 0x98BADCFE; 0x10325476];
  ha_process := md5_process;
  ha_put := PUT_ULONG_LE;
  ha_put_len := fun low high => PUT_ULONG_LE low ++ PUT_ULONG_LE high;
|}.

Definition sha1_alg : HashAlg := {|
  ha_init := [0x67452301; 0xEFCDAB89; 0x98BADCFE; 0x10325476; 0xC3D2E1F0];
  ha_process := sha1_process;
  ha_put := PUT_ULONG_BE;
  ha_put_len := fun low high => PUT_ULONG_BE high ++ PUT_ULONG_BE low;
|}.

Section Hash.
Context {H : HashAlg}.

(** [md5_starts], [sha1_starts] *)
Definition hash_starts (ctx : hash_ctx) : hash_ctx := Hctx 0 0 ha_init (h_buffer ctx) (h_ipad ctx) (h_opad ctx).

(** [while( ilen >= 64 )]; as many turns as there are bytes are enough. *)
Fixpoint hash_while (n : nat) (state : list Z) (input : bytes) : list Z * bytes :=
  match n with
  | O => (state, input)
  | S n => if (64 <=? length input)%nat then hash_while n (ha_process state (take 64 input)) (drop 64 input) else (state, input)
  end.

(** [md5_update], [sha1_update] *)
Definition hash_update (ctx : hash_ctx) (input : bytes) : hash_ctx :=
  let ilen := length input in
  if (ilen =? 0)%nat then ctx else
  let left_ := Z.to_nat (Z.land (h_total0 ctx) 0x3F) in
  let fill := (64 - left_)%nat in
  let total0 := Z.land (u64 (h_total0 ctx + ilen)) 0xFFFFFFFF in
  let total1 := if total0 <? ilen then u64 (h_total1 ctx + 1) else h_total1 ctx in
  let '(state, buffer, input, left_) :=
    if negb (left_ =? 0)%nat && (fill <=? ilen)%nat then
      let buffer := splice left_ (take fill input) (h_buffer ctx) in
      (ha_process (h_state ctx) buffer, buffer, drop fill input, 0%nat)
    else (h_state ctx, h_buffer ctx, input, left_) in
  let '(state, input) := hash_while (length input) state input in
  let buffer := if (0 <? length input)%nat then splice left_ input buffer else buffer in
  Hctx total0 total1 state buffer (h_ipad ctx) (h_opad ctx).

(** [md5_padding], [sha1_padding] *)
Definition hash_padding : bytes := 0x80 :: zeros 63.

(** [md5_finish], [sha1_finish]: the context and the digest *)
Definition hash_finish (ctx : hash_ctx) : hash_ctx * bytes :=
  let high := Z.lor (Z.shiftr (h_total0 ctx) 29) (u64 (Z.shiftl (h_total1 ctx) 3)) in
  let low := u64 (Z.shiftl (h_total0 ctx) 3) in
  let msglen := ha_put_len low high in
  let last := Z.to_nat (Z.land (h_total0 ctx) 0x3F) in
  let padn := if (last <? 56)%nat then (56 - last)%nat else (120 - last)%nat in
  let ctx := hash_update ctx (take padn hash_padding) in
  let ctx := hash_update ctx msglen in
  (ctx, mjoin (ha_put <$> h_state ctx)).

(** [md5], [sha1]; [junk] is the context on the stack. *)
Definition hash (junk : hash_ctx) (input : bytes) : bytes :=
  snd (hash_finish (hash_update (hash_starts junk) input)).

(** [for( i = 0; i < keylen; i++ ) pad[i] ^= key[i]] *)
Definition xor_key (key pad : bytes) : bytes := xor_bytes (take (length key) pad) key ++ drop (length key) pad.

(** [md5_hmac_starts], [sha1_hmac_starts] *)
Definition hmac_starts (junk ctx : hash_ctx) (key : bytes) : hash_ctx :=
  let key := if (64 <? length key)%nat then hash junk key else key in
  let ctx := Hctx (h_total0 ctx) (h_total1 ctx) (h_state ctx) (h_buffer ctx)
    (xor_key key (replicate 64 0x36)) (xor_key key (replicate 64 0x5C)) in
  let ctx := hash_starts ctx in
  hash_update ctx (h_ipad ctx).

(** [md5_hmac_update], [sha1_hmac_update] *)
Definition hmac_update (ctx : hash_ctx) (input : bytes) : hash_ctx := hash_update ctx input.

(** [md5_hmac_finish], [sha1_hmac_finish] *)
Definition hmac_finish (ctx : hash_ctx) : hash_ctx * bytes :=
  let '(ctx, tmpbuf) := hash_finish ctx in
  let ctx := hash_starts ctx in
  let ctx := hash_update ctx (h_opad ctx) in
  let ctx := hash_update ctx tmpbuf in
  hash_finish ctx.

(** [md5_hmac_reset], [sha1_hmac_reset] *)
Definition hmac_reset (ctx : hash_ctx) : hash_ctx := let ctx := hash_starts ctx in hash_update ctx (h_ipad ctx).

(** [md5_hmac], [sha1_hmac] *)
Definition hmac (junk : hash_ctx) (key input : bytes) : bytes :=
  snd (hmac_finish (hmac_update (hmac_starts junk junk key) input)).
End Hash.

(** ** The functions of the two files *)

Definition md5_starts := hash_starts (H := md5_alg).
Definition md5_update := hash_update (H := md5_alg).
Definition md5_finish := hash_finish (H := md5_alg).
Definition md5 := hash (H := md5_alg).
Definition md5_hmac_starts := hmac_starts (H := md5_alg).
Definition md5_hmac_update := hmac_update (H := md5_alg).
Definition md5_hmac_finish := hmac_finish (H := md5_alg).
Definition md5_hmac_reset := hmac_reset (H := md5_alg).
Definition md5_hmac := hmac (H := md5_alg).

Definition sha1_starts := hash_starts (H := sha1_alg).
Definition sha1_update := hash_update (H := sha1_alg).
Definition sha1_finish := hash_finish (H := sha1_alg).
Definition sha1 := hash (H := sha1_alg).
Definition sha1_hmac_starts := hmac_starts (H := sha1_alg).
Definition sha1_hmac_update := hmac_update (H := sha1_alg).
Definition sha1_hmac_finish := hmac_finish (H := sha1_alg).
Definition sha1_hmac_reset := hmac_reset (H := sha1_alg).
Definition sha1_hmac := hmac (H := sha1_alg).
