(* ===== verification/HashSpec.v ===== *)
(** * MD5, SHA-1 and HMAC as their standards define them

    RFC 1321, FIPS 180-1 and RFC 2104 on 32-bit words, and the proofs that the code of
    [Hash] computes them: its 64-bit words agree with theirs in the low 32 bits, its
    round functions are theirs, and the buffering of the updates does not show. *)

From S2P Require Import Prelude MpiOps Hash.

(** ** 32-bit words *)

Definition rotl32 (x n : Z) : Z := u32 (Z.lor (Z.shiftl x n) (Z.shiftr x (32 - n))).
Definition add32 (a b : Z) : Z := u32 (a + b).
Definition not32 (x : Z) : Z := Z.lxor x (Z.ones 32).

(** ** RFC 1321 *)

Module Md5Spec.
Definition f (r : nat) (x y z : Z) : Z :=
  match r with
  | 0%nat => Z.lor (Z.land x y) (Z.land (not32 x) z)
  | 1%nat => Z.lor (Z.land x z) (Z.land y (not32 z))
  | 2%nat => Z.lxor (Z.lxor x y) z
  | _ => Z.lxor y (Z.lor x (not32 z))
  end.

(** The word, the shift and the constant of step [i] *)
Definition k (i : nat) : nat :=
  match (i / 16)%nat with
  | 0%nat => i
  | 1%nat => (5 * i + 1) mod 16
  | 2%nat => (3 * i + 5) mod 16
  | _ => (7 * i) mod 16
  end.
Definition shifts : list (list Z) := [[7; 12; 17; 22]; [5; 9; 14; 20]; [4; 11; 16; 23]; [6; 10; 15; 21]].
Definition s (i : nat) : Z := at_ (default [] (shifts !! (i / 16)%nat)) (i mod 4).

(** [T[i] = floor (2^32 * abs (sin (i + 1)))] *)
Definition T : list Z := [
  0xd76aa478; 0xe8c7b756; 0x242070db; 0xc1bdceee; 0xf57c0faf; 0x4787c62a; 0xa8304613; 0xfd469501;
  0x698098d8; 0x8b44f7af; 0xffff5bb1; 0x895cd7be; 0x6b901122; 0xfd987193; 0xa679438e; 0x49b40821;
  0xf61e2562; 0xc040b340; 0x265e5a51; 0xe9b6c7aa; 0xd62f105d; 0x02441453; 0xd8a1e681; 0xe7d3fbc8;
  0x21e1cde6; 0xc33707d6; 0xf4d50d87; 0x455a14ed; 0xa9e3e905; 0xfcefa3f8; 0x676f02d9; 0x8d2a4c8a;
  0xfffa3942; 0x8771f681; 0x6d9d6122; 0xfde5380c; 0xa4beea44; 0x4bdecfa9; 0xf6bb4b60; 0xbebfbc70;
  0x289b7ec6; 0xeaa127fa; 0xd4ef3085; 0x04881d05; 0xd9d4d039; 0xe6db99e5; 0x1fa27cf8; 0xc4ac5665;
  0xf4292244; 0x432aff97; 0xab9423a7; 0xfc93a039; 0x655b59c3; 0x8f0ccc92; 0xffeff47d; 0x85845dd1;
  0x6fa87e4f; 0xfe2ce6e0; 0xa3014314; 0x4e0811a1; 0xf7537e82; 0xbd3af235; 0x2ad7d2bb; 0xeb86d391].

(** A step with its round, word, shift and constant *)
Definition step (X : list Z) (v : Z * Z * Z * Z) (i : nat * nat * Z * Z) : Z * Z * Z * Z :=
  let '(a, b, c, d) := v in
  let '(r, k, s, t) := i in
  (d, add32 b (rotl32 (u32 (a + f r b c d + at_ X k + t)) s), b, c).

Definition steps : list (nat * nat * Z * Z) := (fun i => ((i / 16)%nat, k i, s i, at_ T i)) <$> seq 0 64.

Definition compress (st : list Z) (blk : bytes) : list Z :=
  let X := words (fun b i => le_value (slice i 4 b)) blk in
  let '(a, b, c, d) := foldl (step X) (at_ st 0, at_ st 1, at_ st 2, at_ st 3) steps in
  [add32 (at_ st 0) a; add32 (at_ st 1) b; add32 (at_ st 2) c; add32 (at_ st 3) d].
End Md5Spec.

(** ** FIPS 180-1 *)

Module Sha1Spec.
Definition f (r : nat) (x y z : Z) : Z :=
  match r with
  | 0%nat => Z.lor (Z.land x y) (Z.land (not32 x) z)
  | 2%nat => Z.lor (Z.lor (Z.land x y) (Z.land x z)) (Z.land y z)
  | _ => Z.lxor (Z.lxor x y) z
  end.
Definition K (r : nat) : Z := at_ [0x5A827999; 0x6ED9EBA1; 0x8F1BBCDC; 0xCA62C1D6] r.

(** The message schedule, extended by [n] words *)
Fixpoint extend (n : nat) (W : list Z) : list Z :=
  match n with
  | O => W
  | S n =>
      let W := extend n W in
      let t := length W in
      W ++ [rotl32 (Z.lxor (Z.lxor (Z.lxor (at_ W (t - 3)) (at_ W (t - 8))) (at_ W (t - 14))) (at_ W (t - 16))) 1]
  end.

Definition step (W : list Z) (v : Z * Z * Z * Z * Z) (t : nat) : Z * Z * Z * Z * Z :=
  let '(a, b, c, d, e) := v in
  let r := (t / 20)%nat in
  (u32 (rotl32 a 5 + f r b c d + e + at_ W t + K r), a, rotl32 b 30, c, d).

Definition compress (st : list Z) (blk : bytes) : list Z :=
  let W := extend 64 (words (fun b i => be_value (slice i 4 b)) blk) in
  let '(a, b, c, d, e) := foldl (step W) (at_ st 0, at_ st 1, at_ st 2, at_ st 3, at_ st 4) (seq 0 80) in
  [add32 (at_ st 0) a; add32 (at_ st 1) b; add32 (at_ st 2) c; add32 (at_ st 3) d; add32 (at_ st 4) e].
End Sha1Spec.

(** ** Padding, and HMAC (RFC 2104) *)

(** A hash function of the two: its initial state, its compression of a block of 64 bytes, and
    how it writes a word and the length in bits *)
Record hash_fun := HashFun {
  hf_init : list Z;
  hf_compress : list Z -> bytes -> list Z;
  hf_word : Z -> bytes;
  hf_length : Z -> bytes;
}.

(** The first [n] blocks of [m] *)
Fixpoint absorb (compress : list Z -> bytes -> list Z) (n : nat) (st : list Z) (m : bytes) : list Z :=
  match n with
  | O => st
  | S n => absorb compress n (compress st (take 64 m)) (drop 64 m)
  end.

(** One bit, zeros up to 56 bytes of a block, and the length *)
Definition padded (F : hash_fun) (m : bytes) : bytes :=
  m ++ 0x80 :: zeros (Z.to_nat ((55 - length m) mod 64)) ++ hf_length F (8 * length m).

Definition digest (F : hash_fun) (m : bytes) : bytes :=
  let p := padded F m in
  mjoin (hf_word F <$> absorb (hf_compress F) (length p / 64) (hf_init F) p).

Definition hmac_spec (F : hash_fun) (key m : bytes) : bytes :=
  let key := if (64 <? length key)%nat then digest F key else key in
  let key := key ++ zeros (64 - length key) in
  digest F (xor_bytes key (replicate 64 0x5c) ++ digest F (xor_bytes key (replicate 64 0x36) ++ m)).

Definition MD5 : hash_fun := HashFun [0x67452301; 0xefcdab89; 0x98badcfe; 0x10325476] Md5Spec.compress (le_bytes 4) (le_bytes 8).
Definition SHA1 : hash_fun := HashFun [0x67452301; 0xefcdab89; 0x98badcfe; 0x10325476; 0xc3d2e1f0] Sha1Spec.compress (be_bytes 4) (be_bytes 8).

(** ** Low halves *)

Lemma testbit_u32 x i : 0 <= i -> Z.testbit (u32 x) i = (i <? 32) && Z.testbit x i.
Proof.
  intros Hi. unfold u32. destruct (Z.ltb_spec i 32); [by rewrite Z.mod_pow2_bits_low|by rewrite Z.mod_pow2_bits_high by lia].
Qed.

Lemma testbit_u64 x i : 0 <= i -> Z.testbit (u64 x) i = (i <? 64) && Z.testbit x i.
Proof.
  intros Hi. unfold u64. destruct (Z.ltb_spec i 64); [by rewrite Z.mod_pow2_bits_low|by rewrite Z.mod_pow2_bits_high by lia].
Qed.

Lemma testbit_not32 x i : 0 <= i -> Z.testbit (not32 x) i = xorb (Z.testbit x i) (i <? 32).
Proof. intros Hi. unfold not32. rewrite Z.lxor_spec, Z.testbit_ones_nonneg by lia. done. Qed.

(** Equations of words, bit by bit *)
Ltac bitwise :=
  apply Z.bits_inj'; intros ?i ?Hi;
  repeat first [rewrite testbit_u32 by lia | rewrite testbit_u64 by lia | rewrite testbit_not32 by lia
    | rewrite Z.lor_spec | rewrite Z.land_spec | rewrite Z.lxor_spec | rewrite Z.lnot_spec by lia
    | rewrite Z.shiftr_spec by lia | rewrite Z.shiftl_spec by lia];
  repeat match goal with |- context [?a <? ?b] => destruct (Z.ltb_spec a b); try lia end;
  repeat match goal with |- context [Z.testbit ?a ?b] => destruct (Z.testbit a b) end; try done.

Lemma u32_u64 x : u32 (u64 x) = u32 x.
Proof. bitwise. Qed.

Lemma u32_u32 x : u32 (u32 x) = u32 x.
Proof. bitwise. Qed.

Lemma u32_add a b : u32 (a + b) = u32 (u32 a + u32 b).
Proof. unfold u32. apply Z.add_mod. lia. Qed.

Lemma u32_cong x y k : x = y + k * 2 ^ 32 -> u32 x = u32 y.
Proof. intros ->. unfold u32. by rewrite Z.mod_add by lia. Qed.

Lemma u32_rol x n : 0 <= n <= 32 -> u32 (rol x n) = rotl32 (u32 x) n.
Proof.
  intros Hn. unfold rol, rotl32. change 0xFFFFFFFF with (Z.ones 32). rewrite Z.land_ones by lia. fold (u32 x).
  apply Z.bits_inj'. intros i Hi. rewrite !testbit_u32, !Z.lor_spec, testbit_u64 by lia.
  rewrite !Z.shiftl_spec, !Z.shiftr_spec, (testbit_u32 x (i + (32 - n))) by lia.
  destruct (Z.ltb_spec i 32); [|done]. replace (i <? 64) with true by lia. cbn [andb]. f_equal.
  destruct (Z.leb_spec 0 (i - n)); [|by rewrite !Z.testbit_neg_r by lia]. rewrite testbit_u32 by lia. by replace (i - n <? 32) with true by lia.
Qed.

(** ** Words of a block *)

Lemma block_word (blk : bytes) i : bytes_ok blk -> (i + 4 <= length blk)%nat ->
  exists a b c d, byte_ok a /\ byte_ok b /\ byte_ok c /\ byte_ok d /\ slice i 4 blk = [a; b; c; d] /\
    at_ blk i = a /\ at_ blk (i + 1) = b /\ at_ blk (i + 2) = c /\ at_ blk (i + 3) = d.
Proof.
  intros Hok Hi. unfold slice. assert (Hat : forall j, at_ blk (i + j) = at_ (drop i blk) j) by (intros; unfold at_; by rewrite lookup_drop).
  pose proof (Hat 0%nat) as H0. rewrite Nat.add_0_r in H0. rewrite H0, !Hat. assert (Hd : bytes_ok (drop i blk)) by by apply Forall_drop.
  assert (Hl : (4 <= length (drop i blk))%nat) by (rewrite length_drop; lia).
  destruct (drop i blk) as [|a [|b [|c [|d l]]]]; cbn in Hl; try lia. exists a, b, c, d.
  apply Forall_cons in Hd as [Ha Hd]. apply Forall_cons in Hd as [Hb Hd]. apply Forall_cons in Hd as [Hc Hd]. apply Forall_cons in Hd as [Hd _].
  by split_and!.
Qed.

(** Bytes side by side *)
Lemma lor_bytes a b n : 0 <= n -> 0 <= a < 2 ^ n -> Z.lor a (Z.shiftl b n) = a + b * 2 ^ n.
Proof. intros Hn Ha. rewrite Z.shiftl_mul_pow2, Z.lor_comm, (lor_add _ _ n) by (done || by apply Z.mod_mul; lia). lia. Qed.

Lemma get_le blk i : bytes_ok blk -> (i + 4 <= length blk)%nat -> GET_ULONG_LE blk i = le_value (slice i 4 blk).
Proof.
  intros Hok Hi. destruct (block_word blk i Hok Hi) as (a & b & c & d & Ha & Hb & Hc & Hd & -> & E0 & E1 & E2 & E3).
  unfold GET_ULONG_LE. rewrite E0, E1, E2, E3. unfold byte_ok in *. cbn [le_value].
  rewrite (lor_bytes a), (lor_bytes _ c), (lor_bytes _ d) by lia. change (2 ^ 8) with 256. change (2 ^ 16) with 65536. change (2 ^ 24) with 16777216. lia.
Qed.

Lemma get_be blk i : bytes_ok blk -> (i + 4 <= length blk)%nat -> GET_ULONG_BE blk i = be_value (slice i 4 blk).
Proof.
  intros Hok Hi. destruct (block_word blk i Hok Hi) as (a & b & c & d & Ha & Hb & Hc & Hd & -> & E0 & E1 & E2 & E3).
  unfold GET_ULONG_BE. rewrite E0, E1, E2, E3. unfold byte_ok in *. unfold be_value. cbn [foldl].
  assert (E : forall x y z w, Z.lor (Z.lor (Z.lor x y) z) w = Z.lor (Z.lor (Z.lor w z) y) x).
  { intros. apply Z.bits_inj'. intros i' _. rewrite !Z.lor_spec. by destruct (Z.testbit x i'), (Z.testbit y i'), (Z.testbit z i'), (Z.testbit w i'). }
  rewrite E.
  rewrite (lor_bytes d), (lor_bytes _ b), (lor_bytes _ a) by lia. change (2 ^ 8) with 256. change (2 ^ 16) with 65536. change (2 ^ 24) with 16777216. lia.
Qed.

Lemma words_ext get get' blk : length blk = 64%nat -> (forall i, (i + 4 <= length blk)%nat -> get blk i = get' blk i) -> words get blk = words get' blk.
Proof. intros Hl H. apply list_fmap_ext. intros i x Hx. apply lookup_seq in Hx as [-> Hi]. apply H. lia. Qed.

(** ** MD5 *)

Definition low4 (v : Z * Z * Z * Z) : Z * Z * Z * Z := let '(a, b, c, d) := v in (u32 a, u32 b, u32 c, u32 d).

(** [F] is the function of round [r] in the low half. *)
Definition rounds (F : Z -> Z -> Z -> Z) (f : Z -> Z -> Z -> Z) : Prop := forall x y z, u32 (F x y z) = f (u32 x) (u32 y) (u32 z).

Lemma md5_F1_ok : rounds md5_F1 (Md5Spec.f 0).
Proof. intros x y z. unfold md5_F1. cbn [Md5Spec.f]. bitwise. Qed.
Lemma md5_F2_ok : rounds md5_F2 (Md5Spec.f 1).
Proof. intros x y z. unfold md5_F2. cbn [Md5Spec.f]. bitwise. Qed.
Lemma md5_F3_ok : rounds md5_F3 (Md5Spec.f 2).
Proof. intros x y z. unfold md5_F3. cbn [Md5Spec.f]. bitwise. Qed.
Lemma md5_F4_ok : rounds md5_F4 (Md5Spec.f 3).
Proof. intros x y z. unfold md5_F4. cbn [Md5Spec.f]. bitwise. Qed.

Lemma md5_P_ok F f X a b c d k s t : rounds F f -> 0 <= s <= 32 ->
  u32 (md5_P F X a b c d k s t) = add32 (u32 b) (rotl32 (u32 (u32 a + f (u32 b) (u32 c) (u32 d) + at_ X k + t)) s).
Proof.
  intros HF Hs. unfold md5_P, add32. rewrite u32_u64, u32_add, u32_rol, u32_u64, Z.add_comm by lia. do 3 f_equal.
  rewrite <- HF. apply (u32_cong _ _ (a / 2 ^ 32 + F b c d / 2 ^ 32)). unfold u32. rewrite !Z.mod_eq by lia. lia.
Qed.

Definition md5_expand (r : nat) (s1 s2 s3 s4 : Z) (row : md5_row) : list (nat * nat * Z * Z) :=
  let '((k1, t1), (k2, t2), (k3, t3), (k4, t4)) := row in [(r, k1, s1, t1); (r, k2, s2, t2); (r, k3, s3, t3); (r, k4, s4, t4)].

Lemma md5_lines_ok F r s1 s2 s3 s4 X v row :
  rounds F (Md5Spec.f r) -> 0 <= s1 <= 32 -> 0 <= s2 <= 32 -> 0 <= s3 <= 32 -> 0 <= s4 <= 32 ->
  low4 (md5_lines F s1 s2 s3 s4 X v row) = foldl (Md5Spec.step X) (low4 v) (md5_expand r s1 s2 s3 s4 row).
Proof.
  intros HF H1 H2 H3 H4. destruct v as [[[A B] C] D], row as [[[[k1 t1] [k2 t2]] [k3 t3]] [k4 t4]].
  cbn [md5_lines md5_expand foldl low4 Md5Spec.step]. by rewrite <- !(md5_P_ok F (Md5Spec.f r)) by done.
Qed.

Lemma md5_round_ok F r s1 s2 s3 s4 X rows v :
  rounds F (Md5Spec.f r) -> 0 <= s1 <= 32 -> 0 <= s2 <= 32 -> 0 <= s3 <= 32 -> 0 <= s4 <= 32 ->
  low4 (foldl (md5_lines F s1 s2 s3 s4 X) v rows) = foldl (Md5Spec.step X) (low4 v) (mjoin (md5_expand r s1 s2 s3 s4 <$> rows)).
Proof.
  intros HF H1 H2 H3 H4. revert v. induction rows as [|row rows IH]; intros v; [done|].
  cbn [foldl fmap list_fmap]. rewrite IH, (md5_lines_ok F r), <- foldl_app by done. done.
Qed.

Lemma md5_steps_ok :
  Md5Spec.steps = mjoin (md5_expand 0 7 12 17 22 <$> md5_rows1) ++ mjoin (md5_expand 1 5 9 14 20 <$> md5_rows2) ++
    mjoin (md5_expand 2 4 11 16 23 <$> md5_rows3) ++ mjoin (md5_expand 3 6 10 15 21 <$> md5_rows4).
Proof. reflexivity. Qed.

Lemma add32_state st i x : u32 (u64 (at_ st i + x)) = add32 (at_ (u32 <$> st) i) (u32 x).
Proof. rewrite at_fmap by done. unfold add32. by rewrite u32_u64, u32_add. Qed.

Lemma md5_process_ok st blk : bytes_ok blk -> length blk = 64%nat -> u32 <$> md5_process st blk = Md5Spec.compress (u32 <$> st) blk.
Proof.
  intros Hok Hl. unfold md5_process, Md5Spec.compress. rewrite md5_steps_ok, !foldl_app, !(at_fmap u32) by done.
  rewrite (words_ext (fun b i => le_value (slice i 4 b)) GET_ULONG_LE) by (done || (intros; by rewrite get_le)). set (X := words _ _).
  change (u32 (at_ st 0), u32 (at_ st 1), u32 (at_ st 2), u32 (at_ st 3)) with (low4 (at_ st 0, at_ st 1, at_ st 2, at_ st 3)).
  rewrite <- (md5_round_ok md5_F1) by (lia || apply md5_F1_ok). rewrite <- (md5_round_ok md5_F2) by (lia || apply md5_F2_ok).
  rewrite <- (md5_round_ok md5_F3) by (lia || apply md5_F3_ok). rewrite <- (md5_round_ok md5_F4) by (lia || apply md5_F4_ok).
  destruct (foldl _ _ md5_rows4) as [[[A B] C] D]. cbn [low4 fmap list_fmap]. rewrite <- !(at_fmap u32) by done. by rewrite !add32_state.
Qed.

(** ** SHA-1 *)

Lemma sha1_F1_ok : rounds sha1_F1 (Sha1Spec.f 0).
Proof. intros x y z. unfold sha1_F1. cbn [Sha1Spec.f]. bitwise. Qed.
Lemma sha1_F2_ok : rounds sha1_F2 (Sha1Spec.f 1).
Proof. intros x y z. unfold sha1_F2. cbn [Sha1Spec.f]. bitwise. Qed.
Lemma sha1_F3_ok : rounds sha1_F3 (Sha1Spec.f 2).
Proof. intros x y z. unfold sha1_F3. cbn [Sha1Spec.f]. bitwise. Qed.

Lemma length_extend n W : length (Sha1Spec.extend n W) = (length W + n)%nat.
Proof. induction n as [|n IH]; cbn [Sha1Spec.extend]; [lia|]. rewrite length_app, IH. cbn. lia. Qed.

Lemma extend_prefix n W i m : (i < length W + n)%nat -> at_ (Sha1Spec.extend (m + n) W) i = at_ (Sha1Spec.extend n W) i.
Proof.
  intros Hi. induction m as [|m IH]; [done|]. cbn [Nat.add Sha1Spec.extend]. rewrite at_app_l; [done|]. rewrite length_extend. lia.
Qed.

Lemma extend_word N W t : length W = 16%nat -> (16 <= t < 16 + N)%nat -> let S := Sha1Spec.extend N W in
  at_ S t = rotl32 (Z.lxor (Z.lxor (Z.lxor (at_ S (t - 3)) (at_ S (t - 8))) (at_ S (t - 14))) (at_ S (t - 16))) 1.
Proof.
  intros HW Ht S. set (n := (t - 16)%nat). assert (Hn : N = ((N - (n + 1)) + (n + 1))%nat) by lia.
  assert (HS : forall i, (i <= t)%nat -> at_ S i = at_ (Sha1Spec.extend (n + 1) W) i) by (intros; unfold S; rewrite Hn; apply extend_prefix; lia).
  rewrite !HS by lia. rewrite Nat.add_1_r. cbn [Sha1Spec.extend]. set (V := Sha1Spec.extend n W).
  assert (HV : length V = t) by (unfold V; rewrite length_extend; lia). rewrite (at_app_l V _ (t - 3)), (at_app_l V _ (t - 8)), (at_app_l V _ (t - 14)), (at_app_l V _ n), HV by lia.
  unfold at_ at 1. by rewrite lookup_app_r, HV, Nat.sub_diag by lia.
Qed.

Section Sha1.
Variable W80 : list Z.
Hypothesis HS : forall t, (16 <= t < 80)%nat ->
  at_ W80 t = rotl32 (Z.lxor (Z.lxor (Z.lxor (at_ W80 (t - 3)) (at_ W80 (t - 8))) (at_ W80 (t - 14))) (at_ W80 (t - 16))) 1.

(** Before line [t] the sixteen words are the last ones of the schedule. *)
Definition ring (t : nat) (W : list Z) : Prop :=
  length W = 16%nat /\ forall j, (j < Nat.max t 16)%nat -> (t <= j + 16)%nat -> u32 (at_ W (j mod 16)) = at_ W80 j.

Lemma u32_lxor a b : u32 (Z.lxor a b) = Z.lxor (u32 a) (u32 b).
Proof. bitwise. Qed.

Lemma mod_16 j t : (t - 16 <= j < t)%nat -> (16 <= t)%nat -> (j mod 16 = t mod 16)%nat -> j = (t - 16)%nat.
Proof. intros H Ht E. pose proof (Nat.div_mod_eq j 16). pose proof (Nat.div_mod_eq t 16). lia. Qed.

Lemma sha1_x_ok t W : (t < 80)%nat -> ring t W ->
  u32 (fst (sha1_x W t)) = at_ W80 t /\ ring (S t) (snd (sha1_x W t)).
Proof.
  intros Ht [HL HW]. unfold sha1_x. destruct (Nat.ltb_spec t 16) as [Hlt|Hge].
  - cbn [fst snd]. split; [rewrite <- HW by lia; by rewrite Nat.mod_small|]. split; [done|]. intros. apply HW; lia.
  - unfold sha1_R. set (x := rol _ 1). cbn [fst snd]. assert (Hx : u32 x = at_ W80 t).
    { unfold x. rewrite u32_rol, !u32_lxor by lia. rewrite (HS t) by lia.
      rewrite (HW (t - 3)%nat), (HW (t - 8)%nat), (HW (t - 14)%nat), <- (HW (t - 16)%nat) by lia. do 4 f_equal.
      rewrite <- (Nat.Div0.mod_add (t - 16) 1). f_equal. lia. }
    split; [done|]. split; [by rewrite length_insert|]. intros j Hj Hj'. pose proof (Nat.mod_upper_bound t 16 ltac:(lia)). unfold at_ at 1.
    destruct (decide (j = t)) as [->|Hne]; [by rewrite list_lookup_insert_eq by lia|].
    rewrite list_lookup_insert_ne; [apply HW; lia|]. intros E. pose proof (mod_16 j t). lia.
Qed.

Lemma sha1_P_ok F f K a b c d e W t : rounds F f -> (t < 80)%nat -> ring t W ->
  exists e' b' W', sha1_P F K a b c d e W t = (e', b', W') /\ ring (S t) W' /\ u32 b' = rotl32 (u32 b) 30 /\
    u32 e' = u32 (rotl32 (u32 a) 5 + f (u32 b) (u32 c) (u32 d) + u32 e + at_ W80 t + K).
Proof.
  intros HF Ht HW. destruct (sha1_x_ok t W Ht HW) as [Hx HW']. unfold sha1_P. destruct (sha1_x W t) as [x W']. cbn [fst snd] in *.
  exists (u64 (e + (rol a 5 + F b c d + K + x))), (rol b 30), W'. split; [done|]. split; [done|]. split; [by apply u32_rol|].
  rewrite u32_u64, <- HF, <- Hx, <- u32_rol by lia.
  apply (u32_cong _ _ (e / 2 ^ 32 + rol a 5 / 2 ^ 32 + F b c d / 2 ^ 32 + x / 2 ^ 32)). unfold u32. rewrite !Z.mod_eq by lia. lia.
Qed.

Definition low5 (v : Z * Z * Z * Z * Z * list Z) : Z * Z * Z * Z * Z :=
  let '(a, b, c, d, e, _) := v in (u32 a, u32 b, u32 c, u32 d, u32 e).

Lemma sha1_lines_ok F r v t : rounds F (Sha1Spec.f r) -> (20 * r <= t)%nat -> (t + 5 <= 20 * r + 20)%nat -> (r < 4)%nat -> ring t (snd v) ->
  low5 (sha1_lines F (Sha1Spec.K r) v t) = foldl (Sha1Spec.step W80) (low5 v) (seq t 5) /\ ring (t + 5) (snd (sha1_lines F (Sha1Spec.K r) v t)).
Proof.
  intros HF H1 H2 Hr HW. destruct v as [[[[[A B] C] D] E] W]. cbn [snd] in HW.
  assert (Hd : forall i, (i < 5)%nat -> ((t + i) / 20 = r)%nat) by (intros; symmetry; apply (Nat.div_unique _ _ _ (t + i - 20 * r)); lia).
  pose proof (Hd 0%nat ltac:(lia)) as E0. pose proof (Hd 1%nat ltac:(lia)) as E1. pose proof (Hd 2%nat ltac:(lia)) as E2.
  pose proof (Hd 3%nat ltac:(lia)) as E3. pose proof (Hd 4%nat ltac:(lia)) as E4. rewrite Nat.add_0_r in E0.
  unfold sha1_lines. cbn [seq foldl Sha1Spec.step low5].
  destruct (sha1_P_ok F (Sha1Spec.f r) (Sha1Spec.K r) A B C D E W t HF ltac:(lia) HW) as (e1 & b1 & W1 & -> & R1 & Hb1 & He1).
  replace (t + 1)%nat with (S t) in * by lia. replace (t + 2)%nat with (S (S t)) in * by lia.
  replace (t + 3)%nat with (S (S (S t))) in * by lia. replace (t + 4)%nat with (S (S (S (S t)))) in * by lia.
  destruct (sha1_P_ok F (Sha1Spec.f r) (Sha1Spec.K r) e1 A b1 C D W1 (S t) HF ltac:(lia) R1) as (e2 & b2 & W2 & -> & R2 & Hb2 & He2).
  destruct (sha1_P_ok F (Sha1Spec.f r) (Sha1Spec.K r) e2 e1 b2 b1 C W2 (S (S t)) HF ltac:(lia) R2) as (e3 & b3 & W3 & -> & R3 & Hb3 & He3).
  destruct (sha1_P_ok F (Sha1Spec.f r) (Sha1Spec.K r) e3 e2 b3 b2 b1 W3 (S (S (S t))) HF ltac:(lia) R3) as (e4 & b4 & W4 & -> & R4 & Hb4 & He4).
  destruct (sha1_P_ok F (Sha1Spec.f r) (Sha1Spec.K r) e4 e3 b4 b3 b2 W4 (S (S (S (S t)))) HF ltac:(lia) R4) as (e5 & b5 & W5 & -> & R5 & Hb5 & He5).
  cbn [low5 snd]. rewrite E0, E1, E2, E3, E4, <- He1, <- Hb1, <- He2, <- Hb2, <- He3, <- Hb3, <- He4, <- Hb4, <- He5, <- Hb5.
  split; [done|]. by replace (t + 5)%nat with (S (S (S (S (S t))))) by lia.
Qed.

Lemma sha1_round_ok F r v : rounds F (Sha1Spec.f r) -> (r < 4)%nat -> ring (20 * r) (snd v) ->
  let v' := foldl (sha1_lines F (Sha1Spec.K r)) v [20 * r; 20 * r + 5; 20 * r + 10; 20 * r + 15]%nat in
  low5 v' = foldl (Sha1Spec.step W80) (low5 v) (seq (20 * r) 20) /\ ring (20 * r + 20) (snd v').
Proof.
  intros HF Hr HW. assert (Es : forall m, seq m 20 = seq m 5 ++ seq (m + 5) 5 ++ seq (m + 10) 5 ++ seq (m + 15) 5).
  { intros m. by rewrite (seq_app 5 15), (seq_app 5 10), (seq_app 5 5), <- !Nat.add_assoc. }
  cbv zeta. rewrite Es, !foldl_app. cbn [foldl].
  destruct (sha1_lines_ok F r v (20 * r)) as [E1 R1]; [done|lia..|done|]. rewrite <- E1.
  set (v1 := sha1_lines F _ v (20 * r)) in *.
  destruct (sha1_lines_ok F r v1 (20 * r + 5)) as [E2 R2]; [done|lia..|done|]. rewrite <- E2, <- Nat.add_assoc in *.
  set (v2 := sha1_lines F _ v1 _) in *.
  destruct (sha1_lines_ok F r v2 (20 * r + 10)) as [E3 R3]; [done|lia..|done|]. rewrite <- E3, <- Nat.add_assoc in *.
  set (v3 := sha1_lines F _ v2 _) in *.
  destruct (sha1_lines_ok F r v3 (20 * r + 15)) as [E4 R4]; [done|lia..|done|]. by rewrite <- E4, <- Nat.add_assoc in *.
Qed.
End Sha1.

Lemma u32_word get blk i : bytes_ok blk -> (i + 4 <= length blk)%nat -> get = GET_ULONG_BE -> u32 (get blk i) = get blk i.
Proof.
  intros Hok Hi ->. rewrite get_be by done. destruct (block_word blk i Hok Hi) as (a & b & c & d & Ha & Hb & Hc & Hd & -> & _).
  unfold byte_ok in *. apply Z.mod_small. unfold be_value. cbn [foldl]. lia.
Qed.

Lemma sha1_process_ok st blk : bytes_ok blk -> length blk = 64%nat -> u32 <$> sha1_process st blk = Sha1Spec.compress (u32 <$> st) blk.
Proof.
  intros Hok Hl. unfold sha1_process, Sha1Spec.compress. rewrite !(at_fmap u32) by done.
  rewrite (words_ext (fun b i => be_value (slice i 4 b)) GET_ULONG_BE) by (done || (intros; by rewrite get_be)).
  set (M := words GET_ULONG_BE blk). assert (HM : length M = 16%nat) by done.
  set (v := (at_ st 0, at_ st 1, at_ st 2, at_ st 3, at_ st 4, M)).
  change (u32 (at_ st 0), u32 (at_ st 1), u32 (at_ st 2), u32 (at_ st 3), u32 (at_ st 4)) with (low5 v).
  pose proof (fun t => extend_word 64 M t HM) as HS. pose proof (fun i => extend_prefix 0 M i 64) as HP. cbn [Nat.add] in HP.
  set (W80 := Sha1Spec.extend 64 M) in *. cbv zeta in HS. clearbody W80.
  assert (R0 : ring W80 (20 * 0) (snd v)).
  { split; [done|]. intros j Hj _. rewrite Nat.mod_small, HP by lia. cbn [Sha1Spec.extend snd v].
    unfold M, words, at_. rewrite list_lookup_fmap, lookup_seq_lt by lia. cbn. apply u32_word; [done|lia|done]. }
  change (seq 0 80) with (seq (20 * 0) 20 ++ seq (20 * 1) 20 ++ seq (20 * 2) 20 ++ seq (20 * 3) 20). rewrite !foldl_app.
  destruct (sha1_round_ok W80 HS sha1_F1 0 v sha1_F1_ok ltac:(lia) R0) as [E1 R1]. rewrite <- E1.
  set (v1 := foldl _ _ _) in E1, R1 |- *.
  destruct (sha1_round_ok W80 HS sha1_F2 1 v1 sha1_F2_ok ltac:(lia) R1) as [E2 R2]. rewrite <- E2.
  set (v2 := foldl _ _ _) in E2, R2 |- *.
  destruct (sha1_round_ok W80 HS sha1_F3 2 v2 sha1_F3_ok ltac:(lia) R2) as [E3 R3]. rewrite <- E3.
  set (v3 := foldl _ _ _) in E3, R3 |- *.
  destruct (sha1_round_ok W80 HS sha1_F2 3 v3 sha1_F2_ok ltac:(lia) R3) as [E4 R4]. rewrite <- E4.
  match goal with |- context [low5 ?x] => change (foldl (sha1_lines sha1_F2 0xCA62C1D6) _ _) with x; destruct x as [[[[[A B] C] D] E] W] end.
  cbn [low5 fmap list_fmap]. rewrite <- !(at_fmap u32) by done. by rewrite !add32_state.
Qed.

(** ** Updates *)

Lemma absorb_app f n : forall st m k, (64 * n <= length m)%nat -> absorb f n st (m ++ k) = absorb f n st m.
Proof.
  induction n as [|n IH]; intros st m k Hm; [done|]. cbn [absorb]. rewrite take_app_le, drop_app_le by lia. apply IH. rewrite length_drop. lia.
Qed.

Lemma absorb_add f n k : forall st m, absorb f (n + k) st m = absorb f k (absorb f n st m) (drop (64 * n) m).
Proof.
  induction n as [|n IH]; intros st m; [done|]. cbn [Nat.add absorb]. rewrite IH, drop_drop. do 2 f_equal. lia.
Qed.

(** The code of [H] computes the function [F]. *)
Class Implements (H : HashAlg) (F : hash_fun) : Prop := {
  im_init : u32 <$> ha_init = hf_init F;
  im_process : forall st blk, bytes_ok blk -> length blk = 64%nat -> u32 <$> ha_process st blk = hf_compress F (u32 <$> st) blk;
  im_put : forall x, ha_put x = hf_word F (u32 x);
  im_put_len : forall n low high, 0 <= n -> u32 low = n mod 2 ^ 32 -> u32 high = (n / 2 ^ 32) mod 2 ^ 32 -> ha_put_len low high = hf_length F n;
  im_length : forall n, length (hf_length F n) = 8%nat /\ bytes_ok (hf_length F n);
  im_word : forall x, bytes_ok (hf_word F x);
}.

Section Updates.
Context {H : HashAlg} {F : hash_fun} {HF : Implements H F}.

(** The context has taken in [m]. *)
Record absorbed (m : bytes) (c : hash_ctx) : Prop := {
  ab_total0 : h_total0 c = Z.of_nat (length m) mod 2 ^ 32;
  ab_total1 : h_total1 c = Z.of_nat (length m) / 2 ^ 32;
  ab_state : u32 <$> h_state c = absorb (hf_compress F) (length m / 64) (hf_init F) m;
  ab_buffer : length (h_buffer c) = 64%nat;
  ab_rest : take (length m mod 64) (h_buffer c) = drop (64 * (length m / 64)) m;
}.

Lemma hash_starts_ok c : length (h_buffer c) = 64%nat -> absorbed [] (hash_starts c).
Proof. intros Hb. split; try done. apply im_init. Qed.

Lemma hash_while_ok n : forall st m, bytes_ok m -> (length m <= n)%nat ->
  u32 <$> fst (hash_while n st m) = absorb (hf_compress F) (length m / 64) (u32 <$> st) m /\
  snd (hash_while n st m) = drop (64 * (length m / 64)) m.
Proof.
  induction n as [|n IH]; intros st m Hm Hn; cbn [hash_while].
  { by replace (length m) with 0%nat by lia. }
  destruct (Nat.leb_spec 64 (length m)) as [Hl|Hl]; [|by rewrite Nat.div_small by lia].
  destruct (IH (ha_process st (take 64 m)) (drop 64 m)) as [E1 E2]; [by apply Forall_drop|rewrite length_drop; lia|].
  rewrite length_drop in E1, E2. assert (Ed : (length m / 64 = S ((length m - 64) / 64))%nat).
  { replace (length m) with (1 * 64 + (length m - 64))%nat at 1 by lia. rewrite Nat.div_add_l by lia. lia. }
  rewrite Ed, E1, E2. cbn [absorb]. rewrite im_process, drop_drop by (by apply Forall_take || (rewrite length_take; lia)).
  split; [done|]. f_equal. lia.
Qed.

Lemma div_split a b (q : nat) : (64 * q + b = a)%nat -> (a / 64 = q + b / 64)%nat /\ (a mod 64 = b mod 64)%nat.
Proof.
  intros <-. rewrite Nat.mul_comm, Nat.div_add_l by lia. split; [done|]. rewrite Nat.add_comm. apply Nat.Div0.mod_add.
Qed.

(** After [q] blocks of [m], the rest of the update *)
Lemma hash_blocks m (q : nat) st buffer : bytes_ok m -> (64 * q <= length m)%nat -> length buffer = 64%nat ->
  u32 <$> st = absorb (hf_compress F) q (hf_init F) m ->
  let d := drop (64 * q) m in
  let r := hash_while (length d) st d in
  let buffer' := if (0 <? length (snd r))%nat then splice 0 (snd r) buffer else buffer in
  u32 <$> fst r = absorb (hf_compress F) (length m / 64) (hf_init F) m /\ length buffer' = 64%nat /\
  take (length m mod 64) buffer' = drop (64 * (length m / 64)) m.
Proof.
  intros Hm Hq Hb Hst d r buffer'. assert (Hd : length d = (length m - 64 * q)%nat) by (unfold d; by rewrite length_drop).
  destruct (hash_while_ok (length d) st d) as [E1 E2]; [by apply Forall_drop|lia|]. fold r in E1, E2.
  destruct (div_split (length m) (length d) q) as [Eq Er]; [lia|]. pose proof (Nat.div_mod_eq (length d) 64).
  pose proof (Nat.mod_upper_bound (length d) 64 ltac:(lia)). rewrite Eq, Er, E1, absorb_add, Hst. fold d. split; [done|].
  assert (Hs : length (snd r) = (length d mod 64)%nat) by (rewrite E2, length_drop; lia).
  assert (Ed : snd r = drop (64 * (q + length d / 64)) m) by (rewrite E2; unfold d; rewrite drop_drop; f_equal; lia).
  rewrite <- Ed. unfold buffer'. destruct (Nat.ltb_spec 0 (length (snd r))) as [Hp|Hp].
  - unfold splice. rewrite take_0. cbn [app Nat.add]. split; [rewrite length_app, length_drop; lia|]. by rewrite take_app_length'.
  - split; [done|]. replace (length d mod 64)%nat with 0%nat by lia. symmetry. apply nil_length_inv. lia.
Qed.

Lemma total_left (m : bytes) : Z.to_nat (Z.land (Z.of_nat (length m) mod 2 ^ 32) 0x3F) = (length m mod 64)%nat.
Proof.
  change 0x3F with (Z.ones 6). rewrite Z.land_ones by lia. change (2 ^ 32) with (2 ^ 6 * 2 ^ 26). rewrite Z.rem_mul_r by lia.
  rewrite (Z.mul_comm (2 ^ 6)), Z.mod_add, Z.mod_mod by lia. change (2 ^ 6) with (Z.of_nat 64). rewrite <- Nat2Z.inj_mod. lia.
Qed.

Lemma totals_ok (a b : nat) : Z.of_nat b < 2 ^ 32 -> Z.of_nat (a + b) < 2 ^ 64 ->
  let t := Z.land (u64 (Z.of_nat a mod 2 ^ 32 + b)) 0xFFFFFFFF in
  t = Z.of_nat (a + b) mod 2 ^ 32 /\
  (if t <? b then u64 (Z.of_nat a / 2 ^ 32 + 1) else Z.of_nat a / 2 ^ 32) = Z.of_nat (a + b) / 2 ^ 32.
Proof.
  intros Hb Hab t. pose proof (Z.mod_pos_bound a (2 ^ 32) ltac:(lia)). pose proof (Z.div_mod a (2 ^ 32) ltac:(lia)) as Ea.
  assert (Et : t = (Z.of_nat a mod 2 ^ 32 + b) mod 2 ^ 32).
  { unfold t. change 0xFFFFFFFF with (Z.ones 32). rewrite Z.land_ones by lia. fold (u32 (u64 (Z.of_nat a mod 2 ^ 32 + b))). by rewrite u32_u64. }
  assert (Hq : 0 <= Z.of_nat a / 2 ^ 32) by (apply Z.div_pos; lia).
  rewrite Et, Z.add_mod_idemp_l by lia. split; [f_equal; lia|].
  replace ((Z.of_nat a + b) mod 2 ^ 32) with ((Z.of_nat a mod 2 ^ 32 + b) mod 2 ^ 32) by (apply Z.add_mod_idemp_l; lia).
  set (r := Z.of_nat a mod 2 ^ 32) in *. set (q := Z.of_nat a / 2 ^ 32) in *.
  destruct (Z_lt_le_dec (r + b) (2 ^ 32)) as [Hs|Hs].
  - rewrite Z.mod_small by lia. replace (r + b <? b) with false by lia. apply (Z.div_unique_pos _ _ _ (r + b)); lia.
  - replace ((r + b) mod 2 ^ 32) with (r + b - 2 ^ 32) by (apply (Z.mod_unique_pos _ _ 1); lia).
    replace (r + b - 2 ^ 32 <? b) with true by lia. unfold u64. rewrite Z.mod_small by lia. apply (Z.div_unique_pos _ _ _ (r + b - 2 ^ 32)); lia.
Qed.

Lemma hash_update_ok m c d : absorbed m c -> bytes_ok m -> bytes_ok d -> Z.of_nat (length d) < 2 ^ 32 -> Z.of_nat (length m + length d) < 2 ^ 64 ->
  absorbed (m ++ d) (hash_update c d).
Proof.
  intros [T0 T1 Hst Hb Hr] Hm Hd Hd32 Hmd. unfold hash_update. destruct (Nat.eqb_spec (length d) 0) as [E|Hne].
  { apply nil_length_inv in E as ->. rewrite app_nil_r. by split. }
  destruct (totals_ok (length m) (length d) Hd32 Hmd) as [E0 E1]. rewrite T0, T1, total_left, E0 in *. rewrite E1.
  set (l := (length m mod 64)%nat) in *. set (q := (length m / 64)%nat) in *.
  assert (Hl : (l < 64)%nat) by (apply Nat.mod_upper_bound; lia). assert (Hlq : (length m = 64 * q + l)%nat) by apply Nat.div_mod_eq.
  assert (Hok : bytes_ok (m ++ d)) by by apply Forall_app. pose proof (length_app m d) as Hla.
  destruct (Nat.eqb_spec l 0) as [Hl0|Hl0]; cbn [negb andb].
  - (* no bytes left over *)
    assert (Hm0 : drop (64 * q) (m ++ d) = d) by (rewrite drop_app_length' by lia; done).
    destruct (hash_blocks (m ++ d) q (h_state c) (h_buffer c)) as (S1 & S2 & S3); [done|lia|done|rewrite absorb_app by lia; exact Hst|].
    rewrite Hm0 in S1, S2, S3. cbv beta iota. destruct (hash_while _ _ _) as [st' rest]. rewrite Hl0. cbn [fst snd] in *. by split; cbn [h_total0 h_total1 h_state h_buffer]; rewrite ?Hla in *.
  - destruct (Nat.leb_spec (64 - l) (length d)) as [Hfill|Hfill]; cbn [andb].
    + (* the buffer is filled *)
      assert (Hbuf : splice l (take (64 - l) d) (h_buffer c) = drop (64 * q) m ++ take (64 - l) d).
      { unfold splice. rewrite Hr, (drop_ge (h_buffer c)), app_nil_r by (rewrite length_take; lia). done. }
      assert (Hm0 : drop (64 * S q) (m ++ d) = drop (64 - l) d).
      { rewrite drop_app, drop_ge by lia. cbn [app]. f_equal. lia. }
      set (blk := splice _ _ _) in *. assert (Hblk : length blk = 64%nat) by (rewrite Hbuf, length_app, length_drop, length_take; lia).
      assert (Hbok : bytes_ok blk) by (rewrite Hbuf; apply Forall_app; split; [by apply Forall_drop|by apply Forall_take]).
      destruct (hash_blocks (m ++ d) (S q) (ha_process (h_state c) blk) blk) as (S1 & S2 & S3); [done|lia|done| |].
      { rewrite im_process, Hst, <- (Nat.add_1_r q), absorb_add, (absorb_app _ q) by (done || lia). cbn [absorb]. f_equal.
        rewrite Hbuf, drop_app_le, take_app, length_drop, (take_ge (drop _ m)) by (rewrite ?length_drop; lia). do 2 f_equal. lia. }
      rewrite Hm0 in S1, S2, S3. cbv beta iota. destruct (hash_while _ _ _) as [st' rest]. cbn [fst snd] in *. by split; cbn [h_total0 h_total1 h_state h_buffer]; rewrite ?Hla in *.
    + (* everything goes to the buffer *)
      assert (Hw : hash_while (length d) (h_state c) d = (h_state c, d)).
      { destruct (length d) as [|n] eqn:E; [lia|]. cbn [hash_while]. by replace (64 <=? length d)%nat with false by (symmetry; apply Nat.leb_gt; lia). }
      rewrite Hw. replace (0 <? length d)%nat with true by (symmetry; apply Nat.ltb_lt; lia).
      assert (Eq : ((length m + length d) / 64 = q)%nat) by (symmetry; apply (Nat.div_unique _ _ _ (l + length d)); lia).
      assert (Em : ((length m + length d) mod 64 = l + length d)%nat) by (symmetry; apply (Nat.mod_unique _ _ q); lia).
      split; cbn [h_total0 h_total1 h_state h_buffer]; rewrite ?Hla, ?Eq, ?Em; try done.
      * rewrite absorb_app by lia. exact Hst.
      * unfold splice. rewrite !length_app, length_take, length_drop. lia.
      * unfold splice. rewrite Hr, app_assoc, take_app_length' by (rewrite length_app, length_drop; lia). by rewrite drop_app_le by lia.
Qed.

(** The pads of HMAC are not touched. *)
Definition pads (c : hash_ctx) : bytes * bytes := (h_ipad c, h_opad c).

Lemma pads_update c d : pads (hash_update c d) = pads c.
Proof.
  unfold hash_update. destruct (_ =? 0)%nat; [done|]. destruct (negb _ && _); cbv beta iota; by destruct (hash_while _ _ _).
Qed.

Lemma length_words (len : Z) : 0 <= len < 2 ^ 61 ->
  u32 (u64 (Z.shiftl (len mod 2 ^ 32) 3)) = (8 * len) mod 2 ^ 32 /\
  u32 (Z.lor (Z.shiftr (len mod 2 ^ 32) 29) (u64 (Z.shiftl (len / 2 ^ 32) 3))) = (8 * len / 2 ^ 32) mod 2 ^ 32.
Proof.
  intros Hlen. pose proof (Z.mod_pos_bound len (2 ^ 32) ltac:(lia)). pose proof (Z.div_mod len (2 ^ 32) ltac:(lia)) as E.
  assert (0 <= len / 2 ^ 32 < 2 ^ 29) by (split; [apply Z.div_pos; lia|apply Z.div_lt_upper_bound; lia]).
  set (r := len mod 2 ^ 32) in *. set (q := len / 2 ^ 32) in *. rewrite u32_u64, !Z.shiftl_mul_pow2, Z.shiftr_div_pow2 by lia. split.
  - apply (u32_cong _ _ (- 8 * q)). lia.
  - assert (0 <= r / 2 ^ 29 < 8) by (split; [apply Z.div_pos; lia|apply Z.div_lt_upper_bound; lia]). change (2 ^ 3) with 8.
    unfold u64. rewrite (Z.mod_small (q * 8)), Z.lor_comm, (lor_add _ _ 3) by (lia || (change (2 ^ 3) with 8; apply Z.mod_mul; lia)).
    fold (u32 (8 * len / 2 ^ 32)). f_equal. rewrite E. replace (8 * (2 ^ 32 * q + r)) with (8 * r + (8 * q) * 2 ^ 32) by ring.
    rewrite Z.div_add by lia. change (2 ^ 32) with (8 * 2 ^ 29). rewrite Z.div_mul_cancel_l by lia. lia.
Qed.

Lemma padding_ok (m : bytes) : let last := (length m mod 64)%nat in
  let padn := if (last <? 56)%nat then (56 - last)%nat else (120 - last)%nat in
  take padn hash_padding = 0x80 :: zeros (Z.to_nat ((55 - length m) mod 64)) /\ (padn <= 64)%nat /\ ((length m + padn) mod 64 = 56)%nat.
Proof.
  intros last padn. assert (Hl : (last < 64)%nat) by (apply Nat.mod_upper_bound; lia). pose proof (Nat.div_mod_eq (length m) 64) as E. fold last in E.
  assert (Hz : exists z, padn = S z /\ (z < 64)%nat /\ Z.of_nat z = (55 - Z.of_nat (length m)) mod 64 /\ ((length m + S z) mod 64 = 56)%nat).
  { unfold padn. destruct (Nat.ltb_spec last 56); [exists (55 - last)%nat|exists (119 - last)%nat]; (split; [lia|]; split; [lia|]; split).
    1: apply (Z.mod_unique_pos _ _ (- Z.of_nat (length m / 64))); lia.
    2: apply (Z.mod_unique_pos _ _ (- Z.of_nat (length m / 64) - 1)); lia.
    - symmetry. apply (Nat.mod_unique _ _ (length m / 64)); lia.
    - symmetry. apply (Nat.mod_unique _ _ (length m / 64 + 1)); lia. }
  destruct Hz as (z & -> & Hz & Ez & Em). split; [|split; [lia|done]]. unfold hash_padding. cbn [take]. f_equal.
  unfold zeros. rewrite take_replicate. f_equal. lia.
Qed.

Lemma hash_finish_ok m c : absorbed m c -> bytes_ok m -> Z.of_nat (length m) < 2 ^ 61 ->
  snd (hash_finish c) = digest F m /\ pads (fst (hash_finish c)) = pads c /\ length (h_buffer (fst (hash_finish c))) = 64%nat.
Proof.
  intros Hc Hm Hlen. pose proof Hc as [T0 T1 _ _ _]. unfold hash_finish. rewrite T0, T1, total_left.
  destruct (length_words (length m)) as [El Eh]; [lia|]. rewrite (im_put_len (8 * Z.of_nat (length m))) by (done || lia).
  destruct (padding_ok m) as (Ep & Hp & Em). set (padn := if (length m mod 64 <? 56)%nat then _ else _) in *. destruct (im_length (8 * Z.of_nat (length m))) as [Ll Lok].
  assert (Hpok : bytes_ok (take padn hash_padding)) by (apply Forall_take; constructor; [unfold byte_ok; lia|apply bytes_ok_zeros]).
  assert (Lp : length (take padn hash_padding) = padn) by (rewrite length_take; cbn [hash_padding length]; rewrite length_zeros; lia).
  assert (A1 : absorbed (m ++ take padn hash_padding) (hash_update c (take padn hash_padding))) by (apply hash_update_ok; done || (rewrite Lp; lia)).
  assert (A2 := hash_update_ok _ _ (hf_length F (8 * Z.of_nat (length m))) A1 ltac:(by apply Forall_app) Lok ltac:(lia) ltac:(rewrite length_app, Lp; lia)).
  set (c2 := hash_update (hash_update _ _) _) in *. cbn [fst snd]. rewrite Ep, <- app_assoc in A2. cbn [app] in A2. fold (padded F m) in A2.
  split; [|split; [unfold c2; by rewrite !pads_update|by apply A2]]. unfold digest. rewrite <- (ab_state _ _ A2), <- list_fmap_compose.
  f_equal. apply list_fmap_ext. intros _ x _. apply im_put.
Qed.

Lemma hash_ok junk m : length (h_buffer junk) = 64%nat -> bytes_ok m -> Z.of_nat (length m) < 2 ^ 32 -> hash junk m = digest F m.
Proof.
  intros Hj Hm Hl. unfold hash. apply hash_finish_ok; [|done|lia]. apply (hash_update_ok []); [by apply hash_starts_ok|constructor|done|done|cbn; lia].
Qed.

Lemma bytes_ok_digest m : bytes_ok (digest F m).
Proof.
  unfold digest. induction (absorb _ _ _ _) as [|x l IH]; [constructor|]. cbn. apply Forall_app. split; [apply im_word|apply IH].
Qed.

Lemma xor_key_ok key b : (length key <= 64)%nat ->
  xor_key key (replicate 64 b) = xor_bytes (key ++ zeros (64 - length key)) (replicate 64 b).
Proof.
  intros Hk. unfold xor_key. rewrite take_replicate, drop_replicate, Nat.min_l by lia.
  replace (replicate 64 b) with (replicate (length key) b ++ replicate (64 - length key) b) by (rewrite <- replicate_add; f_equal; lia).
  rewrite xor_bytes_app by (by rewrite length_replicate). f_equal; [apply xor_bytes_comm|].
  unfold xor_bytes, zeros. rewrite zip_with_replicate_l by (rewrite length_replicate; done). rewrite fmap_replicate. done.
Qed.

Lemma hmac_ok junk key m : length (h_buffer junk) = 64%nat -> bytes_ok key -> bytes_ok m ->
  Z.of_nat (length key) < 2 ^ 32 -> Z.of_nat (length m) < 2 ^ 32 -> (forall k, length (digest F k) <= 64)%nat -> hmac junk key m = hmac_spec F key m.
Proof.
  intros Hj Hk Hm Hkl Hml Hdl. unfold hmac, hmac_spec, hmac_starts, hmac_update. rewrite hash_ok by done.
  set (key' := if (64 <? length key)%nat then _ else _). assert (Hk' : bytes_ok key' /\ (length key' <= 64)%nat).
  { unfold key'. destruct (Nat.ltb_spec 64 (length key)); split; try done; [apply bytes_ok_digest]. }
  destruct Hk' as [Hkok Hkl']. rewrite !xor_key_ok by done. set (ip := xor_bytes _ (replicate 64 0x36)). set (op := xor_bytes _ (replicate 64 0x5C)).
  assert (Hip : bytes_ok ip /\ bytes_ok op).
  { split; apply bytes_ok_xor; try (apply Forall_app; split; [done|apply bytes_ok_zeros]); apply Forall_replicate; unfold byte_ok; lia. }
  assert (Lip : length ip = 64%nat /\ length op = 64%nat).
  { unfold ip, op. rewrite !length_xor_bytes, length_app, length_zeros, !length_replicate. lia. }
  cbv zeta. set (c0 := hash_starts _). cbn [hash_starts h_ipad] in c0. change (h_ipad c0) with ip.
  assert (A0 : absorbed [] c0) by (by apply hash_starts_ok).
  assert (A1 := hash_update_ok [] c0 ip A0 ltac:(constructor) (proj1 Hip) ltac:(lia) ltac:(cbn; lia)). cbn [app] in A1.
  assert (A2 := hash_update_ok ip _ m A1 (proj1 Hip) Hm Hml ltac:(lia)). set (c2 := hash_update (hash_update c0 ip) m) in *.
  destruct (hash_finish_ok _ _ A2) as (D & Pd & Lb); [apply Forall_app; split; [apply Hip|done]|rewrite length_app; lia|]. unfold hmac_finish.
  destruct (hash_finish c2) as [c3 tmp]. cbn [fst snd] in *. subst tmp. set (inner := digest F (ip ++ m)) in *.
  assert (Eo : h_opad (hash_starts c3) = op).
  { change (snd (pads c3) = op). rewrite Pd. unfold c2. by rewrite !pads_update. }
  rewrite Eo. assert (Hin : bytes_ok inner) by apply bytes_ok_digest. specialize (Hdl (ip ++ m)). fold inner in Hdl.
  assert (A3 := hash_update_ok [] _ op (hash_starts_ok c3 Lb) ltac:(constructor) (proj2 Hip) ltac:(lia) ltac:(cbn; lia)). cbn [app] in A3.
  assert (A4 := hash_update_ok op _ inner A3 (proj2 Hip) Hin ltac:(lia) ltac:(lia)).
  apply (hash_finish_ok _ _ A4); [apply Forall_app; by split; [apply Hip|]|rewrite length_app; lia].
Qed.
End Updates.

(** ** The two functions *)

Lemma put_le x : PUT_ULONG_LE x = le_bytes 4 (u32 x).
Proof.
  unfold PUT_ULONG_LE. cbn [le_bytes]. unfold u8, u32. rewrite !Z.shiftr_div_pow2, !Z.div_div by lia.
  change (2 ^ 8) with 256. change (256 * 256) with (2 ^ 16). change (2 ^ 16 * 256) with (2 ^ 24).
  assert (E : forall n : nat, (n < 4)%nat -> (x mod 2 ^ 32) / 256 ^ n mod 256 = x / 256 ^ n mod 256).
  { intros n Hn. replace (2 ^ 32) with (256 ^ n * (256 * 256 ^ (3 - n))) by (rewrite <- Z.pow_succ_r, <- Z.pow_add_r by lia; change (2 ^ 32) with (256 ^ 4); f_equal; lia).
    pose proof (Z.pow_pos_nonneg 256 n ltac:(lia) ltac:(lia)). pose proof (Z.pow_pos_nonneg 256 (3 - n) ltac:(lia) ltac:(lia)).
    rewrite Z.rem_mul_r by nia. rewrite (Z.mul_comm (256 ^ n)), Z.div_add, Z.div_small, Z.add_0_l by (lia || (apply Z.mod_pos_bound; lia)).
    rewrite (Z.rem_mul_r _ 256), (Z.mul_comm 256), Z.mod_add, Z.mod_mod by lia. done. }
  pose proof (E 0%nat ltac:(lia)) as E0. pose proof (E 1%nat ltac:(lia)) as E1. pose proof (E 2%nat ltac:(lia)) as E2. pose proof (E 3%nat ltac:(lia)) as E3.
  change (256 ^ Z.of_nat 0) with 1 in E0. change (256 ^ Z.of_nat 1) with 256 in E1. change (256 ^ Z.of_nat 2) with (2 ^ 16) in E2. change (256 ^ Z.of_nat 3) with (2 ^ 24) in E3.
  rewrite !Z.div_1_r in E0. by rewrite E0, E1, E2, E3.
Qed.

Lemma be_le (n : nat) z : be_bytes n z = reverse (le_bytes n z).
Proof. revert z. induction n as [|n IH]; intros z; [done|]. cbn [be_bytes le_bytes]. by rewrite IH, reverse_cons. Qed.

Lemma put_be x : PUT_ULONG_BE x = be_bytes 4 (u32 x).
Proof. rewrite be_le, <- put_le. done. Qed.

Lemma le_bytes_8 n : le_bytes 8 n = le_bytes 4 (n mod 2 ^ 32) ++ le_bytes 4 (n / 2 ^ 32 mod 2 ^ 32).
Proof.
  fold (u32 n) (u32 (n / 2 ^ 32)). rewrite <- !put_le. unfold PUT_ULONG_LE, u8. cbn [le_bytes app].
  rewrite !Z.shiftr_div_pow2, !Z.div_div by lia. done.
Qed.

Lemma bytes_ok_le_bytes n z : bytes_ok (le_bytes n z).
Proof. revert z. induction n as [|n IH]; intros z; constructor; [apply Z.mod_pos_bound; lia|apply IH]. Qed.

#[export] Instance md5_implements : Implements md5_alg MD5.
Proof.
  split; cbn [md5_alg MD5 ha_init ha_process ha_put ha_put_len hf_init hf_compress hf_word hf_length].
  - reflexivity.
  - apply md5_process_ok.
  - apply put_le.
  - intros n low high _ El Eh. by rewrite !put_le, El, Eh, le_bytes_8.
  - intros n. split; [apply length_le_bytes|apply bytes_ok_le_bytes].
  - intros x. apply bytes_ok_le_bytes.
Qed.

#[export] Instance sha1_implements : Implements sha1_alg SHA1.
Proof.
  split; cbn [sha1_alg SHA1 ha_init ha_process ha_put ha_put_len hf_init hf_compress hf_word hf_length].
  - reflexivity.
  - apply sha1_process_ok.
  - apply put_be.
  - intros n low high _ El Eh. by rewrite !put_be, El, Eh, !be_le, le_bytes_8, reverse_app.
  - intros n. split; [apply length_be_bytes|apply bytes_ok_be_bytes].
  - intros x. apply bytes_ok_be_bytes.
Qed.

Lemma length_absorb (f : list Z -> bytes -> list Z) n k : (forall st blk, length (f st blk) = k) -> forall st m, length st = k -> length (absorb f n st m) = k.
Proof. intros Hf. induction n as [|n IH]; intros st m Hst; [done|]. cbn [absorb]. apply IH, Hf. Qed.

Lemma length_join_words (w : Z -> bytes) (l : list Z) : (forall x, length (w x) = 4%nat) -> length (mjoin (w <$> l)) = (4 * length l)%nat.
Proof. intros Hw. induction l as [|x l IH]; [done|]. change (mjoin (w <$> x :: l)) with (w x ++ mjoin (w <$> l)). rewrite length_app, Hw, IH. cbn [length]. lia. Qed.

Lemma length_MD5 m : length (digest MD5 m) = 16%nat.
Proof.
  unfold digest. rewrite length_join_words by apply length_le_bytes. rewrite (length_absorb _ _ 4); [done| |done].
  intros st blk. cbn [MD5 hf_compress]. unfold Md5Spec.compress. by destruct (foldl _ _ _) as [[[? ?] ?] ?].
Qed.

Lemma length_SHA1 m : length (digest SHA1 m) = 20%nat.
Proof.
  unfold digest. rewrite length_join_words by apply length_be_bytes. rewrite (length_absorb _ _ 5); [done| |done].
  intros st blk. cbn [SHA1 hf_compress]. unfold Sha1Spec.compress. by destruct (foldl _ _ _) as [[[[? ?] ?] ?] ?].
Qed.

(** ** Messages in pieces *)

Section Pieces.
Context {H : HashAlg} {F : hash_fun} {I : Implements H F}.

Lemma updates_ok chunks m c : absorbed (F := F) m c -> bytes_ok m -> Forall bytes_ok chunks ->
  Forall (fun d => Z.of_nat (length d) < 2 ^ 32) chunks -> Z.of_nat (length (m ++ mjoin chunks)) < 2 ^ 64 ->
  absorbed (F := F) (m ++ mjoin chunks) (foldl hash_update c chunks).
Proof.
  intros Hc Hm Hb Hl. revert m c Hc Hm. induction Hb as [|d chunks Hd Hb IH]; intros m c Hc Hm Hn; [by rewrite app_nil_r|].
  apply Forall_cons in Hl as [Hl Hls]. change (mjoin (d :: chunks)) with (d ++ mjoin chunks) in *. rewrite app_assoc in *. cbn [foldl].
  rewrite length_app in Hn. apply IH; [done|..|by rewrite length_app].
  - apply hash_update_ok; try done. rewrite length_app in Hn. lia.
  - by apply Forall_app.
Qed.

Lemma streamed_ok chunks c : length (h_buffer c) = 64%nat -> Forall bytes_ok chunks ->
  Forall (fun d => Z.of_nat (length d) < 2 ^ 32) chunks -> Z.of_nat (length (mjoin chunks)) < 2 ^ 61 ->
  snd (hash_finish (foldl hash_update (hash_starts c) chunks)) = digest F (mjoin chunks).
Proof.
  intros Hc Hb Hl Hn. apply hash_finish_ok; [|by apply Forall_join|done].
  apply (updates_ok chunks []); [by apply hash_starts_ok|constructor|done|done|cbn; lia].
Qed.
End Pieces.

(** C25: MD5 and SHA-1 as PolarSSL computes them, on 64-bit words and through a buffer, are the
    functions of RFC 1321 and FIPS 180-1: however the message is cut into updates, the digest
    is that of the whole message.  Updates are shorter than 2^32 bytes, which is when the
    length counter is right. *)
Theorem hashes_match_standards chunks c :
  length (h_buffer c) = 64%nat -> Forall bytes_ok chunks -> Forall (fun d => Z.of_nat (length d) < 2 ^ 32) chunks ->
  Z.of_nat (length (mjoin chunks)) < 2 ^ 61 ->
  snd (md5_finish (foldl md5_update (md5_starts c) chunks)) = digest MD5 (mjoin chunks) /\
  snd (sha1_finish (foldl sha1_update (sha1_starts c) chunks)) = digest SHA1 (mjoin chunks).
Proof. intros. split; [by apply (streamed_ok (H := md5_alg))|by apply (streamed_ok (H := sha1_alg))]. Qed.

(** "abc" in two pieces; the digests are those of the standards. *)
Definition abc_c : hash_ctx := Hctx 0 0 [] (zeros 64) [] [].

Lemma hashes_match_standards_witness :
  snd (md5_finish (md5_update (md5_update (md5_starts abc_c) [97]) [98; 99])) = digest MD5 [97; 98; 99] /\
  be_value (digest MD5 [97; 98; 99]) = 0x900150983cd24fb0d6963f7d28e17f72 /\
  be_value (digest SHA1 [97; 98; 99]) = 0xa9993e364706816aba3e25717850c26c9cd0d89d.
Proof.
  split; [|split; vm_compute; reflexivity].
  apply (hashes_match_standards [[97]; [98; 99]] abc_c eq_refl);
    [repeat constructor; unfold byte_ok; lia|repeat constructor|reflexivity].
Defined.
