(* ===== verification/Prf.v ===== *)
(** * The pseudo-random function of TLS 1.0

    [tls1_prf] of PolarSSL's ssl_tls.c (src/host/linux-3.0/drivers/priv/polarssl), from
    which the two sides of a key exchange take their keys.  It works in one buffer of 128
    bytes that holds the chain value and the seed side by side.  It computes the PRF of RFC
    2246 with the MD5, SHA-1 and HMAC of their own standards. *)

From S2P Require Import Prelude Hash HashSpec.

Definition POLARSSL_ERR_SSL_BAD_INPUT_DATA : Z := -28928.    (* -0x7100 *)

(** One of the two loops: [for( i = 0; i < dlen; i += L )] with the chain value at
    [tmp + off]; each byte of the output goes through [op].  As many turns as there are
    bytes are enough. *)
Fixpoint prf_loop (mac : bytes -> bytes) (op : Z -> Z -> Z) (L off nb dlen : nat) (n i : nat) (tmp dstbuf : bytes) : bytes * bytes :=
  match n with
  | O => (tmp, dstbuf)
  | S n =>
      if (i <? dlen)%nat then
        let h_i := mac (slice off (L + nb) tmp) in
        let tmp := splice off (mac (slice off L tmp)) tmp in
        let k := if (dlen <? i + L)%nat then (dlen mod L)%nat else L in
        let dstbuf := splice i (zip_with op (slice i k dstbuf) (take k h_i)) dstbuf in
        prf_loop mac op L off nb dlen n (i + L) tmp dstbuf
      else (tmp, dstbuf)
  end.

(** [tls1_prf] over its two macs, from the halves of the secret on: [tmp] is the buffer on
    the stack, [dstbuf] what the output buffer holds. *)
Definition prf_body (mac1 mac2 : bytes -> bytes) (tmp label random dstbuf : bytes) : bytes :=
  let dlen := length dstbuf in
  let nb := length label in
  let tmp := splice 20 label tmp in
  let tmp := splice (20 + nb) random tmp in
  let nb := (nb + length random)%nat in
  let tmp := splice 4 (mac1 (slice 20 nb tmp)) tmp in
  let '(tmp, dstbuf) := prf_loop mac1 (fun _ h => h) 16 4 nb dlen dlen 0 tmp dstbuf in
  let tmp := splice 0 (mac2 (slice 20 nb tmp)) tmp in
  let '(tmp, dstbuf) := prf_loop mac2 Z.lxor 20 0 nb dlen dlen 0 tmp dstbuf in
  dstbuf.

(** [tls1_prf]: the status and [dstbuf].  [junk] is a hash context on the stack. *)
Definition tls1_prf (junk : hash_ctx) (tmp : bytes) (secret label random dstbuf : bytes) : Z * bytes :=
  let slen := length secret in
  if (128 <? 20 + length label + length random)%nat then (POLARSSL_ERR_SSL_BAD_INPUT_DATA, dstbuf) else
  let hs := ((slen + 1) / 2)%nat in
  let S1 := take hs secret in
  let S2 := slice (slen - hs) hs secret in
  (0, prf_body (md5_hmac junk S1) (sha1_hmac junk S2) tmp label random dstbuf).

(** ** RFC 2246 *)

(** [HMAC(A(i) + seed) + HMAC(A(i+1) + seed) + ...], [n] terms *)
Fixpoint p_hash (mac : bytes -> bytes) (seed : bytes) (n : nat) (A : bytes) : bytes :=
  match n with
  | O => []
  | S n => mac (A ++ seed) ++ p_hash mac seed n (mac A)
  end.

(** [P_hash(secret, seed)] to [len] bytes: A(0) = seed, A(i) = HMAC(A(i-1)) *)
Definition P_hash (F : hash_fun) (secret seed : bytes) (len : nat) : bytes :=
  let mac := hmac_spec F secret in
  take len (p_hash mac seed len (mac seed)).

(** The halves of the secret share a byte where its length is odd. *)
Definition PRF (secret label seed : bytes) (len : nat) : bytes :=
  let half := ((length secret + 1) / 2)%nat in
  xor_bytes (P_hash MD5 (take half secret) (label ++ seed) len)
    (P_hash SHA1 (drop (length secret - half) secret) (label ++ seed) len).

(** ** The loops *)

Lemma length_p_hash mac seed L : (forall m, length (mac m) = L) -> forall n A, length (p_hash mac seed n A) = (n * L)%nat.
Proof. intros HL. induction n as [|n IH]; intros A; [done|]. cbn [p_hash]. rewrite length_app, HL, IH. lia. Qed.

Section Loop.
Variables (mac : bytes -> bytes) (op : Z -> Z -> Z) (L off : nat) (seed pre : bytes) (dlen : nat).
Hypothesis HL : forall m, length (mac m) = L.
Hypothesis HL0 : (0 < L)%nat.
Hypothesis Hoff : length pre = off.

(** The buffer around a chain value *)
Definition frame (A post : bytes) : bytes := pre ++ A ++ seed ++ post.

Lemma frame_A A post : length A = L -> slice off L (frame A post) = A.
Proof. intros HA. unfold slice, frame. by rewrite drop_app_length', take_app_length' by lia. Qed.

Lemma frame_seed A post : length A = L -> slice off (L + length seed) (frame A post) = A ++ seed.
Proof.
  intros HA. unfold slice, frame. rewrite drop_app_length', !app_assoc by lia. apply take_app_length'. rewrite length_app. lia.
Qed.

Lemma frame_next A B post : length A = L -> length B = L -> splice off B (frame A post) = frame B post.
Proof.
  intros HA HB. unfold splice, frame. rewrite take_app_length' by lia. f_equal. f_equal.
  rewrite app_assoc, drop_app_length'; [done|]. rewrite length_app. lia.
Qed.

(** What is left of the output at [i] *)
Definition written (i : nat) (dst s : bytes) : bytes := take i dst ++ zip_with op (drop i dst) (take (dlen - i) s).

Lemma written_step i dst h s : length dst = dlen -> length h = L -> (i < dlen)%nat ->
  let k := Nat.min L (dlen - i) in
  written (i + L) (splice i (zip_with op (slice i k dst) (take k h)) dst) s = written i dst (h ++ s).
Proof.
  intros Hd Hh Hi k. set (z := zip_with op _ _).
  assert (Hz : length z = k) by (unfold z, slice; rewrite length_zip_with, !length_take, length_drop; lia).
  assert (Hs : length (splice i z dst) = dlen) by (rewrite length_splice; lia). unfold written.
  destruct (le_lt_dec (dlen - i) L) as [Hk|Hk].
  - assert (Ek : k = (dlen - i)%nat) by lia. rewrite take_ge, (drop_ge (splice i z dst)) by lia. cbn [zip_with]. rewrite app_nil_r.
    rewrite take_app_le by lia. unfold splice. rewrite drop_ge, app_nil_r by lia. f_equal. unfold z, slice. rewrite Ek, (take_ge (drop i dst)) by (rewrite length_drop; lia). done.
  - assert (Ek : k = L) by lia. unfold splice. rewrite Hz, Ek, app_assoc.
    rewrite take_app_length', drop_app_length' by (rewrite length_app, length_take; lia). rewrite <- app_assoc. f_equal.
    rewrite take_app_ge by lia. rewrite Hh. unfold z, slice. rewrite Ek, (take_ge h) by lia.
    rewrite <- (take_drop L (drop i dst)) at 2. rewrite drop_drop, zip_with_app by (rewrite length_take, length_drop; lia). do 3 f_equal. lia.
Qed.

Lemma prf_loop_ok n : forall (j : nat) A post dst, length A = L -> length dst = dlen -> (dlen - j * L <= n)%nat ->
  exists A', prf_loop mac op L off (length seed) dlen n (j * L) (frame A post) dst =
    (frame A' post, written (j * L) dst (p_hash mac seed n A)) /\ length A' = L.
Proof.
  induction n as [|n IH]; intros j A post dst HA Hd Hn; cbn [prf_loop p_hash].
  { exists A. split; [|done]. unfold written. rewrite take_ge, drop_ge by lia. cbn [zip_with]. by rewrite app_nil_r. }
  destruct (Nat.ltb_spec (j * L) dlen) as [Hj|Hj].
  2: { exists A. split; [|done]. unfold written. rewrite take_ge, drop_ge by lia. cbn [zip_with]. by rewrite app_nil_r. }
  rewrite frame_A, frame_seed, frame_next by (done || apply HL). set (h := mac (A ++ seed)).
  assert (Ek : (if (dlen <? j * L + L)%nat then (dlen mod L)%nat else L) = Nat.min L (dlen - j * L)).
  { destruct (Nat.ltb_spec dlen (j * L + L)); [|lia]. rewrite <- (Nat.mod_unique dlen L j (dlen - j * L)) by lia. lia. }
  rewrite Ek. set (dst1 := splice _ _ dst). replace (j * L + L)%nat with (S j * L)%nat by lia.
  destruct (IH (S j) (mac A) post dst1) as (A' & -> & HA'); [apply HL| |lia|].
  { unfold dst1. rewrite length_splice; [done|]. rewrite length_zip_with. unfold slice. rewrite !length_take, length_drop, Hd. lia. }
  exists A'. split; [|done]. f_equal. unfold dst1. replace (S j * L)%nat with (j * L + L)%nat by lia. apply written_step; [done|apply HL|done].
Qed.

Lemma prf_run_ok A post dst : length A = L -> length dst = dlen ->
  exists A', prf_loop mac op L off (length seed) dlen dlen 0 (frame A post) dst =
    (frame A' post, zip_with op dst (take dlen (p_hash mac seed dlen A))) /\ length A' = L.
Proof.
  intros HA Hd. destruct (prf_loop_ok dlen 0 A post dst HA Hd ltac:(lia)) as (A' & E & HA'). exists A'. split; [|done].
  cbn [Nat.mul] in E. rewrite E. unfold written. by rewrite Nat.sub_0_r, drop_0.
Qed.
End Loop.

Lemma splice_twice n (a b l : bytes) : (n <= length l)%nat -> splice (n + length a) b (splice n a l) = splice n (a ++ b) l.
Proof.
  intros Hn. replace (splice n a l) with ((take n l ++ a) ++ drop (n + length a) l) by (unfold splice; by rewrite app_assoc).
  assert (Hl : length (take n l ++ a) = (n + length a)%nat) by (rewrite length_app, length_take; lia).
  unfold splice. rewrite take_app_length', drop_app_ge, drop_drop, <- !app_assoc, Hl by lia. do 4 f_equal. rewrite length_app. lia.
Qed.

Lemma zip_with_snd (a b : bytes) : length a = length b -> zip_with (fun _ h => h) a b = b.
Proof. revert b. induction a as [|x a IH]; intros [|y b] E; try done. cbn. f_equal. apply IH. by injection E. Qed.

Lemma prf_body_ok mac1 mac2 tmp label random dst :
  (forall m, length (mac1 m) = 16%nat) -> (forall m, length (mac2 m) = 20%nat) -> length tmp = 128%nat ->
  let seed := label ++ random in let n := length dst in
  prf_body mac1 mac2 tmp label random dst =
    xor_bytes (take n (p_hash mac1 seed n (mac1 seed))) (take n (p_hash mac2 seed n (mac2 seed))).
Proof.
  intros L1 L2 Ht seed n. unfold prf_body. fold n. assert (Hseed : length seed = (length label + length random)%nat) by apply length_app.
  set (post := drop (20 + length seed) tmp). set (p20 := take 20 tmp). assert (Lp : length p20 = 20%nat) by (unfold p20; rewrite length_take; lia).
  assert (Etmp : splice (20 + length label) random (splice 20 label tmp) = frame seed [] p20 post) by (by rewrite splice_twice by lia).
  rewrite Etmp, <- Hseed. assert (Eseed : forall pre A, (length pre + length A = 20)%nat -> slice 20 (length seed) (frame seed pre A post) = seed).
  { intros pre A HA. unfold slice, frame. by rewrite app_assoc, drop_app_length', take_app_length' by (rewrite ?length_app; lia). }
  rewrite Eseed by (cbn; lia). set (A1 := mac1 seed). specialize (L1 seed) as LA1. fold A1 in LA1.
  assert (Ef : splice 4 A1 (frame seed [] p20 post) = frame seed (take 4 p20) A1 post).
  { unfold splice, frame. cbn [app]. rewrite take_app_le, LA1, drop_app_length' by lia. done. }
  rewrite Ef. destruct (prf_run_ok mac1 (fun _ h => h) 16 4 seed (take 4 p20) n) with (A := A1) (post := post) (dst := dst)
    as (A' & E & LA'); [done|lia|rewrite length_take; lia|done|done|].
  rewrite E, Eseed by (rewrite length_take; lia). set (A2 := mac2 seed). specialize (L2 seed) as LA2. fold A2 in LA2.
  assert (Eg : splice 0 A2 (frame seed (take 4 p20) A' post) = frame seed [] A2 post).
  { unfold splice, frame. rewrite take_0. cbn [app Nat.add]. f_equal. rewrite LA2, app_assoc, drop_app_length'; [done|]. rewrite length_app, length_take. lia. }
  rewrite Eg. set (w := take n (p_hash mac1 seed n A1)).
  assert (Lw : length w = n) by (unfold w; rewrite length_take, (length_p_hash _ _ 16) by done; lia).
  rewrite zip_with_snd by done.
  destruct (prf_run_ok mac2 Z.lxor 20 0 seed [] n) with (A := A2) (post := post) (dst := w) as (A'' & E' & _); [done|lia|done|done|done|].
  by rewrite E'.
Qed.

(** ** The macs *)

Section MacLength.
Context {H : HashAlg}.
Variable k : nat.
Hypothesis Hinit : length ha_init = k.
Hypothesis Hproc : forall st blk, length (ha_process st blk) = k.
Hypothesis Hput : forall x, length (ha_put x) = 4%nat.

Lemma length_while n : forall st m, length st = k -> length (fst (hash_while n st m)) = k.
Proof. induction n as [|n IH]; intros st m Hst; [done|]. cbn [hash_while]. destruct (64 <=? length m)%nat; [apply IH, Hproc|done]. Qed.

Lemma length_update c d : length (h_state c) = k -> length (h_state (hash_update c d)) = k.
Proof.
  intros Hc. unfold hash_update. destruct (_ =? 0)%nat; [done|]. set (b := negb _ && _).
  destruct b; cbv beta iota; match goal with |- context [hash_while ?n ?st ?m] =>
    pose proof (length_while n st m) as E; destruct (hash_while n st m) end; cbn [fst h_state] in *; auto.
Qed.

Lemma length_hmac junk key m : length (hmac junk key m) = (4 * k)%nat.
Proof.
  unfold hmac, hmac_finish. destruct (hash_finish (hmac_update _ _)) as [c t]. unfold hash_finish. cbv zeta. cbn [snd].
  rewrite length_join_words by done. f_equal. by do 4 apply length_update.
Qed.
End MacLength.

Lemma length_md5_hmac junk key m : length (md5_hmac junk key m) = 16%nat.
Proof.
  apply (length_hmac 4); [done| |done]. intros st blk. cbn [md5_alg ha_process]. unfold md5_process. by destruct (foldl _ _ md5_rows4) as [[[? ?] ?] ?].
Qed.

Lemma length_sha1_hmac junk key m : length (sha1_hmac junk key m) = 20%nat.
Proof.
  apply (length_hmac 5); [done| |done]. intros st blk. cbn [sha1_alg ha_process]. unfold sha1_process.
  by destruct (foldl _ _ [60; 65; 70; 75]%nat) as [[[[[? ?] ?] ?] ?] ?].
Qed.

(** Where two macs agree on short byte strings, so do their streams. *)
Lemma p_hash_ext mac mac' seed L : (length seed <= 108)%nat -> (L <= 20)%nat -> bytes_ok seed ->
  (forall m, bytes_ok m -> (length m <= 128)%nat -> mac m = mac' m) -> (forall m, length (mac m) = L) -> (forall m, bytes_ok (mac' m)) ->
  forall n A, bytes_ok A -> length A = L -> p_hash mac seed n A = p_hash mac' seed n A.
Proof.
  intros Hs HL20 Hsok He HL Hok n. induction n as [|n IH]; intros A HA LA; [done|]. cbn [p_hash].
  rewrite He by (by apply Forall_app || (rewrite length_app; lia)). f_equal.
  rewrite IH; [|rewrite He by (done || lia); apply Hok|apply HL]. by rewrite (He A) by (done || lia).
Qed.

Section Mac.
Variables (junk : hash_ctx) (secret : bytes).
Hypothesis Hjunk : length (h_buffer junk) = 64%nat.
Hypothesis Hsecret : bytes_ok secret.
Hypothesis Hslen : Z.of_nat (length secret) < 2 ^ 32.

Lemma md5_hmac_ok m : bytes_ok m -> (length m <= 128)%nat -> md5_hmac junk secret m = hmac_spec MD5 secret m.
Proof. intros Hm Hl. apply hmac_ok; try done; [lia|]. intros x. rewrite length_MD5. lia. Qed.

Lemma sha1_hmac_ok m : bytes_ok m -> (length m <= 128)%nat -> sha1_hmac junk secret m = hmac_spec SHA1 secret m.
Proof. intros Hm Hl. apply hmac_ok; try done; [lia|]. intros x. rewrite length_SHA1. lia. Qed.

Lemma P_md5_ok seed n : bytes_ok seed -> (length seed <= 108)%nat ->
  take n (p_hash (md5_hmac junk secret) seed n (md5_hmac junk secret seed)) = P_hash MD5 secret seed n.
Proof.
  intros Hs Hl. unfold P_hash. rewrite <- md5_hmac_ok by (done || lia). f_equal. apply (p_hash_ext _ _ _ 16); try done; [lia|apply md5_hmac_ok|apply length_md5_hmac| | |apply length_md5_hmac].
  - intros m. apply (bytes_ok_digest (H := md5_alg)).
  - rewrite md5_hmac_ok by (done || lia). apply (bytes_ok_digest (H := md5_alg)).
Qed.

Lemma P_sha1_ok seed n : bytes_ok seed -> (length seed <= 108)%nat ->
  take n (p_hash (sha1_hmac junk secret) seed n (sha1_hmac junk secret seed)) = P_hash SHA1 secret seed n.
Proof.
  intros Hs Hl. unfold P_hash. rewrite <- sha1_hmac_ok by (done || lia). f_equal. apply (p_hash_ext _ _ _ 20); try done; [apply sha1_hmac_ok|apply length_sha1_hmac| | |apply length_sha1_hmac].
  - intros m. apply (bytes_ok_digest (H := sha1_alg)).
  - rewrite sha1_hmac_ok by (done || lia). apply (bytes_ok_digest (H := sha1_alg)).
Qed.
End Mac.

(** The output buffer is filled, whatever the secret is. *)
Lemma tls1_prf_length junk tmp secret label random dst : length tmp = 128%nat -> (length label + length random <= 108)%nat ->
  exists out, tls1_prf junk tmp secret label random dst = (0, out) /\ length out = length dst.
Proof.
  intros Ht Hl. unfold tls1_prf. replace (128 <? _)%nat with false by (symmetry; apply Nat.ltb_ge; lia). eexists. split; [reflexivity|].
  rewrite prf_body_ok; [|intros; apply length_md5_hmac|intros; apply length_sha1_hmac|assumption]. cbv zeta.
  rewrite length_xor_bytes, !length_take, (length_p_hash _ _ 16), (length_p_hash _ _ 20); [lia|intros; apply length_sha1_hmac|intros; apply length_md5_hmac].
Qed.

Lemma tls1_prf_run junk tmp secret label random dst :
  length (h_buffer junk) = 64%nat -> length tmp = 128%nat -> bytes_ok secret -> Z.of_nat (length secret) < 2 ^ 32 ->
  bytes_ok label -> bytes_ok random -> (length label + length random <= 108)%nat ->
  tls1_prf junk tmp secret label random dst = (0, PRF secret label random (length dst)).
Proof.
  intros Hj Ht Hs Hsl Hl Hr Hlr. unfold tls1_prf, PRF. replace (128 <? _)%nat with false by (symmetry; apply Nat.ltb_ge; lia).
  set (hs := ((length secret + 1) / 2)%nat). assert (Hsok : bytes_ok (label ++ random)) by by apply Forall_app.
  assert (Hhs : (hs <= length secret)%nat) by (unfold hs; pose proof (Nat.div_mod_eq (length secret + 1) 2); destruct (length secret); [done|lia]).
  assert (E2 : slice (length secret - hs) hs secret = drop (length secret - hs) secret) by (apply take_ge; rewrite length_drop; lia).
  rewrite E2, prf_body_ok; [|intros; apply length_md5_hmac|intros; apply length_sha1_hmac|assumption]. cbv zeta.
  assert (Hlen : (length (label ++ random) <= 108)%nat) by (rewrite length_app; lia).
  pose proof (P_md5_ok junk (take hs secret) Hj) as E3. pose proof (P_sha1_ok junk (drop (length secret - hs) secret) Hj) as E4.
  rewrite E3; [|by apply Forall_take|rewrite length_take; lia|assumption|assumption].
  rewrite E4; [reflexivity|by apply Forall_drop|rewrite length_drop; lia|assumption|assumption].
Qed.

Lemma length_hmac_spec F L key m : (forall x, length (digest F x) = L) -> length (hmac_spec F key m) = L.
Proof. intros HL. apply HL. Qed.

Lemma length_PRF secret label seed n : length (PRF secret label seed n) = n.
Proof.
  unfold PRF, P_hash. rewrite length_xor_bytes, !length_take, (length_p_hash _ _ 16), (length_p_hash _ _ 20); [lia|intros; apply length_hmac_spec..].
  - apply length_SHA1.
  - apply length_MD5.
Qed.

Lemma bytes_ok_PRF secret label seed n : bytes_ok (PRF secret label seed n).
Proof.
  assert (Hp : forall F, (forall m, bytes_ok (digest F m)) -> forall key seed n k A, bytes_ok (take k (p_hash (hmac_spec F key) seed n A))).
  { intros F HF key sd k n'. intros A. apply Forall_take. revert A. induction k as [|k IH]; intros A; [constructor|]. cbn [p_hash].
    apply Forall_app. split; [apply HF|apply IH]. }
  apply bytes_ok_xor; apply Hp; [apply (bytes_ok_digest (H := md5_alg))|apply (bytes_ok_digest (H := sha1_alg))].
Qed.

(** C8: [tls1_prf], with its 128-byte buffer and its two loops over the output, is the PRF of RFC
    2246, for every length of output, odd and even secrets, and whatever the buffers hold
    before; labels and seeds that do not fit the buffer are refused. *)
Theorem tls1_prf_is_rfc2246 junk tmp secret label random dst :
  length (h_buffer junk) = 64%nat -> length tmp = 128%nat -> bytes_ok secret -> Z.of_nat (length secret) < 2 ^ 32 ->
  bytes_ok label -> bytes_ok random ->
  tls1_prf junk tmp secret label random dst =
    if (108 <? length label + length random)%nat then (POLARSSL_ERR_SSL_BAD_INPUT_DATA, dst)
    else (0, PRF secret label random (length dst)).
Proof.
  intros Hj Ht Hs Hsl Hl Hr. destruct (Nat.ltb_spec 108 (length label + length random)) as [H|H].
  - unfold tls1_prf. by replace (128 <? _)%nat with true by (symmetry; apply Nat.ltb_lt; lia).
  - apply tls1_prf_run; assumption.
Qed.

Lemma tls1_prf_is_rfc2246_witness :
  tls1_prf (Hctx 0 0 [] (zeros 64) [] []) (replicate 128 7) [1; 2; 3; 4; 5] [107; 101; 121] (seqZ 0 20) (replicate 21 9)
    = (0, PRF [1; 2; 3; 4; 5] [107; 101; 121] (seqZ 0 20) 21).
Proof.
  apply (tls1_prf_is_rfc2246 (Hctx 0 0 [] (zeros 64) [] []) (replicate 128 7) [1; 2; 3; 4; 5] [107; 101; 121] (seqZ 0 20) (replicate 21 9)
    eq_refl eq_refl); [by apply bytes_ok_check|reflexivity|by apply bytes_ok_check|by apply bytes_ok_check].
Defined.
