(* ===== verification/BlkCipher.v ===== *)
(** * The kernel's synchronous block-cipher interface

    What the private drivers use of linux-3.0/include/linux/crypto.h: a
    transform ([struct crypto_blkcipher]) with a key and an IV that persists from
    call to call, and what they rely on for "ctr(aes)": it is a stream cipher
    whose key stream splits at block boundaries.  [Ctr] implements it. *)

From S2P Require Import Prelude.

(** [crypto_alloc_blkcipher], [crypto_blkcipher_setkey],
    [crypto_blkcipher_set_iv], [crypto_blkcipher_encrypt],
    [crypto_blkcipher_decrypt]; the last two return the status, the transform
    afterwards and the data. *)
Class BlkCipher := {
  tfm : Type;
  tfm_fresh : tfm;
  blk_setkey : tfm -> bytes -> Z * tfm;
  blk_set_iv : tfm -> bytes -> tfm;
  blk_encrypt : tfm -> bytes -> Z * tfm * bytes;
  blk_decrypt : tfm -> bytes -> Z * tfm * bytes;
}.

Definition aes_key_len (n : nat) : bool := (n =? 16)%nat || (n =? 24)%nat || (n =? 32)%nat.

Class StreamCipher (B : BlkCipher) := {
  tfm_ok : tfm -> Prop;
  stream : tfm -> nat -> bytes;
  next : tfm -> nat -> tfm;

  fresh_ok : tfm_ok tfm_fresh;
  setkey_rc : forall t k, fst (blk_setkey t k) = if aes_key_len (length k) then 0 else - EINVAL;
  setkey_ok : forall t k, tfm_ok t -> tfm_ok (snd (blk_setkey t k));
  set_iv_ok : forall t iv, tfm_ok t -> length iv = 16%nat -> bytes_ok iv -> tfm_ok (blk_set_iv t iv);
  set_iv_again : forall t n iv iv', tfm_ok t -> length iv = 16%nat -> bytes_ok iv -> length iv' = 16%nat ->
    blk_set_iv (next (blk_set_iv t iv) n) iv' = blk_set_iv t iv';
  encrypt_stream : forall t d, tfm_ok t ->
    blk_encrypt t d = (0, next t (length d), xor_bytes d (stream t (length d)));
  decrypt_stream : forall t d, tfm_ok t ->
    blk_decrypt t d = (0, next t (length d), xor_bytes d (stream t (length d)));
  stream_length : forall t n, length (stream t n) = n;
  stream_bytes : forall t n, bytes_ok (stream t n);
  stream_split : forall t m n,
    stream t (16 * m + n) = stream t (16 * m) ++ stream (next t (16 * m)) n;
  next_split : forall t m n, next t (16 * m + n) = next (next t (16 * m)) n;
  next_zero : forall t, next t 0 = t;
  next_ok : forall t n, tfm_ok t -> tfm_ok (next t n);
}.

Section StreamFacts.
Context {B : BlkCipher} {L : StreamCipher B}.

(** A whole message under a stream cipher. *)
Definition stream_xor (t : tfm) (d : bytes) : bytes := xor_bytes d (stream t (length d)).

Lemma length_stream_xor t d : length (stream_xor t d) = length d.
Proof. unfold stream_xor. rewrite length_xor_bytes, stream_length. lia. Qed.

Lemma stream_xor_app t a b m :
  length a = (16 * m)%nat ->
  stream_xor t (a ++ b) = stream_xor t a ++ stream_xor (next t (length a)) b.
Proof.
  intros Ha. unfold stream_xor. rewrite length_app, Ha, stream_split.
  apply xor_bytes_app. by rewrite stream_length.
Qed.

Lemma stream_xor_involutive t d : stream_xor t (stream_xor t d) = d.
Proof.
  unfold stream_xor at 1. rewrite length_stream_xor.
  apply xor_bytes_involutive. by rewrite stream_length.
Qed.

Lemma bytes_ok_stream_xor t d : bytes_ok d -> bytes_ok (stream_xor t d).
Proof. intros. apply bytes_ok_xor; [done|apply stream_bytes]. Qed.

End StreamFacts.
