(* ===== verification/Ctr.v ===== *)
(** * Counter mode: the stream cipher under every ephemeral channel

    The kernel side of a channel uses "ctr(aes)" of linux-3.0/crypto (ctr.c and
    algapi.c); the user side uses the AES-NI assembly of libprivcrypt.  Both are
    modelled here over one block function, and shown to produce the same key
    stream and the same next counter. *)

From S2P Require Import Prelude BlkCipher.

(** ** The block cipher

    [crypto_cipher_encrypt_one] of the "aes" algorithm with an expanded key. *)
Class BlockCipher := {
  encrypt_one : bytes -> bytes -> bytes;
  encrypt_one_length : forall key blk, length (encrypt_one key blk) = 16%nat;
  encrypt_one_bytes : forall key blk, bytes_ok (encrypt_one key blk);
}.

Definition bsize : nat := 16.

(** ** crypto/algapi.c *)

(** Big-endian increment, a byte at a time from the end. *)
Fixpoint crypto_inc_byte (a : bytes) (size : nat) : bytes :=
  match size with
  | O => a
  | S s =>
      let c := u8 (default 0 (a !! s) + 1) in
      let a' := <[s := c]> a in
      if truthy c then a' else crypto_inc_byte a' s
  end.

(** Big-endian increment, a [__be32] at a time from the end. *)
Fixpoint crypto_inc (a : bytes) (size : nat) : bytes :=
  match size with
  | S (S (S (S s))) =>
      let c := u32 (be_value (slice s 4 a) + 1) in
      let a' := splice s (be_bytes 4 c) a in
      if truthy c then a' else crypto_inc a' s
  | _ => crypto_inc_byte a size
  end.

(** [dst ^= src] over [size] bytes. *)
Definition crypto_xor (dst src : bytes) (size : nat) : bytes :=
  xor_bytes (take size dst) (take size src) ++ drop size dst.

Section Ctr.
Context `{BC : BlockCipher}.

(** ** crypto/ctr.c

    The state of a transform is its key and the counter block [iv]. *)

(** The do-while loop: [src] starts at the next block, [nbytes] are left. *)
Fixpoint crypto_ctr_crypt_inplace (fuel : nat) (key ctrblk src : bytes) (nbytes : nat)
  : bytes * bytes * nat :=
  match fuel with
  | O => (src, ctrblk, nbytes)
  | S fuel' =>
      let keystream := encrypt_one key ctrblk in
      let src := crypto_xor src keystream bsize in
      let ctrblk := crypto_inc ctrblk bsize in
      let nbytes := (nbytes - bsize)%nat in
      if (bsize <=? nbytes)%nat then
        let '(rest, ctrblk, nbytes) :=
          crypto_ctr_crypt_inplace fuel' key ctrblk (drop bsize src) nbytes in
        (take bsize src ++ rest, ctrblk, nbytes)
      else (src, ctrblk, nbytes)
  end.

Definition crypto_ctr_crypt_final (key ctrblk src : bytes) : bytes * bytes :=
  let nbytes := length src in
  let keystream := encrypt_one key ctrblk in
  let keystream := crypto_xor keystream src nbytes in
  (take nbytes keystream, crypto_inc ctrblk bsize).

(** One contiguous, aligned segment, source and destination equal: the walk
    yields the whole segment first and then the bytes short of a block. *)
Definition crypto_ctr_crypt (key iv data : bytes) : bytes * bytes :=
  let total := length data in
  let '(data, iv, rem) :=
    if (bsize <=? total)%nat
    then crypto_ctr_crypt_inplace total key iv data total
    else (data, iv, total) in
  if (0 <? rem)%nat then
    let n := (total - rem)%nat in
    let '(tl, iv) := crypto_ctr_crypt_final key iv (drop n data) in
    (take n data ++ tl, iv)
  else (data, iv).

(** ** aesni-intel_asm.S *)

(** [_aesni_inc]: the counter as two little-endian quadwords. *)
Definition aesni_inc (iv : bytes) : bytes :=
  let hi := be_value (take 8 iv) in
  let lo := be_value (drop 8 iv) in
  let lo' := u64 (lo + 1) in
  let hi' := if lo + 1 =? 2 ^ 64 then u64 (hi + 1) else hi in
  be_bytes 8 hi' ++ be_bytes 8 lo'.

(** Encrypt one 16-byte block at the head of [inp]. *)
Definition aesni_block (key iv inp : bytes) : bytes * bytes :=
  (xor_bytes (encrypt_one key iv) (take 16 inp), aesni_inc iv).

(** [.Lctr_enc_loop1] *)
Fixpoint aesni_ctr_loop1 (fuel : nat) (key iv inp : bytes) (len : nat) : bytes * bytes * nat :=
  match fuel with
  | O => (inp, iv, len)
  | S fuel' =>
      let '(out, iv) := aesni_block key iv inp in
      let len := (len - 16)%nat in
      if (16 <=? len)%nat then
        let '(rest, iv, len) := aesni_ctr_loop1 fuel' key iv (drop 16 inp) len in
        (out ++ rest, iv, len)
      else (out ++ drop 16 inp, iv, len)
  end.

(** [.Lctr_enc_loop4]: four counters are taken before four blocks are encrypted. *)
Fixpoint aesni_ctr_loop4 (fuel : nat) (key iv inp : bytes) (len : nat) : bytes * bytes * nat :=
  match fuel with
  | O => (inp, iv, len)
  | S fuel' =>
      let iv1 := iv in let iv2 := aesni_inc iv1 in
      let iv3 := aesni_inc iv2 in let iv4 := aesni_inc iv3 in
      let iv := aesni_inc iv4 in
      let out := xor_bytes (encrypt_one key iv1) (slice 0 16 inp)
              ++ xor_bytes (encrypt_one key iv2) (slice 16 16 inp)
              ++ xor_bytes (encrypt_one key iv3) (slice 32 16 inp)
              ++ xor_bytes (encrypt_one key iv4) (slice 48 16 inp) in
      let len := (len - 64)%nat in
      if (64 <=? len)%nat then
        let '(rest, iv, len) := aesni_ctr_loop4 fuel' key iv (drop 64 inp) len in
        (out ++ rest, iv, len)
      else if (len <? 16)%nat then (out ++ drop 64 inp, iv, len)
      else
        let '(rest, iv, len) := aesni_ctr_loop1 len key iv (drop 64 inp) len in
        (out ++ rest, iv, len)
  end.

(** The data after the call and the counter stored back. *)
Definition aesni_ctr_enc (key iv data : bytes) (len : nat) : bytes * bytes :=
  if (len <? 16)%nat then (data, iv)
  else if (len <? 64)%nat then
    let '(out, iv, _) := aesni_ctr_loop1 len key iv data len in (out, iv)
  else
    let '(out, iv, _) := aesni_ctr_loop4 len key iv data len in (out, iv).

(** ** The reference: key stream and counter arithmetic *)

Definition ctr_succ (iv : bytes) : bytes := be_bytes 16 (be_value iv + 1).

Fixpoint ks_blocks (key iv : bytes) (n : nat) : bytes :=
  match n with
  | O => []
  | S n' => encrypt_one key iv ++ ks_blocks key (ctr_succ iv) n'
  end.

Definition nblocks (n : nat) : nat := ((n + 15) / 16)%nat.
Definition keystream (key iv : bytes) (n : nat) : bytes := take n (ks_blocks key iv (nblocks n)).
Definition ctr_adv (iv : bytes) (n : nat) : bytes := Nat.iter (nblocks n) ctr_succ iv.

Definition ctr_ref (key iv data : bytes) : bytes * bytes :=
  (xor_bytes data (keystream key iv (length data)), ctr_adv iv (length data)).

End Ctr.

(** ** Increment *)

Lemma crypto_inc_app k p q :
  length p = (4 * k)%nat -> bytes_ok p ->
  crypto_inc (p ++ q) (4 * k) = be_bytes (4 * k) (be_value p + 1) ++ q.
Proof.
  revert p q. induction k as [|k IH]; intros p q Hl Hok.
  { destruct p; [done|simpl in Hl; lia]. }
  assert (exists p' w, p = p' ++ w /\ length p' = (4 * k)%nat /\ length w = 4%nat) as (p' & w & -> & Hp' & Hw).
  { exists (take (4 * k) p), (drop (4 * k) p). rewrite take_drop. repeat split; len. }
  apply Forall_app in Hok as [Hok' Hokw].
  pose proof (be_value_range _ Hokw) as Hr. rewrite Hw in Hr.
  replace (4 * S k)%nat with (S (S (S (S (4 * k))))) by lia.
  cbn [crypto_inc]. rewrite <- app_assoc, <- Hp', <- Hw, slice_split, Hp', Hw.
  set (c := u32 (be_value w + 1)).
  assert (Hc : be_value w + 1 = c \/ (c = 0 /\ be_value w + 1 = 256 ^ 4)).
  { unfold c, u32. destruct (Z.eq_dec (be_value w + 1) (2 ^ 32)) as [->|]; [right; done|left].
    rewrite Z.mod_small; [done|]. simpl Z.of_nat in Hr. change (256 ^ 4) with (2 ^ 32) in Hr. lia. }
  rewrite <- Hp', splice_split, Hp' by (rewrite length_be_bytes; lia).
  replace (S (S (S (S (4 * k))))) with (4 * k + 4)%nat by lia.
  rewrite be_value_app, Hw. destruct Hc as [Hc|[Hc Hmax]].
  - replace (be_value p' * 256 ^ 4%nat + be_value w + 1) with (be_value p' * 256 ^ 4%nat + c) by lia.
    destruct (truthy c) eqn:Ht.
    + rewrite be_bytes_app; [rewrite <- app_assoc; f_equal; rewrite <- Hp'; by rewrite be_bytes_value|].
      unfold c, u32. change (256 ^ 4%nat) with (2 ^ 32). apply Z.mod_pos_bound. lia.
    + unfold truthy in Ht. lia.
  - rewrite Hc. cbn [truthy Z.eqb negb]. rewrite IH by done.
    replace (be_value p' * 256 ^ 4%nat + be_value w + 1) with ((be_value p' + 1) * 256 ^ 4%nat + 0) by lia.
    rewrite be_bytes_app, <- app_assoc; [done|]. split; [lia|]. change (256 ^ 4%nat) with (2 ^ 32). lia.
Qed.

Lemma crypto_inc_succ iv : length iv = 16%nat -> bytes_ok iv -> crypto_inc iv 16 = ctr_succ iv.
Proof.
  intros Hl Hok. rewrite <- (app_nil_r iv) at 1.
  rewrite (crypto_inc_app 4) by done. by rewrite app_nil_r.
Qed.

Lemma aesni_inc_succ iv : length iv = 16%nat -> bytes_ok iv -> aesni_inc iv = ctr_succ iv.
Proof.
  intros Hl Hok. unfold aesni_inc, ctr_succ.
  rewrite <- (take_drop 8 iv) in Hok. apply Forall_app in Hok as [Hh Hlo].
  pose proof (be_value_range _ Hh) as Rh. pose proof (be_value_range _ Hlo) as Rl.
  assert (be_value iv = be_value (take 8 iv) * 256 ^ 8%nat + be_value (drop 8 iv)) as ->.
  { rewrite <- (take_drop 8 iv) at 1. rewrite be_value_app. do 3 f_equal. len. }
  replace (length (take 8 iv)) with 8%nat in Rh by len.
  replace (length (drop 8 iv)) with 8%nat in Rl by len.
  set (h := be_value (take 8 iv)) in *. set (l := be_value (drop 8 iv)) in *.
  change (256 ^ 8%nat) with (2 ^ 64) in *. unfold u64.
  destruct (Z.eqb_spec (l + 1) (2 ^ 64)) as [Heq|Hne].
  - rewrite Heq, Z.mod_same by lia.
    replace (h * 2 ^ 64 + l + 1) with ((h + 1) * 256 ^ 8%nat + 0) by (change (256 ^ 8%nat) with (2 ^ 64); lia).
    rewrite (be_bytes_app 8 8) by lia. f_equal. apply (be_bytes_mod 8).
  - rewrite Z.mod_small by lia.
    replace (h * 2 ^ 64 + l + 1) with (h * 256 ^ 8%nat + (l + 1)) by (change (256 ^ 8%nat) with (2 ^ 64); lia).
    rewrite (be_bytes_app 8 8); [done|]. change (256 ^ 8%nat) with (2 ^ 64). lia.
Qed.

(** ** Counter mode against the reference *)

Section CtrFacts.
Context `{BC : BlockCipher}.

(** A counter block. *)
Definition iv_ok (iv : bytes) : Prop := length iv = 16%nat /\ bytes_ok iv.

Lemma iv_ok_succ iv : iv_ok (ctr_succ iv).
Proof. split; [apply length_be_bytes|apply bytes_ok_be_bytes]. Qed.

Lemma iv_ok_iter n iv : iv_ok iv -> iv_ok (Nat.iter n ctr_succ iv).
Proof. destruct n; [done|]. intros _. apply iv_ok_succ. Qed.

Lemma length_ks_blocks key iv n : length (ks_blocks key iv n) = (16 * n)%nat.
Proof.
  revert iv. induction n; intros; simpl; [done|].
  rewrite length_app, encrypt_one_length, IHn. lia.
Qed.

Lemma bytes_ok_ks_blocks key iv n : bytes_ok (ks_blocks key iv n).
Proof.
  revert iv. induction n; intros; simpl; [constructor|].
  apply Forall_app. split; [apply encrypt_one_bytes|apply IHn].
Qed.

Lemma nblocks_mul m r : (r < 16)%nat -> nblocks (16 * m + r) = (m + nblocks r)%nat.
Proof. intros. unfold nblocks. replace (16 * m + r + 15)%nat with (m * 16 + (r + 15))%nat by lia. apply Nat.div_add_l. lia. Qed.

Lemma nblocks_small r : (0 < r <= 16)%nat -> nblocks r = 1%nat.
Proof. intros. unfold nblocks. symmetry. apply (Nat.div_unique _ 16 1 (r - 1)); lia. Qed.

Lemma length_keystream key iv n : length (keystream key iv n) = n.
Proof.
  unfold keystream, nblocks. rewrite length_take, length_ks_blocks.
  pose proof (Nat.div_mod_eq (n + 15) 16). pose proof (Nat.mod_upper_bound (n + 15) 16). lia.
Qed.

Lemma bytes_ok_keystream key iv n : bytes_ok (keystream key iv n).
Proof. apply Forall_take, bytes_ok_ks_blocks. Qed.

Lemma ks_blocks_add key iv m n :
  ks_blocks key iv (m + n) = ks_blocks key iv m ++ ks_blocks key (Nat.iter m ctr_succ iv) n.
Proof.
  revert iv. induction m as [|m IH]; intros iv; [done|].
  cbn [Nat.add ks_blocks]. by rewrite IH, <- app_assoc, Nat.iter_succ_r.
Qed.

(** The key stream and the counter split at a block boundary. *)
Lemma nblocks_split m n : nblocks (16 * m + n) = (m + nblocks n)%nat.
Proof. unfold nblocks. replace (16 * m + n + 15)%nat with (m * 16 + (n + 15))%nat by lia. apply Nat.div_add_l. lia. Qed.

Lemma keystream_split key iv m n :
  keystream key iv (16 * m + n)
  = keystream key iv (16 * m) ++ keystream key (ctr_adv iv (16 * m)) n.
Proof.
  unfold keystream, ctr_adv. rewrite nblocks_split.
  replace (nblocks (16 * m)) with m
    by (rewrite <- (Nat.add_0_r (16 * m)), nblocks_split; unfold nblocks; simpl; lia).
  rewrite ks_blocks_add, take_app_ge by (rewrite length_ks_blocks; lia).
  rewrite (take_ge _ (16 * m)) by (rewrite length_ks_blocks; lia).
  by rewrite length_ks_blocks, Nat.add_comm, Nat.add_sub.
Qed.

Lemma ctr_adv_split iv m n : ctr_adv iv (16 * m + n) = ctr_adv (ctr_adv iv (16 * m)) n.
Proof.
  unfold ctr_adv. rewrite !nblocks_split.
  replace (nblocks (16 * m)) with m
    by (rewrite <- (Nat.add_0_r (16 * m)), nblocks_split; unfold nblocks; simpl; lia).
  by rewrite <- Nat.iter_add, Nat.add_comm.
Qed.

Lemma ctr_adv_ok iv n : iv_ok iv -> iv_ok (ctr_adv iv n).
Proof. apply iv_ok_iter. Qed.

Lemma crypto_xor_block src ks :
  (16 <= length src)%nat -> length ks = 16%nat ->
  crypto_xor src ks 16 = xor_bytes (take 16 src) ks ++ drop 16 src.
Proof. intros. unfold crypto_xor. by rewrite (take_ge ks) by lia. Qed.

Lemma inplace_blocks fuel key iv src m r :
  iv_ok iv -> length src = (16 * S m + r)%nat -> (r < 16)%nat -> (S m <= fuel)%nat ->
  crypto_ctr_crypt_inplace fuel key iv src (length src)
  = (xor_bytes (take (16 * S m) src) (ks_blocks key iv (S m)) ++ drop (16 * S m) src,
     Nat.iter (S m) ctr_succ iv, r).
Proof.
  revert iv src m. induction fuel as [|fuel IH]; intros iv src m [Hl Hok] Hlen Hr Hf; [lia|].
  cbn [crypto_ctr_crypt_inplace]. unfold bsize.
  rewrite crypto_xor_block by (try apply encrypt_one_length; lia).
  rewrite crypto_inc_succ by done.
  set (blk := xor_bytes (take 16 src) (encrypt_one key iv)).
  assert (Hblk : length blk = 16%nat).
  { unfold blk. rewrite length_xor_bytes, length_take, encrypt_one_length. lia. }
  rewrite drop_app_length', take_app_length' by done.
  destruct m as [|m].
  - replace (16 <=? length src - 16)%nat with false by (symmetry; apply Nat.leb_gt; lia).
    cbn [ks_blocks Nat.iter nat_rect]. rewrite app_nil_r.
    by replace (length src - 16)%nat with r by lia.
  - replace (16 <=? length src - 16)%nat with true by (symmetry; apply Nat.leb_le; lia).
    replace (length src - 16)%nat with (length (drop 16 src)) by len.
    rewrite (IH _ _ m) by (try apply iv_ok_succ; len).
    rewrite drop_drop. replace (16 + 16 * S m)%nat with (16 * S (S m))%nat by lia.
    cbn [ks_blocks]. rewrite app_assoc. unfold blk.
    rewrite <- xor_bytes_app by (rewrite encrypt_one_length, length_take; lia).
    replace (take 16 src ++ take (16 * S m) (drop 16 src)) with (take (16 * S (S m)) src)
      by (replace (16 * S (S m))%nat with (16 + 16 * S m)%nat by lia; symmetry; apply take_take_drop).
    cbn [ks_blocks]. by rewrite !Nat.iter_succ_r.
Qed.

Lemma final_block key iv src :
  iv_ok iv -> (0 < length src < 16)%nat ->
  crypto_ctr_crypt_final key iv src = ctr_ref key iv src.
Proof.
  intros [Hl Hok] Hs. unfold crypto_ctr_crypt_final, ctr_ref, crypto_xor, keystream, ctr_adv.
  rewrite nblocks_small by lia. cbn [ks_blocks Nat.iter nat_rect].
  rewrite crypto_inc_succ, app_nil_r by done. f_equal.
  rewrite take_app_length' by (rewrite length_xor_bytes, !length_take, encrypt_one_length; lia).
  by rewrite xor_bytes_comm, (take_ge src) by lia.
Qed.

Lemma ctr_ref_nil key iv : ctr_ref key iv [] = ([], iv).
Proof. done. Qed.

Lemma ctr_ref_split key iv a b m :
  length a = (16 * m)%nat ->
  ctr_ref key iv (a ++ b)
  = (fst (ctr_ref key iv a) ++ fst (ctr_ref key (snd (ctr_ref key iv a)) b),
     snd (ctr_ref key (snd (ctr_ref key iv a)) b)).
Proof.
  intros Ha. unfold ctr_ref. cbn [fst snd]. rewrite length_app, Ha, keystream_split, ctr_adv_split.
  by rewrite xor_bytes_app by (rewrite length_keystream; lia).
Qed.

Lemma crypto_ctr_crypt_ref key iv data :
  iv_ok iv -> crypto_ctr_crypt key iv data = ctr_ref key iv data.
Proof.
  intros Hiv. unfold crypto_ctr_crypt, bsize.
  pose proof (Nat.div_mod_eq (length data) 16) as Hdm.
  pose proof (Nat.mod_upper_bound (length data) 16 ltac:(lia)) as Hr.
  set (m := (length data / 16)%nat) in *. set (r := (length data mod 16)%nat) in *.
  destruct (Nat.leb_spec 16 (length data)) as [Hge|Hlt].
  - destruct m as [|m]; [lia|].
    rewrite (inplace_blocks _ key iv data m r) by (try done; lia).
    replace (length data - r)%nat with (16 * S m)%nat by lia.
    set (hd := xor_bytes (take (16 * S m) data) (ks_blocks key iv (S m))).
    assert (Hhd : length hd = (16 * S m)%nat).
    { unfold hd. rewrite length_xor_bytes, length_ks_blocks, length_take. lia. }
    assert (Href : ctr_ref key iv (take (16 * S m) data) = (hd, Nat.iter (S m) ctr_succ iv)).
    { unfold ctr_ref, keystream, ctr_adv. rewrite length_take, Nat.min_l by lia.
      rewrite <- (Nat.add_0_r (16 * S m)), nblocks_split. change (nblocks 0) with 0%nat.
      rewrite !Nat.add_0_r. by rewrite (take_ge (ks_blocks _ _ _)) by (rewrite length_ks_blocks; lia). }
    replace (ctr_ref key iv data) with (ctr_ref key iv (take (16 * S m) data ++ drop (16 * S m) data))
      by (by rewrite take_drop).
    rewrite (ctr_ref_split _ _ _ _ (S m)) by len. rewrite Href. cbn [fst snd].
    rewrite drop_app_length', take_app_length' by done.
    destruct (Nat.ltb_spec 0 r) as [Hr0|Hr0].
    + rewrite final_block by (try (by apply iv_ok_iter); len). by destruct (ctr_ref _ _ (drop _ _)).
    + rewrite (drop_ge data) by lia. rewrite ctr_ref_nil. done.
  - destruct (Nat.ltb_spec 0 (length data)) as [H0|H0].
    + rewrite Nat.sub_diag, drop_0, final_block by (try done; lia). by destruct (ctr_ref _ _ _).
    + destruct data; [done|simpl in H0; lia].
Qed.

Lemma aesni_inc_ok iv : iv_ok iv -> aesni_inc iv = ctr_succ iv.
Proof. intros []. by apply aesni_inc_succ. Qed.

Lemma loop1_blocks fuel key iv inp m :
  iv_ok iv -> length inp = (16 * S m)%nat -> (S m <= fuel)%nat ->
  aesni_ctr_loop1 fuel key iv inp (length inp)
  = (xor_bytes inp (ks_blocks key iv (S m)), Nat.iter (S m) ctr_succ iv, 0%nat).
Proof.
  revert iv inp m. induction fuel as [|fuel IH]; intros iv inp m [Hl Hok] Hlen Hf; [lia|].
  cbn [aesni_ctr_loop1]. unfold aesni_block. rewrite aesni_inc_succ by done.
  assert (Hsplit : xor_bytes inp (ks_blocks key iv (S m))
    = xor_bytes (take 16 inp) (encrypt_one key iv) ++ xor_bytes (drop 16 inp) (ks_blocks key (ctr_succ iv) m)).
  { rewrite <- xor_bytes_app by (rewrite length_take, encrypt_one_length; lia). by rewrite take_drop. }
  rewrite Hsplit, (xor_bytes_comm (encrypt_one key iv)). destruct m as [|m].
  - replace (length inp - 16)%nat with 0%nat by lia.
    rewrite (drop_ge inp) by lia. done.
  - replace (16 <=? length inp - 16)%nat with true by (symmetry; apply Nat.leb_le; lia).
    replace (length inp - 16)%nat with (length (drop 16 inp)) by len.
    rewrite (IH _ _ m) by (try apply iv_ok_succ; len). by rewrite !Nat.iter_succ_r.
Qed.

Lemma loop4_blocks fuel key iv inp m :
  iv_ok iv -> length inp = (16 * m)%nat -> (4 <= m)%nat -> (m <= fuel)%nat ->
  aesni_ctr_loop4 fuel key iv inp (length inp)
  = (xor_bytes inp (ks_blocks key iv m), Nat.iter m ctr_succ iv, 0%nat).
Proof.
  revert iv inp m. induction fuel as [|fuel IH]; intros iv inp m Hiv Hlen H4 Hf; [lia|].
  cbn [aesni_ctr_loop4]. rewrite (aesni_inc_ok iv Hiv), !(aesni_inc_ok (ctr_succ _) (iv_ok_succ _)).
  set (out := _ ++ _ ++ _ ++ _).
  assert (Hout : out = xor_bytes (take 64 inp) (ks_blocks key iv 4)).
  { unfold out, slice. cbn [ks_blocks]. rewrite !(xor_bytes_comm (encrypt_one _ _)), app_nil_r, drop_0.
    replace (take 64 inp) with (take 16 inp ++ take 16 (drop 16 inp) ++ take 16 (drop 32 inp) ++ take 16 (drop 48 inp)).
    - rewrite !xor_bytes_app; [done|rewrite length_take, ?length_drop, encrypt_one_length; lia..].
    - pose proof (take_take_drop inp 16 48) as E1. pose proof (take_take_drop (drop 16 inp) 16 32) as E2.
      pose proof (take_take_drop (drop 32 inp) 16 16) as E3. rewrite !drop_drop in *.
      cbn [Nat.add] in *. by rewrite <- E1, <- E2, <- E3. }
  assert (Hsplit : xor_bytes inp (ks_blocks key iv m)
    = out ++ xor_bytes (drop 64 inp) (ks_blocks key (Nat.iter 4 ctr_succ iv) (m - 4))).
  { rewrite Hout, <- xor_bytes_app by (rewrite length_take, length_ks_blocks; lia).
    rewrite take_drop, <- ks_blocks_add. do 2 f_equal. lia. }
  rewrite Hsplit. change (ctr_succ (ctr_succ (ctr_succ (ctr_succ iv)))) with (Nat.iter 4 ctr_succ iv).
  assert (Hiter : Nat.iter m ctr_succ iv = Nat.iter (m - 4) ctr_succ (Nat.iter 4 ctr_succ iv)).
  { rewrite <- Nat.iter_add. f_equal. lia. }
  rewrite Hiter. assert (Hiv4 : iv_ok (Nat.iter 4 ctr_succ iv)) by (by apply iv_ok_iter).
  replace (length inp - 64)%nat with (length (drop 64 inp)) by len.
  destruct (Nat.leb_spec 64 (length (drop 64 inp))) as [H64|H64].
  - rewrite (IH _ _ (m - 4)%nat) by (try done; len). done.
  - destruct (Nat.ltb_spec (length (drop 64 inp)) 16) as [H16|H16].
    + assert (m = 4%nat) as -> by len. rewrite (drop_ge inp) by len. done.
    + assert (exists k, m - 4 = S k)%nat as [k Hk] by (exists (m - 5)%nat; len).
      rewrite (loop1_blocks _ _ _ _ k) by (try done; len). by rewrite Hk.
Qed.

Lemma ctr_ref_blocks key iv data m : length data = (16 * m)%nat ->
  ctr_ref key iv data = (xor_bytes data (ks_blocks key iv m), Nat.iter m ctr_succ iv).
Proof.
  intros Hlen. unfold ctr_ref, keystream, ctr_adv. rewrite Hlen, <- (Nat.add_0_r (16 * m)), nblocks_split.
  change (nblocks 0) with 0%nat. rewrite !Nat.add_0_r.
  by rewrite (take_ge (ks_blocks _ _ _)) by (rewrite length_ks_blocks; lia).
Qed.

(** The counters of the blocks, as numbers *)
Lemma iter_succ_value n iv : iv_ok iv -> Nat.iter n ctr_succ iv = be_bytes 16 (be_value iv + n).
Proof.
  intros [Hl Hb]. induction n as [|n IH]; [cbn [Nat.iter]; rewrite Z.add_0_r, <- Hl; by rewrite be_bytes_value|].
  rewrite Nat.iter_succ, IH. unfold ctr_succ. rewrite be_value_bytes, <- (be_bytes_mod 16 (_ + 1)), Zplus_mod_idemp_l, be_bytes_mod. f_equal. lia.
Qed.

Lemma aesni_ctr_enc_ref key iv data m :
  iv_ok iv -> length data = (16 * m)%nat ->
  aesni_ctr_enc key iv data (length data) = ctr_ref key iv data.
Proof.
  intros Hiv Hlen.
  rewrite (ctr_ref_blocks _ _ _ m Hlen). unfold aesni_ctr_enc.
  destruct (Nat.ltb_spec (length data) 16) as [H16|H16].
  - assert (m = 0%nat) as -> by lia. by destruct data.
  - destruct m as [|m]; [lia|]. destruct (Nat.ltb_spec (length data) 64).
    + by rewrite (loop1_blocks _ _ _ _ m) by (try done; lia).
    + by rewrite (loop4_blocks _ _ _ _ (S m)) by (try done; lia).
Qed.

End CtrFacts.

(** ** "ctr(aes)" as a kernel transform *)

(** The child cipher's key and [crypto_blkcipher_crt(tfm)->iv]. *)
Record ctr_tfm := CtrTfm { t_key : bytes; t_iv : bytes }.

Section CtrAes.
Context `{BC : BlockCipher}.

(** [crypto_ctr_setkey]; AES accepts 128, 192 and 256-bit keys. *)
Definition crypto_ctr_setkey (t : ctr_tfm) (key : bytes) : Z * ctr_tfm :=
  if aes_key_len (length key) then (0, CtrTfm key (t_iv t)) else (- EINVAL, t).

(** [memcpy(crypto_blkcipher_crt(tfm)->iv, src, len)] *)
Definition crypto_blkcipher_set_iv (t : ctr_tfm) (src : bytes) : ctr_tfm :=
  CtrTfm (t_key t) (splice 0 src (t_iv t)).

(** [desc->info] is the transform's own IV, so the counter persists. *)
Definition ctr_blkcipher_crypt (t : ctr_tfm) (d : bytes) : Z * ctr_tfm * bytes :=
  let '(out, iv) := crypto_ctr_crypt (t_key t) (t_iv t) d in
  (0, CtrTfm (t_key t) iv, out).

#[export] Instance ctr_aes : BlkCipher := {
  tfm := ctr_tfm;
  tfm_fresh := CtrTfm [] (zeros 16);
  blk_setkey := crypto_ctr_setkey;
  blk_set_iv := crypto_blkcipher_set_iv;
  blk_encrypt := ctr_blkcipher_crypt;
  blk_decrypt := ctr_blkcipher_crypt;
}.

#[export] Program Instance ctr_aes_stream : StreamCipher ctr_aes := {
  tfm_ok := fun t : ctr_tfm => iv_ok (t_iv t);
  stream := fun (t : ctr_tfm) n => keystream (t_key t) (t_iv t) n;
  next := fun (t : ctr_tfm) n => CtrTfm (t_key t) (ctr_adv (t_iv t) n);
}.
Next Obligation. split; [done|]. repeat constructor; lia. Qed.
Next Obligation. intros t k. unfold blk_setkey; simpl. unfold crypto_ctr_setkey. by destruct (aes_key_len _). Qed.
Next Obligation. intros t k H. simpl in *. unfold crypto_ctr_setkey. by destruct (aes_key_len _). Qed.
Next Obligation.
  intros t iv [H1 _] Hl Hok. unfold crypto_blkcipher_set_iv. simpl in *.
  unfold splice. rewrite drop_ge by lia. rewrite app_nil_r. split; done.
Qed.
Next Obligation.
  intros t n iv iv' [H1 _] Hl Hok Hl'. 
  assert (E : splice 0 iv (t_iv t) = iv) by (unfold splice; rewrite drop_ge by lia; apply app_nil_r).
  change (CtrTfm (t_key t) (splice 0 iv' (ctr_adv (splice 0 iv (t_iv t)) n)) = CtrTfm (t_key t) (splice 0 iv' (t_iv t))). rewrite E.
  assert (Ha : iv_ok (ctr_adv iv n)) by (apply ctr_adv_ok; by split). destruct Ha as [Ha _].
  unfold splice. rewrite !drop_ge by lia. done.
Qed.
Next Obligation. intros t d H. simpl. unfold ctr_blkcipher_crypt. by rewrite crypto_ctr_crypt_ref. Qed.
Next Obligation. intros t d H. simpl. unfold ctr_blkcipher_crypt. by rewrite crypto_ctr_crypt_ref. Qed.
Next Obligation. intros. apply length_keystream. Qed.
Next Obligation. intros. apply bytes_ok_keystream. Qed.
Next Obligation. intros. apply keystream_split. Qed.
Next Obligation. intros t m n. cbv beta. cbn [t_key t_iv]. f_equal. apply ctr_adv_split. Qed.
Next Obligation. by intros []. Qed.
Next Obligation. intros t n H. by apply ctr_adv_ok. Qed.

End CtrAes.

(** A toy block function, for evaluating examples. *)
Definition toy_block (key blk : bytes) : bytes :=
  be_bytes 16 (be_value key * 31 + be_value blk * 17 + 5).

Program Definition toy_cipher : BlockCipher := {| encrypt_one := toy_block |}.
Next Obligation. intros. apply length_be_bytes. Qed.
Next Obligation. intros. apply bytes_ok_be_bytes. Qed.

(** ** Properties *)

Section CtrProperties.
Context `{BC : BlockCipher}.

(** C19: the AES-NI assembly and the kernel's generic CTR mode are the same
    function on whole blocks: the same data, and the same counter block left
    behind, across the wrap of the 64-bit halves of the counter. *)
Theorem aesni_matches_kernel key iv data m :
  iv_ok iv -> length data = (16 * m)%nat ->
  aesni_ctr_enc key iv data (length data) = crypto_ctr_crypt key iv data.
Proof. intros Hiv Hl. by rewrite (aesni_ctr_enc_ref _ _ _ m), crypto_ctr_crypt_ref. Qed.

(** The kernel's CTR mode decrypts what it encrypted, of any length (a last
    partial block included), and both directions advance the counter alike. *)
Theorem crypto_ctr_roundtrip key iv data :
  iv_ok iv ->
  fst (crypto_ctr_crypt key iv (fst (crypto_ctr_crypt key iv data))) = data /\
  snd (crypto_ctr_crypt key iv (fst (crypto_ctr_crypt key iv data))) = snd (crypto_ctr_crypt key iv data).
Proof.
  intros Hiv. rewrite !crypto_ctr_crypt_ref by done. unfold ctr_ref. cbn [fst snd].
  rewrite length_xor_bytes, length_keystream, Nat.min_id.
  split; [|done]. apply xor_bytes_involutive. by rewrite length_keystream.
Qed.
End CtrProperties.

Definition wit_iv : bytes := zeros 8 ++ replicate 8 255.
Definition wit_data : bytes := replicate 80 7.

Lemma aesni_matches_kernel_witness :
  @aesni_ctr_enc toy_cipher [1; 2] wit_iv wit_data 80 = @crypto_ctr_crypt toy_cipher [1; 2] wit_iv wit_data.
Proof.
  apply (@aesni_matches_kernel toy_cipher [1; 2] wit_iv wit_data 5); [|reflexivity].
  split; [reflexivity|]. repeat constructor; lia.
Defined.

Lemma crypto_ctr_roundtrip_witness :
  fst (@crypto_ctr_crypt toy_cipher [9] wit_iv (fst (@crypto_ctr_crypt toy_cipher [9] wit_iv [1; 2; 3]))) = [1; 2; 3].
Proof.
  apply (@crypto_ctr_roundtrip toy_cipher [9] wit_iv [1; 2; 3]).
  split; [reflexivity|]. repeat constructor; lia.
Defined.
