(* ===== verification/Fips197.v ===== *)
(** * The Advanced Encryption Standard

    FIPS 197 as a reference for the implementations in the kernel and in the user library:
    the field with 256 elements, the transformations of the state, the key expansion, the
    cipher and the equivalent inverse cipher, which inverts it. *)

From S2P Require Import Prelude.

(** ** Bytes as polynomials over the field of two elements *)

(** Multiplication by x modulo x^8 + x^4 + x^3 + x + 1 *)
Definition xtime (b : Z) : Z := Z.lxor (u8 (Z.shiftl b 1)) (if Z.testbit b 7 then 0x1b else 0).

Fixpoint gmul_bits (n : nat) (a b : Z) : Z :=
  match n with
  | O => 0
  | S n => Z.lxor (if Z.odd b then a else 0) (gmul_bits n (xtime a) (Z.div2 b))
  end.
Definition gmul (a b : Z) : Z := gmul_bits 8 a b.

(** The product of b^2, b^4, ..., b^(2^n) *)
Fixpoint gpowers (n : nat) (b : Z) : Z :=
  match n with O => 1 | S n => let b := gmul b b in gmul b (gpowers n b) end.

(** The inverse, b^254, and 0 for 0 *)
Definition ginv (b : Z) : Z := gpowers 7 b.

Definition rotl8 (b : Z) (n : Z) : Z := Z.lor (u8 (Z.shiftl b n)) (Z.shiftr b (8 - n)).
Definition affine (b : Z) : Z :=
  Z.lxor (Z.lxor (Z.lxor (Z.lxor (Z.lxor b (rotl8 b 1)) (rotl8 b 2)) (rotl8 b 3)) (rotl8 b 4)) 0x63.

(** The substitution and its inverse, as tables *)
Fixpoint index_of (x : Z) (l : list Z) : Z :=
  match l with [] => 0 | y :: l => if x =? y then 0 else 1 + index_of x l end.
Definition sbox : list Z := Eval vm_compute in (fun b => affine (ginv b)) <$> seqZ 0 256.
Definition inv_sbox : list Z := Eval vm_compute in (fun b => index_of b sbox) <$> seqZ 0 256.

Lemma sbox_formula : sbox = (fun b => affine (ginv b)) <$> seqZ 0 256.
Proof. vm_compute. reflexivity. Qed.

Definition S_ (b : Z) : Z := at_ sbox (Z.to_nat b).
Definition IS (b : Z) : Z := at_ inv_sbox (Z.to_nat b).

(** ** The state: four columns of four bytes *)

Record column := Col { r0 : Z; r1 : Z; r2 : Z; r3 : Z }.
Record state := State { k0 : column; k1 : column; k2 : column; k3 : column }.

Definition map_col (f : Z -> Z) (c : column) : column := Col (f (r0 c)) (f (r1 c)) (f (r2 c)) (f (r3 c)).
Definition map_state (f : column -> column) (s : state) : state := State (f (k0 s)) (f (k1 s)) (f (k2 s)) (f (k3 s)).

Definition xor_col (a b : column) : column :=
  Col (Z.lxor (r0 a) (r0 b)) (Z.lxor (r1 a) (r1 b)) (Z.lxor (r2 a) (r2 b)) (Z.lxor (r3 a) (r3 b)).
Definition AddRoundKey (s k : state) : state :=
  State (xor_col (k0 s) (k0 k)) (xor_col (k1 s) (k1 k)) (xor_col (k2 s) (k2 k)) (xor_col (k3 s) (k3 k)).

Definition SubBytes : state -> state := map_state (map_col S_).
Definition InvSubBytes : state -> state := map_state (map_col IS).

Definition ShiftRows (s : state) : state :=
  State (Col (r0 (k0 s)) (r1 (k1 s)) (r2 (k2 s)) (r3 (k3 s))) (Col (r0 (k1 s)) (r1 (k2 s)) (r2 (k3 s)) (r3 (k0 s)))
        (Col (r0 (k2 s)) (r1 (k3 s)) (r2 (k0 s)) (r3 (k1 s))) (Col (r0 (k3 s)) (r1 (k0 s)) (r2 (k1 s)) (r3 (k2 s))).
Definition InvShiftRows (s : state) : state :=
  State (Col (r0 (k0 s)) (r1 (k3 s)) (r2 (k2 s)) (r3 (k1 s))) (Col (r0 (k1 s)) (r1 (k0 s)) (r2 (k3 s)) (r3 (k2 s)))
        (Col (r0 (k2 s)) (r1 (k1 s)) (r2 (k0 s)) (r3 (k3 s))) (Col (r0 (k3 s)) (r1 (k2 s)) (r2 (k1 s)) (r3 (k0 s))).

(** Multiplication of a column by the polynomial with the coefficients [a], [b], [c], [d] *)
Definition xor4 (a b c d : Z) : Z := Z.lxor (Z.lxor (Z.lxor a b) c) d.
Definition mul_col (a b c d : Z) (x : column) : column :=
  Col (xor4 (gmul a (r0 x)) (gmul b (r1 x)) (gmul c (r2 x)) (gmul d (r3 x)))
      (xor4 (gmul d (r0 x)) (gmul a (r1 x)) (gmul b (r2 x)) (gmul c (r3 x)))
      (xor4 (gmul c (r0 x)) (gmul d (r1 x)) (gmul a (r2 x)) (gmul b (r3 x)))
      (xor4 (gmul b (r0 x)) (gmul c (r1 x)) (gmul d (r2 x)) (gmul a (r3 x))).
Definition mix_col : column -> column := mul_col 2 3 1 1.
Definition inv_mix_col : column -> column := mul_col 14 11 13 9.
Definition MixColumns : state -> state := map_state mix_col.
Definition InvMixColumns : state -> state := map_state inv_mix_col.

(** ** The cipher, over its round keys: the first, those of the rounds, the last *)

Definition Cipher (first : state) (rounds : list state) (last : state) (s : state) : state :=
  let s := AddRoundKey s first in
  let s := foldl (fun s k => AddRoundKey (MixColumns (ShiftRows (SubBytes s))) k) s rounds in
  AddRoundKey (ShiftRows (SubBytes s)) last.

(** The equivalent inverse cipher, over the decryption keys *)
Definition EqInvCipher (first : state) (rounds : list state) (last : state) (s : state) : state :=
  let s := AddRoundKey s first in
  let s := foldl (fun s k => AddRoundKey (InvMixColumns (InvShiftRows (InvSubBytes s))) k) s rounds in
  AddRoundKey (InvShiftRows (InvSubBytes s)) last.

(** ** The key expansion *)

Definition RotWord (c : column) : column := Col (r1 c) (r2 c) (r3 c) (r0 c).
Definition SubWord : column -> column := map_col S_.
Definition Rcon (i : nat) : column := Col (Nat.iter (i - 1) xtime 1) 0 0 0.

(** What the word after [ws], which has the [Nk] words of the key and those expanded so far, is
    added to, and that word *)
Definition temp_word (Nk : nat) (ws : list column) : column :=
  let i := length ws in
  let temp := default (Col 0 0 0 0) (ws !! (i - 1)%nat) in
  if (i mod Nk =? 0)%nat then xor_col (SubWord (RotWord temp)) (Rcon (i / Nk))
  else if (6 <? Nk)%nat && (i mod Nk =? 4)%nat then SubWord temp
  else temp.
Definition next_word (Nk : nat) (ws : list column) : column :=
  xor_col (default (Col 0 0 0 0) (ws !! (length ws - Nk)%nat)) (temp_word Nk ws).

Fixpoint expand (Nk n : nat) (ws : list column) : list column :=
  match n with
  | O => ws
  | S n => expand Nk n (ws ++ [next_word Nk ws])
  end.

(** ** Blocks and keys as bytes *)

Definition col_at (b : bytes) (i : nat) : column := Col (at_ b i) (at_ b (i + 1)) (at_ b (i + 2)) (at_ b (i + 3)).
Definition to_state (b : bytes) : state := State (col_at b 0) (col_at b 4) (col_at b 8) (col_at b 12).
Definition col_bytes (c : column) : bytes := [r0 c; r1 c; r2 c; r3 c].
Definition of_state (s : state) : bytes := col_bytes (k0 s) ++ col_bytes (k1 s) ++ col_bytes (k2 s) ++ col_bytes (k3 s).

Definition key_words (key : bytes) : list column := (fun i => col_at key (4 * i)) <$> seq 0 (length key / 4).

(** Nr = Nk + 6 *)
Definition KeyExpansion (key : bytes) : list column :=
  let Nk := (length key / 4)%nat in
  expand Nk (4 * (Nk + 7) - Nk) (key_words key).

Definition round_key (ws : list column) (r : nat) : state :=
  let w j := default (Col 0 0 0 0) (ws !! (4 * r + j)%nat) in State (w 0%nat) (w 1%nat) (w 2%nat) (w 3%nat).

Definition aes (key blk : bytes) : bytes :=
  let ws := KeyExpansion key in
  let Nr := (length key / 4 + 6)%nat in
  of_state (Cipher (round_key ws 0) (round_key ws <$> seq 1 (Nr - 1)) (round_key ws Nr) (to_state blk)).

(** The examples of FIPS 197, appendix C *)
Definition example_block : bytes :=
  [0x00; 0x11; 0x22; 0x33; 0x44; 0x55; 0x66; 0x77; 0x88; 0x99; 0xaa; 0xbb; 0xcc; 0xdd; 0xee; 0xff].

Example aes_examples :
  be_value (aes (seqZ 0 16) example_block) = 0x69c4e0d86a7b0430d8cdb78070b4c55a /\
  be_value (aes (seqZ 0 24) example_block) = 0xdda97ca4864cdfe06eaf70a0ec0d7191 /\
  be_value (aes (seqZ 0 32) example_block) = 0x8ea2b7ca516745bfeafc49904b496089.
Proof. vm_compute. split_and!; reflexivity. Qed.

(** ** Facts about bytes *)

Create HintDb aes.

Lemma byte_all (P : Z -> bool) : forallb P (seqZ 0 256) = true -> forall b, byte_ok b -> P b = true.
Proof. intros H b Hb. rewrite forallb_forall in H. apply H. apply list_elem_of_In, elem_of_seqZ. unfold byte_ok in Hb. lia. Qed.

Lemma byte_eq (f g : Z -> Z) : forallb (fun b => f b =? g b) (seqZ 0 256) = true -> forall b, byte_ok b -> f b = g b.
Proof. intros H b Hb. apply Z.eqb_eq. by apply (byte_all (fun b => f b =? g b)). Qed.

Lemma IS_S b : byte_ok b -> IS (S_ b) = b.
Proof. apply (byte_eq (fun b => IS (S_ b)) (fun b => b)). vm_compute. reflexivity. Qed.

Lemma byte_ok_S b : byte_ok b -> byte_ok (S_ b).
Proof.
  intros H. assert (E : (0 <=? S_ b) && (S_ b <? 256) = true) by (apply (byte_all (fun b => (0 <=? S_ b) && (S_ b <? 256))); [vm_compute; reflexivity|done]).
  unfold byte_ok. lia.
Qed.

Lemma byte_ok_xtime b : byte_ok b -> byte_ok (xtime b).
Proof. intros H. apply byte_lxor; [apply byte_u8|]. unfold byte_ok. destruct (Z.testbit b 7); lia. Qed.

Lemma byte_ok_gmul a b : byte_ok a -> byte_ok (gmul a b).
Proof.
  unfold gmul. generalize 8%nat as n. intros n. revert a b. induction n as [|n IH]; intros a b Ha; [done|]. cbn [gmul_bits].
  apply byte_lxor; [by destruct (Z.odd b)|]. apply IH. by apply byte_ok_xtime.
Qed.

Lemma gmul_lxor a b c : gmul a (Z.lxor b c) = Z.lxor (gmul a b) (gmul a c).
Proof.
  unfold gmul. generalize 8%nat as n. intros n. revert a b c. induction n as [|n IH]; intros a b c; [done|]. cbn [gmul_bits].
  rewrite !Z.div2_spec, Z.shiftr_lxor, IH. assert (E : Z.odd (Z.lxor b c) = xorb (Z.odd b) (Z.odd c)) by (rewrite <- !Z.bit0_odd; apply Z.lxor_spec).
  rewrite E. set (x := gmul_bits n (xtime a) (Z.shiftr b 1)). set (y := gmul_bits n (xtime a) (Z.shiftr c 1)).
  apply Z.bits_inj. intros i. rewrite !Z.lxor_spec. destruct (Z.odd b), (Z.odd c); cbn [xorb]; rewrite ?Z.bits_0;
    destruct (Z.testbit a i), (Z.testbit x i), (Z.testbit y i); done.
Qed.

Lemma gmul_xor4 x a b c d : gmul x (xor4 a b c d) = xor4 (gmul x a) (gmul x b) (gmul x c) (gmul x d).
Proof. unfold xor4. by rewrite !gmul_lxor. Qed.

(** Sums of sums, by columns instead of rows *)
Lemma lxor_swap a b c d : Z.lxor (Z.lxor a b) (Z.lxor c d) = Z.lxor (Z.lxor a c) (Z.lxor b d).
Proof. rewrite !Z.lxor_assoc. f_equal. by rewrite <- !Z.lxor_assoc, (Z.lxor_comm b c). Qed.

Lemma xor4_lxor a b c d a' b' c' d' :
  Z.lxor (xor4 a b c d) (xor4 a' b' c' d') = xor4 (Z.lxor a a') (Z.lxor b b') (Z.lxor c c') (Z.lxor d d').
Proof. unfold xor4. by rewrite (lxor_swap _ d), (lxor_swap _ c), (lxor_swap a b). Qed.

Lemma xor4_transpose a1 b1 c1 d1 a2 b2 c2 d2 a3 b3 c3 d3 a4 b4 c4 d4 :
  xor4 (xor4 a1 b1 c1 d1) (xor4 a2 b2 c2 d2) (xor4 a3 b3 c3 d3) (xor4 a4 b4 c4 d4)
    = xor4 (xor4 a1 a2 a3 a4) (xor4 b1 b2 b3 b4) (xor4 c1 c2 c3 c4) (xor4 d1 d2 d3 d4).
Proof. unfold xor4 at 1. rewrite !xor4_lxor. done. Qed.

(** ** Well-formed columns and states *)

Record col_ok (c : column) : Prop := { co0 : byte_ok (r0 c); co1 : byte_ok (r1 c); co2 : byte_ok (r2 c); co3 : byte_ok (r3 c) }.
Record state_ok (s : state) : Prop := { so0 : col_ok (k0 s); so1 : col_ok (k1 s); so2 : col_ok (k2 s); so3 : col_ok (k3 s) }.

Lemma col_ok_xor a b : col_ok a -> col_ok b -> col_ok (xor_col a b).
Proof. intros [] []. split; by apply byte_lxor. Qed.
Lemma col_ok_map f c : (forall b, byte_ok b -> byte_ok (f b)) -> col_ok c -> col_ok (map_col f c).
Proof. intros H []. split; by apply H. Qed.
Lemma byte_ok_xor4 a b c d : byte_ok a -> byte_ok b -> byte_ok c -> byte_ok d -> byte_ok (xor4 a b c d).
Proof. intros. unfold xor4. by repeat apply byte_lxor. Qed.
Lemma col_ok_mul a b c d x : byte_ok a -> byte_ok b -> byte_ok c -> byte_ok d -> col_ok (mul_col a b c d x).
Proof. intros. split; apply byte_ok_xor4; by apply byte_ok_gmul. Qed.
Lemma state_ok_map f s : (forall c, col_ok c -> col_ok (f c)) -> state_ok s -> state_ok (map_state f s).
Proof. intros H []. split; by apply H. Qed.
Lemma state_ok_add s k : state_ok s -> state_ok k -> state_ok (AddRoundKey s k).
Proof. intros [] []. split; by apply col_ok_xor. Qed.
Lemma state_ok_shift s : state_ok s -> state_ok (ShiftRows s).
Proof. intros [[] [] [] []]. split; split; cbn; assumption. Qed.
Lemma state_ok_sub s : state_ok s -> state_ok (SubBytes s).
Proof. intros H. apply state_ok_map; [|done]. intros c Hc. apply col_ok_map; [apply byte_ok_S|done]. Qed.
Lemma state_ok_mix s : state_ok s -> state_ok (MixColumns s).
Proof. intros H. apply state_ok_map; [|done]. intros c _. by apply col_ok_mul. Qed.
#[export] Hint Resolve col_ok_xor state_ok_add state_ok_shift state_ok_sub state_ok_mix : aes.

(** ** The inverse *)

(** The coefficients of the product of the two polynomials *)
Ltac unmix := repeat match goal with
  | H : byte_ok ?x |- context [xor4 (gmul ?p (gmul ?q ?x)) (gmul ?r (gmul ?s ?x)) (gmul ?t (gmul ?u ?x)) (gmul ?v (gmul ?w ?x))] =>
      let f := constr:(fun y => xor4 (gmul p (gmul q y)) (gmul r (gmul s y)) (gmul t (gmul u y)) (gmul v (gmul w y))) in
      let E := fresh in
      first [assert (E : forallb (fun b => f b =? b) (seqZ 0 256) = true) by (vm_compute; reflexivity); rewrite (byte_eq f (fun y => y) E x H)
            |assert (E : forallb (fun b => f b =? 0) (seqZ 0 256) = true) by (vm_compute; reflexivity); rewrite (byte_eq f (fun y => 0) E x H)];
      clear E
  end.

Lemma inv_mix_mix c : col_ok c -> inv_mix_col (mix_col c) = c.
Proof.
  destruct c as [a b c d]. intros [Ha Hb Hc Hd]. cbn [r0 r1 r2 r3] in *. unfold inv_mix_col, mix_col, mul_col. cbn [r0 r1 r2 r3].
  rewrite !gmul_xor4. f_equal; rewrite xor4_transpose; unmix; unfold xor4; by rewrite ?Z.lxor_0_r, ?Z.lxor_0_l.
Qed.

Lemma mul_col_xor p q r s a b : mul_col p q r s (xor_col a b) = xor_col (mul_col p q r s a) (mul_col p q r s b).
Proof. unfold mul_col, xor_col. cbn [r0 r1 r2 r3]. by rewrite !gmul_lxor, !xor4_lxor. Qed.

Lemma xor_col_cancel a b : xor_col (xor_col a b) b = a.
Proof. destruct a, b. unfold xor_col. cbn. by rewrite !Z.lxor_assoc, !Z.lxor_nilpotent, !Z.lxor_0_r. Qed.

Lemma AddRoundKey_cancel s k : AddRoundKey (AddRoundKey s k) k = s.
Proof. destruct s. unfold AddRoundKey. cbn. by rewrite !xor_col_cancel. Qed.

Lemma InvMix_Mix s : state_ok s -> InvMixColumns (MixColumns s) = s.
Proof. destruct s. intros []. unfold InvMixColumns, MixColumns, map_state. cbn in *. by rewrite !inv_mix_mix. Qed.

Lemma InvMix_add s k : InvMixColumns (AddRoundKey s k) = AddRoundKey (InvMixColumns s) (InvMixColumns k).
Proof. unfold InvMixColumns, map_state, AddRoundKey, inv_mix_col. cbn [k0 k1 k2 k3]. by rewrite !mul_col_xor. Qed.

Lemma unsub s : state_ok s -> InvShiftRows (InvSubBytes (ShiftRows (SubBytes s))) = s.
Proof.
  destruct s as [[] [] [] []]. intros [[] [] [] []]. cbn [k0 k1 k2 k3 r0 r1 r2 r3] in *.
  unfold InvShiftRows, InvSubBytes, ShiftRows, SubBytes, map_state, map_col. cbn [k0 k1 k2 k3 r0 r1 r2 r3]. by rewrite !IS_S.
Qed.

Definition enc_round (s k : state) : state := AddRoundKey (MixColumns (ShiftRows (SubBytes s))) k.
Definition dec_round (s k : state) : state := AddRoundKey (InvMixColumns (InvShiftRows (InvSubBytes s))) k.

Lemma rounds_ok s rounds : state_ok s -> Forall state_ok rounds -> state_ok (foldl enc_round s rounds).
Proof. intros Hs H. revert s Hs. induction H; intros s Hs; [done|]. cbn [foldl]. apply IHForall. unfold enc_round. auto 6 with aes. Qed.

Lemma rounds_undone rounds : forall s, state_ok s -> Forall state_ok rounds ->
  foldl dec_round (ShiftRows (SubBytes (foldl enc_round s rounds))) (reverse (InvMixColumns <$> rounds)) = ShiftRows (SubBytes s).
Proof.
  induction rounds as [|k rounds IH] using rev_ind; intros s Hs H; [done|]. apply Forall_app in H as [H [Hk _]%Forall_cons].
  rewrite foldl_app, fmap_app, reverse_app. cbn [fmap list_fmap foldl reverse rev_append app]. set (e := foldl enc_round s rounds).
  pose proof (rounds_ok s rounds Hs H) as He. fold e in He. unfold dec_round at 2. rewrite unsub by (unfold enc_round; auto 7 with aes).
  unfold enc_round at 1. rewrite InvMix_add, AddRoundKey_cancel, InvMix_Mix by auto with aes. by apply IH.
Qed.

(** The equivalent inverse cipher with the keys in reverse order, those of the rounds mixed,
    inverts the cipher. *)
Lemma EqInvCipher_Cipher first rounds last s : state_ok first -> Forall state_ok rounds -> state_ok s ->
  EqInvCipher last (reverse (InvMixColumns <$> rounds)) first (Cipher first rounds last s) = s.
Proof.
  intros Hf Hr Hs. unfold EqInvCipher, Cipher. cbv zeta. fold enc_round dec_round. rewrite AddRoundKey_cancel.
  change (foldl _ (ShiftRows _)) with (foldl dec_round (ShiftRows (SubBytes (foldl enc_round (AddRoundKey s first) rounds)))).
  rewrite rounds_undone by auto with aes. rewrite unsub by auto with aes. apply AddRoundKey_cancel.
Qed.

(** ** Blocks, keys and schedules *)

Lemma byte_ok_at b i : bytes_ok b -> byte_ok (at_ b i).
Proof. intros H. unfold at_. destruct (b !! i) eqn:E; [|done]. by eapply Forall_lookup_1 in E. Qed.

Lemma col_ok_at b i : bytes_ok b -> col_ok (col_at b i).
Proof. intros H. by split; apply byte_ok_at. Qed.

Lemma state_ok_block b : bytes_ok b -> state_ok (to_state b).
Proof. intros H. by split; apply col_ok_at. Qed.

Lemma length_expand Nk n ws : length (expand Nk n ws) = (length ws + n)%nat.
Proof. revert ws. induction n as [|n IH]; intros ws; cbn [expand]; [lia|]. rewrite IH, length_app. cbn. lia. Qed.

Lemma expand_add Nk m n ws : expand Nk (m + n) ws = expand Nk n (expand Nk m ws).
Proof. revert ws. induction m as [|m IH]; intros ws; [done|]. cbn [Nat.add expand]. apply IH. Qed.

Lemma expand_prefix Nk n ws i : (i < length ws)%nat -> expand Nk n ws !! i = ws !! i.
Proof.
  revert ws. induction n as [|n IH]; intros ws H; [done|]. cbn [expand]. rewrite IH by (rewrite length_app; lia). by apply lookup_app_l.
Qed.

Lemma xor_col_comm a b : xor_col a b = xor_col b a.
Proof. unfold xor_col. f_equal; apply Z.lxor_comm. Qed.

Lemma col_ok_Sub c : col_ok c -> col_ok (SubWord c).
Proof. apply col_ok_map, byte_ok_S. Qed.

Lemma col_ok_Rot c : col_ok c -> col_ok (RotWord c).
Proof. intros []. by split. Qed.

(** The lengths of keys *)
Definition key_size (n : nat) : Prop := n = 16%nat \/ n = 24%nat \/ n = 32%nat.

Lemma key_size_mod n : key_size n -> (n mod 4 = 0 /\ n + 24 = 4 * (n / 4 + 6) /\ 16 <= n <= 32)%nat.
Proof. intros [-> | [-> | ->]]; repeat split; lia. Qed.

Lemma length_KeyExpansion key : key_size (length key) -> length (KeyExpansion key) = (length key + 28)%nat.
Proof. unfold KeyExpansion. intros H. rewrite length_expand. unfold key_words. rewrite length_fmap, length_seq. by destruct H as [-> | [-> | ->]]. Qed.

Lemma first_words key i : key_size (length key) -> (i < length key / 4)%nat -> KeyExpansion key !! i = Some (col_at key (4 * i)).
Proof.
  intros Hn Hi. unfold KeyExpansion. rewrite expand_prefix; unfold key_words; [|by rewrite length_fmap, length_seq]. by rewrite list_lookup_fmap, lookup_seq_lt.
Qed.

Lemma to_of_state s : to_state (of_state s) = s.
Proof. by destruct s as [[] [] [] []]. Qed.

Lemma of_to_state b : length b = 16%nat -> of_state (to_state b) = b.
Proof. intros H. do 16 (destruct b as [|? b]; [done|]). by destruct b. Qed.

Lemma bytes_ok_state s : state_ok s -> bytes_ok (of_state s).
Proof. intros [[] [] [] []]. unfold of_state, col_bytes. cbn [app]. repeat (apply Forall_cons; split; [done|]). constructor. Qed.

Lemma state_ok_cipher first rounds last s : state_ok first -> Forall state_ok rounds -> state_ok last -> state_ok s -> state_ok (Cipher first rounds last s).
Proof. intros Hf Hr Hl Hs. unfold Cipher. cbv zeta. fold enc_round. auto 10 using rounds_ok with aes. Qed.

(** The next word, by where it is in its group of [Nk] *)
Section Next.
Context (Nk : nat) (ws : list column) (i j : nat) (u w : column).
Hypothesis (HN : (0 < Nk)%nat) (Hlen : length ws = (Nk * S i + j)%nat) (Hj : (j < Nk)%nat).
Hypothesis (Hu : ws !! (length ws - Nk)%nat = Some u) (Hw : ws !! (length ws - 1)%nat = Some w).

Lemma next_mod : (length ws mod Nk = j /\ (j = 0 -> length ws / Nk = S i))%nat.
Proof using HN Hlen Hj.
  rewrite Hlen. replace (Nk * S i + j)%nat with (j + S i * Nk)%nat by lia. rewrite Nat.Div0.mod_add, Nat.mod_small by lia. split; [done|].
  intros ->. cbn [Nat.add]. apply Nat.div_mul. lia.
Qed.

Lemma next_head : j = 0%nat -> next_word Nk ws = xor_col u (xor_col (SubWord (RotWord w)) (Rcon (S i))).
Proof using HN Hlen Hj Hu Hw. intros E. destruct next_mod as [Em Ed]. unfold next_word, temp_word. rewrite Hu, Hw, Em, Ed, E by done. done. Qed.

Lemma next_plain : (0 < j)%nat -> (Nk <= 6 \/ j <> 4)%nat -> next_word Nk ws = xor_col u w.
Proof using HN Hlen Hj Hu Hw.
  intros H0 H4. destruct next_mod as [Em _]. unfold next_word, temp_word. rewrite Hu, Hw, Em.
  destruct (Nat.eqb_spec j 0), (Nat.ltb_spec 6 Nk), (Nat.eqb_spec j 4); (done || lia).
Qed.

Lemma next_middle : (6 < Nk)%nat -> j = 4%nat -> next_word Nk ws = xor_col u (SubWord w).
Proof using HN Hlen Hj Hu Hw.
  intros H6 E. destruct next_mod as [Em _]. unfold next_word, temp_word. rewrite Hu, Hw, Em, E. cbn [Nat.eqb default]. destruct (Nat.ltb_spec 6 Nk); [done|lia].
Qed.
End Next.

(** The recurrences of a schedule, by word numbers *)
Lemma expand_app Nk n ws : exists rest, expand Nk n ws = ws ++ rest.
Proof.
  revert ws. induction n as [|n IH]; intros ws; [exists []; by rewrite app_nil_r|]. cbn [expand]. destruct (IH (ws ++ [next_word Nk ws])) as [rest ->].
  eexists. by rewrite <- app_assoc.
Qed.

Lemma expand_at Nk n ws j : (length ws <= j < length ws + n)%nat -> expand Nk n ws !! j = Some (next_word Nk (take j (expand Nk n ws))).
Proof.
  revert ws. induction n as [|n IH]; intros ws Hj; [lia|]. cbn [expand]. destruct (decide (j = length ws)) as [->|Hne].
  - destruct (expand_app Nk n (ws ++ [next_word Nk ws])) as [rest ->]. rewrite <- app_assoc, take_app_length. by apply list_lookup_middle.
  - apply IH. rewrite length_app. cbn. lia.
Qed.

Section Schedule.
Context (Nk n : nat) (ws : list column).
Hypothesis (HN : (0 < Nk)%nat) (Hlen : length ws = Nk).

(** The word [j] of the schedule *)
Definition word (j : nat) : column := default (Col 0 0 0 0) (expand Nk n ws !! j).

Lemma word_lookup j : (j < Nk + n)%nat -> expand Nk n ws !! j = Some (word j).
Proof using HN Hlen. intros Hj. unfold word. destruct (lookup_lt_is_Some_2 (expand Nk n ws) j) as [w ->]; [rewrite length_expand; lia|done]. Qed.

Lemma word_next j : (Nk <= j < Nk + n)%nat -> let l := take j (expand Nk n ws) in
  word j = next_word Nk l /\ length l = j /\ l !! (length l - Nk)%nat = Some (word (j - Nk)) /\ l !! (length l - 1)%nat = Some (word (j - 1)).
Proof using HN Hlen.
  intros Hj l. assert (Hl : length l = j) by (unfold l; rewrite length_take, length_expand; lia). split_and!; [|done|..].
  - unfold word. by rewrite expand_at by lia.
  - rewrite Hl. unfold l. rewrite lookup_take_lt by lia. apply word_lookup. lia.
  - rewrite Hl. unfold l. rewrite lookup_take_lt by lia. apply word_lookup. lia.
Qed.

Lemma word_head i j : j = (Nk * S i)%nat -> (j < Nk + n)%nat -> word j = xor_col (word (j - Nk)) (xor_col (SubWord (RotWord (word (j - 1)))) (Rcon (S i))).
Proof using HN Hlen. intros E Hj. destruct (word_next j ltac:(lia)) as (-> & Hl & Hu & Hw). apply (next_head _ _ _ 0); (done || lia). Qed.

Lemma word_plain i k j : j = (Nk * S i + k)%nat -> (j < Nk + n)%nat -> (0 < k < Nk)%nat -> (Nk <= 6 \/ k <> 4)%nat -> word j = xor_col (word (j - Nk)) (word (j - 1)).
Proof using HN Hlen. intros E Hj Hk H4. destruct (word_next j ltac:(lia)) as (-> & Hl & Hu & Hw). apply (next_plain _ _ i k); (done || lia). Qed.

Lemma word_middle i j : j = (Nk * S i + 4)%nat -> (j < Nk + n)%nat -> (6 < Nk)%nat -> word j = xor_col (word (j - Nk)) (SubWord (word (j - 1))).
Proof using HN Hlen. intros E Hj H6. destruct (word_next j ltac:(lia)) as (-> & Hl & Hu & Hw). apply (next_middle _ _ i 4); (done || lia). Qed.

(** Four words from [j] on *)
Definition words_from (j : nat) : state := State (word j) (word (j + 1)) (word (j + 2)) (word (j + 3)).
End Schedule.

(** The keys of every round are made of bytes. *)
Lemma col_ok_Rcon i : col_ok (Rcon i).
Proof.
  split; try done. cbn [Rcon r0]. assert (H : forall n, byte_ok (Nat.iter n xtime 1)); [|apply H].
  induction n as [|n IH]; [done|]. rewrite Nat.iter_succ. by apply byte_ok_xtime.
Qed.

Lemma col_ok_default (o : option column) : (forall c, o = Some c -> col_ok c) -> col_ok (default (Col 0 0 0 0) o).
Proof. intros H. destruct o as [c|]; [by apply H|done]. Qed.

Lemma col_ok_next Nk ws : Forall col_ok ws -> col_ok (next_word Nk ws).
Proof.
  intros H. assert (L : forall i, col_ok (default (Col 0 0 0 0) (ws !! i))) by (intros i; apply col_ok_default; intros c; by apply Forall_lookup_1).
  unfold next_word, temp_word. apply col_ok_xor; [apply L|]. repeat case_match; auto using col_ok_Rcon, col_ok_Sub, col_ok_Rot, col_ok_xor.
Qed.

Lemma expand_ok Nk n ws : Forall col_ok ws -> Forall col_ok (expand Nk n ws).
Proof. revert ws. induction n as [|n IH]; intros ws H; [done|]. cbn [expand]. apply IH, Forall_app. split; [done|]. constructor; [by apply col_ok_next|done]. Qed.

Lemma state_ok_round_key key r : bytes_ok key -> state_ok (round_key (KeyExpansion key) r).
Proof.
  intros H. assert (E : Forall col_ok (KeyExpansion key)) by (apply expand_ok, Forall_fmap, Forall_true; intros i; by apply col_ok_at).
  split; apply col_ok_default; intros c; by apply Forall_lookup_1.
Qed.

Lemma state_ok_aes key s : bytes_ok key -> state_ok s ->
  state_ok (Cipher (round_key (KeyExpansion key) 0) (round_key (KeyExpansion key) <$> seq 1 (length key / 4 + 6 - 1)) (round_key (KeyExpansion key) (length key / 4 + 6)) s).
Proof. intros Hk Hs. apply state_ok_cipher; [by apply state_ok_round_key|apply Forall_fmap, Forall_true; intros; by apply state_ok_round_key|by apply state_ok_round_key|done]. Qed.

Lemma length_aes key blk : length (aes key blk) = 16%nat.
Proof. done. Qed.

Lemma bytes_ok_aes key blk : bytes_ok key -> bytes_ok blk -> bytes_ok (aes key blk).
Proof. intros Hk Hb. apply bytes_ok_state, state_ok_aes; [done|by apply state_ok_block]. Qed.
