(* ===== verification/AesCipher.v ===== *)
(** The block cipher of FIPS 197 as the instance of [Ctr.BlockCipher] that counter mode, the
    channels and the sessions run over. *)

From Stdlib Require Import ZArith Lia List.
From stdpp Require Import base list numbers.
From S2P Require Import Prelude Fips197 Ctr.

Open Scope Z_scope.

Lemma bytes_ok_u8 (l : bytes) : bytes_ok (u8 <$> l).
Proof. apply Forall_fmap, Forall_true. intros b. apply byte_u8. Qed.

Lemma u8_bytes (l : bytes) : bytes_ok l -> u8 <$> l = l.
Proof. intros H. induction H as [|b l Hb Hl IH]; [done|]. cbn. by rewrite IH, u8_small. Qed.

#[refine] Definition aes_cipher : BlockCipher := {| encrypt_one key blk := aes (u8 <$> key) (u8 <$> blk) |}.
Proof.
  - intros. apply length_aes.
  - intros. apply bytes_ok_aes; apply bytes_ok_u8.
Defined.

Lemma encrypt_one_aes key blk : bytes_ok key -> bytes_ok blk -> @encrypt_one aes_cipher key blk = aes key blk.
Proof. intros Hk Hb. cbn [encrypt_one aes_cipher]. by rewrite !u8_bytes. Qed.
