(* ===== verification/AesGeneric.v ===== *)
(** * AES in the kernel

    src/host/linux-3.0/crypto/aes_generic.c: the key schedule and the two directions of the
    cipher on 32-bit words with the tables of [AesTables].  They are the functions of
    [Fips197], for the three key lengths, and decryption inverts encryption. *)

From S2P Require Import Prelude Fips197 AesTables.

(** ** Words *)

(** [byte], [ror32] *)
Definition byte (x n : Z) : Z := u8 (Z.shiftr x (Z.shiftl n 3)).
Definition ror32 (x n : Z) : Z := Z.lor (Z.shiftr x n) (u32 (Z.shiftl x (32 - n))).

Definition rco_tab : list Z := [1; 2; 4; 8; 16; 32; 64; 128; 27; 54].

(** [tab[i][b]] *)
Definition row (tab : list (list Z)) (i : nat) (b : Z) : Z := at_ (default [] (tab !! i)) (Z.to_nat b).

(** [star_x], [imix_col], [ls_box] *)
Definition star_x (x : Z) : Z :=
  Z.lxor (u32 (Z.shiftl (Z.land x 0x7f7f7f7f) 1)) (u32 (Z.shiftr (Z.land x 0x80808080) 7 * 0x1b)).
Definition imix_col (x : Z) : Z :=
  let u := star_x x in
  let v := star_x u in
  let w := star_x v in
  let t := Z.lxor w x in
  let y := Z.lxor (Z.lxor u v) w in
  Z.lxor y (Z.lxor (Z.lxor (ror32 (Z.lxor u t) 8) (ror32 (Z.lxor v t) 16)) (ror32 t 24)).
Definition ls_box (x : Z) : Z :=
  Z.lxor (Z.lxor (Z.lxor (row crypto_fl_tab 0 (byte x 0)) (row crypto_fl_tab 1 (byte x 1))) (row crypto_fl_tab 2 (byte x 2)))
    (row crypto_fl_tab 3 (byte x 3)).

(** ** The key schedule *)

(** [struct crypto_aes_ctx] *)
Record crypto_aes_ctx := AesCtx { key_enc : list Z; key_dec : list Z; key_length : Z }.

(** [t ^= ctx->key_enc[src]; ctx->key_enc[dst] = t;] *)
Definition xor_step (src dst : nat) (v : Z * list Z) : Z * list Z :=
  let '(t, key_enc) := v in
  let t := Z.lxor t (at_ key_enc src) in
  (t, <[dst := t]> key_enc).

(** The first two lines of the macros *)
Definition loop_head (i : nat) (t : Z) : Z :=
  let t := ror32 t 8 in
  Z.lxor (ls_box t) (at_ rco_tab i).

Definition loop4 (v : Z * list Z) (i : nat) : Z * list Z :=
  let v := (loop_head i (fst v), snd v) in
  let v := xor_step (4 * i) (4 * i + 4) v in
  let v := xor_step (4 * i + 1) (4 * i + 5) v in
  let v := xor_step (4 * i + 2) (4 * i + 6) v in
  xor_step (4 * i + 3) (4 * i + 7) v.

Definition loop6 (v : Z * list Z) (i : nat) : Z * list Z :=
  let v := (loop_head i (fst v), snd v) in
  let v := xor_step (6 * i) (6 * i + 6) v in
  let v := xor_step (6 * i + 1) (6 * i + 7) v in
  let v := xor_step (6 * i + 2) (6 * i + 8) v in
  let v := xor_step (6 * i + 3) (6 * i + 9) v in
  let v := xor_step (6 * i + 4) (6 * i + 10) v in
  xor_step (6 * i + 5) (6 * i + 11) v.

Definition loop8tophalf (v : Z * list Z) (i : nat) : Z * list Z :=
  let v := (loop_head i (fst v), snd v) in
  let v := xor_step (8 * i) (8 * i + 8) v in
  let v := xor_step (8 * i + 1) (8 * i + 9) v in
  let v := xor_step (8 * i + 2) (8 * i + 10) v in
  xor_step (8 * i + 3) (8 * i + 11) v.

Definition loop8 (v : Z * list Z) (i : nat) : Z * list Z :=
  let '(t, key_enc) := loop8tophalf v i in
  let t := Z.lxor (at_ key_enc (8 * i + 4)) (ls_box t) in
  let v := (t, <[(8 * i + 12)%nat := t]> key_enc) in
  let v := xor_step (8 * i + 5) (8 * i + 13) v in
  let v := xor_step (8 * i + 6) (8 * i + 14) v in
  xor_step (8 * i + 7) (8 * i + 15) v.

(** [le32_to_cpu(key[i])] *)
Definition le32 (b : bytes) (i : nat) : Z := le_value (slice (4 * i) 4 b).

(** [ctx->key_enc[n] = le32_to_cpu(key[n]); ...] for [n], ..., [n + m - 1] *)
Definition load_key (in_key : bytes) (n m : nat) (key_enc : list Z) : list Z :=
  foldl (fun ke i => <[i := le32 in_key i]> ke) key_enc (seq n m).

(** The [switch]: [key_enc] *)
Definition expand_enc (in_key : bytes) (key_len : nat) (key_enc : list Z) : list Z :=
  let ke := load_key in_key 0 4 key_enc in
  if (key_len =? 16)%nat then snd (foldl loop4 (at_ ke 3, ke) (seq 0 10)) else
  if (key_len =? 24)%nat then
    let ke := load_key in_key 4 2 ke in
    snd (foldl loop6 (at_ ke 5, ke) (seq 0 8))
  else
    let ke := load_key in_key 4 4 ke in
    snd (loop8tophalf (foldl loop8 (at_ ke 7, ke) (seq 0 6)) 6).

(** [for (i = 4; i < key_len + 24; ++i)]: [key_dec] *)
Definition mix_keys (key_len : nat) (key_enc key_dec : list Z) : list Z :=
  foldl (fun kd i =>
    let j := (key_len + 24 - 4 * (i / 4) + i mod 4)%nat in
    <[j := imix_col (at_ key_enc i)]> kd) key_dec (seq 4 (key_len + 20)).

(** [crypto_aes_expand_key] *)
Definition crypto_aes_expand_key (ctx : crypto_aes_ctx) (in_key : bytes) (key_len : nat) : Z * crypto_aes_ctx :=
  if negb (key_len =? 16)%nat && negb (key_len =? 24)%nat && negb (key_len =? 32)%nat then (- EINVAL, ctx) else
  let kd := foldl (fun kd i => <[(key_len + 24 + i)%nat := le32 in_key i]> kd) (key_dec ctx) (seq 0 4) in
  let ke := expand_enc in_key key_len (key_enc ctx) in
  let kd := foldl (fun kd i => <[i := at_ ke (key_len + 24 + i)]> kd) kd (seq 0 4) in
  (0, AesCtx ke (mix_keys key_len ke kd) key_len).

(** [crypto_aes_set_key]; the flag it sets on failure is not used here. *)
Definition crypto_aes_set_key (ctx : crypto_aes_ctx) (in_key : bytes) (key_len : nat) : Z * crypto_aes_ctx :=
  let '(ret, ctx) := crypto_aes_expand_key ctx in_key key_len in
  if negb (truthy ret) then (0, ctx) else (- EINVAL, ctx).

(** ** The cipher *)

(** [f_rn], [f_rl], [i_rn], [i_rl]: a word of the next state from the table, the words [bi] and
    the key at [kp]; [d] is 1 for encryption and 3 for decryption. *)
Definition rn (tab : list (list Z)) (d : nat) (keys : list Z) (bi : list Z) (n kp : nat) : Z :=
  Z.lxor (Z.lxor (Z.lxor (Z.lxor (row tab 0 (byte (at_ bi n) 0)) (row tab 1 (byte (at_ bi ((n + d) mod 4)) 1)))
    (row tab 2 (byte (at_ bi ((n + 2) mod 4)) 2))) (row tab 3 (byte (at_ bi ((n + 4 - d) mod 4)) 3))) (at_ keys (kp + n)).
Definition f_rn := rn crypto_ft_tab 1.
Definition f_rl := rn crypto_fl_tab 1.
Definition i_rn := rn crypto_it_tab 3.
Definition i_rl := rn crypto_il_tab 3.

(** [f_nround], [f_lround], [i_nround], [i_lround]: the words and the key pointer *)
Definition f_nround (keys : list Z) (v : list Z * nat) : list Z * nat :=
  let '(bi, kp) := v in ([f_rn keys bi 0 kp; f_rn keys bi 1 kp; f_rn keys bi 2 kp; f_rn keys bi 3 kp], (kp + 4)%nat).
Definition f_lround (keys : list Z) (v : list Z * nat) : list Z :=
  let '(bi, kp) := v in [f_rl keys bi 0 kp; f_rl keys bi 1 kp; f_rl keys bi 2 kp; f_rl keys bi 3 kp].
Definition i_nround (keys : list Z) (v : list Z * nat) : list Z * nat :=
  let '(bi, kp) := v in ([i_rn keys bi 0 kp; i_rn keys bi 1 kp; i_rn keys bi 2 kp; i_rn keys bi 3 kp], (kp + 4)%nat).
Definition i_lround (keys : list Z) (v : list Z * nat) : list Z :=
  let '(bi, kp) := v in [i_rl keys bi 0 kp; i_rl keys bi 1 kp; i_rl keys bi 2 kp; i_rl keys bi 3 kp].

(** [b0[i] = le32_to_cpu(src[i]) ^ keys[i]] *)
Definition load_block (keys : list Z) (src : bytes) : list Z :=
  (fun i => Z.lxor (le32 src i) (at_ keys i)) <$> seq 0 4.

(** [aes_encrypt], [aes_decrypt] *)
Definition aes_encrypt (ctx : crypto_aes_ctx) (src : bytes) : bytes :=
  let round := f_nround (key_enc ctx) in
  let v := (load_block (key_enc ctx) src, 4%nat) in
  let v := if 24 <? key_length ctx then round (round v) else v in
  let v := if 16 <? key_length ctx then round (round v) else v in
  let v := round (round (round (round (round (round (round (round (round v)))))))) in
  mjoin (le_bytes 4 <$> f_lround (key_enc ctx) v).
Definition aes_decrypt (ctx : crypto_aes_ctx) (src : bytes) : bytes :=
  let round := i_nround (key_dec ctx) in
  let v := (load_block (key_dec ctx) src, 4%nat) in
  let v := if 24 <? key_length ctx then round (round v) else v in
  let v := if 16 <? key_length ctx then round (round v) else v in
  let v := round (round (round (round (round (round (round (round (round v)))))))) in
  mjoin (le_bytes 4 <$> i_lround (key_dec ctx) v).

(** ** Words as columns *)

(** The word with the bytes of a column, the first one lowest *)
Definition W (c : column) : Z := le_value (col_bytes c).

Lemma W_value c : W c = r0 c + 256 * (r1 c + 256 * (r2 c + 256 * r3 c)).
Proof. unfold W. cbn [col_bytes le_value]. lia. Qed.

Lemma lxor_shifted x y x' y' : byte_ok x -> byte_ok x' -> Z.lxor (x + 256 * y) (x' + 256 * y') = Z.lxor x x' + 256 * Z.lxor y y'.
Proof.
  intros Hx Hx'. assert (E : forall a b, byte_ok a -> a + 256 * b = Z.lxor (Z.shiftl b 8) a).
  { intros a b Ha. rewrite Z.shiftl_mul_pow2, (lxor_add _ _ 8) by (done || by apply Z.mod_mul). lia. }
  rewrite !E by (done || by apply byte_lxor). rewrite Z.shiftl_lxor. apply lxor_swap.
Qed.

Lemma W_xor a b : col_ok a -> col_ok b -> Z.lxor (W a) (W b) = W (xor_col a b).
Proof. intros [] []. rewrite !W_value. unfold xor_col. cbn [r0 r1 r2 r3]. by rewrite !lxor_shifted. Qed.

Lemma W_range c : col_ok c -> 0 <= W c < 2 ^ 32.
Proof. intros []. rewrite W_value. unfold byte_ok in *. lia. Qed.

Lemma byte_W c : col_ok c -> byte (W c) 0 = r0 c /\ byte (W c) 1 = r1 c /\ byte (W c) 2 = r2 c /\ byte (W c) 3 = r3 c.
Proof.
  intros []. rewrite W_value. unfold byte, u8, byte_ok in *.
  change (Z.shiftl 0 3) with 0. change (Z.shiftl 1 3) with 8. change (Z.shiftl 2 3) with 16. change (Z.shiftl 3 3) with 24.
  rewrite !Z.shiftr_div_pow2 by lia. change (2 ^ 0) with 1. change (2 ^ 8) with 256. change (2 ^ 16) with 65536. change (2 ^ 24) with 16777216.
  split_and!; Z.div_mod_to_equations; lia.
Qed.

(** A rotation by whole bytes: [lo] moves down, [hi] up *)
Lemma ror32_split hi lo n : 0 < n < 32 -> 0 <= hi < 2 ^ n -> 0 <= lo < 2 ^ (32 - n) -> ror32 (hi + lo * 2 ^ n) n = lo + hi * 2 ^ (32 - n).
Proof.
  intros Hn Hh Hl. unfold ror32, u32. rewrite Z.shiftr_div_pow2, Z.shiftl_mul_pow2, Z.div_add, (Z.div_small hi) by lia.
  assert (E : (hi + lo * 2 ^ n) * 2 ^ (32 - n) = hi * 2 ^ (32 - n) + lo * 2 ^ 32).
  { rewrite Z.mul_add_distr_r, <- Z.mul_assoc, <- Z.pow_add_r by lia. do 2 f_equal. f_equal. lia. }
  rewrite E, Z.mod_add by done. assert (2 ^ n * 2 ^ (32 - n) = 2 ^ 32) by (rewrite <- Z.pow_add_r by lia; f_equal; lia).
  rewrite (Z.mod_small (hi * _)) by nia. rewrite Z.lor_comm, (lor_add _ _ (32 - n)) by (lia || apply Z.mod_mul; lia). lia.
Qed.

Lemma ror32_W c : col_ok c ->
  ror32 (W c) 8 = W (RotWord c) /\ ror32 (W c) 16 = W (RotWord (RotWord c)) /\ ror32 (W c) 24 = W (RotWord (RotWord (RotWord c))).
Proof.
  intros []. unfold byte_ok in *. rewrite !W_value. cbn [RotWord r0 r1 r2 r3]. split_and!.
  - replace (r0 c + _) with (r0 c + (r1 c + 256 * (r2 c + 256 * r3 c)) * 2 ^ 8) by lia. rewrite ror32_split by lia. lia.
  - replace (r0 c + _) with (r0 c + 256 * r1 c + (r2 c + 256 * r3 c) * 2 ^ 16) by lia. rewrite ror32_split by lia. lia.
  - replace (r0 c + _) with (r0 c + 256 * (r1 c + 256 * r2 c) + r3 c * 2 ^ 24) by lia. rewrite ror32_split by lia. lia.
Qed.

(** ** The multiplication of a column *)

Lemma land_shifted x y x' y' : byte_ok x -> byte_ok x' -> Z.land (x + 256 * y) (x' + 256 * y') = Z.land x x' + 256 * Z.land y y'.
Proof.
  intros Hx Hx'. assert (E : forall a b, byte_ok a -> a + 256 * b = Z.lor (Z.shiftl b 8) a).
  { intros a b Ha. rewrite Z.shiftl_mul_pow2, (lor_add _ _ 8) by (done || by apply Z.mod_mul). lia. }
  assert (L : byte_ok (Z.land x x')).
  { replace x' with (x' mod 2 ^ 8) by (apply Z.mod_small; exact Hx'). rewrite <- Z.land_ones, Z.land_assoc, Z.land_ones by lia. apply Z.mod_pos_bound. done. }
  assert (D : forall a b, byte_ok b -> Z.land (Z.shiftl a 8) b = 0).
  { intros a b Hb. apply (land_low _ _ 8); [done|done|]. rewrite Z.shiftl_mul_pow2 by done. by apply Z.mod_mul. }
  rewrite !E by done. rewrite Z.land_lor_distr_l, !Z.land_lor_distr_r, (D y x'), (Z.land_comm x), (D y' x) by done.
  by rewrite Z.lor_0_r, Z.lor_0_l, Z.shiftl_land.
Qed.

Lemma W_land a m : col_ok a -> byte_ok m -> Z.land (W a) (W (Col m m m m)) = W (map_col (fun b => Z.land b m) a).
Proof. intros [] Hm. rewrite !W_value. cbn [map_col r0 r1 r2 r3]. by rewrite !land_shifted. Qed.

Lemma star_x_W c : col_ok c -> star_x (W c) = W (map_col xtime c).
Proof.
  intros H. unfold star_x. change 0x7f7f7f7f with (W (Col 127 127 127 127)). change 0x80808080 with (W (Col 128 128 128 128)).
  rewrite !W_land by done.
  assert (E1 : forall b, byte_ok b -> Z.land b 127 = b mod 128) by (intros b _; change 127 with (Z.ones 7); by rewrite Z.land_ones).
  assert (E2 : forall b, byte_ok b -> Z.land b 128 = 128 * (b / 128)) by (apply (byte_eq (fun b => Z.land b 128) (fun b => 128 * (b / 128))); vm_compute; reflexivity).
  assert (E3 : forall b, byte_ok b -> xtime b = Z.lxor (2 * (b mod 128)) (27 * (b / 128)))
    by (apply (byte_eq xtime (fun b => Z.lxor (2 * (b mod 128)) (27 * (b / 128)))); vm_compute; reflexivity).
  assert (F1 : u32 (Z.shiftl (W (map_col (fun b => Z.land b 127) c)) 1) = W (map_col (fun b => 2 * (b mod 128)) c)).
  { destruct H. rewrite Z.shiftl_mul_pow2, !W_value by lia. cbn [map_col r0 r1 r2 r3]. rewrite !E1 by done. unfold byte_ok, u32 in *. Z.div_mod_to_equations. lia. }
  assert (F2 : u32 (Z.shiftr (W (map_col (fun b => Z.land b 128) c)) 7 * 0x1b) = W (map_col (fun b => 27 * (b / 128)) c)).
  { destruct H. rewrite Z.shiftr_div_pow2, !W_value by lia. cbn [map_col r0 r1 r2 r3]. rewrite !E2 by done. unfold byte_ok, u32 in *. Z.div_mod_to_equations. lia. }
  rewrite F1, F2, W_xor by (destruct H; split; cbn [map_col r0 r1 r2 r3]; unfold byte_ok in *; Z.div_mod_to_equations; lia).
  destruct H. unfold xor_col, map_col. cbn [r0 r1 r2 r3]. by rewrite !E3.
Qed.

(** Equalities of sums, bit by bit *)
Ltac xor_solve := apply Z.bits_inj; intros ?i; rewrite !Z.lxor_spec; repeat case (Z.testbit _ _); reflexivity.

Lemma col_ok_gmul a c : byte_ok a -> col_ok (map_col (gmul a) c).
Proof. intros Ha. split; by apply byte_ok_gmul. Qed.
#[local] Hint Resolve col_ok_Rot : aes.
#[local] Hint Extern 1 (col_ok (map_col (gmul _) _)) => (apply col_ok_gmul; done) : aes.

Lemma map_col_eq (f g : Z -> Z) c : forallb (fun b => f b =? g b) (seqZ 0 256) = true -> col_ok c -> map_col f c = map_col g c.
Proof. intros H []. unfold map_col. f_equal; by apply byte_eq. Qed.

Lemma xor_map f g c : xor_col (map_col f c) (map_col g c) = map_col (fun b => Z.lxor (f b) (g b)) c.
Proof. done. Qed.

Lemma imix_col_W c : col_ok c -> imix_col (W c) = W (inv_mix_col c).
Proof.
  intros H. assert (X : forall d, col_ok d -> col_ok (map_col xtime d)) by (intros; by apply col_ok_map; [apply byte_ok_xtime|]).
  unfold imix_col. rewrite (star_x_W c H), (star_x_W (map_col xtime c)), (star_x_W (map_col xtime (map_col xtime c))) by auto.
  set (u := map_col xtime c). set (v := map_col xtime u). set (w := map_col xtime v).
  assert (Hu : col_ok u) by by apply X. assert (Hv : col_ok v) by by apply X. assert (Hw : col_ok w) by by apply X.
  rewrite !W_xor by auto with aes.
  assert (E9 : xor_col w c = map_col (gmul 9) c) by (apply (map_col_eq (fun b => Z.lxor (xtime (xtime (xtime b))) b)); [vm_compute; reflexivity|done]).
  assert (E11 : xor_col u (xor_col w c) = map_col (gmul 11) c) by (apply (map_col_eq (fun b => Z.lxor (xtime b) (Z.lxor (xtime (xtime (xtime b))) b))); [vm_compute; reflexivity|done]).
  assert (E13 : xor_col v (xor_col w c) = map_col (gmul 13) c) by (apply (map_col_eq (fun b => Z.lxor (xtime (xtime b)) (Z.lxor (xtime (xtime (xtime b))) b))); [vm_compute; reflexivity|done]).
  assert (E14 : xor_col (xor_col u v) w = map_col (gmul 14) c) by (apply (map_col_eq (fun b => Z.lxor (Z.lxor (xtime b) (xtime (xtime b))) (xtime (xtime (xtime b))))); [vm_compute; reflexivity|done]).
  rewrite E11, E13, E14, E9.
  destruct (ror32_W (map_col (gmul 11) c)) as (-> & _ & _); [auto with aes|]. destruct (ror32_W (map_col (gmul 13) c)) as (_ & -> & _); [auto with aes|].
  destruct (ror32_W (map_col (gmul 9) c)) as (_ & _ & ->); [auto with aes|]. rewrite !W_xor by auto 8 with aes. f_equal.
  unfold inv_mix_col, mul_col, xor_col, xor4. cbn [map_col RotWord r0 r1 r2 r3]. f_equal; xor_solve.
Qed.

(** ** The tables *)

(** What a byte [y] of a column adds to the product with the polynomial: a column of multiples *)
Definition multiples (p q r s y : Z) : column := Col (gmul p y) (gmul q y) (gmul r y) (gmul s y).

(** The table has the multiples of the substituted bytes for the four places in a column. *)
Record table_ok (tab : list (list Z)) (sub : Z -> Z) (a b c d : Z) : Prop := {
  tb_coeffs : byte_ok a /\ byte_ok b /\ byte_ok c /\ byte_ok d;
  tb_0 : forall x, byte_ok x -> row tab 0 x = W (multiples a d c b (sub x));
  tb_1 : forall x, byte_ok x -> row tab 1 x = W (multiples b a d c (sub x));
  tb_2 : forall x, byte_ok x -> row tab 2 x = W (multiples c b a d (sub x));
  tb_3 : forall x, byte_ok x -> row tab 3 x = W (multiples d c b a (sub x));
}.

Ltac table := split; [done|..];
  match goal with |- forall x, byte_ok x -> @?f x = @?g x => apply (byte_eq f g); vm_compute; reflexivity end.

Lemma ft_ok : table_ok crypto_ft_tab S_ 2 3 1 1.
Proof. table. Qed.
Lemma fl_ok : table_ok crypto_fl_tab S_ 1 0 0 0.
Proof. table. Qed.
Lemma it_ok : table_ok crypto_it_tab IS 14 11 13 9.
Proof. table. Qed.
Lemma il_ok : table_ok crypto_il_tab IS 1 0 0 0.
Proof. table. Qed.

Lemma col_ok_multiples p q r s y : byte_ok p -> byte_ok q -> byte_ok r -> byte_ok s -> col_ok (multiples p q r s y).
Proof. intros. split; by apply byte_ok_gmul. Qed.

(** Four entries, one for each byte of a column, make its product. *)
Lemma table_column tab sub a b c d x0 x1 x2 x3 : table_ok tab sub a b c d -> byte_ok x0 -> byte_ok x1 -> byte_ok x2 -> byte_ok x3 ->
  Z.lxor (Z.lxor (Z.lxor (row tab 0 x0) (row tab 1 x1)) (row tab 2 x2)) (row tab 3 x3)
    = W (mul_col a b c d (Col (sub x0) (sub x1) (sub x2) (sub x3))).
Proof.
  intros [(Ha & Hb & Hc & Hd) T0 T1 T2 T3] H0 H1 H2 H3. rewrite T0, T1, T2, T3 by done.
  rewrite !W_xor by auto using col_ok_multiples with aes. done.
Qed.

(** ** Rounds *)

Definition words (s : state) : list Z := [W (k0 s); W (k1 s); W (k2 s); W (k3 s)].
Definition colm (s : state) (n : nat) : column := nth (n mod 4) [k0 s; k1 s; k2 s; k3 s] (k0 s).

Lemma at_words s n : at_ (words s) (n mod 4) = W (colm s n).
Proof.
  unfold colm. pose proof (Nat.mod_upper_bound n 4 ltac:(lia)). destruct (n mod 4)%nat as [|[|[|[|m]]]]; try done. lia.
Qed.

Lemma colm_ok s n : state_ok s -> col_ok (colm s n).
Proof.
  intros []. unfold colm. pose proof (Nat.mod_upper_bound n 4 ltac:(lia)). destruct (n mod 4)%nat as [|[|[|[|m]]]]; try done. lia.
Qed.

Lemma rn_ok tab sub a b c d e keys s n kp k : table_ok tab sub a b c d -> state_ok s -> col_ok k -> (n < 4)%nat -> at_ keys (kp + n) = W k ->
  rn tab e keys (words s) n kp
    = W (xor_col (mul_col a b c d (Col (sub (r0 (colm s n))) (sub (r1 (colm s (n + e)))) (sub (r2 (colm s (n + 2)))) (sub (r3 (colm s (n + 4 - e)))))) k).
Proof.
  intros HT Hs Hk Hn Ek. unfold rn. rewrite Ek. replace (at_ (words s) n) with (W (colm s n)) by (rewrite <- at_words, Nat.mod_small; done).
  rewrite !at_words. destruct (byte_W (colm s n)) as (-> & _); [by apply colm_ok|]. destruct (byte_W (colm s (n + e))) as (_ & -> & _); [by apply colm_ok|].
  destruct (byte_W (colm s (n + 2))) as (_ & _ & -> & _); [by apply colm_ok|]. destruct (byte_W (colm s (n + 4 - e))) as (_ & _ & _ & ->); [by apply colm_ok|].
  rewrite (table_column tab sub a b c d) by (done || apply colm_ok; done). destruct HT as [(? & ? & ? & ?) _ _ _ _]. by rewrite W_xor by (try apply col_ok_mul; done).
Qed.

(** A round key in the array of the words *)
Record key_at (keys : list Z) (kp : nat) (k : state) : Prop := {
  ka_ok : state_ok k; ka_0 : at_ keys (kp + 0) = W (k0 k); ka_1 : at_ keys (kp + 1) = W (k1 k); ka_2 : at_ keys (kp + 2) = W (k2 k); ka_3 : at_ keys (kp + 3) = W (k3 k);
}.

(** The transformation behind a row of table look-ups *)
Definition round_with (sub : Z -> Z) (shift : state -> state) (a b c d : Z) (s k : state) : state :=
  AddRoundKey (map_state (mul_col a b c d) (shift (map_state (map_col sub) s))) k.

Lemma fround_ok tab sub a b c d keys s kp k : table_ok tab sub a b c d -> state_ok s -> key_at keys kp k ->
  [rn tab 1 keys (words s) 0 kp; rn tab 1 keys (words s) 1 kp; rn tab 1 keys (words s) 2 kp; rn tab 1 keys (words s) 3 kp]
    = words (round_with sub ShiftRows a b c d s k).
Proof.
  intros HT Hs [[] E0 E1 E2 E3]. rewrite (rn_ok tab sub a b c d 1 keys s 0 kp (k0 k)), (rn_ok tab sub a b c d 1 keys s 1 kp (k1 k)),
    (rn_ok tab sub a b c d 1 keys s 2 kp (k2 k)), (rn_ok tab sub a b c d 1 keys s 3 kp (k3 k)) by (done || lia). done.
Qed.

Lemma iround_ok tab sub a b c d keys s kp k : table_ok tab sub a b c d -> state_ok s -> key_at keys kp k ->
  [rn tab 3 keys (words s) 0 kp; rn tab 3 keys (words s) 1 kp; rn tab 3 keys (words s) 2 kp; rn tab 3 keys (words s) 3 kp]
    = words (round_with sub InvShiftRows a b c d s k).
Proof.
  intros HT Hs [[] E0 E1 E2 E3]. rewrite (rn_ok tab sub a b c d 3 keys s 0 kp (k0 k)), (rn_ok tab sub a b c d 3 keys s 1 kp (k1 k)),
    (rn_ok tab sub a b c d 3 keys s 2 kp (k2 k)), (rn_ok tab sub a b c d 3 keys s 3 kp (k3 k)) by (done || lia). done.
Qed.

(** ** Blocks *)

Lemma slice_col b j : (j + 4 <= length b)%nat -> slice j 4 b = col_bytes (col_at b j).
Proof.
  intros H. pose proof (length_drop b j) as L. unfold slice, col_at, at_. rewrite <- (Nat.add_0_r j) at 2. rewrite <- !(lookup_drop b j).
  destruct (drop j b) as [|x0 [|x1 [|x2 [|x3 l]]]]; cbn [length] in L; try lia. done.
Qed.

Lemma le32_col b i : (4 * i + 4 <= length b)%nat -> le32 b i = W (col_at b (4 * i)).
Proof. intros H. unfold le32. by rewrite slice_col. Qed.

Lemma load_block_ok keys src k : bytes_ok src -> length src = 16%nat -> key_at keys 0 k -> load_block keys src = words (AddRoundKey (to_state src) k).
Proof.
  intros Hb Hl [[] E0 E1 E2 E3]. cbn [Nat.add] in *. unfold load_block. cbn [seq fmap list_fmap]. rewrite E0, E1, E2, E3, !le32_col by (rewrite Hl; lia).
  rewrite !W_xor by (done || by apply col_ok_at). done.
Qed.

Lemma le_bytes_W c : col_ok c -> le_bytes 4 (W c) = col_bytes c.
Proof.
  intros []. assert (E : forall a r, byte_ok a -> (a + 256 * r) mod 256 = a /\ (a + 256 * r) / 256 = r)
    by (unfold byte_ok; intros; split; Z.div_mod_to_equations; lia).
  unfold W. cbn [col_bytes le_value le_bytes]. destruct (E (r0 c) (r1 c + 256 * (r2 c + 256 * (r3 c + 256 * 0)))) as [-> ->]; [done|].
  destruct (E (r1 c) (r2 c + 256 * (r3 c + 256 * 0))) as [-> ->]; [done|]. destruct (E (r2 c) (r3 c + 256 * 0)) as [-> ->]; [done|].
  by destruct (E (r3 c) 0) as [-> _].
Qed.

Lemma store_block_ok s : state_ok s -> mjoin (le_bytes 4 <$> words s) = of_state s.
Proof. intros []. unfold words. cbn [fmap list_fmap mjoin list_join]. rewrite !le_bytes_W by done. unfold of_state. by rewrite app_nil_r. Qed.

Lemma mul_col_1 c : col_ok c -> mul_col 1 0 0 0 c = c.
Proof.
  destruct c as [a b c d]. intros [Ha Hb Hc Hd]. cbn [r0 r1 r2 r3] in *. unfold mul_col. cbn [r0 r1 r2 r3].
  assert (E1 : forall x, byte_ok x -> gmul 1 x = x) by (apply (byte_eq (gmul 1) (fun x => x)); vm_compute; reflexivity).
  assert (E0 : forall x, byte_ok x -> gmul 0 x = 0) by (apply (byte_eq (gmul 0) (fun x => 0)); vm_compute; reflexivity).
  rewrite !E1, !E0 by done. unfold xor4. by rewrite !Z.lxor_0_r, ?Z.lxor_0_l.
Qed.

Lemma last_round sub shift s k : state_ok (shift (map_state (map_col sub) s)) ->
  round_with sub shift 1 0 0 0 s k = AddRoundKey (shift (map_state (map_col sub) s)) k.
Proof. intros []. unfold round_with, map_state at 1. rewrite !mul_col_1 by done. by destruct (shift _). Qed.

(** ** The two directions *)

Lemma state_ok_round sub shift a b c d s k : byte_ok a -> byte_ok b -> byte_ok c -> byte_ok d -> state_ok k -> state_ok (round_with sub shift a b c d s k).
Proof. intros Ha Hb Hc Hd Hk. apply state_ok_add; [|done]. split; by apply col_ok_mul. Qed.

(** The round keys in the array, from [kp] on *)
Definition keys_at (keys : list Z) (kp : nat) (rounds : list state) : Prop :=
  forall i k, rounds !! i = Some k -> key_at keys (kp + 4 * i) k.

Lemma keys_at_app keys kp rounds k : keys_at keys kp (rounds ++ [k]) -> keys_at keys kp rounds /\ key_at keys (kp + 4 * length rounds) k.
Proof.
  intros H. split.
  - intros i k' Hi. apply H. by apply lookup_app_l_Some.
  - apply H. apply list_lookup_middle. done.
Qed.

Lemma f_nrounds_ok keys kp rounds s : state_ok s -> keys_at keys kp rounds ->
  Nat.iter (length rounds) (f_nround keys) (words s, kp) = (words (foldl enc_round s rounds), (kp + 4 * length rounds)%nat) /\
  state_ok (foldl enc_round s rounds).
Proof.
  intros Hs. induction rounds as [|k rounds IH] using rev_ind; intros H; [by rewrite Nat.add_0_r|]. apply keys_at_app in H as [H Hk].
  destruct (IH H) as [E He]. rewrite length_app, Nat.add_1_r, Nat.iter_succ, E, foldl_app. cbn [foldl]. set (e := foldl enc_round s rounds) in *.
  unfold f_nround. unfold f_rn. rewrite (fround_ok _ _ _ _ _ _ _ _ _ k ft_ok He Hk). split; [f_equal; lia|].
  apply (state_ok_round S_ ShiftRows 2 3 1 1); (done || apply Hk).
Qed.

Lemma i_nrounds_ok keys kp rounds s : state_ok s -> keys_at keys kp rounds ->
  Nat.iter (length rounds) (i_nround keys) (words s, kp) = (words (foldl dec_round s rounds), (kp + 4 * length rounds)%nat) /\
  state_ok (foldl dec_round s rounds).
Proof.
  intros Hs. induction rounds as [|k rounds IH] using rev_ind; intros H; [by rewrite Nat.add_0_r|]. apply keys_at_app in H as [H Hk].
  destruct (IH H) as [E He]. rewrite length_app, Nat.add_1_r, Nat.iter_succ, E, foldl_app. cbn [foldl]. set (e := foldl dec_round s rounds) in *.
  unfold i_nround. unfold i_rn. rewrite (iround_ok _ _ _ _ _ _ _ _ _ k it_ok He Hk). split; [f_equal; lia|].
  apply (state_ok_round IS InvShiftRows 14 11 13 9); (done || apply Hk).
Qed.

(** The number of rounds the code unrolls for a key length *)
Definition unrolled (key_len : Z) : nat := 9 + (if 16 <? key_len then 2 else 0) + (if 24 <? key_len then 2 else 0).

Lemma unroll {A} (f : A -> A) key_len v :
  let w := if 24 <? key_len then f (f v) else v in
  let w := if 16 <? key_len then f (f w) else w in
  f (f (f (f (f (f (f (f (f w)))))))) = Nat.iter (unrolled key_len) f v.
Proof. unfold unrolled. destruct (16 <? key_len), (24 <? key_len); done. Qed.

Lemma aes_encrypt_ok ctx src first rounds last : bytes_ok src -> length src = 16%nat -> length rounds = unrolled (key_length ctx) ->
  key_at (key_enc ctx) 0 first -> keys_at (key_enc ctx) 4 rounds -> key_at (key_enc ctx) (4 + 4 * length rounds) last ->
  aes_encrypt ctx src = of_state (Cipher first rounds last (to_state src)).
Proof.
  intros Hb Hl Hn Hf Hr Hk. unfold aes_encrypt. cbv zeta. rewrite unroll, (load_block_ok _ _ first), <- Hn by done.
  assert (Hs : state_ok (AddRoundKey (to_state src) first)) by (apply state_ok_add; [by apply state_ok_block|apply Hf]).
  destruct (f_nrounds_ok (key_enc ctx) 4 rounds _ Hs Hr) as [-> He]. unfold f_lround, f_rl.
  rewrite (fround_ok _ _ _ _ _ _ _ _ _ last fl_ok He Hk), last_round by (apply state_ok_shift, state_ok_sub, He).
  apply store_block_ok, state_ok_add; [apply state_ok_shift, state_ok_sub, He|apply Hk].
Qed.

Lemma state_ok_unsub s : state_ok s -> state_ok (InvShiftRows (InvSubBytes s)).
Proof.
  assert (H : forall b, byte_ok b -> byte_ok (IS b)).
  { intros b Hb. assert (E : (0 <=? IS b) && (IS b <? 256) = true) by (apply (byte_all (fun b => (0 <=? IS b) && (IS b <? 256))); [vm_compute; reflexivity|done]).
    unfold byte_ok. lia. }
  intros [[] [] [] []]. split; split; cbn; by apply H.
Qed.

Lemma aes_decrypt_ok ctx src first rounds last : bytes_ok src -> length src = 16%nat -> length rounds = unrolled (key_length ctx) ->
  key_at (key_dec ctx) 0 first -> keys_at (key_dec ctx) 4 rounds -> key_at (key_dec ctx) (4 + 4 * length rounds) last ->
  aes_decrypt ctx src = of_state (EqInvCipher first rounds last (to_state src)).
Proof.
  intros Hb Hl Hn Hf Hr Hk. unfold aes_decrypt. cbv zeta. rewrite unroll, (load_block_ok _ _ first), <- Hn by done.
  assert (Hs : state_ok (AddRoundKey (to_state src) first)) by (apply state_ok_add; [by apply state_ok_block|apply Hf]).
  destruct (i_nrounds_ok (key_dec ctx) 4 rounds _ Hs Hr) as [-> He]. unfold i_lround, i_rl.
  rewrite (iround_ok _ _ _ _ _ _ _ _ _ last il_ok He Hk), last_round by (apply state_ok_unsub, He).
  apply store_block_ok, state_ok_add; [apply state_ok_unsub, He|apply Hk].
Qed.

(** ** The key schedule *)

(** The array has the words expanded so far, and [t] is the last of them. *)
Record sched (ws : list column) (v : Z * list Z) : Prop := {
  sc_ok : Forall col_ok ws;
  sc_len : length (snd v) = 60%nat;
  sc_at : forall i w, ws !! i = Some w -> at_ (snd v) i = W w;
  sc_t : forall w, ws !! (length ws - 1)%nat = Some w -> fst v = W w;
}.

Lemma at_insert (l : list Z) i j x : (i < length l)%nat -> at_ (<[i := x]> l) j = if decide (i = j) then x else at_ l j.
Proof. intros Hi. unfold at_. destruct (decide (i = j)) as [<-|H]; [by rewrite list_lookup_insert_eq|by rewrite list_lookup_insert_ne]. Qed.

Lemma sched_push ws v w : sched ws v -> col_ok w -> (length ws < 60)%nat -> sched (ws ++ [w]) (W w, <[length ws := W w]> (snd v)).
Proof.
  intros [Hok Hl Ha Ht] Hw Hn. split; cbn [fst snd].
  - apply Forall_app. split; [done|by constructor].
  - by rewrite length_insert.
  - intros i w' Hi. rewrite at_insert by lia. apply lookup_app_Some in Hi as [Hi|[Hge Hi]].
    + apply lookup_lt_Some in Hi as Hlt. rewrite decide_False by lia. by apply Ha.
    + destruct (i - length ws)%nat as [|k] eqn:E; [|done]. injection Hi as ->. by rewrite decide_True by lia.
  - intros w' H. rewrite length_app in H. cbn in H. rewrite lookup_app_r in H by lia. replace (length ws + 1 - 1 - length ws)%nat with 0%nat in H by lia. by injection H as ->.
Qed.

Lemma word_at ws v i : sched ws v -> (i < length ws)%nat ->
  exists w, ws !! i = Some w /\ default (Col 0 0 0 0) (ws !! i) = w /\ col_ok w /\ at_ (snd v) i = W w.
Proof.
  intros [Hok _ Ha _] Hi. apply lookup_lt_is_Some in Hi as [w Hw]. exists w. rewrite Hw. split_and!; [done..|by eapply Forall_lookup_1|by apply Ha].
Qed.

Lemma ls_box_W c : col_ok c -> ls_box (W c) = W (SubWord c).
Proof.
  intros H. unfold ls_box. destruct (byte_W c H) as (-> & -> & -> & ->). rewrite (table_column _ S_ 1 0 0 0) by (apply fl_ok || apply H).
  rewrite mul_col_1; [done|]. apply (col_ok_map S_ c byte_ok_S H).
Qed.

Lemma rco_ok i : (i < 10)%nat -> at_ rco_tab i = W (Rcon (S i)) /\ col_ok (Rcon (S i)).
Proof. intros H. do 10 (destruct i as [|i]; [by split|]). lia. Qed.

(** The words of a round of the expansion, which starts after [n] words: the first, the ones
    that follow it, and the one in the middle of the long keys *)
Definition upto (n : nat) (ws : list column) (v : Z * list Z) : Prop := sched ws v /\ length ws = n.

Lemma upto_sched ws v n : upto n ws v -> sched ws v.
Proof. by intros []. Qed.

Lemma upto_snoc n ws v w : length ws = n -> sched (ws ++ [w]) v -> upto (S n) (ws ++ [w]) v.
Proof. intros <- H. split; [done|]. rewrite length_app. cbn. lia. Qed.

Lemma upto_at n ws v i : (i < n)%nat -> upto n ws v -> exists w, ws !! i = Some w /\ col_ok w /\ at_ (snd v) i = W w.
Proof. intros Hn [Hs Hl]. destruct (word_at ws v i Hs ltac:(lia)) as (w & Hw & _ & Hwo & Ea). by exists w. Qed.

Lemma upto_last n ws v : (0 < n)%nat -> upto n ws v -> exists w, ws !! (length ws - 1)%nat = Some w /\ col_ok w /\ fst v = W w.
Proof.
  intros Hn Hu. pose proof Hu as [Hs Hl]. destruct (upto_at n ws v (length ws - 1) ltac:(lia) Hu) as (w & Hw & Hwo & _). exists w. split_and!; [done..|by apply (sc_t _ _ Hs)].
Qed.

(** One word more, when [t] is the word [c] *)
Lemma xor_step_ok ws v src dst n u c : upto n ws v -> dst = n -> (n < 60)%nat -> col_ok u -> at_ (snd v) src = W u -> col_ok c ->
  upto (S n) (ws ++ [xor_col u c]) (xor_step src dst (W c, snd v)).
Proof.
  intros [Hs Hl] -> Hn Hu Ea Hc. apply upto_snoc; [done|]. unfold xor_step. rewrite Ea, W_xor, xor_col_comm, <- Hl by done.
  apply sched_push; [done|by apply col_ok_xor|lia].
Qed.

Lemma head_ok Nk ws v i src dst n : upto n ws v -> n = (Nk * S i)%nat -> src = (n - Nk)%nat -> dst = n -> (0 < Nk)%nat -> (i < 10)%nat -> (n < 60)%nat ->
  upto (S n) (ws ++ [next_word Nk ws]) (xor_step src dst (loop_head i (fst v), snd v)).
Proof.
  intros Hu En -> Ed HN Hi Hn. pose proof Hu as [_ Hl]. destruct (upto_last n ws v ltac:(lia) Hu) as (w & Hw & Hwo & Et), (upto_at n ws v (n - Nk) ltac:(lia) Hu) as (u & Hx & Huo & Ea).
  destruct (rco_ok i Hi) as [Er Hr]. rewrite (next_head Nk ws i 0 u w) by first [done|rewrite ?Hl; first [done|lia]]. unfold loop_head. destruct (ror32_W w Hwo) as (Er8 & _).
  rewrite Et, Er8, ls_box_W, Er, W_xor by auto using col_ok_Sub, col_ok_Rot. apply xor_step_ok; auto using col_ok_Sub, col_ok_Rot, col_ok_xor.
Qed.

Lemma plain_ok Nk i j ws v src dst n : upto n ws v -> n = (Nk * S i + j)%nat -> src = (n - Nk)%nat -> dst = n -> (0 < j < Nk)%nat ->
  (Nk <= 6 \/ j <> 4)%nat -> (n < 60)%nat -> upto (S n) (ws ++ [next_word Nk ws]) (xor_step src dst v).
Proof.
  intros Hu En -> Ed Hj H4 Hn. pose proof Hu as [_ Hl]. destruct (upto_last n ws v ltac:(lia) Hu) as (w & Hw & Hwo & Et), (upto_at n ws v (n - Nk) ltac:(lia) Hu) as (u & Hx & Huo & Ea).
  rewrite (next_plain Nk ws i j u w) by first [done|rewrite ?Hl; first [done|lia]]. destruct v as [t ke]. cbn [fst] in Et. rewrite Et. by apply (xor_step_ok ws (t, ke)).
Qed.

Lemma middle_ok i ws v src dst n t : upto n ws v -> n = (8 * S i + 4)%nat -> src = (n - 8)%nat -> dst = n -> (n < 60)%nat ->
  t = Z.lxor (at_ (snd v) src) (ls_box (fst v)) -> upto (S n) (ws ++ [next_word 8 ws]) (t, <[dst := t]> (snd v)).
Proof.
  intros Hu En -> -> Hn ->. pose proof Hu as [Hs Hl]. destruct (upto_last n ws v ltac:(lia) Hu) as (w & Hw & Hwo & Et), (upto_at n ws v (n - 8) ltac:(lia) Hu) as (u & Hx & Huo & Ea).
  rewrite (next_middle 8 ws i 4 u w) by first [done|rewrite ?Hl; first [done|lia]]. rewrite Ea, Et, ls_box_W, W_xor by auto using col_ok_Sub.
  apply upto_snoc; [done|]. rewrite <- Hl. apply sched_push; [done|auto using col_ok_Sub, col_ok_xor|lia].
Qed.

Lemma loop4_ok ws v i : upto (4 * S i) ws v -> (i < 10)%nat -> upto (4 * S (S i)) (expand 4 4 ws) (loop4 v i).
Proof.
  intros Hu Hi. unfold loop4. cbn [expand]. replace (4 * S (S i))%nat with (S (S (S (S (4 * S i))))) by lia.
  apply (plain_ok 4 i 3); try lia. apply (plain_ok 4 i 2); try lia. apply (plain_ok 4 i 1); try lia. apply head_ok; (done || lia).
Qed.

Lemma loop6_ok ws v i : upto (6 * S i) ws v -> (i < 8)%nat -> upto (6 * S (S i)) (expand 6 6 ws) (loop6 v i).
Proof.
  intros Hu Hi. unfold loop6. cbn [expand]. replace (6 * S (S i))%nat with (S (S (S (S (S (S (6 * S i))))))) by lia.
  apply (plain_ok 6 i 5); try lia. apply (plain_ok 6 i 4); try lia. apply (plain_ok 6 i 3); try lia.
  apply (plain_ok 6 i 2); try lia. apply (plain_ok 6 i 1); try lia. apply head_ok; (done || lia).
Qed.

Lemma loop8tophalf_ok ws v i : upto (8 * S i) ws v -> (i < 7)%nat -> upto (8 * S i + 4) (expand 8 4 ws) (loop8tophalf v i).
Proof.
  intros Hu Hi. unfold loop8tophalf. cbn [expand]. replace (8 * S i + 4)%nat with (S (S (S (S (8 * S i))))) by lia.
  apply (plain_ok 8 i 3); try lia. apply (plain_ok 8 i 2); try lia. apply (plain_ok 8 i 1); try lia. apply head_ok; (done || lia).
Qed.

Lemma loop8_ok ws v i : upto (8 * S i) ws v -> (i < 6)%nat -> upto (8 * S (S i)) (expand 8 8 ws) (loop8 v i).
Proof.
  intros Hu Hi. unfold loop8. change (expand 8 8 ws) with (expand 8 (4 + 4) ws). rewrite expand_add. assert (H := loop8tophalf_ok ws v i Hu ltac:(lia)).
  destruct (loop8tophalf v i) as [t ke]. cbn [expand]. replace (8 * S (S i))%nat with (S (S (S (S (8 * S i + 4))))) by lia.
  apply (plain_ok 8 i 7); try lia. apply (plain_ok 8 i 6); try lia. apply (plain_ok 8 i 5); try lia.
  by apply (middle_ok i _ (t, ke) (8 * i + 4)); try lia.
Qed.

(** The loops *)
Lemma loops_ok (loop : Z * list Z -> nat -> Z * list Z) Nk n ws v :
  (forall ws v i, upto (Nk * S i) ws v -> (i < n)%nat -> upto (Nk * S (S i)) (expand Nk Nk ws) (loop v i)) -> upto Nk ws v ->
  upto (Nk * S n) (expand Nk (Nk * n) ws) (foldl loop v (seq 0 n)).
Proof.
  intros Hloop Hu. assert (H : forall m, (m <= n)%nat -> upto (Nk * S m) (expand Nk (Nk * m) ws) (foldl loop v (seq 0 m))); [|by apply H].
  induction m as [|m IH]; intros Hm; [by rewrite Nat.mul_0_r, Nat.mul_1_r|].
  replace (expand Nk (Nk * S m) ws) with (expand Nk Nk (expand Nk (Nk * m) ws)) by (rewrite <- expand_add; f_equal; lia). rewrite seq_S, foldl_app. apply Hloop; [apply IH|]; lia.
Qed.

(** A loop that stores [f i] at [p i] *)
Section Stores.
Context (f : nat -> Z) (p : nat -> nat).
Definition stores (l : list Z) (n m : nat) : list Z := foldl (fun l i => <[p i := f i]> l) l (seq n m).

Lemma length_stores l n m : length (stores l n m) = length l.
Proof. unfold stores. induction m as [|m IH]; [done|]. rewrite seq_S, foldl_app. cbn [foldl]. by rewrite length_insert. Qed.

Lemma at_stores_ne l n m j : (forall i, (n <= i < n + m)%nat -> p i <> j) -> at_ (stores l n m) j = at_ l j.
Proof.
  unfold stores. induction m as [|m IH]; intros H; [done|]. rewrite seq_S, foldl_app. cbn [foldl]. unfold at_. rewrite list_lookup_insert_ne by (apply H; lia).
  apply IH. intros i Hi. apply H. lia.
Qed.

Lemma at_stores l n m i : (n <= i < n + m)%nat -> (p i < length l)%nat -> (forall k, (n <= k < n + m)%nat -> p k = p i -> k = i) ->
  at_ (stores l n m) (p i) = f i.
Proof.
  intros Hi Hp Hinj. induction m as [|m IH]; [lia|]. assert (L := length_stores l n m). unfold stores in *. rewrite seq_S, foldl_app. cbn [foldl].
  unfold at_ in *. destruct (decide (i = n + m)%nat) as [->|Hne]; [by rewrite list_lookup_insert_eq by lia|].
  rewrite list_lookup_insert_ne by (intros E; apply Hne; symmetry; apply Hinj; [lia|done]). apply IH; [lia|]. intros k Hk. apply Hinj. lia.
Qed.
End Stores.

(** The words of the key, then the whole [key_enc] *)
Lemma load_key_ok key m ke : bytes_ok key -> length key = (4 * m)%nat -> (0 < m <= 60)%nat -> length ke = 60%nat ->
  upto m (key_words key) (at_ (load_key key 0 m ke) (m - 1), load_key key 0 m ke).
Proof.
  intros Hb Hl Hm Hk. change (load_key key 0 m ke) with (stores (le32 key) id ke 0 m). unfold key_words. rewrite Hl, Nat.mul_comm, Nat.div_mul by lia.
  assert (A : forall i w, ((fun i => col_at key (4 * i)) <$> seq 0 m) !! i = Some w -> at_ (stores (le32 key) id ke 0 m) i = W w).
  { intros i w Hw. rewrite list_lookup_fmap in Hw. apply fmap_Some in Hw as (k & [-> Hi]%lookup_seq & ->). cbn [Nat.add].
    rewrite <- le32_col by lia. apply (at_stores (le32 key) id); cbn; intros; (lia || done). }
  split; [|by rewrite length_fmap, length_seq]. split; cbn [fst snd].
  - apply Forall_fmap, Forall_true. intros i. by apply col_ok_at.
  - by rewrite length_stores.
  - done.
  - rewrite length_fmap, length_seq. apply A.
Qed.

Lemma load_key_add key n m ke : load_key key n m (load_key key 0 n ke) = load_key key 0 (n + m) ke.
Proof. unfold load_key. by rewrite seq_app, foldl_app. Qed.

Lemma expand_enc_ok key ke : bytes_ok key -> key_size (length key) -> length ke = 60%nat ->
  let ke' := expand_enc key (length key) ke in
  length ke' = 60%nat /\ Forall col_ok (KeyExpansion key) /\ forall i w, KeyExpansion key !! i = Some w -> at_ ke' i = W w.
Proof.
  intros Hb [Hn|[Hn|Hn]] Hk; unfold expand_enc, KeyExpansion; rewrite Hn; cbn [Nat.eqb]; cbv zeta; rewrite ?load_key_add.
  - destruct (loops_ok loop4 4 10 _ _ ltac:(intros; by apply loop4_ok) (load_key_ok key 4 ke Hb Hn ltac:(lia) Hk)) as [[? ? ? _] _]. by split_and!.
  - destruct (loops_ok loop6 6 8 _ _ ltac:(intros; by apply loop6_ok) (load_key_ok key 6 ke Hb Hn ltac:(lia) Hk)) as [[Hok ? Ha _] _].
    change (6 * 8)%nat with (46 + 2)%nat in Hok, Ha. rewrite expand_add in Hok, Ha.
    assert (P : forall i w, expand 6 46 (key_words key) !! i = Some w -> expand 6 2 (expand 6 46 (key_words key)) !! i = Some w)
      by (intros i w Hi; rewrite expand_prefix; [done|by eapply lookup_lt_Some]).
    split_and!; [done| |intros; by apply Ha, P]. apply Forall_lookup_2. intros i w Hi. eapply Forall_lookup_1; [done|by apply P].
  - assert (H := loops_ok loop8 8 6 _ _ ltac:(intros; by apply loop8_ok) (load_key_ok key 8 ke Hb Hn ltac:(lia) Hk)).
    destruct (loop8tophalf_ok _ _ 6 H ltac:(lia)) as [[Hok ? Ha _] _]. rewrite <- expand_add in Hok, Ha. by split_and!.
Qed.

(** Round [r] of the schedule, as it is in [key_enc] *)
Lemma enc_key_at key ke r : Forall col_ok (KeyExpansion key) -> (forall i w, KeyExpansion key !! i = Some w -> at_ ke i = W w) ->
  (4 * r + 4 <= length (KeyExpansion key))%nat -> key_at ke (4 * r) (round_key (KeyExpansion key) r).
Proof.
  intros Hok Ha Hr. assert (H : forall j, (j < 4)%nat -> exists w, KeyExpansion key !! (4 * r + j)%nat = Some w /\ col_ok w /\ at_ ke (4 * r + j) = W w).
  { intros j Hj. destruct (lookup_lt_is_Some_2 (KeyExpansion key) (4 * r + j)) as [w Hw]; [lia|]. exists w. split_and!; [done|by eapply Forall_lookup_1|by apply Ha]. }
  unfold round_key. destruct (H 0%nat ltac:(lia)) as (w0 & -> & ? & E0), (H 1%nat ltac:(lia)) as (w1 & -> & ? & E1).
  destruct (H 2%nat ltac:(lia)) as (w2 & -> & ? & E2), (H 3%nat ltac:(lia)) as (w3 & -> & ? & E3). split; [by split|done..].
Qed.

(** The same rounds in [key_dec]: in reverse, mixed but for the first and the last *)
Lemma mixed_key_at key_len ke kd r k : (1 <= r)%nat -> (4 * r < key_len + 24)%nat -> (key_len mod 4 = 0)%nat -> (key_len + 24 <= length kd)%nat -> key_at ke (4 * r) k ->
  key_at (mix_keys key_len ke kd) (key_len + 24 - 4 * r) (map_state inv_mix_col k).
Proof.
  intros H1 Hr Hm Hl [[] E0 E1 E2 E3]. set (p := fun i => (key_len + 24 - 4 * (i / 4) + i mod 4)%nat).
  assert (A : forall c, (c < 4)%nat -> at_ (mix_keys key_len ke kd) (key_len + 24 - 4 * r + c) = imix_col (at_ ke (4 * r + c))).
  { intros c Hc. change (mix_keys key_len ke kd) with (stores (fun i => imix_col (at_ ke i)) p kd 4 (key_len + 20)).
    assert (D : forall i, i = (4 * (i / 4) + i mod 4)%nat /\ (i mod 4 < 4)%nat) by (intros; split; [by apply Nat.div_mod|by apply Nat.mod_upper_bound]).
    assert (D4 : key_len = (4 * (key_len / 4))%nat) by (destruct (D key_len); lia).
    assert (Ep : (key_len + 24 - 4 * r + c)%nat = p (4 * r + c)%nat).
    { unfold p. rewrite (Nat.mul_comm 4 r), (Nat.add_comm (r * 4) c), Nat.Div0.mod_add, Nat.div_add, Nat.mod_small, Nat.div_small by lia. lia. }
    rewrite Ep. apply (at_stores (fun i => imix_col (at_ ke i)) p); [lia|rewrite <- Ep; lia|]. intros k' Hk' E. rewrite <- Ep in E. unfold p in E.
    destruct (D k'). lia. }
  split; rewrite ?A, ?E0, ?E1, ?E2, ?E3, ?imix_col_W by (done || lia); try done. split; by apply col_ok_mul.
Qed.

Lemma end_key_at key_len ke kd r k : (r = 0 \/ r = key_len + 24)%nat -> (key_len mod 4 = 0)%nat -> key_at kd r k -> key_at (mix_keys key_len ke kd) r k.
Proof.
  intros Hr Hm [Hk E0 E1 E2 E3]. set (p := fun i => (key_len + 24 - 4 * (i / 4) + i mod 4)%nat).
  assert (D : forall i, i = (4 * (i / 4) + i mod 4)%nat /\ (i mod 4 < 4)%nat) by (intros; split; [by apply Nat.div_mod|by apply Nat.mod_upper_bound]).
  assert (D4 : key_len = (4 * (key_len / 4))%nat) by (destruct (D key_len); lia).
  assert (A : forall c, (c < 4)%nat -> at_ (mix_keys key_len ke kd) (r + c) = at_ kd (r + c)).
  { intros c Hc. apply (at_stores_ne (fun i => imix_col (at_ ke i)) p). intros i Hi. unfold p. destruct (D i). lia. }
  split; rewrite ?A by lia; done.
Qed.

(** What [crypto_aes_expand_key] leaves in the context *)
Record expanded (key : bytes) (ctx : crypto_aes_ctx) : Prop := {
  ex_len : key_length ctx = length key;
  ex_ok : forall r, (r <= length key / 4 + 6)%nat -> state_ok (round_key (KeyExpansion key) r);
  ex_enc : forall r, (r <= length key / 4 + 6)%nat -> key_at (key_enc ctx) (4 * r) (round_key (KeyExpansion key) r);
  ex_first : key_at (key_dec ctx) 0 (round_key (KeyExpansion key) (length key / 4 + 6));
  ex_mixed : forall r, (1 <= r < length key / 4 + 6)%nat -> key_at (key_dec ctx) (length key + 24 - 4 * r) (InvMixColumns (round_key (KeyExpansion key) r));
  ex_last : key_at (key_dec ctx) (length key + 24) (round_key (KeyExpansion key) 0);
}.

Lemma key_at_moved l l' p q k : (forall c, (c < 4)%nat -> at_ l (p + c) = at_ l' (q + c)) -> key_at l' q k -> key_at l p k.
Proof. intros H [Hk E0 E1 E2 E3]. split; [done|rewrite H by lia; done..]. Qed.

(** The two ends of [key_dec], before the loop *)
Lemma dec_ends key ke kd : key_size (length key) -> length kd = 60%nat -> (forall i w, KeyExpansion key !! i = Some w -> at_ ke i = W w) ->
  let n := (length key + 24)%nat in
  let kd' := foldl (fun kd i => <[i := at_ ke (n + i)]> kd) (foldl (fun kd i => <[(n + i)%nat := le32 key i]> kd) kd (seq 0 4)) (seq 0 4) in
  length kd' = 60%nat /\ forall c, (c < 4)%nat -> at_ kd' (0 + c) = at_ ke (n + c) /\ at_ kd' (n + c) = at_ ke (0 + c).
Proof.
  intros Hn Hd Ha n kd'. set (kd0 := stores (le32 key) (fun i => (n + i)%nat) kd 0 4). change kd' with (stores (fun i => at_ ke (n + i)) id kd0 0 4).
  destruct (key_size_mod _ Hn) as (Hm & H4 & Hr). assert (L : length kd0 = 60%nat) by by rewrite <- Hd; apply length_stores.
  split; [by rewrite length_stores|]. intros c Hc. cbn [Nat.add]. split.
  - apply (at_stores (fun i => at_ ke (n + i)) id); unfold id; intros; lia.
  - rewrite at_stores_ne by (unfold id; intros; lia). unfold kd0. rewrite (at_stores (le32 key) (fun i => (n + i)%nat)) by (intros; lia).
    rewrite le32_col by lia. symmetry. apply Ha, first_words; [done|lia].
Qed.

Lemma expand_key_ok ctx key : bytes_ok key -> key_size (length key) -> length (key_enc ctx) = 60%nat -> length (key_dec ctx) = 60%nat ->
  exists ctx', crypto_aes_expand_key ctx key (length key) = (0, ctx') /\ expanded key ctx'.
Proof.
  intros Hb Hn He Hd. destruct (expand_enc_ok key (key_enc ctx) Hb Hn He) as (Hl & Hok & Ha). destruct (key_size_mod _ Hn) as (Hm & H4 & Hr).
  unfold crypto_aes_expand_key. rewrite (proj2 (andb_false_iff _ _)) by (destruct Hn as [-> | [-> | ->]]; cbn; auto). eexists. split; [done|].
  destruct (dec_ends key _ (key_dec ctx) Hn Hd Ha) as [Ld Hends]. set (ke := expand_enc _ _ _) in *. set (kd := foldl _ (foldl _ _ _) _) in *.
  assert (HK : forall r, (r <= length key / 4 + 6)%nat -> key_at ke (4 * r) (round_key (KeyExpansion key) r))
    by (intros r Hle; apply enc_key_at; [done..|rewrite length_KeyExpansion by done; lia]).
  split; cbn [key_length key_enc key_dec]; [done|intros r Hle; apply (HK r Hle)|done| | |].
  - apply end_key_at; [by left|done|]. apply (key_at_moved _ ke _ (length key + 24)); [apply Hends|]. rewrite H4. by apply HK.
  - intros r Hlt. apply mixed_key_at; [lia..|apply HK; lia].
  - apply end_key_at; [by right|done|]. apply (key_at_moved _ ke _ 0); [apply Hends|]. apply (HK 0%nat). lia.
Qed.

(** The two directions with an expanded key *)
Lemma encrypt_expanded key ctx blk : expanded key ctx -> key_size (length key) -> bytes_ok blk -> length blk = 16%nat -> aes_encrypt ctx blk = aes key blk.
Proof.
  intros [El _ He _ _ _] Hn Hb Hl. unfold aes. apply aes_encrypt_ok; rewrite ?length_fmap, ?length_seq; [done..| | | |].
  - rewrite El. by destruct Hn as [-> | [-> | ->]].
  - apply (He 0%nat). lia.
  - intros i k Hk. rewrite list_lookup_fmap in Hk. apply fmap_Some in Hk as (r & [-> Hi]%lookup_seq & ->). replace (4 + 4 * i)%nat with (4 * (1 + i))%nat by lia. apply He. lia.
  - replace (4 + 4 * (length key / 4 + 6 - 1))%nat with (4 * (length key / 4 + 6))%nat by lia. by apply He.
Qed.

Lemma decrypt_expanded key ctx blk : expanded key ctx -> key_size (length key) -> bytes_ok blk -> length blk = 16%nat -> aes_decrypt ctx (aes key blk) = blk.
Proof.
  intros [El Hok _ Hf Hm Hl] Hn Hb Hbl. destruct (key_size_mod _ Hn) as (_ & H4 & _). unfold aes. cbv zeta. set (w := KeyExpansion key) in *. set (Nr := (length key / 4 + 6)%nat) in *.
  assert (Hs : state_ok (to_state blk)) by by apply state_ok_block.
  assert (HR : Forall state_ok (round_key w <$> seq 1 (Nr - 1))) by (apply Forall_fmap, Forall_seq; intros; apply Hok; lia).
  assert (HC := state_ok_cipher _ _ _ _ (Hok 0%nat ltac:(lia)) HR (Hok Nr ltac:(lia)) Hs).
  rewrite (aes_decrypt_ok ctx _ (round_key w Nr) (reverse (InvMixColumns <$> (round_key w <$> seq 1 (Nr - 1)))) (round_key w 0));
    rewrite ?length_reverse, ?length_fmap, ?length_seq; [|by apply bytes_ok_state|done|rewrite El; unfold Nr; by destruct Hn as [-> | [-> | ->]]|done| |].
  - rewrite to_of_state, EqInvCipher_Cipher by (done || apply Hok; lia). by apply of_to_state.
  - intros i k Hk. assert (Hi : (i < Nr - 1)%nat) by (apply lookup_lt_Some in Hk; by rewrite length_reverse, !length_fmap, length_seq in Hk).
    rewrite reverse_lookup in Hk by by rewrite !length_fmap, length_seq. rewrite !list_lookup_fmap, !length_fmap, length_seq, lookup_seq_lt in Hk by lia.
    injection Hk as <-. replace (4 + 4 * i)%nat with (length key + 24 - 4 * (1 + (Nr - 1 - S i)))%nat by lia. apply Hm. lia.
  - replace (4 + 4 * (Nr - 1))%nat with (length key + 24)%nat by lia. done.
Qed.

(** C15 [aes_generic.c] computes AES: for a key of 16, 24 or 32 bytes [crypto_aes_set_key]
    returns 0 and [aes_encrypt] then maps every block to the cipher text FIPS 197 defines by
    the field, the affine map and the four transformations of the state; for another length
    the answer is -EINVAL and the context is as it was. *)
Theorem aes_generic_is_fips197 ctx key blk :
  bytes_ok key -> bytes_ok blk -> length blk = 16%nat -> length (key_enc ctx) = 60%nat -> length (key_dec ctx) = 60%nat ->
  (key_size (length key) -> exists ctx', crypto_aes_set_key ctx key (length key) = (0, ctx') /\ aes_encrypt ctx' blk = aes key blk) /\
  (~ key_size (length key) -> crypto_aes_set_key ctx key (length key) = (- EINVAL, ctx)).
Proof.
  intros Hk Hb Hl He Hd. unfold crypto_aes_set_key. split; intros Hn.
  - destruct (expand_key_ok ctx key Hk Hn He Hd) as (ctx' & -> & Hx). exists ctx'. split; [done|]. by apply encrypt_expanded.
  - unfold crypto_aes_expand_key, key_size in *. destruct (Nat.eqb_spec (length key) 16), (Nat.eqb_spec (length key) 24), (Nat.eqb_spec (length key) 32); cbn; tauto.
Qed.

(** C18 [aes_decrypt] undoes [aes_encrypt] under the same key: the schedule that
    [crypto_aes_expand_key] leaves in [key_dec], the rounds of [key_enc] in reverse with their
    columns mixed, is the one of the equivalent inverse cipher. *)
Theorem aes_decrypt_inverts ctx key blk :
  bytes_ok key -> key_size (length key) -> bytes_ok blk -> length blk = 16%nat -> length (key_enc ctx) = 60%nat -> length (key_dec ctx) = 60%nat ->
  exists ctx', crypto_aes_set_key ctx key (length key) = (0, ctx') /\ aes_decrypt ctx' (aes_encrypt ctx' blk) = blk.
Proof.
  intros Hk Hn Hb Hl He Hd. unfold crypto_aes_set_key. destruct (expand_key_ok ctx key Hk Hn He Hd) as (ctx' & -> & Hx). exists ctx'. split; [done|].
  rewrite (encrypt_expanded key) by done. by apply decrypt_expanded.
Qed.

(** A context as it is allocated, and the block and keys of the examples of FIPS 197 *)
Definition fresh_ctx : crypto_aes_ctx := AesCtx (zeros 60) (zeros 60) 0.
Definition sample_key (n : nat) : bytes := Z.of_nat <$> seq 0 n.
Definition sample_block : bytes := (fun i => 17 * Z.of_nat i) <$> seq 0 16.

Lemma aes_generic_is_fips197_witness :
  (exists ctx', crypto_aes_set_key fresh_ctx (sample_key 24) 24 = (0, ctx') /\ aes_encrypt ctx' sample_block = aes (sample_key 24) sample_block) /\
  crypto_aes_set_key fresh_ctx (sample_key 20) 20 = (- EINVAL, fresh_ctx).
Proof.
  split.
  - apply (aes_generic_is_fips197 fresh_ctx (sample_key 24) sample_block); [apply bytes_ok_check; vm_compute; reflexivity..|vm_compute; reflexivity|vm_compute; reflexivity|vm_compute; reflexivity|].
    right. left. reflexivity.
  - apply (aes_generic_is_fips197 fresh_ctx (sample_key 20) sample_block); [apply bytes_ok_check; vm_compute; reflexivity..|vm_compute; reflexivity|vm_compute; reflexivity|vm_compute; reflexivity|].
    intros [H|[H|H]]; discriminate H.
Defined.

Lemma aes_decrypt_inverts_witness :
  exists ctx', crypto_aes_set_key fresh_ctx (sample_key 32) 32 = (0, ctx') /\ aes_decrypt ctx' (aes_encrypt ctx' sample_block) = sample_block.
Proof.
  apply (aes_decrypt_inverts fresh_ctx (sample_key 32) sample_block);
    [apply bytes_ok_check; vm_compute; reflexivity|right; right; reflexivity|apply bytes_ok_check; vm_compute; reflexivity|vm_compute; reflexivity..].
Defined.
