(* ===== verification/AesNi.v ===== *)
(** The AES-NI code of src/crypto/libprivcrypt/aesni-intel_asm.S (the same file is
    src/host/gpu/aes/aesni-intel_asm.S, and its first part that of the kernel), instruction by
    instruction: the key schedule, the two directions of the block function for one and for
    four blocks.  The instructions act on a machine of 128-bit registers, pointers and byte
    regions; an access outside its region, or a [movaps] that is not aligned, is a fault. *)

From Stdlib Require Import ZArith Lia List.
From stdpp Require Import base list numbers.
From S2P Require Import Prelude Fips197.

Set Default Proof Using "Type".

Open Scope Z_scope.

(** ** The machine *)

Inductive gpr := RDI | RSI | RDX | RCX | R8 | R9 | R10 | R11.

(** The objects the code has pointers to: [struct aes_ctx], the user key, the buffer that is
    encrypted and the initialisation vector *)
Inductive region := CTX | IN_KEY | DATA | IVEC.

(** Registers and regions are compared by their numbers. *)
Definition gpr_no (g : gpr) : nat := match g with RDI => 7 | RSI => 6 | RDX => 2 | RCX => 1 | R8 => 8 | R9 => 9 | R10 => 10 | R11 => 11 end.
Definition region_no (r : region) : nat := match r with CTX => 0 | IN_KEY => 1 | DATA => 2 | IVEC => 3 end.

Inductive value := Int (z : Z) | Ptr (r : region) (off : Z).

(** A 128-bit register is a [state]: its doublewords are the columns. *)
Record machine := Machine { xmm : nat -> state; gp : gpr -> value; mem : region -> bytes }.

Definition upd {K V} (no : K -> nat) (k : K) (v : V) (f : K -> V) (x : K) : V := if (no x =? no k)%nat then v else f x.
Arguments upd {K V} no k v f x /.
Definition set_xmm (d : nat) (v : state) (m : machine) : machine := Machine (upd id d v (xmm m)) (gp m) (mem m).
Definition set_gp (d : gpr) (v : value) (m : machine) : machine := Machine (xmm m) (upd gpr_no d v (gp m)) (mem m).
Definition set_mem (r : region) (b : bytes) (m : machine) : machine := Machine (xmm m) (gp m) (upd region_no r b (mem m)).

(** #define STATE1 ... TCTR_LOW *)
Definition xmm0 := 0%nat.
Definition xmm1 := 1%nat.
Definition xmm2 := 2%nat.
Definition xmm3 := 3%nat.
Definition xmm4 := 4%nat.
Definition xmm5 := 5%nat.
Definition xmm6 := 6%nat.
Definition STATE1 := 0%nat.
Definition STATE2 := 4%nat.
Definition STATE3 := 5%nat.
Definition STATE4 := 6%nat.
Definition STATE := STATE1.
Definition IN1 := 1%nat.
Definition IN2 := 7%nat.
Definition IN3 := 8%nat.
Definition IN4 := 9%nat.
Definition IN := IN1.
Definition KEY := 2%nat.
Definition IV := 3%nat.
Definition BSWAP_MASK := 10%nat.
Definition CTR := 11%nat.
Definition INC := 12%nat.
Definition KEYP := RDI.
Definition OUTP := RSI.
Definition INP := RDX.
Definition LEN := RCX.
Definition IVP := R8.
Definition KLEN := R9.
Definition TKEYP := R10.
Definition TCTR_LOW := R11.

(** *** Data in registers *)

Definition lane (s : state) (i : Z) : column := if i =? 0 then k0 s else if i =? 1 then k1 s else if i =? 2 then k2 s else k3 s.
Definition field (imm i : Z) : Z := Z.land (Z.shiftr imm (2 * i)) 3.

Definition do_pshufd (imm : Z) (src : state) : state :=
  State (lane src (field imm 0)) (lane src (field imm 1)) (lane src (field imm 2)) (lane src (field imm 3)).
Definition do_shufps (imm : Z) (dst src : state) : state :=
  State (lane dst (field imm 0)) (lane dst (field imm 1)) (lane src (field imm 2)) (lane src (field imm 3)).
Definition do_pslldq (n : nat) (s : state) : state := to_state (take 16 (zeros n ++ of_state s)).

(** The instructions of the AES extension *)
Definition do_aesenc (s k : state) : state := AddRoundKey (MixColumns (SubBytes (ShiftRows s))) k.
Definition do_aesenclast (s k : state) : state := AddRoundKey (SubBytes (ShiftRows s)) k.
Definition do_aesdec (s k : state) : state := AddRoundKey (InvMixColumns (InvSubBytes (InvShiftRows s))) k.
Definition do_aesdeclast (s k : state) : state := AddRoundKey (InvSubBytes (InvShiftRows s)) k.
Definition do_aeskeygenassist (imm : Z) (s : state) : state :=
  let rcon := Col imm 0 0 0 in
  State (SubWord (k1 s)) (xor_col (RotWord (SubWord (k1 s))) rcon) (SubWord (k3 s)) (xor_col (RotWord (SubWord (k3 s))) rcon).

(** *** Instructions, with their operands in the order of the source *)

(** The [n] bytes at [off(base)] *)
Definition address (aligned : bool) (n : nat) (off : Z) (base : gpr) : M machine (region * nat) :=
  let! m := get in
  match gp m base with
  | Ptr r a =>
      let o := a + off in
      if (0 <=? o) && (o + n <=? length (mem m r)) && (negb aligned || (o mod 16 =? 0)) then ret (r, Z.to_nat o) else oops OutOfBounds
  | Int _ => oops WildPtr
  end.
Definition load (aligned : bool) (n : nat) (off : Z) (base : gpr) : M machine bytes :=
  let! a := address aligned n off base in
  gets (fun m => slice (snd a) n (mem m (fst a))).
Definition store (aligned : bool) (b : bytes) (off : Z) (base : gpr) : M machine unit :=
  let! a := address aligned (length b) off base in
  modify (fun m => set_mem (fst a) (splice (snd a) b (mem m (fst a))) m).

Definition movaps_ld (off : Z) (base : gpr) (dst : nat) : M machine unit :=
  let! b := load true 16 off base in modify (set_xmm dst (to_state b)).
Definition movaps_st (src : nat) (off : Z) (base : gpr) : M machine unit :=
  let! b := gets (fun m => of_state (xmm m src)) in store true b off base.
Definition movups_ld (off : Z) (base : gpr) (dst : nat) : M machine unit :=
  let! b := load false 16 off base in modify (set_xmm dst (to_state b)).
Definition movups_st (src : nat) (off : Z) (base : gpr) : M machine unit :=
  let! b := gets (fun m => of_state (xmm m src)) in store false b off base.
(** The upper half of the register is cleared. *)
Definition movq_ld (off : Z) (base : gpr) (dst : nat) : M machine unit :=
  let! b := load false 8 off base in modify (set_xmm dst (to_state (b ++ zeros 8))).
Definition movl_ld (off : Z) (base dst : gpr) : M machine unit :=
  let! b := load false 4 off base in modify (set_gp dst (Int (le_value b))).
Definition int_of (v : value) : Z := match v with Int z => z | Ptr _ o => o end.
Definition movl_st (src : gpr) (off : Z) (base : gpr) : M machine unit :=
  let! b := gets (fun m => le_bytes 4 (int_of (gp m src))) in store false b off base.

(** An operation on two registers, and one on a register and a constant *)
Definition alu (f : state -> state -> state) (src dst : nat) : M machine unit :=
  modify (fun m => set_xmm dst (f (xmm m dst) (xmm m src)) m).
Definition movaps := alu (fun _ s => s).
Definition pxor := alu AddRoundKey.
Definition shufps (imm : Z) := alu (do_shufps imm).
Definition pshufd (imm : Z) := alu (fun _ s => do_pshufd imm s).
Definition pslldq (n : nat) (dst : nat) : M machine unit := alu (fun _ s => do_pslldq n s) dst dst.
Definition AESENC := alu do_aesenc.
Definition AESENCLAST := alu do_aesenclast.
Definition AESDEC := alu do_aesdec.
Definition AESDECLAST := alu do_aesdeclast.
Definition AESIMC := alu (fun _ s => InvMixColumns s).
Definition AESKEYGENASSIST (imm : Z) := alu (fun _ s => do_aeskeygenassist imm s).

Definition mov (src dst : gpr) : M machine unit := modify (fun m => set_gp dst (gp m src) m).
Definition plus (v : value) (n : Z) : value := match v with Int z => Int (u64 (z + n)) | Ptr r o => Ptr r (o + n) end.
Definition lea (n : Z) (src dst : gpr) : M machine unit := modify (fun m => set_gp dst (plus (gp m src) n) m).
Definition add (n : Z) (dst : gpr) : M machine unit := lea n dst dst.
Definition sub (n : Z) (dst : gpr) : M machine unit := lea (- n) dst dst.

(** ** The key schedule *)

(** [_key_expansion_128] and [_key_expansion_256a] are two labels of the same code. *)
Definition key_expansion_128 : M machine unit :=
  pshufd 0xff xmm1 xmm1 ;;
  shufps 0x10 xmm0 xmm4 ;;
  pxor xmm4 xmm0 ;;
  shufps 0x8c xmm0 xmm4 ;;
  pxor xmm4 xmm0 ;;
  pxor xmm1 xmm0 ;;
  movaps_st xmm0 0 RCX ;;
  add 0x10 RCX.
Definition key_expansion_256a := key_expansion_128.

Definition key_expansion_192a : M machine unit :=
  pshufd 0x55 xmm1 xmm1 ;;
  shufps 0x10 xmm0 xmm4 ;;
  pxor xmm4 xmm0 ;;
  shufps 0x8c xmm0 xmm4 ;;
  pxor xmm4 xmm0 ;;
  pxor xmm1 xmm0 ;;
  movaps xmm2 xmm5 ;;
  movaps xmm2 xmm6 ;;
  pslldq 4 xmm5 ;;
  pshufd 0xff xmm0 xmm3 ;;
  pxor xmm3 xmm2 ;;
  pxor xmm5 xmm2 ;;
  movaps xmm0 xmm1 ;;
  shufps 0x44 xmm0 xmm6 ;;
  movaps_st xmm6 0 RCX ;;
  shufps 0x4e xmm2 xmm1 ;;
  movaps_st xmm1 16 RCX ;;
  add 0x20 RCX.

Definition key_expansion_192b : M machine unit :=
  pshufd 0x55 xmm1 xmm1 ;;
  shufps 0x10 xmm0 xmm4 ;;
  pxor xmm4 xmm0 ;;
  shufps 0x8c xmm0 xmm4 ;;
  pxor xmm4 xmm0 ;;
  pxor xmm1 xmm0 ;;
  movaps xmm2 xmm5 ;;
  pslldq 4 xmm5 ;;
  pshufd 0xff xmm0 xmm3 ;;
  pxor xmm3 xmm2 ;;
  pxor xmm5 xmm2 ;;
  movaps_st xmm0 0 RCX ;;
  add 0x10 RCX.

Definition key_expansion_256b : M machine unit :=
  pshufd 0xaa xmm1 xmm1 ;;
  shufps 0x10 xmm2 xmm4 ;;
  pxor xmm4 xmm2 ;;
  shufps 0x8c xmm2 xmm4 ;;
  pxor xmm4 xmm2 ;;
  pxor xmm1 xmm2 ;;
  movaps_st xmm2 0 RCX ;;
  add 0x10 RCX.

(** [AESKEYGENASSIST imm src %xmm1; call ...] *)
Definition expansion (imm : Z) (src : nat) (routine : M machine unit) : M machine unit := AESKEYGENASSIST imm src xmm1 ;; routine.

Definition enc_key256 : M machine unit :=
  movups_ld 0x10 RSI xmm2 ;;
  movaps_st xmm2 0 RCX ;;
  add 0x10 RCX ;;
  expansion 0x1 xmm2 key_expansion_256a ;;
  expansion 0x1 xmm0 key_expansion_256b ;;
  expansion 0x2 xmm2 key_expansion_256a ;;
  expansion 0x2 xmm0 key_expansion_256b ;;
  expansion 0x4 xmm2 key_expansion_256a ;;
  expansion 0x4 xmm0 key_expansion_256b ;;
  expansion 0x8 xmm2 key_expansion_256a ;;
  expansion 0x8 xmm0 key_expansion_256b ;;
  expansion 0x10 xmm2 key_expansion_256a ;;
  expansion 0x10 xmm0 key_expansion_256b ;;
  expansion 0x20 xmm2 key_expansion_256a ;;
  expansion 0x20 xmm0 key_expansion_256b ;;
  expansion 0x40 xmm2 key_expansion_256a.

Definition enc_key192 : M machine unit :=
  movq_ld 0x10 RSI xmm2 ;;
  expansion 0x1 xmm2 key_expansion_192a ;;
  expansion 0x2 xmm2 key_expansion_192b ;;
  expansion 0x4 xmm2 key_expansion_192a ;;
  expansion 0x8 xmm2 key_expansion_192b ;;
  expansion 0x10 xmm2 key_expansion_192a ;;
  expansion 0x20 xmm2 key_expansion_192b ;;
  expansion 0x40 xmm2 key_expansion_192a ;;
  expansion 0x80 xmm2 key_expansion_192b.

Definition enc_key128 : M machine unit :=
  expansion 0x1 xmm0 key_expansion_128 ;;
  expansion 0x2 xmm0 key_expansion_128 ;;
  expansion 0x4 xmm0 key_expansion_128 ;;
  expansion 0x8 xmm0 key_expansion_128 ;;
  expansion 0x10 xmm0 key_expansion_128 ;;
  expansion 0x20 xmm0 key_expansion_128 ;;
  expansion 0x40 xmm0 key_expansion_128 ;;
  expansion 0x80 xmm0 key_expansion_128 ;;
  expansion 0x1b xmm0 key_expansion_128 ;;
  expansion 0x36 xmm0 key_expansion_128.

(** [.Ldec_key_loop]; a schedule has at most 13 keys between the first and the last. *)
Fixpoint dec_key_loop (fuel : nat) : M machine unit :=
  match fuel with
  | O => oops Hang
  | S fuel =>
      movaps_ld 0 RDI xmm0 ;;
      AESIMC xmm0 xmm1 ;;
      movaps_st xmm1 0 RSI ;;
      add 0x10 RDI ;;
      sub 0x10 RSI ;;
      let! m := get in
      if int_of (gp m RDI) <? int_of (gp m RCX) then dec_key_loop fuel else ret tt
  end.

Definition dec_key : M machine unit :=
  sub 0x10 RCX ;;
  movaps_ld 0 RDI xmm0 ;;
  movaps_ld 0 RCX xmm1 ;;
  movaps_st xmm0 240 RCX ;;
  movaps_st xmm1 240 RDI ;;
  add 0x10 RDI ;;
  lea (240 - 16) RCX RSI ;;
  dec_key_loop 13.

(** [aesni_set_key(ctx, in_key, key_len)]; the answer is always 0. *)
Definition aesni_set_key : M machine Z :=
  movups_ld 0 RSI xmm0 ;;
  movaps_st xmm0 0 RDI ;;
  lea 0x10 RDI RCX ;;
  movl_st RDX 480 RDI ;;
  pxor xmm4 xmm4 ;;
  let! dl := gets (fun m => u8 (int_of (gp m RDX))) in
  (if dl <? 24 then enc_key128 else if dl =? 24 then enc_key192 else enc_key256) ;;
  dec_key ;;
  ret 0.

(** ** The block functions *)

Definition each (f : nat -> M machine unit) (sts : list nat) : M machine unit := foldr (fun st k => f st ;; k) (ret tt) sts.

(** [movaps off(TKEYP), KEY; AESENC KEY STATE1; ...] *)
Definition round_at (op : nat -> nat -> M machine unit) (sts : list nat) (off : Z) : M machine unit :=
  movaps_ld off TKEYP KEY ;; each (op KEY) sts.

(** The code the four internal routines have in common *)
Definition crypt_blocks (op last : nat -> nat -> M machine unit) (sts : list nat) : M machine unit :=
  let round := round_at op sts in
  movaps_ld 0 KEYP KEY ;;
  mov KEYP TKEYP ;;
  each (pxor KEY) sts ;;
  add 0x30 TKEYP ;;
  let! klen := gets (fun m => int_of (gp m KLEN)) in
  (if klen <? 24 then ret tt else
     lea 0x20 TKEYP TKEYP ;;
     (if klen =? 24 then ret tt else
        add 0x20 TKEYP ;; round (-0x60) ;; round (-0x50)) ;;
     round (-0x40) ;; round (-0x30)) ;;
  round (-0x20) ;; round (-0x10) ;; round 0 ;; round 0x10 ;; round 0x20 ;; round 0x30 ;; round 0x40 ;; round 0x50 ;; round 0x60 ;;
  round_at last sts 0x70.

Definition aesni_enc1 : M machine unit := crypt_blocks AESENC AESENCLAST [STATE].
Definition aesni_enc4 : M machine unit := crypt_blocks AESENC AESENCLAST [STATE1; STATE2; STATE3; STATE4].
Definition aesni_dec1 : M machine unit := crypt_blocks AESDEC AESDECLAST [STATE].
Definition aesni_dec4 : M machine unit := crypt_blocks AESDEC AESDECLAST [STATE1; STATE2; STATE3; STATE4].

(** [aesni_enc(ctx, dst, src)], [aesni_dec(ctx, dst, src)] *)
Definition aesni_enc : M machine unit :=
  movl_ld 480 KEYP KLEN ;;
  movups_ld 0 INP STATE ;;
  aesni_enc1 ;;
  movups_st STATE 0 OUTP.
Definition aesni_dec : M machine unit :=
  movl_ld 480 KEYP KLEN ;;
  add 240 KEYP ;;
  movups_ld 0 INP STATE ;;
  aesni_dec1 ;;
  movups_st STATE 0 OUTP.

(** ** Single instructions *)

(** The 16 bytes at [16 * i] *)
Definition slot (b : bytes) (i : nat) : state := to_state (slice (16 * i) 16 b).

Lemma length_of_state s : length (of_state s) = 16%nat.
Proof. done. Qed.

Lemma slot_splice b i j s : (16 * i + 16 <= length b)%nat -> slot (splice (16 * i) (of_state s) b) j = if (j =? i)%nat then s else slot b j.
Proof.
  intros Hl. unfold slot. destruct (Nat.eqb_spec j i) as [->|Hne].
  - change 16%nat with (length (of_state s)) at 2. rewrite slice_splice by (rewrite length_of_state; lia). apply to_of_state.
  - f_equal. destruct (decide (j < i)%nat); [apply slice_splice_before; lia|apply slice_splice_after; rewrite length_of_state; lia].
Qed.

Lemma wp_alu {B} E f src dst (k : unit -> M machine B) Q m : wp E (k tt) Q (set_xmm dst (f (xmm m dst) (xmm m src)) m) -> wp E (bind (alu f src dst) k) Q m.
Proof. done. Qed.

Lemma wp_lea {B} E n src dst (k : unit -> M machine B) Q m : wp E (k tt) Q (set_gp dst (plus (gp m src) n) m) -> wp E (bind (lea n src dst) k) Q m.
Proof. done. Qed.

Lemma wp_mov {B} E src dst (k : unit -> M machine B) Q m : wp E (k tt) Q (set_gp dst (gp m src) m) -> wp E (bind (mov src dst) k) Q m.
Proof. done. Qed.

Lemma wp_get {B} E (k : machine -> M machine B) Q m : wp E (k m) Q m -> wp E (bind get k) Q m.
Proof. done. Qed.

Lemma wp_ret {A} E (a : A) (Q : A -> machine -> Prop) m : Q a m -> wp E (ret a) Q m.
Proof. done. Qed.

Lemma wp_gets {A B} E (f : machine -> A) (k : A -> M machine B) Q m : wp E (k (f m)) Q m -> wp E (bind (gets f) k) Q m.
Proof. done. Qed.

Section Memory.
Context (E : fault -> Prop) (Q : unit -> machine -> Prop) (m : machine) (aligned : bool) (off : Z) (base : gpr) (r : region) (a : Z) (i : nat).
Hypothesis (Hp : gp m base = Ptr r a) (Ha : a + off = Z.of_nat i).

Lemma address_ok n : (i + n <= length (mem m r))%nat -> (aligned = true -> i mod 16 = 0)%nat -> address aligned n off base m = Done ((r, i), m).
Proof using Hp Ha.
  intros Hn Hal. unfold address, get, bind. rewrite Hp, Ha, Nat2Z.id. replace ((0 <=? i) && (i + n <=? length (mem m r))) with true by lia.
  destruct aligned; cbn [negb orb andb]; [|done]. replace (i mod 16 =? 0) with true; [done|]. symmetry. apply Z.eqb_eq. change 16 with (Z.of_nat 16). by rewrite <- Nat2Z.inj_mod, Hal.
Qed.

Lemma load_ok n : (i + n <= length (mem m r))%nat -> (aligned = true -> i mod 16 = 0)%nat -> load aligned n off base m = Done (slice i n (mem m r), m).
Proof using Hp Ha. intros Hn Hal. unfold load. by rewrite (bind_done _ _ _ _ _ (address_ok n Hn Hal)). Qed.

Lemma store_ok b : (i + length b <= length (mem m r))%nat -> (aligned = true -> i mod 16 = 0)%nat ->
  store aligned b off base m = Done (tt, set_mem r (splice i b (mem m r)) m).
Proof using Hp Ha. intros Hn Hal. unfold store. by rewrite (bind_done _ _ _ _ _ (address_ok _ Hn Hal)). Qed.
End Memory.

(** Keys are loaded and stored a slot at a time. *)
Lemma movaps_ld_slot {B} E off base dst (k : unit -> M machine B) Q m r a i : gp m base = Ptr r a -> a + off = 16 * Z.of_nat i -> (16 * i + 16 <= length (mem m r))%nat ->
  wp E (k tt) Q (set_xmm dst (slot (mem m r) i) m) -> wp E (bind (movaps_ld off base dst) k) Q m.
Proof.
  intros Hp Ha Hl HQ. unfold wp, movaps_ld. unfold bind at 1 2. rewrite (load_ok m true off base r a (16 * i) Hp) by (first [lia|intros _; rewrite Nat.mul_comm; apply Nat.Div0.mod_mul]).
  done.
Qed.

Lemma movaps_st_slot {B} E src off base (k : unit -> M machine B) Q m r a i : gp m base = Ptr r a -> a + off = 16 * Z.of_nat i -> (16 * i + 16 <= length (mem m r))%nat ->
  wp E (k tt) Q (set_mem r (splice (16 * i) (of_state (xmm m src)) (mem m r)) m) -> wp E (bind (movaps_st src off base) k) Q m.
Proof.
  intros Hp Ha Hl HQ. unfold wp, movaps_st, gets. unfold bind at 1 2.
  rewrite (store_ok m true off base r a (16 * i) Hp) by (rewrite ?length_of_state; first [lia|intros _; rewrite Nat.mul_comm; apply Nat.Div0.mod_mul]).
  done.
Qed.

(** ** The four expansion routines *)

Definition zc : column := Col 0 0 0 0.

Lemma xor_zc_l c : xor_col zc c = c.
Proof. by destruct c. Qed.

Lemma xor_zc_r c : xor_col c zc = c.
Proof. rewrite xor_col_comm. apply xor_zc_l. Qed.

Lemma xor_col_assoc a b c : xor_col (xor_col a b) c = xor_col a (xor_col b c).
Proof. unfold xor_col. cbn [r0 r1 r2 r3]. by rewrite !Z.lxor_assoc. Qed.

(** An equation between sums of columns *)
Ltac xor_cols :=
  rewrite ?xor_zc_l, ?xor_zc_r; unfold xor_col; cbn [r0 r1 r2 r3]; f_equal;
  apply Z.bits_inj'; intros ? _; rewrite !Z.lxor_spec; repeat (match goal with |- context [Z.testbit ?x ?n] => destruct (Z.testbit x n) end); reflexivity.

Lemma shufps_10 d s : do_shufps 0x10 d s = State (k0 d) (k0 d) (k1 s) (k0 s).
Proof. done. Qed.
Lemma shufps_8c d s : do_shufps 0x8c d s = State (k0 d) (k3 d) (k0 s) (k2 s).
Proof. done. Qed.
Lemma shufps_44 d s : do_shufps 0x44 d s = State (k0 d) (k1 d) (k0 s) (k1 s).
Proof. done. Qed.
Lemma shufps_4e d s : do_shufps 0x4e d s = State (k2 d) (k3 d) (k0 s) (k1 s).
Proof. done. Qed.
Lemma pshufd_ff s : do_pshufd 0xff s = State (k3 s) (k3 s) (k3 s) (k3 s).
Proof. done. Qed.
Lemma pshufd_55 s : do_pshufd 0x55 s = State (k1 s) (k1 s) (k1 s) (k1 s).
Proof. done. Qed.
Lemma pshufd_aa s : do_pshufd 0xaa s = State (k2 s) (k2 s) (k2 s) (k2 s).
Proof. done. Qed.
Lemma pslldq_4 s : do_pslldq 4 s = State zc (k0 s) (k1 s) (k2 s).
Proof. by destruct s as [[] [] [] []]. Qed.

(** The words after [s], when [t] is added to the first *)
Definition next4 (s : state) (t : column) : state :=
  let n0 := xor_col (k0 s) t in let n1 := xor_col (k1 s) n0 in let n2 := xor_col (k2 s) n1 in State n0 n1 n2 (xor_col (k3 s) n2).

(** What the shuffles and sums that all routines start with compute; [x] is %xmm4. *)
Lemma shuffled s x t : k0 x = zc ->
  let x' := do_shufps 0x10 x s in
  let s' := AddRoundKey s x' in
  let x'' := do_shufps 0x8c x' s' in
  k0 x'' = zc /\ AddRoundKey (AddRoundKey s' x'') (State t t t t) = next4 s t.
Proof.
  intros Hx. cbv zeta. rewrite shufps_10, shufps_8c, Hx. cbn [k0 k3]. split; [done|]. unfold AddRoundKey, next4. cbn [k0 k1 k2 k3]. f_equal; xor_cols.
Qed.

(** The instructions up to the next access to memory *)
Ltac step := first [apply wp_alu|apply wp_lea|apply wp_mov|apply wp_get|apply wp_gets]; cbn [set_xmm set_gp set_mem xmm gp mem upd id gpr_no region_no Nat.eqb].
Ltac steps := unfold pshufd, shufps, pxor, movaps, pslldq, AESKEYGENASSIST, AESIMC, add, sub, xmm0, xmm1, xmm2, xmm3, xmm4, xmm5, xmm6; repeat step.

(** While a schedule of [Nk + n] words is written: [c] slots are done, [RCX] points to the next. *)
Section Filling.
Context (Nk n : nat) (ws : list column) (key_len : Z).
Hypothesis (HN : (0 < Nk)%nat) (Hlen : length ws = Nk).
Let w := word Nk n ws.
Let kw := words_from Nk n ws.

Record filling (c : nat) (m : machine) : Prop := {
  fl_rcx : gp m RCX = Ptr CTX (16 * Z.of_nat c);
  fl_rdi : gp m RDI = Ptr CTX 0;
  fl_len : length (mem m CTX) = 484%nat;
  fl_klen : slice 480 4 (mem m CTX) = le_bytes 4 key_len;
  fl_slots : forall i, (i < c)%nat -> slot (mem m CTX) i = kw (4 * i);
  fl_x4 : k0 (xmm m xmm4) = zc;
}.

Lemma filling_store c m m' s : filling c m -> s = kw (4 * c) -> (c < 15)%nat -> mem m' CTX = splice (16 * c) (of_state s) (mem m CTX) ->
  gp m' RCX = Ptr CTX (16 * Z.of_nat (S c)) -> gp m' RDI = gp m RDI -> k0 (xmm m' xmm4) = zc -> filling (S c) m'.
Proof using HN Hlen.
  intros [Hc Hd Hl Hk Hs Hx] -> Hc15 Em Ec Ed Hx'. split; [done|by rewrite Ed|..]; rewrite ?Em; [|..|done].
  - rewrite length_splice; [done|rewrite length_of_state; lia].
  - rewrite slice_splice_after by (rewrite length_of_state; lia). done.
  - intros i Hi. rewrite slot_splice by lia. destruct (Nat.eqb_spec i c) as [->|]; [done|]. apply Hs. lia.
Qed.

Lemma filling_frame c m m' : filling c m -> gp m' = gp m -> mem m' = mem m -> xmm m' xmm4 = xmm m xmm4 -> filling c m'.
Proof. intros [Hc Hd Hl Hk Hs Hx] Eg Em Ex. by split; rewrite ?Eg, ?Em, ?Ex. Qed.

(** Four words of a group, by the four of the group before *)
Lemma kw_after i k t j : j = (Nk * S i + k)%nat -> (j + 3 < Nk + n)%nat -> (k + 3 < Nk)%nat -> (k = 0 \/ k = 4)%nat ->
  w j = xor_col (w (j - Nk)) t -> kw j = next4 (kw (j - Nk)) t.
Proof using HN Hlen.
  intros Ej Hj Hk Hk4 E. unfold kw, words_from, next4. fold w. cbn [k0 k1 k2 k3]. rewrite <- E.
  assert (P : forall d, (1 <= d <= 3)%nat -> w (j + d) = xor_col (w (j - Nk + d)) (w (j + (d - 1)))).
  { intros d Hd. unfold w. rewrite (word_plain Nk n ws HN Hlen i (k + d)) by lia. f_equal; f_equal; lia. }
  pose proof (P 1%nat ltac:(lia)) as E1. pose proof (P 2%nat ltac:(lia)) as E2. pose proof (P 3%nat ltac:(lia)) as E3. cbn [Nat.sub] in E1, E2, E3.
  rewrite Nat.add_0_r in E1. by rewrite E3, E2, E1.
Qed.

Lemma kw_head i j : j = (Nk * S i)%nat -> (j + 3 < Nk + n)%nat -> (3 < Nk)%nat ->
  kw j = next4 (kw (j - Nk)) (xor_col (SubWord (RotWord (w (j - 1)))) (Rcon (S i))).
Proof using HN Hlen. intros Ej Hj Hk. apply (kw_after i 0); [lia..|auto|]. apply word_head; lia. Qed.

Lemma kw_middle i j : j = (Nk * S i + 4)%nat -> (j + 3 < Nk + n)%nat -> (7 < Nk)%nat -> kw j = next4 (kw (j - Nk)) (SubWord (w (j - 1))).
Proof using HN Hlen. intros Ej Hj Hk. apply (kw_after i 4); [lia..|auto|]. apply (word_middle Nk n ws HN Hlen i); lia. Qed.

(** [_key_expansion_128], [_key_expansion_256a]: the first four words of a group *)
Lemma expansion_a_ok i c imm src m : filling c m -> (c < 15)%nat -> (4 * c = Nk * S i)%nat -> (4 * c < n + Nk - 3)%nat -> (3 < Nk)%nat ->
  xmm m xmm0 = kw (4 * c - Nk) -> k3 (xmm m src) = w (4 * c - 1) -> Col imm 0 0 0 = Rcon (S i) ->
  wp total (expansion imm src key_expansion_128) (fun _ m' => filling (S c) m' /\ xmm m' xmm0 = kw (4 * c) /\ xmm m' xmm2 = xmm m xmm2) m.
Proof using HN Hlen.
  intros Hf Hc15 Hj Hn Hk Hx0 Hsrc Hi. pose proof Hf as [Hc Hd Hl _ _ Hx]. unfold expansion, key_expansion_128. steps. rewrite pshufd_ff.
  pose proof (kw_head i (4 * c) ltac:(lia) ltac:(lia) Hk) as Ev. rewrite <- Hx0 in Ev.
  destruct (shuffled (xmm m xmm0) (xmm m xmm4) (xor_col (SubWord (RotWord (w (4 * c - 1)))) (Rcon (S i))) Hx) as [Hx4 Hv]. cbv zeta in Hv, Hx4.
  unfold do_aeskeygenassist. cbn [k3]. unfold xmm0, xmm4 in *.
  rewrite Hi, Hsrc. change (RotWord (SubWord (w (4 * c - 1)))) with (SubWord (RotWord (w (4 * c - 1)))). rewrite Hv, <- Ev.
  apply (movaps_st_slot total _ _ _ _ _ _ CTX (16 * Z.of_nat c) c); cbn [gp mem set_xmm]; [done|lia..|].
  split; [apply (filling_store c m _ (kw (4 * c)) Hf eq_refl Hc15); [done| |done|exact Hx4]|done].
  cbn. rewrite Hc. cbn [plus]. f_equal. lia.
Qed.

(** [_key_expansion_256b]: the other four of a group of eight *)
Lemma expansion_b_ok i c imm m : filling c m -> (c < 15)%nat -> (4 * c = Nk * S i + 4)%nat -> (4 * c < n + Nk - 3)%nat -> (7 < Nk)%nat ->
  xmm m xmm2 = kw (4 * c - Nk) -> k3 (xmm m xmm0) = w (4 * c - 1) ->
  wp total (expansion imm xmm0 key_expansion_256b) (fun _ m' => filling (S c) m' /\ xmm m' xmm2 = kw (4 * c) /\ xmm m' xmm0 = xmm m xmm0) m.
Proof using HN Hlen.
  intros Hf Hc15 Hj Hn Hk Hx0 Hsrc. pose proof Hf as [Hc Hd Hl _ _ Hx]. unfold expansion, key_expansion_256b. steps. rewrite pshufd_aa.
  pose proof (kw_middle i (4 * c) ltac:(lia) ltac:(lia) Hk) as Ev. rewrite <- Hx0 in Ev.
  destruct (shuffled (xmm m xmm2) (xmm m xmm4) (SubWord (w (4 * c - 1))) Hx) as [Hx4 Hv]. cbv zeta in Hv, Hx4.
  unfold do_aeskeygenassist. cbn [k2]. unfold xmm0, xmm2, xmm4 in *. rewrite Hsrc, Hv, <- Ev.
  apply (movaps_st_slot total _ _ _ _ _ _ CTX (16 * Z.of_nat c) c); cbn [gp mem set_xmm]; [done|lia..|].
  split; [apply (filling_store c m _ (kw (4 * c)) Hf eq_refl Hc15); [done| |done|exact Hx4]|done].
  cbn. rewrite Hc. cbn [plus]. f_equal. lia.
Qed.
(** The 192-bit routines: group [i] is in %xmm0 and the low half of %xmm2. *)
Definition group6 (i : nat) (m : machine) : Prop := xmm m xmm0 = kw (6 * i) /\ k0 (xmm m xmm2) = w (6 * i + 4) /\ k1 (xmm m xmm2) = w (6 * i + 5).

Lemma group6_tail i : Nk = 6%nat -> (6 * S i + 5 < n + 6)%nat ->
  w (6 * S i + 4) = xor_col (w (6 * i + 4)) (w (6 * S i + 3)) /\ w (6 * S i + 5) = xor_col (w (6 * i + 5)) (xor_col (w (6 * i + 4)) (w (6 * S i + 3))).
Proof using HN Hlen.
  intros E Hn. assert (P : forall k, (k = 4 \/ k = 5)%nat -> w (6 * S i + k) = xor_col (w (6 * i + k)) (w (6 * S i + (k - 1)))).
  { intros k Hk. unfold w. rewrite (word_plain Nk n ws HN Hlen i k) by lia. f_equal; f_equal; lia. }
  split; [apply P; auto|]. rewrite P by auto. f_equal. apply P. auto.
Qed.

Lemma group6_next i x : Nk = 6%nat -> (6 * S i + 5 < n + 6)%nat -> k0 x = w (6 * i + 4) -> k1 x = w (6 * i + 5) ->
  let t := k3 (kw (6 * S i)) in
  let x' := AddRoundKey (AddRoundKey x (State t t t t)) (State zc (k0 x) (k1 x) (k2 x)) in
  k0 x' = w (6 * S i + 4) /\ k1 x' = w (6 * S i + 5).
Proof using HN Hlen.
  intros HNk Hn E0 E1. destruct (group6_tail i HNk Hn) as [-> ->]. unfold AddRoundKey, kw, words_from. fold w. cbn [k0 k1 k2 k3]. rewrite E0, E1. split; xor_cols.
Qed.

(** What both start with *)
Lemma group6_head i imm m : Nk = 6%nat -> (6 * S i + 5 < n + 6)%nat -> group6 i m -> k0 (xmm m xmm4) = zc -> Col imm 0 0 0 = Rcon (S i) ->
  let x' := do_shufps 0x10 (xmm m xmm4) (xmm m xmm0) in
  let s' := AddRoundKey (xmm m xmm0) x' in
  let x'' := do_shufps 0x8c x' s' in
  k0 x'' = zc /\ AddRoundKey (AddRoundKey s' x'') (do_pshufd 0x55 (do_aeskeygenassist imm (xmm m xmm2))) = kw (6 * S i).
Proof using HN Hlen.
  intros HNk Hn (G0 & G4 & G5) Hx Hi. rewrite pshufd_55. unfold do_aeskeygenassist. cbn [k1]. rewrite Hi, G5.
  rewrite (kw_head i (6 * S i)) by lia. replace (6 * S i - Nk)%nat with (6 * i)%nat by lia. replace (6 * S i - 1)%nat with (6 * i + 5)%nat by lia.
  rewrite <- G0. apply (shuffled (xmm m xmm0) (xmm m xmm4) (xor_col (SubWord (RotWord (w (6 * i + 5)))) (Rcon (S i))) Hx).
Qed.

Lemma expansion_192a_ok i c imm m : Nk = 6%nat -> filling c m -> (c < 14)%nat -> (4 * c = 6 * i + 4)%nat -> (6 * S i + 5 < n + 6)%nat ->
  group6 i m -> Col imm 0 0 0 = Rcon (S i) ->
  wp total (expansion imm xmm2 key_expansion_192a) (fun _ m' => filling (S (S c)) m' /\ group6 (S i) m') m.
Proof using HN Hlen.
  intros HNk Hf Hc15 Hj Hn G Hi. pose proof Hf as [Hc Hd Hl _ _ Hx]. pose proof G as (_ & G4 & G5). destruct (group6_head i imm m HNk Hn G Hx Hi) as [Hx4 Hv].
  destruct (group6_next i (xmm m xmm2) HNk Hn G4 G5) as [H4 H5]. unfold expansion, key_expansion_192a. steps. rewrite pshufd_ff, shufps_44, pslldq_4.
  unfold xmm0, xmm2, xmm4 in *. rewrite !Hv. set (x' := AddRoundKey (AddRoundKey (xmm m 2) _) _) in *.
  apply (movaps_st_slot total _ _ _ _ _ _ CTX (16 * Z.of_nat c) c); cbn [gp mem xmm set_xmm upd id Nat.eqb]; [done|lia..|]. step. rewrite shufps_4e.
  apply (movaps_st_slot total _ _ _ _ _ _ CTX (16 * Z.of_nat c) (S c)); cbn [gp mem xmm set_xmm set_mem upd id region_no Nat.eqb];
    [done|lia|rewrite length_splice; rewrite ?length_of_state; lia|].
  assert (E1 : State (k0 (xmm m 2)) (k1 (xmm m 2)) (k0 (kw (6 * S i))) (k1 (kw (6 * S i))) = kw (4 * c)).
  { rewrite G4, G5. unfold kw, words_from. cbn [k0 k1]. f_equal; f_equal; lia. }
  assert (E2 : State (k2 (kw (6 * S i))) (k3 (kw (6 * S i))) (k0 x') (k1 x') = kw (4 * S c)).
  { rewrite H4, H5. unfold kw, words_from. cbn [k2 k3]. fold w. f_equal; f_equal; lia. }
  rewrite E1, E2. set (m1 := set_gp RCX (Ptr CTX (16 * Z.of_nat (S c))) (set_mem CTX (splice (16 * c) (of_state (kw (4 * c))) (mem m CTX)) m)).
  assert (F1 : filling (S c) m1) by by apply (filling_store c m _ (kw (4 * c)) Hf); [|lia|..].
  split; [|done]. apply (filling_store (S c) m1 _ (kw (4 * S c)) F1); [done|lia|done| |done|exact Hx4].
  cbn. rewrite Hc. cbn [plus]. f_equal. lia.
Qed.

Lemma expansion_192b_ok i c imm m : Nk = 6%nat -> filling c m -> (c < 15)%nat -> (4 * c = 6 * i + 6)%nat -> (6 * S i + 5 < n + 6)%nat ->
  group6 i m -> Col imm 0 0 0 = Rcon (S i) ->
  wp total (expansion imm xmm2 key_expansion_192b) (fun _ m' => filling (S c) m' /\ group6 (S i) m') m.
Proof using HN Hlen.
  intros HNk Hf Hc15 Hj Hn G Hi. pose proof Hf as [Hc Hd Hl _ _ Hx]. pose proof G as (_ & G4 & G5). destruct (group6_head i imm m HNk Hn G Hx Hi) as [Hx4 Hv].
  destruct (group6_next i (xmm m xmm2) HNk Hn G4 G5) as [H4 H5]. unfold expansion, key_expansion_192b. steps. rewrite pshufd_ff, pslldq_4.
  unfold xmm0, xmm2, xmm4 in *. rewrite !Hv. set (x' := AddRoundKey (AddRoundKey (xmm m 2) _) _) in *.
  apply (movaps_st_slot total _ _ _ _ _ _ CTX (16 * Z.of_nat c) c); cbn [gp mem set_xmm]; [done|lia..|].
  assert (Ek : kw (6 * S i) = kw (4 * c)) by (f_equal; lia).
  split; [apply (filling_store c m _ (kw (6 * S i)) Hf Ek Hc15); [done| |done|exact Hx4]|done].
  cbn. rewrite Hc. cbn [plus]. f_equal. lia.
Qed.
End Filling.

(** One call after the other *)
Ltac call L := lazymatch goal with |- wp _ (bind _ _) _ _ => apply wp_bind | _ => idtac end; eapply wp_mono; [apply L|]; cbv beta.
Ltac by_reg := first [done|match goal with H : xmm ?m _ = _ |- context [xmm ?m _] => by rewrite H end].

Section Whole.
Context (ws : list column) (key_len : Z).

Ltac call128 Hw i := call (expansion_a_ok 4 40 ws key_len ltac:(lia) Hw i (S i)); [done|lia..|done|by_reg|done|intros _ ? (? & ? & _)].

Lemma enc_key128_ok m : length ws = 4%nat -> filling 4 40 ws key_len 1 m -> xmm m xmm0 = words_from 4 40 ws 0 ->
  wp total enc_key128 (fun _ m' => filling 4 40 ws key_len 11 m') m.
Proof.
  intros Hw Hf Hx. unfold enc_key128. do 10 (lazymatch goal with H : filling _ _ _ _ (S ?c) _ |- _ => call128 Hw c end).
  done.
Qed.

Lemma enc_key192_tail m : length ws = 6%nat -> filling 6 48 ws key_len 1 m -> group6 6 48 ws 0 m ->
  wp total (expansion 0x1 xmm2 key_expansion_192a ;; expansion 0x2 xmm2 key_expansion_192b ;; expansion 0x4 xmm2 key_expansion_192a ;;
    expansion 0x8 xmm2 key_expansion_192b ;; expansion 0x10 xmm2 key_expansion_192a ;; expansion 0x20 xmm2 key_expansion_192b ;;
    expansion 0x40 xmm2 key_expansion_192a ;; expansion 0x80 xmm2 key_expansion_192b) (fun _ m' => filling 6 48 ws key_len 13 m') m.
Proof.
  intros Hw Hf Hg.
  do 4 (lazymatch goal with H : filling _ _ _ _ ?c _, G : group6 _ _ _ ?i _ |- _ =>
    call (expansion_192a_ok 6 48 ws key_len ltac:(lia) Hw i c); [reflexivity|assumption|lia..|assumption|reflexivity|intros _ ? [? ?]] end;
  lazymatch goal with H : filling _ _ _ _ ?c _, G : group6 _ _ _ ?i _ |- _ =>
    call (expansion_192b_ok 6 48 ws key_len ltac:(lia) Hw i c); [reflexivity|assumption|lia..|assumption|reflexivity|intros _ ? [? ?]] end).
  done.
Qed.

Lemma enc_key256_tail m : length ws = 8%nat -> filling 8 52 ws key_len 2 m -> xmm m xmm0 = words_from 8 52 ws 0 -> xmm m xmm2 = words_from 8 52 ws 4 ->
  wp total (expansion 0x1 xmm2 key_expansion_256a ;; expansion 0x1 xmm0 key_expansion_256b ;; expansion 0x2 xmm2 key_expansion_256a ;;
    expansion 0x2 xmm0 key_expansion_256b ;; expansion 0x4 xmm2 key_expansion_256a ;; expansion 0x4 xmm0 key_expansion_256b ;;
    expansion 0x8 xmm2 key_expansion_256a ;; expansion 0x8 xmm0 key_expansion_256b ;; expansion 0x10 xmm2 key_expansion_256a ;;
    expansion 0x10 xmm0 key_expansion_256b ;; expansion 0x20 xmm2 key_expansion_256a ;; expansion 0x20 xmm0 key_expansion_256b ;;
    expansion 0x40 xmm2 key_expansion_256a) (fun _ m' => filling 8 52 ws key_len 15 m') m.
Proof.
  intros Hw Hf H0 H2.
  do 6 (lazymatch goal with H : filling _ _ _ _ (S (S ?c)) ?m, H0 : xmm ?m xmm0 = _, H2 : xmm ?m xmm2 = _ |- _ =>
    let i := eval compute in (c / 2)%nat in
    call (expansion_a_ok 8 52 ws key_len ltac:(lia) Hw i (S (S c))); [assumption|lia..|exact H0|by rewrite H2|reflexivity|];
    let E := fresh in intros _ ? (? & ? & E); rewrite H2 in E end;
  lazymatch goal with H : filling _ _ _ _ (S (S (S ?c))) ?m, H2 : xmm ?m xmm2 = _, H0 : xmm ?m xmm0 = _ |- _ =>
    let i := eval compute in (c / 2)%nat in
    call (expansion_b_ok 8 52 ws key_len ltac:(lia) Hw i (S (S (S c)))); [assumption|lia..|exact H2|by rewrite H0|];
    let E := fresh in intros _ ? (? & ? & E); rewrite H0 in E end).
  lazymatch goal with H : filling _ _ _ _ (S (S ?c)) ?m, H0 : xmm ?m xmm0 = _, H2 : xmm ?m xmm2 = _ |- _ =>
    let i := eval compute in (c / 2)%nat in
    call (expansion_a_ok 8 52 ws key_len ltac:(lia) Hw i (S (S c))); [assumption|lia..|exact H0|by rewrite H2|reflexivity|] end.
  by intros _ ? [? _].
Qed.
End Whole.

(** ** The decryption keys *)

(** A context with the [Nr + 1] round keys [K], and those of the inverse cipher up to round [r] *)
Record schedule (K : nat -> state) (Nr : nat) (key_len : Z) (r : nat) (b : bytes) : Prop := {
  sd_len : length b = 484%nat;
  sd_klen : slice 480 4 b = le_bytes 4 key_len;
  sd_enc : forall i, (i <= Nr)%nat -> slot b i = K i;
  sd_first : slot b 15 = K Nr;
  sd_mixed : forall i, (1 <= i < r)%nat -> slot b (15 + Nr - i) = InvMixColumns (K i);
  sd_last : slot b (15 + Nr) = K 0%nat;
}.

Section DecKey.
Context (K : nat -> state) (Nr : nat) (key_len : Z).
Hypothesis (HNr : (1 < Nr <= 14)%nat).

Lemma schedule_mix r b : schedule K Nr key_len r b -> (1 <= r < Nr)%nat ->
  schedule K Nr key_len (S r) (splice (16 * (15 + Nr - r)) (of_state (InvMixColumns (K r))) b).
Proof using HNr.
  intros [Hl Hk He H0 Hm HN] Hr. assert (L : (16 * (15 + Nr - r) + 16 <= length b)%nat) by lia. split.
  - rewrite length_splice; [done|]. rewrite length_of_state. lia.
  - rewrite slice_splice_after; [done|rewrite length_of_state; lia..].
  - intros i Hi. rewrite slot_splice by done. destruct (Nat.eqb_spec i (15 + Nr - r)); [lia|]. by apply He.
  - rewrite slot_splice by done. destruct (Nat.eqb_spec 15 (15 + Nr - r)); [lia|done].
  - intros i Hi. rewrite slot_splice by done. destruct (Nat.eqb_spec (15 + Nr - i) (15 + Nr - r)); [by replace i with r by lia|]. apply Hm. lia.
  - rewrite slot_splice by done. destruct (Nat.eqb_spec (15 + Nr) (15 + Nr - r)); [lia|done].
Qed.

Lemma dec_key_loop_ok fuel : forall r m, (1 <= r < Nr)%nat -> (Nr - r <= fuel)%nat -> schedule K Nr key_len r (mem m CTX) ->
  gp m RDI = Ptr CTX (16 * Z.of_nat r) -> gp m RSI = Ptr CTX (16 * Z.of_nat (15 + Nr - r)) -> gp m RCX = Ptr CTX (16 * Z.of_nat Nr) ->
  wp total (dec_key_loop fuel) (fun _ m' => schedule K Nr key_len Nr (mem m' CTX)) m.
Proof using HNr.
  induction fuel as [|fuel IH]; intros r m Hr Hfuel Hs Hd Hsi Hc; [lia|]. pose proof (sd_len _ _ _ _ _ Hs) as Hl. cbn [dec_key_loop].
  apply (movaps_ld_slot total _ _ _ _ _ _ CTX (16 * Z.of_nat r) r); [done|lia|lia|]. steps. rewrite (sd_enc _ _ _ _ _ Hs r) by lia.
  apply (movaps_st_slot total _ _ _ _ _ _ CTX (16 * Z.of_nat (15 + Nr - r)) (15 + Nr - r)); cbn [gp mem xmm set_xmm upd id Nat.eqb]; [done|lia|lia|].
  steps. pose proof (schedule_mix r _ Hs Hr) as Hs'. cbn [set_mem set_gp set_xmm gp mem xmm upd gpr_no region_no Nat.eqb].
  rewrite Hd, Hc. cbn [plus int_of]. destruct (Z.ltb_spec (16 * r + 16) (16 * Nr)).
  - apply (IH (S r)); [lia|lia|done|cbn; rewrite ?Hd; cbn [plus]; f_equal; lia|cbn; rewrite ?Hsi; cbn [plus]; f_equal; lia|done].
  - assert (E : S r = Nr) by lia. rewrite E in Hs'. exact Hs'.
Qed.

Lemma schedule_start b : length b = 484%nat -> slice 480 4 b = le_bytes 4 key_len -> (forall i, (i <= Nr)%nat -> slot b i = K i) ->
  schedule K Nr key_len 1 (splice (16 * 15) (of_state (K Nr)) (splice (16 * (15 + Nr)) (of_state (K 0%nat)) b)).
Proof using HNr.
  intros Hl Hk He. set (b1 := splice (16 * (15 + Nr)) _ b). assert (L1 : length b1 = 484%nat) by (unfold b1; rewrite length_splice; rewrite ?length_of_state; lia).
  split.
  - rewrite length_splice; rewrite ?length_of_state; lia.
  - rewrite slice_splice_after by (rewrite ?length_of_state; lia). unfold b1. rewrite slice_splice_after; [done|rewrite ?length_of_state; lia..].
  - intros i Hi. rewrite slot_splice by lia. destruct (Nat.eqb_spec i 15); [lia|]. unfold b1. rewrite slot_splice by lia.
    destruct (Nat.eqb_spec i (15 + Nr)); [lia|by apply He].
  - by rewrite slot_splice by lia.
  - intros i Hi. lia.
  - rewrite slot_splice by lia. destruct (Nat.eqb_spec (15 + Nr) 15); [lia|]. unfold b1. rewrite slot_splice by lia. by rewrite Nat.eqb_refl.
Qed.

Lemma dec_key_ok m : length (mem m CTX) = 484%nat -> slice 480 4 (mem m CTX) = le_bytes 4 key_len -> (forall i, (i <= Nr)%nat -> slot (mem m CTX) i = K i) ->
  gp m RCX = Ptr CTX (16 * Z.of_nat (S Nr)) -> gp m RDI = Ptr CTX 0 ->
  wp total dec_key (fun _ m' => schedule K Nr key_len Nr (mem m' CTX)) m.
Proof using HNr.
  intros Hl Hk He Hc Hd. unfold dec_key. steps. rewrite Hc.
  apply (movaps_ld_slot total _ _ _ _ _ _ CTX 0 0); cbn [gp mem xmm set_gp upd gpr_no Nat.eqb]; [done|lia|lia|].
  apply (movaps_ld_slot total _ _ _ _ _ _ CTX (16 * Z.of_nat (S Nr) + -0x10) Nr); cbn [gp mem xmm set_xmm set_gp upd gpr_no Nat.eqb]; [done|lia|lia|].
  apply (movaps_st_slot total _ _ _ _ _ _ CTX (16 * Z.of_nat (S Nr) + -0x10) (15 + Nr)); cbn [gp mem xmm set_xmm set_gp upd id gpr_no Nat.eqb]; [done|lia|lia|].
  rewrite !He by lia.
  apply (movaps_st_slot total _ _ _ _ _ _ CTX 0 15); cbn [gp mem xmm set_mem set_xmm set_gp upd id gpr_no region_no Nat.eqb];
    [done|lia|rewrite length_splice; rewrite ?length_of_state; lia|].
  steps. apply (dec_key_loop_ok 13 1); [lia|lia|by apply schedule_start|cbn; rewrite Hd; done|cbn; f_equal; lia|cbn; f_equal; lia].
Qed.
End DecKey.

(** ** aesni_set_key *)

Record called (key : bytes) (m : machine) : Prop := {
  cl_ctx : gp m RDI = Ptr CTX 0;
  cl_key : gp m RSI = Ptr IN_KEY 0;
  cl_len : gp m RDX = Int (length key);
  cl_in : mem m IN_KEY = key;
  cl_size : length (mem m CTX) = 484%nat;
}.

(** The schedule is a machine-level one of [Nk + n] words. *)
Lemma word_key Nk n key j : length (key_words key) = Nk -> (j < Nk)%nat -> word Nk n (key_words key) j = col_at key (4 * j).
Proof.
  intros <- Hj. unfold word. rewrite expand_prefix by done. unfold key_words in *. rewrite length_fmap, length_seq in Hj.
  by rewrite list_lookup_fmap, lookup_seq_lt.
Qed.

Lemma words_from_key Nk n key j : length (key_words key) = Nk -> (j + 3 < Nk)%nat -> words_from Nk n (key_words key) j = to_state (drop (4 * j) key).
Proof.
  intros HN Hj. unfold words_from. rewrite !(word_key Nk n key) by lia.
  assert (E : forall o, col_at (drop (4 * j) key) o = col_at key (4 * j + o)).
  { intros o. unfold col_at, at_. rewrite !lookup_drop. by rewrite !Nat.add_assoc. }
  unfold to_state. rewrite !E. f_equal; f_equal; lia.
Qed.

Lemma to_state_take n b : (16 <= n)%nat -> to_state (take n b) = to_state b.
Proof. intros Hn. unfold to_state, col_at, at_. rewrite !lookup_take_lt by lia. done. Qed.

(** The words of FIPS 197 are the first of any longer expansion. *)
Lemma round_key_words key Nk n i : length key = (4 * Nk)%nat -> (4 * (Nk + 7) - Nk <= n)%nat -> (0 < Nk)%nat -> (i <= Nk + 6)%nat ->
  round_key (KeyExpansion key) i = words_from Nk n (key_words key) (4 * i).
Proof.
  intros Hl Hn HN Hi. assert (E : (length key / 4 = Nk)%nat) by (rewrite Hl, Nat.mul_comm; apply Nat.div_mul; lia).
  assert (Hw : length (key_words key) = Nk) by (unfold key_words; by rewrite length_fmap, length_seq).
  assert (P : forall j, (j < 4)%nat -> default (Col 0 0 0 0) (KeyExpansion key !! (4 * i + j)%nat) = word Nk n (key_words key) (4 * i + j)).
  { intros j Hj. unfold KeyExpansion, word. rewrite E. replace n with (4 * (Nk + 7) - Nk + (n - (4 * (Nk + 7) - Nk)))%nat by lia. rewrite expand_add.
    rewrite (expand_prefix _ (n - _)); [done|]. rewrite length_expand. lia. }
  unfold round_key, words_from. rewrite !P by lia. by rewrite Nat.add_0_r.
Qed.

Local Opaque word.

(** What the branches start from and what they leave *)
Record key_loaded (key : bytes) (m : machine) : Prop := {
  kl_size : length (mem m CTX) = 484%nat;
  kl_klen : slice 480 4 (mem m CTX) = le_bytes 4 (length key);
  kl_rdi : gp m RDI = Ptr CTX 0;
  kl_rsi : gp m RSI = Ptr IN_KEY 0;
  kl_in : mem m IN_KEY = key;
  kl_rcx : gp m RCX = Ptr CTX 16;
  kl_x0 : xmm m xmm0 = to_state key;
  kl_slot : slot (mem m CTX) 0 = to_state key;
  kl_x4 : k0 (xmm m xmm4) = zc;
}.

Record keys_done (key : bytes) (m : machine) : Prop := {
  kd_size : length (mem m CTX) = 484%nat;
  kd_klen : slice 480 4 (mem m CTX) = le_bytes 4 (length key);
  kd_rdi : gp m RDI = Ptr CTX 0;
  kd_rcx : gp m RCX = Ptr CTX (16 * Z.of_nat (S (length key / 4 + 6)));
  kd_slots : forall i, (i <= length key / 4 + 6)%nat -> slot (mem m CTX) i = round_key (KeyExpansion key) i;
}.

Lemma filling_done Nk n key m : length key = (4 * Nk)%nat -> (4 * (Nk + 7) - Nk <= n)%nat -> (0 < Nk)%nat ->
  filling Nk n (key_words key) (length key) (Nk + 7) m -> keys_done key m.
Proof.
  intros Hl Hn HN [Hc Hd Hs Hk Hf _]. assert (E : (length key / 4 = Nk)%nat) by (rewrite Hl, Nat.mul_comm; apply Nat.div_mul; lia).
  split; [done|done|done|rewrite E; rewrite Hc; do 2 f_equal; lia|]. intros i Hi. rewrite Hf by lia. symmetry. apply round_key_words; (done || lia).
Qed.

Lemma filling_first Nk n key m : key_loaded key m -> length key = (4 * Nk)%nat -> (3 < Nk)%nat ->
  length (key_words key) = Nk /\ filling Nk n (key_words key) (length key) 1 m /\ words_from Nk n (key_words key) 0 = to_state key.
Proof.
  intros [Hs Hk Hd Hsi Hi Hc H0 Hs0 H4] Hl H3.
  assert (Hw : length (key_words key) = Nk) by (unfold key_words; rewrite length_fmap, length_seq, Hl, Nat.mul_comm; apply Nat.div_mul; lia).
  assert (E : words_from Nk n (key_words key) 0 = to_state key) by by rewrite words_from_key, drop_0 by (done || lia).
  split_and!; [done| |done]. split; [done..| |done]. intros i Hlt. replace i with 0%nat by lia. by rewrite Hs0, Nat.mul_0_r.
Qed.

Lemma enc_key128_done key m : key_loaded key m -> length key = 16%nat -> wp total enc_key128 (fun _ => keys_done key) m.
Proof.
  intros Hm Hl. destruct (filling_first 4 40 key m Hm Hl ltac:(lia)) as (Hw & Hf & E).
  call (enc_key128_ok (key_words key) (length key) m Hw Hf); [by rewrite E, (kl_x0 _ _ Hm)|]. intros ? m' F. exact (filling_done 4 40 key m' Hl ltac:(lia) ltac:(lia) F).
Qed.

Lemma movups_ld_ok {B} E off base dst (k : unit -> M machine B) Q m r a i : gp m base = Ptr r a -> a + off = Z.of_nat i -> (i + 16 <= length (mem m r))%nat ->
  wp E (k tt) Q (set_xmm dst (to_state (slice i 16 (mem m r))) m) -> wp E (bind (movups_ld off base dst) k) Q m.
Proof. intros Hp Ha Hl HQ. unfold wp, movups_ld. unfold bind at 1 2. by rewrite (load_ok m false off base r a i Hp). Qed.

Lemma enc_key256_done key m : key_loaded key m -> length key = 32%nat -> wp total enc_key256 (fun _ => keys_done key) m.
Proof.
  intros Hm Hl. destruct (filling_first 8 52 key m Hm Hl ltac:(lia)) as (Hw & Hf & E). pose proof Hm as [Hs Hk Hd Hsi Hi Hc H0 Hs0 H4].
  assert (E4 : words_from 8 52 (key_words key) 4 = to_state (slice 16 16 key)) by (rewrite words_from_key by first [exact Hw|lia]; unfold slice; rewrite to_state_take by lia; reflexivity).
  unfold enc_key256. apply (movups_ld_ok total _ _ _ _ _ _ IN_KEY 0 16); [done|done|rewrite Hi; lia|].
  apply (movaps_st_slot total _ _ _ _ _ _ CTX 16 1); cbn [gp mem xmm set_xmm upd id Nat.eqb]; [done|done|lia|]. steps.
  eapply wp_mono; [apply (enc_key256_tail (key_words key) (length key))|].
  - exact Hw.
  - apply (filling_store 8 52 (key_words key) _ ltac:(lia) Hw 1 m _ _ Hf (eq_sym E4));
      [lia|cbn [set_mem set_gp set_xmm mem upd region_no Nat.eqb]; by rewrite Hi|cbn [set_mem set_gp set_xmm gp upd gpr_no Nat.eqb]; by rewrite Hc|reflexivity|exact H4].
  - rewrite E. exact H0.
  - rewrite E4, <- Hi. reflexivity.
  - intros ? m' F. exact (filling_done 8 52 key m' Hl ltac:(lia) ltac:(lia) F).
Qed.

Lemma movq_ld_ok {B} E off base dst (k : unit -> M machine B) Q m r a i : gp m base = Ptr r a -> a + off = Z.of_nat i -> (i + 8 <= length (mem m r))%nat ->
  wp E (k tt) Q (set_xmm dst (to_state (slice i 8 (mem m r) ++ zeros 8)) m) -> wp E (bind (movq_ld off base dst) k) Q m.
Proof. intros Hp Ha Hl HQ. unfold wp, movq_ld. unfold bind at 1 2. by rewrite (load_ok m false off base r a i Hp). Qed.

Lemma enc_key192_done key m : key_loaded key m -> length key = 24%nat -> wp total enc_key192 (fun _ => keys_done key) m.
Proof.
  intros Hm Hl. destruct (filling_first 6 48 key m Hm Hl ltac:(lia)) as (Hw & Hf & E). pose proof Hm as [Hs Hk Hd Hsi Hi Hc H0 Hs0 H4].
  unfold enc_key192. apply (movq_ld_ok total _ _ _ _ _ _ IN_KEY 0 16); [exact Hsi|reflexivity|rewrite Hi; lia|].
  eapply wp_mono; [apply (enc_key192_tail (key_words key) (length key))|].
  - exact Hw.
  - by apply (filling_frame 6 48 (key_words key) (length key) 1 m).
  - assert (P : forall j, (j < 8)%nat -> at_ (slice 16 8 key ++ zeros 8) j = at_ key (16 + j)).
    { intros j Hj. rewrite at_app_l by (rewrite length_slice; lia). unfold at_, slice. by rewrite lookup_take_lt, lookup_drop by lia. }
    split; [exact (eq_trans H0 (eq_sym E))|]. cbn [set_xmm xmm upd id Nat.eqb xmm2]. rewrite Hi, !(word_key 6 48 key) by (exact Hw || lia).
    cbn [to_state k0 k1]. unfold col_at. rewrite !P by lia. split; reflexivity.
  - intros ? m' F. exact (filling_done 6 48 key m' Hl ltac:(lia) ltac:(lia) F).
Qed.

Lemma movups_st_ok {B} E src off base (k : unit -> M machine B) Q m r a i : gp m base = Ptr r a -> a + off = Z.of_nat i -> (i + 16 <= length (mem m r))%nat ->
  wp E (k tt) Q (set_mem r (splice i (of_state (xmm m src)) (mem m r)) m) -> wp E (bind (movups_st src off base) k) Q m.
Proof. intros Hp Ha Hl HQ. unfold wp, movups_st, gets. unfold bind at 1 2. by rewrite (store_ok m false off base r a i Hp). Qed.

Lemma movl_st_ok {B} E src off base (k : unit -> M machine B) Q m r a i : gp m base = Ptr r a -> a + off = Z.of_nat i -> (i + 4 <= length (mem m r))%nat ->
  wp E (k tt) Q (set_mem r (splice i (le_bytes 4 (int_of (gp m src))) (mem m r)) m) -> wp E (bind (movl_st src off base) k) Q m.
Proof. intros Hp Ha Hl HQ. unfold wp, movl_st, gets. unfold bind at 1 2. by rewrite (store_ok m false off base r a i Hp). Qed.

Lemma pxor_self s : AddRoundKey s s = State zc zc zc zc.
Proof. unfold AddRoundKey, xor_col. by rewrite !Z.lxor_nilpotent. Qed.

Lemma enc_keys_done key m : key_loaded key m -> key_size (length key) ->
  wp total (if u8 (length key) <? 24 then enc_key128 else if u8 (length key) =? 24 then enc_key192 else enc_key256) (fun _ => keys_done key) m.
Proof.
  intros Hm [Hn | [Hn | Hn]]; rewrite Hn; [exact (enc_key128_done key m Hm Hn)|exact (enc_key192_done key m Hm Hn)|exact (enc_key256_done key m Hm Hn)].
Qed.

Lemma set_key_ok key m : called key m -> key_size (length key) ->
  let Nr := (length key / 4 + 6)%nat in
  wp total aesni_set_key (fun rc m' => rc = 0 /\ schedule (round_key (KeyExpansion key)) Nr (length key) Nr (mem m' CTX)) m.
Proof.
  intros [Hd Hsi Hdx Hi Hs] Hn Nr. destruct (key_size_mod _ Hn) as (_ & HNr & Hlen). unfold aesni_set_key.
  apply (movups_ld_ok total _ _ _ _ _ _ IN_KEY 0 0); [done|done|rewrite Hi; lia|].
  apply (movaps_st_slot total _ _ _ _ _ _ CTX 0 0); cbn [gp mem xmm set_xmm upd id Nat.eqb xmm0]; [done|done|lia|]. steps.
  set (b := splice (16 * 0) _ (mem m CTX)). assert (L : length b = 484%nat) by (unfold b; rewrite length_splice; rewrite ?length_of_state; lia).
  apply (movl_st_ok total _ _ _ _ _ _ CTX 0 480); cbn [gp mem xmm set_mem set_gp set_xmm upd gpr_no region_no Nat.eqb]; [done|done|lia|]. steps.
  rewrite pxor_self, Hdx. cbn [int_of]. set (m1 := set_xmm 4 _ _). apply wp_bind. eapply wp_mono; [apply (enc_keys_done key m1); [|done]|].
  - assert (E0 : slice 480 4 (splice 480 (le_bytes 4 (length key)) b) = le_bytes 4 (length key)).
    { pose proof (slice_splice 480 (le_bytes 4 (length key)) b) as E. rewrite length_le_bytes in E. apply E. lia. }
    assert (E1 : to_state (slice 0 16 (mem m IN_KEY)) = to_state key) by (rewrite Hi; unfold slice; rewrite drop_0; by apply to_state_take).
    split; unfold m1; cbn [gp mem xmm set_mem set_gp set_xmm upd id gpr_no region_no Nat.eqb xmm0 xmm4]; [|done|done|done|done|by rewrite Hd|done| |done].
    + rewrite length_splice; rewrite ?length_le_bytes; lia.
    + unfold slot. rewrite slice_splice_before by lia. fold (slot b 0). unfold b. by rewrite slot_splice, E1 by lia.
  - intros _ m2 [K1 K2 K3 K4 K5]. apply wp_bind. eapply wp_mono; [apply (dec_key_ok (round_key (KeyExpansion key)) Nr (length key)); [unfold Nr; lia|done..]|].
    by intros ? m3 H.
Qed.

(** ** The block functions *)

(** From [m] to [m'] the registers [sts] have gone through [g]; only [KEY] and [TKEYP] are lost. *)
Record crypted (sts : list nat) (g : state -> state) (m m' : machine) : Prop := {
  cb_in : forall s, s ∈ sts -> xmm m' s = g (xmm m s);
  cb_out : forall s, s ∉ sts -> s <> KEY -> xmm m' s = xmm m s;
  cb_mem : mem m' = mem m;
  cb_gp : forall r, r <> TKEYP -> gp m' r = gp m r;
}.

Lemma crypted_trans sts g h m m1 m2 : crypted sts g m m1 -> crypted sts h m1 m2 -> crypted sts (fun s => h (g s)) m m2.
Proof.
  intros [A1 B1 C1 D1] [A2 B2 C2 D2]. split.
  - intros s Hs. by rewrite A2, A1.
  - intros s Hs Hk. by rewrite B2, B1.
  - by rewrite C2.
  - intros r Hr. by rewrite D2, D1.
Qed.

Lemma each_ok f sts m : NoDup sts -> KEY ∉ sts ->
  wp total (each (alu f KEY) sts) (fun _ m' => crypted sts (fun s => f s (xmm m KEY)) m m' /\ gp m' = gp m /\ xmm m' KEY = xmm m KEY) m.
Proof.
  revert m. induction sts as [|d sts IH]; intros m Hd Hk; [by split_and!; [split; [by intros ? ?%elem_of_nil|..]|..]|].
  apply NoDup_cons in Hd as [Hn Hd]. apply not_elem_of_cons in Hk as [Hkd Hk]. cbn [each foldr]. apply wp_alu.
  eapply wp_mono; [apply IH; [done|done]|]. set (m1 := set_xmm d _ m). cbv beta.
  assert (X : forall s, xmm m1 s = if (s =? d)%nat then f (xmm m d) (xmm m KEY) else xmm m s) by done.
  assert (Ek : xmm m1 KEY = xmm m KEY) by (rewrite X; destruct (Nat.eqb_spec KEY d); [lia|done]).
  intros _ m' ([A B C D] & Eg & Ek'). rewrite Ek in A, Ek'. split_and!; [split|by rewrite Eg|done].
  - intros s [->|Hs]%elem_of_cons.
    + destruct (decide (d = KEY)); [done|]. by rewrite B, X, Nat.eqb_refl.
    + rewrite A, X by done. destruct (Nat.eqb_spec s d) as [->|]; done.
  - intros s [Hsd Hs]%not_elem_of_cons Hsk. rewrite B, X by done. destruct (Nat.eqb_spec s d); done.
  - by rewrite C.
  - intros r Hr. by rewrite D.
Qed.

(** Keys are read from a context [b], through [TKEYP]. *)
Definition at_key (b : bytes) (a : Z) (m : machine) : Prop := mem m CTX = b /\ gp m TKEYP = Ptr CTX a.

Lemma round_at_ok f sts off b a i m : NoDup sts -> KEY ∉ sts -> at_key b a m -> a + off = 16 * Z.of_nat i -> (16 * i + 16 <= length b)%nat ->
  wp total (round_at (alu f) sts off) (fun _ m' => crypted sts (fun s => f s (slot b i)) m m' /\ at_key b a m') m.
Proof.
  intros Hd Hk [Hb Ht] Ha Hl. unfold round_at. apply (movaps_ld_slot total _ _ _ _ _ _ CTX a i); [done|done|by rewrite Hb|].
  eapply wp_mono; [by apply each_ok|]. cbv beta. set (m1 := set_xmm KEY _ m). intros _ m' ([A B C D] & Eg & _). split; [split|split].
  - intros s Hs. rewrite A by done. cbn. by rewrite Hb; destruct (Nat.eqb_spec s KEY) as [->|].
  - intros s Hs Hsk. rewrite B by done. cbn. by destruct (Nat.eqb_spec s KEY).
  - by rewrite C.
  - intros r Hr. by rewrite Eg.
  - by rewrite C.
  - by rewrite Eg.
Qed.

Section Blocks.
Context (f g : state -> state -> state) (sts : list nat) (b : bytes) (b0 : nat) (m0 : machine).
Hypothesis (Hnd : NoDup sts) (Hkey : KEY ∉ sts) (Hb0 : (16 * b0 + 240 <= length b)%nat).
Let K (i : nat) : state := slot b (b0 + i).

(** [n] rounds are done *)
Definition through (n : nat) (s : state) : state := foldl (fun s i => f s (K i)) (AddRoundKey s (K 0%nat)) (seq 1 n).

Lemma through_S n s : through (S n) s = f (through n s) (K (S n)).
Proof. unfold through. by rewrite seq_S, foldl_app. Qed.

Definition state_at (n : nat) (a : Z) (m : machine) : Prop := crypted sts (through n) m0 m /\ at_key b (16 * Z.of_nat b0 + a) m.

Lemma state_at_round n a off m : state_at n a m -> a + off = 16 * Z.of_nat (S n) -> (n < 14)%nat ->
  wp total (round_at (alu f) sts off) (fun _ => state_at (S n) a) m.
Proof using Hnd Hkey Hb0.
  intros [Hc Hk] Ha Hn. eapply wp_mono; [apply (round_at_ok f sts off b _ (b0 + S n) m Hnd Hkey Hk); lia|]. intros _ m' [Hc' Hk']. split; [|done].
  destruct (crypted_trans _ _ _ _ _ _ Hc Hc') as [A B C D]. split; [|done..]. intros s Hs. rewrite A, through_S by done. done.
Qed.

Lemma state_at_rounds n a off m : state_at n a m -> a + off = 16 * Z.of_nat (S n) -> (n < 13)%nat ->
  wp total (round_at (alu f) sts off ;; round_at (alu f) sts (off + 0x10)) (fun _ => state_at (S (S n)) a) m.
Proof using Hnd Hkey Hb0.
  intros Hm Ha Hn. call (state_at_round n a); [exact Hm|lia|lia|]. intros _ m' Hm'. apply (state_at_round (S n) a); [done|lia|lia].
Qed.

(** The last ten rounds, of [n + 10] *)
Lemma last_rounds n a m : state_at n a m -> a = 16 * Z.of_nat n + 0x30 -> (n <= 4)%nat ->
  let round := round_at (alu f) sts in
  wp total (round (-0x20) ;; round (-0x10) ;; round 0 ;; round 0x10 ;; round 0x20 ;; round 0x30 ;; round 0x40 ;; round 0x50 ;; round 0x60 ;;
    round_at (alu g) sts 0x70) (fun _ => crypted sts (fun s => g (through (n + 9) s) (K (n + 10))) m0) m.
Proof using Hnd Hkey Hb0.
  intros Hm Ha Hn round. unfold round.
  do 9 (match goal with H : state_at ?k _ _ |- _ => call (state_at_round k a); [exact H|lia|lia|clear H; intros ? ? ?] end).
  match goal with H : state_at _ _ _ |- _ => destruct H as [Hc Hk] end.
  eapply wp_mono; [apply (round_at_ok g sts 0x70 b _ (b0 + (n + 10)) _ Hnd Hkey Hk); lia|]. intros _ m' [Hc' _].
  destruct (crypted_trans _ _ _ _ _ _ Hc Hc') as [A B C D]. split; [|done..]. intros s Hs. rewrite A by done. by replace (n + 9)%nat with (S (S (S (S (S (S (S (S (S n))))))))) by lia.
Qed.
End Blocks.

(** The first key, then [TKEYP] set up *)
Lemma crypt_start {B} f sts m b b0 (k : unit -> M machine B) Q : NoDup sts -> KEY ∉ sts -> mem m CTX = b -> gp m KEYP = Ptr CTX (16 * Z.of_nat b0) ->
  (16 * b0 + 240 <= length b)%nat ->
  (forall m', state_at f sts b b0 m 0 0x30 m' -> wp total (k tt) Q m') ->
  wp total (movaps_ld 0 KEYP KEY ;; mov KEYP TKEYP ;; each (pxor KEY) sts ;; bind (add 0x30 TKEYP) k) Q m.
Proof.
  intros Hd Hk Hb Hp Hl HQ. apply (movaps_ld_slot total _ _ _ _ _ _ CTX (16 * Z.of_nat b0) b0); [done|lia|rewrite Hb; lia|].
  apply wp_mov. set (m1 := set_gp TKEYP _ _). apply wp_bind. eapply wp_mono; [by apply (each_ok AddRoundKey)|]. cbv beta.
  intros _ m' ([A B' C D] & Eg & _). apply wp_lea, HQ. split; [split|split].
  - intros s Hs. cbn. rewrite A by done. unfold m1. cbn. rewrite Hb. unfold through. cbn. rewrite Nat.add_0_r. by destruct (Nat.eqb_spec s KEY) as [->|].
  - intros s Hs Hsk. cbn. rewrite B' by done. unfold m1. cbn. by destruct (Nat.eqb_spec s KEY).
  - cbn. by rewrite C.
  - intros r Hr. cbn. rewrite Eg. unfold m1. cbn. destruct r; done.
  - cbn. by rewrite C.
  - cbn. rewrite Eg. unfold m1. cbn. by rewrite Hp.
Qed.

Lemma crypted_gp sts h m m' v : crypted sts h m m' -> crypted sts h m (set_gp TKEYP v m').
Proof. intros [A B C D]. split; [done..|]. intros r Hr. cbn. rewrite <- D by done. by destruct r. Qed.

Lemma state_at_lea f sts b b0 m0 n a c m : state_at f sts b b0 m0 n a m -> state_at f sts b b0 m0 n (a + c) (set_gp TKEYP (plus (gp m TKEYP) c) m).
Proof. intros [Hc [Hb Ht]]. split; [by apply crypted_gp|]. split; [done|]. cbn. rewrite Ht. cbn. f_equal. lia. Qed.

Lemma crypt_blocks_ok f g sts m b b0 klen : NoDup sts -> KEY ∉ sts -> mem m CTX = b -> gp m KEYP = Ptr CTX (16 * Z.of_nat b0) -> gp m KLEN = Int (Z.of_nat klen) ->
  (16 * b0 + 240 <= length b)%nat -> key_size klen ->
  wp total (crypt_blocks (alu f) (alu g) sts)
    (fun _ => crypted sts (fun s => g (through f b b0 (klen / 4 + 5) s) (slot b (b0 + (klen / 4 + 6)))) m) m.
Proof.
  intros Hd Hk Hb Hp Hkl Hl Hn. unfold crypt_blocks. apply (crypt_start f sts m b b0); [done..|]. intros m1 H1.
  assert (E : int_of (gp m1 KLEN) = klen) by (rewrite (cb_gp _ _ _ _ (proj1 H1)), Hkl by done; done). apply wp_gets. rewrite E. apply wp_bind.
  destruct Hn as [-> | [-> | ->]].
  - cbn [Z.ltb]. exact (last_rounds f g sts b b0 m Hd Hk Hl 0 _ m1 H1 eq_refl ltac:(lia)).
  - change (24%nat <? 24) with false. cbv iota. apply wp_lea, wp_bind. cbn [Z.eqb]. apply wp_ret.
    apply (state_at_lea _ _ _ _ _ _ _ 0x20) in H1.
    eapply wp_mono; [exact (state_at_rounds f sts b b0 m Hd Hk Hl 0 0x50 (-0x40) _ H1 ltac:(lia) ltac:(lia))|]. intros ? m2 H2.
    exact (last_rounds f g sts b b0 m Hd Hk Hl 2 _ m2 H2 eq_refl ltac:(lia)).
  - change (32%nat <? 24) with false. cbv iota. apply wp_lea, wp_bind. cbn [Z.eqb]. apply wp_lea.
    apply (state_at_lea _ _ _ _ _ _ _ 0x20), (state_at_lea _ _ _ _ _ _ _ 0x20) in H1.
    eapply wp_mono; [exact (state_at_rounds f sts b b0 m Hd Hk Hl 0 0x70 (-0x60) _ H1 ltac:(lia) ltac:(lia))|]. intros ? m2 H2.
    eapply wp_mono; [exact (state_at_rounds f sts b b0 m Hd Hk Hl 2 0x70 (-0x40) _ H2 ltac:(lia) ltac:(lia))|]. intros ? m3 H3.
    exact (last_rounds f g sts b b0 m Hd Hk Hl 4 _ m3 H3 eq_refl ltac:(lia)).
Qed.

(** ** The block functions with an expanded key *)

(** The contents of the context after [aesni_set_key] *)
Definition expanded_ctx (key b : bytes) : Prop :=
  let Nr := (length key / 4 + 6)%nat in schedule (round_key (KeyExpansion key)) Nr (length key) Nr b.

(** The cipher, and its inverse, on a register *)
Definition cipher (key : bytes) (s : state) : state := to_state (aes key (of_state s)).
Definition inv_cipher (key : bytes) (s : state) : state :=
  let K := round_key (KeyExpansion key) in
  let Nr := (length key / 4 + 6)%nat in
  EqInvCipher (K Nr) (reverse (InvMixColumns <$> (K <$> seq 1 (Nr - 1)))) (K 0%nat) s.

Lemma through_foldl f b b0 n s : through f b b0 n s = foldl f (AddRoundKey s (slot b b0)) ((fun i => slot b (b0 + i)) <$> seq 1 n).
Proof. unfold through. rewrite Nat.add_0_r. generalize (AddRoundKey s (slot b b0)). induction (seq 1 n) as [|i l IH]; intros s'; [done|]. cbn. apply IH. Qed.

Lemma enc_cipher key b s : expanded_ctx key b -> let n := (length key / 4)%nat in
  do_aesenclast (through do_aesenc b 0 (n + 5) s) (slot b (0 + (n + 6))) = cipher key s.
Proof.
  intros [_ _ He _ _ _] n. rewrite through_foldl. unfold cipher, aes. cbv zeta. rewrite !to_of_state, !He by lia. fold n. replace (n + 6 - 1)%nat with (n + 5)%nat by lia.
  assert (E : ((fun i => slot b (0 + i)) <$> seq 1 (n + 5)) = (round_key (KeyExpansion key) <$> seq 1 (n + 5))).
  { apply list_fmap_ext. intros i j [-> Hj]%lookup_seq. apply He. lia. }
  rewrite E. done.
Qed.

Lemma dec_cipher key b s : key_size (length key) -> expanded_ctx key b -> let n := (length key / 4)%nat in
  do_aesdeclast (through do_aesdec b 15 (n + 5) s) (slot b (15 + (n + 6))) = inv_cipher key s.
Proof.
  intros Hn [_ _ _ Hf Hm Hl] n. rewrite through_foldl. unfold inv_cipher. cbv zeta. fold n. fold n in Hf, Hm, Hl. rewrite Hf, Hl.
  assert (E : ((fun i => slot b (15 + i)) <$> seq 1 (n + 5)) = reverse (InvMixColumns <$> (round_key (KeyExpansion key) <$> seq 1 (n + 6 - 1)))).
  { apply list_eq. intros i. destruct (decide (i < n + 5)%nat) as [Hi|Hi].
    - rewrite reverse_lookup by (rewrite !length_fmap, length_seq; lia). rewrite !list_lookup_fmap, !length_fmap, length_seq, !lookup_seq_lt by lia. cbn [fmap option_fmap option_map].
      f_equal. rewrite <- Hm by lia. f_equal. lia.
    - rewrite !lookup_ge_None_2; rewrite ?length_reverse, ?length_fmap, ?length_seq; [done|lia..]. }
  rewrite E. done.
Qed.

Lemma inv_cipher_cipher key s : bytes_ok key -> key_size (length key) -> state_ok s -> inv_cipher key (cipher key s) = s.
Proof.
  intros Hk Hn Hs. unfold inv_cipher, cipher, aes. cbv zeta. rewrite !to_of_state.
  apply EqInvCipher_Cipher; [by apply state_ok_round_key|apply Forall_fmap, Forall_true; intros; by apply state_ok_round_key|done].
Qed.

Section Expanded.
Context (key : bytes) (m : machine).
Hypothesis (Hn : key_size (length key)) (Hctx : expanded_ctx key (mem m CTX)) (Hkl : gp m KLEN = Int (length key)).

Lemma enc_blocks_ok sts : NoDup sts -> KEY ∉ sts -> gp m KEYP = Ptr CTX 0 ->
  wp total (crypt_blocks AESENC AESENCLAST sts) (fun _ => crypted sts (cipher key) m) m.
Proof using Hn Hctx Hkl.
  intros Hd Hk Hp. pose proof (sd_len _ _ _ _ _ Hctx) as Hl.
  eapply wp_mono; [apply (crypt_blocks_ok do_aesenc do_aesenclast sts m (mem m CTX) 0 (length key)); [done..|lia|done]|].
  intros _ m' [A B C D]. split; [|done..]. intros s Hs. rewrite A by done. by apply enc_cipher.
Qed.

Lemma dec_blocks_ok sts : NoDup sts -> KEY ∉ sts -> gp m KEYP = Ptr CTX 240 ->
  wp total (crypt_blocks AESDEC AESDECLAST sts) (fun _ => crypted sts (inv_cipher key) m) m.
Proof using Hn Hctx Hkl.
  intros Hd Hk Hp. pose proof (sd_len _ _ _ _ _ Hctx) as Hl.
  eapply wp_mono; [apply (crypt_blocks_ok do_aesdec do_aesdeclast sts m (mem m CTX) 15 (length key)); [done..|lia|done]|].
  intros _ m' [A B C D]. split; [|done..]. intros s Hs. rewrite A by done. by apply dec_cipher.
Qed.
End Expanded.

Lemma movl_ld_ok {B} E off base dst (k : unit -> M machine B) Q m r a i : gp m base = Ptr r a -> a + off = Z.of_nat i -> (i + 4 <= length (mem m r))%nat ->
  wp E (k tt) Q (set_gp dst (Int (le_value (slice i 4 (mem m r)))) m) -> wp E (bind (movl_ld off base dst) k) Q m.
Proof. intros Hp Ha Hl HQ. unfold wp, movl_ld. unfold bind at 1 2. by rewrite (load_ok m false off base r a i Hp). Qed.

(** [mov 480(KEYP), KLEN] *)
Lemma load_klen {B} E key (k : unit -> M machine B) Q m : key_size (length key) -> expanded_ctx key (mem m CTX) -> gp m KEYP = Ptr CTX 0 ->
  wp E (k tt) Q (set_gp KLEN (Int (length key)) m) -> wp E (bind (movl_ld 480 KEYP KLEN) k) Q m.
Proof.
  intros Hn Hctx Hp HQ. destruct (key_size_mod _ Hn) as (_ & _ & Hr). pose proof (sd_len _ _ _ _ _ Hctx) as Hl. pose proof (sd_klen _ _ _ _ _ Hctx) as Hk.
  apply (movl_ld_ok _ _ _ _ _ _ _ CTX 0 480); [done|done|lia|]. rewrite Hk, le_value_bytes, Z.mod_small by lia. done.
Qed.

(** The arguments of [aesni_enc] and [aesni_dec] *)
Record block_call (ctx : bytes) (i o : nat) (m : machine) : Prop := {
  bc_ctx : mem m CTX = ctx;
  bc_keyp : gp m KEYP = Ptr CTX 0;
  bc_inp : gp m INP = Ptr DATA i;
  bc_outp : gp m OUTP = Ptr DATA o;
  bc_in : (i + 16 <= length (mem m DATA))%nat;
  bc_out : (o + 16 <= length (mem m DATA))%nat;
}.

Lemma to_state_slice i b : (i + 16 <= length b)%nat -> of_state (to_state (slice i 16 b)) = slice i 16 b.
Proof. intros H. apply of_to_state, length_slice. lia. Qed.

(** The final [movups STATE, (OUTP)] *)
Lemma store_block (s o : nat) m m' sts g : crypted sts g m m' -> gp m OUTP = Ptr DATA o -> (o + 16 <= length (mem m DATA))%nat -> s ∈ sts ->
  wp total (movups_st s 0 OUTP) (fun _ m2 => mem m2 DATA = splice o (of_state (g (xmm m s))) (mem m DATA)) m'.
Proof.
  intros [A B C D] Hp Hl Hs. unfold movups_st. apply wp_gets. rewrite A by done. unfold wp.
  rewrite (store_ok m' false 0 OUTP DATA o o); [cbn; by rewrite C|by rewrite D|lia|by rewrite C|done].
Qed.

Lemma aesni_enc_ok key ctx i o m : key_size (length key) -> expanded_ctx key ctx -> block_call ctx i o m ->
  wp total aesni_enc (fun _ m' => mem m' DATA = splice o (aes key (slice i 16 (mem m DATA))) (mem m DATA)) m.
Proof.
  intros Hn Hx [<- Hk Hi Ho Hli Hlo]. unfold aesni_enc. apply (load_klen total key); [done..|].
  apply (movups_ld_ok total _ _ _ _ _ _ DATA i i); [done|lia|done|]. cbn [set_gp mem]. set (m1 := set_xmm STATE _ _). apply wp_bind.
  eapply wp_mono; [apply (enc_blocks_ok key m1 Hn Hx); [done|apply NoDup_singleton|by intros ?%list_elem_of_singleton|done]|].
  intros ? m2 Hc. eapply wp_mono; [apply (store_block STATE o m1 m2 _ _ Hc); [done|done|by constructor]|]. intros _ m3 ->.
  change (xmm m1 STATE) with (to_state (slice i 16 (mem m DATA))). unfold cipher. rewrite to_state_slice by done. by rewrite of_to_state.
Qed.

Lemma aesni_dec_ok key ctx i o m : key_size (length key) -> expanded_ctx key ctx -> block_call ctx i o m ->
  wp total aesni_dec (fun _ m' => mem m' DATA = splice o (of_state (inv_cipher key (to_state (slice i 16 (mem m DATA))))) (mem m DATA)) m.
Proof.
  intros Hn Hx [<- Hk Hi Ho Hli Hlo]. unfold aesni_dec. apply (load_klen total key); [done..|]. apply wp_lea.
  apply (movups_ld_ok total _ _ _ _ _ _ DATA i i); [done|lia|done|]. cbn [set_gp mem]. set (m1 := set_xmm STATE _ _). apply wp_bind.
  eapply wp_mono; [apply (dec_blocks_ok key m1 Hn Hx); [done|apply NoDup_singleton|by intros ?%list_elem_of_singleton|unfold m1; cbn; by rewrite Hk]|].
  intros ? m2 Hc. eapply wp_mono; [apply (store_block STATE o m1 m2 _ _ Hc); [done|done|by constructor]|]. by intros _ m3 ->.
Qed.

(** C16 The AES-NI code computes AES.  With the pointers to a context of 484 bytes and a key of
    16, 24 or 32 bytes, [aesni_set_key] runs without a fault and returns 0; with the context
    it leaves, [aesni_enc] stores at [OUTP] the cipher text FIPS 197 defines for the block at
    [INP], which may overlap it, and changes nothing else of the buffer. *)
Theorem aesni_is_fips197 key m : called key m -> key_size (length key) ->
  exists m', aesni_set_key m = Done (0, m') /\
    forall i o m2, block_call (mem m' CTX) i o m2 ->
      exists m3, aesni_enc m2 = Done (tt, m3) /\ mem m3 DATA = splice o (aes key (slice i 16 (mem m2 DATA))) (mem m2 DATA).
Proof.
  intros Hm Hn. destruct (wp_elim _ _ _ (set_key_ok key m Hm Hn)) as (rc & m' & E & -> & Hs). exists m'. split; [done|]. intros i o m2 Hc.
  destruct (wp_elim _ _ _ (aesni_enc_ok key _ i o m2 Hn Hs Hc)) as ([] & m3 & E3 & H3). by exists m3.
Qed.

(** [aesni_dec] undoes the cipher with the same context: the keys that [aesni_set_key]
    derives with AESIMC and stores from offset 240 on are those of the inverse cipher. *)
Theorem aesni_dec_inverts key m : bytes_ok key -> called key m -> key_size (length key) ->
  exists m', aesni_set_key m = Done (0, m') /\
    forall i o m2 blk, block_call (mem m' CTX) i o m2 -> bytes_ok blk -> length blk = 16%nat -> slice i 16 (mem m2 DATA) = aes key blk ->
      exists m3, aesni_dec m2 = Done (tt, m3) /\ mem m3 DATA = splice o blk (mem m2 DATA).
Proof.
  intros Hk Hm Hn. destruct (wp_elim _ _ _ (set_key_ok key m Hm Hn)) as (rc & m' & E & -> & Hs). exists m'. split; [done|]. intros i o m2 blk Hc Hb Hl Hi.
  destruct (wp_elim _ _ _ (aesni_dec_ok key _ i o m2 Hn Hs Hc)) as ([] & m3 & E3 & H3). exists m3. split; [done|].
  assert (Ec : to_state (aes key blk) = cipher key (to_state blk)) by (unfold cipher; by rewrite of_to_state).
  rewrite H3, Hi, Ec, inv_cipher_cipher by (done || by apply state_ok_block). by rewrite of_to_state.
Qed.

(** A machine before [aesni_set_key], and one before [aesni_enc] *)
Definition key_machine (key : bytes) : machine :=
  Machine (fun _ => to_state (zeros 16)) (fun g => match g with RDI => Ptr CTX 0 | RSI => Ptr IN_KEY 0 | RDX => Int (length key) | _ => Int 0 end)
    (fun r => match r with CTX => zeros 484 | IN_KEY => key | _ => [] end).
Definition block_machine (ctx data : bytes) : machine :=
  Machine (fun _ => to_state (zeros 16)) (fun g => match g with RDI => Ptr CTX 0 | RSI => Ptr DATA 0 | RDX => Ptr DATA 0 | _ => Int 0 end)
    (fun r => match r with CTX => ctx | DATA => data | _ => [] end).
Definition key24 : bytes := Z.of_nat <$> seq 1 24.
Definition block16 : bytes := Z.of_nat <$> seq 100 16.

Lemma aesni_is_fips197_witness :
  exists m', aesni_set_key (key_machine key24) = Done (0, m') /\
    exists m3, aesni_enc (block_machine (mem m' CTX) block16) = Done (tt, m3) /\ mem m3 DATA = aes key24 block16.
Proof.
  destruct (aesni_is_fips197 key24 (key_machine key24)) as (m' & E & H); [by split|right; left; reflexivity|].
  exists m'. split; [exact E|]. destruct (H 0%nat 0%nat (block_machine (mem m' CTX) block16)) as (m3 & E3 & H3); [split; try reflexivity; cbn; lia|].
  exists m3. split; [exact E3|]. rewrite H3. reflexivity.
Defined.

Lemma aesni_dec_inverts_witness :
  exists m', aesni_set_key (key_machine key24) = Done (0, m') /\
    exists m3, aesni_dec (block_machine (mem m' CTX) (aes key24 block16)) = Done (tt, m3) /\ mem m3 DATA = block16.
Proof.
  assert (Hk : bytes_ok key24) by (apply bytes_ok_check; vm_compute; reflexivity). assert (Hb : bytes_ok block16) by (apply bytes_ok_check; vm_compute; reflexivity).
  destruct (aesni_dec_inverts key24 (key_machine key24) Hk) as (m' & E & H); [by split|right; left; reflexivity|].
  exists m'. split; [exact E|].
  destruct (H 0%nat 0%nat (block_machine (mem m' CTX) (aes key24 block16)) block16) as (m3 & E3 & H3); [split; try reflexivity; cbn; lia|exact Hb|reflexivity|reflexivity|].
  exists m3. split; [exact E3|]. rewrite H3. reflexivity.
Defined.
