(* ===== verification/AesNiModes.v ===== *)
(** The modes of operation of src/crypto/libprivcrypt/aesni-intel_asm.S on the machine of
    [AesNi]: counter mode with the 128-bit counter kept in little-endian form
    ([_aesni_inc_init], [_aesni_inc], [aesni_ctr_enc]), four blocks at a time and then one.
    The machine code refines [Ctr.aesni_ctr_enc] over the block function of FIPS 197. *)

From Stdlib Require Import ZArith Lia List.
From stdpp Require Import base list numbers.
From S2P Require Import Prelude Fips197 Ctr AesCipher AesNi.

Set Default Proof Using "Type".

Open Scope Z_scope.

(** ** Instructions on quadwords and bytes *)

Definition low_qword (s : state) : Z := le_value (take 8 (of_state s)).
Definition high_qword (s : state) : Z := le_value (drop 8 (of_state s)).

Definition do_paddq (d s : state) : state :=
  to_state (le_bytes 8 (low_qword d + low_qword s) ++ le_bytes 8 (high_qword d + high_qword s)).
Definition do_pshufb (d mask : state) : state :=
  to_state ((fun b => if Z.testbit b 7 then 0 else at_ (of_state d) (Z.to_nat (Z.land b 15))) <$> of_state mask).
Definition do_psrldq (n : nat) (s : state) : state := to_state (drop n (of_state s) ++ zeros n).

Definition paddq := alu do_paddq.
Definition PSHUFB_XMM := alu do_pshufb.
Definition psrldq (n : nat) (dst : nat) : M machine unit := alu (fun _ s => do_psrldq n s) dst dst.
Definition mov_imm (z : Z) (dst : gpr) : M machine unit := modify (set_gp dst (Int z)).
(** [MOVQ_R64_XMM], one direction each *)
Definition movq_to_xmm (src : gpr) (dst : nat) : M machine unit :=
  modify (fun m => set_xmm dst (to_state (le_bytes 8 (int_of (gp m src)) ++ zeros 8)) m).
Definition movq_from_xmm (src : nat) (dst : gpr) : M machine unit :=
  modify (fun m => set_gp dst (Int (low_qword (xmm m src))) m).

(** [.Lbswap_mask], loaded by [movaps .Lbswap_mask, BSWAP_MASK] *)
Definition bswap_mask : bytes := [15; 14; 13; 12; 11; 10; 9; 8; 7; 6; 5; 4; 3; 2; 1; 0].
Definition movaps_mask (dst : nat) : M machine unit := modify (set_xmm dst (to_state bswap_mask)).

Definition s64 (z : Z) : Z := signed 64 z.

(** ** The counter *)

Definition aesni_inc_init : M machine unit :=
  movaps_mask BSWAP_MASK ;;
  movaps IV CTR ;;
  PSHUFB_XMM BSWAP_MASK CTR ;;
  mov_imm 1 TCTR_LOW ;;
  movq_to_xmm TCTR_LOW INC ;;
  movq_from_xmm CTR TCTR_LOW.

(** [jnc] tests the carry of the addition to [TCTR_LOW]. *)
Definition aesni_inc : M machine unit :=
  paddq INC CTR ;;
  let! carry := gets (fun m => 2 ^ 64 <=? int_of (gp m TCTR_LOW) + 1) in
  add 1 TCTR_LOW ;;
  (if carry then
     pslldq 8 INC ;;
     paddq INC CTR ;;
     psrldq 8 INC
   else ret tt) ;;
  movaps CTR IV ;;
  PSHUFB_XMM BSWAP_MASK IV.

(** ** aesni_ctr_enc *)

(** [sub $n, LEN; add $n, INP; add $n, OUTP] and the length left, as [jge] reads it *)
Definition advance (n : Z) : M machine Z :=
  sub n LEN ;;
  add n INP ;;
  add n OUTP ;;
  gets (fun m => s64 (int_of (gp m LEN))).

(** [.Lctr_enc_loop1] *)
Fixpoint ctr_enc_loop1 (fuel : nat) : M machine unit :=
  match fuel with
  | O => oops Hang
  | S fuel =>
      movaps IV STATE ;;
      aesni_inc ;;
      movups_ld 0 INP IN ;;
      aesni_enc1 ;;
      pxor IN STATE ;;
      movups_st STATE 0 OUTP ;;
      let! len := advance 16 in
      if 16 <=? len then ctr_enc_loop1 fuel else ret tt
  end.

(** [.Lctr_enc_loop4] *)
Fixpoint ctr_enc_loop4 (fuel : nat) : M machine unit :=
  match fuel with
  | O => oops Hang
  | S fuel =>
      movaps IV STATE1 ;;
      aesni_inc ;;
      movups_ld 0 INP IN1 ;;
      movaps IV STATE2 ;;
      aesni_inc ;;
      movups_ld 0x10 INP IN2 ;;
      movaps IV STATE3 ;;
      aesni_inc ;;
      movups_ld 0x20 INP IN3 ;;
      movaps IV STATE4 ;;
      aesni_inc ;;
      movups_ld 0x30 INP IN4 ;;
      aesni_enc4 ;;
      pxor IN1 STATE1 ;;
      movups_st STATE1 0 OUTP ;;
      pxor IN2 STATE2 ;;
      movups_st STATE2 0x10 OUTP ;;
      pxor IN3 STATE3 ;;
      movups_st STATE3 0x20 OUTP ;;
      pxor IN4 STATE4 ;;
      movups_st STATE4 0x30 OUTP ;;
      let! len := advance 64 in
      if 64 <=? len then ctr_enc_loop4 fuel else ret tt
  end.

(** [cmp $n, LEN; jb]: the length is compared without its sign. *)
Definition below (n : Z) : M machine bool := gets (fun m => int_of (gp m LEN) <? n).

(** [cmp $64, LEN; jb .Lctr_enc_loop1] to [.Lctr_enc_ret] *)
Definition ctr_enc_loops (fuel : nat) : M machine unit :=
  let! few := below 64 in
  if few then ctr_enc_loop1 fuel else
    ctr_enc_loop4 fuel ;;
    let! short := below 16 in
    if short then ret tt else ctr_enc_loop1 fuel.

(** [aesni_ctr_enc(ctx, dst, src, len, iv)] *)
Definition aesni_ctr_enc (fuel : nat) : M machine unit :=
  let! short := below 16 in
  if short then ret tt else
  movl_ld 480 KEYP KLEN ;;
  movups_ld 0 IVP IV ;;
  aesni_inc_init ;;
  ctr_enc_loops fuel ;;
  movups_st IV 0 IVP.

(** ** Incrementing the counter *)

Lemma reverse_be_bytes n z : reverse (be_bytes n z) = le_bytes n z.
Proof. revert z. induction n as [|n IH]; intros z; [done|]. cbn [be_bytes le_bytes]. rewrite reverse_app, IH. done. Qed.

Lemma le_value_reverse l : le_value (reverse l) = be_value l.
Proof.
  induction l as [|b l IH] using rev_ind; [done|]. rewrite reverse_app, be_value_snoc, <- IH. cbn [reverse rev_append app le_value]. change (reverse [b]) with [b]. cbn [app le_value]. lia.
Qed.

Lemma le_bytes_mod (n : nat) z : le_bytes n (z mod 256 ^ n) = le_bytes n z.
Proof. rewrite <- !reverse_be_bytes. f_equal. apply be_bytes_mod. Qed.

Lemma le_bytes_u64 z : le_bytes 8 (u64 z) = le_bytes 8 z.
Proof. apply (le_bytes_mod 8). Qed.

Lemma qwords_of lo hi : low_qword (to_state (le_bytes 8 lo ++ le_bytes 8 hi)) = u64 lo /\ high_qword (to_state (le_bytes 8 lo ++ le_bytes 8 hi)) = u64 hi.
Proof.
  unfold low_qword, high_qword. rewrite of_to_state by done. rewrite take_app_length' by done. rewrite drop_app_length' by done.
  split; apply (le_value_bytes 8).
Qed.

(** The registers of [_aesni_inc] for the counter [iv] *)
Record ctr_regs (iv : bytes) (m : machine) : Prop := {
  cr_iv : xmm m IV = to_state iv;
  cr_ctr : xmm m CTR = to_state (reverse iv);
  cr_inc : xmm m INC = to_state (le_bytes 8 1 ++ le_bytes 8 0);
  cr_mask : xmm m BSWAP_MASK = to_state bswap_mask;
  cr_low : gp m TCTR_LOW = Int (be_value (drop 8 iv));
}.

Lemma pshufb_bswap s : do_pshufb s (to_state bswap_mask) = to_state (reverse (of_state s)).
Proof. by destruct s as [[] [] [] []]. Qed.

(** The counter as its two halves *)
Lemma reverse_iv iv : iv_ok iv -> reverse iv = le_bytes 8 (be_value (drop 8 iv)) ++ le_bytes 8 (be_value (take 8 iv)).
Proof.
  intros [Hl Hb]. rewrite <- (take_drop 8 iv) at 1. rewrite reverse_app. rewrite <- !reverse_be_bytes. f_equal; f_equal.
  - symmetry. rewrite <- (be_bytes_value (drop 8 iv)) at 2 by by apply Forall_drop. by rewrite length_drop, Hl.
  - symmetry. rewrite <- (be_bytes_value (take 8 iv)) at 2 by by apply Forall_take. by rewrite length_take, Hl.
Qed.

Lemma half_range iv : iv_ok iv -> 0 <= be_value (drop 8 iv) < 2 ^ 64 /\ 0 <= be_value (take 8 iv) < 2 ^ 64.
Proof.
  intros [Hl Hb]. pose proof (be_value_range (drop 8 iv) ltac:(by apply Forall_drop)) as H1. pose proof (be_value_range (take 8 iv) ltac:(by apply Forall_take)) as H2.
  rewrite length_drop, Hl in H1. rewrite length_take, Hl in H2. done.
Qed.

Lemma reverse_inc iv : reverse (Ctr.aesni_inc iv) =
  le_bytes 8 (be_value (drop 8 iv) + 1) ++ le_bytes 8 (if be_value (drop 8 iv) + 1 =? 2 ^ 64 then be_value (take 8 iv) + 1 else be_value (take 8 iv)).
Proof. unfold Ctr.aesni_inc. rewrite reverse_app, !reverse_be_bytes, le_bytes_u64. f_equal. case_match; [apply le_bytes_u64|done]. Qed.

Lemma iv_ok_inc iv : iv_ok (Ctr.aesni_inc iv).
Proof. unfold Ctr.aesni_inc, iv_ok. rewrite length_app, !length_be_bytes. split; [done|]. apply Forall_app. split; apply bytes_ok_be_bytes. Qed.

(** Registers the counter code leaves alone *)
Definition counter_reg (s : nat) : bool := (s =? IV)%nat || (s =? CTR)%nat || (s =? INC)%nat || (s =? BSWAP_MASK)%nat.
Record same_but_counter (m m' : machine) : Prop := {
  sc_xmm : forall s, counter_reg s = false -> xmm m' s = xmm m s;
  sc_gp : forall r, r <> TCTR_LOW -> gp m' r = gp m r;
  sc_mem : mem m' = mem m;
}.

Lemma paddq_qwords a b c d : do_paddq (to_state (le_bytes 8 a ++ le_bytes 8 b)) (to_state (le_bytes 8 c ++ le_bytes 8 d)) = to_state (le_bytes 8 (a + c) ++ le_bytes 8 (b + d)).
Proof.
  unfold do_paddq. destruct (qwords_of a b) as [-> ->], (qwords_of c d) as [-> ->].
  assert (E : forall x y, le_bytes 8 (u64 x + u64 y) = le_bytes 8 (x + y)) by (intros x y; rewrite <- le_bytes_u64; unfold u64; rewrite <- Z.add_mod by lia; apply le_bytes_u64).
  by rewrite !E.
Qed.

Definition inc1 : state := to_state (le_bytes 8 1 ++ le_bytes 8 0).

Lemma inc1_shifted : do_pslldq 8 inc1 = to_state (le_bytes 8 0 ++ le_bytes 8 1) /\ do_psrldq 8 (do_pslldq 8 inc1) = inc1.
Proof. done. Qed.

Lemma counter_next iv : iv_ok iv -> let c := do_paddq (to_state (reverse iv)) inc1 in
  to_state (reverse (Ctr.aesni_inc iv)) = (if 2 ^ 64 <=? be_value (drop 8 iv) + 1 then do_paddq c (do_pslldq 8 inc1) else c).
Proof.
  intros Hiv c. unfold c. rewrite (proj1 inc1_shifted), reverse_inc, reverse_iv by done. unfold inc1. rewrite !paddq_qwords. destruct (half_range iv Hiv) as [Hlo Hhi].
  destruct (Z.eqb_spec (be_value (drop 8 iv) + 1) (2 ^ 64)) as [E|E]; destruct (Z.leb_spec (2 ^ 64) (be_value (drop 8 iv) + 1)); try lia.
  - by rewrite !Z.add_0_r.
  - by rewrite Z.add_0_r.
Qed.

Lemma low_next iv : iv_ok iv -> be_value (drop 8 (Ctr.aesni_inc iv)) = u64 (be_value (drop 8 iv) + 1).
Proof.
  intros Hiv. unfold Ctr.aesni_inc. rewrite drop_app_length' by (by rewrite length_be_bytes). rewrite (be_value_bytes 8). unfold u64. by rewrite Z.mod_mod by lia.
Qed.

Lemma wp_mod {B} E (f : machine -> machine) (k : unit -> M machine B) Q m : wp E (k tt) Q (f m) -> wp E (bind (modify f) k) Q m.
Proof. done. Qed.

(** After the addition, before the counter is brought into the order of bytes *)
Record counted (iv : bytes) (m m' : machine) : Prop := {
  ct_ctr : xmm m' CTR = to_state (reverse iv);
  ct_inc : xmm m' INC = inc1;
  ct_mask : xmm m' BSWAP_MASK = to_state bswap_mask;
  ct_low : gp m' TCTR_LOW = Int (be_value (drop 8 iv));
  ct_same : same_but_counter m m';
}.

Lemma counted_ok iv m m' : iv_ok iv -> counted iv m m' ->
  wp total (movaps CTR IV ;; PSHUFB_XMM BSWAP_MASK IV) (fun _ m' => ctr_regs iv m' /\ same_but_counter m m') m'.
Proof.
  intros [Hl _] [A B C D [E F G]]. apply wp_alu. unfold PSHUFB_XMM, alu, modify, wp. cbn [set_xmm xmm upd id]. rewrite A, C. change (IV =? IV)%nat with true. cbv iota.
  rewrite pshufb_bswap, of_to_state, reverse_involutive by by rewrite length_reverse. split; [by split|]. split; [|done|done].
  intros s Hs. rewrite <- E by done. cbn. unfold counter_reg in Hs. destruct (Nat.eqb_spec s IV); [by subst|done].
Qed.

Ltac simpl_set := cbn [set_xmm set_gp set_mem xmm gp mem upd id gpr_no region_no Nat.eqb IV CTR INC BSWAP_MASK TCTR_LOW].

Lemma same_but_counter_set m f g : (forall s, counter_reg s = false -> f s = xmm m s) -> (forall r, r <> TCTR_LOW -> g r = gp m r) -> same_but_counter m (Machine f g (mem m)).
Proof. by split. Qed.

Ltac counter_frame m :=
  apply (same_but_counter_set m);
    [let s := fresh in let H := fresh in intros s H; unfold counter_reg in H; cbn; do 13 (destruct s as [|s]; [done|]); done
    |let r := fresh in let H := fresh in intros r H; by destruct r].

Lemma inc_ok iv m : iv_ok iv -> ctr_regs iv m -> wp total aesni_inc (fun _ m' => ctr_regs (Ctr.aesni_inc iv) m' /\ same_but_counter m m') m.
Proof.
  intros Hiv [H1 H2 H3 H4 H5]. pose proof (counter_next iv Hiv) as Hc. pose proof (low_next iv Hiv) as Hl. cbv zeta in Hc. fold inc1 in H3. destruct inc1_shifted as [_ Hs].
  unfold aesni_inc. apply wp_alu, wp_gets. cbn [set_xmm gp]. rewrite H5. cbn [int_of]. apply wp_lea, wp_bind. rewrite H2, H3.
  eapply (wp_mono _ _ (fun _ => counted (Ctr.aesni_inc iv) m)); [|intros _ m' Hm'; apply counted_ok; [apply iv_ok_inc|done]].
  destruct (2 ^ 64 <=? be_value (drop 8 iv) + 1).
  - unfold pslldq, psrldq, paddq. apply wp_alu, wp_alu. unfold wp, alu, modify. simpl_set. unfold IV, CTR, INC, BSWAP_MASK, TCTR_LOW in *. rewrite H3, H5.
    split; simpl_set; [done|done|done|by rewrite Hl|]. counter_frame m.
  - unfold wp, ret. unfold IV, CTR, INC, BSWAP_MASK, TCTR_LOW in *. split; simpl_set; [done|done|done|by rewrite Hl, H5|]. counter_frame m.
Qed.

Lemma inc_init_ok iv m : iv_ok iv -> xmm m IV = to_state iv -> wp total aesni_inc_init (fun _ m' => ctr_regs iv m' /\ same_but_counter m m') m.
Proof.
  intros Hiv H. unfold aesni_inc_init, movaps_mask, mov_imm, movq_to_xmm, movq_from_xmm. apply wp_mod, wp_alu, wp_alu, wp_mod, wp_mod. unfold wp, modify. simpl_set.
  unfold IV, CTR, INC, BSWAP_MASK, TCTR_LOW in *. rewrite H, pshufb_bswap, of_to_state by apply Hiv. split.
  - split; simpl_set; try done. f_equal. rewrite reverse_iv, (proj1 (qwords_of _ _)) by done. apply Z.mod_small, half_range, Hiv.
  - counter_frame m.
Qed.

(** ** The loops *)

Lemma ctr_regs_frame iv m m' : ctr_regs iv m -> (forall s, counter_reg s = true -> xmm m' s = xmm m s) -> gp m' TCTR_LOW = gp m TCTR_LOW -> ctr_regs iv m'.
Proof. intros [A B C D E] Hx Hg. split; rewrite ?Hx, ?Hg; done. Qed.

(** Inside an iteration that started in [m0]: the counter, the buffer and the registers known *)
Record stage (m0 : machine) (iv data : bytes) (known : list (nat * state)) (m : machine) : Prop := {
  sg_regs : ctr_regs iv m;
  sg_known : forall s v, (s, v) ∈ known -> counter_reg s = false /\ xmm m s = v;
  sg_gp : forall r, r <> TCTR_LOW -> r <> TKEYP -> gp m r = gp m0 r;
  sg_data : mem m DATA = data;
  sg_ctx : mem m CTX = mem m0 CTX;
  sg_iv : mem m IVEC = mem m0 IVEC;
}.

Definition fresh_reg (s : nat) (known : list (nat * state)) : Prop := counter_reg s = false /\ s ∉ known.*1.

Lemma fresh_known s known r v : fresh_reg s known -> (r, v) ∈ known -> r <> s.
Proof. intros [_ Hn] Hr ->. apply Hn. apply list_elem_of_fmap. by exists (s, v). Qed.

Lemma counter_reg_ne s r : counter_reg s = true -> counter_reg r = false -> s <> r.
Proof. intros Hs Hr ->. by rewrite Hs in Hr. Qed.

Lemma upd_ne (d s : nat) (v : state) f : s <> d -> upd id d v f s = f s.
Proof. intros H. unfold upd, id. by destruct (Nat.eqb_spec s d). Qed.

Lemma upd_eq (d : nat) (v : state) f : upd id d v f d = v.
Proof. unfold upd, id. by rewrite Nat.eqb_refl. Qed.

(** Writing a register nothing is known of *)
Lemma stage_set m0 iv data known m d v : stage m0 iv data known m -> fresh_reg d known -> stage m0 iv data (known ++ [(d, v)]) (set_xmm d v m).
Proof.
  intros [A B C D E F] Hf. pose proof Hf as [Hc _]. split; try done.
  - apply (ctr_regs_frame iv m); [done| |done]. intros s Hs. cbn [set_xmm xmm]. apply upd_ne. by apply counter_reg_ne.
  - intros s w [Hs|[= -> ->]%list_elem_of_singleton]%elem_of_app; cbn [set_xmm xmm]; [|by rewrite upd_eq]. rewrite upd_ne by by eapply fresh_known. by apply B.
Qed.

(** [movaps IV, dst; call _aesni_inc; movups off(INP), inp] *)
Lemma stage_load {B} m0 iv data known m dst src off (i : nat) (k : unit -> M machine B) Q a : stage m0 iv data known m -> iv_ok iv ->
  fresh_reg dst known -> fresh_reg src (known ++ [(dst, to_state iv)]) -> gp m0 INP = Ptr DATA a -> a + off = Z.of_nat i -> (i + 16 <= length data)%nat ->
  (forall m', stage m0 (Ctr.aesni_inc iv) data (known ++ [(dst, to_state iv)] ++ [(src, to_state (slice i 16 data))]) m' -> wp total (k tt) Q m') ->
  wp total (movaps IV dst ;; aesni_inc ;; bind (movups_ld off INP src) k) Q m.
Proof.
  intros Hs Hiv Hd Hsrc Hp Ha Hl HQ. apply wp_alu. rewrite (cr_iv _ _ (sg_regs _ _ _ _ _ Hs)). pose proof (stage_set _ _ _ _ _ dst (to_state iv) Hs Hd) as [A Bk C D E F].
  set (m1 := set_xmm dst _ m) in *. apply wp_bind. eapply wp_mono; [by apply (inc_ok iv m1)|]. cbv beta. intros _ m2 [R [G H I]].
  assert (S2 : stage m0 (Ctr.aesni_inc iv) data (known ++ [(dst, to_state iv)]) m2).
  { split; rewrite ?I; try done; [|intros r Hr Ht; rewrite H by done; by apply C].
    intros s v Hin. destruct (Bk s v Hin) as [Hc <-]. split; [done|by apply G]. }
  apply (movups_ld_ok total _ _ _ _ _ _ DATA a i); [by rewrite (sg_gp _ _ _ _ _ S2)|done|by rewrite (sg_data _ _ _ _ _ S2)|].
  apply HQ. rewrite (sg_data _ _ _ _ _ S2), app_assoc. by apply stage_set.
Qed.

(** [pxor src, dst; movups dst, off(OUTP)] *)
Lemma stage_store {B} m0 iv data known m dst src vd vs off (o : nat) (k : unit -> M machine B) Q a : stage m0 iv data ((dst, vd) :: (src, vs) :: known) m ->
  dst ∉ known.*1 -> gp m0 OUTP = Ptr DATA a -> a + off = Z.of_nat o -> (o + 16 <= length data)%nat ->
  (forall m', stage m0 iv (splice o (of_state (AddRoundKey vd vs)) data) known m' -> wp total (k tt) Q m') ->
  wp total (pxor src dst ;; bind (movups_st dst off OUTP) k) Q m.
Proof.
  intros [A Bk C D E F] Hn Hp Ha Hl HQ. destruct (Bk dst vd ltac:(by left)) as [Hcd Ed], (Bk src vs ltac:(by right; left)) as [_ Es]. apply wp_alu. rewrite Ed, Es.
  apply (movups_st_ok total _ _ _ _ _ _ DATA a o); [etransitivity; [by apply (C OUTP)|done]|done|cbn; by rewrite D|]. apply HQ. cbn [set_xmm xmm mem]. rewrite upd_eq, D.
  split; try done.
  - apply (ctr_regs_frame iv m); [done| |done]. intros s Hc. cbn [set_mem set_xmm xmm]. apply upd_ne. by apply counter_reg_ne.
  - intros s v Hin. destruct (Bk s v ltac:(by do 2 right)) as [Hc <-]. split; [done|]. cbn [set_mem set_xmm xmm]. apply upd_ne. intros ->. apply Hn, list_elem_of_fmap.
    eexists. by split; [|exact Hin].
Qed.

Definition in_regs (s : nat) (sts : list nat) : bool := existsb (Nat.eqb s) sts.

Lemma in_regs_spec s sts : reflect (s ∈ sts) (in_regs s sts).
Proof.
  unfold in_regs. apply iff_reflect. rewrite existsb_exists. split.
  - intros H. exists s. split; [by apply list_elem_of_In|by apply Nat.eqb_eq].
  - intros (x & H & ->%Nat.eqb_eq). by apply list_elem_of_In.
Qed.

(** [call _aesni_enc1], [call _aesni_enc4] *)
Lemma stage_enc {B} key m0 iv data known m sts (k : unit -> M machine B) Q : stage m0 iv data known m -> key_size (length key) -> expanded_ctx key (mem m0 CTX) ->
  gp m0 KLEN = Int (length key) -> gp m0 KEYP = Ptr CTX 0 -> NoDup sts -> KEY ∉ sts -> KEY ∉ known.*1 -> Forall (fun s => counter_reg s = false) sts ->
  (forall m', stage m0 iv data ((fun p : nat * state => (p.1, if in_regs p.1 sts then cipher key p.2 else p.2)) <$> known) m' -> wp total (k tt) Q m') ->
  wp total (bind (crypt_blocks AESENC AESENCLAST sts) k) Q m.
Proof.
  intros [A Bk C D E F] Hn Hx Hkl Hkp Hnd Hk Hkk Hf HQ. apply wp_bind.
  eapply wp_mono; [apply (enc_blocks_ok key m Hn); [by rewrite E|by rewrite C|done|done|by rewrite C]|]. intros [] m' [G H I J]. apply HQ. split; rewrite ?I; try done.
  - apply (ctr_regs_frame iv m); [done| |by rewrite J]. intros s Hc. apply H; [|by intros ->]. intros Hin. rewrite Forall_forall in Hf. by rewrite (Hf s Hin) in Hc.
  - intros s v ([r w] & [= -> ->] & Hin)%list_elem_of_fmap. cbn [fst snd]. destruct (Bk _ _ Hin) as [Hc Hv]. split; [done|].
    destruct (in_regs_spec r sts); [by rewrite G, Hv|]. rewrite H; [done|done|]. intros ->. apply Hkk, list_elem_of_fmap. by exists (KEY, w).
  - intros r Hr Ht. rewrite J by done. by apply C.
Qed.

Lemma splice_app_r (pre blk inp : bytes) j : (j + length blk <= length inp)%nat -> splice (length pre + j) blk (pre ++ inp) = pre ++ splice j blk inp.
Proof.
  intros H. unfold splice. rewrite take_app_add, <- app_assoc. do 2 f_equal. rewrite <- Nat.add_assoc, drop_app_add. done.
Qed.

Lemma slice_app_r {A} (pre inp : list A) j n : slice (length pre + j) n (pre ++ inp) = slice j n inp.
Proof. unfold slice. by rewrite drop_app_add. Qed.

Lemma xor_state a b : length a = 16%nat -> length b = 16%nat -> of_state (AddRoundKey (to_state a) (to_state b)) = xor_bytes a b.
Proof. intros Ha Hb. do 16 (destruct a as [|? a]; [done|]; destruct b as [|? b]; [done|]). destruct a, b; done. Qed.

(** Facts about the numbers of registers *)
Ltac regs := first [apply (bool_decide_eq_true_1 _); reflexivity|split; [reflexivity|apply (bool_decide_eq_true_1 _); reflexivity]].

Ltac known_regs H := cbn [app fmap list_fmap fst snd in_regs existsb Nat.eqb orb STATE STATE1 STATE2 STATE3 STATE4 IN IN1 IN2 IN3 IN4] in H.

Section CtrLoops.
Context (key : bytes).
Hypothesis (Hkey : bytes_ok key) (Hsize : key_size (length key)).
#[local] Existing Instance aes_cipher.

(** Between two iterations: [pre] is done, [inp] is left. *)
Record running (iv pre inp : bytes) (len : nat) (m : machine) : Prop := {
  rn_regs : ctr_regs iv m;
  rn_iv : iv_ok iv;
  rn_ctx : expanded_ctx key (mem m CTX);
  rn_keyp : gp m KEYP = Ptr CTX 0;
  rn_klen : gp m KLEN = Int (length key);
  rn_inp : gp m INP = Ptr DATA (length pre);
  rn_outp : gp m OUTP = Ptr DATA (length pre);
  rn_len : gp m LEN = Int len;
  rn_data : mem m DATA = pre ++ inp;
  rn_ivp : gp m IVP = Ptr IVEC 0;
  rn_ivec : length (mem m IVEC) = 16%nat;
  rn_fits : (len <= length inp)%nat;
  rn_max : Z.of_nat len < 2 ^ 63;
}.

Lemma running_stage iv pre inp len m : running iv pre inp len m -> stage m iv (pre ++ inp) [] m.
Proof. intros []. split; try done. by intros s v ?%elem_of_nil. Qed.

(** The value that [pxor] leaves *)
Lemma block_out iv inp j : iv_ok iv -> (j + 16 <= length inp)%nat ->
  of_state (AddRoundKey (cipher key (to_state iv)) (to_state (slice j 16 inp))) = xor_bytes (encrypt_one key iv) (slice j 16 inp).
Proof using Hkey.
  intros [Hl Hb] Hj. unfold cipher. rewrite of_to_state by done. rewrite encrypt_one_aes by done. apply xor_state; [done|]. apply length_slice. lia.
Qed.

Lemma advance_ok iv pre inp len m iv' out known m' n : running iv pre inp len m -> stage m iv' (pre ++ out ++ drop n inp) known m' -> iv_ok iv' ->
  length out = n -> (n <= len)%nat ->
  wp total (advance (Z.of_nat n)) (fun r m2 => r = Z.of_nat (len - n) /\ running iv' (pre ++ out) (drop n inp) (len - n) m2) m'.
Proof.
  intros [R0 R1 R2 R3 R4 R5 R6 R7 R8 R9 R10 R11 R12] [A Bk C D E F] Hiv Ho Hn. unfold advance. apply wp_lea, wp_lea, wp_lea.
  unfold wp, gets. cbn [set_gp gp upd gpr_no Nat.eqb LEN INP OUTP]. unfold LEN, INP, OUTP in *. rewrite (C RCX), (C RDX), (C RSI), R7, R6, R5 by done. cbn [plus int_of].
  assert (Eu : u64 (len + - n) = (len - n)%nat) by (rewrite u64_small; lia). rewrite Eu. split.
  - unfold s64, signed. rewrite Z.mod_small by lia. destruct (Z.ltb_spec (len - n)%nat (2 ^ (64 - 1))); lia.
  - assert (Ep : length pre + n = length (pre ++ out)) by (rewrite length_app; lia).
    split; cbn [set_gp gp mem upd gpr_no Nat.eqb]; try done; [|by rewrite E|by rewrite C|by rewrite C|by rewrite Ep|by rewrite Ep|by rewrite D, <- app_assoc|by rewrite C|by rewrite F|rewrite length_drop; lia|lia].
    by apply (ctr_regs_frame iv' m').
Qed.
Lemma length_out v j (inp : bytes) : (j + 16 <= length inp)%nat -> length (xor_bytes (encrypt_one key v) (slice j 16 inp)) = 16%nat.
Proof. intros H. rewrite length_xor_bytes, encrypt_one_length, length_slice; lia. Qed.

(** [pxor] and [movups] for one block *)
Lemma stage_out {B} iv pre inp len m iv' d v known m' dst src j off (k : unit -> M machine B) Q : running iv pre inp len m ->
  stage m iv' (pre ++ d) ((dst, cipher key (to_state v)) :: (src, to_state (slice j 16 inp)) :: known) m' -> dst ∉ known.*1 -> iv_ok v ->
  length d = length inp -> (j + 16 <= length inp)%nat -> off = Z.of_nat j ->
  let d' := splice j (xor_bytes (encrypt_one key v) (slice j 16 inp)) d in
  (forall m2, stage m iv' (pre ++ d') known m2 -> length d' = length inp -> wp total (k tt) Q m2) ->
  wp total (pxor src dst ;; bind (movups_st dst off OUTP) k) Q m'.
Proof using Hkey.
  intros Hr S Hn Hv Hd Hj -> d' HQ. pose proof Hr as [_ _ _ _ _ _ R6 _ _ _ _ _ _]. pose proof (length_out v j inp Hj) as X.
  eapply (stage_store m _ _ _ m' dst src _ _ j (length pre + j) _ _ (length pre) S); [done|done|lia|rewrite length_app; lia|].
  rewrite block_out, splice_app_r by (done || lia). intros m2 S2. apply HQ; [done|]. rewrite <- Hd. apply length_splice. lia.
Qed.

(** When the loops are left *)
Record finished (iv data : bytes) (m : machine) : Prop := {
  fi_iv : xmm m IV = to_state iv;
  fi_ok : iv_ok iv;
  fi_data : mem m DATA = data;
  fi_ivp : gp m IVP = Ptr IVEC 0;
  fi_ivec : length (mem m IVEC) = 16%nat;
  fi_ctx : expanded_ctx key (mem m CTX);
}.

Lemma running_finished iv pre inp len m : running iv pre inp len m -> finished iv (pre ++ inp) m.
Proof. intros [[]]. by split. Qed.

(** One iteration of [.Lctr_enc_loop1] *)
Lemma iteration1 {B} iv pre inp len m (k : Z -> M machine B) Q : running iv pre inp len m -> (16 <= len)%nat ->
  let out := xor_bytes (encrypt_one key iv) (take 16 inp) in
  (forall m', running (Ctr.aesni_inc iv) (pre ++ out) (drop 16 inp) (len - 16) m' -> wp total (k (Z.of_nat (len - 16))) Q m') ->
  wp total (movaps IV STATE ;; aesni_inc ;; movups_ld 0 INP IN ;; aesni_enc1 ;; pxor IN STATE ;; movups_st STATE 0 OUTP ;; bind (advance 16) k) Q m.
Proof using Hkey Hsize.
  intros Hr Hlen out HQ. pose proof Hr as [R0 R1 R2 R3 R4 R5 R6 R7 R8 R9 R10 R11 R12]. pose proof (running_stage _ _ _ _ _ Hr) as S0.
  assert (Hl : (length pre + 0 + 16 <= length (pre ++ inp))%nat) by (rewrite length_app; lia).
  apply (stage_load m iv (pre ++ inp) [] m STATE IN 0 (length pre + 0) _ _ (length pre) S0 R1); [by regs|by regs|done|lia|done|].
  intros m1 S1. apply (stage_enc key m _ _ _ m1 [STATE] _ _ S1 Hsize R2 R4 R3); [by regs..|by repeat constructor|].
  intros m2 S2. known_regs S2.
  rewrite slice_app_r in S2. eapply (stage_out iv pre inp len m _ _ _ _ m2 STATE IN 0 0 _ _ Hr S2); [apply not_elem_of_nil|done|done|lia|done|].
  intros m3 S3 _. change (slice 0 16 inp) with (take 16 inp) in S3. fold out in S3.
  assert (Lo : length out = 16%nat) by (apply (length_out iv 0); lia). replace (splice 0 out inp) with (out ++ drop 16 inp) in S3 by (unfold splice; by rewrite Lo).
  apply wp_bind. eapply wp_mono; [apply (advance_ok iv pre inp len m _ out _ m3 16 Hr S3); [apply iv_ok_inc|done|done]|].
  cbv beta. intros r m4 [-> R]. by apply HQ.
Qed.

Lemma loop1_refines fuel : forall fuel' iv pre inp len m, running iv pre inp len m -> (16 <= len)%nat -> (len < 16 * S fuel)%nat -> (len < 16 * S fuel')%nat ->
  wp total (ctr_enc_loop1 fuel) (fun _ m' => let '(out, iv', _) := aesni_ctr_loop1 fuel' key iv inp len in finished iv' (pre ++ out) m') m.
Proof using Hkey Hsize.
  induction fuel as [|fuel IH]; intros fuel' iv pre inp len m Hr Hlen Hf Hf'; [lia|]. destruct fuel' as [|fuel']; [lia|]. cbn [ctr_enc_loop1 aesni_ctr_loop1].
  apply (iteration1 iv pre inp len m); [done|done|]. unfold aesni_block. set (out := xor_bytes _ (take 16 inp)). intros m1 R1.
  destruct (Nat.leb_spec 16 (len - 16)) as [H|H]; destruct (Z.leb_spec 16 (len - 16)%nat); try lia.
  - eapply wp_mono; [apply (IH fuel' _ _ _ _ m1 R1); lia|]. cbv beta. intros _ m2.
    destruct (aesni_ctr_loop1 fuel' key (Ctr.aesni_inc iv) (drop 16 inp) (len - 16)) as [[o v] l]. by rewrite app_assoc.
  - apply wp_ret. rewrite app_assoc. by eapply running_finished.
Qed.
(** Four blocks stored one after the other *)
Lemma splice4 (a b c d l : bytes) : length a = 16%nat -> length b = 16%nat -> length c = 16%nat -> length d = 16%nat -> (64 <= length l)%nat ->
  splice 48 d (splice 32 c (splice 16 b (splice 0 a l))) = (a ++ b ++ c ++ d) ++ drop 64 l.
Proof.
  intros Ha Hb Hc Hd Hl.
  assert (N : forall o (x y : bytes), o = length x -> (length x + length y <= length l)%nat -> splice o y (splice 0 x l) = splice 0 (x ++ y) l)
    by (intros o x y -> H; by apply (splice_app_next x y l 0)).
  rewrite (N 16%nat a b), (N 32%nat), (N 48%nat) by (rewrite ?length_app; lia).
  unfold splice. rewrite take_0, <- !app_assoc, !length_app, Ha, Hb, Hc, Hd. done.
Qed.

(** One iteration of [.Lctr_enc_loop4] *)
Lemma iteration4 {B} iv pre inp len m (k : Z -> M machine B) Q : running iv pre inp len m -> (64 <= len)%nat ->
  let iv2 := Ctr.aesni_inc iv in let iv3 := Ctr.aesni_inc iv2 in let iv4 := Ctr.aesni_inc iv3 in
  let out := xor_bytes (encrypt_one key iv) (slice 0 16 inp) ++ xor_bytes (encrypt_one key iv2) (slice 16 16 inp)
          ++ xor_bytes (encrypt_one key iv3) (slice 32 16 inp) ++ xor_bytes (encrypt_one key iv4) (slice 48 16 inp) in
  (forall m', running (Ctr.aesni_inc iv4) (pre ++ out) (drop 64 inp) (len - 64) m' -> wp total (k (Z.of_nat (len - 64))) Q m') ->
  wp total (movaps IV STATE1 ;; aesni_inc ;; movups_ld 0 INP IN1 ;; movaps IV STATE2 ;; aesni_inc ;; movups_ld 0x10 INP IN2 ;;
    movaps IV STATE3 ;; aesni_inc ;; movups_ld 0x20 INP IN3 ;; movaps IV STATE4 ;; aesni_inc ;; movups_ld 0x30 INP IN4 ;; aesni_enc4 ;;
    pxor IN1 STATE1 ;; movups_st STATE1 0 OUTP ;; pxor IN2 STATE2 ;; movups_st STATE2 0x10 OUTP ;;
    pxor IN3 STATE3 ;; movups_st STATE3 0x20 OUTP ;; pxor IN4 STATE4 ;; movups_st STATE4 0x30 OUTP ;; bind (advance 64) k) Q m.
Proof using Hkey Hsize.
  intros Hr Hlen iv2 iv3 iv4 out HQ. pose proof Hr as [R0 R1 R2 R3 R4 R5 R6 R7 R8 R9 R10 R11 R12]. pose proof (running_stage _ _ _ _ _ Hr) as S0.
  assert (Hl : length (pre ++ inp) = (length pre + length inp)%nat) by apply length_app.
  pose proof (iv_ok_inc iv) as V2. pose proof (iv_ok_inc iv2) as V3. pose proof (iv_ok_inc iv3) as V4.
  eapply (stage_load m iv _ _ m STATE1 IN1 0 (length pre + 0) _ _ (length pre) S0 R1); [by regs|by regs|done|lia|lia|]. intros m1 S1.
  eapply (stage_load m iv2 _ _ m1 STATE2 IN2 0x10 (length pre + 16) _ _ (length pre) S1 V2); [by regs|by regs|done|lia|lia|]. intros m2 S2.
  eapply (stage_load m iv3 _ _ m2 STATE3 IN3 0x20 (length pre + 32) _ _ (length pre) S2 V3); [by regs|by regs|done|lia|lia|]. intros m3 S3.
  eapply (stage_load m iv4 _ _ m3 STATE4 IN4 0x30 (length pre + 48) _ _ (length pre) S3 V4); [by regs|by regs|done|lia|lia|]. intros m4 S4.
  clear S0 S1 S2 S3 m1 m2 m3. rewrite !slice_app_r in S4.
  eapply (stage_enc key m _ _ _ m4 [STATE1; STATE2; STATE3; STATE4] _ _ S4 Hsize R2 R4 R3); [by regs..|by repeat constructor|].
  intros m5 S5. known_regs S5. clear S4 m4.
  eapply (stage_out iv pre inp len m _ _ _ _ m5 STATE1 IN1 0 0 _ _ Hr S5); [by regs|done|done|lia|done|]. intros m6 S6 L1. clear S5 m5.
  eapply (stage_out iv pre inp len m _ _ _ _ m6 STATE2 IN2 16 0x10 _ _ Hr S6); [by regs|done|done|lia|done|]. intros m7 S7 L2. clear S6 m6.
  eapply (stage_out iv pre inp len m _ _ _ _ m7 STATE3 IN3 32 0x20 _ _ Hr S7); [by regs|done|done|lia|done|]. intros m8 S8 L3. clear S7 m7.
  eapply (stage_out iv pre inp len m _ _ _ _ m8 STATE4 IN4 48 0x30 _ _ Hr S8); [by regs|done|done|lia|done|]. intros m9 S9 _. clear S8 m8.
  rewrite splice4 in S9 by first [lia|apply length_out; lia]. fold out in S9.
  apply wp_bind. eapply wp_mono; [apply (advance_ok iv pre inp len m _ out _ m9 64 Hr S9); [apply iv_ok_inc|unfold out; rewrite !length_app, !length_out by lia; done|done]|].
  cbv beta. intros r m10 [-> R]. by apply HQ.
Qed.
(** What [.Lctr_enc_loop4] leaves for the other loop *)
Definition left_over (fuel : nat) (iv pre inp : bytes) (len : nat) (m : machine) : Prop :=
  exists iv4 pre4 inp4 len4, running iv4 pre4 inp4 len4 m /\ (len4 < 64)%nat /\
    let '(out, ivf, _) := aesni_ctr_loop4 fuel key iv inp len in
    if (len4 <? 16)%nat then pre ++ out = pre4 ++ inp4 /\ ivf = iv4
    else let '(o1, iv1, _) := aesni_ctr_loop1 len4 key iv4 inp4 len4 in pre ++ out = pre4 ++ o1 /\ ivf = iv1.

Lemma loop4_refines fuel : forall fuel' iv pre inp len m, running iv pre inp len m -> (64 <= len)%nat -> (len < 64 * S fuel)%nat -> (len < 64 * S fuel')%nat ->
  wp total (ctr_enc_loop4 fuel) (fun _ => left_over fuel' iv pre inp len) m.
Proof using Hkey Hsize.
  induction fuel as [|fuel IH]; intros fuel' iv pre inp len m Hr Hlen Hf Hf'; [lia|]. destruct fuel' as [|fuel']; [lia|]. cbn [ctr_enc_loop4].
  apply (iteration4 iv pre inp len m); [done|done|]. cbv zeta. set (out := xor_bytes _ (slice 0 16 inp) ++ _). set (iv' := Ctr.aesni_inc (Ctr.aesni_inc _)). intros m1 R1.
  destruct (Z.leb_spec 64 (len - 64)%nat) as [H|H].
  - eapply wp_mono; [apply (IH fuel' _ _ _ _ m1 R1); lia|]. intros ? m2 (iv4 & pre4 & inp4 & len4 & R4 & L4 & E4). exists iv4, pre4, inp4, len4. split_and!; [done..|].
    cbn [aesni_ctr_loop4]. fold out iv'. rewrite (proj2 (Nat.leb_le 64 (len - 64))) by lia.
    destruct (aesni_ctr_loop4 fuel' key iv' (drop 64 inp) (len - 64)) as [[o v] l]. by rewrite app_assoc.
  - apply wp_ret. exists iv', (pre ++ out), (drop 64 inp), (len - 64)%nat. split_and!; [done|lia|]. cbn [aesni_ctr_loop4]. fold out iv'.
    rewrite (proj2 (Nat.leb_gt 64 (len - 64))) by lia. destruct (Nat.ltb_spec (len - 64) 16); [by rewrite app_assoc|].
    destruct (aesni_ctr_loop1 (len - 64) key iv' (drop 64 inp) (len - 64)) as [[o v] l]. by rewrite app_assoc.
Qed.
End CtrLoops.

(** ** aesni_ctr_enc *)

(** The arguments of a call in place: the buffer starts at [a] of its region *)
Record ctr_call (ctx iv pre data : bytes) (len : nat) (m : machine) : Prop := {
  cc_ctx : mem m CTX = ctx;
  cc_keyp : gp m KEYP = Ptr CTX 0;
  cc_inp : gp m INP = Ptr DATA (length pre);
  cc_outp : gp m OUTP = Ptr DATA (length pre);
  cc_len : gp m LEN = Int len;
  cc_ivp : gp m IVP = Ptr IVEC 0;
  cc_data : mem m DATA = pre ++ data;
  cc_iv : mem m IVEC = iv;
}.

Lemma ctr_loops_ok key iv pre data len fuel m : bytes_ok key -> key_size (length key) -> running key iv pre data len m -> (16 <= len)%nat -> (len < 16 * S fuel)%nat ->
  wp total (ctr_enc_loops fuel)
    (fun _ m' => let '(out, iv') := @Ctr.aesni_ctr_enc aes_cipher key iv data len in finished key iv' (pre ++ out) m') m.
Proof.
  intros Hk Hn Hr H16 Hf. unfold ctr_enc_loops, below, Ctr.aesni_ctr_enc. rewrite (proj2 (Nat.ltb_ge len 16)) by done. apply wp_gets. rewrite (rn_len _ _ _ _ _ _ Hr). cbn [int_of].
  destruct (Nat.ltb_spec len 64) as [H64|H64]; destruct (Z.ltb_spec len 64); try lia.
  - eapply wp_mono; [apply (loop1_refines key Hk Hn fuel len _ _ _ _ m Hr); lia|]. intros ? m'. by destruct (@aesni_ctr_loop1 aes_cipher len key iv data len) as [[? ?] ?].
  - apply wp_bind. eapply wp_mono; [apply (loop4_refines key Hk Hn fuel len _ _ _ _ m Hr); lia|]. intros ? m' (iv4 & pre4 & inp4 & len4 & R4 & L4 & E4).
    destruct (@aesni_ctr_loop4 aes_cipher len key iv data len) as [[out ivf] ?]. apply wp_gets. rewrite (rn_len _ _ _ _ _ _ R4). cbn [int_of].
    destruct (Nat.ltb_spec len4 16) as [H4|H4]; destruct (Z.ltb_spec len4 16); try lia.
    + destruct E4 as [-> ->]. apply wp_ret. by eapply running_finished.
    + eapply wp_mono; [apply (loop1_refines key Hk Hn fuel len4 _ _ _ _ m' R4); lia|]. cbv beta. intros ? m2.
      destruct (@aesni_ctr_loop1 aes_cipher len4 key iv4 inp4 len4) as [[? ?] ?]. by destruct E4 as [-> ->].
Qed.

Lemma store_iv key iv data m : finished key iv data m ->
  wp total (movups_st IV 0 IVP) (fun _ m' => mem m' DATA = data /\ mem m' IVEC = iv /\ iv_ok iv /\ expanded_ctx key (mem m' CTX)) m.
Proof.
  intros [F1 [F2 F2'] F3 F4 F5 F6]. unfold movups_st. apply wp_gets. rewrite F1, of_to_state by done. unfold wp.
  rewrite (store_ok m false 0 IVP IVEC 0 0); [|done|done|rewrite F2, F5; done|done]. split_and!; [done| |done|done]. cbn. unfold splice. rewrite F2, drop_ge by lia. cbn. apply app_nil_r.
Qed.

Lemma ctr_enc_ok key ctx iv pre data len fuel m : bytes_ok key -> key_size (length key) -> expanded_ctx key ctx -> iv_ok iv -> ctr_call ctx iv pre data len m ->
  (len <= length data)%nat -> Z.of_nat len < 2 ^ 63 -> (len < 16 * S fuel)%nat ->
  wp total (aesni_ctr_enc fuel) (fun _ m' => let '(out, iv') := @Ctr.aesni_ctr_enc aes_cipher key iv data len in
    mem m' DATA = pre ++ out /\ mem m' IVEC = iv' /\ iv_ok iv' /\ expanded_ctx key (mem m' CTX)) m.
Proof.
  intros Hk Hn Hx Hiv [<- C2 C3 C4 C5 C6 C7 C8] Hl Hmax Hf. unfold aesni_ctr_enc, below, Ctr.aesni_ctr_enc. apply wp_gets. rewrite C5. cbn [int_of].
  destruct (Nat.ltb_spec len 16) as [H16|H16]; destruct (Z.ltb_spec len 16); try lia; [by apply wp_ret|].
  apply (load_klen total key); [done..|]. apply (movups_ld_ok total _ _ _ _ _ _ IVEC 0 0); [done|done|cbn; rewrite C8; by rewrite (proj1 Hiv)|].
  set (m1 := set_xmm IV _ _). apply wp_bind.
  assert (E1 : xmm m1 IV = to_state iv).
  { unfold m1. cbn [set_xmm xmm set_gp mem]. rewrite upd_eq, C8. unfold slice. rewrite drop_0. apply to_state_take. done. }
  eapply wp_mono; [by apply (inc_init_ok iv m1)|]. cbv beta. intros _ m2 [Hr [Sx Sg Sm]].
  assert (R : running key iv pre data len m2) by (split; rewrite ?Sm; try done; rewrite ?Sg by done; try done; cbn; rewrite C8; apply Hiv).
  apply wp_bind. eapply wp_mono; [by apply (ctr_loops_ok key iv pre data len fuel m2)|].
  intros ? m3. destruct (@Ctr.aesni_ctr_enc aes_cipher key iv data len) as [out iv'] eqn:E. intros F. eapply wp_mono; [by apply (store_iv key iv' (pre ++ out))|].
  cbv beta. intros _ m4 H4. unfold Ctr.aesni_ctr_enc in E. rewrite (proj2 (Nat.ltb_ge len 16)) in E by done. by rewrite E.
Qed.

(** The assembly of counter mode refines the model of [Ctr] over FIPS 197: with the context
    that [aesni_set_key] leaves for a key of 16, 24 or 32 bytes, [aesni_ctr_enc] on a buffer
    in place runs without a fault, leaves in the buffer and in the vector what
    [Ctr.aesni_ctr_enc] computes with the block function of FIPS 197, and does not touch what
    is before the buffer.  The four-block loop, the single-block loop and the counter kept in
    two quadwords with an explicit carry are all of it. *)
Theorem aesni_ctr_refines key m : bytes_ok key -> called key m -> key_size (length key) ->
  exists m', aesni_set_key m = Done (0, m') /\
    forall iv pre data len fuel m2, iv_ok iv -> ctr_call (mem m' CTX) iv pre data len m2 ->
      (len <= length data)%nat -> Z.of_nat len < 2 ^ 63 -> (len < 16 * S fuel)%nat ->
      exists m3, aesni_ctr_enc fuel m2 = Done (tt, m3) /\
        mem m3 DATA = pre ++ fst (@Ctr.aesni_ctr_enc aes_cipher key iv data len) /\ mem m3 IVEC = snd (@Ctr.aesni_ctr_enc aes_cipher key iv data len).
Proof.
  intros Hk Hm Hn. destruct (wp_elim _ _ _ (set_key_ok key m Hm Hn)) as (rc & m' & E & -> & Hs). exists m'. split; [done|]. intros iv pre data len fuel m2 Hiv Hc Hl Hmax Hf.
  destruct (wp_elim _ _ _ (ctr_enc_ok key _ iv pre data len fuel m2 Hk Hn Hs Hiv Hc Hl Hmax Hf)) as ([] & m3 & E3 & H3). exists m3.
  destruct (@Ctr.aesni_ctr_enc aes_cipher key iv data len) as [out iv']. destruct H3 as (? & ? & _). done.
Qed.

Definition ctr_machine (ctx data iv : bytes) : machine :=
  Machine (fun _ => to_state (zeros 16))
    (fun g => match g with RDI => Ptr CTX 0 | RSI | RDX => Ptr DATA 0 | RCX => Int (length data) | R8 => Ptr IVEC 0 | _ => Int 0 end)
    (fun r => match r with CTX => ctx | DATA => data | IVEC => iv | _ => [] end).
Definition ones16 : bytes := replicate 16 255.

Lemma aesni_ctr_refines_witness :
  exists m', aesni_set_key (key_machine key24) = Done (0, m') /\
    exists m3, aesni_ctr_enc 10 (ctr_machine (mem m' CTX) (zeros 100) ones16) = Done (tt, m3) /\
      mem m3 DATA = fst (@Ctr.aesni_ctr_enc aes_cipher key24 ones16 (zeros 100) 100).
Proof.
  assert (Hk : bytes_ok key24) by (apply bytes_ok_check; vm_compute; reflexivity).
  assert (Hv : iv_ok ones16) by (split; [reflexivity|apply bytes_ok_check; vm_compute; reflexivity]).
  destruct (aesni_ctr_refines key24 (key_machine key24) Hk) as (m' & E & H); [by split|right; left; reflexivity|]. exists m'. split; [exact E|].
  destruct (H ones16 [] (zeros 100) 100%nat 10%nat (ctr_machine (mem m' CTX) (zeros 100) ones16) Hv) as (m3 & E3 & H3 & _);
    [split; reflexivity|rewrite length_zeros; lia|lia|lia|]. exists m3. split; [exact E3|exact H3].
Defined.
