(* ===== verification/PrivCrypt.v ===== *)
(** * Cryptographic contexts of the private-crypto driver

    linux-3.0/drivers/priv/crypto.c: creation and destruction of a
    [struct priv_crypt_ctx], its key, IV and activation, and encryption through
    the context's own page.  The kernel objects the driver shares with its
    clients (contexts, references, open files, the context list) live in one
    explicit heap, so that aliasing and freed memory are visible. *)

From S2P Require Import Prelude BlkCipher Ctr AesCipher.

(** ** Constants (include/linux/priv_crypt_kern.h) *)

Definition MAX_KEY_LEN : nat := 64.
Definition MAX_IV_LEN : nat := 64.
Definition MAX_KEX_MSG_LEN : nat := (16 * 256)%nat.

Definition PRIV_CRYPT_ALG_AES_CTR : Z := 1.
Definition PRIV_CRYPT_DIR_ENC : Z := 1.
Definition PRIV_CRYPT_DIR_DEC : Z := 2.

Definition priv_crypt_alg_valid (alg : Z) : bool := alg =? PRIV_CRYPT_ALG_AES_CTR.

(** ** State *)

Section State.
Context {B : BlkCipher}.

(** [struct priv_crypt_ctx].  Pointers are addresses; a pointer to memory owned
    by the context holds the memory's contents, [None] for NULL. *)
Record priv_crypt_ctx := PCC {
  cc_id : Z;
  cc_alloc_pid : Z;
  cc_user_lock : bool;
  cc_user_ref : option nat;
  cc_kex_buf : option bytes;
  cc_cipher : option tfm;
  cc_pg_mem : option bytes;
  cc_activated : Z;
  cc_dir : Z;
  cc_key : bytes;
  cc_key_size : Z;
  cc_iv : bytes;
  cc_iv_size : Z;
}.

(** The kernel heap as the driver sees it. *)
Record kstate := KS {
  k_init : bool;                        (* the_config.init *)
  k_list : list nat;                    (* the_config.ctx_list, head first *)
  k_ctxs : gmap nat priv_crypt_ctx;     (* live contexts *)
  k_freed : gmap nat priv_crypt_ctx;    (* contexts as they were when freed *)
  k_refs : gmap nat (option nat);       (* live struct priv_crypt_ctx_ref: ->cctx *)
  k_files : gmap nat (option nat);      (* open files: ->private_data *)
  k_id : Z;                             (* the counter of get_fresh_id *)
  k_brk : nat;                          (* next address to hand out *)
  k_live : Z;                           (* allocations not yet freed *)
  k_mem : list (option positive);       (* allocator answers: None succeeds *)
  k_rng : bytes;                        (* get_random_bytes *)
}.

Definition set_list (l : list nat) (s : kstate) : kstate :=
  KS (k_init s) l (k_ctxs s) (k_freed s) (k_refs s) (k_files s) (k_id s) (k_brk s) (k_live s) (k_mem s) (k_rng s).
Definition set_ctxs (m : gmap nat priv_crypt_ctx) (s : kstate) : kstate :=
  KS (k_init s) (k_list s) m (k_freed s) (k_refs s) (k_files s) (k_id s) (k_brk s) (k_live s) (k_mem s) (k_rng s).
Definition set_freed (m : gmap nat priv_crypt_ctx) (s : kstate) : kstate :=
  KS (k_init s) (k_list s) (k_ctxs s) m (k_refs s) (k_files s) (k_id s) (k_brk s) (k_live s) (k_mem s) (k_rng s).
Definition set_refs (m : gmap nat (option nat)) (s : kstate) : kstate :=
  KS (k_init s) (k_list s) (k_ctxs s) (k_freed s) m (k_files s) (k_id s) (k_brk s) (k_live s) (k_mem s) (k_rng s).
Definition set_files (m : gmap nat (option nat)) (s : kstate) : kstate :=
  KS (k_init s) (k_list s) (k_ctxs s) (k_freed s) (k_refs s) m (k_id s) (k_brk s) (k_live s) (k_mem s) (k_rng s).
Definition set_id (i : Z) (s : kstate) : kstate :=
  KS (k_init s) (k_list s) (k_ctxs s) (k_freed s) (k_refs s) (k_files s) i (k_brk s) (k_live s) (k_mem s) (k_rng s).
Definition set_brk (n : nat) (s : kstate) : kstate :=
  KS (k_init s) (k_list s) (k_ctxs s) (k_freed s) (k_refs s) (k_files s) (k_id s) n (k_live s) (k_mem s) (k_rng s).
Definition set_live (n : Z) (s : kstate) : kstate :=
  KS (k_init s) (k_list s) (k_ctxs s) (k_freed s) (k_refs s) (k_files s) (k_id s) (k_brk s) n (k_mem s) (k_rng s).
Definition set_mem (m : list (option positive)) (s : kstate) : kstate :=
  KS (k_init s) (k_list s) (k_ctxs s) (k_freed s) (k_refs s) (k_files s) (k_id s) (k_brk s) (k_live s) m (k_rng s).
Definition set_rng (r : bytes) (s : kstate) : kstate :=
  KS (k_init s) (k_list s) (k_ctxs s) (k_freed s) (k_refs s) (k_files s) (k_id s) (k_brk s) (k_live s) (k_mem s) r.

Abbreviation K := (M kstate).

(** An allocation: the next answer; [Some e] fails with error [e]. *)
Definition kmalloc : K (option positive) := fun s =>
  match k_mem s with
  | [] => Done (None, set_live (k_live s + 1) s)
  | None :: m => Done (None, set_live (k_live s + 1) (set_mem m s))
  | Some e :: m => Done (Some e, set_mem m s)
  end.

Definition kfree : K unit := modify (fun s => set_live (k_live s - 1) s).

(** A fresh address. *)
Definition fresh : K nat := fun s => Done (k_brk s, set_brk (S (k_brk s)) s).

Definition get_random_bytes (n : nat) : K bytes := fun s =>
  Done (take n (k_rng s ++ zeros n), set_rng (drop n (k_rng s)) s).

(** Dereference a context pointer. *)
Definition load (p : nat) : K priv_crypt_ctx := fun s =>
  match k_ctxs s !! p with
  | Some c => Done (c, s)
  | None => Oops UseAfterFree
  end.
Definition store (p : nat) (c : priv_crypt_ctx) : K unit := fun s =>
  match k_ctxs s !! p with
  | Some _ => Done (tt, set_ctxs (<[p := c]> (k_ctxs s)) s)
  | None => Oops UseAfterFree
  end.

(** A freshly zeroed context ([kzalloc]). *)
Definition zero_ctx : priv_crypt_ctx :=
  PCC 0 0 false None None None None 0 0 (zeros MAX_KEY_LEN) 0 (zeros MAX_IV_LEN) 0.

(** [kfree(cctx)]: the memory keeps its last contents. *)
Definition free_ctx (p : nat) : K unit :=
  let! c := load p in
  modify (fun s => set_freed (<[p := c]> (k_freed s)) (set_ctxs (delete p (k_ctxs s)) s)) ;;
  kfree.

Definition upd_cipher (t : option tfm) (c : priv_crypt_ctx) : priv_crypt_ctx :=
  PCC (cc_id c) (cc_alloc_pid c) (cc_user_lock c) (cc_user_ref c) (cc_kex_buf c) t (cc_pg_mem c)
    (cc_activated c) (cc_dir c) (cc_key c) (cc_key_size c) (cc_iv c) (cc_iv_size c).
Definition upd_pg (m : option bytes) (c : priv_crypt_ctx) : priv_crypt_ctx :=
  PCC (cc_id c) (cc_alloc_pid c) (cc_user_lock c) (cc_user_ref c) (cc_kex_buf c) (cc_cipher c) m
    (cc_activated c) (cc_dir c) (cc_key c) (cc_key_size c) (cc_iv c) (cc_iv_size c).
Definition upd_kex_buf (m : option bytes) (c : priv_crypt_ctx) : priv_crypt_ctx :=
  PCC (cc_id c) (cc_alloc_pid c) (cc_user_lock c) (cc_user_ref c) m (cc_cipher c) (cc_pg_mem c)
    (cc_activated c) (cc_dir c) (cc_key c) (cc_key_size c) (cc_iv c) (cc_iv_size c).
Definition upd_key (k : bytes) (c : priv_crypt_ctx) : priv_crypt_ctx :=
  PCC (cc_id c) (cc_alloc_pid c) (cc_user_lock c) (cc_user_ref c) (cc_kex_buf c) (cc_cipher c) (cc_pg_mem c)
    (cc_activated c) (cc_dir c) k (cc_key_size c) (cc_iv c) (cc_iv_size c).
Definition upd_iv (v : bytes) (c : priv_crypt_ctx) : priv_crypt_ctx :=
  PCC (cc_id c) (cc_alloc_pid c) (cc_user_lock c) (cc_user_ref c) (cc_kex_buf c) (cc_cipher c) (cc_pg_mem c)
    (cc_activated c) (cc_dir c) (cc_key c) (cc_key_size c) v (cc_iv_size c).
Definition upd_sizes (ks ivs d : Z) (c : priv_crypt_ctx) : priv_crypt_ctx :=
  PCC (cc_id c) (cc_alloc_pid c) (cc_user_lock c) (cc_user_ref c) (cc_kex_buf c) (cc_cipher c) (cc_pg_mem c)
    (cc_activated c) d (cc_key c) ks (cc_iv c) ivs.
Definition upd_activated (a : Z) (c : priv_crypt_ctx) : priv_crypt_ctx :=
  PCC (cc_id c) (cc_alloc_pid c) (cc_user_lock c) (cc_user_ref c) (cc_kex_buf c) (cc_cipher c) (cc_pg_mem c)
    a (cc_dir c) (cc_key c) (cc_key_size c) (cc_iv c) (cc_iv_size c).
Definition upd_user (l : bool) (r : option nat) (c : priv_crypt_ctx) : priv_crypt_ctx :=
  PCC (cc_id c) (cc_alloc_pid c) l r (cc_kex_buf c) (cc_cipher c) (cc_pg_mem c)
    (cc_activated c) (cc_dir c) (cc_key c) (cc_key_size c) (cc_iv c) (cc_iv_size c).
Definition upd_id (i : Z) (c : priv_crypt_ctx) : priv_crypt_ctx :=
  PCC i (cc_alloc_pid c) (cc_user_lock c) (cc_user_ref c) (cc_kex_buf c) (cc_cipher c) (cc_pg_mem c)
    (cc_activated c) (cc_dir c) (cc_key c) (cc_key_size c) (cc_iv c) (cc_iv_size c).
Definition upd_pid (i : Z) (c : priv_crypt_ctx) : priv_crypt_ctx :=
  PCC (cc_id c) i (cc_user_lock c) (cc_user_ref c) (cc_kex_buf c) (cc_cipher c) (cc_pg_mem c)
    (cc_activated c) (cc_dir c) (cc_key c) (cc_key_size c) (cc_iv c) (cc_iv_size c).
End State.

(** ** Operations *)

Section Ops.
Context {B : BlkCipher}.
Abbreviation K := (M kstate).

(** [priv_set_key] *)
Definition priv_set_key (p : nat) (key_size : Z) (key : bytes) : K Z :=
  let! c := load p in
  if negb (key_size =? cc_key_size c) then ret (- EINVAL) else
  let c := upd_key (splice 0 (take (Z.to_nat key_size) key) (cc_key c)) c in
  match cc_cipher c with
  | None => oops NullDeref
  | Some t =>
      let '(rc, t) := blk_setkey t (take (Z.to_nat (cc_key_size c)) (cc_key c)) in
      store p (upd_cipher (Some t) c) ;;
      ret rc
  end.

(** [priv_set_iv] *)
Definition priv_set_iv (p : nat) (iv_size : Z) (iv : bytes) : K Z :=
  let! c := load p in
  if negb (iv_size =? cc_iv_size c) then ret (- EINVAL) else
  let c := upd_iv (splice 0 (take (Z.to_nat iv_size) iv) (cc_iv c)) c in
  match cc_cipher c with
  | None => oops NullDeref
  | Some t =>
      store p (upd_cipher (Some (blk_set_iv t (take (Z.to_nat (cc_iv_size c)) (cc_iv c)))) c) ;;
      ret 0
  end.

(** The temporary key 0, 1, 2, ... *)
Definition temp_key (n : nat) : bytes := u8 <$> seqZ 0 n.

(** [setup_crypto_ctx] *)
Definition setup_crypto_ctx (p : nat) (key_size iv_size dir : Z) : K Z :=
  let! a := kmalloc in                       (* crypto_alloc_blkcipher *)
  match a with
  | Some e => ret (Z.neg e)                  (* PTR_ERR(cctx->cipher) *)
  | None =>
      let! c := load p in
      store p (upd_cipher (Some tfm_fresh) c) ;;
      let! a := kmalloc in                   (* __get_free_page: the contents are never read before written *)
      match a with
      | Some _ => kfree ;; ret (- ENOMEM)    (* err: crypto_free_blkcipher *)
      | None =>
          let! c := load p in
          store p (upd_sizes key_size iv_size (u8 dir) (upd_pg (Some (zeros PAGE_SIZE)) c)) ;;
          let! rc := priv_set_key p key_size (temp_key (Z.to_nat key_size)) in
          if rc <? 0 then kfree ;; ret rc    (* err: crypto_free_blkcipher *)
          else ret 0
      end
  end.

(** [get_fresh_id] *)
Definition get_fresh_id : K Z := fun s =>
  let i := s32 (k_id s + 1) in Done (u32 i, set_id i s).

(** [make_crypto_ctx]: the status, and the context where [*result] was written. *)
Definition make_crypto_ctx (alg key_size dir : Z) : K (Z * option nat) :=
  if negb (priv_crypt_alg_valid alg) then ret (- EINVAL, None) else
  if negb (dir =? PRIV_CRYPT_DIR_ENC) && negb (dir =? PRIV_CRYPT_DIR_DEC) then ret (- EINVAL, None) else
  let! a := kmalloc in
  match a with
  | Some _ => ret (- ENOMEM, None)
  | None =>
      let! p := fresh in
      modify (fun s => set_ctxs (<[p := zero_ctx]> (k_ctxs s)) s) ;;
      (* switch (alg): only AES-CTR passes priv_crypt_alg_valid *)
      if negb (key_size =? 16) && negb (key_size =? 24) && negb (key_size =? 32)
      then free_ctx p ;; ret (- EINVAL, None) else
      let! rc := setup_crypto_ctx p key_size 16 (u8 dir) in
      if rc <? 0 then free_ctx p ;; ret (rc, None) else
      let! a := kmalloc in                   (* kex_buf *)
      match a with
      | Some _ => free_ctx p ;; ret (rc, None)
      | None =>
          let! i := get_fresh_id in
          let! c := load p in
          store p (upd_user false None (upd_id i (upd_kex_buf (Some (zeros MAX_KEX_MSG_LEN)) c))) ;;
          ret (s32 i, Some p)
      end
  end.

(** [destroy_crypto_ctx]: [sizeof( *cctx->key)] is one byte. *)
Definition destroy_crypto_ctx (p : nat) : K unit :=
  let! c := load p in
  kfree ;;                                   (* crypto_free_blkcipher *)
  kfree ;;                                   (* kex_buf *)
  kfree ;;                                   (* crypto_pg_mem *)
  store p (upd_key (splice 0 (zeros 1) (cc_key c)) (upd_cipher None c)) ;;
  free_ctx p.

(** [allow_encrypt], without PRIV_CRYPT_DEBUG *)
Definition allow_encrypt (c : priv_crypt_ctx) : bool := truthy (cc_activated c).

(** The while loop of [priv_crypt]: a page at a time through [crypto_pg_mem].
    The result is the status and the contents of [out_buf]. *)
Fixpoint priv_crypt_loop (fuel : nat) (p : nat) (out_buf in_buf : bytes) : K (Z * bytes) :=
  match fuel with
  | O => ret (0, out_buf)
  | S fuel' =>
      if (0 <? length in_buf)%nat then
        let! c := load p in
        let amt := Nat.min (length in_buf) PAGE_SIZE in
        match cc_pg_mem c, cc_cipher c with
        | Some pg, Some t =>
            let pg := splice 0 (take amt in_buf) pg in
            let '(rc, t, d) :=
              if cc_dir c =? PRIV_CRYPT_DIR_ENC then blk_encrypt t (take amt pg)
              else blk_decrypt t (take amt pg) in
            let pg := splice 0 d pg in
            store p (upd_pg (Some pg) (upd_cipher (Some t) c)) ;;
            if rc <? 0 then ret (rc, out_buf) else
            let! r := priv_crypt_loop fuel' p (drop amt out_buf) (drop amt in_buf) in
            ret (fst r, take amt pg ++ snd r)
        | _, _ => oops NullDeref
        end
      else ret (0, out_buf)
  end.

(** [priv_crypt]; every caller passes one buffer as input and output. *)
Definition priv_crypt (cctx : option nat) (out_buf in_buf : bytes) : K (Z * bytes) :=
  match cctx with
  | None => ret (- EINVAL, out_buf)
  | Some p =>
      let! c := load p in
      if negb (allow_encrypt c) then ret (- EINVAL, out_buf)
      else priv_crypt_loop (length in_buf) p out_buf in_buf
  end.

(** [priv_is_activated] *)
Definition priv_is_activated (cctx : option nat) : K Z :=
  match cctx with
  | None => ret 0
  | Some p => let! c := load p in ret (cc_activated c)
  end.

(** [priv_set_activated] *)
Definition priv_set_activated (cctx : option nat) (a : Z) : K unit :=
  match cctx with
  | None => ret tt
  | Some p => let! c := load p in store p (upd_activated a c)
  end.
End Ops.

(** ** Well-formed contexts *)

Section Facts.
Context {B : BlkCipher} {L : StreamCipher B}.
Abbreviation K := (M kstate).

(** A context as [make_crypto_ctx] builds it and every operation keeps it. *)
Record ctx_ok (c : priv_crypt_ctx) : Prop := {
  co_cipher : exists t, cc_cipher c = Some t /\ tfm_ok t;
  co_pg : exists pg, cc_pg_mem c = Some pg /\ length pg = PAGE_SIZE;
  co_kex : exists kb, cc_kex_buf c = Some kb /\ length kb = MAX_KEX_MSG_LEN;
  co_key : length (cc_key c) = MAX_KEY_LEN;
  co_key_size : cc_key_size c = 16 \/ cc_key_size c = 24 \/ cc_key_size c = 32;
  co_iv : length (cc_iv c) = MAX_IV_LEN;
  co_iv_size : cc_iv_size c = 16;
  co_dir : cc_dir c = PRIV_CRYPT_DIR_ENC \/ cc_dir c = PRIV_CRYPT_DIR_DEC;
  co_lock : cc_user_lock c = bool_decide (is_Some (cc_user_ref c));
}.

(** Replace one live context. *)
Definition put (p : nat) (c : priv_crypt_ctx) (s : kstate) : kstate :=
  set_ctxs (<[p := c]> (k_ctxs s)) s.

Lemma put_put p c c' s : put p c (put p c' s) = put p c s.
Proof. unfold put, set_ctxs. simpl. by rewrite insert_insert_eq. Qed.

Lemma put_lookup p c s : k_ctxs (put p c s) !! p = Some c.
Proof. apply lookup_insert_eq. Qed.

Lemma load_run p c s : k_ctxs s !! p = Some c -> load p s = Done (c, s).
Proof. intros H. unfold load. by rewrite H. Qed.

Lemma store_run p c c' s : k_ctxs s !! p = Some c -> store p c' s = Done (tt, put p c' s).
Proof. intros H. unfold store. by rewrite H. Qed.

(** ** Encryption *)

(** The bytes of [out] that went through the page last are still in it. *)
Definition page_holds (pg out : bytes) : Prop :=
  exists pre n, out = pre ++ take n pg /\ (0 < n <= PAGE_SIZE)%nat.

Lemma priv_crypt_loop_nil fuel p out_buf s :
  priv_crypt_loop fuel p out_buf [] s = Done ((0, out_buf), s).
Proof. by destruct fuel. Qed.

(** The page after a chunk is copied in and the result is copied back over it. *)
Lemma page_chunk (pg d d' : bytes) :
  length d' = length d -> (length d <= length pg)%nat ->
  take (length d) (splice 0 d pg) = d /\
  take (length d) (splice 0 d' (splice 0 d pg)) = d' /\
  length (splice 0 d' (splice 0 d pg)) = length pg.
Proof.
  intros Hd Hl. unfold splice. simpl. repeat split.
  - by rewrite take_app_length.
  - by rewrite <- Hd, take_app_length.
  - len.
Qed.

(** One iteration. *)
Lemma priv_crypt_loop_step fuel p out_buf in_buf s c t pg :
  k_ctxs s !! p = Some c -> cc_cipher c = Some t -> tfm_ok t ->
  cc_pg_mem c = Some pg -> length pg = PAGE_SIZE -> in_buf <> [] ->
  let amt := Nat.min (length in_buf) PAGE_SIZE in
  exists pg', length pg' = PAGE_SIZE /\ take amt pg' = stream_xor t (take amt in_buf) /\
  priv_crypt_loop (S fuel) p out_buf in_buf s
  = bind (priv_crypt_loop fuel p (drop amt out_buf) (drop amt in_buf))
      (fun r => ret (fst r, stream_xor t (take amt in_buf) ++ snd r))
      (put p (upd_pg (Some pg') (upd_cipher (Some (next t amt)) c)) s).
Proof.
  intros Hp Ht Hok Hpg Hl Hne amt.
  assert (Hamt : length (take amt in_buf) = amt) by (unfold amt; len).
  assert (Hx : length (stream_xor t (take amt in_buf)) = length (take amt in_buf)) by apply length_stream_xor.
  destruct (page_chunk pg (take amt in_buf) (stream_xor t (take amt in_buf))) as (E1 & E2 & E3);
    [done|unfold amt; len|].
  rewrite Hamt in *. eexists. split; [by rewrite E3|]. split; [exact E2|].
  cbn [priv_crypt_loop].
  replace (0 <? length in_buf)%nat with true by (destruct in_buf; [done|reflexivity]).
  unfold bind at 1. rewrite (load_run _ _ _ Hp), Hpg, Ht. fold amt. rewrite E1.
  rewrite encrypt_stream, decrypt_stream by done. fold (stream_xor t (take amt in_buf)). rewrite Hamt.
  replace (if cc_dir c =? PRIV_CRYPT_DIR_ENC then _ else _)
    with (0, next t amt, stream_xor t (take amt in_buf)) by (by destruct (_ =? _)).
  unfold bind at 1. rewrite (store_run _ _ _ _ Hp). cbn [Z.ltb Z.compare]. by rewrite E2.
Qed.

Lemma priv_crypt_loop_stream fuel p out_buf in_buf s c t pg :
  k_ctxs s !! p = Some c -> cc_cipher c = Some t -> tfm_ok t ->
  cc_pg_mem c = Some pg -> length pg = PAGE_SIZE -> in_buf <> [] ->
  (length in_buf <= fuel)%nat -> length out_buf = length in_buf ->
  exists pg', length pg' = PAGE_SIZE /\ page_holds pg' (stream_xor t in_buf) /\
    priv_crypt_loop fuel p out_buf in_buf s
    = Done ((0, stream_xor t in_buf),
            put p (upd_pg (Some pg') (upd_cipher (Some (next t (length in_buf))) c)) s).
Proof.
  revert out_buf in_buf s c t pg.
  induction fuel as [|fuel IH]; intros out_buf in_buf s c t pg Hp Ht Hok Hpg Hl Hne Hf Ho.
  { destruct in_buf; [done|simpl in Hf; lia]. }
  destruct (priv_crypt_loop_step fuel p out_buf in_buf s c t pg) as (pg1 & Hl1 & Ht1 & ->); try done.
  set (amt := Nat.min (length in_buf) PAGE_SIZE) in *.
  set (c1 := upd_pg (Some pg1) (upd_cipher (Some (next t amt)) c)).
  destruct (decide (drop amt in_buf = [])) as [Hnil|Hmore].
  - (* the last chunk *)
    assert (Hall : amt = length in_buf).
    { apply (f_equal length) in Hnil. rewrite length_drop in Hnil. simpl in Hnil. lia. }
    rewrite Hnil. unfold bind. rewrite priv_crypt_loop_nil. unfold ret. cbn [fst snd].
    rewrite (drop_ge out_buf), app_nil_r by lia.
    unfold c1. rewrite Hall in Ht1 |- *. rewrite (take_ge in_buf) in Ht1 |- * by lia.
    exists pg1. split; [done|]. split; [|done].
    exists [], (length in_buf). rewrite Ht1. split; [done|].
    split; [destruct in_buf; [done|simpl; lia]|unfold amt in Hall; lia].
  - assert (Hpage : amt = PAGE_SIZE).
    { assert (length (drop amt in_buf) <> 0%nat) by (by destruct (drop amt in_buf)). unfold amt in *. len. }
    destruct (IH (drop amt out_buf) (drop amt in_buf) (put p c1 s) c1 (next t amt) pg1)
      as (pg2 & Hl2 & (pre & n & Hpre & Hn) & Hrun); try done.
    + apply put_lookup.
    + by apply next_ok.
    + unfold PAGE_SIZE in Hpage. len.
    + len.
    + unfold bind. rewrite Hrun. unfold ret. cbn [fst snd].
      assert (Hsplit : stream_xor t (take amt in_buf) ++ stream_xor (next t amt) (drop amt in_buf) = stream_xor t in_buf).
      { rewrite <- (take_drop amt in_buf) at 3. rewrite (stream_xor_app _ _ _ 256); [|rewrite length_take; unfold PAGE_SIZE in Hpage; lia].
        do 2 f_equal. f_equal. rewrite length_take. lia. }
      exists pg2. split; [done|]. split.
      * exists (stream_xor t (take amt in_buf) ++ pre), n. by rewrite <- app_assoc, <- Hpre.
      * rewrite Hsplit, put_put. unfold c1, upd_pg, upd_cipher; simpl. do 5 f_equal.
        rewrite length_drop. rewrite Hpage in *. change PAGE_SIZE with (16 * 256)%nat in *. rewrite <- next_split. f_equal. unfold amt in *; lia.
Qed.

(** ** Keys and IVs *)

Definition key_sized (n : Z) : Prop := n = 16 \/ n = 24 \/ n = 32.

Lemma key_sized_len n (k : bytes) : key_sized n -> length k = Z.to_nat n -> aes_key_len (length k) = true.
Proof. by intros [-> | [-> | ->]] ->. Qed.

(** The context with a new key installed in the transform [t]. *)
Definition keyed (t : tfm) (key : bytes) (c : priv_crypt_ctx) : priv_crypt_ctx :=
  upd_cipher (Some (snd (blk_setkey t key))) (upd_key (splice 0 key (cc_key c)) c).

(** Installing a key of the context's size succeeds. *)
Lemma priv_set_key_run p c t s key :
  k_ctxs s !! p = Some c -> cc_cipher c = Some t -> key_sized (cc_key_size c) ->
  (Z.to_nat (cc_key_size c) <= length key)%nat ->
  priv_set_key p (cc_key_size c) key s
  = Done (0, put p (keyed t (take (Z.to_nat (cc_key_size c)) key) c) s).
Proof.
  intros Hp Ht Hs Hl. unfold priv_set_key, bind at 1. rewrite (load_run _ _ _ Hp), Z.eqb_refl. simpl.
  rewrite Ht. set (k := take (Z.to_nat (cc_key_size c)) key).
  assert (Hk : length k = Z.to_nat (cc_key_size c)) by (unfold k; len).
  assert (E : take (Z.to_nat (cc_key_size c)) (splice 0 k (cc_key c)) = k)
    by (unfold splice; rewrite <- Hk; simpl; apply take_app_length).
  rewrite E. pose proof (setkey_rc t k) as Hrc. rewrite (key_sized_len _ _ Hs Hk) in Hrc.
  unfold keyed. destruct (blk_setkey t k) as [rc t']. simpl in *. subst rc.
  unfold bind. by rewrite (store_run _ _ _ _ Hp).
Qed.

Lemma priv_set_key_size p c s n key :
  k_ctxs s !! p = Some c -> n <> cc_key_size c -> priv_set_key p n key s = Done (- EINVAL, s).
Proof.
  intros Hp Hn. unfold priv_set_key, bind. rewrite (load_run _ _ _ Hp).
  by apply Z.eqb_neq in Hn; rewrite Hn.
Qed.

(** The context with a new IV. *)
Definition ived (t : tfm) (iv : bytes) (c : priv_crypt_ctx) : priv_crypt_ctx :=
  upd_cipher (Some (blk_set_iv t iv)) (upd_iv (splice 0 iv (cc_iv c)) c).

Lemma priv_set_iv_run p c t s n iv :
  k_ctxs s !! p = Some c -> cc_cipher c = Some t -> (Z.to_nat n <= length iv)%nat ->
  priv_set_iv p n iv s
  = if n =? cc_iv_size c then Done (0, put p (ived t (take (Z.to_nat n) iv) c) s) else Done (- EINVAL, s).
Proof.
  intros Hp Ht Hl. unfold priv_set_iv, bind at 1. rewrite (load_run _ _ _ Hp).
  destruct (n =? cc_iv_size c) eqn:E; [|done]. apply Z.eqb_eq in E. simpl. rewrite Ht.
  set (k := take (Z.to_nat n) iv).
  assert (Hk : length k = Z.to_nat (cc_iv_size c)) by (unfold k; len).
  unfold bind. rewrite (store_run _ _ _ _ Hp). unfold ived, splice. simpl.
  by rewrite <- Hk, take_app_length.
Qed.

(** ** Creation and destruction *)

(** The part of the state the allocator and the random generator do not touch. *)
Definition core (s : kstate) :=
  (k_init s, k_list s, k_ctxs s, k_freed s, k_refs s, k_files s, k_id s, k_brk s).

Lemma kmalloc_cases s :
  (exists s', kmalloc s = Done (None, s') /\ core s' = core s /\ k_live s' = k_live s + 1) \/
  (exists e s', kmalloc s = Done (Some e, s') /\ core s' = core s /\ k_live s' = k_live s).
Proof. unfold kmalloc. destruct (k_mem s) as [|[e|] m]; eauto 10. Qed.

(** The context [make_crypto_ctx] builds. *)
Definition new_ctx (i key_size dir : Z) : priv_crypt_ctx :=
  let k := temp_key (Z.to_nat key_size) in
  PCC i 0 false None (Some (zeros MAX_KEX_MSG_LEN)) (Some (snd (blk_setkey tfm_fresh k)))
    (Some (zeros PAGE_SIZE)) 0 dir (splice 0 k (zeros MAX_KEY_LEN)) key_size (zeros MAX_IV_LEN) 16.

Lemma new_ctx_ok i key_size dir :
  key_sized key_size -> dir = PRIV_CRYPT_DIR_ENC \/ dir = PRIV_CRYPT_DIR_DEC ->
  ctx_ok (new_ctx i key_size dir).
Proof.
  intros Hk Hd. split; simpl; try done.
  - eexists. split; [done|]. apply setkey_ok, fresh_ok.
  - eexists. split; [done|]. apply length_replicate.
  - eexists. split; [done|]. apply length_replicate.
  - destruct Hk as [-> | [-> | ->]]; vm_compute; done.
Qed.

(** What [setup_crypto_ctx] leaves at [p]: a keyed transform and a zeroed page. *)
Definition set_up (key_size dir : Z) : priv_crypt_ctx :=
  upd_kex_buf None (new_ctx 0 key_size dir).

(** Everything but the contexts, as [make_crypto_ctx] finds it, and the contexts. *)
Definition at_ctxs (m : gmap nat priv_crypt_ctx) (s : kstate) :=
  (k_init s, k_list s, m, k_freed s, k_refs s, k_files s, k_id s, k_brk s).

Lemma core_ctxs s s' m : core s' = at_ctxs m s -> k_ctxs s' = m.
Proof. unfold core, at_ctxs. by intros [= ]. Qed.

Lemma core_put s s' p c m :
  core s' = at_ctxs m s -> core (put p c s') = at_ctxs (<[p := c]> m) s.
Proof. unfold core, at_ctxs, put. simpl. intros [= ]. congruence. Qed.

(** [setup_crypto_ctx] succeeds, or fails having kept no allocation. *)
Lemma setup_crypto_ctx_spec p s0 s m key_size dir :
  core s = at_ctxs (<[p := zero_ctx]> m) s0 -> key_sized key_size ->
  dir = PRIV_CRYPT_DIR_ENC \/ dir = PRIV_CRYPT_DIR_DEC ->
  wp total (setup_crypto_ctx p key_size 16 (u8 dir)) (fun rc s' =>
    (rc = 0 /\ core s' = at_ctxs (<[p := set_up key_size dir]> m) s0 /\ k_live s' = k_live s + 2) \/
    (rc < 0 /\ exists c, core s' = at_ctxs (<[p := c]> m) s0 /\ k_live s' = k_live s)) s.
Proof.
  intros Hc Hk Hd. unfold setup_crypto_ctx. wp_bind.
  destruct (kmalloc_cases s) as [(s1 & E1 & C1 & L1)|(e & s1 & E1 & C1 & L1)]; eapply wp_done; try done.
  2: { right. split; [lia|]. rewrite C1, Hc, L1. eauto. }
  rewrite Hc in C1.
  assert (P1 : k_ctxs s1 !! p = Some zero_ctx) by (rewrite (core_ctxs _ _ _ C1); apply lookup_insert_eq).
  wp_bind. eapply wp_done; [by apply load_run|].
  wp_bind. eapply wp_done; [by eapply store_run|].
  set (s2 := put p _ s1). wp_bind.
  pose proof (core_put _ _ p (upd_cipher (Some tfm_fresh) zero_ctx) _ C1) as C2. fold s2 in C2. rewrite insert_insert_eq in C2.
  destruct (kmalloc_cases s2) as [(s3 & E3 & C3 & L3)|(e & s3 & E3 & C3 & L3)]; eapply wp_done; try done; rewrite C2 in C3;
    change (k_live s2) with (k_live s1) in L3.
  2: { right. unfold wp, bind, kfree, modify. simpl. split; [done|]. eexists. split; [exact C3|]. lia. }
  assert (P3 : k_ctxs s3 !! p = Some (upd_cipher (Some tfm_fresh) zero_ctx))
    by (rewrite (core_ctxs _ _ _ C3); apply lookup_insert_eq).
  wp_bind. eapply wp_done; [by apply load_run|].
  wp_bind. eapply wp_done; [by eapply store_run|].
  set (c4 := upd_sizes _ _ _ _). set (s4 := put p c4 s3).
  wp_bind. eapply wp_done.
  { apply (priv_set_key_run p c4 tfm_fresh s4); [apply put_lookup|done|done|].
    destruct Hk as [-> | [-> | ->]]; vm_compute; lia. }
  left. split; [done|]. split; [|simpl; lia].
  erewrite core_put; [|by apply core_put]. rewrite !insert_insert_eq. f_equal. f_equal.
  unfold keyed, c4, set_up, new_ctx. simpl.
  destruct Hk as [-> | [-> | ->]], Hd as [-> | ->]; done.
Qed.

Lemma free_ctx_run p c s : k_ctxs s !! p = Some c ->
  free_ctx p s = Done (tt, set_live (k_live s - 1)
    (set_freed (<[p := c]> (k_freed s)) (set_ctxs (delete p (k_ctxs s)) s))).
Proof. intros Hp. unfold free_ctx, bind. by rewrite (load_run _ _ _ Hp). Qed.

(** The state after [make_crypto_ctx] failed: only the dead block is new. *)
Definition no_ctx (s s' : kstate) : Prop :=
  k_init s' = k_init s /\ k_list s' = k_list s /\ k_ctxs s' = k_ctxs s /\
  k_refs s' = k_refs s /\ k_files s' = k_files s /\ k_id s' = k_id s /\
  (k_freed s' = k_freed s /\ k_brk s' = k_brk s \/
   exists c, k_freed s' = <[k_brk s := c]> (k_freed s) /\ k_brk s' = S (k_brk s)).

(** What [make_crypto_ctx] returns. A context comes with the next id; a negative
    status with nothing allocated; and status 0 with no context (and with the
    transform and the page leaked) when the last allocation fails. *)
Definition made (alg key_size dir : Z) (s : kstate) (r : Z * option nat) (s' : kstate) : Prop :=
  match r with
  | (rc, Some p) =>
      let i := s32 (k_id s + 1) in
      alg = PRIV_CRYPT_ALG_AES_CTR /\ key_sized key_size /\
      (dir = PRIV_CRYPT_DIR_ENC \/ dir = PRIV_CRYPT_DIR_DEC) /\
      p = k_brk s /\ rc = s32 (u32 i) /\ k_live s' = k_live s + 4 /\
      core s' = (k_init s, k_list s, <[p := new_ctx (u32 i) key_size dir]> (k_ctxs s), k_freed s,
                 k_refs s, k_files s, i, S p)
  | (rc, None) =>
      no_ctx s s' /\ (rc < 0 /\ k_live s' = k_live s \/ rc = 0 /\ k_live s' = k_live s + 2)
  end.

Lemma core_no_ctx s s' : core s' = core s -> no_ctx s s'.
Proof. unfold core, no_ctx. intros [= -> -> -> -> -> -> -> ->]. naive_solver. Qed.

Lemma no_ctx_free s s1 c :
  k_ctxs s !! k_brk s = None ->
  core s1 = at_ctxs (<[k_brk s := c]> (k_ctxs s)) (set_brk (S (k_brk s)) s) ->
  wp total (free_ctx (k_brk s)) (fun _ s' => no_ctx s s' /\ k_live s' = k_live s1 - 1) s1.
Proof.
  intros Hb Hc. eapply wp_done.
  { apply free_ctx_run. rewrite (core_ctxs _ _ _ Hc). apply lookup_insert_eq. }
  split; [|done]. unfold no_ctx. simpl.
  unfold core, at_ctxs in Hc. simpl in Hc. injection Hc as -> -> -> -> -> -> -> ->.
  rewrite delete_insert_id by done. naive_solver.
Qed.

Lemma make_crypto_ctx_spec alg key_size dir s :
  k_ctxs s !! k_brk s = None ->
  wp total (make_crypto_ctx alg key_size dir) (made alg key_size dir s) s.
Proof.
  intros Hb. unfold make_crypto_ctx, priv_crypt_alg_valid.
  destruct (alg =? _) eqn:Ha; [apply Z.eqb_eq in Ha|split; [by apply core_no_ctx|by left]]. simpl.
  destruct (negb (dir =? PRIV_CRYPT_DIR_ENC) && _) eqn:Hd; [split; [by apply core_no_ctx|by left]|].
  assert (Hdir : dir = PRIV_CRYPT_DIR_ENC \/ dir = PRIV_CRYPT_DIR_DEC) by lia.
  wp_bind. destruct (kmalloc_cases s) as [(s1 & E1 & C1 & L1)|(e & s1 & E1 & C1 & L1)]; eapply wp_done; try done.
  2: { wp_pure. split; [by apply core_no_ctx|by left]. }
  wp_bind. unfold fresh. unfold wp at 1. wp_bind. unfold wp at 1, modify.
  set (s2 := set_ctxs _ _).
  assert (Hp : k_brk s1 = k_brk s) by (by unfold core in C1; injection C1). rewrite Hp.
  assert (C2 : core s2 = at_ctxs (<[k_brk s := zero_ctx]> (k_ctxs s)) (set_brk (S (k_brk s)) s)).
  { unfold core, s2 in *. simpl. injection C1 as -> -> -> -> -> -> -> ->. done. }
  destruct (negb (key_size =? 16) && _ && _) eqn:Hk.
  { wp_bind. wp_use no_ctx_free; [done|exact C2|]. intros _ s' [Hn Hl]. simpl in Hl.
    wp_pure. split; [done|]. left. split; [done|lia]. }
  assert (Hks : key_sized key_size) by (unfold key_sized; lia).
  wp_bind. wp_use setup_crypto_ctx_spec; [exact C2|done|done|].
  intros rc s3 [(-> & C3 & L3)|(Hrc & c & C3 & L3)]; simpl in L3.
  2: { replace (rc <? 0) with true by lia. wp_bind. wp_use no_ctx_free; [done|exact C3|].
       intros _ s' [Hn Hl]. wp_pure. split; [done|]. left. split; [done|lia]. }
  cbn [Z.ltb Z.compare]. wp_bind.
  destruct (kmalloc_cases s3) as [(s4 & E4 & C4 & L4)|(e & s4 & E4 & C4 & L4)]; eapply wp_done; try done; rewrite C3 in C4.
  2: { wp_bind. wp_use no_ctx_free; [done|exact C4|]. intros _ s' [Hn Hl]. wp_pure. split; [done|]. right. split; [done|lia]. }
  wp_bind. unfold get_fresh_id, wp at 1. wp_bind.
  eapply wp_done; [apply load_run; simpl; rewrite (core_ctxs _ _ _ C4); apply lookup_insert_eq|].
  wp_bind. eapply wp_done; [eapply store_run; simpl; rewrite (core_ctxs _ _ _ C4); apply lookup_insert_eq|].
  unfold core, at_ctxs in C4. simpl in C4. injection C4 as ? ? Hm ? ? ? Hid ?.
  wp_pure. simpl. repeat split; try done; rewrite ?Hid; try done; [lia|].
  unfold core. simpl. rewrite Hm, insert_insert_eq. unfold set_up, new_ctx, upd_user, upd_id, upd_kex_buf. simpl. congruence.
Qed.

(** The context as [destroy_crypto_ctx] leaves it in freed memory. *)
Definition wiped (c : priv_crypt_ctx) : priv_crypt_ctx :=
  upd_key (splice 0 (zeros 1) (cc_key c)) (upd_cipher None c).

Lemma destroy_crypto_ctx_run p c s : k_ctxs s !! p = Some c ->
  destroy_crypto_ctx p s = Done (tt, set_live (k_live s - 4)
    (set_freed (<[p := wiped c]> (k_freed s)) (set_ctxs (delete p (k_ctxs s)) s))).
Proof.
  intros Hp. unfold destroy_crypto_ctx, bind at 1. rewrite (load_run _ _ _ Hp).
  set (s1 := set_live (k_live s - 1 - 1 - 1) s).
  change (bind (store p (wiped c)) (fun _ => free_ctx p) s1 = Done (tt, set_live (k_live s - 4)
    (set_freed (<[p := wiped c]> (k_freed s)) (set_ctxs (delete p (k_ctxs s)) s)))).
  unfold bind at 1. rewrite (store_run p c) by done.
  rewrite (free_ctx_run p (wiped c)) by apply put_lookup.
  unfold put. cbn [k_ctxs set_ctxs]. rewrite delete_insert_eq.
  replace (k_live s - 4) with (k_live s - 1 - 1 - 1 - 1) by lia. done.
Qed.

(** ** Operations on a live context keep it well-formed *)

Lemma ctx_ok_crypt c t pg a :
  ctx_ok c -> tfm_ok t -> length pg = PAGE_SIZE ->
  ctx_ok (upd_activated a (upd_pg (Some pg) (upd_cipher (Some t) c))).
Proof. intros [] Ht Hp. split; simpl; eauto. Qed.

Lemma ctx_ok_kex c kb : ctx_ok c -> length kb = MAX_KEX_MSG_LEN -> ctx_ok (upd_kex_buf (Some kb) c).
Proof. intros [] Hl. split; simpl; eauto. Qed.

Lemma ctx_ok_keyed c t k :
  ctx_ok c -> tfm_ok t -> length k = Z.to_nat (cc_key_size c) -> ctx_ok (keyed t k c).
Proof.
  intros [] Ht Hl. split; simpl; eauto using setkey_ok.
  destruct co_key_size0 as [E | [E | E]]; rewrite E in Hl; unfold splice; simpl; len;
    rewrite co_key0; unfold MAX_KEY_LEN; lia.
Qed.

Lemma ctx_ok_ived c t iv :
  ctx_ok c -> tfm_ok t -> length iv = 16%nat -> bytes_ok iv -> ctx_ok (ived t iv c).
Proof.
  intros [] Ht Hl Hb. split; simpl; eauto using set_iv_ok.
  unfold splice; simpl; len. rewrite co_iv0; unfold MAX_IV_LEN; lia.
Qed.

Lemma ctx_ok_user c r : ctx_ok c -> ctx_ok (upd_user (bool_decide (is_Some r)) r c).
Proof. intros []. split; simpl; eauto. Qed.

(** The fields by which the driver finds and protects a context. *)
Definition same_id (c c' : priv_crypt_ctx) : Prop :=
  cc_id c' = cc_id c /\ cc_alloc_pid c' = cc_alloc_pid c /\ cc_user_ref c' = cc_user_ref c.

Lemma put_id p c s : k_ctxs s !! p = Some c -> put p c s = s.
Proof. intros Hp. unfold put, set_ctxs. rewrite insert_id by done. by destruct s. Qed.

(** [priv_crypt] on an activated context: the whole message under the key
    stream, whatever its length. *)
Lemma priv_crypt_run p c t data s :
  k_ctxs s !! p = Some c -> ctx_ok c -> cc_cipher c = Some t -> cc_activated c <> 0 ->
  exists pg, length pg = PAGE_SIZE /\ (data = [] \/ page_holds pg (stream_xor t data)) /\
    let c' := upd_pg (Some pg) (upd_cipher (Some (next t (length data))) c) in
    ctx_ok c' /\ priv_crypt (Some p) data data s = Done ((0, stream_xor t data), put p c' s).
Proof.
  intros Hp Hok Ht Ha. pose proof Hok as [(t' & Ht' & Htok) (pg & Hpg & Hl) _ _ _ _ _ _ _].
  simplify_eq. unfold priv_crypt, bind. rewrite (load_run _ _ _ Hp). unfold allow_encrypt, truthy.
  apply Z.eqb_neq in Ha. rewrite Ha. simpl.
  destruct (decide (data = [])) as [-> | Hne].
  - exists pg. split; [done|]. split; [by left|]. simpl. rewrite next_zero.
    assert (E : upd_pg (Some pg) (upd_cipher (Some t) c) = c) by (destruct c; unfold upd_pg, upd_cipher; simpl in *; congruence).
    rewrite E, put_id by done. split; [done|]. unfold stream_xor. by destruct (stream t 0).
  - destruct (priv_crypt_loop_stream (length data) p data data s c t pg) as (pg' & Hl' & Hh & ->); try done.
    exists pg'. split; [done|]. split; [by right|]. split; [|done].
    apply (ctx_ok_crypt c (next t (length data)) pg' (cc_activated c)) in Hok; [done|by apply next_ok|done].
Qed.

Lemma priv_crypt_off p c data s :
  k_ctxs s !! p = Some c -> cc_activated c = 0 -> priv_crypt (Some p) data data s = Done ((- EINVAL, data), s).
Proof.
  intros Hp Ha. unfold priv_crypt, bind. rewrite (load_run _ _ _ Hp). unfold allow_encrypt, truthy. by rewrite Ha.
Qed.
End Facts.

(** ** Properties *)

Section Properties.
Context {B : BlkCipher} {L : StreamCipher B}.

(** C4: encryption through a context.  A NULL or inactive context leaves the
    buffer and the kernel as they were and gives -EINVAL.  Otherwise the whole
    message, cut into pages by the code, is the message xor one contiguous run of
    the key stream, the transform moves on by exactly that run, and only the
    transform and the bounce page of this context change. *)
Theorem priv_crypt_correct p c t data s :
  k_ctxs s !! p = Some c -> ctx_ok c -> cc_cipher c = Some t ->
  priv_crypt None data data s = Done ((- EINVAL, data), s) /\
  (cc_activated c = 0 -> priv_crypt (Some p) data data s = Done ((- EINVAL, data), s)) /\
  (cc_activated c <> 0 -> exists pg,
     let c' := upd_pg (Some pg) (upd_cipher (Some (next t (length data))) c) in
     ctx_ok c' /\ priv_crypt (Some p) data data s = Done ((0, stream_xor t data), put p c' s)).
Proof.
  intros Hp Hok Ht. split; [done|]. split; [by apply priv_crypt_off|].
  intros Ha. destruct (priv_crypt_run p c t data s Hp Hok Ht Ha) as (pg & _ & _ & H). by exists pg.
Qed.

(** What destroying a context leaves in freed memory: [memset] clears one
    byte of the key ([sizeof( *key)]), so all the others are still there, and the
    bounce page keeps the last bytes that went through the context (plaintext,
    when it decrypts). *)
Theorem destroy_leaves_secrets p c t data s :
  k_ctxs s !! p = Some c -> ctx_ok c -> cc_cipher c = Some t -> cc_activated c <> 0 -> data <> [] ->
  exists s' d, (priv_crypt (Some p) data data ;; destroy_crypto_ctx p) s = Done (tt, s') /\
    k_ctxs s' = delete p (k_ctxs s) /\ k_freed s' !! p = Some d /\
    drop 1 (cc_key d) = drop 1 (cc_key c) /\
    exists pg, cc_pg_mem d = Some pg /\ page_holds pg (stream_xor t data).
Proof.
  intros Hp Hok Ht Ha Hne. destruct (priv_crypt_run p c t data s Hp Hok Ht Ha) as (pg & _ & [?|Hh] & _ & E); [done|].
  unfold bind. rewrite E. erewrite destroy_crypto_ctx_run by apply put_lookup.
  eexists _, _. split; [done|]. cbn. rewrite delete_insert_eq, lookup_insert_eq. split; [done|]. split; [done|].
  split; [done|by exists pg].
Qed.
End Properties.

(** A context over the toy cipher, ready for use. *)
Section Witness.
#[local] Existing Instance aes_cipher.

Definition wit_ctx : priv_crypt_ctx := upd_activated 1 (new_ctx 1 16 PRIV_CRYPT_DIR_DEC).
Definition wit_tfm : tfm := snd (blk_setkey tfm_fresh (temp_key 16)).
Definition wit_state : kstate :=
  KS true [0%nat] {[0%nat := wit_ctx]} ∅ ∅ ∅ 1 1 4 [] [].

Lemma wit_ctx_ok : ctx_ok wit_ctx.
Proof. destruct (new_ctx_ok 1 16 PRIV_CRYPT_DIR_DEC) as []; [by left|by right|]. by split. Qed.

Lemma priv_crypt_correct_witness :
  exists pg, priv_crypt (Some 0%nat) [1; 2; 3] [1; 2; 3] wit_state
  = Done ((0, stream_xor wit_tfm [1; 2; 3]),
          put 0 (upd_pg (Some pg) (upd_cipher (Some (next wit_tfm 3)) wit_ctx)) wit_state).
Proof.
  destruct (priv_crypt_correct 0 wit_ctx wit_tfm [1; 2; 3] wit_state) as (_ & _ & H);
    [reflexivity|apply wit_ctx_ok|reflexivity|].
  destruct H as (pg & _ & H); [discriminate|]. exists pg. exact H.
Defined.

Lemma destroy_leaves_secrets_witness :
  exists s' d, (priv_crypt (Some 0%nat) [1; 2; 3] [1; 2; 3] ;; destroy_crypto_ctx 0) wit_state = Done (tt, s') /\
    k_freed s' !! 0%nat = Some d /\ drop 1 (cc_key d) = drop 1 (cc_key wit_ctx).
Proof.
  destruct (destroy_leaves_secrets 0 wit_ctx wit_tfm [1; 2; 3] wit_state) as (s' & d & H1 & _ & H2 & H3 & _);
    [reflexivity|apply wit_ctx_ok|reflexivity|discriminate|discriminate|]. exists s', d. auto.
Defined.
End Witness.
