(* ===== verification/Kex.v ===== *)
(** * Key-exchange messages in the kernel

    linux-3.0/drivers/priv/kex.c and the operations table it calls
    ([struct dhm_kex_ops], include/linux/crypto_math.h), which the crypto_math
    module provides when it is loaded. *)

From S2P Require Import Prelude BlkCipher PrivCrypt.

Definition PRIV_CRYPT_KEX_PARAMS : Z := 1.
Definition PRIV_CRYPT_KEX_RESPONSE : Z := 2.
Definition PRIV_CRYPT_KEX_DEBUG : Z := 255.

Definition debug_msg_sz : nat := 256.

(** [struct dhm_kex_ops]: [respond] takes the room in the output buffer and the
    input message and gives the status, the number of bytes written and the
    bytes; [get_key] gives the status and the key. *)
Record dhm_kex_ops `{B : BlkCipher} := DhmKexOps {
  dhm_kex : Type;
  ko_init : M kstate (Z * option dhm_kex);
  ko_destroy : dhm_kex -> M kstate unit;
  ko_respond : dhm_kex -> Z -> bytes -> M kstate (Z * dhm_kex * Z * bytes);
  ko_get_key : dhm_kex -> Z -> M kstate (Z * bytes);
}.

Section Kex.
Context {B : BlkCipher}.
Abbreviation K := (M kstate).

(** The [PRIV_CRYPT_KEX_PARAMS] case up to [destroy:]: the status, [*out_sz] and
    the output message after its type byte. *)
Definition kex_params (ops : dhm_kex_ops) (kex : dhm_kex ops) (p : nat) (out_sz : Z) (in_msg : bytes)
  : K (Z * Z * bytes) :=
  let! r := ko_respond ops kex (out_sz - 1) in_msg in
  let '(rc, kex', out_sz, out) := r in
  if rc <? 0 then ko_destroy ops kex' ;; ret (rc, out_sz, out) else
  let out_sz := out_sz + 1 in
  let! c := load p in
  let! g := ko_get_key ops kex' (cc_key_size c) in
  let '(rc, key_buf) := g in
  if rc <? 0 then ko_destroy ops kex' ;; ret (rc, out_sz, out) else
  let! rc := priv_set_key p (cc_key_size c) key_buf in
  ko_destroy ops kex' ;;
  ret (rc, out_sz, out).

(** [process_kex_msg] on one buffer for input and output, as its caller uses it.
    [ops] is the result of [symbol_request]; when that fails, [symbol_put] of a
    symbol that is not there is a [BUG] (kernel/module.c).  The result is the
    status, the output size and the buffer. *)
Definition process_kex_msg (ops : option dhm_kex_ops) (p : nat) (out_sz : Z) (in_sz : nat) (buf : bytes)
  : K (Z * Z * bytes) :=
  if (in_sz <? 1)%nat then ret (-1, out_sz, buf) else
  let msg_type := default 0 (buf !! 0%nat) in
  if msg_type =? PRIV_CRYPT_KEX_PARAMS then
    match ops with
    | None => oops Bug
    | Some ops =>
        let! r := ko_init ops in
        match r with
        | (rc, None) => ret (rc, out_sz, buf)
        | (_, Some kex) =>
            let! r := kex_params ops kex p out_sz (slice 1 (in_sz - 1) buf) in
            let '(rc, out_sz, out) := r in
            let buf := splice 0 (PRIV_CRYPT_KEX_RESPONSE :: out) buf in
            ret (if rc <? 0 then rc else 0, out_sz, buf)
        end
    end
  else if msg_type =? PRIV_CRYPT_KEX_DEBUG then
    let msg := PRIV_CRYPT_KEX_DEBUG :: (u8 <$> seqZ 0 debug_msg_sz) in
    ret (0, Z.of_nat (1 + debug_msg_sz), splice 0 msg buf)
  else ret (-1, out_sz, buf).
End Kex.

(** ** What [process_kex_msg] relies on of the operations *)

(** They touch neither contexts nor references, fit the room they are given, and
    a key has the length asked for.  They may fault with [E]. *)
Class KexLaws `{B : BlkCipher} (E : fault -> Prop) (ops : dhm_kex_ops) : Prop := {
  kl_init : forall s, wp E (ko_init ops) (fun r s' =>
    core s' = core s /\ (snd r = None -> fst r < 0)) s;
  kl_destroy : forall kex s, wp E (ko_destroy ops kex) (fun _ s' => core s' = core s) s;
  kl_respond : forall kex n msg s, 0 <= n -> wp E (ko_respond ops kex n msg) (fun r s' =>
    let '(rc, _, sz, out) := r in
    core s' = core s /\ length out <= n /\ (0 <= rc -> 0 <= sz <= n)) s;
  kl_get_key : forall kex n s, 0 <= n -> wp E (ko_get_key ops kex n) (fun r s' =>
    core s' = core s /\ (0 <= fst r -> length (snd r) = Z.to_nat n)) s;
}.

Section KexFacts.
Context {B : BlkCipher} {L : StreamCipher B}.

Lemma core_lookup s s' p : core s' = core s -> k_ctxs s' !! p = k_ctxs s !! p.
Proof. unfold core. by intros [= _ _ -> _ _ _ _ _]. Qed.

Lemma core_put_eq s s' p c : core s' = core s -> core (put p c s') = core (put p c s).
Proof. unfold core, put. simpl. intros [= -> -> -> -> -> -> -> ->]. done. Qed.

(** The context after a message: the same context, perhaps with a new key. *)
Definition rekeyed (p : nat) (c : priv_crypt_ctx) (s s' : kstate) : Prop :=
  exists c', ctx_ok c' /\ same_id c c' /\ cc_activated c' = cc_activated c /\
    cc_kex_buf c' = cc_kex_buf c /\ core s' = core (put p c' s).

Lemma rekeyed_refl p c s s' :
  k_ctxs s !! p = Some c -> ctx_ok c -> core s' = core s -> rekeyed p c s s'.
Proof. intros Hp Hok Hc. exists c. rewrite put_id by done. unfold same_id. split_and!; auto. Qed.

Lemma kex_params_spec E ops `{HL : !KexLaws E ops} kex p c s out_sz msg :
  k_ctxs s !! p = Some c -> ctx_ok c -> 1 <= out_sz ->
  wp E (kex_params ops kex p out_sz msg) (fun r s' =>
    let '(rc, sz, out) := r in
    length out < out_sz /\ (0 <= rc -> 0 <= sz <= out_sz) /\ rekeyed p c s s') s.
Proof.
  intros Hp Hok Ho. unfold kex_params. wp_bind. wp_use kl_respond; [lia|].
  intros [[[rc kex'] sz] out] s1 (C1 & Hl & Hsz).
  assert (P1 : k_ctxs s1 !! p = Some c) by (by rewrite (core_lookup _ _ _ C1)).
  case_match.
  { wp_bind. wp_use kl_destroy. intros _ s2 C2. wp_pure. split; [lia|]. split; [lia|].
    apply rekeyed_refl; congruence. }
  wp_bind. eapply wp_done; [by apply load_run|].
  assert (Hk : key_sized (cc_key_size c)) by apply Hok.
  wp_bind. wp_use kl_get_key; [unfold key_sized in Hk; lia|]. intros [rc2 key] s2 [C2 Hkey]. simpl in Hkey.
  case_match.
  { wp_bind. wp_use kl_destroy. intros _ s3 C3. wp_pure. split; [lia|]. split; [lia|].
    apply rekeyed_refl; congruence. }
  destruct (co_cipher _ Hok) as (t & Ht & Htok).
  wp_bind. eapply wp_done.
  { apply priv_set_key_run with (t := t); try done; [by rewrite (core_lookup _ _ _ C2)|lia]. }
  wp_bind. wp_use kl_destroy. intros _ s3 C3. wp_pure. split; [lia|]. split; [lia|].
  eexists. split; [|split; [|split; [|split]]].
  5: { rewrite C3. apply core_put_eq. congruence. }
  all: try done. apply ctx_ok_keyed; [done..|len].
Qed.

(** A message leaves the buffer its size and the context well-formed; it faults
    only where the operations could not be loaded or fault themselves. *)
Lemma process_kex_msg_spec E ops p c s in_sz buf :
  (forall o, ops = Some o -> KexLaws E o) ->
  k_ctxs s !! p = Some c -> ctx_ok c -> length buf = MAX_KEX_MSG_LEN ->
  wp (fun f => ops = None /\ f = Bug \/ E f) (process_kex_msg ops p MAX_KEX_MSG_LEN in_sz buf) (fun r s' =>
    let '(rc, sz, buf') := r in
    length buf' = MAX_KEX_MSG_LEN /\ (0 <= rc -> 0 <= sz <= MAX_KEX_MSG_LEN) /\ rekeyed p c s s') s.
Proof.
  intros HL Hp Hok Hb. unfold process_kex_msg.
  assert (R : forall s', core s' = core s -> rekeyed p c s s') by (by intros; apply rekeyed_refl).
  case_match; [wp_pure; split; [done|split; [lia|by apply R]]|].
  case_match.
  - destruct ops as [ops|]; [|wp_pure; by left]. specialize (HL ops eq_refl).
    eapply wp_weaken with (E := E); [by right|]. wp_bind. wp_use kl_init. intros [rc [kex|]] s1 [C1 Hrc]; simpl in Hrc.
    2: { wp_pure. split; [done|]. split; [specialize (Hrc eq_refl); lia|by apply R]. }
    wp_bind. wp_use (kex_params_spec E ops kex p c); [by rewrite (core_lookup _ _ _ C1)|done|unfold MAX_KEX_MSG_LEN; lia|].
    intros [[rc2 sz] out] s2 (Ho & Hsz & c' & ? & ? & ? & ? & C2). wp_pure. split; [|split].
    + rewrite length_splice; [done|simpl; lia].
    + destruct (rc2 <? 0) eqn:Erc; lia.
    + exists c'. split_and!; try done. rewrite C2. by apply core_put_eq.
  - case_match; wp_pure.
    + split; [rewrite length_splice; [done|rewrite Hb; vm_compute; lia]|]. split; [vm_compute; split; intros; done|by apply R].
    + split; [done|]. split; [lia|by apply R].
Qed.
End KexFacts.
