(* ===== verification/CryptoMath.v ===== *)
(** * The crypto_math module

    linux-3.0/drivers/priv/crypto_math_drv.c: the operations table of the key exchange
    ([cm_dhm_kex_ops]) over the kernel's copy of PolarSSL, and the self test that the module
    runs when it is loaded.

    The table satisfies the interface [KexLaws] that the driver is verified against, for the
    faults of the big-number code; with memory to spare an exchange leaves the key that
    RFC 2246 derives from the shared number. *)

From Stdlib Require Import String Ascii.
From S2P Require Import Prelude Mpi MpiOps MpiDiv MpiExp Dhm MpiSafe Hash HashSpec Prf BlkCipher Ctr AesCipher PrivCrypt Kex.

(** ** The allocator of PolarSSL in the kernel: [malloc] is [kmalloc] *)

Section Memory.
Context {B : BlkCipher}.

#[export] Instance kernel_alloc : Alloc kstate := {|
  mm_alloc := let! a := kmalloc in ret (match a with None => true | Some _ => false end);
  mm_free := kfree;
|}.

(** Kernels whose allocations succeed *)
Definition ample_mem (s : kstate) : Prop := k_mem s = [].

#[export] Instance kernel_alloc_laws : AllocLaws kernel_alloc.
Proof.
  refine {| al_frame := fun s s' => core s' = core s; al_ok := ample_mem |}.
  - split; [by intros s|]. intros s1 s2 s3 E1 E2. congruence.
  - intros s. wp_bind. unfold wp at 1, kmalloc, ample_mem. destruct (k_mem s) as [|[e|] m] eqn:E; wp_pure; (split; [done|]; intros Hs; done).
  - intros s. unfold wp, mm_free, kernel_alloc, kfree, modify. by split.
Defined.
End Memory.

Section CryptoMath.
Context {B : BlkCipher}.
Abbreviation K := (M kstate).

(** [fuel] bounds the loops of PolarSSL; the rest are uninitialised buffers of the stack: a
    hash context, the buffer of [tls1_prf], [master], and the caller's key buffer. *)
Variables (fuel : nat) (junk : hash_ctx) (tmp master_ : bytes) (key_ : nat -> bytes).

(** [kernel_rng] *)
Definition kernel_rng (out_len : nat) : K (Z * bytes) :=
  let! b := get_random_bytes out_len in
  ret (0, u8 <$> b).

(** The kernel is built without 128-bit integers. *)
Definition longlong : bool := false.

(** ** The operations *)

(** [cm_dhm_init], [cm_dhm_destroy]; the latter does not free the numbers. *)
Definition cm_dhm_init : K (Z * option dhm_context) :=
  let! a := kmalloc in
  match a with
  | Some _ => ret (- ENOMEM, None)
  | None => ret (0, Some dhm_zero)
  end.
Definition cm_dhm_destroy (kex : dhm_context) : K unit := kfree.

(** [cm_dhm_respond]: the status, the context, [*out_buf_len] and the output *)
Definition cm_dhm_respond (kex : dhm_context) (out_buf_len : Z) (in_buf : bytes) : K (Z * dhm_context * Z * bytes) :=
  let! r := dhm_read_params in_buf in
  let '(rc, (ctx, _)) := r in
  if truthy rc then ret (-1, ctx, out_buf_len, []) else
  if out_buf_len <? dh_len ctx then ret (- ENOMEM, ctx, out_buf_len, []) else
  let! n := mpi_size (dh_P ctx) in
  let! r := dhm_make_public longlong fuel kernel_rng ctx n (dh_len ctx) in
  let '(rc, (ctx, out)) := r in
  if truthy rc then ret (-1, ctx, out_buf_len, out) else
  let! r := dhm_calc_secret_no_export longlong fuel ctx in
  let '(rc, ctx) := r in
  if rc <? 0 then ret (-1, ctx, out_buf_len, out) else
  ret (0, ctx, Z.of_nat (dh_len ctx), out).

(** "master secret" and "key expansion" *)
Definition chars (s : string) : bytes := (fun a => Z.of_N (N_of_ascii a)) <$> list_ascii_of_string s.

(** [calc_secret] *)
Definition calc_secret (key_len : nat) (ctx : dhm_context) : K (Z * bytes) :=
  let! pre_master_len := mpi_size (dh_K ctx) in
  let! a := kmalloc in
  match a with
  | Some _ => ret (-1, [])
  | None =>
      let! r := mpi_write_binary (dh_K ctx) pre_master_len in
      let '(rc, pre_master) := r in
      if rc <? 0 then kfree ;; ret (rc, []) else
      let random := seqZ 0 64 in
      let '(rc, master) := tls1_prf junk tmp pre_master (chars "master secret") random master_ in
      if rc <? 0 then kfree ;; ret (rc, []) else
      let random := drop 32 random ++ take 32 random in
      let '(rc, key) := tls1_prf junk tmp master (chars "key expansion") random (key_ key_len) in
      if rc <? 0 then kfree ;; ret (rc, []) else
      kfree ;; ret (0, key)
  end.

(** [cm_dhm_get_key] *)
Definition cm_dhm_get_key (kex : dhm_context) (key_len : Z) : K (Z * bytes) :=
  let! r := calc_secret (Z.to_nat key_len) kex in
  let '(rc, key) := r in
  ret (if rc <? 0 then -1 else 0, key).

(** [cm_dhm_kex_ops] *)
Definition cm_dhm_kex_ops : dhm_kex_ops := {|
  dhm_kex := dhm_context;
  ko_init := cm_dhm_init;
  ko_destroy := cm_dhm_destroy;
  ko_respond := cm_dhm_respond;
  ko_get_key := cm_dhm_get_key;
|}.

(** ** The self test *)

Definition dhm_test_P : bytes := chars
  ("E4004C1F94182000103D883A448B3F802CE4B44A83301270002C20D0321CFD00" ++
   "11CCEF784C26A400F43DFB901BCA7538F2C6B176001CF5A0FD16D2C48B1D0C1C" ++
   "F6AC8E1DA6BCC3B4E1F96B0564965300FFA1D0B601EB2800F489AA512C4B248C" ++
   "01F76949A60BB7F00A40B1EAB64BDD48E8A700D60B7F1200FA8E77B0A979DABF")%string.
Definition dhm_test_G : bytes := chars "4".

(** [dhm_import_public] *)
Definition dhm_import_public (ctx : dhm_context) (P G : bytes) : K (Z * dhm_context) := read_group ctx P G.

(** [max_dhm_buf_size] *)
Definition max_dhm_buf_size (ctx : dhm_context) : K nat :=
  let! n := mpi_size (dh_P ctx) in ret (3 * (n + 2) + 2)%nat.

(** [make_params]; the source of randomness is an argument. *)
Definition make_params (rng : nat -> K (Z * bytes)) (ctx : dhm_context) : K (Z * (dhm_context * bytes)) :=
  let! n := mpi_size (dh_P ctx) in
  let! r := dhm_make_params longlong fuel rng ctx n in
  let '(rc, (ctx, msg)) := r in
  if truthy rc then ret (rc, (ctx, msg)) else
  ret (0, (ctx, msg ++ [0; 0])).

(** The two parties of [dhm_test], from [make_params] on: its status.  A successful test
    only prints the secret. *)
Definition dhm_test_run (rng : nat -> K (Z * bytes)) (party1 : dhm_context) : K Z :=
  let! r := make_params rng party1 in
  let '(rc, (party1, msg)) := r in
  if truthy rc then ret (-1) else
  let msg_sz := length msg in
  let! r := dhm_read_params msg in
  let '(rc, (party2, _)) := r in
  if truthy rc then ret (-1) else
  let! n := mpi_size (dh_P party2) in
  let! r := dhm_make_public longlong fuel rng party2 n (dh_len party2) in
  let '(rc, (party2, msg)) := r in
  if truthy rc then ret (-1) else
  let! r := dhm_read_public party1 msg in
  let '(rc, party1) := r in
  if truthy rc then ret (-1) else
  let! r := dhm_calc_secret longlong fuel party1 msg_sz in
  let '(rc, (party1, secret)) := r in
  if truthy rc then ret (-1) else
  let msg_sz := length secret in
  let! r := dhm_calc_secret longlong fuel party2 msg_sz in
  let '(rc, (party2, secret)) := r in
  if truthy rc then ret (-1) else
  if truthy (mpi_cmp_abs (dh_K party1) (dh_K party2)) then ret (-1) else
  ret 0.

(** [dhm_test] *)
Definition dhm_test (rng : nat -> K (Z * bytes)) (P G : bytes) : K Z :=
  let! r := dhm_import_public dhm_zero P G in
  let '(rc, party1) := r in
  if rc <? 0 then ret rc else
  let! _ := max_dhm_buf_size party1 in
  let! a := kmalloc in
  match a with
  | Some _ => ret (- ENOMEM)
  | None =>
      let! rc := dhm_test_run rng party1 in
      kfree ;; ret rc
  end.
End CryptoMath.

(** ** The interface of the driver *)

Section Laws.
Context {B : BlkCipher}.
Variables (fuel : nat) (junk : hash_ctx) (tmp master_ : bytes) (key_ : nat -> bytes).
Hypothesis Htmp : length tmp = 128%nat.
Hypothesis Hkey : forall n, length (key_ n) = n.

Lemma tame_kernel {A} (m : M kstate A) : tame m <-> forall s, wp confined m (fun _ s' => core s' = core s) s.
Proof. done. Qed.

Lemma kmalloc_tame : tame kmalloc.
Proof. intros s. unfold wp, kmalloc. by destruct (k_mem s) as [|[e|] m]. Qed.
Lemma kfree_tame : tame kfree.
Proof. exact (tame_free (AL := kernel_alloc)). Qed.
Lemma kernel_rng_tame n : tame (kernel_rng n).
Proof. intros s. done. Qed.
Hint Resolve kmalloc_tame kfree_tame kernel_rng_tame : tame.

Lemma cm_dhm_respond_tamed kex n msg : 0 <= n ->
  tamed (fun r => let '(rc, _, sz, out) := r in length out <= n /\ (0 <= rc -> 0 <= sz <= n)) (cm_dhm_respond fuel kex n msg).
Proof.
  intros Hn. unfold cm_dhm_respond. apply tamed_after; [tame|]. intros [rc [c rest]].
  destruct (truthy rc); [apply tamed_ret; cbn; lia|]. destruct (Z.ltb_spec n (dh_len c)); [apply tamed_ret; cbn; lia|].
  apply tamed_after; [tame|]. intros k. eapply tamed_bind; [apply dhm_make_public_tamed; tame|]. intros [rc1 [c1 out]] [E1 Lo].
  cbn [fst snd] in *. destruct (truthy rc1); [apply tamed_ret; lia|]. eapply tamed_bind; [apply dhm_calc_secret_no_export_tamed|].
  intros [rc2 c2] E2. cbn [snd] in E2. destruct (rc2 <? 0); apply tamed_ret; lia.
Qed.

Lemma cm_dhm_get_key_tamed kex n : 0 <= n ->
  tamed (fun r => 0 <= fst r -> length (snd r) = Z.to_nat n) (cm_dhm_get_key junk tmp master_ key_ kex n).
Proof.
  intros Hn. unfold cm_dhm_get_key. eapply (tamed_bind (fun r => 0 <= fst r -> length (snd r) = Z.to_nat n)).
  2: { intros [rc key] H. apply tamed_ret. cbn [fst snd] in *. destruct (Z.ltb_spec rc 0); [lia|auto]. }
  unfold calc_secret. apply tamed_after; [tame|]. intros k. apply tamed_after; [tame|]. intros [e|]; [apply tamed_ret; cbn; lia|].
  apply tamed_after; [tame|]. intros [rc pm]. destruct (Z.ltb_spec rc 0); [apply tamed_after; [tame|]; intros _; apply tamed_ret; cbn; lia|].
  destruct (tls1_prf_length junk tmp pm (chars "master secret") (seqZ 0 64) master_ Htmp ltac:(vm_compute; lia)) as (mk & E1 & _). rewrite E1.
  destruct (tls1_prf_length junk tmp mk (chars "key expansion") (drop 32 (seqZ 0 64) ++ take 32 (seqZ 0 64)) (key_ (Z.to_nat n)) Htmp ltac:(vm_compute; lia)) as (key & E2 & L2).
  cbv zeta beta iota. rewrite E2. cbn [Z.ltb Z.compare]. apply tamed_after; [tame|]. intros _. apply tamed_ret. cbn [fst snd]. intros _. by rewrite L2, Hkey.
Qed.

#[export] Instance cm_dhm_laws : KexLaws confined (cm_dhm_kex_ops fuel junk tmp master_ key_).
Proof.
  split; cbn [cm_dhm_kex_ops ko_init ko_destroy ko_respond ko_get_key dhm_kex].
  - intros s. unfold cm_dhm_init. wp_bind. eapply wp_mono; [apply kmalloc_tame|].
    intros [e|] s1 F; wp_pure; by split.
  - intros kex. apply kfree_tame.
  - intros kex n msg s Hn. eapply wp_mono; [by apply cm_dhm_respond_tamed|]. intros [[[rc k] sz] out] s' [F H]. by split.
  - intros kex n s Hn. by apply cm_dhm_get_key_tamed.
Qed.
End Laws.

(** ** An exchange with memory to spare *)

(** The key of RFC 2246 for a pre-master secret, with the fixed "random" numbers *)
Definition derived (key_len : nat) (pre_master : bytes) : bytes :=
  let random := seqZ 0 64 in
  PRF (PRF pre_master (chars "master secret") random 48) (chars "key expansion") (drop 32 random ++ take 32 random) key_len.

Section Memory.
Context {B : BlkCipher}.

Lemma kmalloc_fine {C} (Q : C -> Prop) (k : option positive -> M kstate C) : fine Q (k None) -> fine Q (let! a := kmalloc in k a).
Proof.
  intros Hk s Hs. wp_bind. unfold wp at 1, kmalloc. change (k_mem s = []) in Hs. rewrite Hs.
  assert (Hs' : al_ok (set_live (k_live s + 1) s)) by exact Hs. eapply wp_mono; [apply (Hk _ Hs')|]. intros a s' (F & O & Ha). split; [exact F|done].
Qed.

Lemma kfree_fine : fine (fun _ => True) kfree.
Proof. apply calm_fine, calm_true, (al_free (AllocLaws := kernel_alloc_laws)). Qed.

Lemma kernel_rng_ok : rng_ok (fun _ _ => True) kernel_rng.
Proof.
  intros n s Hs. unfold wp, kernel_rng, get_random_bytes, bind, ret. split; [done|]. split; [done|]. cbn [fst snd].
  split; [done|]. split; [|split; [|done]].
  - rewrite length_fmap, length_take, length_app, length_zeros. lia.
  - apply Forall_fmap, Forall_true. intros b. apply byte_u8.
Qed.

End Memory.

Section Key.
Context {B : BlkCipher}.
Variables (junk : hash_ctx) (tmp master_ : bytes) (key_ : nat -> bytes).
Hypothesis Hjunk : length (h_buffer junk) = 64%nat.
Hypothesis Htmp : length tmp = 128%nat.
Hypothesis Hmaster : length master_ = 48%nat.
Hypothesis Hkey : forall n, length (key_ n) = n.

Lemma cm_dhm_get_key_fine kex (n : Z) k : num k (dh_K kex) -> Z.of_nat (zbytes k) < 2 ^ 32 ->
  fine (fun r => r = (0, derived (Z.to_nat n) (be_bytes (zbytes k) k))) (cm_dhm_get_key junk tmp master_ key_ kex n).
Proof.
  intros Hk Hz. unfold cm_dhm_get_key. eapply (fine_bind (fun r => r = (0, derived (Z.to_nat n) (be_bytes (zbytes k) k)))); [|intros r ->; by apply fine_ret].
  unfold calc_secret. eapply fine_bind; [by apply (mpi_size_fine k)|]. intros ? ->. apply kmalloc_fine.
  eapply fine_bind; [by apply (mpi_write_binary_fine k)|]. intros [rc pm] [E Ep]. cbn [fst snd] in *. subst rc pm. cbn [Z.ltb Z.compare].
  assert (Hrnd : bytes_ok (seqZ 0 64)) by (by apply bytes_ok_check).
  rewrite tls1_prf_run, Hmaster; [|done|done|apply bytes_ok_be_bytes|by rewrite length_be_bytes|by apply bytes_ok_check|done|vm_compute; lia].
  cbn [Z.ltb Z.compare]. rewrite tls1_prf_run, Hkey; [|done|done|apply bytes_ok_PRF|rewrite length_PRF; lia|by apply bytes_ok_check|by apply bytes_ok_check|vm_compute; lia].
  cbn [Z.ltb Z.compare]. eapply fine_bind; [apply kfree_fine|]. intros _ _. by apply fine_ret.
Qed.
End Key.

Section Exchange.
Context {B : BlkCipher}.
Variables (fuel : nat) (p g : Z).
Hypothesis Hmod : modulus longlong fuel p.
Hypothesis Hg : 0 <= g.
Hypothesis Hgs : Z.of_nat (zbytes g) <= 8 * 4998.

(** The answer to a message of the other side, and what the context has afterwards *)
Definition answers (gx : Z) (r : Z * dhm_context * Z * bytes) : Prop :=
  let '(rc, kex, sz, out) := r in
  exists y, 0 <= y < p /\
    if range_ok p (g ^ y mod p)
    then rc = 0 /\ out = be_bytes (zbytes p) (g ^ y mod p) /\ sz = zbytes p /\ num (gx ^ y mod p) (dh_K kex)
    else rc = -1.

Lemma cm_dhm_respond_fine kex n gx : Z.of_nat (zbytes p) <= n -> range_ok p gx = true ->
  fine (answers gx) (cm_dhm_respond fuel kex n (exported p ++ exported g ++ exported gx ++ [0; 0])).
Proof.
  intros Hn Hgx. unfold cm_dhm_respond. eapply fine_bind; [by apply (dhm_read_params_fine longlong fuel p g)|].
  intros [rc [c rest]] [E (Hc & HGY & HGs & HX & Hl)]. cbn [fst snd] in *. subst rc. change (truthy 0) with false. cbn iota.
  rewrite Hl. replace (n <? zbytes p) with false by lia. eapply fine_bind; [apply (mpi_size_fine p), Hc|]. intros ? ->.
  eapply fine_bind; [apply (dhm_make_public_fine longlong fuel _ kernel_rng p g Hmod kernel_rng_ok); [done|rewrite HX; cbn; lia|done]|].
  intros [rc [c1 out]] (y & _ & Hy & EY & El & Hr). cbn [fst snd] in *.
  assert (Ry : 0 <= y < p) by apply Hy.
  destruct (range_ok p (g ^ y mod p)) eqn:ER; [|subst rc; apply fine_ret; exists y; by rewrite ER]. destruct Hr as [-> ->].
  change (truthy 0) with false. cbn iota.
  eapply fine_bind; [apply (dhm_calc_secret_no_export_fine longlong fuel p g Hmod y gx); [done|by rewrite EY..|done]|].
  intros [rc c2] [E (Hy2 & HK & El2)]. cbn [fst snd] in *. subst rc. apply fine_ret. exists y.
  rewrite ER. split_and!; try done; lia.
Qed.

(** ** The self test *)

Section Test.
Variables (V : nat -> Z -> Prop) (rng : nat -> M kstate (Z * bytes)).
Hypothesis Hrng : rng_ok V rng.

Lemma make_params_fine c : params p g c -> dh_X c = mpi_zeroed ->
  fine (fun r => exists x, drawn V p x /\ private p g x (fst (snd r)) /\ dh_GY (fst (snd r)) = dh_GY c /\
    if range_ok p (g ^ x mod p)
    then fst r = 0 /\ dh_len (fst (snd r)) = zbytes p /\ snd (snd r) = exported p ++ exported g ++ exported (g ^ x mod p) ++ [0; 0]
    else fst r = POLARSSL_ERR_DHM_BAD_INPUT_DATA /\ snd (snd r) = []) (make_params fuel rng c).
Proof.
  intros Hc HX. unfold make_params. eapply fine_bind; [apply (mpi_size_fine p), Hc|]. intros ? ->.
  eapply fine_bind; [apply (dhm_make_params_fine longlong fuel V rng p g Hmod Hrng); [done|rewrite HX; cbn; lia]|].
  intros [rc [c1 msg]] (x & Dx & Hx & EY & Hr). cbn [fst snd] in *.
  destruct (range_ok p (g ^ x mod p)) eqn:ER.
  - destruct Hr as (-> & El & ->). apply fine_ret. exists x. rewrite ER, <- !app_assoc. by split_and!.
  - destruct Hr as [-> ->]. apply fine_ret. exists x. by rewrite ER.
Qed.

Variables (Ps Gs : bytes).
Hypothesis HPs : hex_value Ps = Some p.
Hypothesis HGs : hex_value Gs = Some g.
Hypothesis HPl : Z.of_nat (length Ps) <= 16 * 4998.
Hypothesis HGl : Z.of_nat (length Gs) <= 16 * 4998.

(** The outcome of the test for the private numbers [x] and [y] *)
Definition test_passes (x y : Z) : bool :=
  range_ok p (g ^ x mod p) && range_ok p (g ^ y mod p) && (zbytes p <=? zbytes ((g ^ x mod p) ^ y mod p))%nat.

Lemma dhm_test_run_fine c : params p g c -> dh_X c = mpi_zeroed -> dh_GY c = mpi_zeroed ->
  fine (fun rc => exists x y, drawn V p x /\ drawn V p y /\ 0 <= x < p /\ 0 <= y < p /\ rc = if test_passes x y then 0 else -1) (dhm_test_run fuel rng c).
Proof.
  intros Hc HX HY0. pose proof (mo_p _ _ _ Hmod) as Hp. unfold dhm_test_run, test_passes.
  eapply fine_bind; [by apply make_params_fine|]. intros [rc [c1 msg]] (x & Dx & Hx & EY & Hr). cbn [fst snd] in *.
  pose proof (pv_range _ _ _ _ Hx) as Rx.
  destruct (range_ok p (g ^ x mod p)) eqn:ER; [|destruct Hr as [-> _]; apply fine_ret; exists x, x; by rewrite ER].
  destruct Hr as (-> & El1 & ->). change (truthy 0) with false. cbn iota.
  eapply fine_bind; [by apply (dhm_read_params_fine longlong fuel p g Hmod)|].
  intros [rc [c2 rest]] [E (Hc2 & HGY & HGYs & HX2 & Hl2)]. cbn [fst snd] in *. subst rc. change (truthy 0) with false. cbn iota.
  eapply fine_bind; [apply (mpi_size_fine p), Hc2|]. intros ? ->. rewrite Hl2.
  eapply fine_bind; [apply (dhm_make_public_fine longlong fuel V rng p g Hmod Hrng); [done|rewrite HX2; cbn; lia|done]|].
  intros [rc [c3 out]] (y & Dy & Hy & EY3 & El3 & Hr). cbn [fst snd] in *. pose proof (pv_range _ _ _ _ Hy) as Ry.
  destruct (range_ok p (g ^ y mod p)) eqn:ER3; [|subst rc; apply fine_ret; exists x, y; by rewrite ER, ER3].
  destruct Hr as [-> ->]. change (truthy 0) with false. cbn iota.
  eapply fine_bind; [apply (dhm_read_public_fine longlong fuel p g Hmod x); [done|done|done|by rewrite EY, HY0]|].
  intros [rc c4] [E (Hx4 & HY4 & HYs4 & El4)]. cbn [fst snd] in *. subst rc. change (truthy 0) with false. cbn iota.
  eapply fine_bind; [by apply (dhm_calc_secret_fine longlong fuel p g Hmod x (g ^ y mod p))|]. intros [rc [c5 sec]] Hr. cbn [fst snd] in *.
  replace (_ <? zbytes p)%nat with false in Hr
    by (symmetry; apply Nat.ltb_ge; unfold exported; rewrite !length_app, !length_be_bytes; lia).
  destruct Hr as (-> & HK5 & ->). change (truthy 0) with false. cbn iota. rewrite length_be_bytes.
  rewrite <- (dh_shared p g x y) in * by lia. set (k := (g ^ x mod p) ^ y mod p) in *.
  eapply fine_bind; [apply (dhm_calc_secret_fine longlong fuel p g Hmod y (g ^ x mod p)); [done|by rewrite EY3..|done|done]|].
  intros [rc [c6 sec']] Hr. cbn [fst snd] in *. fold k in Hr.
  destruct (zbytes k <? zbytes p)%nat eqn:El.
  { subst rc. apply fine_ret. exists x, y. rewrite ER, ER3. fold k. by rewrite Nat.leb_antisym, El. }
  destruct Hr as (-> & HK6 & ->). change (truthy 0) with false. cbn iota.
  destruct HK5 as (_ & _ & O5 & V5), HK6 as (_ & _ & O6 & V6). rewrite mpi_cmp_abs_spec, V5, V6, Z.sub_diag by done.
  apply fine_ret. exists x, y. rewrite ER, ER3. fold k. by rewrite Nat.leb_antisym, El.
Qed.

Lemma dhm_test_fine : fine (fun rc => exists x y, drawn V p x /\ drawn V p y /\ 0 <= x < p /\ 0 <= y < p /\ rc = if test_passes x y then 0 else -1) (dhm_test fuel rng Ps Gs).
Proof.
  unfold dhm_test. eapply fine_bind; [by apply (read_group_fine p g)|]. intros [rc c] [E (Hc & HX & HY)]. cbn [fst snd] in *. subst rc.
  cbn [Z.ltb Z.compare]. apply (fine_bind (fun _ => True)).
  { unfold max_dhm_buf_size. eapply fine_bind; [apply (mpi_size_fine p), Hc|]. intros ? ->. by apply fine_ret. }
  intros _ _. apply kmalloc_fine. eapply fine_bind; [by apply dhm_test_run_fine|]. intros rc Hr.
  eapply fine_bind; [apply kfree_fine|]. intros _ _. by apply fine_ret.
Qed.
End Test.
End Exchange.

(** ** Running out of memory *)

Section NoMemory.
Context {B : BlkCipher}.

Lemma dhm_make_X_hangs rng fuel c x_size e m (s : kstate) :
  dh_X c = mpi_zeroed -> k_mem s = Some e :: m -> dhm_make_X longlong fuel rng c x_size s = Oops Hang.
Proof.
  intros HX Hm. unfold dhm_make_X. rewrite HX.
  assert (E : exists rc s', mpi_fill_random rng mpi_zeroed (x_size / 8 + 1) s = Done ((rc, mpi_zeroed), s')).
  { unfold mpi_fill_random, mpi_grow. destruct (POLARSSL_MPI_MAX_LIMBS <? _); [by eexists _, _|].
    replace (length (mp_p mpi_zeroed) <? _)%nat with true by (symmetry; apply Nat.ltb_lt; cbn; lia).
    unfold chk, bind, mm_alloc, kernel_alloc, bind, kmalloc. rewrite Hm. by eexists _, _. }
  destruct E as (rc & s' & E). erewrite bind_done by exact E. unfold bind. by rewrite shrink_X_hangs.
Qed.
End NoMemory.


(** The self test of the module, with memory to spare and random numbers that do not fail,
    returns; for the private numbers [x] and [y] that were drawn it reports success exactly
    if both public numbers are in range and the shared number is as long as the modulus.
    (The two sides always agree on the number; a shorter one is reported as an error because
    the second secret is given the size of the first as its room.) *)
Theorem dhm_test_exact {B : BlkCipher} fuel V rng Ps Gs p g (s : kstate) :
  modulus longlong fuel p -> 0 <= g -> Z.of_nat (zbytes g) <= 8 * 4998 -> rng_ok V rng ->
  hex_value Ps = Some p -> hex_value Gs = Some g -> Z.of_nat (length Ps) <= 16 * 4998 -> Z.of_nat (length Gs) <= 16 * 4998 ->
  ample_mem s ->
  wp total (dhm_test fuel rng Ps Gs) (fun rc s' => core s' = core s /\
    exists x y, drawn V p x /\ drawn V p y /\ (g ^ x mod p) ^ y mod p = (g ^ y mod p) ^ x mod p /\
      rc = if range_ok p (g ^ x mod p) && range_ok p (g ^ y mod p) && (zbytes p <=? zbytes ((g ^ x mod p) ^ y mod p))%nat
           then 0 else -1) s.
Proof.
  intros Hmod Hg Hgs Hr HP HG HPl HGl Hs. pose proof (mo_p _ _ _ Hmod) as Hp.
  eapply wp_mono; [by apply (dhm_test_fine fuel p g) with (V := V)|].
  intros rc s' (F & _ & x & y & Dx & Dy & Rx & Ry & E). split; [exact F|]. exists x, y. split_and!; try done. apply dh_shared; lia.
Qed.

(** [max_dhm_buf_size] is enough: for a generator that is not larger than the modulus, the
    message of [make_params] with its two bytes of suffix fits the buffer that [dhm_test] and
    the library size with it, whatever the random numbers. *)
Theorem make_params_fits {B : BlkCipher} fuel V rng p g c (s : kstate) :
  modulus longlong fuel p -> 0 <= g <= p -> rng_ok V rng -> params p g c -> dh_X c = mpi_zeroed -> ample_mem s ->
  wp total (let! n := max_dhm_buf_size c in let! r := make_params fuel rng c in ret (n, r)) (fun r _ =>
    let '(n, (rc, (_, msg))) := r in (length msg <= n)%nat /\ (rc = 0 \/ rc = POLARSSL_ERR_DHM_BAD_INPUT_DATA)) s.
Proof.
  intros Hmod Hg Hr Hc HX Hs. pose proof (mo_p _ _ _ Hmod) as Hp.
  eapply wp_mono; [apply (fine_bind (fun n => n = (3 * (zbytes p + 2) + 2)%nat) (fun r : nat * (Z * (dhm_context * bytes)) =>
    (length (snd (snd (snd r))) <= fst r)%nat /\ (fst (snd r) = 0 \/ fst (snd r) = POLARSSL_ERR_DHM_BAD_INPUT_DATA)))|].
  - unfold max_dhm_buf_size. eapply fine_bind; [apply (mpi_size_fine p), Hc|]. intros ? ->. by apply fine_ret.
  - intros n ->. eapply fine_bind; [apply (make_params_fine fuel p g) with (V := V); try done; try lia|]. intros [rc [c' msg]] (x & _ & _ & _ & H).
    apply fine_ret. cbn [fst snd] in *. destruct (range_ok p (g ^ x mod p)); [|destruct H as [-> ->]; cbn; split; [lia|by right]].
    destruct H as (-> & _ & ->). split; [|by left]. unfold exported. rewrite !length_app, !length_be_bytes. cbn [length].
    assert (zbytes g <= zbytes p)%nat by (apply zbytes_mono; lia). pose proof (Z.mod_pos_bound (g ^ x) p ltac:(lia)).
    assert (zbytes (g ^ x mod p) <= zbytes p)%nat by (apply zbytes_mono; lia). lia.
  - exact Hs.
  - intros [n [rc [c' msg]]] s' (_ & _ & H). exact H.
Qed.

(** C36: If the allocation for the kernel's private number fails, after a message that was read
    and accepted, the answer never comes: [dhm_make_public] does not look at the status of
    [mpi_fill_random], and its loop then compares a cleared number with the modulus, for
    every bound on the number of passes. *)
Theorem cm_respond_hangs {B : BlkCipher} fuel kex n msg c rest e m (s s1 : kstate) :
  dhm_read_params msg s = Done ((0, (c, rest)), s1) -> (0 < dh_len c)%nat -> Z.of_nat (dh_len c) <= n -> k_mem s1 = Some e :: m ->
  cm_dhm_respond fuel kex n msg s = Oops Hang.
Proof.
  intros E Hl Hn Hm. pose proof (dhm_read_params_unused msg s) as H. unfold wp in H. rewrite E in H. destruct H as [HX Hsz].
  cbn [fst snd] in *. unfold cm_dhm_respond. erewrite bind_done by exact E. cbn iota.
  change (truthy 0) with false. replace (n <? dh_len c) with false by lia. cbn iota. erewrite bind_done by (by apply Hsz). unfold dhm_make_public.
  replace ((dh_len c <? 1)%nat || (dh_len c <? dh_len c)%nat) with false
    by (symmetry; apply orb_false_intro; apply Nat.ltb_ge; lia).
  unfold bind. by erewrite dhm_make_X_hangs.
Qed.

(** ** Examples *)

Section Witness.
#[local] Existing Instance aes_cipher.

Definition cm_junk : hash_ctx := Hctx 0 0 [] (zeros 64) [] [].
Definition cm_s0 (mem : list (option positive)) : kstate := KS true [] ∅ ∅ ∅ ∅ 0 0 0 mem (replicate 8 1).
Definition cm_msg : bytes := exported 23 ++ exported 5 ++ exported (5 ^ 16 mod 23) ++ [0; 0].

Lemma modulus_23 : modulus longlong 64 23.
Proof. by apply modulus_checked. Qed.

Definition answer (r : Z * dhm_context * Z * bytes) : Z * Z * bytes := let '(rc, _, sz, out) := r in (rc, sz, out).


(** A source that always gives ones, and a modulus of two bytes *)
Definition one_rng (n : nat) : M kstate (Z * bytes) := ret (0, replicate n 1).

Lemma one_rng_ok : rng_ok (fun _ _ => True) one_rng.
Proof.
  intros n s Hs. unfold wp, one_rng, ret. split; [reflexivity|]. split; [exact Hs|]. cbn [fst snd]. split_and!; try done.
  - apply length_replicate.
  - by apply Forall_replicate.
Qed.

(** The prime of the sources works in the kernel. *)
Lemma dhm_test_P_ok : exists p, hex_value dhm_test_P = Some p /\ modulus longlong 1088 p.
Proof. eexists. split; [vm_compute; reflexivity|]. by apply modulus_checked. Qed.

Lemma dhm_test_exact_witness :
  (exists rc s', dhm_test 1088 one_rng dhm_test_P dhm_test_G (cm_s0 []) = Done (rc, s') /\ (rc = 0 \/ rc = -1)) /\
  (exists s', dhm_test 64 one_rng (chars "107") (chars "5") (cm_s0 []) = Done (-1, s')).
Proof.
  split.
  - destruct dhm_test_P_ok as (p & Hp & Hm).
    assert (H := dhm_test_exact 1088 (fun _ _ => True) one_rng dhm_test_P dhm_test_G p 4 (cm_s0 []) Hm ltac:(lia)
      ltac:(vm_compute; discriminate) one_rng_ok Hp eq_refl ltac:(vm_compute; discriminate) ltac:(vm_compute; discriminate) eq_refl).
    apply wp_elim in H as (rc & s' & Er & _ & x & y & _ & _ & _ & Ec). exists rc, s'. split; [exact Er|].
    rewrite Ec. destruct (_ && _); [by left|by right].
  - assert (E : val (dhm_test 64 one_rng (chars "107") (chars "5")) (cm_s0 []) = Some (-1)) by (vm_compute; reflexivity).
    apply val_exec in E. eexists. exact E.
Defined.

Definition cm_c : dhm_context := Dhm 0 (Mpi 1 [23]) (Mpi 1 [5]) mpi_zeroed mpi_zeroed mpi_zeroed mpi_zeroed mpi_zeroed.

Lemma cm_c_params : params 23 5 cm_c.
Proof. split; try done; split_and!; (done || by repeat constructor). Qed.

Lemma make_params_fits_witness :
  wp total (let! n := max_dhm_buf_size cm_c in let! r := make_params 64 one_rng cm_c in ret (n, r)) (fun r _ =>
    let '(n, (rc, (_, msg))) := r in (length msg <= n)%nat /\ (rc = 0 \/ rc = POLARSSL_ERR_DHM_BAD_INPUT_DATA)) (cm_s0 []).
Proof.
  apply (make_params_fits 64 (fun _ _ => True) one_rng 23 5 cm_c (cm_s0 []) modulus_23 ltac:(lia) one_rng_ok cm_c_params eq_refl eq_refl).
Defined.

(** Memory for everything [dhm_read_params] allocates, and no more *)
Definition cm_mem : list (option positive) := replicate 5 None ++ [Some 12%positive].
Definition cm_read : dhm_context := set_len 1 (set_GY (Mpi 1 [3]) (set_G (Mpi 1 [5]) (set_P (Mpi 1 [23]) dhm_zero))).

Lemma cm_respond_hangs_witness : cm_dhm_respond 1000 dhm_zero 100 cm_msg (cm_s0 cm_mem) = Oops Hang.
Proof.
  apply (cm_respond_hangs 1000 dhm_zero 100 cm_msg cm_read [] 12 [] (cm_s0 cm_mem) (exec (dhm_read_params cm_msg) (cm_s0 cm_mem)));
    [apply val_exec; vm_compute; reflexivity|cbn; lia..|vm_compute; reflexivity].
Defined.
End Witness.
