(* ===== verification/Driver.v ===== *)
(** * The private-crypto character device

    linux-3.0/drivers/priv/priv_crypt_drv.c: the list of contexts, the
    references by which devices hold them, the ioctl commands of
    /dev/priv_crypt_ctl and what happens when a process dies. *)

From S2P Require Import Prelude BlkCipher Ctr AesCipher PrivCrypt Kex.

Definition PRIV_CRYPT_CMD_NEW_CTX : Z := 1.
Definition PRIV_CRYPT_CMD_USE_CTX : Z := 2.
Definition PRIV_CRYPT_CMD_SET_IV : Z := 3.
Definition PRIV_CRYPT_CMD_ACTIVATE : Z := 4.
Definition PRIV_CRYPT_CMD_DEACTIVATE : Z := 5.
Definition PRIV_CRYPT_CMD_DESTROY : Z := 6.
Definition PRIV_CRYPT_CMD_KEY_EXCHANGE : Z := 7.
Definition PRIV_CRYPT_CMD_DEBUG_CRYPT : Z := 31.

(** [struct priv_crypt_alg_desc], [struct priv_crypt_iv_desc] *)
Record alg_desc := AlgDesc { ad_alg : Z; ad_key_size : Z; ad_dir : Z }.
Record iv_desc := IvDesc { iv_d_size : Z; iv_d_iv : bytes }.
(** [struct priv_crypt_kex_msg_desc]: [kd_in] is the user memory at [in_buf],
    [None] if it cannot be read; the flags say whether the two stores succeed. *)
Record kex_desc := KexDesc { kd_in_size : Z; kd_in : option bytes; kd_size_ok : bool; kd_out_ok : bool }.

(** What [copy_from_user] reads at the argument of an ioctl, by type read. *)
Record uarg := UArg {
  ua_alg : option alg_desc;
  ua_id : option Z;
  ua_iv : option iv_desc;
  ua_kex : option kex_desc;
}.

(** What an ioctl stored in user memory: [out_size] and the bytes at [out_buf] of
    a key exchange. *)
Definition uout : Type := option Z * option bytes.
Definition no_uout : uout := (None, None).

Section Driver.
Context {B : BlkCipher}.
Abbreviation K := (M kstate).

(** [cctx_ref_init]: also how a reference comes to exist. *)
Definition cctx_ref_init (r : nat) : K unit :=
  modify (fun s => set_refs (<[r := None]> (k_refs s)) s).

Definition load_ref (r : nat) : K (option nat) := fun s =>
  match k_refs s !! r with Some o => Done (o, s) | None => Oops UseAfterFree end.
Definition store_ref (r : nat) (o : option nat) : K unit := fun s =>
  match k_refs s !! r with
  | Some _ => Done (tt, set_refs (<[r := o]> (k_refs s)) s)
  | None => Oops UseAfterFree
  end.
(** The memory holding a reference is freed. *)
Definition free_ref (r : nat) : K unit := modify (fun s => set_refs (delete r (k_refs s)) s).

(** [__find_ctx_by_id] over the list from its head *)
Fixpoint __find_ctx_by_id (id : Z) (l : list nat) : K (option nat) :=
  match l with
  | [] => ret None
  | p :: l' =>
      let! c := load p in
      if cc_id c =? id then ret (Some p) else __find_ctx_by_id id l'
  end.

(** [find_ctx_by_id] *)
Definition find_ctx_by_id (id : Z) : K (option nat) :=
  let! l := gets k_list in __find_ctx_by_id id l.

(** [use_ctx] *)
Definition use_ctx (id : Z) (cctx_ref : option nat) : K Z :=
  match cctx_ref with
  | None => ret (- EINVAL)
  | Some r =>
      let! o := find_ctx_by_id id in
      match o with
      | None => ret (- ENODEV)
      | Some p =>
          let! c := load p in
          if cc_user_lock c then ret (- EBUSY) else   (* mutex_trylock *)
          store p (upd_user true (Some r) c) ;;
          store_ref r (Some p) ;;
          ret 0
      end
  end.

(** [unuse_ctx] *)
Definition unuse_ctx (cctx_ref : option nat) : K unit :=
  match cctx_ref with
  | None => ret tt
  | Some r =>
      let! o := load_ref r in
      match o with
      | None => ret tt
      | Some p =>
          let! c := load p in
          store p (upd_user false None c)
      end
  end.

(** [__store_ctx], [store_ctx]: [list_add] puts the context at the head. *)
Definition store_ctx (p : nat) : K unit := modify (fun s => set_list (p :: k_list s) s).

(** [__remove_ctx], [remove_ctx] *)
Definition remove_ctx (p : nat) : K unit :=
  let! c := load p in
  match cc_user_ref c with
  | Some r => store_ref r None ;; store p (upd_user (cc_user_lock c) None c)
  | None => ret tt
  end ;;
  modify (fun s => set_list (filter (fun q => q <> p) (k_list s)) s).

(** [file->private_data] of an open file *)
Definition get_file (f : nat) : K (option nat) := fun s =>
  match k_files s !! f with Some o => Done (o, s) | None => Oops UseAfterFree end.
Definition set_file (f : nat) (o : option nat) : K unit :=
  modify (fun s => set_files (<[f := o]> (k_files s)) s).

(** [priv_crypt_open] *)
Definition priv_crypt_open (f : nat) : K Z := set_file f None ;; ret 0.

(** [priv_crypt_release] *)
Definition priv_crypt_release (f : nat) : K Z :=
  modify (fun s => set_files (delete f (k_files s)) s) ;; ret 0.

(** [do_new_ctx], in the process [pid] *)
Definition do_new_ctx (pid : Z) (f : nat) (arg : option alg_desc) : K Z :=
  match arg with
  | None => ret (- EFAULT)
  | Some d =>
      let! r := make_crypto_ctx (ad_alg d) (ad_key_size d) (ad_dir d) in
      if fst r <? 0 then ret (fst r) else
      match snd r with
      | None => oops Uninit                 (* cctx was never assigned *)
      | Some p =>
          let! c := load p in
          store p (upd_pid pid c) ;;
          store_ctx p ;;
          set_file f (Some p) ;;
          ret (fst r)
      end
  end.

(** [do_use_ctx] *)
Definition do_use_ctx (f : nat) (arg : option Z) : K Z :=
  match arg with
  | None => ret (- EFAULT)
  | Some id =>
      let! o := find_ctx_by_id id in
      match o with
      | None => ret (- ENODEV)
      | Some p => set_file f (Some p) ;; ret 0
      end
  end.

(** [do_set_iv] *)
Definition do_set_iv (cctx : option nat) (arg : option iv_desc) : K Z :=
  match cctx with
  | None => ret (- EINVAL)
  | Some p =>
      match arg with
      | None => ret (- EFAULT)
      | Some d => priv_set_iv p (iv_d_size d) (iv_d_iv d)
      end
  end.

(** [do_set_activated] *)
Definition do_set_activated (cctx : option nat) (a : Z) : K Z :=
  match cctx with
  | None => ret (- EINVAL)
  | Some _ => priv_set_activated cctx a ;; ret 0
  end.

(** [do_destroy] *)
Definition do_destroy (f : nat) : K Z :=
  let! o := get_file f in
  match o with
  | None => ret (- EINVAL)
  | Some p => remove_ctx p ;; destroy_crypto_ctx p ;; set_file f None ;; ret 0
  end.

(** [priv_pid_death_action]: [list_for_each_entry_safe] visits the contexts that
    were on the list at the start. *)
Fixpoint pid_death_loop (pid : Z) (l : list nat) : K unit :=
  match l with
  | [] => ret tt
  | p :: l' =>
      let! c := load p in
      (if cc_alloc_pid c =? pid then remove_ctx p ;; destroy_crypto_ctx p else ret tt) ;;
      pid_death_loop pid l'
  end.

Definition priv_pid_death_action (pid : Z) : K unit :=
  let! i := gets k_init in
  if negb i then ret tt else
  let! l := gets k_list in pid_death_loop pid l.

(** [do_crypt], without PRIV_CRYPT_DEBUG *)
Definition do_crypt : K Z := ret (- EINVAL).

(** [do_kex] *)
Definition do_kex (ops : option dhm_kex_ops) (cctx : option nat) (arg : option kex_desc) : K (Z * uout) :=
  match arg with
  | None => ret (- EFAULT, no_uout)
  | Some d =>
      if MAX_KEX_MSG_LEN <? kd_in_size d then ret (- EINVAL, no_uout) else
      match cctx with
      | None => oops NullDeref               (* cctx->kex_buf *)
      | Some p =>
          let! c := load p in
          match cc_kex_buf c, kd_in d with
          | None, _ => oops NullDeref
          | _, None => ret (- EFAULT, no_uout)
          | Some kb, Some inb =>
              let kb := splice 0 (take (Z.to_nat (kd_in_size d)) inb) kb in
              store p (upd_kex_buf (Some kb) c) ;;
              let! r := process_kex_msg ops p MAX_KEX_MSG_LEN (Z.to_nat (kd_in_size d)) kb in
              let '(rc, out_sz, kb) := r in
              let! c := load p in
              store p (upd_kex_buf (Some kb) c) ;;
              if rc <? 0 then ret (rc, no_uout) else
              if negb (kd_size_ok d) then ret (- EFAULT, no_uout) else
              if negb (kd_out_ok d) then ret (- EFAULT, (Some (u32 out_sz), None)) else
              ret (0, (Some (u32 out_sz), Some (take (Z.to_nat out_sz) kb)))
          end
      end
  end.

Definition no_out (m : K Z) : K (Z * uout) := let! rc := m in ret (rc, no_uout).

(** [priv_crypt_ioctl] *)
Definition priv_crypt_ioctl (ops : option dhm_kex_ops) (pid : Z) (f : nat) (cmd : Z) (arg : uarg)
  : K (Z * uout) :=
  let! i := gets k_init in
  if negb i then oops Bug else
  if cmd =? PRIV_CRYPT_CMD_NEW_CTX then no_out (do_new_ctx pid f (ua_alg arg))
  else if cmd =? PRIV_CRYPT_CMD_USE_CTX then no_out (do_use_ctx f (ua_id arg))
  else if cmd =? PRIV_CRYPT_CMD_SET_IV then let! o := get_file f in no_out (do_set_iv o (ua_iv arg))
  else if cmd =? PRIV_CRYPT_CMD_ACTIVATE then let! o := get_file f in no_out (do_set_activated o 1)
  else if cmd =? PRIV_CRYPT_CMD_DEACTIVATE then let! o := get_file f in no_out (do_set_activated o 0)
  else if cmd =? PRIV_CRYPT_CMD_DESTROY then no_out (do_destroy f)
  else if cmd =? PRIV_CRYPT_CMD_DEBUG_CRYPT then no_out do_crypt
  else if cmd =? PRIV_CRYPT_CMD_KEY_EXCHANGE then let! o := get_file f in do_kex ops o (ua_kex arg)
  else ret (- EINVAL, no_uout).

(** [priv_crypt_init]: the list and the lock are set up and the driver is marked
    initialised before the device region and the device are registered. *)
Definition priv_crypt_init (region_ok cdev_ok : bool) (s : kstate) : Z * kstate :=
  let s := KS true [] (k_ctxs s) (k_freed s) (k_refs s) (k_files s) (k_id s) (k_brk s) (k_live s) (k_mem s) (k_rng s) in
  (if region_ok && cdev_ok then 0 else -1, s).
End Driver.

(** ** The invariant of the driver *)

Section Inv.
Context {B : BlkCipher} {L : StreamCipher B}.
Abbreviation K := (M kstate).

(** The list holds exactly the live contexts, each once; they are well-formed and
    told apart by their ids; a context and the reference that uses it point at
    each other. *)
Record kinv (s : kstate) : Prop := {
  ki_init : k_init s = true;
  ki_nodup : NoDup (k_list s);
  ki_live : forall p, p ∈ k_list s <-> is_Some (k_ctxs s !! p);
  ki_ok : forall p c, k_ctxs s !! p = Some c -> ctx_ok c;
  ki_id : forall p c, k_ctxs s !! p = Some c -> 0 < cc_id c <= k_id s;
  ki_ids : forall p q c d, k_ctxs s !! p = Some c -> k_ctxs s !! q = Some d -> cc_id c = cc_id d -> p = q;
  ki_id0 : 0 <= k_id s;
  ki_brk : forall p, is_Some (k_ctxs s !! p) -> (p < k_brk s)%nat;
  ki_refs : forall p c r, k_ctxs s !! p = Some c -> cc_user_ref c = Some r -> k_refs s !! r = Some (Some p);
  ki_back : forall r p, k_refs s !! r = Some (Some p) ->
    exists c, k_ctxs s !! p = Some c /\ cc_user_ref c = Some r;
}.

(** The state of the driver just loaded, nothing created yet. *)
Definition loaded (s : kstate) : Prop :=
  k_init s = true /\ k_list s = [] /\ k_ctxs s = ∅ /\ k_refs s = ∅ /\ k_id s = 0.

(** An ioctl argument of the types the interface declares. *)
Definition uarg_ok (a : uarg) : Prop :=
  (forall d, ua_iv a = Some d -> length (iv_d_iv d) = MAX_IV_LEN /\ bytes_ok (iv_d_iv d)) /\
  (forall d, ua_kex a = Some d -> 0 <= kd_in_size d /\
     forall b, kd_in d = Some b -> Z.of_nat (length b) = kd_in_size d).

(** The contexts a process's death destroys, and the state without one context. *)
Definition unref (c : priv_crypt_ctx) (m : gmap nat (option nat)) : gmap nat (option nat) :=
  match cc_user_ref c with Some r => <[r := None]> m | None => m end.

Definition reaped (p : nat) (c : priv_crypt_ctx) (s : kstate) : kstate :=
  KS (k_init s) (filter (fun q => q <> p) (k_list s)) (delete p (k_ctxs s))
    (<[p := wiped (upd_user (cc_user_lock c) None c)]> (k_freed s)) (unref c (k_refs s))
    (k_files s) (k_id s) (k_brk s) (k_live s - 4) (k_mem s) (k_rng s).

Lemma kinv_core s s' : core s' = core s -> kinv s -> kinv s'.
Proof.
  unfold core. intros [= E1 E2 E3 E4 E5 E6 E7 E8] [].
  split; rewrite ?E1, ?E2, ?E3, ?E5, ?E7, ?E8; auto.
Qed.

Lemma kinv_files m s : kinv s -> kinv (set_files m s).
Proof. intros []. by split. Qed.

Lemma kinv_loaded s : loaded s -> kinv s.
Proof.
  intros (E1 & E2 & E3 & E4 & E5). split; rewrite ?E1, ?E2, ?E3, ?E4, ?E5; try done; try lia.
  - constructor.
  - intros p. rewrite lookup_empty. split; [by intros ?%elem_of_nil|by intros []].
  - intros p. rewrite lookup_empty. by intros [].
Qed.

(** A new context is fresh for everything. *)
Lemma kinv_fresh s : kinv s -> k_ctxs s !! k_brk s = None.
Proof.
  intros H. destruct (k_ctxs s !! k_brk s) as [c|] eqn:E; [|done].
  pose proof (ki_brk _ H (k_brk s)) as Hb. rewrite E in Hb. specialize (Hb ltac:(eauto)). lia.
Qed.

(** Contexts behind different references are different. *)
Lemma ref_sep s r r' p p' : kinv s -> k_refs s !! r = Some (Some p) -> k_refs s !! r' = Some (Some p') -> r <> r' -> p <> p'.
Proof.
  intros H Hr Hr' Hne ->. destruct (ki_back _ H _ _ Hr) as (c & Hc & Hu). destruct (ki_back _ H _ _ Hr') as (c' & Hc' & Hu'). congruence.
Qed.

(** Replacing a context by one with the same identity. *)
Lemma kinv_put p c c' s :
  kinv s -> k_ctxs s !! p = Some c -> ctx_ok c' ->
  cc_id c' = cc_id c -> cc_user_ref c' = cc_user_ref c -> kinv (put p c' s).
Proof.
  intros [] Hp Hok Hid Hr. split; simpl; auto.
  - intros q. rewrite ki_live0, lookup_insert_is_Some'. split; [by right|intros [<- | ?]; eauto].
  - intros q d. rewrite lookup_insert_Some. intros [[<- <-]|[_ H]]; eauto.
  - intros q d. rewrite lookup_insert_Some. intros [[<- <-]|[_ H]]; [rewrite Hid|]; eauto.
  - intros q1 q2 d1 d2. rewrite !lookup_insert_Some. intros [[<- <-]|[? ?]] [[<- <-]|[? ?]]; rewrite ?Hid; eauto.
  - intros q. rewrite lookup_insert_is_Some. intros [<- | [_ ?]]; eauto.
  - intros q d r. rewrite lookup_insert_Some. intros [[<- <-]|[_ ?]]; [rewrite Hr|]; eauto.
  - intros r q Hq. destruct (ki_back0 _ _ Hq) as (d & Hd & Hu). destruct (decide (p = q)) as [<- |].
    + exists c'. rewrite lookup_insert_eq. simplify_eq. split; congruence.
    + exists d. by rewrite lookup_insert_ne.
Qed.

Lemma kinv_activated n q y s : kinv s -> k_ctxs s !! q = Some y -> kinv (put q (upd_activated n y) s).
Proof. intros H Hq. eapply kinv_put; eauto. by destruct (ki_ok _ H _ _ Hq); split. Qed.

(** A context used by nobody comes on the list under a new id. *)
Lemma kinv_new p c s s' :
  kinv s -> ctx_ok c -> cc_user_ref c = None -> cc_id c = k_id s + 1 -> p = k_brk s ->
  k_init s' = true -> k_list s' = p :: k_list s -> k_ctxs s' = <[p := c]> (k_ctxs s) ->
  k_refs s' = k_refs s -> k_id s' = k_id s + 1 -> k_brk s' = S p -> kinv s'.
Proof.
  intros H Hok Hr Hid -> E1 E2 E3 E4 E5 E6. pose proof (kinv_fresh _ H) as Hf. destruct H.
  split; rewrite ?E1, ?E2, ?E3, ?E4, ?E5, ?E6; auto.
  - constructor; [|done]. rewrite ki_live0, Hf. by intros [].
  - intros q. rewrite elem_of_cons, ki_live0, lookup_insert_is_Some'. by rewrite (eq_comm q).
  - intros q d. rewrite lookup_insert_Some. intros [[<- <-]|[_ H]]; eauto.
  - intros q d. rewrite lookup_insert_Some. intros [[<- <-]|[_ H]]; [lia|]. apply ki_id1 in H. lia.
  - intros q1 q2 d1 d2. rewrite !lookup_insert_Some.
    intros [[<- <-]|[? H1]] [[<- <-]|[? H2]]; eauto; [apply ki_id1 in H2|apply ki_id1 in H1]; lia.
  - lia.
  - intros q. rewrite lookup_insert_is_Some'. intros [<- | H]; [lia|]. apply ki_brk0 in H. lia.
  - intros q d r. rewrite lookup_insert_Some. intros [[<- <-]|[_ ?]]; [congruence|eauto].
  - intros r q Hq. destruct (ki_back0 _ _ Hq) as (d & Hd & Hu). exists d. rewrite lookup_insert_ne; [done|congruence].
Qed.

Lemma kinv_reaped p c s : kinv s -> k_ctxs s !! p = Some c -> kinv (reaped p c s).
Proof.
  intros [] Hp. unfold reaped. split; simpl; auto.
  - by apply NoDup_filter.
  - intros q. rewrite list_elem_of_filter, ki_live0, lookup_delete_is_Some. intuition.
  - intros q d. rewrite lookup_delete_Some. intros [_ ?]; eauto.
  - intros q d. rewrite lookup_delete_Some. intros [_ ?]; eauto.
  - intros q1 q2 d1 d2. rewrite !lookup_delete_Some. intros [_ ?] [_ ?]; eauto.
  - intros q. rewrite lookup_delete_is_Some. intros [_ ?]; eauto.
  - intros q d r. rewrite lookup_delete_Some. intros [Hne Hd] Hu. unfold unref.
    pose proof (ki_refs0 _ _ _ Hd Hu) as Hq. destruct (cc_user_ref c) as [r'|] eqn:E; [|done].
    rewrite lookup_insert_ne; [done|]. intros ->. pose proof (ki_refs0 _ _ _ Hp E). congruence.
  - intros r q. unfold unref. destruct (cc_user_ref c) as [r'|] eqn:E.
    + rewrite lookup_insert_Some. intros [[_ ?]|[Hne Hq]]; [done|].
      destruct (ki_back0 _ _ Hq) as (d & Hd & Hu). exists d. rewrite lookup_delete_ne; [done|]. intros ->. congruence.
    + intros Hq. destruct (ki_back0 _ _ Hq) as (d & Hd & Hu). exists d. rewrite lookup_delete_ne; [done|]. intros ->. congruence.
Qed.

(** [remove_ctx] followed by [destroy_crypto_ctx], as both callers do. *)
Lemma reap_run p c s : kinv s -> k_ctxs s !! p = Some c ->
  (remove_ctx p ;; destroy_crypto_ctx p) s = Done (tt, reaped p c s).
Proof.
  intros H Hp. unfold remove_ctx, bind at 1 2. rewrite (load_run _ _ _ Hp).
  destruct (cc_user_ref c) as [r|] eqn:E.
  - pose proof (ki_refs _ H _ _ _ Hp E) as Hr. clear H.
    unfold store_ref, bind at 1 2, reaped, unref. rewrite Hr, E. destruct s. cbn in Hp, Hr |- *.
    rewrite (store_run p c) by done. cbv beta iota delta [modify]. cbn.
    rewrite (destroy_crypto_ctx_run p (upd_user (cc_user_lock c) None c)) by apply lookup_insert_eq.
    cbn. by rewrite delete_insert_eq.
  - unfold bind, reaped, unref. rewrite E. cbv beta iota delta [modify ret].
    assert (Eu : upd_user (cc_user_lock c) None c = c) by (destruct c; unfold upd_user; simpl in *; congruence).
    rewrite Eu. by rewrite (destroy_crypto_ctx_run p c).
Qed.

(** ** The death of a process *)

(** [m] without the contexts of [l] that [pid] allocated. *)
Definition survives (pid : Z) (l : list nat) (m : gmap nat priv_crypt_ctx) (q : nat) : option priv_crypt_ctx :=
  match m !! q with
  | Some c => if bool_decide (q ∈ l) && (cc_alloc_pid c =? pid) then None else Some c
  | None => None
  end.

Lemma survives_cons pid p l m q : p <> q -> survives pid (p :: l) m q = survives pid l m q.
Proof.
  intros Hne. unfold survives. destruct (m !! q); [|done].
  rewrite (bool_decide_ext (q ∈ p :: l) (q ∈ l)); [done|]. rewrite elem_of_cons. split; [intros [-> | ?]|]; auto. done.
Qed.

Lemma pid_death_loop_spec pid l s :
  kinv s -> NoDup l -> (forall p, p ∈ l -> is_Some (k_ctxs s !! p)) ->
  wp total (pid_death_loop pid l) (fun _ s' =>
    kinv s' /\ k_files s' = k_files s /\ forall q, k_ctxs s' !! q = survives pid l (k_ctxs s) q) s.
Proof.
  revert s. induction l as [|p l IH]; intros s Hinv Hnd Hl.
  { wp_pure. split_and!; try done. intros q. unfold survives. by destruct (k_ctxs s !! q). }
  apply NoDup_cons in Hnd as [Hni Hnd].
  destruct (Hl p) as [c Hc]; [by left|]. cbn [pid_death_loop].
  wp_bind. eapply wp_done; [by apply load_run|]. wp_bind.
  destruct (cc_alloc_pid c =? pid) eqn:E.
  - eapply wp_done; [by apply reap_run|]. eapply wp_mono; [apply IH; [by apply kinv_reaped|done|]|].
    + intros q Hq. simpl. rewrite lookup_delete_ne; [|by intros ->]. apply Hl. by right.
    + intros _ s' (? & ? & Hs). split_and!; try done. intros q. rewrite Hs. simpl.
      destruct (decide (p = q)) as [<- |Hne]; [|rewrite survives_cons by done]; unfold survives.
      * by rewrite lookup_delete_eq, Hc, E, bool_decide_eq_true_2 by (by left).
      * by rewrite lookup_delete_ne.
  - wp_pure. eapply wp_mono; [apply IH; [done..|]|].
    + intros q Hq. apply Hl. by right.
    + intros _ s' (? & ? & Hs). split_and!; try done. intros q. rewrite Hs.
      destruct (decide (p = q)) as [<- |Hne]; [|by rewrite survives_cons].
      unfold survives. by rewrite Hc, E, !andb_false_r.
Qed.

(** ** Finding and using a context *)

Lemma find_loop_run id l s :
  (forall p, p ∈ l -> is_Some (k_ctxs s !! p)) ->
  exists o, __find_ctx_by_id id l s = Done (o, s) /\
  match o with
  | Some p => p ∈ l /\ exists c, k_ctxs s !! p = Some c /\ cc_id c = id
  | None => forall p c, p ∈ l -> k_ctxs s !! p = Some c -> cc_id c <> id
  end.
Proof.
  induction l as [|p l IH]; intros Hl; simpl.
  { exists None. split; [done|]. intros p c. by rewrite elem_of_nil. }
  destruct (Hl p) as [c Hc]; [by left|]. unfold bind. rewrite (load_run _ _ _ Hc).
  destruct (cc_id c =? id) eqn:E; [apply Z.eqb_eq in E|apply Z.eqb_neq in E].
  { exists (Some p). split; [done|]. split; [by left|eauto]. }
  destruct IH as ([q|] & -> & Ho); [intros q Hq; apply Hl; by right|..]; eexists; (split; [done|]).
  - destruct Ho. split; [by right|done].
  - intros q d. rewrite elem_of_cons. intros [-> | Hq] Hd; [congruence|eauto].
Qed.

(** [find_ctx_by_id] finds the context with that id, and there is at most one. *)
Lemma find_ctx_by_id_run id s : kinv s ->
  exists o, find_ctx_by_id id s = Done (o, s) /\
  match o with
  | Some p => exists c, k_ctxs s !! p = Some c /\ cc_id c = id
  | None => forall p c, k_ctxs s !! p = Some c -> cc_id c <> id
  end.
Proof.
  intros H. destruct (find_loop_run id (k_list s) s) as (o & E & Ho); [by intros p; rewrite (ki_live _ H)|].
  exists o. split; [exact E|]. destruct o as [p|]; [by destruct Ho|].
  intros p c Hc. apply (Ho p); [|done]. apply (ki_live _ H). eauto.
Qed.

Lemma find_ctx_by_id_found p c s : kinv s -> k_ctxs s !! p = Some c ->
  find_ctx_by_id (cc_id c) s = Done (Some p, s).
Proof.
  intros H Hp. destruct (find_ctx_by_id_run (cc_id c) s H) as ([q|] & -> & Ho).
  - destruct Ho as (d & Hd & E). by rewrite (ki_ids _ H _ _ _ _ Hd Hp E).
  - by destruct (Ho _ _ Hp).
Qed.

(** A context and an idle reference are linked. *)
Definition linked (p r : nat) (c : priv_crypt_ctx) (s : kstate) : kstate :=
  set_refs (<[r := Some p]> (k_refs s)) (put p (upd_user true (Some r) c) s).

Lemma kinv_linked p r c s :
  kinv s -> k_ctxs s !! p = Some c -> cc_user_ref c = None -> k_refs s !! r = Some None -> kinv (linked p r c s).
Proof.
  intros H Hp Hn Hr. pose proof H as []. split; simpl; auto.
  - intros q. rewrite ki_live0, lookup_insert_is_Some'. split; [by right|intros [<- | ?]; eauto].
  - intros q d. rewrite lookup_insert_Some. intros [[<- <-]|[_ Hd]]; [|eauto].
    apply (ctx_ok_user c (Some r)). eauto.
  - intros q d. rewrite lookup_insert_Some. intros [[<- <-]|[_ Hd]]; [apply (ki_id1 _ _ Hp)|eauto].
  - intros q1 q2 d1 d2. rewrite !lookup_insert_Some. intros [[<- <-]|[? ?]] [[<- <-]|[? ?]]; simpl; eauto.
  - intros q. rewrite lookup_insert_is_Some'. intros [<- | ?]; eauto.
  - intros q d r'. rewrite lookup_insert_Some. intros [[<- <-]|[Hne Hd]]; simpl.
    + intros [= <-]. by rewrite lookup_insert_eq.
    + intros Hu. pose proof (ki_refs0 _ _ _ Hd Hu). rewrite lookup_insert_ne; [done|]. congruence.
  - intros r' q. rewrite lookup_insert_Some. intros [[<- [= <-]]|[Hne Hq]].
    + exists (upd_user true (Some r) c). by rewrite lookup_insert_eq.
    + destruct (ki_back0 _ _ Hq) as (d & Hd & Hu). exists d. rewrite lookup_insert_ne; [done|]. congruence.
Qed.

Lemma use_ctx_run id r s : kinv s -> k_refs s !! r = Some None ->
  exists rc s', use_ctx id (Some r) s = Done (rc, s') /\ kinv s' /\
  ((exists p c, k_ctxs s !! p = Some c /\ cc_id c = id /\
      (cc_user_ref c = None /\ rc = 0 /\ s' = linked p r c s \/
       is_Some (cc_user_ref c) /\ rc = - EBUSY /\ s' = s)) \/
   (forall p c, k_ctxs s !! p = Some c -> cc_id c <> id) /\ rc = - ENODEV /\ s' = s).
Proof.
  intros H Hr. unfold use_ctx, bind at 1.
  destruct (find_ctx_by_id_run id s H) as ([p|] & -> & Ho); [|by eauto 10].
  destruct Ho as (c & Hc & Hid). unfold bind at 1. rewrite (load_run _ _ _ Hc).
  rewrite (co_lock _ (ki_ok _ H _ _ Hc)). destruct (cc_user_ref c) as [r'|] eqn:E; simpl.
  { eexists _, _. split; [done|]. split; [done|]. left. exists p, c. split_and!; try done. right. eauto. }
  unfold bind. rewrite (store_run p c) by done. unfold store_ref. cbn [k_refs put set_ctxs]. rewrite Hr.
  eexists _, _. split; [done|]. split; [by apply kinv_linked|]. left. exists p, c. split_and!; try done. by left.
Qed.

(** A device gives its reference up and frees the memory that holds it. *)
Definition drop_ref (r : nat) : K unit := unuse_ctx (Some r) ;; free_ref r.

(** A context and its reference let go of each other. *)
Definition unlinked (p r : nat) (c : priv_crypt_ctx) (s : kstate) : kstate :=
  set_refs (<[r := None]> (k_refs s)) (put p (upd_user false None c) s).

Lemma kinv_unlinked p r c s :
  kinv s -> k_ctxs s !! p = Some c -> k_refs s !! r = Some (Some p) -> kinv (unlinked p r c s).
Proof.
  intros H Hp Hr. destruct (ki_back _ H _ _ Hr) as (c0 & Hc0 & Hu). simplify_eq. pose proof H as []. split; simpl; auto.
  - intros q. rewrite ki_live0, lookup_insert_is_Some'. split; [by right|intros [<- | ?]; eauto].
  - intros q d. rewrite lookup_insert_Some. intros [[<- <-]|[_ Hd]]; [|eauto]. apply (ctx_ok_user c None). eauto.
  - intros q d. rewrite lookup_insert_Some. intros [[<- <-]|[_ Hd]]; [apply (ki_id1 _ _ Hp)|eauto].
  - intros q1 q2 d1 d2. rewrite !lookup_insert_Some. intros [[<- <-]|[? ?]] [[<- <-]|[? ?]]; simpl; eauto.
  - intros q. rewrite lookup_insert_is_Some'. intros [<- | ?]; eauto.
  - intros q d r'. rewrite lookup_insert_Some. intros [[<- <-]|[Hne Hd]]; [done|]. intros Hv.
    pose proof (ki_refs0 _ _ _ Hd Hv). rewrite lookup_insert_ne; [done|]. congruence.
  - intros r' q. rewrite lookup_insert_Some. intros [[_ ?]|[Hne Hq]]; [done|]. destruct (ki_back0 _ _ Hq) as (d & Hd & Hv).
    exists d. rewrite lookup_insert_ne; [done|]. intros ->. congruence.
Qed.

Lemma kinv_free_ref r s : kinv s -> k_refs s !! r = Some None -> kinv (set_refs (delete r (k_refs s)) s).
Proof.
  intros [] Hr. split; simpl; auto.
  - intros q d r' Hd Hv. pose proof (ki_refs0 _ _ _ Hd Hv). rewrite lookup_delete_ne; [done|]. congruence.
  - intros r' q. rewrite lookup_delete_Some. intros [Hne Hq]. eauto.
Qed.

(** What [unuse_ctx] does: the context lets go, the reference does not. *)
Lemma unuse_ctx_run p r c s :
  k_refs s !! r = Some (Some p) -> k_ctxs s !! p = Some c ->
  unuse_ctx (Some r) s = Done (tt, put p (upd_user false None c) s).
Proof. intros Hr Hp. unfold unuse_ctx, bind, load_ref. by rewrite Hr, (load_run _ _ _ Hp), (store_run p c). Qed.

Lemma drop_ref_run r o s : kinv s -> k_refs s !! r = Some o ->
  exists s', drop_ref r s = Done (tt, s') /\ kinv s' /\ k_refs s' = delete r (k_refs s).
Proof.
  intros H Hr. unfold drop_ref. destruct o as [p|].
  - destruct (ki_back _ H _ _ Hr) as (c & Hc & Hu). unfold bind. rewrite (unuse_ctx_run p r c) by done.
    eexists. split; [done|]. split; [|done].
    pose proof (kinv_free_ref r _ (kinv_unlinked p r c s H Hc Hr) (lookup_insert_eq _ _ _)) as Hf.
    simpl in Hf. rewrite delete_insert_eq in Hf. exact Hf.
  - unfold unuse_ctx, load_ref, bind. rewrite Hr. eexists. split; [done|]. split; [|done]. by apply kinv_free_ref.
Qed.

(** Taking a context up through a reference that still points at the last one. *)
Lemma use_ctx_again p r o c s :
  kinv (set_refs (<[r := None]> (k_refs s)) s) -> k_refs s !! r = Some o ->
  k_ctxs s !! p = Some c -> cc_user_ref c = None ->
  use_ctx (cc_id c) (Some r) s = Done (0, linked p r c s) /\ kinv (linked p r c s).
Proof.
  intros H Hr Hp Hu. set (s0 := set_refs _ s) in H. split.
  - destruct (find_loop_run (cc_id c) (k_list s) s) as (q & E & Hq); [intros q; apply (ki_live _ H)|].
    assert (Hqp : q = Some p).
    { destruct q as [q|]; [|by destruct (Hq p c); [apply (ki_live _ H); eauto|..]].
      destruct Hq as (_ & d & Hd & Hid). f_equal. by apply (ki_ids _ H q p d c). }
    subst q. unfold use_ctx, bind at 1, find_ctx_by_id, bind at 1, gets. rewrite E.
    unfold bind at 1. rewrite (load_run _ _ _ Hp), (co_lock _ (ki_ok _ H _ _ Hp)), Hu. simpl.
    unfold bind. rewrite (store_run p c) by done. unfold store_ref. cbn [k_refs put set_ctxs]. by rewrite Hr.
  - pose proof (kinv_linked p r c s0 H Hp Hu (lookup_insert_eq _ _ _)) as Hl.
    unfold linked in Hl |- *. simpl in Hl. by rewrite insert_insert_eq in Hl.
Qed.

(** A new reference. *)
Lemma kinv_ref_init r s : kinv s -> k_refs s !! r = None -> kinv (set_refs (<[r := None]> (k_refs s)) s).
Proof.
  intros [] Hr. split; simpl; auto.
  - intros p c r' Hp Hu. pose proof (ki_refs0 _ _ _ Hp Hu). rewrite lookup_insert_ne; [done|]. congruence.
  - intros r' p. rewrite lookup_insert_Some. intros [[_ ?]|[_ ?]]; [done|eauto].
Qed.

(** ** The commands *)

Section Commands.
Variable kf : fault -> Prop.
Variable ops : option dhm_kex_ops.
Hypothesis Hops : forall o, ops = Some o -> KexLaws kf o.

(** An id is an [int] as long as fewer than 2^31 contexts were ever made. *)
Lemma do_new_ctx_spec pid f arg s : kinv s -> k_id s < 2 ^ 31 - 1 ->
  wp (fun e => e = Uninit) (do_new_ctx pid f arg) (fun rc s' =>
    kinv s' /\
    (rc < 0 /\ k_ctxs s' = k_ctxs s /\ k_list s' = k_list s /\ k_files s' = k_files s /\ k_live s' = k_live s \/
     exists p c, rc = k_id s + 1 /\ cc_id c = rc /\ cc_alloc_pid c = pid /\ cc_activated c = 0 /\
       k_ctxs s !! p = None /\ k_ctxs s' = <[p := c]> (k_ctxs s) /\ k_list s' = p :: k_list s /\
       k_files s' = <[f := Some p]> (k_files s) /\ k_live s' = k_live s + 4)) s.
Proof.
  intros H Hid. pose proof (ki_id0 _ H) as Hid0. unfold do_new_ctx. destruct arg as [d|].
  2: { wp_pure. split; [done|]. left. by split_and!. }
  wp_bind. eapply wp_weaken with (E := total); [done|]. wp_use make_crypto_ctx_spec; [by apply kinv_fresh|].
  intros [rc [p|]] s1; unfold made; cbn [fst snd].
  - intros (_ & Hk & Hd & Hp & Hrc & Hl & Hc).
    assert (Hs : s32 (k_id s + 1) = k_id s + 1) by (apply s32_small; lia).
    assert (Hu : u32 (k_id s + 1) = k_id s + 1) by (apply u32_small; lia). rewrite Hs, Hu, Hs in *.
    replace (rc <? 0) with false by lia.
    assert (Hc1 : k_ctxs s1 !! p = Some (new_ctx (k_id s + 1) (ad_key_size d) (ad_dir d))).
    { injection Hc as _ _ -> _ _ _ _ _. apply lookup_insert_eq. }
    wp_bind. eapply wp_done; [by apply load_run|]. wp_bind. eapply wp_done; [by eapply store_run|].
    wp_pure. injection Hc as E1 E2 E3 E4 E5 E6 E7 E8. cbn. rewrite E3, insert_insert_eq. split.
    + eapply (kinv_new p (upd_pid pid (new_ctx (k_id s + 1) (ad_key_size d) (ad_dir d))) s); cbn; try done; try congruence.
      * by destruct (new_ctx_ok (k_id s + 1) (ad_key_size d) (ad_dir d) Hk Hd); split.
      * rewrite E1. apply H.
      * by rewrite E3, insert_insert_eq.
    + right. eexists _, _. split_and!; try done; simpl; try congruence. subst p. by apply kinv_fresh.
  - intros [Hn [[Hrc Hl]|[-> _]]]; [|done]. replace (rc <? 0) with true by lia.
    destruct Hn as (E1 & E2 & E3 & E4 & E5 & E6 & E7). wp_pure. split; [|left; by split_and!].
    destruct H. split; rewrite ?E1, ?E2, ?E3, ?E4, ?E5, ?E6; auto.
    intros q Hq. apply ki_brk0 in Hq. destruct E7 as [[_ ->]|(? & _ & ->)]; lia.
Qed.

(** The commands that fault, and how; [kf] are the faults of the key-exchange operations. *)
Definition ioctl_fault (cmd : Z) (o : option nat) (e : fault) : Prop :=
  cmd = PRIV_CRYPT_CMD_NEW_CTX /\ e = Uninit \/
  cmd = PRIV_CRYPT_CMD_KEY_EXCHANGE /\ (o = None /\ e = NullDeref \/ ops = None /\ e = Bug \/ kf e).

(** The context an open file points to, if any, is live. *)
Definition file_ok (f : nat) (o : option nat) (s : kstate) : Prop :=
  k_files s !! f = Some o /\ forall p, o = Some p -> is_Some (k_ctxs s !! p).

Lemma kinv_rekeyed p c s s' : kinv s -> k_ctxs s !! p = Some c -> rekeyed p c s s' -> kinv s'.
Proof.
  intros H Hp (c' & Hok & (Hi & _ & Hu) & _ & _ & Hc). eapply kinv_core; [exact Hc|]. by eapply kinv_put.
Qed.

Lemma do_set_iv_spec p c d s :
  kinv s -> k_ctxs s !! p = Some c -> length (iv_d_iv d) = MAX_IV_LEN -> bytes_ok (iv_d_iv d) ->
  wp total (priv_set_iv p (iv_d_size d) (iv_d_iv d)) (fun _ => kinv) s.
Proof.
  intros H Hp Hl Hb. pose proof (ki_ok _ H _ _ Hp) as Hok.
  destruct (co_cipher _ Hok) as (t & Ht & Htok). unfold priv_set_iv.
  destruct (iv_d_size d =? cc_iv_size c) eqn:E.
  - eapply wp_done.
    { pose proof (priv_set_iv_run p c t s (iv_d_size d) (iv_d_iv d) Hp Ht) as R. rewrite E in R. apply R.
      apply Z.eqb_eq in E. rewrite E, (co_iv_size _ Hok), Hl. unfold MAX_IV_LEN. lia. }
    apply Z.eqb_eq in E. eapply kinv_put; try done.
    rewrite (co_iv_size _ Hok) in E. rewrite E. apply ctx_ok_ived; try done.
    + rewrite length_take, Hl. done.
    + by apply Forall_take.
  - wp_bind. eapply wp_done; [by apply load_run|]. rewrite E. by wp_pure.
Qed.

Lemma do_kex_spec o arg s :
  kinv s -> (forall p, o = Some p -> is_Some (k_ctxs s !! p)) ->
  (forall d, arg = Some d -> 0 <= kd_in_size d /\ forall b, kd_in d = Some b -> Z.of_nat (length b) = kd_in_size d) ->
  wp (fun e => o = None /\ e = NullDeref \/ ops = None /\ e = Bug \/ kf e) (do_kex ops o arg) (fun _ => kinv) s.
Proof.
  intros H Hp Ha. unfold do_kex. destruct arg as [d|]; [|by wp_pure].
  destruct (Ha d eq_refl) as [Hn Hb]. case_match eqn:Hsz; [by wp_pure|].
  destruct o as [p|]; [|wp_pure; by left]. destruct (Hp p eq_refl) as [c Hc].
  pose proof (ki_ok _ H _ _ Hc) as Hok. destruct (co_kex _ Hok) as (kb & Hkb & Hkl).
  wp_bind. eapply wp_done; [by apply load_run|]. rewrite Hkb. destruct (kd_in d) as [inb|]; [|by wp_pure].
  set (kb' := splice 0 _ kb).
  assert (Hl : length kb' = MAX_KEX_MSG_LEN).
  { unfold kb'. rewrite length_splice; [done|]. rewrite length_take. lia. }
  wp_bind. eapply wp_done; [by eapply store_run|]. wp_bind.
  set (c1 := upd_kex_buf (Some kb') c). set (s1 := put p c1 s).
  assert (Hc1 : ctx_ok c1) by (by apply ctx_ok_kex).
  assert (H1 : kinv s1) by (by eapply kinv_put).
  eapply wp_weaken with (E := fun f => ops = None /\ f = Bug \/ kf f); [by right|].
  wp_use (process_kex_msg_spec kf ops p c1 s1); [done|apply put_lookup|done|done|].
  intros [[rc sz] buf'] s2 (Hl2 & _ & Hr). destruct (Hr) as (c2 & Hc2 & Hsame & _ & _ & Hcore).
  assert (H2 : kinv s2) by (eapply kinv_rekeyed; [exact H1|apply put_lookup|exact Hr]).
  assert (P2 : k_ctxs s2 !! p = Some c2) by (rewrite (core_lookup _ _ _ Hcore); apply put_lookup).
  wp_bind. eapply wp_done; [by apply load_run|]. wp_bind. eapply wp_done; [by eapply store_run|].
  assert (H3 : kinv (put p (upd_kex_buf (Some buf') c2) s2)) by (eapply kinv_put; eauto using ctx_ok_kex).
  repeat case_match; by wp_pure.
Qed.

Lemma do_set_activated_spec o a s :
  kinv s -> (forall p, o = Some p -> is_Some (k_ctxs s !! p)) ->
  wp total (do_set_activated o a) (fun _ => kinv) s.
Proof.
  intros H Ho. unfold do_set_activated, priv_set_activated. destruct o as [p|]; [|by wp_pure].
  destruct (Ho p eq_refl) as [c Hc]. wp_bind. wp_bind. eapply wp_done; [by apply load_run|].
  eapply wp_done; [by eapply store_run|]. wp_pure. eapply kinv_put; eauto.
  by destruct (ki_ok _ H _ _ Hc); split.
Qed.

Lemma do_destroy_run f o s : kinv s -> file_ok f o s ->
  do_destroy f s = match o with
    | None => Done (- EINVAL, s)
    | Some p => match k_ctxs s !! p with
        | Some c => Done (0, set_files (<[f := None]> (k_files s)) (reaped p c s))
        | None => Oops UseAfterFree
        end
    end.
Proof.
  intros H [Hf Ho]. unfold do_destroy, bind at 1, get_file. rewrite Hf. destruct o as [p|]; [|done].
  destruct (Ho p eq_refl) as [c Hc]. rewrite Hc. pose proof (reap_run p c s H Hc) as R. unfold bind in R |- *.
  destruct (remove_ctx p s) as [[[] s1]|]; [|done]. destruct (destroy_crypto_ctx p s1) as [[[] s2]|]; [|done].
  by simplify_eq.
Qed.

(** Commands that look at the file's context. *)
Definition uses_file (cmd : Z) : bool :=
  (cmd =? PRIV_CRYPT_CMD_SET_IV) || (cmd =? PRIV_CRYPT_CMD_ACTIVATE) || (cmd =? PRIV_CRYPT_CMD_DEACTIVATE)
  || (cmd =? PRIV_CRYPT_CMD_DESTROY) || (cmd =? PRIV_CRYPT_CMD_KEY_EXCHANGE).

(** Arithmetic on command numbers. *)
Ltac cmds :=
  unfold uses_file, PRIV_CRYPT_CMD_NEW_CTX, PRIV_CRYPT_CMD_USE_CTX, PRIV_CRYPT_CMD_SET_IV, PRIV_CRYPT_CMD_ACTIVATE,
    PRIV_CRYPT_CMD_DEACTIVATE, PRIV_CRYPT_CMD_DESTROY, PRIV_CRYPT_CMD_KEY_EXCHANGE, PRIV_CRYPT_CMD_DEBUG_CRYPT in *; lia.

Lemma no_out_spec (E : fault -> Prop) (m : K Z) s : wp E m (fun _ => kinv) s -> wp E (no_out m) (fun _ => kinv) s.
Proof. intros Hm. unfold no_out. wp_bind. eapply wp_mono; [exact Hm|]. intros. by wp_pure. Qed.

Lemma priv_crypt_ioctl_spec pid f o cmd arg s :
  kinv s -> (uses_file cmd = true -> file_ok f o s) -> uarg_ok arg -> k_id s < 2 ^ 31 - 1 ->
  wp (ioctl_fault cmd o) (priv_crypt_ioctl ops pid f cmd arg) (fun _ => kinv) s.
Proof.
  intros H Hfile [Hiv Hkex] Hid. unfold priv_crypt_ioctl. wp_bind. unfold gets at 1. unfold wp at 1.
  rewrite (ki_init _ H). simpl negb. cbn iota.
  assert (G : file_ok f o s -> get_file f s = Done (o, s)) by (intros [Hf _]; unfold get_file; by rewrite Hf).
  repeat case_match; try apply no_out_spec.
  3, 4, 5, 8: wp_bind; (eapply wp_done; [apply G, Hfile; unfold uses_file; lia|]); try apply no_out_spec.
  - eapply wp_weaken with (E := fun e => e = Uninit); [left; split; [lia|done]|].
    wp_use do_new_ctx_spec; [done|done|]. by intros _ s' [? _].
  - unfold do_use_ctx. destruct (ua_id arg) as [i|]; [|by wp_pure].
    destruct (find_ctx_by_id_run i s H) as ([p|] & E & _); wp_bind; (eapply wp_done; [exact E|]); wp_pure; [by apply kinv_files|done].
  - unfold do_set_iv. destruct o as [p|]; [|by wp_pure].
    destruct (ua_iv arg) as [d|]; [|by wp_pure]. destruct Hfile as [_ Ho]; [unfold uses_file; lia|]. destruct (Ho p eq_refl) as [c Hc].
    eapply wp_weaken with (E := total); [done|]. by eapply do_set_iv_spec; eauto; apply Hiv.
  - eapply wp_weaken; [|apply do_set_activated_spec; [done|apply Hfile; unfold uses_file; lia]]. done.
  - eapply wp_weaken; [|apply do_set_activated_spec; [done|apply Hfile; unfold uses_file; lia]]. done.
  - eapply wp_weaken; [|apply do_kex_spec; [done|apply Hfile; unfold uses_file; lia|done]]. intros e He. right. split; [lia|done].
  - destruct Hfile as [Hf Ho]; [unfold uses_file; lia|].
    pose proof (do_destroy_run f o s H (conj Hf Ho)) as R. destruct o as [p|].
    + destruct (Ho p eq_refl) as [c Hc]. rewrite Hc in R. eapply wp_done; [exact R|]. by apply kinv_files, kinv_reaped.
    + by eapply wp_done; [exact R|].
  - by wp_pure.
  - by wp_pure.
Qed.

(** ** Runs of the driver *)

(** What can happen: commands on open files, devices taking up and giving back
    references, encryption through a reference, and the death of a process. *)
Inductive kstep : kstate -> kstate -> Prop :=
  | ks_open f rc s s' : priv_crypt_open f s = Done (rc, s') -> kstep s s'
  | ks_release f rc s s' : priv_crypt_release f s = Done (rc, s') -> kstep s s'
  | ks_ioctl pid f cmd arg r s s' :
      uarg_ok arg -> k_id s < 2 ^ 31 - 1 -> priv_crypt_ioctl ops pid f cmd arg s = Done (r, s') -> kstep s s'
  | ks_ref_init r s s' : k_refs s !! r = None -> cctx_ref_init r s = Done (tt, s') -> kstep s s'
  | ks_use id r rc s s' : k_refs s !! r = Some None -> use_ctx id (Some r) s = Done (rc, s') -> kstep s s'
  | ks_drop r s s' : drop_ref r s = Done (tt, s') -> kstep s s'
  | ks_crypt r o data x s s' :
      k_refs s !! r = Some o -> priv_crypt o data data s = Done (x, s') -> kstep s s'
  | ks_death pid s s' : priv_pid_death_action pid s = Done (tt, s') -> kstep s s'.

(** On a file whose context was freed, a command faults or does nothing. *)
Lemma ioctl_stale pid f p cmd arg s :
  kinv s -> k_files s !! f = Some (Some p) -> k_ctxs s !! p = None -> uses_file cmd = true ->
  wp (fun e => e = UseAfterFree) (priv_crypt_ioctl ops pid f cmd arg) (fun r s' => fst r < 0 /\ s' = s) s.
Proof.
  intros H Hf Hn Hu. unfold priv_crypt_ioctl. wp_bind. unfold gets at 1. unfold wp at 1.
  rewrite (ki_init _ H). simpl negb. cbn iota.
  assert (HL : forall A (k : priv_crypt_ctx -> K A) Q, wp (fun e => e = UseAfterFree) (bind (load p) k) Q s)
    by (intros; unfold wp, bind, load; by rewrite Hn).
  assert (G : get_file f s = Done (Some p, s)) by (unfold get_file; by rewrite Hf).
  assert (N : forall m : K Z, wp (fun e => e = UseAfterFree) m (fun r s' => r < 0 /\ s' = s) s ->
    wp (fun e => e = UseAfterFree) (no_out m) (fun r s' => fst r < 0 /\ s' = s) s).
  { intros m Hm. unfold no_out. wp_bind. eapply wp_mono; [exact Hm|]. intros. by wp_pure. }
  repeat case_match; try (exfalso; cmds); try apply N.
  - wp_bind. eapply wp_done; [exact G|]. apply N. unfold do_set_iv. destruct (ua_iv arg); [apply HL|by wp_pure].
  - wp_bind. eapply wp_done; [exact G|]. apply N. unfold do_set_activated. wp_bind. apply HL.
  - wp_bind. eapply wp_done; [exact G|]. apply N. unfold do_set_activated. wp_bind. apply HL.
  - unfold do_destroy. wp_bind. eapply wp_done; [exact G|]. wp_bind. apply HL.
  - wp_bind. eapply wp_done; [exact G|]. unfold do_kex. destruct (ua_kex arg); [|by wp_pure].
    case_match; [by wp_pure|apply HL].
Qed.

Lemma kinv_ioctl pid f cmd arg r s s' :
  kinv s -> uarg_ok arg -> k_id s < 2 ^ 31 - 1 ->
  priv_crypt_ioctl ops pid f cmd arg s = Done (r, s') -> kinv s'.
Proof.
  intros H Ha Hid Hrun. destruct (uses_file cmd) eqn:Hu.
  2: { eapply (wp_run _ _ (fun _ => kinv)); [|exact Hrun]. by apply (priv_crypt_ioctl_spec pid f None); try rewrite Hu. }
  destruct (k_files s !! f) as [[p|]|] eqn:Hf.
  - destruct (k_ctxs s !! p) as [c|] eqn:Hc.
    + eapply (wp_run _ _ (fun _ => kinv)); [|exact Hrun]. apply (priv_crypt_ioctl_spec pid f (Some p)); try done.
      intros _. split; [done|]. intros q [= <-]. eauto.
    + pose proof (wp_run _ _ _ _ _ _ (ioctl_stale pid f p cmd arg s H Hf Hc Hu) Hrun) as [_ ->]. done.
  - eapply (wp_run _ _ (fun _ => kinv)); [|exact Hrun]. by apply (priv_crypt_ioctl_spec pid f None).
  - exfalso. revert Hrun. unfold priv_crypt_ioctl, bind at 1, gets. rewrite (ki_init _ H). simpl negb. cbn iota.
    assert (G : forall A (k : option nat -> K A), bind (get_file f) k s = Oops UseAfterFree)
      by (intros; unfold bind, get_file; by rewrite Hf).
    repeat case_match; try (exfalso; cmds); try by rewrite G.
    unfold no_out, do_destroy, bind at 1. by rewrite G.
Qed.

Lemma kstep_inv s s' : kinv s -> kstep s s' -> kinv s'.
Proof.
  intros H Hs. revert H. destruct Hs as [f rc s1 s2 E|f rc s1 s2 E|pid f cmd arg r s1 s2 Ha Hid E|r s1 s2 Hr E|id r rc s1 s2 Hr E|r s1 s2 E|r o data x s1 s2 Hr E|pid s1 s2 E]; intros H.
  - injection E as _ <-. by apply kinv_files.
  - injection E as _ <-. by apply kinv_files.
  - by eapply kinv_ioctl.
  - injection E as <-. by apply kinv_ref_init.
  - destruct (use_ctx_run id r s1 H Hr) as (? & ? & E' & ? & _). rewrite E' in E. by simplify_eq.
  - destruct (k_refs s1 !! r) as [o|] eqn:Hr.
    + destruct (drop_ref_run r o s1 H Hr) as (? & E' & ? & _). rewrite E' in E. by simplify_eq.
    + exfalso. revert E. unfold drop_ref, unuse_ctx, load_ref, bind. by rewrite Hr.
  - destruct o as [p|]; [|by injection E as _ <-].
    destruct (ki_back _ H _ _ Hr) as (c & Hc & _). destruct (co_cipher _ (ki_ok _ H _ _ Hc)) as (t & Ht & _).
    destruct (decide (cc_activated c = 0)) as [Ha|Ha].
    + rewrite (priv_crypt_off p c) in E by done. by simplify_eq.
    + destruct (priv_crypt_run p c t data s1 Hc (ki_ok _ H _ _ Hc) Ht Ha) as (pg & _ & _ & Hok & E').
      rewrite E' in E. simplify_eq. by eapply kinv_put.
  - unfold priv_pid_death_action, bind, gets in E. rewrite (ki_init _ H) in E. simpl in E.
    eapply wp_run in E; [|apply pid_death_loop_spec; [done|apply H|intros p; apply H]]. apply E.
Qed.
End Commands.
End Inv.

(** ** Properties *)

Section DriverProperties.
Context {B : BlkCipher} {L : StreamCipher B}.
Variable kf : fault -> Prop.
Variable ops : option dhm_kex_ops.



(** C12: when a process dies exactly the contexts it allocated are destroyed:
    every other context is untouched, the list loses just those, and no device's
    reference is left pointing at a destroyed one. *)
Theorem pid_death_exact pid s : kinv s ->
  exists s', priv_pid_death_action pid s = Done (tt, s') /\ kinv s' /\
    (forall p c, k_ctxs s' !! p = Some c <-> k_ctxs s !! p = Some c /\ cc_alloc_pid c <> pid) /\
    (forall p, p ∈ k_list s' <-> exists c, k_ctxs s !! p = Some c /\ cc_alloc_pid c <> pid) /\
    (forall r p, k_refs s' !! r = Some (Some p) -> exists c, k_ctxs s !! p = Some c /\ cc_alloc_pid c <> pid).
Proof.
  intros H. unfold priv_pid_death_action, bind, gets. rewrite (ki_init _ H). simpl.
  destruct (wp_elim _ _ _ (pid_death_loop_spec pid (k_list s) s H (ki_nodup _ H) (fun p => proj1 (ki_live _ H p))))
    as ([] & s' & E & H' & _ & Hc).
  assert (Hs : forall p c, k_ctxs s' !! p = Some c <-> k_ctxs s !! p = Some c /\ cc_alloc_pid c <> pid).
  { intros p c. rewrite Hc. unfold survives. destruct (k_ctxs s !! p) as [d|] eqn:Hd; [|by split; [|intros []]].
    rewrite bool_decide_eq_true_2 by (apply H; eauto). simpl.
    destruct (Z.eqb_spec (cc_alloc_pid d) pid); split; try done; [by intros [[= ->] ?]|by intros [= ->]|by intros [[= ->] ?]]. }
  exists s'. split; [done|]. split; [done|]. split; [done|]. split.
  - intros p. rewrite (ki_live _ H'). split; [intros [c Hp]; exists c; by apply Hs|intros (c & Hp); exists c; by apply Hs].
  - intros r p Hr. destruct (ki_back _ H' _ _ Hr) as (c & Hp & _). exists c. by apply Hs.
Qed.

(** C13: taking up a context by its id through an idle reference: the id decides
    the context; -ENODEV if there is none, -EBUSY and no change if another
    reference has it, and otherwise the two are linked and nobody else can take
    the context up. *)
Theorem use_ctx_correct id r s : kinv s -> k_refs s !! r = Some None ->
  exists rc s', use_ctx id (Some r) s = Done (rc, s') /\ kinv s' /\
  ((forall p c, k_ctxs s !! p = Some c -> cc_id c <> id) /\ rc = - ENODEV /\ s' = s \/
   exists p c, k_ctxs s !! p = Some c /\ cc_id c = id /\
     (is_Some (cc_user_ref c) /\ rc = - EBUSY /\ s' = s \/
      cc_user_ref c = None /\ rc = 0 /\ k_refs s' !! r = Some (Some p) /\
      forall r2, k_refs s' !! r2 = Some None -> use_ctx id (Some r2) s' = Done (- EBUSY, s'))).
Proof.
  intros H Hr. destruct (use_ctx_run id r s H Hr) as (rc & s' & E & H' & Hcases). exists rc, s'.
  split; [done|]. split; [done|]. destruct Hcases as [(p & c & Hp & Hid & [(Hn & -> & ->)|Hb])|Hnone]; [| |by left].
  2: { right. exists p, c. split; [done|]. split; [done|]. by left. }
  right. exists p, c. split; [done|]. split; [done|]. right. split_and!; try done; [apply lookup_insert_eq|].
  intros r2 Hr2. assert (Hp' : k_ctxs (linked p r c s) !! p = Some (upd_user true (Some r) c)) by apply lookup_insert_eq.
  pose proof (find_ctx_by_id_found p (upd_user true (Some r) c) _ H' Hp') as F. cbn [cc_id upd_user] in F. rewrite Hid in F.
  unfold use_ctx, bind. by rewrite F, (load_run _ _ _ Hp').
Qed.

(** A successful NEW_CTX returns an id by which USE_CTX on any other file finds
    that very context, and DESTROY then releases everything it allocated. *)
Theorem new_use_destroy pid f g d s s1 i :
  kinv s -> k_id s < 2 ^ 31 - 1 -> f <> g -> do_new_ctx pid f (Some d) s = Done (i, s1) -> 0 <= i ->
  exists s2 s3, do_use_ctx g (Some i) s1 = Done (0, s2) /\ k_files s2 !! g = k_files s2 !! f /\
    do_destroy g s2 = Done (0, s3) /\ k_ctxs s3 = k_ctxs s /\ k_list s3 = k_list s /\ k_live s3 = k_live s.
Proof.
  intros H Hid Hfg Hrun Hi. pose proof (wp_run _ _ _ _ _ _ (do_new_ctx_spec pid f (Some d) s H Hid) Hrun) as [H1 Hc].
  destruct Hc as [(? & _)|(p & c & -> & Hcid & _ & _ & Hp & Hm & Hl & Hf & Hlive)]; [lia|].
  assert (Hp1 : k_ctxs s1 !! p = Some c) by (rewrite Hm; apply lookup_insert_eq).
  pose proof (find_ctx_by_id_found p c s1 H1 Hp1) as F. rewrite Hcid in F.
  unfold do_use_ctx, bind. rewrite F. unfold set_file, modify, ret.
  set (s2 := set_files _ s1). assert (H2 : kinv s2) by (by apply kinv_files).
  assert (Fo : file_ok g (Some p) s2) by (split; [apply lookup_insert_eq|intros q [= <-]; simpl; by rewrite Hp1]).
  pose proof (do_destroy_run g (Some p) s2 H2 Fo) as D. 
  assert (Hp2 : k_ctxs s2 !! p = Some c) by exact Hp1. cbv iota beta in D. rewrite Hp2 in D.
  eexists s2, _. split; [done|]. split; [simpl; by rewrite lookup_insert_eq, lookup_insert_ne, Hf, lookup_insert_eq|].
  split; [exact D|]. cbn. rewrite Hm, Hl, Hlive, delete_insert_id by done. split; [done|]. split; [|lia].
  rewrite filter_cons_False by (by intros []). apply filter_all. intros q Hq ->.
  apply (ki_live _ H) in Hq. rewrite Hp in Hq. by destruct Hq.
Qed.
End DriverProperties.

(** ** Where the protocol breaks *)

Section DriverFindings.
Context {B : BlkCipher} {L : StreamCipher B}.

(** [unuse_ctx] leaves the reference's pointer in place.  A device that gives
    a context up and keeps the reference (as writing an unknown id to the sysfs
    attribute of a private USB device does) holds a dangling pointer once the
    owner destroys the context: the next packet is a use after free. *)
Theorem unuse_keeps_pointer p c r f data s :
  kinv s -> k_ctxs s !! p = Some c -> cc_user_ref c = Some r -> file_ok f (Some p) s ->
  exists s1 s2 s3,
    unuse_ctx (Some r) s = Done (tt, s1) /\
    (forall id, (forall q d, k_ctxs s !! q = Some d -> cc_id d <> id) -> use_ctx id (Some r) s1 = Done (- ENODEV, s1)) /\
    do_destroy f s1 = Done (0, s2) /\ load_ref r s2 = Done (Some p, s3) /\
    priv_crypt (Some p) data data s2 = Oops UseAfterFree.
Proof.
  intros H Hp Hu [Hf _]. pose proof (ki_refs _ H _ _ _ Hp Hu) as Hr.
  set (c1 := upd_user false None c). set (s1 := put p c1 s).
  assert (P1 : k_ctxs s1 !! p = Some c1) by apply put_lookup.
  assert (E1 : unuse_ctx (Some r) s = Done (tt, s1)) by (by apply unuse_ctx_run).
  assert (Hlive : forall q, is_Some (k_ctxs s !! q) <-> is_Some (k_ctxs s1 !! q)).
  { intros q. simpl. rewrite lookup_insert_is_Some'. split; [by right|intros [<- | ?]; eauto]. }
  eexists s1, _, _. split; [done|]. split; [|split; [|split]].
  - intros id Hid. unfold use_ctx, bind at 1, find_ctx_by_id, bind at 1, gets.
    destruct (find_loop_run id (k_list s1) s1) as (o & E & Ho); [intros q Hq; by apply Hlive, (ki_live _ H)|].
    rewrite E. destruct o as [q|]; [|done]. destruct Ho as [_ (d & Hd & Hi)]. exfalso. simpl in Hd.
    apply lookup_insert_Some in Hd as [[<- <-]|[_ Hd]]; [by apply (Hid _ _ Hp)|by apply (Hid _ _ Hd)].
  - assert (G : get_file f s1 = Done (Some p, s1)) by (unfold get_file; simpl; by rewrite Hf).
    unfold do_destroy, bind at 1. rewrite G. unfold remove_ctx, bind at 1 2. rewrite (load_run _ _ _ P1).
    unfold c1 at 1. cbn [cc_user_ref upd_user]. unfold bind, ret, modify.
    rewrite (destroy_crypto_ctx_run p c1) by done. done.
  - unfold load_ref, set_file, modify. cbn. by rewrite Hr.
  - unfold priv_crypt, bind, load, set_file, modify. cbn. by rewrite delete_insert_eq, lookup_delete_eq.
Qed.
End DriverFindings.

(** ** Witnesses: a small run over the toy cipher *)

Section DriverWitness.
#[local] Existing Instance aes_cipher.

(** Key-exchange operations that answer three bytes and a constant key. *)
Definition wit_ops : dhm_kex_ops := {|
  dhm_kex := unit;
  ko_init := ret (0, Some tt);
  ko_destroy := fun _ => ret tt;
  ko_respond := fun k n _ => if n <? 3 then ret (- ENOMEM, k, 0, []) else ret (0, k, 3, [5; 6; 7]);
  ko_get_key := fun _ n => ret (0, replicate (Z.to_nat n) 9);
|}.

Lemma wit_ops_laws o : Some wit_ops = Some o -> KexLaws total o.
Proof.
  intros [= <-]. split; simpl; intros; try by wp_pure.
  - case_match; wp_pure; simpl; split_and!; done || lia.
  - wp_pure. split; [done|]. simpl. by rewrite length_replicate.
Qed.

Definition wit_s0 : kstate := KS true [] ∅ ∅ ∅ ∅ 0 0 0 [] [].
Definition wit_arg : uarg := UArg (Some (AlgDesc 1 16 1)) (Some 1) None (Some (KexDesc 1 (Some [1]) true true)).
Definition wit_s1 : kstate := exec (priv_crypt_open 0) wit_s0.
Definition wit_new : M kstate (Z * uout) := priv_crypt_ioctl (Some wit_ops) 42 0 PRIV_CRYPT_CMD_NEW_CTX wit_arg.
Definition wit_s2 : kstate := exec wit_new wit_s1.
Definition wit_s3 : kstate := set_refs (<[7%nat := None]> (k_refs wit_s2)) wit_s2.
Definition wit_s4 : kstate := exec (use_ctx 1 (Some 7%nat)) wit_s3.

Lemma wit_loaded : loaded wit_s0.
Proof. repeat split. Qed.

Lemma wit_arg_ok : uarg_ok wit_arg.
Proof. split; intros d [= <-]. split; [done|]. intros b [= <-]. reflexivity. Qed.

Lemma wit_new_run : wit_new wit_s1 = Done ((1, no_uout), wit_s2).
Proof. apply (val_exec wit_new wit_s1). vm_compute. reflexivity. Qed.

Lemma wit_use_run : use_ctx 1 (Some 7%nat) wit_s3 = Done (0, wit_s4).
Proof. apply (val_exec (use_ctx 1 (Some 7%nat)) wit_s3). vm_compute. reflexivity. Qed.

Lemma wit_run : rtc (kstep (Some wit_ops)) wit_s0 wit_s4.
Proof.
  eapply rtc_l; [apply (ks_open _ 0 0 wit_s0 wit_s1); reflexivity|].
  eapply rtc_l; [apply (ks_ioctl _ 42 0 PRIV_CRYPT_CMD_NEW_CTX wit_arg (1, no_uout) wit_s1 wit_s2);
    [apply wit_arg_ok|vm_compute; reflexivity|exact wit_new_run]|].
  eapply rtc_l; [apply (ks_ref_init _ 7 wit_s2 wit_s3); [vm_compute; reflexivity|reflexivity]|].
  eapply rtc_l; [apply (ks_use _ 1 7 0 wit_s3 wit_s4); [vm_compute; reflexivity|exact wit_use_run]|].
  apply rtc_refl.
Qed.


Lemma wit_inv2 : kinv wit_s2 /\ kinv wit_s3 /\ kinv wit_s4.
Proof.
  assert (H1 : kinv wit_s1) by (apply (kstep_inv _ _ wit_ops_laws wit_s0); [apply kinv_loaded, wit_loaded|by eapply ks_open]).
  assert (H2 : kinv wit_s2).
  { apply (kinv_ioctl _ _ wit_ops_laws 42 0 PRIV_CRYPT_CMD_NEW_CTX wit_arg (1, no_uout) wit_s1); [done|apply wit_arg_ok|vm_compute; reflexivity|].
    exact wit_new_run. }
  assert (H3 : kinv wit_s3) by (apply (kinv_ref_init 7 wit_s2); [done|vm_compute; reflexivity]).
  split; [done|]. split; [done|].
  destruct (use_ctx_run 1 7 wit_s3 H3) as (rc & s' & E & H & _); [vm_compute; reflexivity|].
  unfold wit_s4, exec. by rewrite E.
Qed.

Lemma wit_file : file_ok 0 (Some 0%nat) wit_s4.
Proof. split; [vm_compute; reflexivity|]. intros p [= <-]. apply (ki_live _ (proj2 (proj2 wit_inv2))). vm_compute. by left. Qed.

Definition wit_kex : M kstate (Z * uout) :=
  priv_crypt_ioctl (Some wit_ops) 42 0 PRIV_CRYPT_CMD_KEY_EXCHANGE wit_arg.


Lemma pid_death_exact_witness :
  exists s', priv_pid_death_action 42 wit_s4 = Done (tt, s') /\ forall r p, k_refs s' !! r <> Some (Some p).
Proof.
  destruct (pid_death_exact 42 wit_s4 (proj2 (proj2 wit_inv2))) as (s' & E & _ & _ & _ & Hr).
  exists s'. split; [exact E|]. intros r p Hp. destruct (Hr r p Hp) as (c & Hc & Hpid). apply Hpid.
  assert (Hl : p ∈ k_list wit_s4) by (apply (ki_live _ (proj2 (proj2 wit_inv2))); eauto).
  assert (E0 : k_list wit_s4 = [0%nat]) by (vm_compute; reflexivity).
  rewrite E0 in Hl. apply list_elem_of_singleton in Hl. subst p.
  assert (Ep : cc_alloc_pid <$> k_ctxs wit_s4 !! 0%nat = Some 42) by (vm_compute; reflexivity).
  rewrite Hc in Ep. by injection Ep.
Defined.

Lemma use_ctx_correct_witness :
  exists s', use_ctx 1 (Some 7%nat) wit_s3 = Done (0, s') /\ kinv s'.
Proof.
  destruct (use_ctx_correct 1 7 wit_s3 (proj1 (proj2 wit_inv2)) ltac:(vm_compute; reflexivity)) as (rc & s' & E & H & _).
  exists s'. split; [|exact H]. rewrite wit_use_run in E. injection E as <- <-. exact wit_use_run.
Defined.

Definition wit_mk : M kstate Z := do_new_ctx 43 1 (Some (AlgDesc 1 32 2)).

Lemma new_use_destroy_witness :
  exists s2 s3, do_use_ctx 2 (Some 2) (exec wit_mk wit_s2) = Done (0, s2) /\ do_destroy 2 s2 = Done (0, s3) /\
    k_list s3 = k_list wit_s2.
Proof.
  destruct (new_use_destroy 43 1 2 (AlgDesc 1 32 2) wit_s2 (exec wit_mk wit_s2) 2) as (s2 & s3 & E1 & _ & E2 & _ & E3 & _);
    [apply wit_inv2|vm_compute; reflexivity|discriminate|apply (val_exec wit_mk wit_s2); vm_compute; reflexivity|discriminate|].
  exists s2, s3. auto.
Defined.

Lemma unuse_keeps_pointer_witness :
  exists s1 s2, unuse_ctx (Some 7%nat) wit_s4 = Done (tt, s1) /\ do_destroy 0 s1 = Done (0, s2) /\
    priv_crypt (Some 0%nat) [1] [1] s2 = Oops UseAfterFree.
Proof.
  pose proof (proj2 (proj2 wit_inv2)) as H.
  destruct (ki_back _ H 7%nat 0%nat) as (c & Hc & Hu); [vm_compute; reflexivity|].
  destruct (unuse_keeps_pointer 0 c 7 0 [1] wit_s4 H Hc Hu wit_file) as (s1 & s2 & s3 & E1 & _ & E2 & _ & E3).
  exists s1, s2. auto.
Defined.

(** The same state with the context activated. *)
Definition wit_act : M kstate (Z * uout) := priv_crypt_ioctl (Some wit_ops) 42 0 PRIV_CRYPT_CMD_ACTIVATE wit_arg.
Definition wit_s5 : kstate := exec wit_act wit_s4.

Lemma wit_act_run : wit_act wit_s4 = Done ((0, no_uout), wit_s5).
Proof. apply (val_exec wit_act wit_s4). vm_compute. reflexivity. Qed.

Lemma wit_inv5 : kinv wit_s5.
Proof.
  apply (kinv_ioctl _ _ wit_ops_laws 42 0 PRIV_CRYPT_CMD_ACTIVATE wit_arg (0, no_uout) wit_s4);
    [apply wit_inv2|apply wit_arg_ok|vm_compute; reflexivity|exact wit_act_run].
Qed.

Lemma wit_ref5 : k_refs wit_s5 !! 7%nat = Some (Some 0%nat).
Proof. vm_compute. reflexivity. Qed.

Lemma wit_ctx5 : exists c t, k_ctxs wit_s5 !! 0%nat = Some c /\ cc_cipher c = Some t /\
  cc_user_ref c = Some 7%nat /\ cc_activated c <> 0 /\ cc_id c = 1.
Proof.
  destruct (ki_back _ wit_inv5 _ _ wit_ref5) as (c & Hc & Hu).
  destruct (co_cipher _ (ki_ok _ wit_inv5 _ _ Hc)) as (t & Ht & _). exists c, t.
  split; [exact Hc|]. split; [exact Ht|]. split; [exact Hu|]. split.
  - assert (E : cc_activated <$> k_ctxs wit_s5 !! 0%nat = Some 1) by (vm_compute; reflexivity).
    rewrite Hc in E. injection E as ->. done.
  - assert (E : cc_id <$> k_ctxs wit_s5 !! 0%nat = Some 1) by (vm_compute; reflexivity).
    rewrite Hc in E. by injection E.
Qed.

Lemma wit_file5 : file_ok 0 (Some 0%nat) wit_s5.
Proof. split; [vm_compute; reflexivity|]. intros p [= <-]. destruct wit_ctx5 as (c & _ & Hc & _). eauto. Qed.
End DriverWitness.
