(* ===== verification/UsbChannel.v ===== *)
(** * Private USB devices

    linux-3.0/drivers/priv/usb.c (encryption of completed URBs),
    drivers/priv/sysfs.c (the crypt_ctx_id attribute of a device) and the private
    part of drivers/usb/core/endpoint.c (setting an endpoint device up).  The
    state is the driver's heap and one endpoint device. *)

From S2P Require Import Prelude Text BlkCipher Ctr AesCipher PrivCrypt Kex Driver.

(** A completed [struct urb]: whether its endpoint has a device, and the first
    [actual_length] bytes of [transfer_buffer], [None] for NULL. *)
Record urb := Urb { urb_ep_dev : bool; urb_buf : option bytes }.

(** [struct urb_encrypt_work] *)
Record urb_encrypt_work := Work { w_hcd : Z; w_urb : urb; w_status : Z }.

(** The private fields of [struct device]. [d_priv] is [cctx_priv]: [None] for
    NULL, [Some None] for allocated and not filled in. *)
Record device := Dev {
  d_ref : nat;
  d_cctx_id : Z;
  d_priv : option (option urb_encrypt_work);
  d_attr : bool;
}.

Section Usb.
Context {B : BlkCipher}.

(** [u_pending]: the work item is queued; [u_count]: the reference count of the
    device; [u_given]: the URBs given back to the USB core, newest first. *)
Record ustate := US {
  u_k : kstate;
  u_dev : device;
  u_pending : bool;
  u_count : Z;
  u_given : list (Z * urb * Z);
}.

Abbreviation U := (M ustate).

Definition set_k (k : kstate) (u : ustate) : ustate := US k (u_dev u) (u_pending u) (u_count u) (u_given u).
Definition set_dev (d : device) (u : ustate) : ustate := US (u_k u) d (u_pending u) (u_count u) (u_given u).
Definition set_pending (b : bool) (u : ustate) : ustate := US (u_k u) (u_dev u) b (u_count u) (u_given u).
Definition set_count (n : Z) (u : ustate) : ustate := US (u_k u) (u_dev u) (u_pending u) n (u_given u).
Definition kern {A} (m : M kstate A) : U A := zoom u_k set_k m.

Definition set_cctx_id (i : Z) (d : device) : device := Dev (d_ref d) i (d_priv d) (d_attr d).
Definition set_priv (w : option (option urb_encrypt_work)) (d : device) : device := Dev (d_ref d) (d_cctx_id d) w (d_attr d).
Definition set_attr (b : bool) (d : device) : device := Dev (d_ref d) (d_cctx_id d) (d_priv d) b.
Definition upd_dev (f : device -> device) : U unit := modify (fun u => set_dev (f (u_dev u)) u).

(** ** usb.c *)

(** [usb_hcd_giveback_urb] *)
Definition usb_hcd_giveback_urb (hcd : Z) (x : urb) (status : Z) : U unit :=
  modify (fun u => US (u_k u) (u_dev u) (u_pending u) (u_count u) ((hcd, x, status) :: u_given u)).

(** [priv_usb_work_setup] *)
Definition priv_usb_work_setup : U Z :=
  let! a := kern kmalloc in
  match a with
  | Some _ => upd_dev (set_priv None) ;; ret (- ENOMEM)
  | None => upd_dev (set_priv (Some None)) ;; ret 0
  end.

(** [priv_usb_work_destroy]: the pointer stays. *)
Definition priv_usb_work_destroy : U unit := kern kfree.

(** [priv_usb_urb_enc]: the status and the URB afterwards. *)
Definition priv_usb_urb_enc (x : urb) : U (Z * urb) :=
  if negb (urb_ep_dev x) then ret (-1, x) else
  let! d := gets u_dev in
  let! o := kern (load_ref (d_ref d)) in
  match o with
  | None => ret (0, x)
  | Some p =>
      match urb_buf x with
      | None => oops Bug                           (* BUG_ON *)
      | Some buf =>
          let erase := ret (- EPIPE, Urb (urb_ep_dev x) (Some (zeros (length buf)))) in
          let! a := kern (priv_is_activated (Some p)) in
          if a =? 0 then erase else
          let! r := kern (priv_crypt (Some p) buf buf) in
          if fst r <? 0 then erase else ret (0, Urb (urb_ep_dev x) (Some (snd r)))
      end
  end.

(** [encrypt_and_giveback_urb]: the work queue runs the work item. *)
Definition encrypt_and_giveback_urb : U unit :=
  modify (set_pending false) ;;
  let! d := gets u_dev in
  match d_priv d with
  | None => oops NullDeref
  | Some None => oops Uninit
  | Some (Some w) =>
      let! r := priv_usb_urb_enc (w_urb w) in
      usb_hcd_giveback_urb (w_hcd w) (snd r) (if fst r <? 0 then fst r else w_status w)
  end.

(** [priv_schedule_giveback_urb].  [INIT_WORK] on a work item that is still queued
    corrupts the queue. *)
Definition priv_schedule_giveback_urb (hcd : Z) (x : urb) (status : Z) : U unit :=
  if urb_ep_dev x && (0 <=? status) then
    let! d := gets u_dev in
    let! o := kern (load_ref (d_ref d)) in
    let! a := match o with None => ret 0 | Some p => kern (priv_is_activated (Some p)) end in
    if a =? 0 then usb_hcd_giveback_urb hcd x status else
    match d_priv d with
    | None => oops NullDeref
    | Some _ =>
        let! b := gets u_pending in
        if b then oops Bug else
        upd_dev (set_priv (Some (Some (Work hcd x status)))) ;;
        modify (set_pending true)
    end
  else usb_hcd_giveback_urb hcd x status.

(** ** sysfs.c *)

(** [device_cctx_id_show] *)
Definition device_cctx_id_show : U (Z * bytes) :=
  let! d := gets u_dev in
  let out := sprintf_d (s32 (d_cctx_id d)) in
  ret (Z.of_nat (length out), out).

(** [device_cctx_id_store] *)
Definition device_cctx_id_store (buf : bytes) : U Z :=
  match sscanf_d buf with
  | None => ret (- EINVAL)
  | Some i =>
      let id := u32 i in
      let! d := gets u_dev in
      kern (unuse_ctx (Some (d_ref d))) ;;
      let! rc := kern (use_ctx id (Some (d_ref d))) in
      if rc <? 0 then ret rc else
      upd_dev (set_cctx_id id) ;;
      ret (Z.of_nat (length buf))
  end.

(** [device_setup_cctx_attribute]; [create] is the result of
    [device_create_file]. *)
Definition device_setup_cctx_attribute (create : Z) : U Z :=
  let! a := kern kmalloc in
  match a with
  | Some _ => ret (- ENOMEM)
  | None =>
      if create <? 0 then kern kfree ;; ret create else
      let! d := gets u_dev in
      kern (cctx_ref_init (d_ref d)) ;;
      upd_dev (set_attr true) ;;
      ret 0
  end.

(** [device_destroy_cctx_attribute] *)
Definition device_destroy_cctx_attribute : U unit :=
  let! d := gets u_dev in
  if d_attr d then
    kern kfree ;;
    upd_dev (set_attr false) ;;
    kern (unuse_ctx (Some (d_ref d))) ;;
    upd_dev (set_cctx_id 0)
  else ret tt.

(** ** endpoint.c *)

(** [priv_usb_setup], [priv_usb_destroy] *)
Definition priv_usb_setup (create : Z) : U Z :=
  let! rc := device_setup_cctx_attribute create in
  if rc <? 0 then ret rc else
  let! rc := priv_usb_work_setup in
  if rc <? 0 then device_destroy_cctx_attribute ;; ret rc else ret 0.

Definition priv_usb_destroy : U unit :=
  priv_usb_work_destroy ;; device_destroy_cctx_attribute.

(** [put_device]; the last one calls [ep_device_release]. *)
Definition put_device : U unit :=
  let! n := gets u_count in
  if n <=? 0 then oops UseAfterFree else
  modify (set_count (n - 1)) ;;
  if n =? 1 then
    let! d := gets u_dev in
    kern kfree ;; kern (free_ref (d_ref d))
  else ret tt.

(** [device_unregister]: [device_del] and [put_device] *)
Definition device_unregister : U unit := put_device.

(** [usb_create_ep_devs]; [register] is the result of [device_register], after
    which the caller holds the only reference. *)
Definition usb_create_ep_devs (register create : Z) : U Z :=
  let! a := kern kmalloc in
  match a with
  | Some _ => ret (- ENOMEM)
  | None =>
      upd_dev (fun d => Dev (d_ref d) 0 None false) ;;
      modify (set_count 1) ;;
      if negb (register =? 0) then put_device ;; ret register else
      let! rc := priv_usb_setup create in
      if rc <? 0 then device_unregister ;; put_device ;; ret rc else
      ret rc
  end.

(** [usb_remove_ep_devs] of an endpoint that has a device *)
Definition usb_remove_ep_devs : U unit := priv_usb_destroy ;; device_unregister.
End Usb.

(** ** Facts *)

Section UsbFacts.
Context {B : BlkCipher} {L : StreamCipher B}.
Abbreviation U := (M ustate).

Lemma kern_run {A} (m : M kstate A) u a k : m (u_k u) = Done (a, k) -> kern m u = Done (a, set_k k u).
Proof. intros H. unfold kern, zoom. by rewrite H. Qed.

Lemma bind_run {S A C} (m : M S A) (k : A -> M S C) s a s' : m s = Done (a, s') -> bind m k s = k a s'.
Proof. intros H. unfold bind. by rewrite H. Qed.

Lemma load_ref_run r o s : k_refs s !! r = Some o -> load_ref r s = Done (o, s).
Proof. intros H. unfold load_ref. by rewrite H. Qed.

Lemma set_k_id u : set_k (u_k u) u = u.
Proof. by destruct u. Qed.

Lemma is_activated_run p c s : k_ctxs s !! p = Some c -> priv_is_activated (Some p) s = Done (cc_activated c, s).
Proof. intros H. unfold priv_is_activated, bind. by rewrite (load_run _ _ _ H). Qed.

(** What the worker does to a URB, by the state of the device's reference. *)
Lemma urb_enc_run u o data :
  kinv (u_k u) -> k_refs (u_k u) !! d_ref (u_dev u) = Some o ->
  exists rc out k, priv_usb_urb_enc (Urb true (Some data)) u = Done ((rc, Urb true (Some out)), set_k k u) /\ kinv k /\
  match o with
  | None => rc = 0 /\ out = data /\ k = u_k u
  | Some p => exists c t, k_ctxs (u_k u) !! p = Some c /\ cc_cipher c = Some t /\
      ((cc_activated c <> 0 /\ rc = 0 /\ out = stream_xor t data /\
          exists c', k_ctxs k !! p = Some c' /\ cc_cipher c' = Some (next t (length data))) \/
       (cc_activated c = 0 /\ rc = - EPIPE /\ out = zeros (length data) /\ k = u_k u))
  end.
Proof.
  intros H Hr. unfold priv_usb_urb_enc. cbn [urb_ep_dev negb urb_buf].
  unfold bind at 1, gets. rewrite (bind_run _ _ _ _ _ (kern_run _ _ _ _ (load_ref_run _ _ _ Hr))), set_k_id.
  destruct o as [p|].
  2: { exists 0, data, (u_k u). rewrite set_k_id. by split_and!. }
  destruct (ki_back _ H _ _ Hr) as (c & Hc & _). pose proof (ki_ok _ H _ _ Hc) as Hok.
  destruct (co_cipher _ Hok) as (t & Ht & _).
  rewrite (bind_run _ _ _ _ _ (kern_run _ _ _ _ (is_activated_run _ _ _ Hc))), set_k_id.
  destruct (Z.eqb_spec (cc_activated c) 0) as [Ha|Ha].
  - exists (- EPIPE), (zeros (length data)), (u_k u). rewrite set_k_id. split_and!; try done. exists c, t. split_and!; try done. by right.
  - destruct (priv_crypt_run p c t data (u_k u) Hc Hok Ht Ha) as (pg & _ & _ & Hok' & E).
    rewrite (bind_run _ _ _ _ _ (kern_run _ _ _ _ E)). cbn [fst snd Z.ltb Z.compare].
    eexists _, _, _. split; [done|]. split; [by eapply kinv_put|]. exists c, t. split_and!; try done. left.
    split_and!; try done. eexists. split; [apply put_lookup|done].
Qed.

(** Scheduling with an active context only fills the work item in. *)
Lemma schedule_run u p c hcd data st :
  k_refs (u_k u) !! d_ref (u_dev u) = Some (Some p) -> k_ctxs (u_k u) !! p = Some c -> cc_activated c <> 0 ->
  0 <= st -> is_Some (d_priv (u_dev u)) -> u_pending u = false ->
  let x := Urb true (Some data) in
  priv_schedule_giveback_urb hcd x st u
  = Done (tt, set_pending true (set_dev (set_priv (Some (Some (Work hcd x st))) (u_dev u)) u)).
Proof.
  intros Hr Hc Ha Hst [w Hw] Hp x. unfold priv_schedule_giveback_urb. cbn [urb_ep_dev x].
  replace (0 <=? st) with true by lia. cbn [andb].
  unfold bind at 1, gets at 1. rewrite (bind_run _ _ _ _ _ (kern_run _ _ _ _ (load_ref_run _ _ _ Hr))), set_k_id.
  rewrite (bind_run _ _ _ _ _ (kern_run _ _ _ _ (is_activated_run _ _ _ Hc))), set_k_id.
  apply Z.eqb_neq in Ha. rewrite Ha, Hw. unfold bind at 1, gets at 1. by rewrite Hp.
Qed.

Lemma worker_run u w o data :
  kinv (u_k u) -> k_refs (u_k u) !! d_ref (u_dev u) = Some o ->
  d_priv (u_dev u) = Some (Some w) -> w_urb w = Urb true (Some data) ->
  exists rc out k, priv_usb_urb_enc (Urb true (Some data)) (set_pending false u) = Done ((rc, Urb true (Some out)), set_k k (set_pending false u)) /\
  encrypt_and_giveback_urb u
  = Done (tt, US k (u_dev u) false (u_count u)
      ((w_hcd w, Urb true (Some out), if rc <? 0 then rc else w_status w) :: u_given u)).
Proof.
  intros H Hr Hd Hw. destruct (urb_enc_run (set_pending false u) o data H Hr) as (rc & out & k & E & _).
  exists rc, out, k. split; [done|]. unfold encrypt_and_giveback_urb, bind at 1 2, modify, gets. cbn [u_dev set_pending].
  rewrite Hd, Hw. by rewrite (bind_run _ _ _ _ _ E).
Qed.
End UsbFacts.

(** ** Properties *)

Section UsbProperties.
Context {B : BlkCipher} {L : StreamCipher B}.

(** A URB that completes on a device with an active context is given back
    exactly once, with its data encrypted under the context's key stream and its
    own status, and the key stream moves on by the length of the data. *)
Theorem urb_given_back_encrypted u p c t hcd data st :
  kinv (u_k u) -> k_refs (u_k u) !! d_ref (u_dev u) = Some (Some p) ->
  k_ctxs (u_k u) !! p = Some c -> cc_cipher c = Some t -> cc_activated c <> 0 ->
  0 <= st -> is_Some (d_priv (u_dev u)) -> u_pending u = false ->
  exists u' c', (priv_schedule_giveback_urb hcd (Urb true (Some data)) st ;; encrypt_and_giveback_urb) u = Done (tt, u') /\
    u_given u' = (hcd, Urb true (Some (stream_xor t data)), st) :: u_given u /\ u_pending u' = false /\
    kinv (u_k u') /\ k_ctxs (u_k u') !! p = Some c' /\ cc_cipher c' = Some (next t (length data)).
Proof.
  intros H Hr Hc Ht Ha Hst Hd Hp. rewrite (bind_run _ _ _ _ _ (schedule_run u p c hcd data st Hr Hc Ha Hst Hd Hp)).
  set (u1 := set_pending true _).
  destruct (worker_run u1 (Work hcd (Urb true (Some data)) st) (Some p) data) as (rc & out & k & E & Er); try done.
  destruct (urb_enc_run (set_pending false u1) (Some p) data) as (rc' & out' & k' & E' & Hk & Hcase); try done.
  rewrite E' in E. injection E as <- <- <-. destruct Hcase as (c0 & t0 & Hc0 & Ht0 & [(_ & -> & -> & c' & Hc' & Hn)|(Ha' & _)]).
  2: { cbn in Hc0. congruence. }
  cbn in Hc0. simplify_eq. rewrite Er. eexists _, c'. split; [done|]. by split_and!.
Qed.

(** What the worker gives back, whatever happened to the context since the
    URB was queued: encrypted data if the context is active, zeroes with -EPIPE
    if it is inactive, and the data as it came, with success, if the device's
    reference has no context any more. *)
Theorem worker_cases u w o data :
  kinv (u_k u) -> k_refs (u_k u) !! d_ref (u_dev u) = Some o ->
  d_priv (u_dev u) = Some (Some w) -> w_urb w = Urb true (Some data) -> 0 <= w_status w ->
  exists u' out st, encrypt_and_giveback_urb u = Done (tt, u') /\ kinv (u_k u') /\
    u_given u' = (w_hcd w, Urb true (Some out), st) :: u_given u /\
    match o with
    | None => out = data /\ st = w_status w
    | Some p => exists c t, k_ctxs (u_k u) !! p = Some c /\ cc_cipher c = Some t /\
        if cc_activated c =? 0 then out = zeros (length data) /\ st = - EPIPE
        else out = stream_xor t data /\ st = w_status w
    end.
Proof.
  intros H Hr Hd Hw Hst. destruct (worker_run u w o data H Hr Hd Hw) as (rc & out & k & E & Er).
  destruct (urb_enc_run (set_pending false u) o data H Hr) as (rc' & out' & k' & E' & Hk & Hcase).
  rewrite E' in E. injection E as <- <- <-. rewrite Er. eexists _, _, _. split; [done|]. split; [done|]. split; [done|].
  destruct o as [p|].
  - destruct Hcase as (c & t & Hc & Ht & Hx). exists c, t. split; [done|]. split; [done|].
    destruct Hx as [(Ha & -> & -> & _)|(Ha & -> & -> & _)]; [by apply Z.eqb_neq in Ha as ->|by rewrite Ha].
  - by destruct Hcase as (-> & -> & _).
Qed.

(** A URB queued for encryption under an active context is given back in the
    clear, with success, when the owner of the context destroys it before the
    worker runs. *)
Theorem destroyed_context_leaks u f p c hcd data st :
  kinv (u_k u) -> file_ok f (Some p) (u_k u) ->
  k_ctxs (u_k u) !! p = Some c -> cc_user_ref c = Some (d_ref (u_dev u)) -> cc_activated c <> 0 ->
  0 <= st -> is_Some (d_priv (u_dev u)) -> u_pending u = false ->
  exists u', (priv_schedule_giveback_urb hcd (Urb true (Some data)) st ;;
              kern (do_destroy f) ;; encrypt_and_giveback_urb) u = Done (tt, u') /\
    u_given u' = (hcd, Urb true (Some data), st) :: u_given u.
Proof.
  intros H Hf Hc Hu Ha Hst Hd Hp. pose proof (ki_refs _ H _ _ _ Hc Hu) as Hr.
  rewrite (bind_run _ _ _ _ _ (schedule_run u p c hcd data st Hr Hc Ha Hst Hd Hp)).
  set (u1 := set_pending true _).
  pose proof (do_destroy_run f (Some p) (u_k u1) H Hf) as E. cbv iota beta in E.
  assert (Hc1 : k_ctxs (u_k u1) !! p = Some c) by exact Hc. rewrite Hc1 in E.
  rewrite (bind_run _ _ _ _ _ (kern_run _ _ _ _ E)). set (u2 := set_k _ u1).
  assert (H2 : kinv (u_k u2)) by (by apply kinv_files, kinv_reaped).
  assert (Hr2 : k_refs (u_k u2) !! d_ref (u_dev u2) = Some None).
  { cbn. unfold unref. rewrite Hu. apply lookup_insert_eq. }
  destruct (worker_run u2 (Work hcd (Urb true (Some data)) st) None data) as (rc & out & k & E1 & Er); try done.
  destruct (urb_enc_run (set_pending false u2) None data H2 Hr2) as (rc' & out' & k' & E' & Hk & Hcase).
  rewrite E' in E1. injection E1 as <- <- <-. destruct Hcase as (-> & -> & _). rewrite Er. eexists. by split.
Qed.

(** Writing the decimal id of an idle context to the attribute of a device
    releases the context the device had, takes the new one up, and the attribute
    then reads back what was written. *)
Theorem cctx_id_store_show u o p c i :
  kinv (u_k u) -> k_refs (u_k u) !! d_ref (u_dev u) = Some o ->
  k_ctxs (u_k u) !! p = Some c -> cc_id c = i -> i < 2 ^ 31 ->
  cc_user_ref c = None ->
  let text := sprintf_d i ++ [10] in
  exists u1, device_cctx_id_store text u = Done (Z.of_nat (length text), u1) /\
    kinv (u_k u1) /\ k_refs (u_k u1) !! d_ref (u_dev u1) = Some (Some p) /\
    (forall q d, o = Some q -> k_ctxs (u_k u1) !! q = Some d -> cc_user_ref d = None) /\
    device_cctx_id_show u1 = Done ((Z.of_nat (length (sprintf_d i)), sprintf_d i), u1).
Proof.
  intros H Hr Hp Hid Hi Hu text. pose proof (ki_id _ H _ _ Hp) as Hid0. rewrite Hid in Hid0.
  set (r := d_ref (u_dev u)) in *.
  assert (S1 : exists s1, unuse_ctx (Some r) (u_k u) = Done (tt, s1) /\ k_refs s1 = k_refs (u_k u) /\
    kinv (set_refs (<[r := None]> (k_refs s1)) s1) /\ k_ctxs s1 !! p = Some c /\
    (forall q d, o = Some q -> k_ctxs s1 !! q = Some d -> cc_user_ref d = None)).
  { destruct o as [q|].
    - destruct (ki_back _ H _ _ Hr) as (d & Hd & Hdu). exists (put q (upd_user false None d) (u_k u)).
      split; [by apply unuse_ctx_run|]. split; [done|]. split; [exact (kinv_unlinked q r d (u_k u) H Hd Hr)|].
      split; [simpl; rewrite lookup_insert_ne; [done|congruence]|].
      intros q' d' [= <-]. rewrite put_lookup. by intros [= <-].
    - exists (u_k u). unfold unuse_ctx, bind, load_ref. rewrite Hr, (insert_id _ _ _ Hr).
      split_and!; try done. by destruct (u_k u). }
  destruct S1 as (s1 & E1 & Er & H1 & Hp1 & Hq). rewrite <- Er in Hr.
  destruct (use_ctx_again p r o c s1 H1 Hr Hp1 Hu) as [E2 H2]. rewrite Hid in E2.
  unfold device_cctx_id_store, text. rewrite sscanf_sprintf_d by (done || lia). rewrite u32_small by lia.
  unfold bind at 1, gets. fold r. rewrite (bind_run _ _ _ _ _ (kern_run _ _ _ _ E1)).
  rewrite (bind_run _ _ _ _ _ (kern_run _ (set_k s1 u) _ _ E2)). cbn [Z.ltb Z.compare].
  eexists. split; [done|]. split; [exact H2|]. split; [apply lookup_insert_eq|]. split.
  - intros q d Hqo. cbn. rewrite lookup_insert_Some. intros [[<- <-]|[_ Hd]]; [|by eapply Hq].
    destruct (ki_back _ H r p) as (c0 & Hc0 & Hcu); [by rewrite <- Er, Hr, Hqo|congruence].
  - unfold device_cctx_id_show, bind, gets. cbn. by rewrite s32_small by lia.
Qed.

(** The life of an endpoint device.  Created and removed, it gives back every
    allocation and its reference.  But when the private set-up fails after the
    device was registered, the error path drops the only reference to the device
    twice: the second [put_device] works on freed memory. *)
Theorem ep_dev_lifecycle u create :
  kinv (u_k u) -> k_refs (u_k u) !! d_ref (u_dev u) = None -> k_mem (u_k u) = [] ->
  if create <? 0 then usb_create_ep_devs 0 create u = Oops UseAfterFree
  else exists u1 u2, usb_create_ep_devs 0 create u = Done (0, u1) /\ kinv (u_k u1) /\ u_count u1 = 1 /\
    k_refs (u_k u1) !! d_ref (u_dev u1) = Some None /\
    usb_remove_ep_devs u1 = Done (tt, u2) /\ u_count u2 = 0 /\ kinv (u_k u2) /\
    k_refs (u_k u2) = k_refs (u_k u) /\ k_live (u_k u2) = k_live (u_k u).
Proof.
  intros H Hr Hm. destruct u as [[ki kl kc kf kr kfi kid kb kv km kg] [r i pr at_] pe cn gv].
  cbn [u_k u_dev d_ref k_refs k_mem k_live] in *. subst km.
  destruct (create <? 0) eqn:Ec.
  - unfold usb_create_ep_devs, priv_usb_setup, device_setup_cctx_attribute, kern, zoom, kmalloc, bind. cbn.
    rewrite Ec. cbn. rewrite Ec. cbn. by rewrite Ec.
  - unfold usb_create_ep_devs, priv_usb_setup, device_setup_cctx_attribute, kern, zoom, kmalloc, bind. cbn. rewrite Ec. cbn.
    eexists _, _. split; [done|]. cbn. split; [by eapply kinv_core; [|exact (kinv_ref_init r _ H Hr)]|].
    split; [done|]. split; [apply lookup_insert_eq|].
    unfold usb_remove_ep_devs, priv_usb_destroy, priv_usb_work_destroy, device_destroy_cctx_attribute, kern, zoom, bind, gets.
    cbn. unfold kern, zoom, load_ref, bind. cbn. rewrite lookup_insert_eq. cbn. split; [done|]. cbn. split; [done|].
    rewrite delete_insert_eq, delete_id by done. split; [by eapply kinv_core; [|exact H]|]. split; [done|lia].
Qed.
End UsbProperties.

(** ** Witnesses *)

Section UsbWitness.
#[local] Existing Instance aes_cipher.

Definition wit_usb : ustate := US wit_s5 (Dev 7 1 (Some None) true) false 1 [].

Lemma urb_given_back_encrypted_witness : exists u' t,
  (priv_schedule_giveback_urb 9 (Urb true (Some [1; 2; 3])) 0 ;; encrypt_and_giveback_urb) wit_usb = Done (tt, u') /\
  u_given u' = [(9, Urb true (Some (stream_xor t [1; 2; 3])), 0)].
Proof.
  destruct wit_ctx5 as (c & t & Hc & Ht & _ & Ha & _).
  destruct (urb_given_back_encrypted wit_usb 0 c t 9 [1; 2; 3] 0 wit_inv5 wit_ref5 Hc Ht Ha) as (u' & c' & E & G & _);
    [lia|by eexists|reflexivity|]. exists u', t. split; [exact E|exact G].
Defined.

Definition wit_queued : ustate := US wit_s5 (Dev 7 1 (Some (Some (Work 9 (Urb true (Some [4])) 0))) true) true 1 [].

Lemma worker_cases_witness : exists u' out st,
  encrypt_and_giveback_urb wit_queued = Done (tt, u') /\ u_given u' = [(9, Urb true (Some out), st)].
Proof.
  destruct (worker_cases wit_queued (Work 9 (Urb true (Some [4])) 0) (Some 0%nat) [4] wit_inv5 wit_ref5)
    as (u' & out & st & E & _ & G & _); [reflexivity|reflexivity|simpl; lia|]. exists u', out, st. split; [exact E|exact G].
Defined.

Lemma destroyed_context_leaks_witness : exists u',
  (priv_schedule_giveback_urb 9 (Urb true (Some [1; 2; 3])) 0 ;; kern (do_destroy 0) ;; encrypt_and_giveback_urb) wit_usb
  = Done (tt, u') /\ u_given u' = [(9, Urb true (Some [1; 2; 3]), 0)].
Proof.
  destruct wit_ctx5 as (c & t & Hc & _ & Hu & Ha & _).
  destruct (destroyed_context_leaks wit_usb 0 0 c 9 [1; 2; 3] 0 wit_inv5 wit_file5 Hc Hu Ha) as (u' & E & G);
    [lia|by eexists|reflexivity|]. exists u'. split; [exact E|exact G].
Defined.

Definition wit_usb3 : ustate := US wit_s3 (Dev 7 0 (Some None) true) false 1 [].

Lemma cctx_id_store_show_witness : exists u1,
  device_cctx_id_store (sprintf_d 1 ++ [10]) wit_usb3 = Done (2, u1) /\
  device_cctx_id_show u1 = Done ((1, [49]), u1).
Proof.
  assert (H3 : kinv wit_s3) by apply wit_inv2.
  assert (E0 : k_list wit_s3 = [0%nat]) by (vm_compute; reflexivity).
  assert (L0 : 0%nat ∈ k_list wit_s3) by (rewrite E0; by left). apply (ki_live _ H3) in L0 as [c Hc].
  destruct (cctx_id_store_show wit_usb3 None 0 c 1 H3) as (u1 & E & _ & _ & _ & G).
  - vm_compute. reflexivity.
  - exact Hc.
  - assert (E : cc_id <$> k_ctxs wit_s3 !! 0%nat = Some 1) by (vm_compute; reflexivity). rewrite Hc in E. by injection E.
  - lia.
  - assert (E : cc_user_ref <$> k_ctxs wit_s3 !! 0%nat = Some None) by (vm_compute; reflexivity). rewrite Hc in E. by injection E.
  - exists u1. split; [exact E|exact G].
Defined.

Definition wit_usb_new : ustate := US wit_s2 (Dev 8 0 None false) false 0 [].

Lemma ep_dev_lifecycle_witness : usb_create_ep_devs 0 (-17) wit_usb_new = Oops UseAfterFree.
Proof.
  apply (ep_dev_lifecycle wit_usb_new (-17)); [apply wit_inv2|vm_compute; reflexivity|vm_compute; reflexivity].
Defined.
End UsbWitness.
