(* ===== verification/PrivNet.v ===== *)
(** * The private network filter

    linux-3.0/drivers/priv_sysfs/privnet/privnet.c: a 256-way tree from the six
    bytes of a MAC address to the pair of context references that encrypt its
    traffic, the sysfs files that edit it, and the encryption hooks of the
    network path. *)

From S2P Require Import Prelude Text BlkCipher Ctr AesCipher PrivCrypt Kex Driver.

#[local] Set Warnings "-register-all".

(** [struct mac_crypt_refs]: the references it embeds are addresses of the
    driver's heap. *)
Record mac_crypt_refs := Refs { mr_in : Z; mr_in_ref : nat; mr_out : Z; mr_out_ref : nat }.

(** What a [void *] of the tree points to: a [struct mac_tree_node] above the last
    byte, a [struct mac_crypt_refs] below it. *)
Inductive mtree :=
  | MLeaf (r : mac_crypt_refs)
  | MNode (next_byte : list (option mtree)).

Definition child (l : list (option mtree)) (b : Z) : option mtree := mjoin (l !! Z.to_nat b).
Definition set_child (b : Z) (o : option mtree) (l : list (option mtree)) : list (option mtree) :=
  <[Z.to_nat b := o]> l.

(** The files under /sys/privos/privnet *)
Inductive attribute := attr_add_mac | attr_remove_mac | attr_show_macs | attr_delay.

Section PrivNet.
Context {B : BlkCipher}.
Abbreviation K := (M kstate).

(** ** The tree *)

(** [alloc_mac_tree_node]: the result of [kmalloc] is not checked. *)
Definition alloc_mac_tree_node : K mtree :=
  let! a := kmalloc in
  match a with
  | Some _ => oops NullDeref
  | None => ret (MNode (replicate 256 None))
  end.

(** Free a [struct mac_crypt_refs]. *)
Definition free_refs (n : mac_crypt_refs) : K unit :=
  kfree ;; free_ref (mr_in_ref n) ;; free_ref (mr_out_ref n).

(** [__free_mac_tree_node_recursive] *)
Fixpoint __free_mac_tree_node_recursive (indx : nat) (node : mtree) : K unit :=
  match node with
  | MLeaf n => free_refs n
  | MNode l =>
      (if (indx <? 6)%nat then
         (fix go (l : list (option mtree)) : K unit :=
            match l with
            | [] => ret tt
            | Some c :: l' => __free_mac_tree_node_recursive (S indx) c ;; go l'
            | None :: l' => go l'
            end) l
       else ret tt) ;;
      kfree
  end.

(** [setup_node] *)
Definition setup_node (n : mac_crypt_refs) : K Z :=
  cctx_ref_init (mr_in_ref n) ;;
  cctx_ref_init (mr_out_ref n) ;;
  let! rc := use_ctx (mr_in n) (Some (mr_in_ref n)) in
  if rc <? 0 then ret (-1) else
  let! rc := use_ctx (mr_out n) (Some (mr_out_ref n)) in
  if rc <? 0 then unuse_ctx (Some (mr_in_ref n)) ;; ret (-1) else
  ret 0.

(** [teardown_node] *)
Definition teardown_node (n : mac_crypt_refs) : K unit :=
  unuse_ctx (Some (mr_in_ref n)) ;; unuse_ctx (Some (mr_out_ref n)).

(** The end of [privnet_add_mac]: a new [mac_crypt_refs] and its set-up. *)
Definition new_refs (id_in id_out : Z) : K (Z * option mac_crypt_refs) :=
  let! a := kmalloc in
  match a with
  | Some _ => ret (- ENOMEM, None)
  | None =>
      let! r1 := fresh in
      let! r2 := fresh in
      let n := Refs id_in r1 id_out r2 in
      let! rc := setup_node n in
      if rc <? 0 then free_refs n ;; ret (rc, None) else ret (0, Some n)
  end.

(** [privnet_add_mac] below [node], the remaining bytes given *)
Fixpoint add_mac_at (mac : bytes) (id_in id_out : Z) (node : mtree) : K (Z * mtree) :=
  match mac, node with
  | [b], MNode l =>
      match child l b with
      | Some _ => ret (- EBUSY, node)
      | None =>
          let! r := new_refs id_in id_out in
          match r with
          | (rc, None) => ret (rc, node)
          | (rc, Some n) => ret (rc, MNode (set_child b (Some (MLeaf n)) l))
          end
      end
  | b :: mac', MNode l =>
      let! c := match child l b with Some c => ret c | None => alloc_mac_tree_node end in
      let! r := add_mac_at mac' id_in id_out c in
      ret (fst r, MNode (set_child b (Some (snd r)) l))
  | _, _ => oops OutOfBounds
  end.

(** [__remove_mac_recursive]: whether the node went away, and the node. *)
Fixpoint __remove_mac_recursive (mac : bytes) (indx : nat) (node : mtree) : K (bool * mtree) :=
  match mac, node with
  | [], MLeaf n => teardown_node n ;; free_refs n ;; ret (true, node)
  | b :: mac', MNode l =>
      match child l b with
      | None => ret (false, node)
      | Some c =>
          let! r := __remove_mac_recursive mac' (S indx) c in
          if fst r then
            let l := set_child b None l in
            if forallb (fun o => bool_decide (o = None)) l then
              (if (0 <? indx)%nat then kfree else ret tt) ;; ret (true, MNode l)
            else ret (false, MNode l)
          else ret (false, MNode (set_child b (Some (snd r)) l))
      end
  | _, _ => oops OutOfBounds
  end.

(** [privnet_find_mac] from [node] *)
Fixpoint find_mac (node : mtree) (mac : bytes) : option mtree :=
  match mac with
  | [] => Some node
  | b :: mac' =>
      match node with
      | MNode l => match child l b with Some c => find_mac c mac' | None => None end
      | MLeaf _ => None
      end
  end.

(** ** The module *)

(** [mac_tree_root], [delay] and [mac_buff] *)
Record nstate := NS { n_k : kstate; n_root : mtree; n_delay : Z; n_mac_buff : bytes }.

Abbreviation N := (M nstate).

Definition set_nk (k : kstate) (s : nstate) : nstate := NS k (n_root s) (n_delay s) (n_mac_buff s).
Definition set_root (t : mtree) (s : nstate) : nstate := NS (n_k s) t (n_delay s) (n_mac_buff s).
Definition set_delay (d : Z) (s : nstate) : nstate := NS (n_k s) (n_root s) d (n_mac_buff s).
Definition set_mac_buff (m : bytes) (s : nstate) : nstate := NS (n_k s) (n_root s) (n_delay s) m.
Definition nkern {A} (m : K A) : N A := zoom n_k set_nk m.

(** [privnet_add_mac], [privnet_remove_mac], [privnet_find_mac] *)
Definition privnet_add_mac (mac : bytes) (id_in id_out : Z) : N Z :=
  let! t := gets n_root in
  let! r := nkern (add_mac_at mac id_in id_out t) in
  modify (set_root (snd r)) ;;
  ret (fst r).

Definition privnet_remove_mac (mac : bytes) : N unit :=
  let! t := gets n_root in
  let! r := nkern (__remove_mac_recursive mac 0 t) in
  modify (set_root (snd r)).

Definition privnet_find_mac (mac : bytes) : N (option mtree) :=
  let! t := gets n_root in ret (find_mac t mac).

(** [__privnet_crypt]: the data afterwards; an error of [priv_crypt] is only
    logged. *)
Definition __privnet_crypt (data : bytes) (ref : nat) : K bytes :=
  let! o := load_ref ref in
  match o with
  | None => ret data
  | Some p => let! r := priv_crypt (Some p) data data in ret (snd r)
  end.

(** [privnet_encrypt], [privnet_decrypt] *)
Definition privnet_encrypt (data : bytes) (n : mac_crypt_refs) : K bytes := __privnet_crypt data (mr_in_ref n).
Definition privnet_decrypt (data : bytes) (n : mac_crypt_refs) : K bytes := __privnet_crypt data (mr_out_ref n).

(** [privnet_init] *)
Definition privnet_init : N Z :=
  modify (set_delay 0) ;;
  let! t := nkern alloc_mac_tree_node in
  modify (set_root t) ;;
  ret 0.

(** [privnet_exit] *)
Definition privnet_exit : N unit :=
  let! t := gets n_root in nkern (__free_mac_tree_node_recursive 0 t).
End PrivNet.

(** ** Text *)

(** "%02X" *)
Definition sprintf_02X (b : Z) : bytes := [digit_chr (b / 16); digit_chr (b mod 16)].

(** The six bytes of a MAC with colons between them. *)
Fixpoint mac_text (mac : bytes) : bytes :=
  match mac with
  | [] => []
  | [b] => sprintf_02X b
  | b :: mac' => sprintf_02X b ++ 58 :: mac_text mac'
  end.

Definition str_priv_mac : bytes := [80; 82; 73; 86; 45; 77; 65; 67; 58; 32].     (* "PRIV-MAC: " *)
Definition str_id_in : bytes := [44; 32; 105; 100; 95; 105; 110; 58; 32].        (* ", id_in: " *)
Definition str_id_out : bytes := [44; 32; 105; 100; 95; 111; 117; 116; 58].      (* ", id_out:" *)

Definition mac_line (mac : bytes) (n : mac_crypt_refs) : bytes :=
  str_priv_mac ++ mac_text mac ++ str_id_in ++ sprintf_X (mr_in n) ++ str_id_out ++ sprintf_X (mr_out n) ++ [10].

(** [__print_macs_recursive]; [k] counts [indx] down from 5. *)
Fixpoint __print_macs_recursive (k : nat) (node : mtree) (mac : bytes) : bytes :=
  match node with
  | MLeaf _ => []
  | MNode l =>
      concat (imap (fun i o =>
        match o with
        | None => []
        | Some c =>
            match k, c with
            | O, MLeaf n => mac_line (mac ++ [Z.of_nat i]) n
            | O, MNode _ => []
            | S k', _ => __print_macs_recursive k' c (mac ++ [Z.of_nat i])
            end
        end) l)
  end.

Definition privnet_print_macs (root : mtree) : bytes := __print_macs_recursive 5 root [].

(** The loop of [itoa_dec]: the digits it writes to [buf], which has room for ten. *)
Fixpoint itoa_loop (room : nat) (num : Z) : bytes :=
  match room with
  | O => []
  | S room' => if 0 <? num then (num mod 10 + 48) :: itoa_loop room' (num / 10) else []
  end.

(** [itoa_dec] *)
Definition itoa_dec (num : Z) : bytes :=
  let buf := itoa_loop 10 num in
  (match buf with [] => [48] | _ => reverse buf end) ++ [10].

(** The value of a hexadecimal digit, 0 for any other character. *)
Definition hexval (c : Z) : Z :=
  if (65 <=? c) && (c <=? 70) then c - 65 + 10
  else if (97 <=? c) && (c <=? 102) then c - 97 + 10
  else if (48 <=? c) && (c <=? 57) then c - 48
  else 0.

(** [hex2char] *)
Definition hex2char (h l : Z) : Z := u8 (s8 (Z.shiftl (hexval h) 4) + hexval l).

(** [atoi_dec] on the first [len] characters, from the last one *)
Fixpoint atoi_loop (rstr : bytes) (res weight : Z) : Z :=
  match rstr with
  | [] => res
  | c :: r => atoi_loop r (s32 (res + s32 (weight * (c - 48)))) (s32 (weight * 10))
  end.
Definition atoi_dec (str : bytes) (len : nat) : Z := atoi_loop (reverse (take len str)) 0 1.

(** [is_hex_digit] *)
Definition is_hex_digit (c : Z) : bool :=
  ((48 <=? c) && (c <=? 57)) || ((97 <=? c) && (c <=? 102)) || ((65 <=? c) && (c <=? 70)).

(** A loop of [privnet_store] over the digits of an id: the id and the rest. *)
Fixpoint hex_loop (id : Z) (s : bytes) : Z * bytes :=
  match s with
  | [] => (id, [])
  | c :: s' => if is_hex_digit c then hex_loop (u32 (Z.shiftl id 4 + hex2char 48 c)) s' else (id, s)
  end.

(** The character at an index; the page of a sysfs buffer is zero after the text. *)
Definition at_ (s : bytes) (i : nat) : Z := default 0 (s !! i).

Section Store.
Context {B : BlkCipher}.

(** [privnet_store] *)
Definition privnet_store (attr : attribute) (buffer : bytes) : M nstate Z :=
  let size := Z.of_nat (length buffer) in
  let mac := (fun i => hex2char (at_ buffer (i * 3)) (at_ buffer (i * 3 + 1))) <$> seq 0 6 in
  match attr with
  | attr_add_mac =>
      if size <? 17 then ret size else
      modify (set_mac_buff mac) ;;
      if size <? 21 then ret size else
      let '(id_in, rest) := hex_loop 0 (drop 18 buffer) in
      let '(id_out, _) := hex_loop 0 (drop 1 rest) in
      let! rc := privnet_add_mac mac id_in id_out in
      if rc <? 0 then ret rc else ret size
  | attr_remove_mac =>
      if size <? 17 then ret size else
      modify (set_mac_buff mac) ;;
      privnet_remove_mac mac ;;
      ret size
  | attr_delay => modify (set_delay (atoi_dec buffer (length buffer - 1))) ;; ret size
  | attr_show_macs => ret size
  end.

(** [privnet_show] *)
Definition privnet_show (attr : attribute) : M nstate bytes :=
  match attr with
  | attr_show_macs => let! t := gets n_root in ret (privnet_print_macs t)
  | attr_delay => let! d := gets n_delay in ret (itoa_dec d)
  | _ => ret []
  end.
End Store.

(** ** References of an entry *)

Section RefsFacts.
Context {B : BlkCipher} {L : StreamCipher B}.

(** References live at addresses already handed out. *)
Definition refs_below (s : kstate) : Prop := forall r, is_Some (k_refs s !! r) -> (r < k_brk s)%nat.

(** A reference linked to the context with a given id. *)
Definition linked_to (r : nat) (id : Z) (s : kstate) : Prop :=
  exists p c, k_refs s !! r = Some (Some p) /\ k_ctxs s !! p = Some c /\ cc_id c = id /\ cc_user_ref c = Some r.

Lemma bind_eq {S A C} (m : M S A) (k : A -> M S C) s a s' : m s = Done (a, s') -> bind m k s = k a s'.
Proof. intros H. unfold bind. by rewrite H. Qed.

Lemma linked_keeps p r c s r' id :
  k_ctxs s !! p = Some c -> cc_user_ref c = None -> r' <> r -> linked_to r' id s -> linked_to r' id (linked p r c s).
Proof.
  intros Hp Hn Hne (q & d & Hr & Hq & Hid & Hu). exists q, d. simpl.
  rewrite !lookup_insert_ne by (congruence || done). done.
Qed.

Lemma linked_new p r c s : linked_to r (cc_id c) (linked p r c s).
Proof. exists p, (upd_user true (Some r) c). simpl. by rewrite !lookup_insert_eq. Qed.

Lemma setup_node_run n s :
  kinv s -> k_refs s !! mr_in_ref n = None -> k_refs s !! mr_out_ref n = None -> mr_in_ref n <> mr_out_ref n ->
  exists rc s', setup_node n s = Done (rc, s') /\ k_brk s' = k_brk s /\
  let cleared := delete (mr_out_ref n) (delete (mr_in_ref n) (k_refs s')) in
  cleared = k_refs s /\
  (rc = 0 /\ kinv s' /\ linked_to (mr_in_ref n) (mr_in n) s' /\ linked_to (mr_out_ref n) (mr_out n) s' \/
   rc = -1 /\ kinv (set_refs cleared s')).
Proof.
  intros H H1 H2 Hne. destruct n as [i r1 o r2]. cbn [mr_in mr_in_ref mr_out mr_out_ref] in *.
  unfold setup_node. cbn [mr_in mr_in_ref mr_out mr_out_ref].
  unfold bind at 1 2, cctx_ref_init, modify. set (s1 := set_refs (<[r1 := None]> (k_refs s)) s).
  set (s2 := set_refs (<[r2 := None]> (k_refs s1)) s1).
  assert (K1 : kinv s1) by (by apply kinv_ref_init).
  assert (K2 : kinv s2) by (apply kinv_ref_init; [done|]; simpl; by rewrite lookup_insert_ne).
  assert (R1 : k_refs s2 !! r1 = Some None) by (simpl; rewrite lookup_insert_ne, lookup_insert_eq by done; done).
  assert (R2 : k_refs s2 !! r2 = Some None) by apply lookup_insert_eq.
  assert (C2 : delete r2 (delete r1 (k_refs s2)) = k_refs s).
  { simpl. rewrite (insert_insert_ne (k_refs s)), delete_insert_eq, delete_insert_ne, delete_insert_eq by done.
    by rewrite !delete_id by (rewrite ?lookup_delete_ne by done; done). }
  destruct (use_ctx_run i r1 s2 K2 R1) as (rc & s3 & E3 & K3 & Hcase). rewrite (bind_eq _ _ _ _ _ E3).
  assert (Free : forall t, k_refs t !! r1 = Some None -> k_refs t !! r2 = Some None -> kinv t ->
    kinv (set_refs (delete r2 (delete r1 (k_refs t))) t)).
  { intros t T1 T2 Kt. set (u := set_refs (delete r1 (k_refs t)) t).
    assert (G : kinv (set_refs (delete r2 (k_refs u)) u)); [|exact G].
    apply kinv_free_ref; [by apply kinv_free_ref|]. simpl. by rewrite lookup_delete_ne. }
  destruct Hcase as [(p & c & Hc & Hi & [(Hu & -> & ->)|(_ & -> & ->)])|(_ & -> & ->)].
  2, 3: eexists _, _; split; [done|]; split; [done|]; split; [exact C2|]; right; split; [done|by apply Free].
  cbn [Z.ltb Z.compare]. set (s4 := linked p r1 c s2).
  assert (R2' : k_refs s4 !! r2 = Some None) by (simpl; rewrite lookup_insert_ne; done).
  assert (C4 : forall x, delete r2 (delete r1 (<[r1 := x]> (k_refs s2))) = k_refs s) by (intros; by rewrite delete_insert_eq).
  destruct (use_ctx_run o r2 s4 K3 R2') as (rc & s5 & E5 & K5 & Hcase2). rewrite (bind_eq _ _ _ _ _ E5).
  assert (Fail : exists s', bind (unuse_ctx (Some r1)) (fun _ => ret (-1)) s4 = Done (-1, s') /\ k_brk s' = k_brk s /\
    delete r2 (delete r1 (k_refs s')) = k_refs s /\ kinv (set_refs (delete r2 (delete r1 (k_refs s'))) s')).
  { assert (R4 : k_refs s4 !! r1 = Some (Some p)) by apply lookup_insert_eq.
    assert (P4 : k_ctxs s4 !! p = Some (upd_user true (Some r1) c)) by apply lookup_insert_eq.
    rewrite (bind_eq _ _ _ _ _ (unuse_ctx_run p r1 _ s4 R4 P4)). eexists. split; [done|]. split; [done|].
    split; [apply C4|]. set (c1 := upd_user true (Some r1) c) in *. set (s6 := unlinked p r1 c1 s4).
    assert (F : kinv (set_refs (delete r2 (delete r1 (k_refs s6))) s6)).
    { apply Free; [apply lookup_insert_eq| |by apply kinv_unlinked]. simpl. by rewrite lookup_insert_ne. }
    assert (E6 : delete r1 (k_refs s6) = delete r1 (k_refs s4)) by (simpl; by rewrite !delete_insert_eq).
    rewrite E6 in F. exact F. }
  destruct Hcase2 as [(q & d & Hd & Ho & [(Hu2 & -> & ->)|(_ & -> & ->)])|(_ & -> & ->)].
  2, 3: destruct Fail as (s' & E' & ? & ? & ?); exists (-1), s'; split; [exact E'|]; split; [done|]; split; [done|]; by right.
  exists 0, (linked q r2 d s4). split; [done|]. split; [done|]. split.
  { simpl. rewrite (delete_insert_ne _ r1) by done. rewrite delete_insert_eq. apply C4. }
  left. split; [done|]. split; [done|]. split; [|subst o; apply linked_new].
  apply linked_keeps; try done. subst i. apply linked_new.
Qed.

(** A new entry, or no change. *)
Lemma new_refs_spec i o s : kinv s -> refs_below s ->
  wp total (new_refs i o) (fun r s' => kinv s' /\ refs_below s' /\
    match r with
    | (rc, None) => rc < 0 /\ k_refs s' = k_refs s
    | (rc, Some n) => rc = 0 /\ mr_in n = i /\ mr_out n = o /\
        linked_to (mr_in_ref n) i s' /\ linked_to (mr_out_ref n) o s' /\ mr_in_ref n <> mr_out_ref n /\
        delete (mr_out_ref n) (delete (mr_in_ref n) (k_refs s')) = k_refs s
    end) s.
Proof.
  intros H Hb. unfold new_refs. wp_bind.
  destruct (kmalloc_cases s) as [(s1 & E1 & C1 & _)|(e & s1 & E1 & C1 & _)]; (eapply wp_done; [exact E1|]);
    pose proof (kinv_core _ _ C1 H) as H1; unfold core in C1; injection C1 as _ _ _ _ Er _ _ Eb.
  2: { wp_pure. split; [done|]. split; [by unfold refs_below; rewrite Er, Eb|done]. }
  unfold fresh. wp_bind. unfold wp at 1. wp_bind. unfold wp at 1. wp_bind. simpl k_brk.
  set (s2 := set_brk _ (set_brk _ s1)). set (r1 := k_brk s1). set (n := Refs i r1 o (S r1)).
  assert (H2 : kinv s2).
  { pose proof H1 as []. split; simpl; auto. intros q Hq. specialize (ki_brk q Hq). lia. }
  assert (Fresh : forall r, (r1 <= r)%nat -> k_refs s2 !! r = None).
  { intros r Hr. destruct (k_refs s2 !! r) eqn:E; [|done]. assert (r < k_brk s)%nat by (apply Hb; rewrite <- Er; eauto). lia. }
  destruct (setup_node_run n s2) as (rc & s3 & E3 & Eb3 & Hcl & Hcase); [done|by apply Fresh; simpl; lia..|simpl; lia|].
  eapply wp_done; [exact E3|]. simpl in Hcl.
  assert (Hb3 : refs_below s3).
  { intros r Hr. rewrite Eb3. simpl. destruct (decide (r = r1)) as [-> |]; [lia|]. destruct (decide (r = S r1)) as [-> |]; [lia|].
    assert (is_Some (k_refs s !! r)) as Hs; [|apply Hb in Hs; lia].
    rewrite <- Er, <- Hcl. by rewrite !lookup_delete_ne by done. }
  destruct Hcase as [(-> & H3 & L1 & L2)|(-> & H3)].
  - wp_pure. split; [done|]. split; [done|]. split_and!; try done. by rewrite <- Er.
  - change (-1 <? 0) with true. cbv iota. unfold free_refs, kfree, free_ref. wp_pure.
    simpl in H3 |- *. rewrite Hcl in H3. split_and!; [|..|done|].
    + eapply kinv_core; [|exact H3]. unfold core. simpl. by rewrite Hcl.
    + intros r. simpl. rewrite Hcl, Er. intros Hr. apply Hb in Hr. rewrite Eb3. simpl. lia.
    + by rewrite Hcl.
Qed.

(** The effect of [unuse_ctx] on the heap. *)
Definition released (r : nat) (s : kstate) : kstate :=
  match mjoin (k_refs s !! r) with
  | Some p => match k_ctxs s !! p with Some c => put p (upd_user false None c) s | None => s end
  | None => s
  end.

Lemma released_refs r s : k_refs (released r s) = k_refs s.
Proof. unfold released. by repeat case_match. Qed.

Lemma released_live r s p : is_Some (k_ctxs s !! p) -> is_Some (k_ctxs (released r s) !! p).
Proof. unfold released. repeat case_match; simpl; try done. rewrite lookup_insert_is_Some'. by right. Qed.

Lemma unuse_released r s :
  is_Some (k_refs s !! r) -> (forall p, k_refs s !! r = Some (Some p) -> is_Some (k_ctxs s !! p)) ->
  unuse_ctx (Some r) s = Done (tt, released r s).
Proof.
  intros [o Ho] Hl. unfold released. rewrite Ho. destruct o as [p|].
  - destruct (Hl p Ho) as [c Hc]. simpl. rewrite Hc. by apply unuse_ctx_run.
  - unfold unuse_ctx, bind, load_ref. by rewrite Ho.
Qed.

Lemma kinv_released r s : kinv s -> is_Some (k_refs s !! r) -> kinv (set_refs (delete r (k_refs s)) (released r s)).
Proof.
  intros H [o Ho]. unfold released. rewrite Ho. destruct o as [p|]; simpl; [|by apply kinv_free_ref].
  destruct (ki_back _ H _ _ Ho) as (c & Hc & _). rewrite Hc. set (s1 := unlinked p r c s).
  assert (H1 : kinv (set_refs (delete r (k_refs s1)) s1))
    by (apply kinv_free_ref; [by apply kinv_unlinked|apply lookup_insert_eq]).
  eapply kinv_core; [|exact H1]. unfold core. simpl. by rewrite delete_insert_eq.
Qed.

(** Tearing an entry down and freeing it. *)
Lemma teardown_run n s :
  kinv s -> is_Some (k_refs s !! mr_in_ref n) -> is_Some (k_refs s !! mr_out_ref n) -> mr_in_ref n <> mr_out_ref n ->
  exists s', (teardown_node n ;; free_refs n) s = Done (tt, s') /\ kinv s' /\ k_brk s' = k_brk s /\
    k_refs s' = delete (mr_out_ref n) (delete (mr_in_ref n) (k_refs s)).
Proof.
  intros H H1 H2 Hne. destruct n as [i r1 o r2]. cbn [mr_in_ref mr_out_ref] in *.
  assert (Live : forall r p, k_refs s !! r = Some (Some p) -> is_Some (k_ctxs s !! p)).
  { intros r p Hr. destruct (ki_back _ H _ _ Hr) as (c & Hc & _). eauto. }
  unfold teardown_node, bind at 1 2. cbn [mr_in_ref mr_out_ref]. rewrite (unuse_released r1 s) by eauto.
  rewrite (unuse_released r2 (released r1 s)) by (rewrite released_refs; eauto using released_live).
  eexists. split; [done|].
  set (s1 := set_refs (delete r1 (k_refs s)) (released r1 s)).
  assert (K1 : kinv s1) by (by apply kinv_released).
  assert (K2 : kinv (set_refs (delete r2 (k_refs s1)) (released r2 s1))).
  { apply kinv_released; [done|]. simpl. by rewrite lookup_delete_ne. }
  assert (E : released r2 s1 = set_refs (delete r1 (k_refs s)) (released r2 (released r1 s))).
  { unfold released at 1 2. rewrite released_refs. simpl. rewrite lookup_delete_ne by done. by repeat case_match. }
  rewrite E in K2. assert (Hb : forall r t, k_brk (released r t) = k_brk t) by (intros; unfold released; by repeat case_match).
  split; [|split; [simpl; by rewrite !Hb|simpl; by rewrite !released_refs]].
  eapply kinv_core; [|exact K2]. unfold core. simpl. by rewrite !released_refs.
Qed.
End RefsFacts.

(** ** The tree as a map *)

(** [d] bytes are left below the node. *)
Fixpoint wf (d : nat) (t : mtree) : Prop :=
  match d, t with
  | O, MLeaf _ => True
  | S d', MNode l => length l = 256%nat /\ forall b c, byte_ok b -> child l b = Some c -> wf d' c
  | _, _ => False
  end.

Lemma child_set b o l : length l = 256%nat -> byte_ok b -> child (set_child b o l) b = o.
Proof. intros Hl Hb. unfold child, set_child, byte_ok in *. by rewrite list_lookup_insert_eq by lia. Qed.

Lemma child_set_ne b b' o l : byte_ok b -> byte_ok b' -> b <> b' -> child (set_child b o l) b' = child l b'.
Proof. intros Hb Hb' Hne. unfold child, set_child, byte_ok in *. by rewrite list_lookup_insert_ne by lia. Qed.

Lemma length_set_child b o l : length (set_child b o l) = length l.
Proof. apply length_insert. Qed.

Lemma wf_set d l b o :
  wf (S d) (MNode l) -> byte_ok b -> (forall c, o = Some c -> wf d c) -> wf (S d) (MNode (set_child b o l)).
Proof.
  intros [Hl Hw] Hb Ho. split; [by rewrite length_set_child|]. intros b' c Hb' Hc.
  destruct (decide (b = b')) as [<- |Hne]; [rewrite child_set in Hc by done; auto|].
  rewrite child_set_ne in Hc by done. eauto.
Qed.

Lemma child_empty b : child (replicate 256 None) b = None.
Proof.
  unfold child. destruct (replicate 256 (@None mtree) !! Z.to_nat b) as [o|] eqn:E; [|done].
  by apply lookup_replicate in E as [-> _].
Qed.

Lemma wf_empty d : wf (S d) (MNode (replicate 256 None)).
Proof. split; [apply length_replicate|]. intros b c Hb. by rewrite child_empty. Qed.

Lemma find_empty b mac : find_mac (MNode (replicate 256 None)) (b :: mac) = None.
Proof. cbn [find_mac]. by rewrite child_empty. Qed.

(** What a lookup finds is an entry. *)
Lemma find_leaf d t mac x : wf d t -> length mac = d -> bytes_ok mac -> find_mac t mac = Some x -> exists n, x = MLeaf n.
Proof.
  revert t mac. induction d as [|d IH]; intros t mac Hw Hl Hb Hf.
  { destruct mac; [|done]. destruct t as [n|]; [|done]. simpl in Hf. injection Hf as <-. eauto. }
  destruct mac as [|b mac]; [done|]. destruct t as [|l]; [done|]. inversion Hb; subst. simpl in Hf.
  destruct (child l b) as [c|] eqn:Ec; [|done]. eapply IH; [|by injection Hl|done|exact Hf]. by eapply Hw.
Qed.

Lemma find_set b o l mac b' :
  length l = 256%nat -> byte_ok b -> byte_ok b' ->
  find_mac (MNode (set_child b o l)) (b' :: mac)
  = if decide (b' = b) then match o with Some c => find_mac c mac | None => None end else find_mac (MNode l) (b' :: mac).
Proof.
  intros Hl Hb Hb'. simpl. case_decide as E; [subst; by rewrite child_set|]. by rewrite child_set_ne by congruence.
Qed.

Section TreeFacts.
Context {B : BlkCipher} {L : StreamCipher B}.

(** The map a tree stands for, after binding [mac] to [x]. *)
Definition finds (t t' : mtree) (mac : bytes) (x : option mtree) : Prop :=
  forall mac', length mac' = length mac -> bytes_ok mac' ->
    find_mac t' mac' = if decide (mac' = mac) then x else find_mac t mac'.

Definition same_map (d : nat) (t t' : mtree) : Prop :=
  forall mac', length mac' = d -> bytes_ok mac' -> find_mac t' mac' = find_mac t mac'.

(** What [privnet_add_mac] did to a tree. *)
Definition added (mac : bytes) (i o : Z) (t : mtree) (refs : gmap nat (option nat)) (r : Z * mtree) (s' : kstate) : Prop :=
  (fst r < 0 /\ same_map (length mac) t (snd r) /\ k_refs s' = refs /\ (is_Some (find_mac t mac) -> fst r = - EBUSY)) \/
  (fst r = 0 /\ find_mac t mac = None /\ exists n, mr_in n = i /\ mr_out n = o /\
     linked_to (mr_in_ref n) i s' /\ linked_to (mr_out_ref n) o s' /\ mr_in_ref n <> mr_out_ref n /\
     refs !! mr_in_ref n = None /\ refs !! mr_out_ref n = None /\
     delete (mr_out_ref n) (delete (mr_in_ref n) (k_refs s')) = refs /\ finds t (snd r) mac (Some (MLeaf n))).

(** Below one byte. *)
Lemma added_cons b mac i o l c refs rc c' s' :
  wf (S (length mac)) (MNode l) -> byte_ok b -> mac <> [] ->
  match child l b with Some c0 => c = c0 | None => c = MNode (replicate 256 None) end ->
  added mac i o c refs (rc, c') s' -> added (b :: mac) i o (MNode l) refs (rc, MNode (set_child b (Some c') l)) s'.
Proof.
  intros [Hl Hw] Hb Hne Hc Ha.
  assert (Find : forall m, length m = length mac -> find_mac (MNode l) (b :: m) = find_mac c m).
  { intros m Hm. simpl. destruct (child l b) as [c0|]; [by subst|]. subst c.
    destruct m as [|b0 m]; [by destruct mac|by rewrite find_empty]. }
  destruct Ha as [(Hrc & Hs & Href & Hbusy)|(Hrc & Hf & n & Hi & Ho & L1 & L2 & X1 & X2 & X3 & X4 & Hs)]; cbn [fst snd] in *.
  - left. split; [done|]. split; [|split; [done|by rewrite Find]]. intros [|b' m] Hm Hok; [done|]. inversion Hok; subst. injection Hm as Hm.
    cbn [snd]. rewrite find_set by done. case_decide; [|done]. subst. rewrite Find by done. by apply Hs.
  - right. split; [done|]. split; [by rewrite <- Hf, <- Find|]. exists n. split_and!; try done.
    intros [|b' m] Hm Hok; [done|]. inversion Hok; subst. injection Hm as Hm.
    cbn [snd]. rewrite find_set by done. destruct (decide (b' = b)) as [-> |Hn].
    + rewrite Hs by done. destruct (decide (m = mac)) as [-> |Hm']; [by rewrite decide_True|].
      rewrite decide_False by congruence. by rewrite Find.
    + by rewrite decide_False by congruence.
Qed.

Lemma add_mac_at_spec mac i o t s :
  bytes_ok mac -> mac <> [] -> wf (length mac) t -> kinv s -> refs_below s ->
  wp (fun e => e = NullDeref) (add_mac_at mac i o t) (fun r s' =>
    kinv s' /\ refs_below s' /\ wf (length mac) (snd r) /\ added mac i o t (k_refs s) r s') s.
Proof.
  intros Hok Hne. revert t s. induction Hok as [|b mac Hb Hok IH]; intros t s Hw H Hr; [done|].
  destruct t as [|l]; [done|]. destruct mac as [|b' mac].
  - cbn [add_mac_at]. destruct (child l b) as [c|] eqn:Ec.
    { wp_pure. split_and!; try done. left. by split_and!. }
    wp_bind. eapply wp_weaken with (E := total); [done|]. wp_use new_refs_spec; [done|done|].
    intros [rc [n|]] s' (H' & Hr' & Hcase); wp_pure; (split; [done|]); (split; [done|]).
    + destruct Hcase as (-> & Hi & Ho & L1 & L2 & X1 & X2). split; [apply wf_set; try done; by intros c [= <-]|].
      right. split; [done|]. split; [simpl; by rewrite Ec|]. exists n.
      split_and!; try done; try (rewrite <- X2; by rewrite ?lookup_delete_eq, ?lookup_delete_ne, ?lookup_delete_eq by done).
      intros [|b' [|]] Hm Hok'; try done. inversion Hok'; subst. cbn [snd]. rewrite find_set by (done || apply Hw).
      destruct (decide (b' = b)) as [-> |]; [by rewrite decide_True|by rewrite decide_False by congruence].
    + split; [done|]. left. destruct Hcase as [? Hc]. split_and!; try done. cbn [find_mac]. rewrite Ec. by intros [].
  - set (m := b' :: mac) in *. change (add_mac_at (b :: m) i o (MNode l)) with
      (bind (match child l b with Some c => ret c | None => alloc_mac_tree_node end) (fun c =>
       bind (add_mac_at m i o c) (fun r => ret (fst r, MNode (set_child b (Some (snd r)) l))))).
    assert (Hcont : forall c s1, wf (length m) c -> kinv s1 -> refs_below s1 -> k_refs s1 = k_refs s ->
      match child l b with Some c0 => c = c0 | None => c = MNode (replicate 256 None) end ->
      wp (fun e => e = NullDeref) (bind (add_mac_at m i o c) (fun r => ret (fst r, MNode (set_child b (Some (snd r)) l))))
        (fun r s' => kinv s' /\ refs_below s' /\ wf (length (b :: m)) (snd r) /\ added (b :: m) i o (MNode l) (k_refs s) r s') s1).
    { intros c s1 Hwc H1 Hr1 <- Hc. wp_bind. eapply wp_mono; [by apply IH|].
      intros [rc c'] s' (H' & Hr' & Hw' & Ha). wp_pure. split_and!; try done.
      - apply wf_set; [done|done|by intros ? [= <-]].
      - by eapply added_cons. }
    wp_bind. destruct (child l b) as [c|] eqn:Ec.
    + wp_pure. apply Hcont; try done. by eapply Hw.
    + unfold alloc_mac_tree_node. wp_bind.
      destruct (kmalloc_cases s) as [(s1 & E1 & C1 & _)|(e & s1 & E1 & C1 & _)]; (eapply wp_done; [exact E1|]); [|by wp_pure].
      wp_pure. pose proof (kinv_core _ _ C1 H). unfold core in C1. injection C1 as _ _ _ _ Er _ _ Eb.
      apply Hcont; try done; [apply wf_empty|]. unfold refs_below. by rewrite Er, Eb.
Qed.

Lemma set_child_id l b c : child l b = Some c -> set_child b (Some c) l = l.
Proof.
  unfold child, set_child. intros H. apply list_insert_id.
  destruct (l !! Z.to_nat b) as [o|]; simpl in *; congruence.
Qed.

(** Removing an address that is not there changes nothing. *)
Lemma remove_absent mac indx t s :
  wf (length mac) t -> bytes_ok mac -> mac <> [] -> find_mac t mac = None ->
  __remove_mac_recursive mac indx t s = Done ((false, t), s).
Proof.
  intros Hw Hok. revert t indx Hw. induction Hok as [|b mac Hb Hok IH]; intros t indx Hw Hne Hf; [done|].
  destruct t as [|l]; [done|]. cbn [find_mac] in Hf. cbn [__remove_mac_recursive].
  destruct (child l b) as [c|] eqn:Ec; [|done].
  assert (Hm : mac <> []) by (intros ->; done).
  rewrite (bind_eq _ _ _ _ _ (IH c (S indx) ltac:(by eapply Hw) Hm Hf)). cbn [fst snd].
  by rewrite set_child_id.
Qed.

(** What the removal of an address that is there leaves: [gone] says that nothing
    else was below the node. *)
Definition removed (mac : bytes) (t : mtree) (r : bool * mtree) : Prop :=
  (mac <> [] -> wf (length mac) (snd r) /\ finds t (snd r) mac None) /\
  (fst r = true -> forall m, length m = length mac -> bytes_ok m -> m <> mac -> find_mac t m = None).

Lemma all_none_child l b : forallb (fun o => bool_decide (o = @None mtree)) l = true -> child l b = None.
Proof.
  intros H. unfold child. destruct (l !! Z.to_nat b) as [o|] eqn:E; [|done]. simpl.
  rewrite forallb_forall in H. apply list_elem_of_lookup_2, list_elem_of_In, H in E. by apply bool_decide_eq_true_1 in E.
Qed.

Lemma removed_gone b mac l c c' gone :
  wf (S (length mac)) (MNode l) -> byte_ok b -> child l b = Some c ->
  removed mac c (true, c') ->
  (gone = true -> forallb (fun o => bool_decide (o = @None mtree)) (set_child b None l) = true) ->
  removed (b :: mac) (MNode l) (gone, MNode (set_child b None l)).
Proof.
  intros Hw Hb Hc [_ Hg] Hall. destruct (Hw) as [Hl _]. split; cbn [fst snd].
  - intros _. split; [by apply wf_set|]. intros [|b' m] Hm Hok; [done|]. inversion Hok; subst. injection Hm as Hm.
    rewrite find_set by done. destruct (decide (b' = b)) as [-> |Hn]; [|by rewrite decide_False by congruence].
    destruct (decide (m = mac)) as [-> |Hn]; [by rewrite decide_True|]. rewrite decide_False by congruence.
    cbn [find_mac]. rewrite Hc. symmetry. by apply Hg.
  - intros Hgone [|b' m] Hm Hok Hn; [done|]. specialize (Hall Hgone). clear Hgone. inversion Hok; subst. injection Hm as Hm. cbn [find_mac].
    destruct (decide (b' = b)) as [-> |Hnb]; [rewrite Hc; apply Hg; try done; congruence|].
    pose proof (all_none_child _ b' Hall) as E. rewrite child_set_ne in E by congruence. by rewrite E.
Qed.

Lemma removed_kept b mac l c c' :
  wf (S (length mac)) (MNode l) -> byte_ok b -> child l b = Some c -> mac <> [] ->
  removed mac c (false, c') -> removed (b :: mac) (MNode l) (false, MNode (set_child b (Some c') l)).
Proof.
  intros Hw Hb Hc Hne [Hr _]. destruct (Hr Hne) as [Hw' Hf]. destruct (Hw) as [Hl _]. split; cbn [fst snd] in *; [|done].
  intros _. split; [apply wf_set; [done|done|by intros ? [= <-]]|].
  intros [|b' m] Hm Hok; [done|]. inversion Hok; subst. injection Hm as Hm.
  rewrite find_set by done. destruct (decide (b' = b)) as [-> |Hn]; [|by rewrite decide_False by congruence].
  rewrite Hf by done. cbn [find_mac]. rewrite Hc.
  destruct (decide (m = mac)) as [-> |Hn]; [by rewrite decide_True|by rewrite decide_False by congruence].
Qed.

Lemma remove_present mac indx t s n :
  wf (length mac) t -> bytes_ok mac -> find_mac t mac = Some (MLeaf n) ->
  kinv s -> is_Some (k_refs s !! mr_in_ref n) -> is_Some (k_refs s !! mr_out_ref n) -> mr_in_ref n <> mr_out_ref n ->
  exists r s', __remove_mac_recursive mac indx t s = Done (r, s') /\ kinv s' /\ k_brk s' = k_brk s /\
    k_refs s' = delete (mr_out_ref n) (delete (mr_in_ref n) (k_refs s)) /\
    (mac = [] -> fst r = true) /\ removed mac t r.
Proof.
  intros Hw Hok. revert t indx Hw. induction Hok as [|b mac Hb Hok IH]; intros t indx Hw Hf H H1 H2 Hne.
  { destruct t as [n'|]; [|done]. simpl in Hf. injection Hf as ->.
    destruct (teardown_run n s H H1 H2 Hne) as (s' & E & H' & Hbk & Hr). exists (true, MLeaf n), s'.
    split; [|split_and!; try done; split; [done|]; by intros _ [|]].
    simpl. revert E. unfold bind. destruct (teardown_node n s) as [[[] s1]|]; [|done].
    destruct (free_refs n s1) as [[[] s2]|]; [|done]. by intros [= ->]. }
  destruct t as [|l]; [done|]. cbn [find_mac] in Hf. cbn [__remove_mac_recursive].
  destruct (child l b) as [c|] eqn:Ec; [|done].
  destruct (IH c (S indx)) as ([g c'] & s1 & E & K1 & Hbk & Hr & Hg & Hrem); try done; [by eapply Hw|].
  rewrite (bind_eq _ _ _ _ _ E). cbn [fst snd]. destruct g.
  - destruct (forallb _ _) eqn:Hall.
    + assert (Hx : exists s2, (if (0 <? indx)%nat then kfree else ret tt) s1 = Done (tt, s2) /\ core s2 = core s1)
        by (destruct (0 <? indx)%nat; eexists; done).
      destruct Hx as (s2 & E2 & C2). rewrite (bind_eq _ _ _ _ _ E2). eexists _, s2. split; [done|].
      split; [by eapply kinv_core|]. unfold core in C2. injection C2 as _ _ _ _ -> _ _ ->. split_and!; try done.
      by eapply removed_gone.
    + eexists _, s1. split; [done|]. split_and!; try done. by eapply removed_gone.
  - eexists _, s1. split; [done|]. split_and!; try done. eapply removed_kept; try done. intros ->. by specialize (Hg eq_refl).
Qed.
End TreeFacts.

(** ** Text facts *)

Lemma hexval_digit d : 0 <= d < 16 -> hexval (digit_chr d) = d.
Proof.
  intros H. assert (E : forallb (fun d => hexval (digit_chr d) =? d) (seqZ 0 16) = true) by (vm_compute; reflexivity).
  rewrite forallb_forall in E. apply Z.eqb_eq, E, list_elem_of_In, elem_of_seqZ. lia.
Qed.

Lemma is_hex_digit_chr d : 0 <= d < 16 -> is_hex_digit (digit_chr d) = true.
Proof.
  intros H. assert (E : forallb (fun d => is_hex_digit (digit_chr d)) (seqZ 0 16) = true) by (vm_compute; reflexivity).
  rewrite forallb_forall in E. apply E, list_elem_of_In, elem_of_seqZ. lia.
Qed.

Lemma hex2char_digits h l : 0 <= h < 16 -> 0 <= l < 16 -> hex2char (digit_chr h) (digit_chr l) = h * 16 + l.
Proof.
  intros Hh Hl. unfold hex2char. rewrite !hexval_digit, Z.shiftl_mul_pow2 by lia. change (2 ^ 4) with 16.
  unfold u8, s8, signed. change (2 ^ (8 - 1)) with 128. change (2 ^ 8) with 256.
  rewrite (Z.mod_small (h * 16)) by lia. case_match.
  - rewrite Z.mod_small; lia.
  - symmetry. apply (Z.mod_unique _ 256 (-1)); lia.
Qed.

Lemma hex_loop_digits l acc rest :
  Forall (fun d => 0 <= d < 16) l -> 0 <= acc -> acc * 16 ^ length l + undigits 16 l < 2 ^ 32 ->
  is_hex_digit (chr rest) = false ->
  hex_loop acc ((digit_chr <$> l) ++ rest) = (foldl (fun a d => a * 16 + d) acc l, rest).
Proof.
  intros Hl. revert acc. induction Hl as [|d l Hd Hl IH]; intros acc Ha Hlt Hr.
  { destruct rest as [|c rest]; [done|]. change (is_hex_digit c = false) in Hr. simpl. by rewrite Hr. }
  cbn [fmap list_fmap app hex_loop foldl]. rewrite is_hex_digit_chr by done.
  change 48 with (digit_chr 0). rewrite hex2char_digits by lia. rewrite Z.shiftl_mul_pow2 by lia. change (2 ^ 4) with 16.
  assert (Hnn : 0 <= undigits 16 l) by (apply undigits_nonneg; [lia|done]).
  assert (E : undigits 16 (d :: l) = d * 16 ^ length l + undigits 16 l) by (unfold undigits at 1; simpl; apply foldl_undigits).
  rewrite E in Hlt. simpl length in Hlt. rewrite Nat2Z.inj_succ, Z.pow_succ_r in Hlt by lia.
  assert (Hp : 1 <= 16 ^ length l) by (pose proof (Z.pow_pos_nonneg 16 (length l)); lia).
  rewrite u32_small by nia. replace (acc * 16 + (0 * 16 + d)) with (acc * 16 + d) by lia. apply IH; [lia|nia|done].
Qed.

Lemma hex_loop_X n rest : 0 <= n < 2 ^ 32 -> is_hex_digit (chr rest) = false -> hex_loop 0 (sprintf_X n ++ rest) = (n, rest).
Proof.
  intros Hn Hr. unfold sprintf_X. rewrite hex_loop_digits; try done; try lia.
  - f_equal. change (undigits 16 (digits 16 8 n) = n). apply undigits_digits; lia.
  - apply digits_range; lia.
  - rewrite undigits_digits; lia.
Qed.

(** The loop of [itoa_dec] writes the digits backwards. *)
Lemma itoa_loop_digits (room : nat) n : 0 < n < 10 ^ room -> reverse (itoa_loop room n) = digit_chr <$> digits 10 room n.
Proof.
  revert n. induction room as [|room IH]; intros n Hn; [change (10 ^ 0%nat) with 1 in Hn; lia|].
  cbn [itoa_loop digits]. replace (0 <? n) with true by lia. rewrite reverse_cons.
  rewrite Nat2Z.inj_succ, Z.pow_succ_r in Hn by lia.
  assert (Hd : digit_chr (n mod 10) = n mod 10 + 48).
  { unfold digit_chr. pose proof (Z.mod_pos_bound n 10). case_match; lia. }
  case_match eqn:E.
  - rewrite Z.mod_small by lia. rewrite Z.div_small by lia. destruct room; simpl.
    + f_equal. unfold digit_chr. case_match; lia.
    + f_equal. unfold digit_chr. case_match; lia.
  - rewrite IH, fmap_app; [simpl; by rewrite Hd|]. split; [apply Z.div_str_pos; lia|apply Z.div_lt_upper_bound; lia].
Qed.

(** [atoi_dec] computes the number modulo 2^32. *)
Lemma atoi_loop_value l res w :
  s32 (atoi_loop ((fun d => 48 + d) <$> l) res w) = s32 (res + w * undigits 10 (reverse l)).
Proof.
  revert res w. induction l as [|d l IH]; intros res w; [unfold undigits; simpl; f_equal; lia|].
  cbn [fmap list_fmap atoi_loop]. rewrite IH, reverse_cons, undigits_snoc.
  replace (48 + d - 48) with d by lia.
  destruct (s32_spec (w * d)) as [k1 ->]. destruct (s32_spec (w * 10)) as [k2 ->].
  destruct (s32_spec (res + (w * d + k1 * 2 ^ 32))) as [k3 ->]. apply s32_ext.
  set (v := undigits 10 (reverse l)). rewrite <- (Z.mod_add (res + w * _) (k1 + k2 * v + k3)) by lia. f_equal. ring.
Qed.

Lemma atoi_loop_range l res w : - 2 ^ 31 <= res < 2 ^ 31 -> - 2 ^ 31 <= atoi_loop l res w < 2 ^ 31.
Proof. revert res w. induction l as [|c l IH]; intros res w Hr; simpl; [done|]. apply IH, s32_range. Qed.

Lemma atoi_itoa n : 0 <= n < 2 ^ 31 -> atoi_dec (itoa_dec n) (length (itoa_dec n) - 1) = n.
Proof.
  intros Hn. unfold atoi_dec.
  assert (E : exists l, itoa_dec n = ((fun d => 48 + d) <$> l) ++ [10] /\ undigits 10 l = n).
  { unfold itoa_dec. destruct (decide (n = 0)) as [-> |Hz]; [by exists [0]|].
    pose proof (itoa_loop_digits 10 n ltac:(lia)) as E. exists (digits 10 10 n).
    split; [|apply undigits_digits; lia]. f_equal.
    destruct (itoa_loop 10 n) as [|c l] eqn:El; [by destruct (digits_nonempty 10 10 n); [lia|]; apply fmap_nil_inv with digit_chr|].
    rewrite E. apply list_fmap_ext. intros i d Hd.
    pose proof (digits_range 10 10 n ltac:(lia) ltac:(lia)) as HF. eapply Forall_lookup_1 in HF; [|exact Hd]. simpl in HF.
    unfold digit_chr. case_match; lia. }
  destruct E as (l & -> & Hu). rewrite length_app. simpl length. rewrite Nat.add_sub, take_app_length, <- fmap_reverse.
  pose proof (atoi_loop_value (reverse l) 0 1) as V. rewrite reverse_involutive, Hu in V.
  pose proof (atoi_loop_range ((fun d => 48 + d) <$> reverse l) 0 1 ltac:(lia)) as R.
  rewrite s32_small in V by exact R. rewrite V. rewrite s32_small; lia.
Qed.

Definition mac_ok (mac : bytes) : Prop := length mac = 6%nat /\ bytes_ok mac.

(** What one writes to add_mac. *)
Definition add_text (mac : bytes) (i o : Z) : bytes :=
  mac_text mac ++ 44 :: sprintf_X i ++ 44 :: sprintf_X o ++ [10].

Lemma hex2char_byte b : byte_ok b -> hex2char (digit_chr (b / 16)) (digit_chr (b mod 16)) = b.
Proof.
  unfold byte_ok. intros H. rewrite hex2char_digits; [|Z.div_mod_to_equations; lia..]. pose proof (Z.div_mod b 16). lia.
Qed.

Lemma sprintf_X_pos n : (0 < length (sprintf_X n))%nat.
Proof.
  unfold sprintf_X. rewrite length_fmap. pose proof (digits_nonempty 16 8 n ltac:(lia)). destruct (digits 16 8 n); [done|simpl; lia].
Qed.

Lemma mac_text_read mac rest : mac_ok mac -> length (mac_text mac) = 17%nat /\
  ((fun i => hex2char (at_ (mac_text mac ++ rest) (i * 3)) (at_ (mac_text mac ++ rest) (i * 3 + 1))) <$> seq 0 6) = mac.
Proof.
  intros [Hl Hb]. destruct mac as [|b0 [|b1 [|b2 [|b3 [|b4 [|b5 [|]]]]]]]; try done.
  unfold bytes_ok in Hb. rewrite !Forall_cons in Hb. destruct Hb as (? & ? & ? & ? & ? & ? & _).
  split; [done|]. unfold at_, sprintf_02X. simpl.
  change (hex2char (digit_chr (b0 / 16)) (digit_chr (b0 mod 16)) :: hex2char (digit_chr (b1 / 16)) (digit_chr (b1 mod 16))
    :: hex2char (digit_chr (b2 / 16)) (digit_chr (b2 mod 16)) :: hex2char (digit_chr (b3 / 16)) (digit_chr (b3 mod 16))
    :: hex2char (digit_chr (b4 / 16)) (digit_chr (b4 mod 16)) :: hex2char (digit_chr (b5 / 16)) (digit_chr (b5 mod 16)) :: []
    = [b0; b1; b2; b3; b4; b5]).
  rewrite !hex2char_byte by assumption. reflexivity.
Qed.

(** ** The module's invariant *)

Section ModuleFacts.
Context {B : BlkCipher} {L : StreamCipher B}.

(** The entry of an address. *)
Definition entry (s : nstate) (mac : bytes) : option mac_crypt_refs :=
  match find_mac (n_root s) mac with Some (MLeaf n) => Some n | _ => None end.

(** The references of entries exist, two to an entry, and entries share none. *)
Record ninv (s : nstate) : Prop := {
  ni_k : kinv (n_k s);
  ni_below : refs_below (n_k s);
  ni_wf : wf 6 (n_root s);
  ni_refs : forall mac n, mac_ok mac -> entry s mac = Some n ->
    is_Some (k_refs (n_k s) !! mr_in_ref n) /\ is_Some (k_refs (n_k s) !! mr_out_ref n) /\ mr_in_ref n <> mr_out_ref n;
  ni_sep : forall mac mac' n n', mac_ok mac -> mac_ok mac' -> mac <> mac' ->
    entry s mac = Some n -> entry s mac' = Some n' ->
    forall r, r = mr_in_ref n \/ r = mr_out_ref n -> r <> mr_in_ref n' /\ r <> mr_out_ref n';
}.

Lemma entry_find s mac : ninv s -> mac_ok mac ->
  find_mac (n_root s) mac = MLeaf <$> entry s mac.
Proof.
  intros H [Hl Hb]. unfold entry. destruct (find_mac (n_root s) mac) as [x|] eqn:E; [|done].
  destruct (find_leaf 6 _ _ _ (ni_wf _ H) Hl Hb E) as [n ->]. done.
Qed.

(** The map of entries after a change of the tree. *)
Lemma entry_finds s s' mac x m :
  length mac = 6%nat -> finds (n_root s) (n_root s') mac (MLeaf <$> x) -> mac_ok m ->
  entry s' m = if decide (m = mac) then x else entry s m.
Proof.
  intros Hl Hf [Hm Hb]. unfold entry. rewrite Hf by congruence. case_decide; [|done]. by destruct x.
Qed.

Lemma nkern_run {A} (m : M kstate A) s a k : m (n_k s) = Done (a, k) -> nkern m s = Done (a, set_nk k s).
Proof. intros H. unfold nkern, zoom. by rewrite H. Qed.

(** Adding an entry whose references are new, or removing one. *)
Lemma ninv_insert s s' mac n refs :
  ninv s -> mac_ok mac -> kinv (n_k s') -> refs_below (n_k s') -> wf 6 (n_root s') ->
  refs = k_refs (n_k s) -> linked_to (mr_in_ref n) (mr_in n) (n_k s') -> linked_to (mr_out_ref n) (mr_out n) (n_k s') ->
  mr_in_ref n <> mr_out_ref n -> refs !! mr_in_ref n = None -> refs !! mr_out_ref n = None ->
  delete (mr_out_ref n) (delete (mr_in_ref n) (k_refs (n_k s'))) = refs ->
  (forall m, mac_ok m -> entry s' m = if decide (m = mac) then Some n else entry s m) -> ninv s'.
Proof.
  intros H Hm Hk Hb Hw -> (p & c & L1 & _) (q & d & L2 & _) Hne F1 F2 Hdel He.
  assert (Old : forall r, is_Some (k_refs (n_k s) !! r) -> is_Some (k_refs (n_k s') !! r) /\ r <> mr_in_ref n /\ r <> mr_out_ref n).
  { intros r Hr. assert (r <> mr_in_ref n /\ r <> mr_out_ref n) as [R1 R2] by (split; intros ->; [rewrite F1 in Hr|rewrite F2 in Hr]; by destruct Hr).
    split; [|done]. rewrite <- Hdel in Hr. by rewrite !lookup_delete_ne in Hr by done. }
  split; try done.
  - intros m n' Hm' E. rewrite He in E by done. case_decide.
    + injection E as <-. split_and!; eauto.
    + destruct (ni_refs _ H _ _ Hm' E) as (A1 & A2 & A3). split_and!; try done; by apply Old.
  - intros m m' n1 n2 Hm1 Hm2 Hd E1 E2 r Hr. rewrite He in E1, E2 by done.
    destruct (decide (m = mac)) as [-> |N1], (decide (m' = mac)) as [-> |N2]; [done|..].
    + injection E1 as <-. destruct (ni_refs _ H _ _ Hm2 E2) as (A1 & A2 & _). apply Old in A1 as (_ & ? & ?), A2 as (_ & ? & ?).
      destruct Hr; subst; auto.
    + injection E2 as <-. destruct (ni_refs _ H _ _ Hm1 E1) as (A1 & A2 & _). destruct Hr; subst; by apply Old.
    + by eapply (ni_sep _ H m m').
Qed.

Lemma ninv_delete s s' mac n :
  ninv s -> mac_ok mac -> entry s mac = Some n ->
  kinv (n_k s') -> k_brk (n_k s') = k_brk (n_k s) -> wf 6 (n_root s') ->
  k_refs (n_k s') = delete (mr_out_ref n) (delete (mr_in_ref n) (k_refs (n_k s))) ->
  (forall m, mac_ok m -> entry s' m = if decide (m = mac) then None else entry s m) -> ninv s'.
Proof.
  intros H Hm En Hk Hb Hw Hr He. split; try done.
  - intros r [x Hx]. rewrite Hr in Hx. apply lookup_delete_Some in Hx as [_ Hx]. apply lookup_delete_Some in Hx as [_ Hx].
    rewrite Hb. apply (ni_below _ H). eauto.
  - intros m n' Hm' E. rewrite He in E by done. case_decide; [done|].
    destruct (ni_refs _ H _ _ Hm' E) as (A1 & A2 & A3).
    pose proof (ni_sep _ H m mac n' n Hm' Hm ltac:(done) E En) as Sep.
    destruct (Sep _ (or_introl eq_refl)) as [? ?], (Sep _ (or_intror eq_refl)) as [? ?].
    rewrite Hr, !lookup_delete_ne by done. done.
  - intros m m' n1 n2 Hm1 Hm2 Hd E1 E2. rewrite He in E1, E2 by done.
    destruct (decide (m = mac)); [done|]. destruct (decide (m' = mac)); [done|]. exact (ni_sep _ H m m' n1 n2 Hm1 Hm2 Hd E1 E2).
Qed.

Lemma privnet_add_mac_spec mac i o s : ninv s -> mac_ok mac ->
  match privnet_add_mac mac i o s with
  | Oops e => e = NullDeref
  | Done (rc, s') => ninv s' /\ (is_Some (entry s mac) -> rc = - EBUSY) /\
      (rc < 0 /\ (forall m, mac_ok m -> entry s' m = entry s m) /\ k_refs (n_k s') = k_refs (n_k s) \/
       rc = 0 /\ exists n, linked_to (mr_in_ref n) i (n_k s') /\ linked_to (mr_out_ref n) o (n_k s') /\
         forall m, mac_ok m -> entry s' m = if decide (m = mac) then Some n else entry s m)
  end.
Proof.
  intros H [Hl Hb]. pose proof (add_mac_at_spec mac i o (n_root s) (n_k s) Hb ltac:(by intros ->)
    ltac:(rewrite Hl; apply H) (ni_k _ H) (ni_below _ H)) as Hs. unfold wp in Hs.
  unfold privnet_add_mac, bind at 1, gets, bind at 1, nkern, zoom.
  destruct (add_mac_at mac i o (n_root s) (n_k s)) as [[[rc t'] k']|e]; [|done].
  destruct Hs as (Hk & Hbe & Hw & Ha). rewrite Hl in Hw. cbn [fst snd] in *. unfold bind, modify, ret.
  set (s' := set_root t' (set_nk k' s)).
  destruct Ha as [(Hrc & Hsame & Hrefs & Hbusy)|(Hrc & Hnone & n & <- & <- & L1 & L2 & Hne & F1 & F2 & Hdel & Hf)]; cbn [fst snd] in *; [|subst rc].
  - assert (He : forall m, mac_ok m -> entry s' m = entry s m).
    { intros m [Hm Hmb]. unfold entry. simpl. by rewrite Hsame by congruence. }
    split; [|split; [|left; done]].
    + split; try done; simpl.
      * intros m n Hm E. rewrite He in E by done. rewrite Hrefs. by eapply ni_refs.
      * intros m m' n1 n2 Hm Hm' Hd E1 E2. rewrite He in E1, E2 by done. by eapply (ni_sep _ H m m').
    + intros [n Hn]. apply Hbusy. rewrite entry_find by (done || by split). rewrite Hn. by eexists.
  - assert (He : forall m, mac_ok m -> entry s' m = if decide (m = mac) then Some n else entry s m).
    { intros m Hm. by apply (entry_finds s s' mac (Some n)). }
    split; [by apply (ninv_insert s s' mac n (k_refs (n_k s)))|]. split; [unfold entry; rewrite Hnone; by intros []|].
    right. split; [done|]. by exists n.
Qed.
End ModuleFacts.

(** ** Unloading *)

Section FreeFacts.
Context {B : BlkCipher} {L : StreamCipher B}.

(** Only references disappear. *)
Definition shrinks (s s' : kstate) : Prop :=
  k_init s' = k_init s /\ k_ctxs s' = k_ctxs s /\ k_files s' = k_files s /\
  forall r, k_refs s !! r = None -> k_refs s' !! r = None.

Lemma shrinks_refl s : shrinks s s.
Proof. by split_and!. Qed.

Lemma shrinks_trans s1 s2 s3 : shrinks s1 s2 -> shrinks s2 s3 -> shrinks s1 s3.
Proof. intros (? & ? & ? & ?) (? & ? & ? & ?). split_and!; try congruence. auto. Qed.

Lemma free_refs_run n s : exists s', free_refs n s = Done (tt, s') /\ shrinks s s' /\ k_refs s' !! mr_in_ref n = None.
Proof.
  eexists. split; [done|]. cbn. split.
  - split_and!; try done. intros r Hr. cbn. rewrite !lookup_delete_None. auto.
  - rewrite !lookup_delete_None. auto.
Qed.

(** Freeing the tree frees the references of every entry. *)
Lemma free_tree_run d t indx s :
  wf d t -> (indx + d = 6)%nat ->
  exists s', __free_mac_tree_node_recursive indx t s = Done (tt, s') /\ shrinks s s' /\
  forall mac n, length mac = d -> bytes_ok mac -> find_mac t mac = Some (MLeaf n) -> k_refs s' !! mr_in_ref n = None.
Proof.
  revert t indx s. induction d as [|d IH]; intros t indx s Hw Hd.
  { destruct t as [n|]; [|done]. destruct (free_refs_run n s) as (s' & E & Hs & Hr). exists s'. split; [done|]. split; [done|].
    intros [|] n' Hl _ Hf; [|done]. simpl in Hf. by injection Hf as <-. }
  destruct t as [|l]; [done|]. destruct Hw as [Hl Hw]. cbn [__free_mac_tree_node_recursive].
  replace (indx <? 6)%nat with true by (symmetry; apply Nat.ltb_lt; lia).
  match goal with |- context [bind (?g l) _] => set (go := g) end.
  assert (Hgo : forall l' s, (forall c, Some c ∈ l' -> wf d c) -> exists s', go l' s = Done (tt, s') /\ shrinks s s' /\
    forall c mac n, Some c ∈ l' -> length mac = d -> bytes_ok mac -> find_mac c mac = Some (MLeaf n) -> k_refs s' !! mr_in_ref n = None).
  { induction l' as [|[c|] l' IHl]; intros s0 Hl'.
    - exists s0. split; [done|]. split; [apply shrinks_refl|]. intros c mac n Hc. by apply elem_of_nil in Hc.
    - destruct (IH c (S indx) s0) as (s1 & E1 & S1 & R1); [apply Hl'; by left|lia|].
      destruct (IHl s1) as (s2 & E2 & S2 & R2); [intros c' Hc'; apply Hl'; by right|].
      exists s2. split; [change (go (Some c :: l')) with (bind (__free_mac_tree_node_recursive (S indx) c) (fun _ => go l'));
        by rewrite (bind_eq _ _ _ _ _ E1)|]. split; [by eapply shrinks_trans|].
      intros c' mac n Hc' Hm Hb Hf. apply elem_of_cons in Hc' as [[= ->]|Hc']; [|by eapply R2]. apply S2. by eapply R1.
    - destruct (IHl s0) as (s2 & E2 & S2 & R2); [intros c' Hc'; apply Hl'; by right|]. exists s2. split; [done|]. split; [done|].
      intros c' mac n Hc'. apply elem_of_cons in Hc' as [|Hc']; [done|by apply R2]. }
  assert (Hch : forall c, Some c ∈ l -> wf d c).
  { intros c Hc. apply list_elem_of_lookup in Hc as [i Hi]. pose proof (lookup_lt_Some _ _ _ Hi).
    apply (Hw (Z.of_nat i)); [unfold byte_ok; lia|]. unfold child. by rewrite Nat2Z.id, Hi. }
  destruct (Hgo l s Hch) as (s1 & E1 & S1 & R1). rewrite (bind_eq _ _ _ _ _ E1).
  eexists. split; [done|]. split; [by destruct S1 as (? & ? & ? & ?); split_and!|].
  intros [|b mac] n Hm Hb Hf; [done|]. cbn [find_mac] in Hf. destruct (child l b) as [c|] eqn:Ec; [|done].
  apply Forall_cons in Hb as [_ Hb]. injection Hm as Hm. eapply R1; try done.
  unfold child in Ec. destruct (l !! Z.to_nat b) as [o|] eqn:El; [|done]. simpl in Ec. subst o. by eapply list_elem_of_lookup_2.
Qed.
End FreeFacts.

(** ** Properties *)

Section PrivNetProperties.
Context {B : BlkCipher} {L : StreamCipher B}.

(** Adding a MAC address.  The tree implements a finite map: a bound address
    gives -EBUSY, any failure leaves every binding and every reference as it was,
    and success binds exactly this address, to references linked to the contexts
    with the given ids.  The only fault is the unchecked allocation of a tree
    node. *)
Theorem privnet_add_mac_correct mac i o s : ninv s -> mac_ok mac ->
  match privnet_add_mac mac i o s with
  | Oops e => e = NullDeref
  | Done (rc, s') => ninv s' /\ (is_Some (entry s mac) -> rc = - EBUSY) /\
      (rc < 0 /\ (forall m, mac_ok m -> entry s' m = entry s m) /\ k_refs (n_k s') = k_refs (n_k s) \/
       rc = 0 /\ exists n, linked_to (mr_in_ref n) i (n_k s') /\ linked_to (mr_out_ref n) o (n_k s') /\
         forall m, mac_ok m -> entry s' m = if decide (m = mac) then Some n else entry s m)
  end.
Proof. apply privnet_add_mac_spec. Qed.

(** Removing a MAC address always returns, unbinds exactly that address, and
    releases and frees the two references of its entry; an address that is not
    there changes nothing. *)
Theorem privnet_remove_mac_correct mac s : ninv s -> mac_ok mac ->
  exists s', privnet_remove_mac mac s = Done (tt, s') /\ ninv s' /\
    (forall m, mac_ok m -> entry s' m = if decide (m = mac) then None else entry s m) /\
    match entry s mac with
    | None => s' = s
    | Some n => k_refs (n_k s') = delete (mr_out_ref n) (delete (mr_in_ref n) (k_refs (n_k s)))
    end.
Proof.
  intros H Hm. destruct (Hm) as [Hl Hb]. pose proof (entry_find s mac H Hm) as Hf.
  unfold privnet_remove_mac, bind at 1, gets. destruct (entry s mac) as [n|] eqn:En; simpl in Hf.
  - destruct (ni_refs _ H _ _ Hm En) as (R1 & R2 & Hne).
    destruct (remove_present mac 0 (n_root s) (n_k s) n) as ([g t'] & k' & E & Hk & Hbk & Hr & _ & [Hrem _]); try done;
      [rewrite Hl; apply H|apply H|].
    destruct (Hrem ltac:(by intros ->)) as [Hw Hfi]. rewrite Hl in Hw. rewrite (bind_eq _ _ _ _ _ (nkern_run _ _ _ _ E)).
    unfold modify. set (s' := set_root _ _). exists s'. split; [done|].
    assert (He : forall m, mac_ok m -> entry s' m = if decide (m = mac) then None else entry s m)
      by (intros m Hm'; by apply (entry_finds s s' mac None)).
    split; [by apply (ninv_delete s s' mac n)|done].
  - rewrite (bind_eq _ _ _ _ _ (nkern_run _ _ _ _ (remove_absent mac 0 (n_root s) (n_k s) ltac:(rewrite Hl; apply H) Hb ltac:(by intros ->) Hf))).
    unfold modify. cbn [snd]. assert (E : set_root (n_root s) (set_nk (n_k s) s) = s) by (by destruct s). rewrite E.
    exists s. split; [done|]. split; [done|]. split; [|done]. intros m _. by case_decide; subst.
Qed.

(** A packet of a private address.  With an active context the data is
    encrypted under its key stream; when the context has gone or is inactive the
    hook only logs an error and the packet goes on in the clear. *)
Theorem privnet_crypt_cases data r o s :
  kinv s -> k_refs s !! r = Some o ->
  exists out s', __privnet_crypt data r s = Done (out, s') /\ kinv s' /\
  match o with
  | None => out = data /\ s' = s
  | Some p => exists c t, k_ctxs s !! p = Some c /\ cc_cipher c = Some t /\
      if cc_activated c =? 0 then out = data /\ s' = s else out = stream_xor t data
  end.
Proof.
  intros H Hr. unfold __privnet_crypt, bind at 1, load_ref. rewrite Hr. destruct o as [p|]; [|by exists data, s].
  destruct (ki_back _ H _ _ Hr) as (c & Hc & _). pose proof (ki_ok _ H _ _ Hc) as Hok.
  destruct (co_cipher _ Hok) as (t & Ht & _). destruct (Z.eqb_spec (cc_activated c) 0) as [Ha|Ha].
  - rewrite (bind_eq _ _ _ _ _ (priv_crypt_off p c data s Hc Ha)). exists data, s. split_and!; try done. exists c, t. by rewrite Ha.
  - destruct (priv_crypt_run p c t data s Hc Hok Ht Ha) as (pg & _ & _ & Hok' & E). rewrite (bind_eq _ _ _ _ _ E).
    eexists _, _. split; [done|]. split; [by eapply kinv_put|]. exists c, t. apply Z.eqb_neq in Ha. by rewrite Ha.
Qed.

(** The text interface.  Writing an address and two ids in the printed form to
    add_mac adds exactly that address with those ids; and the delay reads back,
    through show and store, as the number it is. *)
Theorem privnet_text_roundtrip mac i o d s :
  mac_ok mac -> 0 <= i < 2 ^ 32 -> 0 <= o < 2 ^ 32 -> 0 <= d < 2 ^ 31 ->
  let text := add_text mac i o in
  privnet_store attr_add_mac text s
  = (let! rc := privnet_add_mac mac i o in if rc <? 0 then ret rc else ret (Z.of_nat (length text))) (set_mac_buff mac s) /\
  (let! shown := privnet_show attr_delay in privnet_store attr_delay shown) (set_delay d s)
  = Done (Z.of_nat (length (itoa_dec d)), set_delay d s).
Proof.
  intros Hm Hi Ho Hd text. split.
  - destruct (mac_text_read mac (44 :: sprintf_X i ++ 44 :: sprintf_X o ++ [10]) Hm) as [Hl Hr].
    unfold privnet_store. fold (add_text mac i o) in Hr. fold text in Hr. rewrite Hr.
    pose proof (sprintf_X_pos i). pose proof (sprintf_X_pos o).
    assert (Hlen : (21 <= length text)%nat).
    { unfold text, add_text. rewrite !length_app, Hl. simpl. rewrite !length_app. simpl. rewrite length_app. simpl. lia. }
    replace (Z.of_nat (length text) <? 17) with false by lia. replace (Z.of_nat (length text) <? 21) with false by lia.
    assert (E : drop 18 text = sprintf_X i ++ 44 :: sprintf_X o ++ [10]).
    { unfold text, add_text. replace 18%nat with (length (mac_text mac) + 1)%nat by lia.
      by rewrite <- drop_drop, drop_app_length. }
    rewrite E, hex_loop_X by done. change (drop 1 (44 :: sprintf_X o ++ [10])) with (sprintf_X o ++ [10]).
    by rewrite hex_loop_X.
  - unfold privnet_show, privnet_store, bind, gets, ret, modify. cbn [n_delay set_delay]. rewrite atoi_itoa by done. done.
Qed.

(** Unloading the module frees the references of every entry without
    releasing the contexts that point back at them: destroying such a context
    afterwards writes to freed memory. *)
Theorem privnet_exit_dangles mac n i p f s :
  ninv s -> mac_ok mac -> entry s mac = Some n ->
  linked_to (mr_in_ref n) i (n_k s) -> k_refs (n_k s) !! mr_in_ref n = Some (Some p) -> file_ok f (Some p) (n_k s) ->
  exists s', privnet_exit s = Done (tt, s') /\ do_destroy f (n_k s') = Oops UseAfterFree.
Proof.
  intros H Hm En (q & c & Hq & Hc & _ & Hu) Hp [Hf _]. rewrite Hp in Hq. injection Hq as <-. destruct (Hm) as [Hl Hb].
  destruct (free_tree_run 6 (n_root s) 0 (n_k s) (ni_wf _ H) eq_refl) as (k' & E & (_ & Ec & Ef & _) & Hgone).
  unfold privnet_exit, bind at 1, gets. rewrite (nkern_run _ _ _ _ E). eexists. split; [done|]. cbn [n_k set_nk].
  assert (Hr : k_refs k' !! mr_in_ref n = None) by (apply (Hgone mac); [done|done|by rewrite entry_find, En]).
  assert (Hc' : k_ctxs k' !! p = Some c) by (by rewrite Ec).
  assert (Hf' : get_file f k' = Done (Some p, k')) by (unfold get_file; by rewrite Ef, Hf).
  unfold do_destroy. rewrite (bind_eq _ _ _ _ _ Hf'). unfold remove_ctx, bind at 1 2. rewrite (load_run _ _ _ Hc'), Hu.
  unfold bind at 1 2, store_ref. by rewrite Hr.
Qed.
End PrivNetProperties.

(** ** Witnesses *)

Section PrivNetWitness.
#[local] Existing Instance aes_cipher.

(** Two contexts and an empty tree; then one address. *)
Definition wit_new2 : M kstate (Z * uout) := priv_crypt_ioctl (Some wit_ops) 42 1 PRIV_CRYPT_CMD_NEW_CTX wit_arg.
Definition wit_s6 : kstate := exec wit_new2 wit_s2.
Definition wit_net : nstate := NS wit_s6 (MNode (replicate 256 None)) 0 [].
Definition wit_mac : bytes := [2; 0; 222; 173; 190; 239].
Definition wit_add : M nstate Z := privnet_add_mac wit_mac 1 2.
Definition wit_net1 : nstate := exec wit_add wit_net.

Lemma wit_mac_ok : mac_ok wit_mac.
Proof. split; [reflexivity|]. repeat constructor; lia. Qed.

Lemma wit_net_inv : ninv wit_net.
Proof.
  assert (Hn : forall m, entry wit_net m = None).
  { intros [|b m]; [done|]. unfold entry. simpl n_root. by rewrite find_empty. }
  split.
  - apply (kinv_ioctl _ _ wit_ops_laws 42 1 PRIV_CRYPT_CMD_NEW_CTX wit_arg (2, no_uout) wit_s2);
      [apply wit_inv2|apply wit_arg_ok|vm_compute; reflexivity|apply (val_exec wit_new2 wit_s2); vm_compute; reflexivity].
  - assert (E : k_refs wit_s6 = ∅) by (vm_compute; reflexivity). intros r. simpl. rewrite E, lookup_empty. by intros [].
  - apply wf_empty.
  - intros m n _ E. by rewrite Hn in E.
  - intros m m' n n' _ _ _ E. by rewrite Hn in E.
Qed.

Lemma wit_add_run : wit_add wit_net = Done (0, wit_net1).
Proof. apply (val_exec wit_add wit_net). vm_compute. reflexivity. Qed.

Lemma wit_net1_inv : ninv wit_net1 /\ exists n, entry wit_net1 wit_mac = Some n /\
  linked_to (mr_in_ref n) 1 (n_k wit_net1) /\ is_Some (k_refs (n_k wit_net1) !! mr_in_ref n).
Proof.
  pose proof (privnet_add_mac_spec wit_mac 1 2 wit_net wit_net_inv wit_mac_ok) as H.
  change (privnet_add_mac wit_mac 1 2 wit_net) with (wit_add wit_net) in H. rewrite wit_add_run in H.
  destruct H as (Hi & _ & [(? & _)|(_ & n & L1 & _ & He)]); [lia|]. split; [done|]. exists n.
  rewrite He by apply wit_mac_ok. rewrite decide_True by done. split; [done|]. split; [done|].
  destruct L1 as (p & c & Hr & _). eauto.
Qed.

Lemma privnet_add_mac_correct_witness : ninv wit_net1.
Proof.
  pose proof (privnet_add_mac_correct wit_mac 1 2 wit_net wit_net_inv wit_mac_ok) as H.
  change (privnet_add_mac wit_mac 1 2 wit_net) with (wit_add wit_net) in H. rewrite wit_add_run in H. apply H.
Defined.

Lemma privnet_remove_mac_correct_witness :
  exists s', privnet_remove_mac wit_mac wit_net1 = Done (tt, s') /\ entry s' wit_mac = None.
Proof.
  destruct wit_net1_inv as (Hi & n & En & _).
  destruct (privnet_remove_mac_correct wit_mac wit_net1 Hi wit_mac_ok) as (s' & E & _ & He & _).
  exists s'. split; [exact E|]. rewrite He by apply wit_mac_ok. by rewrite decide_True.
Defined.

Lemma privnet_crypt_cases_witness : exists out s', __privnet_crypt [1; 2; 3] 7 wit_s5 = Done (out, s') /\ kinv s'.
Proof.
  destruct (privnet_crypt_cases [1; 2; 3] 7 (Some 0%nat) wit_s5 wit_inv5 wit_ref5) as (out & s' & E & H & _).
  exists out, s'. auto.
Defined.

Lemma privnet_text_roundtrip_witness :
  (let! shown := privnet_show attr_delay in privnet_store attr_delay shown) (set_delay 1500 wit_net)
  = Done (5, set_delay 1500 wit_net).
Proof.
  exact (proj2 (privnet_text_roundtrip wit_mac 1 2 1500 wit_net wit_mac_ok ltac:(lia) ltac:(lia) ltac:(lia))).
Defined.

Lemma privnet_exit_dangles_witness :
  exists s', privnet_exit wit_net1 = Done (tt, s') /\ do_destroy 0 (n_k s') = Oops UseAfterFree.
Proof.
  destruct wit_net1_inv as (Hi & n & En & L1 & _). pose proof L1 as (p & c & Hp & Hc & Hid & _).
  assert (P0 : p = 0%nat).
  { assert (E0 : 0%nat ∈ k_list (n_k wit_net1)) by (assert (E : k_list (n_k wit_net1) = [1%nat; 0%nat]) by (vm_compute; reflexivity);
      rewrite E; right; by left).
    apply (ki_live _ (ni_k _ Hi)) in E0 as [c0 Hc0]. apply (ki_ids _ (ni_k _ Hi) p 0%nat c c0 Hc Hc0).
    assert (E : cc_id <$> k_ctxs (n_k wit_net1) !! 0%nat = Some 1) by (vm_compute; reflexivity).
    rewrite Hc0 in E. injection E as ->. exact Hid. }
  subst p. apply (privnet_exit_dangles wit_mac n 1 0 0 wit_net1 Hi wit_mac_ok En L1 Hp).
  split; [vm_compute; reflexivity|]. intros q [= <-]. eauto.
Defined.
End PrivNetWitness.
