(* ===== verification/PrivSound.v ===== *)
(** * The private sound channels

    linux-3.0/drivers/priv_sysfs/privsound/privsound.c: per virtual machine two
    ring buffers of 16-bit stereo frames, captured sound encrypted on its way in
    and played sound decrypted on its way to the mixing buffer.  Every copy is
    bounds-checked in the model: one outside its buffer is a fault. *)

From S2P Require Import Prelude Text BlkCipher Ctr AesCipher PrivCrypt Kex Driver.

Definition PSND_IBUF_SIZE : Z := 6400.
Definition PSND_OBUF_SIZE : Z := 64000.

(** [struct psnd_buf] *)
Record psnd_buf := Psnd {
  pb_ibuffer : bytes;
  pb_obuffer : bytes;
  pb_out_ctx : Z;
  pb_out_ref : nat;
  pb_in_ctx : Z;
  pb_in_ref : nat;
  pb_owptr : Z;
  pb_ofptr : Z;
  pb_iwptr : Z;
  pb_ifptr : Z;
  pb_input_enabled : Z;
}.

Definition set_in (b : bytes) (w : Z) (p : psnd_buf) : psnd_buf :=
  Psnd b (pb_obuffer p) (pb_out_ctx p) (pb_out_ref p) (pb_in_ctx p) (pb_in_ref p)
    (pb_owptr p) (pb_ofptr p) w (pb_ifptr p) (pb_input_enabled p).
Definition set_ifptr (f : Z) (p : psnd_buf) : psnd_buf :=
  Psnd (pb_ibuffer p) (pb_obuffer p) (pb_out_ctx p) (pb_out_ref p) (pb_in_ctx p) (pb_in_ref p)
    (pb_owptr p) (pb_ofptr p) (pb_iwptr p) f (pb_input_enabled p).
Definition set_out (b : bytes) (w f : Z) (p : psnd_buf) : psnd_buf :=
  Psnd (pb_ibuffer p) b (pb_out_ctx p) (pb_out_ref p) (pb_in_ctx p) (pb_in_ref p)
    w f (pb_iwptr p) (pb_ifptr p) (pb_input_enabled p).
Definition set_enabled (e : Z) (p : psnd_buf) : psnd_buf :=
  Psnd (pb_ibuffer p) (pb_obuffer p) (pb_out_ctx p) (pb_out_ref p) (pb_in_ctx p) (pb_in_ref p)
    (pb_owptr p) (pb_ofptr p) (pb_iwptr p) (pb_ifptr p) e.

(** [sysfs] files of the module *)
Inductive sattribute := sattr_register | sattr_remove | sattr_show_pointers | sattr_enable_input | sattr_disable_input.

Section Sound.
Context {B : BlkCipher}.
Abbreviation K := (M kstate).

(** [memcpy(buf + off, src, len)] and [memcpy(dst, buf + off, len)] *)
Definition memcpy_to (buf : bytes) (off : Z) (src : bytes) (len : Z) : K bytes :=
  if (0 <=? off) && (0 <=? len) && (off + len <=? length buf) && (len <=? length src)
  then ret (splice (Z.to_nat off) (take (Z.to_nat len) src) buf) else oops OutOfBounds.
Definition memcpy_from (buf : bytes) (off len : Z) : K bytes :=
  if (0 <=? off) && (0 <=? len) && (off + len <=? length buf)
  then ret (slice (Z.to_nat off) (Z.to_nat len) buf) else oops OutOfBounds.

(** [setup_cctx_refs], on a fresh [psnd_buf] *)
Definition setup_cctx_refs (p : psnd_buf) : K Z :=
  cctx_ref_init (pb_in_ref p) ;;
  let! rc := use_ctx (pb_in_ctx p) (Some (pb_in_ref p)) in
  if rc <? 0 then ret (-1) else
  cctx_ref_init (pb_out_ref p) ;;
  let! rc := use_ctx (pb_out_ctx p) (Some (pb_out_ref p)) in
  if rc <? 0 then unuse_ctx (Some (pb_in_ref p)) ;; ret (-1) else
  ret 0.

(** [unuse_cctx_refs] *)
Definition unuse_cctx_refs (p : psnd_buf) : K unit :=
  unuse_ctx (Some (pb_out_ref p)) ;; unuse_ctx (Some (pb_in_ref p)).

(** [privsound_crypt]: the data afterwards; an error is only logged. *)
Definition privsound_crypt (data : bytes) (ref : nat) : K bytes :=
  let! o := load_ref ref in
  match o with
  | None => ret data
  | Some p => let! r := priv_crypt (Some p) data data in ret (snd r)
  end.

(** [privsound_crypt(buf + off, 4, ref)] *)
Definition crypt_frame (buf : bytes) (off : Z) (ref : nat) : K bytes :=
  let! f := memcpy_from buf off 4 in
  let! f := privsound_crypt f ref in
  memcpy_to buf off f 4.

(** [for (i = 0; i < avail; i += 4) privsound_crypt(ibuffer + wp + i, 4, ref)] *)
Fixpoint crypt_loop (n : nat) (buf : bytes) (off : Z) (ref : nat) : K bytes :=
  match n with
  | O => ret buf
  | S n' => let! buf := crypt_frame buf off ref in crypt_loop n' buf (off + 4) ref
  end.
Definition crypt_frames (buf : bytes) (wp avail : Z) (ref : nat) : K bytes :=
  crypt_loop (Z.to_nat ((avail + 3) / 4)) buf wp ref.

(** One buffer of the loop of [privsound_encrypt_input].  [Z.rem] is C's [%]. *)
Definition encrypt_input_buf (data : bytes) (len : Z) (p : psnd_buf) : K psnd_buf :=
  if pb_input_enabled p =? 0 then ret p else
  let wp := pb_iwptr p in
  let fp := pb_ifptr p in
  if wp <? fp then
    let avail := fp - wp - 4 in
    let avail := if len <? avail then len else avail in
    let avail := avail - Z.rem avail 4 in
    if avail <=? 0 then ret p else
    let! b := memcpy_to (pb_ibuffer p) wp data avail in
    let! b := crypt_frames b wp avail (pb_in_ref p) in
    ret (set_in b ((wp + avail) mod PSND_IBUF_SIZE) p)
  else
    let avail1 := PSND_IBUF_SIZE - wp in
    let avail := avail1 + fp - 4 in
    let avail := if len <? avail then len else avail in
    let avail := avail - Z.rem avail 4 in
    let '(avail1, avail2) := if avail <? avail1 then (avail, 0) else (avail1, avail - avail1) in
    if avail1 <=? 0 then ret p else
    let! b := memcpy_to (pb_ibuffer p) wp data avail1 in
    let! b := crypt_frames b wp avail1 (pb_in_ref p) in
    let wp := (wp + avail1) mod PSND_IBUF_SIZE in
    if avail2 <=? 0 then ret (set_in b wp p) else
    let! b := memcpy_to b wp data avail2 in
    let! b := crypt_frames b wp avail2 (pb_in_ref p) in
    ret (set_in b ((wp + avail2) mod PSND_IBUF_SIZE) p).

Fixpoint encrypt_input_loop (data : bytes) (len : Z) (l : list psnd_buf) : K (list psnd_buf) :=
  match l with
  | [] => ret []
  | p :: l' =>
      let! p := encrypt_input_buf data len p in
      let! l' := encrypt_input_loop data len l' in
      ret (p :: l')
  end.

(** [privsound_encrypt_input]: the buffers, and the DMA data, cleared. *)
Definition privsound_encrypt_input (data : bytes) (l : list psnd_buf) : K (list psnd_buf * bytes) :=
  let! l := encrypt_input_loop data (length data) l in
  ret (l, zeros (length data)).

(** [privsound_write_to_buf], [bin_write] *)
Definition privsound_write_to_buf (buffer : bytes) (p : psnd_buf) : K (Z * psnd_buf) :=
  let size := Z.of_nat (length buffer) in
  let fp := pb_ofptr p in
  let wp := pb_owptr p in
  if wp <? fp then
    let avail1 := fp - wp - 4 in
    let avail1 := if size <? avail1 then size else avail1 in
    let! b := memcpy_to (pb_obuffer p) wp buffer avail1 in
    ret (avail1, set_out b ((wp + avail1) mod PSND_OBUF_SIZE) fp p)
  else
    let avail1 := PSND_OBUF_SIZE - wp in
    let avail := avail1 + fp - 4 in
    let avail := if size <? avail then size else avail in
    let avail1 := if avail <? avail1 then avail else avail1 in
    let! b := memcpy_to (pb_obuffer p) wp buffer avail1 in
    let wp := (wp + avail1) mod PSND_OBUF_SIZE in
    let avail2 := avail - avail1 in
    if 0 <? avail2 then
      let! b := memcpy_to b 0 (drop (Z.to_nat avail1) buffer) avail2 in
      ret (avail1 + avail2, set_out b (wp + avail2) fp p)
    else ret (avail1 + avail2, set_out b wp fp p).

(** [*(signed short * )(dst + off) += *(signed short * )src] *)
Definition add_short (dst : bytes) (off : Z) (src : bytes) : K bytes :=
  let! d := memcpy_from dst off 2 in
  memcpy_to dst off (le_bytes 2 (u16 (le_value d + le_value src))) 2.

(** The frame loop of [privsound_buf_to_hw]: the hardware buffer and the ring. *)
Fixpoint buf_to_hw_loop (frms : nat) (hw : bytes) (ptr frame_size : Z) (obuf : bytes) (fp : Z) (ref : nat)
  : K (bytes * bytes * Z) :=
  match frms with
  | O => ret (hw, obuf, fp)
  | S n =>
      let! obuf := crypt_frame obuf fp ref in
      let! a := memcpy_from obuf fp 2 in
      let! hw := add_short hw ptr a in
      let! b := memcpy_from obuf (fp + frame_size / 2) 2 in
      let! hw := add_short hw (ptr + frame_size / 2) b in
      let! obuf := memcpy_to obuf fp (zeros 4) 4 in
      let fp := fp + frame_size in
      let fp := if PSND_OBUF_SIZE <=? fp then fp - PSND_OBUF_SIZE else fp in
      buf_to_hw_loop n hw (ptr + frame_size) frame_size obuf fp ref
  end.

(** One buffer of [privsound_buf_to_hw] *)
Definition buf_to_hw_buf (hw : bytes) (frame_size frames : Z) (p : psnd_buf) : K (bytes * psnd_buf) :=
  let wp := pb_owptr p in
  let fp := pb_ofptr p in
  let num := if fp <=? wp then wp - fp else PSND_OBUF_SIZE - fp + wp in
  let frms := num / frame_size in
  let frms := if frms <? frames then frms else frames in
  let! r := buf_to_hw_loop (Z.to_nat frms) hw 0 frame_size (pb_obuffer p) fp (pb_out_ref p) in
  let '(hw, obuf, fp) := r in
  ret (hw, set_out obuf wp fp p).

Fixpoint buf_to_hw_all (hw : bytes) (frame_size frames : Z) (l : list psnd_buf) : K (bytes * list psnd_buf) :=
  match l with
  | [] => ret (hw, [])
  | p :: l' =>
      let! r := buf_to_hw_buf hw frame_size frames p in
      let! r' := buf_to_hw_all (fst r) frame_size frames l' in
      ret (fst r', snd r :: snd r')
  end.

(** [privsound_buf_to_hw] *)
Definition privsound_buf_to_hw (hw : bytes) (frame_size frames : Z) (l : list psnd_buf) : K (bytes * list psnd_buf) :=
  if frames =? 0 then ret (hw, l) else buf_to_hw_all hw frame_size frames l.

(** [bin_read] with room for [count] bytes *)
Definition bin_read (count : Z) (p : psnd_buf) : K (bytes * psnd_buf) :=
  let wp := pb_iwptr p in
  let fp := pb_ifptr p in
  let '(avail1, avail2) := if fp <=? wp then (wp - fp, 0) else (PSND_IBUF_SIZE - fp, wp) in
  let avail1 := if count <? avail1 then count else avail1 in
  let! b1 := memcpy_from (pb_ibuffer p) fp avail1 in
  let count := count - avail1 in
  let fp := (fp + avail1) mod PSND_IBUF_SIZE in
  let avail2 := if count <? avail2 then count else avail2 in
  if 0 <? avail2 then
    let! b2 := memcpy_from (pb_ibuffer p) fp avail2 in
    ret (b1 ++ b2, set_ifptr (fp + avail2) p)
  else ret (b1, set_ifptr fp p).

(** [bin_get_out_avail]: frames that can be written *)
Definition bin_get_out_avail (p : psnd_buf) : Z :=
  let size := if pb_ofptr p <=? pb_owptr p then PSND_OBUF_SIZE - pb_owptr p + pb_ofptr p
              else pb_ofptr p - pb_owptr p in
  (size - 4) ÷ 4.
End Sound.

(** ** The module *)

(** [hex2int] *)
Definition hex2int (c : Z) : Z :=
  if (48 <=? c) && (c <=? 57) then c - 48
  else if (97 <=? c) && (c <=? 102) then c - 97 + 10
  else if (65 <=? c) && (c <=? 70) then c - 65 + 10
  else -1.

(** A digit loop of [privsound_store]: the id and the rest of the text. *)
Fixpoint hex_ctx (id : Z) (s : bytes) : Z * bytes :=
  match s with
  | [] => (id, [])
  | c :: s' => if 0 <=? hex2int c then hex_ctx (u32 (u32 (Z.shiftl id 4) + hex2int c)) s' else (id, s)
  end.

(** [find_psnd_buf]: the position in the list *)
Fixpoint find_psnd_buf (ctx : Z) (l : list psnd_buf) : option nat :=
  match l with
  | [] => None
  | p :: l' => if (pb_in_ctx p =? ctx) || (pb_out_ctx p =? ctx) then Some O else S <$> find_psnd_buf ctx l'
  end.

Section Module.
Context {B : BlkCipher}.

(** [psnd_head] and the DMA buffer of [set_DMA_buffer_address] *)
Record sstate := SS { s_k : kstate; s_head : list psnd_buf; s_dma : option bytes }.

Abbreviation S_ := (M sstate).

Definition set_sk (k : kstate) (s : sstate) : sstate := SS k (s_head s) (s_dma s).
Definition set_head (l : list psnd_buf) (s : sstate) : sstate := SS (s_k s) l (s_dma s).
Definition set_dma (d : option bytes) (s : sstate) : sstate := SS (s_k s) (s_head s) d.
Definition skern {A} (m : M kstate A) : S_ A := zoom s_k set_sk m.

(** [privsound_create_psnd_buf]; the new buffers hold whatever the allocator
    returned, [junk]. *)
Definition privsound_create_psnd_buf (junk_i junk_o : bytes) (id_in id_out : Z) : S_ Z :=
  let! a := skern kmalloc in
  match a with
  | Some _ => ret (- ENOMEM)
  | None =>
      let! r1 := skern fresh in
      let! r2 := skern fresh in
      let p := Psnd junk_i junk_o id_out r2 id_in r1 0 0 0 0 0 in
      let! rc := skern (setup_cctx_refs p) in
      if rc <? 0 then skern (kfree ;; free_ref r1 ;; free_ref r2) ;; ret rc else
      modify (fun s => set_head (p :: s_head s) s) ;;
      ret rc
  end.

(** [privsound_free_psnd_buf] *)
Definition privsound_free_psnd_buf (p : psnd_buf) : S_ unit :=
  skern (unuse_cctx_refs p ;; kfree ;; free_ref (pb_in_ref p) ;; free_ref (pb_out_ref p)).

(** [privsound_remove_psnd_buf] of the buffer at position [i], if any *)
Definition privsound_remove_psnd_buf (o : option nat) : S_ unit :=
  match o with
  | None => ret tt
  | Some i =>
      let! l := gets s_head in
      match l !! i with
      | None => oops OutOfBounds
      | Some p =>
          modify (set_head (delete i l)) ;;
          privsound_free_psnd_buf p ;;
          modify (fun s => set_dma ((fun d => zeros (length d)) <$> s_dma s) s)
      end
  end.

(** [pbuf->input_enabled = e] *)
Definition enable_input (o : option nat) (e : Z) : S_ unit :=
  match o with
  | None => ret tt
  | Some i => modify (fun s => set_head (alter (set_enabled e) i (s_head s)) s)
  end.

(** [privsound_store] *)
Definition privsound_store (junk_i junk_o : bytes) (attr : sattribute) (buffer : bytes) : S_ Z :=
  let size := Z.of_nat (length buffer) in
  let! l := gets s_head in
  match attr with
  | sattr_register =>
      let '(id_in, rest) := hex_ctx 0 buffer in
      let '(id_out, _) := hex_ctx 0 (drop 1 rest) in
      match find_psnd_buf id_out l, find_psnd_buf id_in l with
      | None, None =>
          let! rc := privsound_create_psnd_buf junk_i junk_o id_in id_out in
          ret (if rc <? 0 then rc else size)
      | _, _ => ret (- EBUSY)
      end
  | sattr_remove => privsound_remove_psnd_buf (find_psnd_buf (fst (hex_ctx 0 buffer)) l) ;; ret size
  | sattr_enable_input => enable_input (find_psnd_buf (fst (hex_ctx 0 buffer)) l) 1 ;; ret size
  | sattr_disable_input => enable_input (find_psnd_buf (fst (hex_ctx 0 buffer)) l) 0 ;; ret size
  | sattr_show_pointers => ret 0
  end.

(** The loop of [privsound_exit] *)
Fixpoint privsound_exit_loop (l : list psnd_buf) : S_ unit :=
  match l with
  | [] => ret tt
  | p :: l' => privsound_free_psnd_buf p ;; privsound_exit_loop l'
  end.
Definition privsound_exit : S_ unit := let! l := gets s_head in privsound_exit_loop l.
End Module.

(** ** Rings *)

Section Ring.
Variable SZ : Z.

(** Positions inside the buffer, and at least one frame kept free. *)
Definition used (wp fp : Z) : Z := if fp <=? wp then wp - fp else SZ - fp + wp.
Definition ring_ok (buf : bytes) (wp fp : Z) : Prop :=
  Z.of_nat (length buf) = SZ /\ 0 <= wp < SZ /\ 0 <= fp < SZ /\ used wp fp <= SZ - 4.

(** The queue a ring holds, oldest byte first. *)
Definition contents (buf : bytes) (wp fp : Z) : bytes :=
  if fp <=? wp then slice (Z.to_nat fp) (Z.to_nat (wp - fp)) buf
  else drop (Z.to_nat fp) buf ++ take (Z.to_nat wp) buf.

Hypothesis SZ_pos : 4 <= SZ.

Lemma used_nonneg wp fp : 0 <= wp < SZ -> 0 <= fp < SZ -> 0 <= used wp fp < SZ.
Proof. intros. unfold used. case_match; lia. Qed.

Lemma length_contents buf wp fp : ring_ok buf wp fp -> Z.of_nat (length (contents buf wp fp)) = used wp fp.
Proof.
  intros (Hl & Hw & Hf & _). unfold contents, used. case_match.
  - rewrite length_slice; lia.
  - rewrite length_app, length_drop, length_take. lia.
Qed.

(** One contiguous copy at the write position appends to the queue. *)
Lemma ring_append buf wp fp d :
  ring_ok buf wp fp -> wp + length d <= SZ -> length d <= SZ - 4 - used wp fp ->
  let buf' := splice (Z.to_nat wp) d buf in
  let wp' := (wp + length d) mod SZ in
  ring_ok buf' wp' fp /\ used wp' fp = used wp fp + length d /\
  contents buf' wp' fp = contents buf wp fp ++ d.
Proof.
  intros (Hl & Hw & Hf & Hu) Hd Hfree buf' wp'.
  assert (Hwn : (Z.to_nat wp + length d <= length buf)%nat) by lia.
  assert (Hlen : length buf' = length buf) by (unfold buf'; by rewrite length_splice by lia).
  assert (Hused : used wp' fp = used wp fp + length d /\ 0 <= wp' < SZ).
  { unfold wp'. destruct (decide (wp + length d = SZ)) as [E|E].
    - rewrite E, Z.mod_same by lia. unfold used in *. split; [|lia]. repeat case_match; lia.
    - rewrite Z.mod_small by lia. unfold used in *. split; [|lia]. repeat case_match; lia. }
  destruct Hused as [Hused Hwp']. split; [split_and!; try lia; rewrite Hlen; lia|]. split; [done|].
  unfold contents, buf', splice. set (w := Z.to_nat wp) in *. set (f := Z.to_nat fp) in *.
  assert (Hpre : (f <= w)%nat -> drop f (take w buf ++ d ++ drop (w + length d) buf)
    = (slice f (w - f) buf ++ d) ++ drop (w + length d) buf).
  { intros Hfw. rewrite drop_app_le by (rewrite length_take; lia). rewrite <- app_assoc. f_equal.
    unfold slice. rewrite take_drop_commute. f_equal. f_equal. lia. }
  assert (Hslice : (f <= w)%nat -> length (slice f (w - f) buf ++ d) = (w - f + length d)%nat).
  { intros Hfw. rewrite length_app, length_slice by lia. done. }
  destruct (decide (wp < fp)) as [Hlt|Hge].
  - unfold used in *. replace (fp <=? wp) with false in * by lia.
    assert (E : wp' = wp + length d) by (unfold wp'; rewrite Z.mod_small; lia).
    replace (fp <=? wp') with false by lia. rewrite <- app_assoc. f_equal.
    + rewrite app_assoc, drop_app_ge, drop_drop by (rewrite length_app, length_take; lia).
      f_equal. rewrite length_app, length_take. lia.
    + rewrite E. replace (Z.to_nat (wp + length d)) with (length (take w buf ++ d)) by (rewrite length_app, length_take; lia).
      rewrite app_assoc. apply take_app_length.
  - replace (fp <=? wp) with true by lia. replace (Z.to_nat (wp - fp)) with (w - f)%nat by lia.
    destruct (decide (wp + length d = SZ)) as [E|E].
    + assert (E0 : wp' = 0) by (unfold wp'; rewrite E; apply Z.mod_same; lia). rewrite E0.
      assert (0 < fp) by (unfold used in *; replace (fp <=? wp) with true in * by lia; lia).
      replace (fp <=? 0) with false by lia. rewrite Hpre by lia. rewrite (drop_ge buf) by lia. simpl. by rewrite !app_nil_r.
    + assert (E0 : wp' = wp + length d) by (unfold wp'; rewrite Z.mod_small; lia). rewrite E0.
      replace (fp <=? wp + length d) with true by lia. unfold slice at 1. rewrite Hpre by lia.
      replace (Z.to_nat (wp + length d - fp)) with (w - f + length d)%nat by lia.
      rewrite <- Hslice by lia. apply take_app_length.
Qed.

(** One contiguous copy at the read position takes from the queue. *)
Lemma ring_take buf wp fp (m : nat) :
  ring_ok buf wp fp -> m <= (if fp <=? wp then wp - fp else SZ - fp) ->
  let fp' := (fp + m) mod SZ in
  ring_ok buf wp fp' /\ used wp fp' = used wp fp - m /\
  slice (Z.to_nat fp) m buf = take m (contents buf wp fp) /\
  contents buf wp fp' = drop m (contents buf wp fp).
Proof.
  intros (Hl & Hw & Hf & Hu) Hm fp'.
  assert (Hused : used wp fp' = used wp fp - m /\ 0 <= fp' < SZ).
  { unfold fp'. destruct (decide (fp + m = SZ)) as [E|E].
    - rewrite E, Z.mod_same by lia. unfold used in *. split; [|lia]. repeat case_match; lia.
    - rewrite Z.mod_small by (case_match; lia). unfold used in *. split; [repeat case_match; lia|case_match; lia]. }
  destruct Hused as [Hused Hfp']. split; [split_and!; lia|]. split; [done|].
  unfold contents. destruct (fp <=? wp) eqn:Hle.
  - assert (E : fp' = fp + m) by (unfold fp'; rewrite Z.mod_small; lia). rewrite E.
    replace (fp + m <=? wp) with true by lia. unfold slice. split.
    + rewrite take_take. f_equal. lia.
    + replace (Z.to_nat (wp - fp)) with (m + Z.to_nat (wp - (fp + m)))%nat by lia.
      rewrite <- take_drop_commute, drop_drop. do 2 f_equal. lia.
  - set (f := Z.to_nat fp). assert (Hlen : length (drop f buf) = Z.to_nat (SZ - fp)) by (rewrite length_drop; lia).
    unfold slice. rewrite take_app_le by lia. split; [done|].
    destruct (decide (fp + m = SZ)) as [E|E].
    + assert (E0 : fp' = 0) by (unfold fp'; rewrite E; apply Z.mod_same; lia). rewrite E0.
      replace (0 <=? wp) with true by lia. rewrite drop_app_ge by lia.
      replace (m - length (drop f buf))%nat with 0%nat by lia. unfold slice. by rewrite Z.sub_0_r.
    + assert (E0 : fp' = fp + m) by (unfold fp'; rewrite Z.mod_small; lia). rewrite E0.
      replace (fp + m <=? wp) with false by lia. rewrite drop_app_le by lia. rewrite drop_drop. do 2 f_equal. lia.
Qed.

(** Overwriting the oldest bytes in place. *)
Lemma ring_modify buf wp fp d :
  ring_ok buf wp fp -> length d <= (if fp <=? wp then wp - fp else SZ - fp) ->
  ring_ok (splice (Z.to_nat fp) d buf) wp fp /\
  contents (splice (Z.to_nat fp) d buf) wp fp = d ++ drop (length d) (contents buf wp fp).
Proof.
  intros (Hl & Hw & Hf & Hu) Hd.
  assert (Hlen : length (splice (Z.to_nat fp) d buf) = length buf) by (rewrite length_splice; [done|case_match; lia]).
  split; [split_and!; try lia; by rewrite Hlen|]. unfold contents. set (f := Z.to_nat fp).
  assert (Hdrop : drop f (splice f d buf) = d ++ drop (f + length d) buf).
  { unfold splice. rewrite drop_app_ge by (rewrite length_take; lia).
    replace (f - length (take f buf))%nat with 0%nat by (rewrite length_take; lia). done. }
  destruct (fp <=? wp) eqn:E.
  - unfold slice. rewrite Hdrop. rewrite take_app_ge by lia. f_equal.
    rewrite skipn_firstn_comm, drop_drop. f_equal; lia.
  - rewrite Hdrop, <- app_assoc. f_equal. rewrite drop_app_le by (rewrite length_drop; lia). rewrite drop_drop. f_equal.
    unfold splice. rewrite take_app_le, take_take by (rewrite length_take; lia). f_equal. lia.
Qed.
End Ring.

(** ** Output and input queues *)

Section SoundFacts.
Context {B : BlkCipher} {L : StreamCipher B}.

Definition oring_ok (p : psnd_buf) : Prop := ring_ok PSND_OBUF_SIZE (pb_obuffer p) (pb_owptr p) (pb_ofptr p).
Definition iring_ok (p : psnd_buf) : Prop :=
  ring_ok PSND_IBUF_SIZE (pb_ibuffer p) (pb_iwptr p) (pb_ifptr p) /\ pb_iwptr p mod 4 = 0.
Definition oqueue (p : psnd_buf) : bytes := contents (pb_obuffer p) (pb_owptr p) (pb_ofptr p).
Definition iqueue (p : psnd_buf) : bytes := contents (pb_ibuffer p) (pb_iwptr p) (pb_ifptr p).

Lemma memcpy_to_run buf off src len s :
  0 <= off -> 0 <= len -> off + len <= length buf -> len <= length src ->
  memcpy_to buf off src len s = Done (splice (Z.to_nat off) (take (Z.to_nat len) src) buf, s).
Proof.
  intros. unfold memcpy_to. replace (_ && _) with true; [done|]. symmetry. rewrite !andb_true_iff, !Z.leb_le. lia.
Qed.

Lemma memcpy_from_run buf off len s :
  0 <= off -> 0 <= len -> off + len <= length buf ->
  memcpy_from buf off len s = Done (slice (Z.to_nat off) (Z.to_nat len) buf, s).
Proof.
  intros. unfold memcpy_from. replace (_ && _) with true; [done|]. symmetry. rewrite !andb_true_iff, !Z.leb_le. lia.
Qed.

(** A copy of [len] bytes of [data] at the write position. *)
Lemma ring_copy SZ buf wp fp data len (s : kstate) :
  4 <= SZ -> ring_ok SZ buf wp fp -> 0 <= len -> len <= length data -> wp + len <= SZ -> len <= SZ - 4 - used SZ wp fp ->
  exists buf', memcpy_to buf wp data len s = Done (buf', s) /\
    ring_ok SZ buf' ((wp + len) mod SZ) fp /\ used SZ ((wp + len) mod SZ) fp = used SZ wp fp + len /\
    contents buf' ((wp + len) mod SZ) fp = contents buf wp fp ++ take (Z.to_nat len) data.
Proof.
  intros HSZ Hok H0 Hd Hend Hfree. destruct (Hok) as (Hl & Hw & _).
  rewrite memcpy_to_run by lia. eexists. split; [done|].
  assert (El : Z.of_nat (length (take (Z.to_nat len) data)) = len) by (rewrite length_take; lia).
  pose proof (ring_append SZ HSZ buf wp fp (take (Z.to_nat len) data) Hok) as H. rewrite El in H. apply H; lia.
Qed.

(** ** Frame-wise encryption *)

(** [n] frames, each under a fresh block of the key stream. *)
Fixpoint frames_xor (n : nat) (t : tfm) (d : bytes) : bytes :=
  match n with
  | O => []
  | S n' => stream_xor t (take 4 d) ++ frames_xor n' (next t 4) (drop 4 d)
  end.
Definition frames_next (n : nat) (t : tfm) : tfm := Nat.iter n (fun t => next t 4) t.

(** A reference in use with an active context whose transform is [t]. *)
Definition active (ref : nat) (t : tfm) (s : kstate) : Prop :=
  exists p c, k_refs s !! ref = Some (Some p) /\ k_ctxs s !! p = Some c /\ cc_cipher c = Some t /\ cc_activated c <> 0.

Lemma length_frames_xor n t d : (4 * n <= length d)%nat -> length (frames_xor n t d) = (4 * n)%nat.
Proof.
  revert t d. induction n as [|n IH]; intros t d Hd; [done|]. simpl.
  rewrite length_app, length_stream_xor, length_take, IH by (rewrite length_drop; lia). lia.
Qed.

Lemma privsound_crypt_run data ref t s : kinv s -> active ref t s ->
  exists s', privsound_crypt data ref s = Done (stream_xor t data, s') /\ kinv s' /\ active ref (next t (length data)) s'.
Proof.
  intros H (p & c & Hr & Hc & Ht & Ha). unfold privsound_crypt, bind at 1, load_ref. rewrite Hr.
  destruct (priv_crypt_run p c t data s Hc (ki_ok _ H _ _ Hc) Ht Ha) as (pg & _ & _ & Hok' & E). rewrite (bind_done _ _ _ _ _ E).
  eexists. split; [done|]. split; [by eapply kinv_put|]. eexists p, _. split; [done|]. split; [apply put_lookup|]. by split.
Qed.

Lemma crypt_frame_run buf off ref t s : kinv s -> active ref t s -> 0 <= off -> off + 4 <= length buf ->
  exists s', crypt_frame buf off ref s
    = Done (splice (Z.to_nat off) (stream_xor t (slice (Z.to_nat off) 4 buf)) buf, s') /\ kinv s' /\ active ref (next t 4) s'.
Proof.
  intros H Ha Ho Hl. unfold crypt_frame. rewrite (bind_done _ _ _ _ _ (memcpy_from_run buf off 4 s ltac:(lia) ltac:(lia) Hl)).
  change (Z.to_nat 4) with 4%nat. set (f := slice _ 4 buf).
  assert (Hf : length f = 4%nat) by (unfold f; rewrite length_slice; lia).
  destruct (privsound_crypt_run f ref t s H Ha) as (s' & E & H' & Ha'). rewrite (bind_done _ _ _ _ _ E).
  rewrite Hf in Ha'. exists s'. split; [|done].
  rewrite memcpy_to_run by (rewrite ?length_stream_xor; lia). change (Z.to_nat 4) with 4%nat.
  by rewrite take_ge by (rewrite length_stream_xor; lia).
Qed.

Lemma crypt_loop_run (n : nat) buf off ref t s :
  kinv s -> active ref t s -> 0 <= off -> off + 4 * n <= length buf ->
  exists s', crypt_loop n buf off ref s
    = Done (splice (Z.to_nat off) (frames_xor n t (slice (Z.to_nat off) (4 * n) buf)) buf, s') /\
    kinv s' /\ active ref (frames_next n t) s'.
Proof.
  revert buf off t s. induction n as [|n IH]; intros buf off t s H Ha Ho Hl.
  { exists s. split; [|done]. cbn [crypt_loop frames_xor]. unfold splice, ret. simpl. by rewrite Nat.add_0_r, take_drop. }
  cbn [crypt_loop]. destruct (crypt_frame_run buf off ref t s H Ha Ho ltac:(lia)) as (s1 & E1 & H1 & Ha1).
  rewrite (bind_done _ _ _ _ _ E1). set (o := Z.to_nat off) in *. set (f := stream_xor t (slice o 4 buf)) in *.
  assert (Hf : length f = 4%nat) by (unfold f; rewrite length_stream_xor, length_slice; lia).
  assert (Hl1 : length (splice o f buf) = length buf) by (rewrite length_splice; lia).
  destruct (IH (splice o f buf) (off + 4) (next t 4) s1 H1 Ha1) as (s2 & E2 & H2 & Ha2); [lia|rewrite Hl1; lia|].
  exists s2. split; [|split; [done|]].
  - rewrite E2. replace (Z.to_nat (off + 4)) with (o + length f)%nat by lia.
    rewrite slice_splice_after by lia. rewrite splice_app_next.
    + cbn [frames_xor]. do 3 f_equal. f_equal.
      * unfold f, slice. rewrite take_take. do 2 f_equal. lia.
      * f_equal. unfold slice. rewrite skipn_firstn_comm, drop_drop. f_equal; [lia|f_equal; lia].
    + rewrite length_frames_xor; rewrite ?length_slice; lia.
  - unfold frames_next. by rewrite Nat.iter_succ_r.
Qed.

(** Copying whole frames to the write position and encrypting them there. *)
Lemma ring_crypt SZ buf wp fp data len ref t s :
  4 <= SZ -> ring_ok SZ buf wp fp -> 0 <= len -> len mod 4 = 0 -> len <= length data ->
  wp + len <= SZ -> len <= SZ - 4 - used SZ wp fp -> kinv s -> active ref t s ->
  let n := Z.to_nat (len / 4) in
  exists buf' s', bind (memcpy_to buf wp data len) (fun b => crypt_frames b wp len ref) s = Done (buf', s') /\
    kinv s' /\ active ref (frames_next n t) s' /\
    ring_ok SZ buf' ((wp + len) mod SZ) fp /\ used SZ ((wp + len) mod SZ) fp = used SZ wp fp + len /\
    contents buf' ((wp + len) mod SZ) fp = contents buf wp fp ++ frames_xor n t (take (Z.to_nat len) data).
Proof.
  intros HSZ Hok H0 Hal Hd Hend Hfree H Ha n. destruct (Hok) as (Hl & Hw & _).
  set (d := take (Z.to_nat len) data). assert (Hdl : length d = Z.to_nat len) by (unfold d; rewrite length_take; lia).
  assert (Hn : len = 4 * n) by (unfold n; rewrite Z2Nat.id by (apply Z.div_pos; lia); pose proof (Z.div_mod len 4); lia).
  rewrite (bind_done _ _ _ _ _ (memcpy_to_run buf wp data len s ltac:(lia) ltac:(lia) ltac:(lia) ltac:(lia))). fold d.
  unfold crypt_frames. replace (Z.to_nat ((len + 3) / 4)) with n by (unfold n; f_equal; Z.div_mod_to_equations; lia).
  assert (Hl1 : length (splice (Z.to_nat wp) d buf) = length buf) by (rewrite length_splice; lia).
  destruct (crypt_loop_run n (splice (Z.to_nat wp) d buf) wp ref t s H Ha) as (s' & E & H' & Ha'); [lia|rewrite Hl1; lia|].
  rewrite E. replace (4 * n)%nat with (length d) by lia. rewrite slice_splice by lia.
  set (x := frames_xor n t d). assert (Hx : length x = length d) by (unfold x; rewrite length_frames_xor; lia).
  rewrite splice_same by lia. eexists _, s'. split; [done|]. split; [done|]. split; [done|].
  pose proof (ring_append SZ HSZ buf wp fp x Hok ltac:(lia) ltac:(lia)) as R. replace (Z.of_nat (length x)) with len in R by lia. exact R.
Qed.

(** How much of [len] captured bytes a ring takes: whole frames, one kept free. *)
Definition takes (len wp fp : Z) : Z :=
  let avail := Z.min len (PSND_IBUF_SIZE - 4 - used PSND_IBUF_SIZE wp fp) in avail - avail mod 4.

(** Captured sound.  Every copy stays inside the buffer, at most as many whole
    frames as fit are queued, each under a fresh block of the key stream, and the
    queue keeps what it had.  When the ring wraps, the part behind the wrap is taken
    from the start of the captured data again, not from where the first part ended:
    the second copy reads [data] where it means [data + avail1]. *)
Theorem encrypt_input_appends data p t s :
  iring_ok p -> pb_input_enabled p <> 0 -> kinv s -> active (pb_in_ref p) t s ->
  let wp := pb_iwptr p in
  let n := takes (length data) wp (pb_ifptr p) in
  let n1 := if wp <? pb_ifptr p then n else Z.min n (PSND_IBUF_SIZE - wp) in
  let k1 := Z.to_nat (n1 / 4) in
  exists p' s', encrypt_input_buf data (length data) p s = Done (p', s') /\ kinv s' /\ iring_ok p' /\
    iqueue p' = iqueue p ++ frames_xor k1 t (take (Z.to_nat n1) data)
      ++ frames_xor (Z.to_nat ((n - n1) / 4)) (frames_next k1 t) (take (Z.to_nat (n - n1)) data).
Proof.
  intros [Hok Hal] He H Ha wp n n1 k1. destruct (Hok) as (Hl & Hw & Hf & Hu).
  unfold encrypt_input_buf, iqueue, iring_ok. apply Z.eqb_neq in He. rewrite He. fold wp.
  set (fp := pb_ifptr p) in *. set (SZ := PSND_IBUF_SIZE) in *. assert (HSZ : 4 <= SZ) by (unfold SZ, PSND_IBUF_SIZE; lia).
  fold wp in Hal, Hok, Hw, Hu. pose proof (used_nonneg SZ wp fp Hw Hf) as Hu0.
  set (av := Z.min (length data) (SZ - 4 - used SZ wp fp)).
  assert (Hav : 0 <= av) by lia. assert (Hn : n = av - av mod 4 /\ n mod 4 = 0 /\ 0 <= n <= av).
  { unfold n, takes. fold SZ. fold av. split; [done|]. Z.div_mod_to_equations. lia. }
  assert (HSZ4 : SZ mod 4 = 0) by done.
  assert (Hwrap : forall x, 0 <= x -> x mod 4 = 0 -> (wp + x) mod SZ mod 4 = 0).
  { intros x Hx Hx4. unfold SZ, PSND_IBUF_SIZE in *. Z.div_mod_to_equations. lia. }
  destruct (wp <? fp) eqn:Hlt.
  - assert (Hus : used SZ wp fp = SZ - fp + wp) by (unfold used; replace (fp <=? wp) with false by lia; done).
    replace (if Z.of_nat (length data) <? fp - wp - 4 then _ else _) with av by (unfold av; case_match; lia).
    rewrite Z.rem_mod_nonneg by lia. replace (av - av mod 4) with n by lia. subst n1. rewrite Z.sub_diag.
    destruct (n <=? 0) eqn:Hn0.
    + assert (E0 : n = 0) by lia. rewrite E0 in *. exists p, s. subst k1. rewrite E0. simpl. rewrite app_nil_r. done.
    + destruct (ring_crypt SZ (pb_ibuffer p) wp fp data n (pb_in_ref p) t s) as (b & s' & E & H' & _ & Hok' & _ & Hc); try done; try lia.
      revert E. unfold bind. destruct (memcpy_to (pb_ibuffer p) wp data n s) as [[b0 s0]|]; [|done].
      intros ->. eexists _, s'. split; [done|]. split; [done|]. split; [split; [exact Hok'|apply Hwrap; lia]|].
      simpl. rewrite app_nil_r. exact Hc.
  - assert (Hus : used SZ wp fp = wp - fp) by (unfold used; replace (fp <=? wp) with true by lia; done).
    replace (if Z.of_nat (length data) <? SZ - wp + fp - 4 then _ else _) with av by (unfold av; case_match; lia).
    rewrite Z.rem_mod_nonneg by lia. replace (av - av mod 4) with n by lia.
    replace (if n <? SZ - wp then (n, 0) else (SZ - wp, n - (SZ - wp))) with (n1, n - n1)
      by (unfold n1; case_match; f_equal; lia).
    assert (Hn1 : n1 = Z.min n (SZ - wp)) by done.
    assert (Hn14 : n1 mod 4 = 0 /\ (n - n1) mod 4 = 0).
    { unfold SZ, PSND_IBUF_SIZE in *. Z.div_mod_to_equations. lia. }
    destruct (n1 <=? 0) eqn:Hn0.
    + assert (E0 : n1 = 0) by lia. assert (En : n = 0) by lia. exists p, s. subst k1. rewrite E0, En. simpl. rewrite app_nil_r. done.
    + destruct (ring_crypt SZ (pb_ibuffer p) wp fp data n1 (pb_in_ref p) t s) as (b & s1 & E & H1 & Ha1 & Hok1 & Hu1 & Hc1); try done; try lia.
      revert E. unfold bind at 1 2. destruct (memcpy_to (pb_ibuffer p) wp data n1 s) as [[b0 s0]|]; [|done]. intros E.
      unfold bind at 1. rewrite E. destruct (n - n1 <=? 0) eqn:Hn2.
      * assert (E0 : n - n1 = 0) by lia. rewrite E0. eexists _, s1. split; [done|]. split; [done|].
        split; [split; [exact Hok1|apply Hwrap; lia]|]. simpl. rewrite app_nil_r. exact Hc1.
      * set (wp1 := (wp + n1) mod SZ) in *.
        assert (E0 : wp1 = 0) by (unfold wp1; replace (wp + n1) with SZ by lia; apply Z.mod_same; lia).
        destruct (ring_crypt SZ b wp1 fp data (n - n1) (pb_in_ref p) (frames_next k1 t) s1) as (b2 & s2 & E2 & H2 & _ & Hok2 & _ & Hc2); try done; try lia.
        revert E2. unfold bind. destruct (memcpy_to b wp1 data (n - n1) s1) as [[b1 s0']|]; [|done]. intros ->.
        eexists _, s2. split; [done|]. split; [done|]. split.
        { split; [exact Hok2|]. simpl. rewrite E0. unfold SZ, PSND_IBUF_SIZE in *. Z.div_mod_to_equations. lia. }
        etransitivity; [exact Hc2|]. rewrite Hc1. by rewrite <- app_assoc.
Qed.

(** ** Playing *)

(** Sample-wise addition of little-endian 16-bit samples, modulo 2^16. *)
Fixpoint add_samples (a b : bytes) : bytes :=
  match a, b with
  | a0 :: a1 :: a', b0 :: b1 :: b' => le_bytes 2 (u16 (le_value [a0; a1] + le_value [b0; b1])) ++ add_samples a' b'
  | _, _ => a
  end.

Lemma length_add_samples n a b : length a = (2 * n)%nat -> length b = (2 * n)%nat -> length (add_samples a b) = (2 * n)%nat.
Proof.
  revert a b. induction n as [|n IH]; intros a b Ha Hb; [by destruct a|].
  destruct a as [|a0 [|a1 a]]; try (simpl in Ha; lia). destruct b as [|b0 [|b1 b]]; try (simpl in Hb; lia).
  simpl in *. rewrite IH; lia.
Qed.

Lemma add_samples_app a b a' b' n : length a = (2 * n)%nat -> length b = (2 * n)%nat ->
  add_samples (a ++ a') (b ++ b') = add_samples a b ++ add_samples a' b'.
Proof.
  revert a b. induction n as [|n IH]; intros a b Ha Hb; [by destruct a, b|].
  destruct a as [|a0 [|a1 a]]; try (simpl in Ha; lia). destruct b as [|b0 [|b1 b]]; try (simpl in Hb; lia).
  simpl in *. rewrite IH by lia. done.
Qed.

Lemma add_short_run hw ptr a s : 0 <= ptr -> ptr + 2 <= length hw -> length a = 2%nat ->
  add_short hw ptr a s = Done (splice (Z.to_nat ptr) (add_samples (slice (Z.to_nat ptr) 2 hw) a) hw, s).
Proof.
  intros H0 Hl Ha. unfold add_short. rewrite (bind_done _ _ _ _ _ (memcpy_from_run hw ptr 2 s ltac:(lia) ltac:(lia) Hl)).
  rewrite memcpy_to_run by (lia || done). change (Z.to_nat 2) with 2%nat. do 3 f_equal.
  assert (H2 : length (slice (Z.to_nat ptr) 2 hw) = 2%nat) by (rewrite length_slice; lia).
  destruct (slice (Z.to_nat ptr) 2 hw) as [|x [|y [|]]]; try done. by destruct a as [|u [|v [|]]].
Qed.

(** One frame: both samples are added to the hardware buffer. *)
Lemma add_frame_run hw ptr f s : 0 <= ptr -> ptr + 4 <= length hw -> length f = 4%nat ->
  exists hw', bind (add_short hw ptr (take 2 f)) (fun hw => add_short hw (ptr + 2) (drop 2 f)) s = Done (hw', s) /\
    hw' = splice (Z.to_nat ptr) (add_samples (slice (Z.to_nat ptr) 4 hw) f) hw.
Proof.
  intros H0 Hl Hf. eexists. split; [|done]. set (q := Z.to_nat ptr).
  rewrite (bind_done _ _ _ _ _ (add_short_run hw ptr (take 2 f) s H0 ltac:(lia) ltac:(rewrite length_take; lia))). fold q.
  set (x := add_samples (slice q 2 hw) (take 2 f)).
  assert (Hx : length x = 2%nat) by (apply (length_add_samples 1); rewrite ?length_slice, ?length_take; lia).
  assert (Hl1 : length (splice q x hw) = length hw) by (rewrite length_splice; lia).
  rewrite add_short_run by (rewrite ?Hl1, ?length_drop; lia).
  replace (Z.to_nat (ptr + 2)) with (q + length x)%nat by lia.
  rewrite slice_splice_after by lia. rewrite splice_app_next.
  2: { rewrite (length_add_samples 1); rewrite ?length_slice, ?length_drop; lia. }
  do 3 f_equal. rewrite Hx. unfold x.
  rewrite <- (add_samples_app _ _ _ _ 1) by (rewrite ?length_slice, ?length_take; lia).
  rewrite take_drop. f_equal. unfold slice. rewrite <- drop_drop. by rewrite take_take_drop.
Qed.

(** One turn of the playing loop on a frame of the ring. *)
Lemma play_frame n hw ptr obuf wp fp ref t s :
  let SZ := PSND_OBUF_SIZE in
  let f := stream_xor t (slice (Z.to_nat fp) 4 obuf) in
  let obuf' := splice (Z.to_nat fp) (zeros 4) obuf in
  let hw' := splice (Z.to_nat ptr) (add_samples (slice (Z.to_nat ptr) 4 hw) f) hw in
  kinv s -> active ref t s -> ring_ok SZ obuf wp fp -> fp mod 4 = 0 -> 0 <= ptr -> ptr + 4 <= length hw ->
  exists s', kinv s' /\ active ref (next t 4) s' /\
    buf_to_hw_loop (S n) hw ptr 4 obuf fp ref s = buf_to_hw_loop n hw' (ptr + 4) 4 obuf' ((fp + 4) mod SZ) ref s'.
Proof.
  intros SZ f obuf' hw' H Ha (Hl & Hw & Hf & Hu) Hal H0 Hhw. cbn [buf_to_hw_loop].
  assert (Hfp : fp + 4 <= SZ) by (unfold SZ, PSND_OBUF_SIZE in *; Z.div_mod_to_equations; lia).
  destruct (crypt_frame_run obuf fp ref t s H Ha ltac:(lia) ltac:(lia)) as (s' & E & H' & Ha'). rewrite (bind_done _ _ _ _ _ E).
  set (q := Z.to_nat fp) in *. assert (Hfl : length f = 4%nat) by (unfold f; rewrite length_stream_xor, length_slice; lia).
  assert (Hl1 : length (splice q f obuf) = length obuf) by (rewrite length_splice; lia). fold f.
  assert (Hs : slice q 4 (splice q f obuf) = f) by (rewrite <- Hfl; apply slice_splice; lia).
  exists s'. split; [done|]. split; [done|]. change (4 / 2) with 2.
  rewrite (bind_done _ _ _ _ _ (memcpy_from_run (splice q f obuf) fp 2 s' ltac:(lia) ltac:(lia) ltac:(lia))).
  assert (E1 : slice (Z.to_nat fp) (Z.to_nat 2) (splice q f obuf) = take 2 f).
  { rewrite <- Hs at 2. unfold slice. rewrite take_take. done. }
  assert (E2 : slice (Z.to_nat (fp + 2)) (Z.to_nat 2) (splice q f obuf) = drop 2 f).
  { rewrite <- Hs at 2. unfold slice. rewrite skipn_firstn_comm, drop_drop. do 2 f_equal. lia. }
  rewrite E1. destruct (add_frame_run hw ptr f s' H0 Hhw Hfl) as (hw1 & Ea & ->).
  revert Ea. unfold bind at 1 2. destruct (add_short hw ptr (take 2 f) s') as [[hwa sa]|] eqn:Ea1; [|done].
  assert (sa = s') as ->.
  { rewrite add_short_run in Ea1 by (rewrite ?length_take; lia). by injection Ea1. }
  intros Ea. rewrite (bind_done _ _ _ _ _ (memcpy_from_run (splice q f obuf) (fp + 2) 2 s' ltac:(lia) ltac:(lia) ltac:(lia))), E2.
  rewrite (bind_done _ _ _ _ _ Ea).
  rewrite (bind_done _ _ _ _ _ (memcpy_to_run (splice q f obuf) fp (zeros 4) 4 s' ltac:(lia) ltac:(lia) ltac:(lia) ltac:(done))).
  change (take (Z.to_nat 4) (zeros 4)) with (zeros 4). rewrite splice_same by (rewrite Hfl; done || lia).
  replace (if PSND_OBUF_SIZE <=? fp + 4 then _ else _) with ((fp + 4) mod SZ); [done|].
  change PSND_OBUF_SIZE with SZ. case_match.
  - replace (fp + 4) with SZ by lia. rewrite Z.mod_same; lia.
  - by rewrite Z.mod_small by lia.
Qed.

(** Which frame slots of a ring [k] frames from [fp] cover. *)
Definition covered (SZ fp : Z) (k : nat) (q : Z) : bool := (q - fp) mod SZ <? 4 * k.

(** Zeroing the frame at [fp] covers its slot and leaves the others. *)
Lemma covered_step SZ fp k q (obuf : bytes) :
  0 < SZ -> SZ mod 4 = 0 -> Z.of_nat (length obuf) = SZ -> 0 <= fp < SZ -> fp mod 4 = 0 -> 0 <= q < SZ -> q mod 4 = 0 ->
  4 * Z.of_nat (S k) <= SZ ->
  (if covered SZ ((fp + 4) mod SZ) k q then zeros 4 else slice (Z.to_nat q) 4 (splice (Z.to_nat fp) (zeros 4) obuf))
  = (if covered SZ fp (S k) q then zeros 4 else slice (Z.to_nat q) 4 obuf).
Proof.
  intros HSZ HSZ4 Hl Hf Hf4 Hq Hq4 Hk. unfold covered.
  assert (Hfp : fp + 4 <= SZ) by (Z.div_mod_to_equations; lia).
  destruct (decide (q = fp)) as [->|Hne].
  - rewrite Z.sub_diag, Zmod_0_l. replace (0 <? 4 * Z.of_nat (S k)) with true by (symmetry; apply Z.ltb_lt; lia).
    case_match; [done|]. change 4%nat with (length (zeros 4)) at 1. apply slice_splice. change (length (zeros 4)) with 4%nat. lia.
  - assert (Hb : q + 4 <= fp \/ fp + 4 <= q) by (clear -Hne Hq4 Hf4; Z.div_mod_to_equations; lia).
    assert (E : (q - (fp + 4) mod SZ) mod SZ = (q - fp) mod SZ - 4).
    { rewrite Zminus_mod_idemp_r. replace (q - (fp + 4)) with (q - fp - 4) by lia.
      destruct Hb as [Hb|Hb]; [|by rewrite !Z.mod_small by lia].
      rewrite <- (Z_mod_plus_full (q - fp - 4) 1 SZ), <- (Z_mod_plus_full (q - fp) 1 SZ), !Z.mod_small by lia. lia. }
    rewrite E. replace ((q - fp) mod SZ - 4 <? 4 * Z.of_nat k) with ((q - fp) mod SZ <? 4 * Z.of_nat (S k))
      by (apply Bool.eq_iff_eq_true; rewrite !Z.ltb_lt; lia).
    case_match; [done|]. destruct Hb as [Hb|Hb].
    + apply slice_splice_before; lia.
    + apply slice_splice_after; change (length (zeros 4)) with 4%nat; lia.
Qed.

Lemma buf_to_hw_loop_run k hw ptr obuf wp fp ref t s :
  let SZ := PSND_OBUF_SIZE in
  let C := contents obuf wp fp in
  kinv s -> active ref t s -> ring_ok SZ obuf wp fp -> fp mod 4 = 0 -> 4 * Z.of_nat k <= used SZ wp fp ->
  0 <= ptr -> ptr + 4 * Z.of_nat k <= length hw ->
  exists obuf' s', buf_to_hw_loop k hw ptr 4 obuf fp ref s
    = Done ((splice (Z.to_nat ptr) (add_samples (slice (Z.to_nat ptr) (4 * k) hw) (frames_xor k t (take (4 * k) C))) hw,
             obuf', (fp + 4 * Z.of_nat k) mod SZ), s') /\
    kinv s' /\ active ref (frames_next k t) s' /\ ring_ok SZ obuf' wp ((fp + 4 * Z.of_nat k) mod SZ) /\
    contents obuf' wp ((fp + 4 * Z.of_nat k) mod SZ) = drop (4 * k) C /\
    forall q, 0 <= q < SZ -> q mod 4 = 0 ->
      slice (Z.to_nat q) 4 obuf' = if covered SZ fp k q then zeros 4 else slice (Z.to_nat q) 4 obuf.
Proof.
  intros SZ. assert (HSZ : 4 <= SZ) by (unfold SZ, PSND_OBUF_SIZE; lia).
  revert hw ptr obuf fp t s. induction k as [|k IH]; intros hw ptr obuf fp t s C H Ha Hok Hal Hk H0 Hhw.
  { exists obuf, s. cbn [buf_to_hw_loop frames_xor]. destruct (Hok) as (_ & _ & Hf & _). rewrite Z.add_0_r, Z.mod_small by done.
    split; [|split_and!; try done].
    - unfold slice, splice, ret. simpl. by rewrite Nat.add_0_r, take_drop.
    - intros q Hq _. unfold covered. replace (_ <? _) with false; [done|].
      pose proof (Z.mod_pos_bound (q - fp) SZ ltac:(lia)). symmetry. apply Z.ltb_ge. lia. }
  destruct (play_frame k hw ptr obuf wp fp ref t s) as (s1 & H1 & Ha1 & E1); try done; try lia. rewrite E1. fold SZ.
  destruct (Hok) as (Hl & Hw & Hf & Hu).
  assert (Hfp : fp + 4 <= SZ) by (unfold SZ, PSND_OBUF_SIZE in *; Z.div_mod_to_equations; lia).
  assert (Hcont : 4 <= (if fp <=? wp then wp - fp else SZ - fp)) by (unfold used in Hk; case_match; lia).
  set (f := stream_xor t _). set (hw1 := splice (Z.to_nat ptr) _ hw). set (ob1 := splice (Z.to_nat fp) (zeros 4) obuf).
  destruct (ring_modify SZ HSZ obuf wp fp (zeros 4) Hok Hcont) as [Hok1 Hc1]. fold ob1 in Hok1, Hc1.
  destruct (ring_take SZ HSZ ob1 wp fp 4 Hok1 Hcont) as (Hok2 & Hu2 & _ & Hc2).
  destruct (ring_take SZ HSZ obuf wp fp 4 Hok Hcont) as (_ & _ & Hs2 & _). change (Z.of_nat 4) with 4 in *.
  set (fp1 := (fp + 4) mod SZ) in *. rewrite Hc1, drop_app_length' in Hc2 by done. fold C in Hc2.
  assert (Hfl : length f = 4%nat) by (unfold f; rewrite length_stream_xor, length_slice; lia).
  assert (Hx : length (add_samples (slice (Z.to_nat ptr) 4 hw) f) = 4%nat)
    by (apply (length_add_samples 2); [rewrite length_slice; lia|done]).
  assert (Hhl : length hw1 = length hw) by (unfold hw1; rewrite length_splice; lia).
  assert (Hal1 : fp1 mod 4 = 0) by (unfold fp1, SZ, PSND_OBUF_SIZE; Z.div_mod_to_equations; lia).
  destruct (IH hw1 (ptr + 4) ob1 fp1 (next t 4) s1) as (obuf' & s' & E & H' & Ha' & Hok' & Hc' & Hq'); try done; try lia.
  assert (Ef : (fp1 + 4 * k) mod SZ = (fp + 4 * S k) mod SZ).
  { unfold fp1. rewrite Z.add_mod_idemp_l by lia. f_equal. lia. }
  pose proof (length_contents SZ HSZ obuf wp fp Hok) as Hcl. fold C in Hcl, Hs2.
  change (length (zeros 4)) with 4%nat in Hc2. rewrite Ef in *. rewrite Hc2 in *. exists obuf', s'. split; [|split_and!; try done].
  - rewrite E. do 3 f_equal. unfold hw1. replace (Z.to_nat (ptr + 4)) with (Z.to_nat ptr + length (add_samples (slice (Z.to_nat ptr) 4 hw) f))%nat by lia.
    rewrite splice_app_next.
    2: { rewrite Hx, (length_add_samples (2 * k)); rewrite ?length_frames_xor, ?length_slice;
         rewrite ?length_take, ?length_drop, ?length_splice; lia. }
    f_equal. rewrite slice_splice_after, Hx by lia.
    rewrite <- (add_samples_app _ _ _ _ 2) by (done || rewrite length_slice; lia). f_equal. f_equal.
    + rewrite slice_app_next. f_equal. lia.
    + cbn [frames_xor]. f_equal.
      * unfold f. rewrite Hs2, take_take. do 2 f_equal. lia.
      * f_equal. rewrite skipn_firstn_comm. f_equal. lia.
  - unfold frames_next. by rewrite Nat.iter_succ_r.
  - rewrite Hc', drop_drop. f_equal. lia.
  - intros q Hq Hq4. rewrite Hq' by done. apply covered_step; try done; lia.
Qed.
End SoundFacts.

(** ** Properties *)

Section SoundProperties.
Context {B : BlkCipher} {L : StreamCipher B}.

(** Writing sound to play.  Whatever the size, no copy leaves the buffer; the
    call takes as many bytes as fit while keeping one frame free, returns that
    number, and appends exactly those bytes to the queue. *)
Theorem write_to_buf_fifo data p s : oring_ok p ->
  let n := Z.min (length data) (PSND_OBUF_SIZE - 4 - used PSND_OBUF_SIZE (pb_owptr p) (pb_ofptr p)) in
  exists p', privsound_write_to_buf data p s = Done ((n, p'), s) /\ oring_ok p' /\
    oqueue p' = oqueue p ++ take (Z.to_nat n) data /\ pb_ofptr p' = pb_ofptr p.
Proof.
  intros Hok n. destruct (Hok) as (Hl & Hw & Hf & Hu). unfold privsound_write_to_buf, oqueue, oring_ok in *.
  set (SZ := PSND_OBUF_SIZE) in *. assert (HSZ : 4 <= SZ) by (unfold SZ, PSND_OBUF_SIZE; lia).
  set (wp := pb_owptr p) in *. set (fp := pb_ofptr p) in *. destruct (wp <? fp) eqn:Hlt.
  - assert (Hus : used SZ wp fp = SZ - fp + wp) by (unfold used; replace (fp <=? wp) with false by lia; done).
    replace (if _ <? _ then _ else _) with n by (unfold n; case_match; lia).
    destruct (ring_copy SZ (pb_obuffer p) wp fp data n s) as (b & E & Hok' & _ & Hc); try done; try lia.
    rewrite (bind_done _ _ _ _ _ E). eexists. split; [done|]. done.
  - assert (Hus : used SZ wp fp = wp - fp) by (unfold used; replace (fp <=? wp) with true by lia; done).
    replace (if Z.of_nat (length data) <? SZ - wp + fp - 4 then _ else _) with n by (unfold n; case_match; lia).
    set (n1 := if n <? SZ - wp then n else SZ - wp).
    assert (Hn1 : n1 = Z.min n (SZ - wp)) by (unfold n1; case_match; lia).
    destruct (ring_copy SZ (pb_obuffer p) wp fp data n1 s) as (b & E & Hok' & Hu' & Hc); try done; try lia.
    rewrite (bind_done _ _ _ _ _ E). destruct (0 <? n - n1) eqn:H2.
    + assert (E0 : (wp + n1) mod SZ = 0) by (replace (wp + n1) with SZ by lia; apply Z.mod_same; lia).
      rewrite E0 in *.
      destruct (ring_copy SZ b 0 fp (drop (Z.to_nat n1) data) (n - n1) s) as (b' & E' & Hok2 & _ & Hc2); try done; try lia.
      { rewrite length_drop. lia. }
      rewrite Z.add_0_l, Z.mod_small in * by lia.
      rewrite (bind_done _ _ _ _ _ E'). replace (n1 + (n - n1)) with n by lia. eexists. split; [done|]. split; [done|]. split; [|done].
      cbn. rewrite Hc2, Hc, <- app_assoc. f_equal.
      rewrite take_take_drop. f_equal. lia.
    + replace (n1 + (n - n1)) with n by lia. eexists. split; [done|]. assert (n1 = n) as -> by lia. done.
Qed.

(** Reading captured sound takes the oldest bytes of the queue, at most as
    many as asked for, never outside the buffer. *)
Theorem bin_read_fifo count p s : iring_ok p -> 0 <= count ->
  let m := Z.to_nat (Z.min count (used PSND_IBUF_SIZE (pb_iwptr p) (pb_ifptr p))) in
  exists p', bin_read count p s = Done ((take m (iqueue p), p'), s) /\ iring_ok p' /\ iqueue p' = drop m (iqueue p).
Proof.
  intros [Hok Hal] Hcnt m. destruct (Hok) as (Hl & Hw & Hf & Hu). unfold bin_read, iqueue, iring_ok in *.
  set (SZ := PSND_IBUF_SIZE) in *. assert (HSZ : 4 <= SZ) by (unfold SZ, PSND_IBUF_SIZE; lia).
  set (wp := pb_iwptr p) in *. set (fp := pb_ifptr p) in *. set (buf := pb_ibuffer p) in *.
  pose proof (used_nonneg SZ wp fp Hw Hf) as Hu0.
  set (a1 := if fp <=? wp then wp - fp else SZ - fp). set (a2 := if fp <=? wp then 0 else wp).
  replace (if fp <=? wp then (wp - fp, 0) else (SZ - fp, wp)) with (a1, a2) by (unfold a1, a2; by case_match).
  assert (Ha : a1 + a2 = used SZ wp fp /\ 0 <= a1 /\ 0 <= a2 /\ (a2 <> 0 -> fp + a1 = SZ) /\ fp + a1 <= SZ)
    by (unfold a1, a2, used; case_match; lia).
  set (n1 := if count <? a1 then count else a1). assert (Hn1 : n1 = Z.min count a1) by (unfold n1; case_match; lia).
  rewrite (bind_done _ _ _ _ _ (memcpy_from_run buf fp n1 s ltac:(lia) ltac:(lia) ltac:(lia))).
  destruct (ring_take SZ HSZ buf wp fp (Z.to_nat n1) Hok) as (Hok1 & Hu1 & Hs1 & Hc1); [fold a1; lia|].
  rewrite Z2Nat.id in * by lia. set (fp1 := (fp + n1) mod SZ) in *.
  set (n2 := if count - n1 <? a2 then count - n1 else a2). assert (Hn2 : n2 = Z.min (count - n1) a2) by (unfold n2; case_match; lia).
  assert (Hm : m = (Z.to_nat n1 + Z.to_nat n2)%nat) by (unfold m; lia).
  destruct (0 <? n2) eqn:H2.
  - assert (E0 : fp1 = 0) by (unfold fp1; replace (fp + n1) with SZ by lia; apply Z.mod_same; lia). rewrite E0 in *.
    rewrite (bind_done _ _ _ _ _ (memcpy_from_run buf 0 n2 s ltac:(lia) ltac:(lia) ltac:(lia))).
    destruct (ring_take SZ HSZ buf wp 0 (Z.to_nat n2) Hok1) as (Hok2 & _ & Hs2 & Hc2).
    { replace (0 <=? wp) with true by lia. unfold a2 in *. case_match; lia. }
    rewrite Z2Nat.id, Z.add_0_l, Z.mod_small in * by (unfold a2 in *; case_match; lia).
    exists (set_ifptr n2 p). split; [|split; [split; [exact Hok2|done]|]].
    + by rewrite Hs1, Hs2, Hc1, Hm, take_take_drop.
    + change (contents buf wp n2 = drop m (contents buf wp fp)). by rewrite Hc2, Hc1, drop_drop, Hm.
  - assert (n2 = 0) by lia. rewrite Hm. replace (Z.to_nat n2) with 0%nat by lia. rewrite Nat.add_0_r, Hs1.
    eexists. split; [done|]. split; [split; [exact Hok1|done]|]. exact Hc1.
Qed.

(** C38: playing.  At most [frames] whole frames leave the queue, oldest first; each is
    decrypted under a fresh block of the key stream and added sample by sample to the
    hardware buffer; what was played is zeroed in the ring and every other frame slot
    is unchanged. *)
Theorem buf_to_hw_plays hw frames p t s :
  oring_ok p -> pb_ofptr p mod 4 = 0 -> 0 <= frames -> 4 * frames <= length hw -> kinv s -> active (pb_out_ref p) t s ->
  let SZ := PSND_OBUF_SIZE in
  let k := Z.to_nat (Z.min frames (used SZ (pb_owptr p) (pb_ofptr p) / 4)) in
  exists p' s', buf_to_hw_buf hw 4 frames p s
    = Done ((splice 0 (add_samples (take (4 * k) hw) (frames_xor k t (take (4 * k) (oqueue p)))) hw, p'), s') /\
    kinv s' /\ active (pb_out_ref p) (frames_next k t) s' /\ oring_ok p' /\ oqueue p' = drop (4 * k) (oqueue p) /\
    forall q, 0 <= q < SZ -> q mod 4 = 0 ->
      slice (Z.to_nat q) 4 (pb_obuffer p') =
      if covered SZ (pb_ofptr p) k q then zeros 4 else slice (Z.to_nat q) 4 (pb_obuffer p).
Proof.
  intros Hok Hal Hfr Hhw H Ha SZ k. destruct (Hok) as (_ & Hw & Hf & _). unfold buf_to_hw_buf.
  change (if pb_ofptr p <=? pb_owptr p then _ else _) with (used SZ (pb_owptr p) (pb_ofptr p)).
  pose proof (used_nonneg SZ _ _ Hw Hf) as Hu. set (u := used SZ _ _) in *.
  replace (Z.to_nat (if u / 4 <? frames then u / 4 else frames)) with k by (unfold k; case_match; lia).
  assert (Hk : 4 * Z.of_nat k <= u /\ Z.of_nat k <= frames) by (unfold k; Z.div_mod_to_equations; lia).
  destruct (buf_to_hw_loop_run k hw 0 (pb_obuffer p) (pb_owptr p) (pb_ofptr p) (pb_out_ref p) t s)
    as (obuf' & s' & E & H' & Ha' & Hok' & Hc' & Hq'); try done; try lia; try apply Hk.
  rewrite (bind_done _ _ _ _ _ E). by eexists _, s'.
Qed.
End SoundProperties.

(** ** Witnesses *)

Section SoundWitness.
#[local] Existing Instance aes_cipher.

(** A channel whose two references are the one in use in [wit_s5]; its output ring
    holds two frames across the wrap, its input ring is eight bytes from the end. *)
Definition wit_psnd : psnd_buf :=
  Psnd (zeros (Z.to_nat PSND_IBUF_SIZE)) (zeros (Z.to_nat PSND_OBUF_SIZE)) 1 7 1 7 4 63996 6392 100 1.

Lemma wit_oring : oring_ok wit_psnd.
Proof. split; [unfold wit_psnd, pb_obuffer, zeros; rewrite length_replicate; by apply Z2Nat.id|]. vm_compute. by repeat split. Qed.

Lemma wit_iring : iring_ok wit_psnd.
Proof.
  split; [|done]. split; [unfold wit_psnd, pb_ibuffer, zeros; rewrite length_replicate; by apply Z2Nat.id|]. vm_compute. by repeat split.
Qed.

Lemma wit_active : exists t, active 7 t wit_s5.
Proof. destruct wit_ctx5 as (c & t & Hc & Ht & _ & Ha & _). exists t, 0%nat, c. split; [exact wit_ref5|]. repeat split; done || lia. Qed.

Lemma write_to_buf_fifo_witness : exists p', privsound_write_to_buf [1; 2; 3; 4] wit_psnd wit_s5 = Done ((4, p'), wit_s5).
Proof. destruct (write_to_buf_fifo [1; 2; 3; 4] wit_psnd wit_s5 wit_oring) as (p' & E & _). exists p'. exact E. Defined.

Lemma bin_read_fifo_witness : exists p', bin_read 4 wit_psnd wit_s5 = Done ((take 4 (iqueue wit_psnd), p'), wit_s5).
Proof. destruct (bin_read_fifo 4 wit_psnd wit_s5 wit_iring) as (p' & E & _); [lia|]. exists p'. exact E. Defined.

(** Sixteen captured bytes around the wrap: bytes 1..8 are queued twice. *)
Lemma encrypt_input_appends_witness : exists t p' s',
  encrypt_input_buf [1;2;3;4;5;6;7;8;9;10;11;12;13;14;15;16] 16 wit_psnd wit_s5 = Done (p', s') /\
  iqueue p' = iqueue wit_psnd ++ frames_xor 2 t [1;2;3;4;5;6;7;8] ++ frames_xor 2 (frames_next 2 t) [1;2;3;4;5;6;7;8].
Proof.
  destruct wit_active as [t Ht]. exists t.
  destruct (encrypt_input_appends [1;2;3;4;5;6;7;8;9;10;11;12;13;14;15;16] wit_psnd t wit_s5 wit_iring) as (p' & s' & E & _ & _ & G);
    [done|exact wit_inv5|exact Ht|]. exists p', s'. split; [exact E|exact G].
Defined.

Lemma buf_to_hw_plays_witness : exists hw' p' s', buf_to_hw_buf (zeros 8) 4 2 wit_psnd wit_s5 = Done ((hw', p'), s') /\
  oqueue p' = drop 8 (oqueue wit_psnd).
Proof.
  destruct wit_active as [t Ht].
  destruct (buf_to_hw_plays (zeros 8) 2 wit_psnd t wit_s5 wit_oring) as (p' & s' & E & _ & _ & _ & G & _);
    [done|lia|done|exact wit_inv5|exact Ht|]. eexists _, p', s'. split; [exact E|exact G].
Defined.
End SoundWitness.
