(* ===== verification/PrivSwap.v ===== *)
(** * Encrypted swap

    linux-3.0/mm/privos.c, with CONFIG_PRIV_SWAP and CONFIG_PRIV_CRYPT: per
    private address space one cipher context, per swapped-out page one record in
    a tree indexed by swap entry; and the swap input and output of mm/page_io.c
    and the entry counts of mm/swapfile.c that call it.

    Contexts, page records and pages live in explicit maps; an address missing
    from its map is freed memory.  The radix tree is the map it implements.
    Spin locks of contexts are part of the state: a lock taken by its holder is
    a fault.  Allocations ask an oracle. *)

From stdpp Require Import sorting.
From S2P Require Import Prelude BlkCipher Ctr AesCipher.

Definition PRIVOS_CIPHER_KEY_SIZE : nat := 32.
Definition PRIVOS_CIPHER_IV_SIZE : nat := 16.

(** ** State *)

(** What [__add_to_priv] reads of a virtual memory area. *)
Record vma := Vma { vm_mm : Z; vma_ctx : option nat }.

(** [struct page]: contents, [page_private] and the reverse mapping *)
Record page := Page {
  pg_data : bytes;
  pg_private : Z;
  pg_mapcount : Z;
  pg_rmapping : bool;
  pg_anon_vma : option (list vma);
}.

(** [struct priv_swapped_page] *)
Record priv_swapped_page := Swpd {
  sp_ctx : option nat;
  sp_page : option nat;
  sp_scratch : option nat;
  sp_entry : Z;
  sp_flags : Z;
}.

Section Swap.
Context {B : BlkCipher}.

(** [struct priv_cipher_ctx]; [cipher] is NULL or holds the transform *)
Record priv_cipher_ctx := PCtx {
  px_lock : bool;
  px_pagecount : Z;
  px_mapcount : Z;
  px_cipher : option tfm;
}.

Record wstate := WS {
  w_ctxs : gmap nat priv_cipher_ctx;
  w_swpds : gmap nat priv_swapped_page;
  w_pages : gmap nat page;
  w_tree : gmap Z nat;            (* privos_tree *)
  w_map : gmap Z Z;               (* swap_map *)
  w_disk : gmap Z bytes;          (* the swap device *)
  w_brk : nat;                    (* next address *)
  w_mem : list bool;              (* allocator answers: true fails *)
  w_rng : bytes;
}.

Definition set_ctxs (m : gmap nat priv_cipher_ctx) (s : wstate) : wstate :=
  WS m (w_swpds s) (w_pages s) (w_tree s) (w_map s) (w_disk s) (w_brk s) (w_mem s) (w_rng s).
Definition set_swpds (m : gmap nat priv_swapped_page) (s : wstate) : wstate :=
  WS (w_ctxs s) m (w_pages s) (w_tree s) (w_map s) (w_disk s) (w_brk s) (w_mem s) (w_rng s).
Definition set_pages (m : gmap nat page) (s : wstate) : wstate :=
  WS (w_ctxs s) (w_swpds s) m (w_tree s) (w_map s) (w_disk s) (w_brk s) (w_mem s) (w_rng s).
Definition set_tree (m : gmap Z nat) (s : wstate) : wstate :=
  WS (w_ctxs s) (w_swpds s) (w_pages s) m (w_map s) (w_disk s) (w_brk s) (w_mem s) (w_rng s).
Definition set_map (m : gmap Z Z) (s : wstate) : wstate :=
  WS (w_ctxs s) (w_swpds s) (w_pages s) (w_tree s) m (w_disk s) (w_brk s) (w_mem s) (w_rng s).
Definition set_disk (m : gmap Z bytes) (s : wstate) : wstate :=
  WS (w_ctxs s) (w_swpds s) (w_pages s) (w_tree s) (w_map s) m (w_brk s) (w_mem s) (w_rng s).
Definition set_brk (n : nat) (s : wstate) : wstate :=
  WS (w_ctxs s) (w_swpds s) (w_pages s) (w_tree s) (w_map s) (w_disk s) n (w_mem s) (w_rng s).
Definition set_mem (m : list bool) (s : wstate) : wstate :=
  WS (w_ctxs s) (w_swpds s) (w_pages s) (w_tree s) (w_map s) (w_disk s) (w_brk s) m (w_rng s).
Definition set_rng (r : bytes) (s : wstate) : wstate :=
  WS (w_ctxs s) (w_swpds s) (w_pages s) (w_tree s) (w_map s) (w_disk s) (w_brk s) (w_mem s) r.

Abbreviation W := (M wstate).

(** Whether the next allocation succeeds. *)
Definition alloc : W bool := fun s =>
  match w_mem s with
  | [] => Done (true, s)
  | f :: m => Done (negb f, set_mem m s)
  end.
Definition fresh : W nat := fun s => Done (w_brk s, set_brk (S (w_brk s)) s).

(** Pointers into the three maps. *)
Definition load_ctx (c : nat) : W priv_cipher_ctx := fun s =>
  match w_ctxs s !! c with Some x => Done (x, s) | None => Oops UseAfterFree end.
Definition put_ctx (c : nat) (x : priv_cipher_ctx) : W unit := modify (fun s => set_ctxs (<[c := x]> (w_ctxs s)) s).
Definition load_swpd (a : nat) : W priv_swapped_page := fun s =>
  match w_swpds s !! a with Some x => Done (x, s) | None => Oops UseAfterFree end.
Definition store_swpd (a : nat) (x : priv_swapped_page) : W unit := modify (fun s => set_swpds (<[a := x]> (w_swpds s)) s).
Definition load_page (p : nat) : W page := fun s =>
  match w_pages s !! p with Some x => Done (x, s) | None => Oops UseAfterFree end.
Definition store_page (p : nat) (x : page) : W unit := modify (fun s => set_pages (<[p := x]> (w_pages s)) s).

Definition with_counts (l : bool) (pc mc : Z) (x : priv_cipher_ctx) : priv_cipher_ctx := PCtx l pc mc (px_cipher x).
Definition with_cipher (t : option tfm) (x : priv_cipher_ctx) : priv_cipher_ctx :=
  PCtx (px_lock x) (px_pagecount x) (px_mapcount x) t.
Definition with_flags (f : Z) (x : priv_swapped_page) : priv_swapped_page :=
  Swpd (sp_ctx x) (sp_page x) (sp_scratch x) (sp_entry x) f.
Definition with_data (d : bytes) (x : page) : page :=
  Page d (pg_private x) (pg_mapcount x) (pg_rmapping x) (pg_anon_vma x).

(** [memset(ctx, 0, sizeof( *ctx)); kfree(ctx)] *)
Definition free_ctx (c : nat) : W unit := modify (fun s => set_ctxs (delete c (w_ctxs s)) s).

(** ** Records *)

(** [__get_scratch_page] *)
Definition __get_scratch_page : W (option nat) :=
  let! ok := alloc in
  if negb ok then ret None else
  let! p := fresh in
  store_page p (Page (zeros PAGE_SIZE) 0 0 false None) ;;
  ret (Some p).

(** [__free_scratch_page] *)
Definition __free_scratch_page (buf : option nat) : W unit :=
  match buf with
  | None => ret tt
  | Some p => fun s => match w_pages s !! p with
                       | Some _ => Done (tt, set_pages (delete p (w_pages s)) s)
                       | None => Oops DoubleFree
                       end
  end.

(** [priv_ctx_entry_get] *)
Definition priv_ctx_entry_get (ctx : option nat) : W Z :=
  match ctx with
  | None => ret 0
  | Some c =>
      let! x := load_ctx c in
      put_ctx c (with_counts (px_lock x) (px_pagecount x + 1) (px_mapcount x) x) ;;
      ret 1
  end.

(** [priv_ctx_entry_put].  [atomic_dec_and_lock] takes the lock only when the count
    goes from one to zero. *)
Definition priv_ctx_entry_put (ctx : option nat) : W unit :=
  match ctx with
  | None => ret tt
  | Some c =>
      let! x := load_ctx c in
      if px_mapcount x =? 0 then
        if px_pagecount x =? 1 then (if px_lock x then oops Deadlock else free_ctx c)
        else put_ctx c (with_counts (px_lock x) (px_pagecount x - 1) (px_mapcount x) x)
      else put_ctx c (with_counts (px_lock x) (px_pagecount x - 1) (px_mapcount x) x)
  end.

(** [__free_priv_page] *)
Definition __free_priv_page (swpd : option nat) : W unit :=
  match swpd with
  | None => ret tt
  | Some a =>
      let! x := load_swpd a in
      priv_ctx_entry_put (sp_ctx x) ;;
      __free_scratch_page (sp_scratch x) ;;
      modify (fun s => set_swpds (delete a (w_swpds s)) s)
  end.

(** [__alloc_priv_page] *)
Definition __alloc_priv_page (p : nat) (ctx : option nat) : W (option nat) :=
  let! got := priv_ctx_entry_get ctx in
  if got =? 0 then ret None else
  let! buf := __get_scratch_page in
  match buf with
  | None => ret None
  | Some b =>
      let! ok := alloc in
      if negb ok then __free_scratch_page (Some b) ;; ret None else
      let! a := fresh in
      let! pg := load_page p in
      let! bp := load_page b in
      store_swpd a (Swpd ctx (Some p) (Some b) (pg_private pg) 0) ;;
      store_page b (Page (pg_data bp) (pg_private pg) (pg_mapcount bp) (pg_rmapping bp) (pg_anon_vma bp)) ;;
      ret (Some a)
  end.

(** [radix_tree_insert] and [radix_tree_delete] on [privos_tree] *)
Definition radix_tree_insert (e : Z) (a : nat) : W Z := fun s =>
  match w_tree s !! e with
  | Some _ => Done (- EEXIST, s)
  | None => (let! ok := alloc in
             if negb ok then ret (- ENOMEM)
             else modify (fun s => set_tree (<[e := a]> (w_tree s)) s) ;; ret 0) s
  end.
Definition radix_tree_delete (e : Z) : W (option nat) := fun s =>
  Done (w_tree s !! e, set_tree (delete e (w_tree s)) s).

(** The [try_again] loop of [__add_to_priv_tree]; two rounds are enough, since the
    first removes the entry it collides with. *)
Fixpoint priv_tree_insert (fuel : nat) (entry : Z) (a : nat) : W Z :=
  match fuel with
  | O => oops Bug
  | S n =>
      let! err := radix_tree_insert entry a in
      if err =? 0 then ret 1 else
      if err =? - EEXIST then
        let! old := radix_tree_delete entry in
        __free_priv_page old ;;
        priv_tree_insert n entry a
      else __free_priv_page (Some a) ;; ret 0
  end.

(** [__add_to_priv_tree] *)
Definition __add_to_priv_tree (swpd : option nat) : W Z :=
  match swpd with
  | None => ret 0
  | Some a =>
      let! x := load_swpd a in
      match sp_page x with
      | None => oops NullDeref
      | Some p =>
          let! pg := load_page p in
          let entry := pg_private pg in
          if entry =? 0 then ret 0 else
          let! ok := alloc in
          if negb ok then ret 0 else priv_tree_insert 2 entry a
      end
  end.

(** The loop over the areas of a page: [inl rc] leaves with [rc], [inr last] ends
    with the last area seen. *)
Fixpoint avc_loop (last : option vma) (l : list vma) : Z + option vma :=
  match l with
  | [] => inr last
  | v :: l' =>
      let differs := match last with Some u => negb (vm_mm u =? vm_mm v) | None => false end in
      if differs then inl 1
      else match vma_ctx v with None => inl 1 | Some _ => avc_loop (Some v) l' end
  end.

(** [__add_to_priv] and [add_to_priv] *)
Definition __add_to_priv (p : nat) : W Z :=
  let! pg := load_page p in
  if 1 <? pg_mapcount pg then ret 1 else
  if (pg_mapcount pg <? 1) || negb (pg_rmapping pg) then ret 1 else
  match pg_anon_vma pg with
  | None => ret 1
  | Some chain =>
      match avc_loop None chain with
      | inl rc => ret rc
      | inr None => ret 1
      | inr (Some v) =>
          let! swpd := __alloc_priv_page p (vma_ctx v) in
          match swpd with
          | None => ret 0
          | Some a =>
              let! ok := __add_to_priv_tree (Some a) in
              if ok =? 0 then __free_priv_page (Some a) ;; ret 0 else ret 1
          end
      end
  end.
Definition add_to_priv (p : nat) : W Z := __add_to_priv p.

(** [find_priv_page] *)
Definition find_priv_page (entry : Z) : W (option nat) := fun s =>
  match w_tree s !! entry with
  | None => Done (None, s)
  | Some a => (let! x := load_swpd a in if sp_entry x =? entry then ret (Some a) else oops Bug) s
  end.

(** [test_swapped_bit] and [set_swapped_bit] *)
Definition test_swapped_bit (offset : Z) : W bool :=
  let! o := find_priv_page offset in
  match o with
  | None => ret false
  | Some a => let! x := load_swpd a in ret (negb (sp_flags x =? 0))
  end.
Definition set_swapped_bit (offset val : Z) : W unit :=
  let! o := find_priv_page offset in
  match o with
  | None => ret tt
  | Some a => let! x := load_swpd a in store_swpd a (with_flags val x)
  end.

(** [delete_from_priv] *)
Definition delete_from_priv (entry : Z) : W unit :=
  if entry =? 0 then ret tt else
  let! b := test_swapped_bit entry in
  if b then ret tt else
  let! swpd := radix_tree_delete entry in
  __free_priv_page swpd.

(** [delete_scratch_page] *)
Definition delete_scratch_page (entry : Z) : W unit :=
  if entry =? 0 then ret tt else
  let! o := find_priv_page entry in
  match o with
  | None => ret tt
  | Some a =>
      let! x := load_swpd a in
      match sp_scratch x with
      | Some b =>
          if sp_flags x =? 0 then ret tt else
          __free_scratch_page (Some b) ;;
          store_swpd a (Swpd (sp_ctx x) None None (sp_entry x) (sp_flags x))
      | None => ret tt
      end
  end.

(** ** Swap entries (mm/swapfile.c) *)

Definition SWAP_MAP_MAX : Z := 62.
Definition SWAP_HAS_CACHE : Z := 64.
Definition COUNT_CONTINUED : Z := 128.
Definition SWAP_MAP_SHMEM : Z := 191.

(** [swap_info_get]: whether the entry is in use *)
Definition swap_info_get (entry : Z) : W bool := fun s =>
  Done (negb (entry =? 0) && negb (default 0 (w_map s !! entry) =? 0), s).

(** [swap_entry_free].  [continued] is the answer of [swap_count_continued], asked
    only for an entry whose count continues in another page. *)
Definition swap_entry_free (continued : bool) (entry usage : Z) : W Z :=
  let! m := gets w_map in
  let count0 := default 0 (m !! entry) in
  let has_cache0 := Z.land count0 SWAP_HAS_CACHE in
  let count1 := Z.land count0 (255 - SWAP_HAS_CACHE) in
  let '(has_cache, count) :=
    if usage =? SWAP_HAS_CACHE then (0, count1)
    else if count1 =? SWAP_MAP_SHMEM then (has_cache0, 0)
    else if Z.land count1 (255 - COUNT_CONTINUED) <=? SWAP_MAP_MAX then
      (has_cache0,
       if count1 =? COUNT_CONTINUED then (if continued then Z.lor SWAP_MAP_MAX COUNT_CONTINUED else SWAP_MAP_MAX)
       else u8 (count1 - 1))
    else (has_cache0, count1) in
  let usage := Z.lor count has_cache in
  modify (fun s => set_map (<[entry := usage]> (w_map s)) s) ;;
  (if usage =? 0 then set_swapped_bit entry 0 ;; delete_from_priv entry else ret tt) ;;
  ret usage.

(** [swap_free] and [swapcache_free] *)
Definition swap_free (continued : bool) (entry : Z) : W unit :=
  let! ok := swap_info_get entry in
  if ok then let! _ := swap_entry_free continued entry 1 in ret tt else ret tt.
Definition swapcache_free (entry : Z) : W unit :=
  let! ok := swap_info_get entry in
  if ok then let! _ := swap_entry_free false entry SWAP_HAS_CACHE in ret tt else ret tt.

(** ** Contexts *)

(** [radix_tree_gang_lookup]: at most [max] records in order of their entries *)
Definition radix_tree_gang_lookup (index : Z) (max : nat) (t : gmap Z nat) : list nat :=
  omap (fun k => t !! k) (take max (filter (fun k => index <= k) (merge_sort Z.le (map fst (map_to_list t))))).

(** The [for] loop of [delete_all_from_priv] *)
Fixpoint delete_victims (victims : list nat) : W unit :=
  match victims with
  | [] => ret tt
  | a :: l =>
      let! x := load_swpd a in
      let! b := test_swapped_bit (sp_entry x) in
      (if b then set_swapped_bit (sp_entry x) 0 else ret tt) ;;
      (match sp_page x with Some _ => swapcache_free (sp_entry x) | None => ret tt end) ;;
      delete_victims l
  end.

(** [delete_all_from_priv]; every round moves past the records it found, so one
    round more than the tree has records is enough. *)
Fixpoint delete_all_loop (fuel : nat) (index : Z) : W unit :=
  match fuel with
  | O => oops Bug
  | S n =>
      let! t := gets w_tree in
      let victims := radix_tree_gang_lookup index 64 t in
      delete_victims victims ;;
      match last victims with
      | None => ret tt
      | Some a => let! x := load_swpd a in delete_all_loop n (u64 (sp_entry x + 1))
      end
  end.
Definition delete_all_from_priv (ctx : nat) : W unit :=
  let! t := gets w_tree in delete_all_loop (S (size t)) 0.

(** [priv_ctx_alloc] *)
Definition priv_ctx_alloc : W (option nat) :=
  let! rng := alloc in
  if negb rng then ret None else
  let! key := (fun s => Done (take PRIVOS_CIPHER_KEY_SIZE (w_rng s ++ zeros PRIVOS_CIPHER_KEY_SIZE),
                              set_rng (drop PRIVOS_CIPHER_KEY_SIZE (w_rng s)) s)) in
  let! ok := alloc in
  if negb ok then ret None else
  let! c := fresh in
  put_ctx c (PCtx false 0 1 None) ;;
  let! ok := alloc in
  if negb ok then oops NullDeref else
  let! ok := alloc in
  if negb ok then oops WildPtr else
  let t := snd (blk_setkey tfm_fresh key) in
  put_ctx c (PCtx false 0 1 (Some t)) ;;
  ret (Some c).

(** [priv_ctx_get] *)
Definition priv_ctx_get (ctx : option nat) : W Z :=
  match ctx with
  | None => ret 0
  | Some c =>
      let! x := load_ctx c in
      if px_mapcount x =? 0 then ret 0
      else put_ctx c (with_counts (px_lock x) (px_pagecount x) (px_mapcount x + 1) x) ;; ret 1
  end.

(** [priv_ctx_put].  The lock is held over [delete_all_from_priv]. *)
Definition priv_ctx_put (ctx : option nat) : W unit :=
  match ctx with
  | None => ret tt
  | Some c =>
      let! x := load_ctx c in
      if px_mapcount x =? 1 then
        if px_lock x then oops Deadlock else
        put_ctx c (with_counts true (px_pagecount x) 0 x) ;;
        delete_all_from_priv c ;;
        let! x := load_ctx c in
        match px_cipher x with
        | None => oops NullDeref
        | Some _ =>
            if px_pagecount x =? 0 then free_ctx c
            else put_ctx c (PCtx false (px_pagecount x) 0 None)
        end
      else put_ctx c (with_counts (px_lock x) (px_pagecount x) (px_mapcount x - 1) x)
  end.

(** ** Encryption *)

(** A call on the context's cipher under its lock, with the zero IV: the data and
    the context afterwards. *)
Definition crypt_page (crypt : tfm -> bytes -> Z * tfm * bytes) (c : nat) (d : bytes) : W bytes :=
  let! x := load_ctx c in
  if px_lock x then oops Deadlock else
  match px_cipher x with
  | None => oops NullDeref
  | Some t =>
      let '(_, t', out) := crypt (blk_set_iv t (zeros PRIVOS_CIPHER_IV_SIZE)) d in
      put_ctx c (with_cipher (Some t') x) ;;
      ret out
  end.

(** [priv_encrypt_page]: the page to write *)
Definition priv_encrypt_page (p : nat) : W nat :=
  let! pg := load_page p in
  let entry := pg_private pg in
  let! o := find_priv_page entry in
  match o with
  | None => ret p
  | Some a =>
      let! x := load_swpd a in
      match sp_ctx x with
      | None => ret p
      | Some c =>
          if negb (bool_decide (sp_page x = Some p)) then
            set_swapped_bit entry 0 ;; delete_from_priv entry ;; ret p
          else match sp_scratch x with
          | None => set_swapped_bit entry 0 ;; delete_from_priv entry ;; ret p
          | Some b =>
              let! bp := load_page b in
              if negb (entry =? pg_private bp) then oops Bug else
              let! out := crypt_page blk_encrypt c (pg_data pg) in
              store_page b (with_data out bp) ;;
              set_swapped_bit entry 1 ;;
              ret b
          end
      end
  end.

(** [priv_decrypt_page], in place *)
Definition priv_decrypt_page (p : nat) : W unit :=
  let! pg := load_page p in
  let! o := find_priv_page (pg_private pg) in
  match o with
  | None => ret tt
  | Some a =>
      let! x := load_swpd a in
      match sp_ctx x with
      | None => ret tt
      | Some c =>
          let! cx := load_ctx c in
          if px_mapcount cx =? 0 then ret tt else
          let! out := crypt_page blk_decrypt c (pg_data pg) in
          store_page p (with_data out pg)
      end
  end.

(** ** Swap input and output (mm/page_io.c) *)

(** The part of [swap_writepage] behind [try_to_free_swap]: encrypt, and write to
    the sector of the page's entry; the page the device was given. *)
Definition swap_write (p : nat) : W nat :=
  let! pg := load_page p in
  let! b := priv_encrypt_page p in
  let! bp := load_page b in
  modify (fun s => set_disk (<[pg_private pg := pg_data bp]> (w_disk s)) s) ;;
  ret b.

(** [end_swap_bio_write] on the written page *)
Definition end_swap_bio_write (b : nat) : W unit :=
  let! bp := load_page b in
  let! o := find_priv_page (pg_private bp) in
  match o with
  | None => ret tt
  | Some a =>
      let! x := load_swpd a in
      match sp_page x with
      | None => oops NullDeref
      | Some p => let! pg := load_page p in delete_scratch_page (pg_private pg)
      end
  end.

(** [swap_readpage] and [end_swap_bio_read]: the sector is read and decrypted. *)
Definition swap_read (p : nat) : W unit :=
  let! pg := load_page p in
  let! d := gets w_disk in
  store_page p (with_data (default [] (d !! pg_private pg)) pg) ;;
  priv_decrypt_page p.
End Swap.

(** ** The memory scan (CONFIG_DEATH_SCAN) *)

Definition PATTERN_LEN : nat := 7.
Definition pattern : bytes := [23; 86; 19; 74; 239; 222; 171].

(** [match_pattern] *)
Definition match_pattern (b : bytes) : bool :=
  bool_decide (take 1 b = [2]) && bool_decide (slice 1 PATTERN_LEN b = pattern).

(** [scan_region]; [len] counts the bytes that are left. *)
Fixpoint scan_loop (fuel : nat) (b : bytes) : Z :=
  match fuel with
  | O => 0
  | S n =>
      if 8 <? Z.of_nat (length b) then
        if match_pattern b then 1 + scan_loop n (drop 8 b) else scan_loop n (drop 1 b)
      else 0
  end.
Definition scan_region (b : bytes) : Z := scan_loop (length b) b.

(** The loop of [scan_physical] over the valid pages: tokens and pages counted *)
Fixpoint scan_pages (matched matched_pages : Z) (l : list bytes) : Z * Z :=
  match l with
  | [] => (matched, matched_pages)
  | pg :: l' =>
      let matched := matched + scan_region pg in
      scan_pages matched (if matched =? 0 then matched_pages else matched_pages + 1) l'
  end.
Definition scan_physical (l : list bytes) : Z * Z := scan_pages 0 0 l.

(** ** Facts *)

Section SwapFacts.
Context {B : BlkCipher} {L : StreamCipher B}.

(** Records that count on a context. *)
Definition npages (c : nat) (m : gmap nat priv_swapped_page) : nat :=
  size (filter (fun ax => sp_ctx (snd ax) = Some c) m).

(** A context, and one that [priv_ctx_put] is tearing down under its lock. *)
Definition ctx_sound (y : priv_cipher_ctx) : Prop :=
  px_lock y = false /\ 0 <= px_mapcount y /\
  (px_mapcount y = 0 -> 0 < px_pagecount y /\ px_cipher y = None) /\
  (px_mapcount y <> 0 -> exists t, px_cipher y = Some t /\ tfm_ok t).
Definition ctx_dying (y : priv_cipher_ctx) : Prop :=
  px_lock y = true /\ px_mapcount y = 0 /\ is_Some (px_cipher y).
Definition entry_ok (e : Z) : Prop := 0 < e < 2 ^ 64 - 1.

(** The invariant; [lk] is the context being torn down, [lo] the records that are
    not (yet, or any more) in the tree.  Between operations there are none. *)
Record winv (lk : option nat) (lo : list nat) (s : wstate) : Prop := {
  wi_tree : forall e a, w_tree s !! e = Some a -> exists x, w_swpds s !! a = Some x /\ sp_entry x = e;
  wi_back : forall a x, w_swpds s !! a = Some x -> a ∉ lo -> w_tree s !! sp_entry x = Some a;
  wi_loose : forall a e, a ∈ lo -> w_tree s !! e <> Some a;
  wi_ctx : forall a x, w_swpds s !! a = Some x -> exists c y, sp_ctx x = Some c /\ w_ctxs s !! c = Some y;
  wi_count : forall c y, w_ctxs s !! c = Some y -> Z.of_nat (npages c (w_swpds s)) <= px_pagecount y;
  wi_sound : forall c y, w_ctxs s !! c = Some y -> if bool_decide (lk = Some c) then ctx_dying y else ctx_sound y;
  wi_entry : forall a x, w_swpds s !! a = Some x -> entry_ok (sp_entry x);
  wi_scratch : forall a x b, w_swpds s !! a = Some x -> sp_scratch x = Some b ->
    exists g, w_pages s !! b = Some g /\ pg_private g = sp_entry x;
  wi_owner : forall a a' x x' b, w_swpds s !! a = Some x -> w_swpds s !! a' = Some x' ->
    sp_scratch x = Some b -> sp_scratch x' = Some b -> a = a';
  wi_page : forall a x p, w_swpds s !! a = Some x -> sp_page x = Some p -> is_Some (w_pages s !! p) /\
    forall a' x', w_swpds s !! a' = Some x' -> sp_scratch x' <> Some p;
  wi_brk : forall n, (w_brk s <= n)%nat -> w_ctxs s !! n = None /\ w_swpds s !! n = None /\ w_pages s !! n = None;
}.

(** *** Counting records *)

Lemma npages_insert c a x m : m !! a = None ->
  npages c (<[a := x]> m) = (npages c m + (if bool_decide (sp_ctx x = Some c) then 1 else 0))%nat.
Proof.
  intros Ha. unfold npages. case_bool_decide as E.
  - rewrite map_filter_insert_True by done. rewrite map_size_insert_None by (apply map_lookup_filter_None; auto). lia.
  - rewrite map_filter_insert_False by done. rewrite delete_id by done. lia.
Qed.

Lemma npages_update c a x x' m : m !! a = Some x -> sp_ctx x' = sp_ctx x -> npages c (<[a := x']> m) = npages c m.
Proof.
  intros Ha E. rewrite <- (insert_delete_id m a x Ha) at 2. rewrite <- insert_delete_eq.
  rewrite !npages_insert by apply lookup_delete_eq. by rewrite E.
Qed.

Lemma npages_delete c a x m : m !! a = Some x ->
  npages c m = (npages c (delete a m) + (if bool_decide (sp_ctx x = Some c) then 1 else 0))%nat.
Proof. intros Ha. rewrite <- (insert_delete_id m a x Ha) at 1. apply npages_insert, lookup_delete_eq. Qed.

Lemma npages_zero c m : npages c m = 0%nat -> forall a x, m !! a = Some x -> sp_ctx x <> Some c.
Proof.
  intros H a x Ha E. rewrite (npages_delete c a x m Ha) in H. case_bool_decide; [lia|done].
Qed.

(** *** Freeing a record *)

(** The record is the last thing that keeps the context. *)
Definition last_use (y : priv_cipher_ctx) : bool := (px_mapcount y =? 0) && (px_pagecount y =? 1).

Lemma last_use_true y : last_use y = true -> px_mapcount y = 0 /\ px_pagecount y = 1.
Proof. unfold last_use. rewrite andb_true_iff, !Z.eqb_eq. done. Qed.

(** What [__free_priv_page] leaves. *)
Definition freed (a : nat) (x : priv_swapped_page) (c : nat) (y : priv_cipher_ctx) (s : wstate) : wstate :=
  WS (if last_use y then delete c (w_ctxs s)
      else <[c := with_counts (px_lock y) (px_pagecount y - 1) (px_mapcount y) y]> (w_ctxs s))
     (delete a (w_swpds s))
     (match sp_scratch x with Some b => delete b (w_pages s) | None => w_pages s end)
     (w_tree s) (w_map s) (w_disk s) (w_brk s) (w_mem s) (w_rng s).

Lemma free_priv_page_run a x c y s :
  w_swpds s !! a = Some x -> sp_ctx x = Some c -> w_ctxs s !! c = Some y ->
  (forall b, sp_scratch x = Some b -> is_Some (w_pages s !! b)) ->
  __free_priv_page (Some a) s
  = if last_use y && px_lock y then Oops Deadlock else Done (tt, freed a x c y s).
Proof.
  intros Ha Hc Hy Hb. unfold __free_priv_page, bind at 1, load_swpd. rewrite Ha. unfold bind at 1, priv_ctx_entry_put.
  rewrite Hc. unfold bind at 1, load_ctx. rewrite Hy. unfold freed, last_use.
  destruct (px_mapcount y =? 0) eqn:E1, (px_pagecount y =? 1) eqn:E2, (px_lock y) eqn:E3; simpl;
    unfold bind, __free_scratch_page, put_ctx, free_ctx, modify, oops;
    destruct (sp_scratch x) as [b|] eqn:Eb; simpl; try (destruct (Hb b eq_refl) as [g Hg]; rewrite Hg); done.
Qed.

(** The three parts of [freed]. *)
Lemma freed_ctxs a x c y s c' :
  (w_ctxs (freed a x c y s) !! c' = if bool_decide (c' = c)
    then (if last_use y then None
          else Some (with_counts (px_lock y) (px_pagecount y - 1) (px_mapcount y) y))
    else w_ctxs s !! c').
Proof.
  unfold freed. cbn. case_bool_decide as E; [subst|]; destruct (last_use y).
  - apply lookup_delete_eq.
  - apply lookup_insert_eq.
  - by apply lookup_delete_ne.
  - by apply lookup_insert_ne.
Qed.

Lemma freed_swpds a x c y s a' x' :
  w_swpds (freed a x c y s) !! a' = Some x' <-> a' <> a /\ w_swpds s !! a' = Some x'.
Proof. cbn. rewrite lookup_delete_Some. split; intros [H1 H2]; by split. Qed.

Lemma freed_pages a x c y s p :
  sp_scratch x <> Some p -> w_pages (freed a x c y s) !! p = w_pages s !! p.
Proof. cbn. destruct (sp_scratch x) as [b|]; [|done]. intros H. apply lookup_delete_ne. congruence. Qed.

Lemma winv_freed lk lo a x c y s :
  winv lk (a :: lo) s -> w_swpds s !! a = Some x -> sp_ctx x = Some c -> w_ctxs s !! c = Some y ->
  last_use y && px_lock y = false -> winv lk lo (freed a x c y s).
Proof.
  intros H Ha Hc Hy Hdl. destruct H as [Ht Hbk Hlo Hcx Hcnt Hsd He Hsc Ho Hpg Hbr].
  pose proof (npages_delete c a x _ Ha) as Hn. rewrite bool_decide_true in Hn by done. pose proof (Hcnt _ _ Hy) as Hcy.
  constructor; change (w_tree (freed a x c y s)) with (w_tree s); change (w_brk (freed a x c y s)) with (w_brk s).
  - intros e a' E. destruct (Ht _ _ E) as (x' & Hx & He'). exists x'. rewrite freed_swpds. split; [split|]; try done.
    intros ->. eapply Hlo; [by left|done].
  - intros a' x' [Hne Hx]%freed_swpds Hl. apply Hbk; [done|]. rewrite elem_of_cons. by intros [?|?].
  - intros a' e Hl. apply Hlo. by right.
  - intros a' x' [Hne Hx]%freed_swpds. destruct (Hcx _ _ Hx) as (c' & y' & Hc' & Hy'). exists c'. rewrite freed_ctxs.
    case_bool_decide; [subst|eauto]. destruct (last_use y) eqn:E; [|eauto]. apply last_use_true in E as [E1 E2].
    assert (Hz : npages c (delete a (w_swpds s)) = 0%nat) by lia.
    exfalso. apply (npages_zero _ _ Hz a' x'); [|done]. by rewrite lookup_delete_ne.
  - intros c' y'. rewrite freed_ctxs. change (w_swpds (freed a x c y s)) with (delete a (w_swpds s)). case_bool_decide; [subst|].
    + destruct (last_use y); [done|]. intros [= <-]. simpl. lia.
    + intros Hy'. specialize (Hcnt _ _ Hy'). rewrite (npages_delete c' a x _ Ha) in Hcnt. lia.
  - intros c' y'. rewrite freed_ctxs. case_bool_decide; [subst|apply Hsd].
    destruct (last_use y) eqn:E0; [done|]. intros [= <-]. specialize (Hsd _ _ Hy).
    case_bool_decide; [done|]. destruct Hsd as (H1 & H2 & H3 & H4). split_and!; try done. simpl. intros E1. destruct (H3 E1) as [H5 H6]. split; [|done].
    unfold last_use in E0. apply andb_false_iff in E0 as [E0|E0]; apply Z.eqb_neq in E0; lia.
  - intros a' x' [_ Hx]%freed_swpds. by eapply He.
  - intros a' x' b [Hne Hx]%freed_swpds Hb. destruct (Hsc _ _ _ Hx Hb) as (g & Hg & Hge). exists g. split; [|done].
    rewrite freed_pages; [done|]. intros E. apply Hne. by eapply Ho.
  - intros a1 a2 x1 x2 b [_ H1]%freed_swpds [_ H2]%freed_swpds. by eapply Ho.
  - intros a' x' p [Hne Hx]%freed_swpds Hp. destruct (Hpg _ _ _ Hx Hp) as [Hp1 Hp2]. split.
    + rewrite freed_pages; [done|]. exact (Hp2 a x Ha).
    + intros a2 x2 [_ H2]%freed_swpds. by eapply Hp2.
  - intros n Hn'. destruct (Hbr n Hn') as (H1 & H2 & H3). split_and!.
    + rewrite freed_ctxs. case_bool_decide; [|done]. subst. by rewrite Hy in H1.
    + by apply lookup_delete_None; right.
    + rewrite freed_pages; [done|]. intros E. destruct (Hsc _ _ _ Ha E) as (g & Hg & _). by rewrite H3 in Hg.
Qed.

(** *** Looking a record up and changing it in place *)

Lemma find_priv_page_run lk lo e s : winv lk lo s -> find_priv_page e s = Done (w_tree s !! e, s).
Proof.
  intros H. unfold find_priv_page. destruct (w_tree s !! e) as [a|] eqn:E; [|done].
  destruct (wi_tree _ _ _ H _ _ E) as (x & Hx & He). unfold bind, load_swpd. by rewrite Hx, He, Z.eqb_refl.
Qed.

Lemma winv_swpd lk lo a x x' s : winv lk lo s -> w_swpds s !! a = Some x ->
  sp_ctx x' = sp_ctx x -> sp_entry x' = sp_entry x ->
  (forall p, sp_page x' = Some p -> sp_page x = Some p) ->
  (forall b, sp_scratch x' = Some b -> sp_scratch x = Some b) ->
  winv lk lo (set_swpds (<[a := x']> (w_swpds s)) s).
Proof.
  intros H Ha Hc He Hp Hs. destruct H as [Ht Hbk Hlo Hcx Hcnt Hsd Hen Hsc Ho Hpg Hbr].
  assert (Hl : forall a1 x1, <[a := x']> (w_swpds s) !! a1 = Some x1 -> exists x0, w_swpds s !! a1 = Some x0 /\
    sp_ctx x1 = sp_ctx x0 /\ sp_entry x1 = sp_entry x0 /\ (forall p, sp_page x1 = Some p -> sp_page x0 = Some p) /\
    (forall b, sp_scratch x1 = Some b -> sp_scratch x0 = Some b)).
  { intros a1 x1 [[<- <-]|[Hne E]]%lookup_insert_Some; eauto 10. }
  constructor; cbn.
  - intros e a1 E. destruct (Ht _ _ E) as (x1 & Hx1 & He1). destruct (decide (a1 = a)) as [->|Hne].
    + exists x'. rewrite lookup_insert_eq. split; [done|]. rewrite Ha in Hx1. injection Hx1 as <-. by rewrite He.
    + exists x1. by rewrite lookup_insert_ne.
  - intros a1 x1 (x0 & E & _ & -> & _)%Hl. by apply Hbk.
  - done.
  - intros a1 x1 (x0 & E & -> & _)%Hl. by eapply Hcx.
  - intros c y E. rewrite (npages_update c a x x') by done. by apply Hcnt.
  - done.
  - intros a1 x1 (x0 & E & _ & -> & _)%Hl. by eapply Hen.
  - intros a1 x1 b (x0 & E & _ & -> & _ & Hb)%Hl Eb. eapply Hsc; eauto.
  - intros a1 a2 x1 x2 b (y1 & E1 & _ & _ & _ & H1)%Hl (y2 & E2 & _ & _ & _ & H2)%Hl G1 G2. eapply Ho; eauto.
  - intros a1 x1 q (x0 & E & _ & _ & Hq & _)%Hl Eq. destruct (Hpg _ _ _ E (Hq _ Eq)) as [Hp1 Hp2]. split; [done|].
    intros a2 x2 (x3 & E3 & _ & _ & _ & H3)%Hl G. eapply Hp2; eauto.
  - intros n Hn. destruct (Hbr n Hn) as (H1 & H2 & H3). split_and!; try done.
    rewrite lookup_insert_ne; [done|]. intros ->. by rewrite Ha in H2.
Qed.

(** Changes outside what the invariant reads. *)
Lemma winv_irrel lk lo s s' : winv lk lo s ->
  w_ctxs s' = w_ctxs s -> w_swpds s' = w_swpds s -> w_pages s' = w_pages s -> w_tree s' = w_tree s -> w_brk s' = w_brk s ->
  winv lk lo s'.
Proof. intros [] E1 E2 E3 E4 E5. constructor; rewrite ?E1, ?E2, ?E3, ?E4, ?E5; done. Qed.

(** Contents of a page. *)
Lemma winv_page_data lk lo p g d s : winv lk lo s -> w_pages s !! p = Some g ->
  winv lk lo (set_pages (<[p := with_data d g]> (w_pages s)) s).
Proof.
  intros H Hp. destruct H as [Ht Hbk Hlo Hcx Hcnt Hsd Hen Hsc Ho Hpg Hbr]. constructor; cbn; try done.
  - intros a x b Ha Hb. destruct (Hsc _ _ _ Ha Hb) as (g' & Hg & Hge). destruct (decide (b = p)) as [->|Hne].
    + rewrite lookup_insert_eq. eexists. split; [done|]. simpl. congruence.
    + rewrite lookup_insert_ne by done. eauto.
  - intros a x q Ha Hq. destruct (Hpg _ _ _ Ha Hq) as [Hp1 Hp2]. split; [|done]. by apply lookup_insert_is_Some'; right.
  - intros n Hn. destruct (Hbr n Hn) as (H1 & H2 & H3). split_and!; try done.
    rewrite lookup_insert_ne; [done|]. intros ->. by rewrite Hp in H3.
Qed.

(** Counts and cipher of a context. *)
Lemma winv_ctx lk lk' lo c y y' s : winv lk lo s -> w_ctxs s !! c = Some y -> px_pagecount y <= px_pagecount y' ->
  (if bool_decide (lk' = Some c) then ctx_dying y' else ctx_sound y') ->
  (forall c', c' <> c -> bool_decide (lk' = Some c') = bool_decide (lk = Some c')) ->
  winv lk' lo (set_ctxs (<[c := y']> (w_ctxs s)) s).
Proof.
  intros H Hy Hpc Hs Hlk. destruct H as [Ht Hbk Hlo Hcx Hcnt Hsd Hen Hsc Ho Hpg Hbr]. constructor; cbn; try done.
  - intros a x Ha. destruct (Hcx _ _ Ha) as (c' & z & Hc & Hz). exists c'. destruct (decide (c' = c)) as [->|Hne].
    + rewrite lookup_insert_eq. eauto.
    + rewrite lookup_insert_ne by done. eauto.
  - intros c' z [[<- <-]|[Hne E]]%lookup_insert_Some; [specialize (Hcnt _ _ Hy); lia|by apply Hcnt].
  - intros c' z [[<- <-]|[Hne E]]%lookup_insert_Some; [done|]. rewrite Hlk by done. by apply Hsd.
  - intros n Hn. destruct (Hbr n Hn) as (H1 & H2 & H3). split_and!; try done.
    rewrite lookup_insert_ne; [done|]. intros ->. by rewrite Hy in H1.
Qed.

(** Giving the scratch page of a record back. *)
Lemma winv_drop_scratch lk lo a x b s : winv lk lo s -> w_swpds s !! a = Some x -> sp_scratch x = Some b ->
  winv lk lo (set_swpds (<[a := Swpd (sp_ctx x) None None (sp_entry x) (sp_flags x)]> (w_swpds s))
    (set_pages (delete b (w_pages s)) s)).
Proof.
  intros H Ha Hb. pose proof (winv_swpd lk lo a x (Swpd (sp_ctx x) None None (sp_entry x) (sp_flags x)) s H Ha) as H'.
  specialize (H' eq_refl eq_refl ltac:(done) ltac:(done)). pose proof (wi_owner _ _ _ H a) as Hown.
  pose proof (fun a1 x1 p => wi_page _ _ _ H a1 x1 p) as Hpage.
  destruct H' as [Ht Hbk Hlo Hcx Hcnt Hsd Hen Hsc Ho Hpg Hbr]. constructor; cbn in *; try done.
  - intros a1 x1 b1 E1 Eb1. destruct (Hsc _ _ _ E1 Eb1) as (g & Hg & Hge). exists g. split; [|done].
    rewrite lookup_delete_ne; [done|]. intros <-. apply lookup_insert_Some in E1 as [[<- <-]|[Hne E1]]; [done|].
    by apply Hne, (Hown a1 x x1 b).
  - intros a1 x1 p E1 Ep. destruct (Hpg _ _ _ E1 Ep) as [Hp1 Hp2]. split; [|done]. rewrite lookup_delete_ne; [done|]. intros <-.
    apply lookup_insert_Some in E1 as [[<- <-]|[Hne E1]]; [done|]. exact (proj2 (Hpage a1 x1 b E1 Ep) a x Ha Hb).
  - intros n Hn. destruct (Hbr n Hn) as (H1 & H2 & H3). split_and!; try done. by apply lookup_delete_None; right.
Qed.

(** Taking a record out of the tree. *)
Lemma winv_untree lk lo e a s : winv lk lo s -> w_tree s !! e = Some a -> winv lk (a :: lo) (set_tree (delete e (w_tree s)) s).
Proof.
  intros H E. destruct H as [Ht Hbk Hlo Hcx Hcnt Hsd Hen Hsc Ho Hpg Hbr].
  assert (Hu : forall e', w_tree s !! e' = Some a -> e' = e).
  { intros e' E'. destruct (Ht _ _ E) as (x & Hx & He). destruct (Ht _ _ E') as (x' & Hx' & He'). congruence. }
  constructor; cbn; try done.
  - intros e' a' [Hne E']%lookup_delete_Some. by apply Ht.
  - intros a' x Ha [Hne Hl]%not_elem_of_cons. pose proof (Hbk _ _ Ha Hl) as E'. rewrite lookup_delete_ne; [done|congruence].
  - intros a' e' [->|Hl]%elem_of_cons [Hne E']%lookup_delete_Some; [apply Hne; symmetry; by apply Hu|by eapply Hlo].
Qed.

(** *** Operations on records *)

(** The only fault of freeing a record: the lock of the context being torn down. *)
Definition dl (lk : option nat) (f : fault) : Prop := f = Deadlock /\ lk <> None.

(** A page that is no record's scratch page. *)
Definition plain (p : nat) (s : wstate) : Prop := forall a x, w_swpds s !! a = Some x -> sp_scratch x <> Some p.

(** What every operation on records keeps: the tree does not grow, the context
    being torn down stays, and so do the pages that are no scratch pages. *)
Definition keeps (lk : option nat) (s s' : wstate) : Prop :=
  w_tree s' ⊆ w_tree s /\ (forall c, lk = Some c -> is_Some (w_ctxs s !! c) -> is_Some (w_ctxs s' !! c)) /\
  forall p, plain p s -> plain p s' /\ w_pages s' !! p = w_pages s !! p.

Lemma keeps_refl lk s s' : w_tree s' = w_tree s -> w_ctxs s' = w_ctxs s -> w_swpds s' = w_swpds s -> w_pages s' = w_pages s ->
  keeps lk s s'.
Proof. intros E1 E2 E3 E4. split; [by rewrite E1|]. unfold plain. by rewrite E2, E3, E4. Qed.

Lemma keeps_trans lk s1 s2 s3 : keeps lk s1 s2 -> keeps lk s2 s3 -> keeps lk s1 s3.
Proof.
  intros (H1 & H2 & H3) (H4 & H5 & H6). split; [by etransitivity|]. split; [auto|].
  intros p Hp. destruct (H3 p Hp) as [Hp2 E2]. destruct (H6 p Hp2) as [Hp3 E3]. split; [done|congruence].
Qed.

Lemma free_priv_page_spec lk lo a s : winv lk (a :: lo) s -> is_Some (w_swpds s !! a) ->
  wp (dl lk) (__free_priv_page (Some a)) (fun _ s' => winv lk lo s' /\ keeps lk s s' /\ w_tree s' = w_tree s /\
    forall a', a' <> a -> w_swpds s' !! a' = w_swpds s !! a') s.
Proof.
  intros H [x Ha]. destruct (wi_ctx _ _ _ H _ _ Ha) as (c & y & Hc & Hy). unfold wp.
  rewrite (free_priv_page_run a x c y) by (done || (intros b Hb; destruct (wi_scratch _ _ _ H _ _ _ Ha Hb) as (g & Hg & _); eauto)).
  pose proof (wi_sound _ _ _ H _ _ Hy) as Hs. destruct (last_use y && px_lock y) eqn:E.
  - apply andb_true_iff in E as [_ E]. split; [done|]. intros ->. rewrite bool_decide_false in Hs by done.
    destruct Hs as (H1 & _). congruence.
  - split; [by apply winv_freed|]. split; [|split; [done|intros a' Ha'; by apply lookup_delete_ne]]. split; [done|split].
    { intros c' Hl. rewrite freed_ctxs.
    destruct (decide (c' = c)) as [->|]; [rewrite bool_decide_true by done|by rewrite bool_decide_false].
    destruct (last_use y) eqn:Eu; [|eauto]. rewrite bool_decide_true in Hs by done.
    destruct Hs as (H1 & _). rewrite H1 in E. done. }
    intros p Hp. split; [intros a' x' [_ Hx]%freed_swpds; by eapply Hp|]. apply freed_pages. by eapply Hp.
Qed.

Lemma set_swapped_bit_spec lk lo e v s : winv lk lo s ->
  wp total (set_swapped_bit e v) (fun _ s' => winv lk lo s' /\ keeps lk s s' /\ w_pages s' = w_pages s) s.
Proof.
  intros H. unfold set_swapped_bit, wp, bind. rewrite (find_priv_page_run _ _ _ _ H).
  destruct (w_tree s !! e) as [a|] eqn:E; [|split; [done|split; [by apply keeps_refl|done]]].
  destruct (wi_tree _ _ _ H _ _ E) as (x & Hx & _). unfold load_swpd. rewrite Hx. cbn. split; [by eapply winv_swpd|].
  split; [|done]. split; [done|]. split; [done|]. intros p Hp. split; [|done].
  intros a' x'. cbn. intros [[<- <-]|[Hne E']]%lookup_insert_Some; [exact (Hp _ _ Hx)|exact (Hp _ _ E')].
Qed.

Lemma test_swapped_bit_run lk lo e s : winv lk lo s -> exists b, test_swapped_bit e s = Done (b, s).
Proof.
  intros H. unfold test_swapped_bit, bind. rewrite (find_priv_page_run _ _ _ _ H).
  destruct (w_tree s !! e) as [a|] eqn:E; [|by eexists]. destruct (wi_tree _ _ _ H _ _ E) as (x & Hx & _).
  unfold load_swpd. rewrite Hx. by eexists.
Qed.

Lemma delete_from_priv_spec lk e s : winv lk [] s ->
  wp (dl lk) (delete_from_priv e) (fun _ s' => winv lk [] s' /\ keeps lk s s') s.
Proof.
  intros H. unfold delete_from_priv. destruct (e =? 0); [split; [done|by apply keeps_refl]|].
  destruct (test_swapped_bit_run lk [] e s H) as [b Eb]. apply wp_bind. eapply wp_done; [exact Eb|].
  destruct b; [split; [done|by apply keeps_refl]|]. apply wp_bind. eapply wp_done; [done|]. cbv beta.
  destruct (w_tree s !! e) as [a|] eqn:E.
  - eapply wp_mono; [apply free_priv_page_spec; [by apply winv_untree|]|].
    + destruct (wi_tree _ _ _ H _ _ E) as (x & Hx & _). by exists x.
    + cbv beta. intros _ s' (H1 & H2 & _). split; [done|]. eapply keeps_trans; [|exact H2]. split; [apply delete_subseteq|done].
  - cbn. split; [|split; [apply delete_subseteq|done]]. eapply winv_irrel; [exact H|done..| |done]. cbn. by apply delete_id.
Qed.

Lemma delete_scratch_page_spec lk lo e s : winv lk lo s -> wp total (delete_scratch_page e) (fun _ s' => winv lk lo s') s.
Proof.
  intros H. unfold delete_scratch_page. destruct (e =? 0); [done|]. apply wp_bind. eapply wp_done; [by eapply find_priv_page_run|].
  cbv beta. destruct (w_tree s !! e) as [a|] eqn:E; [|done]. destruct (wi_tree _ _ _ H _ _ E) as (x & Hx & _).
  unfold wp, bind, load_swpd. rewrite Hx. destruct (sp_scratch x) as [b|] eqn:Eb; [|done]. destruct (sp_flags x =? 0); [done|].
  destruct (wi_scratch _ _ _ H _ _ _ Hx Eb) as (g & Hg & _). cbn. rewrite Hg. cbn.
  apply (winv_drop_scratch lk lo a x b); done.
Qed.

Lemma swap_entry_free_spec lk cont e u s : winv lk [] s ->
  wp (dl lk) (swap_entry_free cont e u) (fun _ s' => winv lk [] s' /\ keeps lk s s') s.
Proof.
  intros H. unfold swap_entry_free. apply wp_bind. eapply wp_done; [done|]. cbv beta.
  destruct (if u =? SWAP_HAS_CACHE then _ else _) as [hc cnt]. apply wp_bind. eapply wp_done; [done|]. cbv beta.
  set (s1 := set_map _ s). assert (H1 : winv lk [] s1) by by eapply winv_irrel.
  assert (K1 : keeps lk s s1) by by apply keeps_refl.
  apply wp_bind. destruct (Z.lor cnt hc =? 0); [|done].
  apply wp_bind. eapply (wp_weaken total); [by intros ? []|]. eapply wp_mono; [by apply set_swapped_bit_spec|]. cbv beta.
  intros _ s2 (H2 & K2 & _). eapply wp_mono; [by apply delete_from_priv_spec|]. cbv beta. intros _ s3 [H3 K3].
  split; [done|]. eapply keeps_trans; [exact K1|]. by eapply keeps_trans.
Qed.

Lemma swapcache_free_spec lk e s : winv lk [] s ->
  wp (dl lk) (swapcache_free e) (fun _ s' => winv lk [] s' /\ keeps lk s s') s.
Proof.
  intros H. unfold swapcache_free. apply wp_bind. eapply wp_done; [done|]. cbv beta. case_match.
  - apply wp_bind. eapply wp_mono; [by apply swap_entry_free_spec|]. done.
  - split; [done|by apply keeps_refl].
Qed.

Lemma swap_free_spec cont e s : winv None [] s -> wp total (swap_free cont e) (fun _ s' => winv None [] s') s.
Proof.
  intros H. unfold swap_free. apply wp_bind. eapply wp_done; [done|]. cbv beta. case_match; [|done].
  apply wp_bind. eapply (wp_weaken (dl None)); [by intros f []|]. eapply wp_mono; [by apply swap_entry_free_spec|]. cbv beta. by intros ? ? [].
Qed.

(** *** Tearing a context down *)

Definition uaf (lk : option nat) (f : fault) : Prop := f = UseAfterFree \/ dl lk f.

Lemma delete_victims_spec lk l s : winv lk [] s ->
  wp (uaf lk) (delete_victims l) (fun _ s' => winv lk [] s' /\ keeps lk s s') s.
Proof.
  revert s. induction l as [|a l IH]; intros s H; [split; [done|by apply keeps_refl]|]. cbn [delete_victims].
  apply wp_bind. unfold wp at 1, load_swpd. destruct (w_swpds s !! a) as [x|] eqn:Ex; [|by left].
  destruct (test_swapped_bit_run lk [] (sp_entry x) s H) as [b Eb]. apply wp_bind. eapply wp_done; [exact Eb|].
  apply wp_bind. eapply (wp_mono _ _ (fun _ s1 => winv lk [] s1 /\ keeps lk s s1)).
  { destruct b; [|split; [done|by apply keeps_refl]]. eapply (wp_weaken total); [by intros ? []|].
    eapply wp_mono; [by apply set_swapped_bit_spec|]. cbv beta. by intros _ s1 (H1 & K1 & _). }
  cbv beta. intros _ s1 [H1 K1]. apply wp_bind. eapply (wp_mono _ _ (fun _ s2 => winv lk [] s2 /\ keeps lk s1 s2)).
  { destruct (sp_page x); [|split; [done|by apply keeps_refl]]. eapply wp_weaken; [intros f Hf; right; exact Hf|].
    by apply swapcache_free_spec. }
  cbv beta. intros _ s2 [H2 K2]. eapply wp_mono; [by apply IH|]. cbv beta. intros _ s3 [H3 K3]. split; [done|].
  eapply keeps_trans; [exact K1|]. by eapply keeps_trans.
Qed.

(** How many entries a round from [index] on can still find. *)
Definition entries_from (index : Z) (t : gmap Z nat) : nat := size (filter (fun ka => index <= fst ka) t).

Lemma entries_from_le i j t t' : t' ⊆ t -> i <= j -> (entries_from j t' <= entries_from i t)%nat.
Proof.
  intros Ht Hij. unfold entries_from. apply map_subseteq_size. apply map_subseteq_spec. intros k a.
  rewrite !map_lookup_filter_Some. simpl. intros [E Hk]. split; [by eapply lookup_weaken|lia].
Qed.

Lemma entries_from_lt i j k a t t' : t' ⊆ t -> t !! k = Some a -> i <= k < j -> (entries_from j t' < entries_from i t)%nat.
Proof.
  intros Ht Hk Hij. unfold entries_from. apply map_subset_size. split.
  - apply map_subseteq_spec. intros k' a'. rewrite !map_lookup_filter_Some. simpl.
    intros [E Hk']. split; [by eapply lookup_weaken|lia].
  - intros Hs. assert (E : filter (fun ka => i <= fst ka) t !! k = Some a) by (apply map_lookup_filter_Some; simpl; split; [done|lia]).
    eapply lookup_weaken in Hs; [|exact E]. apply map_lookup_filter_Some in Hs as [_ Hs]. simpl in Hs. lia.
Qed.

Lemma gang_elem i n t a : a ∈ radix_tree_gang_lookup i n t -> exists k, t !! k = Some a /\ i <= k.
Proof.
  unfold radix_tree_gang_lookup. rewrite list_elem_of_omap. intros (k & Hk & E). exists k. split; [done|].
  eapply elem_of_subseteq in Hk; [|apply subseteq_take]. by apply list_elem_of_filter in Hk as [Hk _].
Qed.

Lemma winv_tree_inj lk lo e e' a s : winv lk lo s -> w_tree s !! e = Some a -> w_tree s !! e' = Some a -> e = e'.
Proof. intros H E E'. destruct (wi_tree _ _ _ H _ _ E) as (x & Hx & He). destruct (wi_tree _ _ _ H _ _ E') as (x' & Hx' & He'). congruence. Qed.

Lemma delete_all_loop_spec lk n i s : winv lk [] s -> (entries_from i (w_tree s) < n)%nat ->
  wp (uaf lk) (delete_all_loop n i) (fun _ s' => winv lk [] s' /\ keeps lk s s') s.
Proof.
  revert i s. induction n as [|n IH]; intros i s H Hn; [lia|]. cbn [delete_all_loop].
  apply wp_bind. eapply wp_done; [done|]. cbv beta. set (v := radix_tree_gang_lookup i 64 (w_tree s)).
  apply wp_bind. eapply wp_mono; [by apply delete_victims_spec|]. cbv beta. intros _ s1 [H1 K1].
  destruct (last v) as [a|] eqn:El; [|done]. apply wp_bind. unfold wp at 1, load_swpd.
  destruct (w_swpds s1 !! a) as [x|] eqn:Ex; [|by left].
  assert (Ha : a ∈ v) by by apply last_Some_elem_of. apply gang_elem in Ha as (k & Hk & Hik).
  assert (Hx : sp_entry x = k) by (eapply winv_tree_inj; [exact H|eapply lookup_weaken; [apply (wi_back _ _ _ H1); [done|apply not_elem_of_nil]|apply K1]|done]).
  pose proof (wi_entry _ _ _ H1 _ _ Ex) as He. unfold entry_ok in He. rewrite u64_small by lia.
  eapply wp_mono; [apply IH; [done|]|].
  - eapply Nat.lt_le_trans; [eapply (entries_from_lt i _ k a); [apply K1|exact Hk|lia]|lia].
  - cbv beta. intros _ s2 [H2 K2]. split; [done|]. by eapply keeps_trans.
Qed.

Lemma winv_free_ctx c y s : winv (Some c) [] s -> w_ctxs s !! c = Some y -> px_pagecount y = 0 ->
  winv None [] (set_ctxs (delete c (w_ctxs s)) s).
Proof.
  intros H Hy Hz. destruct H as [Ht Hbk Hlo Hcx Hcnt Hsd Hen Hsc Ho Hpg Hbr]. constructor; cbn; try done.
  - intros a x Ha. destruct (Hcx _ _ Ha) as (c' & z & Hc & Hz'). exists c', z. split; [done|].
    rewrite lookup_delete_ne; [done|]. intros <-. specialize (Hcnt _ _ Hy).
    assert (Hn : npages c (w_swpds s) = 0%nat) by lia. by apply (npages_zero _ _ Hn a x).
  - intros c' z [Hne E]%lookup_delete_Some. by apply Hcnt.
  - intros c' z [Hne E]%lookup_delete_Some. specialize (Hsd _ _ E). rewrite bool_decide_false in * by congruence. done.
  - intros n Hn. destruct (Hbr n Hn) as (H1 & H2 & H3). split_and!; try done. by apply lookup_delete_None; right.
Qed.

Lemma priv_ctx_put_spec c y s : winv None [] s -> w_ctxs s !! c = Some y -> px_mapcount y <> 0 ->
  wp (uaf (Some c)) (priv_ctx_put (Some c)) (fun _ s' => winv None [] s') s.
Proof.
  intros H Hy Hm. pose proof (wi_sound _ _ _ H _ _ Hy) as Hs. rewrite bool_decide_false in Hs by done.
  destruct Hs as (Hl & Hm0 & Hp & Ht). destruct (Ht Hm) as (t & Et & Hok). cbn [priv_ctx_put].
  apply wp_bind. unfold wp at 1, load_ctx. rewrite Hy, Hl. destruct (px_mapcount y =? 1) eqn:E1.
  - apply wp_bind. eapply wp_done; [done|]. cbv beta. set (s1 := set_ctxs _ s).
    assert (H1 : winv (Some c) [] s1).
    { eapply (winv_ctx None (Some c)); [exact H|exact Hy|done| |].
      - rewrite bool_decide_true by done. split_and!; done || by exists t.
      - intros c' Hne. rewrite !bool_decide_false by congruence. done. }
    apply wp_bind. unfold delete_all_from_priv. apply wp_bind. eapply wp_done; [done|]. cbv beta.
    eapply wp_mono; [apply (delete_all_loop_spec (Some c)); [exact H1|]|].
    { unfold entries_from. apply Nat.lt_succ_r, map_subseteq_size, map_filter_subseteq. }
    cbv beta. intros _ s2 [H2 (_ & K2 & _)].
    destruct (K2 c eq_refl) as [y2 Hy2]; [cbn; rewrite lookup_insert_eq; by eexists|].
    pose proof (wi_sound _ _ _ H2 _ _ Hy2) as Hs2. rewrite bool_decide_true in Hs2 by done. destruct Hs2 as (_ & _ & t2 & Et2).
    apply wp_bind. unfold wp at 1, load_ctx. rewrite Hy2, Et2. destruct (px_pagecount y2 =? 0) eqn:E0.
    + apply Z.eqb_eq in E0. by apply (winv_free_ctx c y2).
    + apply Z.eqb_neq in E0. pose proof (wi_count _ _ _ H2 _ _ Hy2).
      eapply (winv_ctx (Some c) None); [exact H2|exact Hy2|done| |].
      * rewrite bool_decide_false by done. split_and!; try done. simpl. split; [lia|done].
      * intros c' Hne. rewrite !bool_decide_false by congruence. done.
  - apply Z.eqb_neq in E1. eapply (winv_ctx None None); [exact H|exact Hy|done| |done].
    rewrite bool_decide_false by done. split_and!; simpl; try done; try lia. intros _. by exists t.
Qed.

Lemma priv_ctx_get_spec c y s : winv None [] s -> w_ctxs s !! c = Some y ->
  wp total (priv_ctx_get (Some c)) (fun rc s' => winv None [] s' /\ rc = (if px_mapcount y =? 0 then 0 else 1)) s.
Proof.
  intros H Hy. cbn [priv_ctx_get]. apply wp_bind. unfold wp at 1, load_ctx. rewrite Hy.
  pose proof (wi_sound _ _ _ H _ _ Hy) as Hs. rewrite bool_decide_false in Hs by done. destruct Hs as (Hl & Hm0 & Hp & Ht).
  destruct (px_mapcount y =? 0) eqn:E; [done|]. apply Z.eqb_neq in E. split; [|done].
  eapply (winv_ctx None None); [exact H|exact Hy|done| |done].
  rewrite bool_decide_false by done. split_and!; simpl; try done; try lia. intros _. by apply Ht.
Qed.

(** *** New pages, records and contexts *)

(** No record uses page [b] as its scratch page or as its page. *)
Definition unused (b : nat) (s : wstate) : Prop :=
  forall a x, w_swpds s !! a = Some x -> sp_scratch x <> Some b /\ sp_page x <> Some b.

Lemma unused_fresh lk lo n s : winv lk lo s -> (w_brk s <= n)%nat -> unused n s.
Proof.
  intros H Hn a x Ha. destruct (wi_brk _ _ _ H n Hn) as (_ & _ & Hp). split; intros E.
  - destruct (wi_scratch _ _ _ H _ _ _ Ha E) as (g & Hg & _). congruence.
  - destruct (wi_page _ _ _ H _ _ _ Ha E) as [[g Hg] _]. congruence.
Qed.

Lemma winv_new_page lk lo g s : winv lk lo s ->
  winv lk lo (set_pages (<[w_brk s := g]> (w_pages s)) (set_brk (S (w_brk s)) s)).
Proof.
  intros H. pose proof (unused_fresh lk lo (w_brk s) s H ltac:(done)) as Hu.
  destruct H as [Ht Hbk Hlo Hcx Hcnt Hsd Hen Hsc Ho Hpg Hbr]. constructor; cbn; try done.
  - intros a x b Ha Hb. rewrite lookup_insert_ne; [by eapply Hsc|]. intros <-. exact (proj1 (Hu _ _ Ha) Hb).
  - intros a x p Ha Hp. destruct (Hpg _ _ _ Ha Hp). split; [|done]. by apply lookup_insert_is_Some'; right.
  - intros n Hn. destruct (Hbr n ltac:(lia)) as (H1 & H2 & H3). split_and!; try done. rewrite lookup_insert_ne by lia. done.
Qed.

Lemma winv_drop_page lk lo b s : winv lk lo s -> unused b s -> winv lk lo (set_pages (delete b (w_pages s)) s).
Proof.
  intros H Hu. destruct H as [Ht Hbk Hlo Hcx Hcnt Hsd Hen Hsc Ho Hpg Hbr]. constructor; cbn; try done.
  - intros a x b' Ha Hb. rewrite lookup_delete_ne; [by eapply Hsc|]. intros <-. exact (proj1 (Hu _ _ Ha) Hb).
  - intros a x p Ha Hp. destruct (Hpg _ _ _ Ha Hp). split; [|done]. rewrite lookup_delete_ne; [done|].
    intros <-. exact (proj2 (Hu _ _ Ha) Hp).
  - intros n Hn. destruct (Hbr n Hn) as (H1 & H2 & H3). split_and!; try done. by apply lookup_delete_None; right.
Qed.

(** Adding a record [a] for page [p] with scratch page [b]. *)
Lemma winv_new_record lk p g b gb c y e s : winv lk [] s -> entry_ok e ->
  w_pages s !! p = Some g -> w_pages s !! b = Some gb -> unused b s -> p <> b ->
  (forall a x, w_swpds s !! a = Some x -> sp_scratch x <> Some p) ->
  w_ctxs s !! c = Some y -> Z.of_nat (npages c (w_swpds s)) + 1 <= px_pagecount y ->
  winv lk [w_brk s]
    (WS (w_ctxs s) (<[w_brk s := Swpd (Some c) (Some p) (Some b) e 0]> (w_swpds s))
       (<[b := Page (pg_data gb) e (pg_mapcount gb) (pg_rmapping gb) (pg_anon_vma gb)]> (w_pages s))
       (w_tree s) (w_map s) (w_disk s) (S (w_brk s)) (w_mem s) (w_rng s)).
Proof.
  intros H He Hp Hb Hu Hpb Hps Hy Hpc. destruct (wi_brk _ _ _ H (w_brk s) ltac:(done)) as (_ & Hnew & _).
  set (a := w_brk s) in *. set (r := Swpd (Some c) (Some p) (Some b) e 0).
  destruct H as [Ht Hbk Hlo Hcx Hcnt Hsd Hen Hsc Ho Hpg Hbr]. constructor; cbn; try done.
  - intros e' a' E. destruct (Ht _ _ E) as (x & Hx & He'). exists x. split; [|done]. rewrite lookup_insert_ne; [done|congruence].
  - intros a' x [[<- <-]|[Hne E]]%lookup_insert_Some Hl; [by destruct Hl; left|]. apply Hbk; [done|apply not_elem_of_nil].
  - intros a' e' ->%list_elem_of_singleton E. destruct (Ht _ _ E) as (x & Hx & _). congruence.
  - intros a' x [[<- <-]|[Hne E]]%lookup_insert_Some; [by exists c, y|by eapply Hcx].
  - intros c' z E. rewrite npages_insert by done. cbn. case_bool_decide as Ec.
    + injection Ec as <-. rewrite Hy in E. injection E as <-. lia.
    + specialize (Hcnt _ _ E). lia.
  - intros a' x [[<- <-]|[Hne E]]%lookup_insert_Some; [done|by eapply Hen].
  - intros a' x b' [[<- <-]|[Hne E]]%lookup_insert_Some.
    + intros [= <-]. rewrite lookup_insert_eq. eexists. done.
    + intros Eb. rewrite lookup_insert_ne; [by eapply Hsc|]. intros <-. exact (proj1 (Hu _ _ E) Eb).
  - intros a1 a2 x1 x2 b' [[<- <-]|[Hn1 E1]]%lookup_insert_Some [[<- <-]|[Hn2 E2]]%lookup_insert_Some; cbn; try done.
    + intros [= <-] Eb. destruct (proj1 (Hu _ _ E2) Eb).
    + intros Eb [= <-]. destruct (proj1 (Hu _ _ E1) Eb).
    + by eapply Ho.
  - intros a' x q [[<- <-]|[Hne E]]%lookup_insert_Some.
    + intros [= <-]. split; [rewrite lookup_insert_ne by done; by eexists|].
      intros a1 x1 [[<- <-]|[Hn1 E1]]%lookup_insert_Some; [cbn; congruence|by eapply Hps].
    + intros Eq. destruct (Hpg _ _ _ E Eq) as [Hq1 Hq2]. split; [by apply lookup_insert_is_Some'; right|].
      intros a1 x1 [[<- <-]|[Hn1 E1]]%lookup_insert_Some; [|by eapply Hq2]. intros [= <-]. exact (proj2 (Hu _ _ E) Eq).
  - intros n Hn. destruct (Hbr n ltac:(lia)) as (H1 & H2 & H3). split_and!; try done.
    + rewrite lookup_insert_ne by lia. done.
    + rewrite lookup_insert_ne; [done|congruence].
Qed.

Lemma winv_intree lk lo a x s : winv lk (a :: lo) s -> w_swpds s !! a = Some x -> w_tree s !! sp_entry x = None -> a ∉ lo ->
  winv lk lo (set_tree (<[sp_entry x := a]> (w_tree s)) s).
Proof.
  intros H Ha E Hal. destruct H as [Ht Hbk Hlo Hcx Hcnt Hsd Hen Hsc Ho Hpg Hbr]. constructor; cbn; try done.
  - intros e a' [[<- <-]|[Hne E']]%lookup_insert_Some; [by exists x|by apply Ht].
  - intros a' x' Ha' Hl. destruct (decide (a' = a)) as [->|Hne].
    + rewrite Ha in Ha'. injection Ha' as <-. apply lookup_insert_eq.
    + pose proof (Hbk _ _ Ha' ltac:(by apply not_elem_of_cons)) as E'. rewrite lookup_insert_ne; [done|congruence].
  - intros a' e Hl [[<- <-]|[Hne E']]%lookup_insert_Some; [done|]. by eapply Hlo; [right|].
Qed.

Lemma alloc_run s : exists b m, alloc s = Done (b, set_mem m s).
Proof. unfold alloc. destruct s as [? ? ? ? ? ? ? [|f m] ?]; cbn; eexists _, _; done. Qed.

(** A page the reclaim code hands over: in the swap cache, and its areas hold
    references on their contexts. *)
Definition reclaimable (p : nat) (s : wstate) : Prop :=
  exists g, w_pages s !! p = Some g /\ entry_ok (pg_private g) /\
    (forall a x, w_swpds s !! a = Some x -> sp_scratch x <> Some p) /\
    forall chain v c, pg_anon_vma g = Some chain -> v ∈ chain -> vma_ctx v = Some c ->
      exists y, w_ctxs s !! c = Some y /\ px_mapcount y <> 0.

Definition new_record (p : nat) (r : option nat) (s : wstate) : Prop :=
  match r with
  | None => winv None [] s
  | Some a => winv None [a] s /\ exists x g, w_swpds s !! a = Some x /\ sp_page x = Some p /\
      w_pages s !! p = Some g /\ pg_private g = sp_entry x
  end.

Lemma alloc_priv_page_spec p c y s : winv None [] s -> reclaimable p s -> w_ctxs s !! c = Some y -> px_mapcount y <> 0 ->
  wp total (__alloc_priv_page p (Some c)) (new_record p) s.
Proof.
  intros H (g & Hg & He & Hps & _) Hy Hm. unfold __alloc_priv_page. apply wp_bind. cbn [priv_ctx_entry_get].
  apply wp_bind. unfold wp at 1, load_ctx. rewrite Hy. apply wp_bind. eapply wp_done; [done|]. cbv beta.
  set (y1 := with_counts _ _ _ y). set (s1 := set_ctxs _ s). assert (H1 : winv None [] s1).
  { eapply (winv_ctx None None); [exact H|exact Hy|simpl; lia| |done]. rewrite bool_decide_false by done.
    pose proof (wi_sound _ _ _ H _ _ Hy) as Hs. rewrite bool_decide_false in Hs by done. destruct Hs as (Hl & Hm0 & Hp & Ht).
    split_and!; simpl; done || lia || auto. }
  unfold wp at 1, ret at 1. change (1 =? 0) with false. cbv iota. unfold __get_scratch_page.
  apply wp_bind. apply wp_bind. destruct (alloc_run s1) as (ok & m1 & E1). eapply wp_done; [exact E1|].
  set (s2 := set_mem m1 s1). assert (H2 : winv None [] s2) by by eapply winv_irrel.
  destruct ok; cbn [negb]; [|done]. apply wp_bind. eapply wp_done; [done|]. apply wp_bind. eapply wp_done; [done|]. cbv beta.
  set (b := w_brk s2). set (gb := Page _ 0 0 false None). set (s3 := set_pages _ _).
  assert (H3 : winv None [] s3) by exact (winv_new_page None [] gb s2 H2).
  assert (Hub : unused b s3) by (intros a x Ha; exact (unused_fresh None [] b s2 H2 ltac:(done) a x Ha)).
  assert (Hpb : p <> b) by (intros ->; destruct (wi_brk _ _ _ H b ltac:(done)) as (_ & _ & E); congruence).
  assert (Hg3 : w_pages s3 !! p = Some g) by (cbn; rewrite lookup_insert_ne; done).
  assert (Hb3 : w_pages s3 !! b = Some gb) by apply lookup_insert_eq.
  unfold wp at 1, ret at 1. apply wp_bind. destruct (alloc_run s3) as (ok & m2 & E2). eapply wp_done; [exact E2|].
  set (s4 := set_mem m2 s3). assert (H4 : winv None [] s4) by by eapply winv_irrel. destruct ok; cbn [negb].
  - apply wp_bind. eapply wp_done; [done|]. apply wp_bind. unfold wp at 1, load_page. cbn [w_pages set_brk].
    change (w_pages s4) with (w_pages s3). rewrite Hg3. apply wp_bind. unfold wp at 1. cbn [w_pages set_brk].
    change (w_pages s4) with (w_pages s3). rewrite Hb3. apply wp_bind. eapply wp_done; [done|].
    apply wp_bind. eapply wp_done; [done|]. cbv beta. unfold wp, ret, new_record. split.
    + apply (winv_new_record None p g b gb c y1 (pg_private g) s4); try done; [apply lookup_insert_eq|].
      simpl. pose proof (wi_count _ _ _ H _ _ Hy). change (w_swpds s4) with (w_swpds s). lia.
    + eexists _, g. cbn. rewrite lookup_insert_eq, lookup_insert_ne by done. done.
  - apply wp_bind. unfold wp at 1, __free_scratch_page. change (w_pages s4) with (w_pages s3). rewrite Hb3.
    unfold wp, ret, new_record. exact (winv_drop_page None [] b s4 H4 Hub).
Qed.

(** A record in the tree, or freed for lack of memory (and then freed again by the
    caller). *)
Lemma priv_tree_insert_spec a x s : winv None [a] s -> w_swpds s !! a = Some x ->
  wp total (priv_tree_insert 2 (sp_entry x) a)
    (fun rc s' => winv None [] s' /\ (rc <> 0 \/ w_swpds s' !! a = None)) s.
Proof.
  intros H Ha.
  assert (Hone : forall n s0, winv None [a] s0 -> w_swpds s0 !! a = Some x -> w_tree s0 !! sp_entry x = None ->
    wp total (priv_tree_insert (S n) (sp_entry x) a) (fun rc s' => winv None [] s' /\ (rc <> 0 \/ w_swpds s' !! a = None)) s0).
  { intros n s0 H0 Ha0 E0. cbn [priv_tree_insert]. apply wp_bind. unfold wp at 1, radix_tree_insert. rewrite E0. unfold bind at 1.
    destruct (alloc_run s0) as (ok & m & E). rewrite E. set (s1 := set_mem m s0).
    assert (H1 : winv None [a] s1) by by eapply winv_irrel. destruct ok; cbn.
    - split; [|by left]. exact (winv_intree None [] a x s1 H1 Ha0 E0 (not_elem_of_nil a)).
    - change (wp total (bind (__free_priv_page (Some a)) (fun _ => ret 0)) (fun rc s' => winv None [] s' /\ (rc <> 0 \/ w_swpds s' !! a = None)) s1).
      apply wp_bind. destruct (wi_ctx _ _ _ H1 _ _ Ha0) as (c & y & Hc & Hy).
      unfold wp at 1. rewrite (free_priv_page_run a x c y)
        by (done || (intros b Hb; destruct (wi_scratch _ _ _ H1 _ _ _ Ha0 Hb) as (g & Hg & _); eauto)).
      pose proof (wi_sound _ _ _ H1 _ _ Hy) as (Hl & _). rewrite Hl, andb_false_r. cbn.
      split; [apply winv_freed; try done; by rewrite Hl, andb_false_r|]. right. apply lookup_delete_eq. }
  destruct (w_tree s !! sp_entry x) as [old|] eqn:E; [|by apply Hone].
  change (priv_tree_insert 2 (sp_entry x) a) with (let! err := radix_tree_insert (sp_entry x) a in
    if err =? 0 then ret 1 else if err =? - EEXIST then
      let! old := radix_tree_delete (sp_entry x) in __free_priv_page old ;; priv_tree_insert 1 (sp_entry x) a
    else __free_priv_page (Some a) ;; ret 0).
  apply wp_bind. unfold wp at 1, radix_tree_insert. rewrite E. change (- EEXIST =? 0) with false. rewrite Z.eqb_refl. cbv iota.
  apply wp_bind. eapply wp_done; [done|]. cbv beta. rewrite E.
  assert (Hne : a <> old) by (intros ->; by apply (wi_loose _ _ _ H old (sp_entry x)); [left|]).
  apply wp_bind. eapply (wp_weaken (dl None)); [by intros f []|].
  eapply wp_mono; [apply (free_priv_page_spec None [a]); [by apply winv_untree|]|].
  { destruct (wi_tree _ _ _ H _ _ E) as (z & Hz & _). by exists z. }
  cbv beta. intros _ s1 (H1 & _ & Et & Es). eapply wp_weaken; [|apply Hone; [done|by rewrite Es|rewrite Et; apply lookup_delete_eq]].
  by intros f [].
Qed.

Lemma avc_loop_last l u v : avc_loop u l = inr (Some v) -> (v ∈ l /\ is_Some (vma_ctx v)) \/ (l = [] /\ u = Some v).
Proof.
  revert u. induction l as [|w l IH]; intros u; cbn; [intros [= ->]; by right|].
  destruct (match u with Some _ => _ | None => _ end); [done|]. destruct (vma_ctx w) as [c|] eqn:E; [|done].
  intros [[H1 H2]|[-> [= ->]]]%IH; left; [split; [by right|done]|split; [by left|by rewrite E]].
Qed.

Lemma add_to_priv_spec p s : winv None [] s -> reclaimable p s ->
  wp (fun f => f = UseAfterFree) (add_to_priv p) (fun _ s' => winv None [] s') s.
Proof.
  intros H Hr. pose proof Hr as (g & Hg & He & Hps & Hv). unfold add_to_priv, __add_to_priv.
  apply wp_bind. unfold wp at 1, load_page. rewrite Hg. destruct (1 <? pg_mapcount g); [done|].
  destruct (_ || _); [done|]. destruct (pg_anon_vma g) as [chain|] eqn:Ec; [|done].
  destruct (avc_loop None chain) as [rc|[v|]] eqn:El; [done| |done].
  apply avc_loop_last in El as [[Hin [c Hc]]|[_ ?]]; [|done]. rewrite Hc.
  destruct (Hv chain v c eq_refl Hin Hc) as (y & Hy & Hm). apply wp_bind. eapply (wp_weaken total); [by intros ? []|].
  eapply wp_mono; [by apply (alloc_priv_page_spec p c y)|]. cbv beta. intros [a|] s1 H1; [|done].
  destruct H1 as [H1 (x & g1 & Hx & Hxp & Hg1 & Hpe)].
  assert (Hfree : forall s2, winv None [a] s2 -> is_Some (w_swpds s2 !! a) ->
    wp (fun f => f = UseAfterFree) (__free_priv_page (Some a) ;; ret 0) (fun _ s' => winv None [] s') s2).
  { intros s2 H2 Hs. apply wp_bind. eapply (wp_weaken (dl None)); [by intros f []|].
    eapply wp_mono; [by apply free_priv_page_spec|]. cbv beta. by intros _ s3 (H3 & _). }
  apply wp_bind. cbn [__add_to_priv_tree]. apply wp_bind. unfold wp at 1, load_swpd. rewrite Hx, Hxp.
  apply wp_bind. unfold wp at 1, load_page. rewrite Hg1, Hpe.
  pose proof (wi_entry _ _ _ H1 _ _ Hx) as He1. unfold entry_ok in He1. replace (sp_entry x =? 0) with false by lia.
  apply wp_bind. destruct (alloc_run s1) as (ok & m & E). eapply wp_done; [exact E|]. set (s2 := set_mem m s1).
  assert (H2 : winv None [a] s2) by by eapply winv_irrel. destruct ok; cbn [negb].
  - eapply (wp_weaken total); [by intros ? []|]. eapply wp_mono; [by apply priv_tree_insert_spec|]. cbv beta.
    intros rc s3 [H3 Ho]. destruct (rc =? 0) eqn:Er; [|done]. destruct Ho as [Ho|Ho]; [lia|].
    unfold wp, bind, __free_priv_page, bind, load_swpd. by rewrite Ho.
  - apply Hfree; [done|]. exists x. exact Hx.
Qed.

(** *** Contexts *)

Lemma winv_new_ctx y s : winv None [] s -> ctx_sound y -> 0 <= px_pagecount y ->
  winv None [] (set_ctxs (<[w_brk s := y]> (w_ctxs s)) (set_brk (S (w_brk s)) s)).
Proof.
  intros H Hs Hp. destruct (wi_brk _ _ _ H (w_brk s) ltac:(done)) as (Hnew & _).
  destruct H as [Ht Hbk Hlo Hcx Hcnt Hsd Hen Hsc Ho Hpg Hbr]. constructor; cbn; try done.
  - intros a x Ha. destruct (Hcx _ _ Ha) as (c & z & Hc & Hz). exists c, z. split; [done|]. rewrite lookup_insert_ne; [done|congruence].
  - intros c z [[<- <-]|[Hne E]]%lookup_insert_Some; [|by apply Hcnt].
    replace (npages (w_brk s) (w_swpds s)) with 0%nat; [done|]. symmetry. apply map_size_empty_iff, map_empty.
    intros a. apply map_lookup_filter_None. right. intros x Ha E. destruct (Hcx _ _ Ha) as (c & z & Hc & Hz). simpl in E. congruence.
  - intros c z [[<- <-]|[Hne E]]%lookup_insert_Some; [done|by apply Hsd].
  - intros n Hn. destruct (Hbr n ltac:(lia)) as (H1 & H2 & H3). split_and!; try done. rewrite lookup_insert_ne by lia. done.
Qed.

Lemma priv_ctx_alloc_spec s : winv None [] s ->
  wp (fun f => f = NullDeref \/ f = WildPtr) priv_ctx_alloc (fun _ s' => winv None [] s') s.
Proof.
  intros H. unfold priv_ctx_alloc. apply wp_bind. destruct (alloc_run s) as (ok & m & E). eapply wp_done; [exact E|].
  set (s1 := set_mem m s). assert (H1 : winv None [] s1) by by eapply winv_irrel. destruct ok; cbn [negb]; [|done].
  apply wp_bind. eapply wp_done; [done|]. cbv beta. set (s2 := set_rng _ s1). assert (H2 : winv None [] s2) by by eapply winv_irrel.
  set (key := take _ _).
  apply wp_bind. destruct (alloc_run s2) as (ok & m2 & E2). eapply wp_done; [exact E2|].
  set (s3 := set_mem m2 s2). assert (H3 : winv None [] s3) by by eapply winv_irrel. destruct ok; cbn [negb]; [|done].
  apply wp_bind. eapply wp_done; [done|]. apply wp_bind. eapply wp_done; [done|]. cbv beta. set (s4 := set_ctxs _ _).
  apply wp_bind. destruct (alloc_run s4) as (ok & m3 & E3). eapply wp_done; [exact E3|]. destruct ok; cbn [negb]; [|by left].
  apply wp_bind. destruct (alloc_run (set_mem m3 s4)) as (ok & m4 & E4). eapply wp_done; [exact E4|]. destruct ok; cbn [negb]; [|by right].
  set (y := PCtx false 0 1 _). eapply winv_irrel; [apply (winv_new_ctx y s3 H3); [|done]|..]; try done.
  - split_and!; try done. intros _. eexists. split; [done|]. apply setkey_ok, fresh_ok.
  - cbn. by rewrite insert_insert_eq.
Qed.

(** The transform a page is encrypted under: every page starts at the zero IV. *)
Definition page_tfm (t : tfm) : tfm := blk_set_iv t (zeros PRIVOS_CIPHER_IV_SIZE).

Lemma page_tfm_ok t : tfm_ok t -> tfm_ok (page_tfm t).
Proof. intros H. apply set_iv_ok; [done|done|]. by repeat constructor. Qed.

Lemma crypt_page_run f c y t d s : (forall t d, tfm_ok t -> f t d = (0, next t (length d), stream_xor t d)) ->
  w_ctxs s !! c = Some y -> px_lock y = false -> px_cipher y = Some t -> tfm_ok t ->
  crypt_page f c d s = Done (stream_xor (page_tfm t) d,
    set_ctxs (<[c := with_cipher (Some (next (page_tfm t) (length d))) y]> (w_ctxs s)) s).
Proof.
  intros Hf Hy Hl Ht Hok. unfold crypt_page, bind at 1, load_ctx. rewrite Hy, Hl, Ht. fold (page_tfm t).
  by rewrite Hf by by apply page_tfm_ok.
Qed.

Lemma winv_crypted lk lo c y t s : winv lk lo s -> lk = None -> w_ctxs s !! c = Some y -> px_mapcount y <> 0 -> tfm_ok t ->
  winv lk lo (set_ctxs (<[c := with_cipher (Some t) y]> (w_ctxs s)) s).
Proof.
  intros H -> Hy Hm Ht. eapply (winv_ctx None None); [exact H|exact Hy|done| |done]. rewrite bool_decide_false by done.
  pose proof (wi_sound _ _ _ H _ _ Hy) as Hs. rewrite bool_decide_false in Hs by done. destruct Hs as (Hl & Hm0 & Hp & _).
  split_and!; simpl; try done. intros _. by exists t.
Qed.

Lemma set_untrack_spec (e : Z) (q : nat) s : winv None [] s ->
  wp total (set_swapped_bit e 0 ;; delete_from_priv e ;; ret q) (fun b s' => winv None [] s' /\ keeps None s s' /\ b = q) s.
Proof.
  intros H. apply wp_bind. eapply wp_mono; [by apply set_swapped_bit_spec|]. cbv beta. intros _ s1 (H1 & K1 & _).
  apply wp_bind. eapply (wp_weaken (dl None)); [by intros f []|]. eapply wp_mono; [by apply delete_from_priv_spec|]. cbv beta.
  intros _ s2 [H2 K2]. split; [done|]. split; [by eapply keeps_trans|done].
Qed.

(** Encrypting a page can only fault after the last reference to its context is
    gone; what it returns is a page with the same entry. *)
Lemma priv_encrypt_page_spec p g s : winv None [] s -> w_pages s !! p = Some g -> plain p s ->
  wp (fun f => f = NullDeref) (priv_encrypt_page p)
    (fun b s' => winv None [] s' /\ exists g', w_pages s' !! b = Some g' /\ pg_private g' = pg_private g) s.
Proof.
  intros H Hg Hp. unfold priv_encrypt_page. apply wp_bind. unfold wp at 1, load_page. rewrite Hg.
  apply wp_bind. eapply wp_done; [by eapply find_priv_page_run|]. cbv beta.
  assert (Hun : wp (fun f => f = NullDeref) (set_swapped_bit (pg_private g) 0 ;; delete_from_priv (pg_private g) ;; ret p)
    (fun b s' => winv None [] s' /\ exists g', w_pages s' !! b = Some g' /\ pg_private g' = pg_private g) s).
  { eapply (wp_weaken total); [by intros ? []|]. eapply wp_mono; [by apply set_untrack_spec|]. cbv beta.
    intros b s' (H' & (_ & _ & K) & ->). split; [done|]. exists g. split; [|done]. rewrite <- Hg. by apply K. }
  destruct (w_tree s !! pg_private g) as [a|] eqn:Et; [|by split; [|exists g]].
  destruct (wi_tree _ _ _ H _ _ Et) as (x & Hx & He). apply wp_bind. unfold wp at 1, load_swpd. rewrite Hx.
  destruct (wi_ctx _ _ _ H _ _ Hx) as (c & y & Hc & Hy). rewrite Hc. destruct (negb _); [exact Hun|].
  destruct (sp_scratch x) as [b|] eqn:Eb; [|exact Hun].
  destruct (wi_scratch _ _ _ H _ _ _ Hx Eb) as (gb & Hgb & Hge). apply wp_bind. unfold wp at 1, load_page. rewrite Hgb.
  replace (pg_private g =? pg_private gb) with true by (symmetry; apply Z.eqb_eq; congruence). cbn [negb].
  pose proof (wi_sound _ _ _ H _ _ Hy) as Hs. rewrite bool_decide_false in Hs by done. destruct Hs as (Hl & _ & Hz & Ht).
  apply wp_bind. destruct (decide (px_mapcount y = 0)) as [Em|Em].
  { unfold wp, crypt_page, bind at 1, load_ctx. rewrite Hy, Hl. by rewrite (proj2 (Hz Em)). }
  destruct (Ht Em) as (t & Ec & Hok). eapply wp_done; [eapply crypt_page_run; try done; apply encrypt_stream|].
  set (s1 := set_ctxs _ s). assert (H1 : winv None [] s1) by (eapply winv_crypted; try done; by apply next_ok, page_tfm_ok).
  apply wp_bind. eapply wp_done; [done|]. cbv beta. set (s2 := set_pages _ s1).
  assert (H2 : winv None [] s2) by exact (winv_page_data None [] b gb _ s1 H1 Hgb).
  apply wp_bind. eapply (wp_weaken total); [by intros ? []|]. eapply wp_mono; [by apply set_swapped_bit_spec|]. cbv beta.
  intros _ s3 (H3 & _ & Ep). split; [done|]. rewrite Ep. eexists. split; [apply lookup_insert_eq|]. simpl. congruence.
Qed.

Lemma priv_decrypt_page_spec p g s : winv None [] s -> w_pages s !! p = Some g ->
  wp total (priv_decrypt_page p) (fun _ s' => winv None [] s') s.
Proof.
  intros H Hg. unfold priv_decrypt_page. apply wp_bind. unfold wp at 1, load_page. rewrite Hg.
  apply wp_bind. eapply wp_done; [by eapply find_priv_page_run|]. cbv beta.
  destruct (w_tree s !! pg_private g) as [a|] eqn:Et; [|done].
  destruct (wi_tree _ _ _ H _ _ Et) as (x & Hx & He). apply wp_bind. unfold wp at 1, load_swpd. rewrite Hx.
  destruct (wi_ctx _ _ _ H _ _ Hx) as (c & y & Hc & Hy). rewrite Hc. apply wp_bind. unfold wp at 1, load_ctx. rewrite Hy.
  destruct (px_mapcount y =? 0) eqn:Em; [done|]. apply Z.eqb_neq in Em.
  pose proof (wi_sound _ _ _ H _ _ Hy) as Hs. rewrite bool_decide_false in Hs by done. destruct Hs as (Hl & _ & _ & Ht).
  destruct (Ht Em) as (t & Ec & Hok). apply wp_bind. eapply wp_done; [eapply crypt_page_run; try done; apply decrypt_stream|].
  set (s1 := set_ctxs _ s). assert (H1 : winv None [] s1) by (eapply winv_crypted; try done; by apply next_ok, page_tfm_ok).
  exact (winv_page_data None [] p g _ s1 H1 Hg).
Qed.

(** ** Operations as the rest of the kernel issues them *)

Inductive wop :=
  | OpAdd (p : nat)                    (* reclaim: add_to_priv *)
  | OpWrite (p : nat)                  (* swap_writepage *)
  | OpWritten (b : nat)                (* end_swap_bio_write *)
  | OpRead (p : nat)                   (* swap_readpage, end_swap_bio_read *)
  | OpFree (continued : bool) (e : Z)  (* swap_free *)
  | OpCacheFree (e : Z)                (* swapcache_free *)
  | OpAlloc                            (* priv_ctx_alloc *)
  | OpGet (c : nat)                    (* priv_ctx_get *)
  | OpPut (c : nat).                   (* priv_ctx_put *)

Definition run_op (op : wop) : M wstate unit :=
  match op with
  | OpAdd p => let! _ := add_to_priv p in ret tt
  | OpWrite p => let! _ := swap_write p in ret tt
  | OpWritten b => end_swap_bio_write b
  | OpRead p => swap_read p
  | OpFree k e => swap_free k e
  | OpCacheFree e => swapcache_free e
  | OpAlloc => let! _ := priv_ctx_alloc in ret tt
  | OpGet c => let! _ := priv_ctx_get (Some c) in ret tt
  | OpPut c => priv_ctx_put (Some c)
  end.

(** What the callers guarantee: pages exist, contexts are referenced. *)
Definition op_pre (op : wop) (s : wstate) : Prop :=
  match op with
  | OpAdd p => reclaimable p s
  | OpWrite p => is_Some (w_pages s !! p) /\ plain p s
  | OpWritten b => is_Some (w_pages s !! b)
  | OpRead p => is_Some (w_pages s !! p)
  | OpGet c => is_Some (w_ctxs s !! c)
  | OpPut c => exists y, w_ctxs s !! c = Some y /\ px_mapcount y <> 0
  | OpFree _ _ | OpCacheFree _ | OpAlloc => True
  end.

(** The faults an operation can still raise. *)
Definition op_fault (op : wop) (f : fault) : Prop :=
  match op with
  | OpAdd _ => f = UseAfterFree
  | OpWrite _ | OpWritten _ => f = NullDeref
  | OpAlloc => f = NullDeref \/ f = WildPtr
  | OpPut _ => f = UseAfterFree \/ f = Deadlock
  | OpRead _ | OpFree _ _ | OpCacheFree _ | OpGet _ => False
  end.

Lemma swap_write_spec p s : winv None [] s -> is_Some (w_pages s !! p) -> plain p s ->
  wp (fun f => f = NullDeref) (swap_write p) (fun _ s' => winv None [] s') s.
Proof.
  intros H [g Hg] Hp. unfold swap_write. apply wp_bind. unfold wp at 1, load_page at 1. rewrite Hg.
  apply wp_bind. eapply wp_mono; [by apply (priv_encrypt_page_spec p g)|]. cbv beta. intros b s1 [H1 (gb & Hgb & _)].
  apply wp_bind. unfold wp at 1, load_page. rewrite Hgb. apply wp_bind. eapply wp_done; [done|]. cbv beta. by eapply winv_irrel.
Qed.

Lemma end_swap_bio_write_spec b s : winv None [] s -> is_Some (w_pages s !! b) ->
  wp (fun f => f = NullDeref) (end_swap_bio_write b) (fun _ s' => winv None [] s') s.
Proof.
  intros H [g Hg]. unfold end_swap_bio_write. apply wp_bind. unfold wp at 1, load_page at 1. rewrite Hg.
  apply wp_bind. eapply wp_done; [by eapply find_priv_page_run|]. cbv beta.
  destruct (w_tree s !! pg_private g) as [a|] eqn:Et; [|done].
  destruct (wi_tree _ _ _ H _ _ Et) as (x & Hx & He). apply wp_bind. unfold wp at 1, load_swpd. rewrite Hx.
  destruct (sp_page x) as [p|] eqn:Ep; [|done]. destruct (wi_page _ _ _ H _ _ _ Hx Ep) as [[gp Hgp] _].
  apply wp_bind. unfold wp at 1, load_page. rewrite Hgp. eapply (wp_weaken total); [by intros ? []|]. by apply delete_scratch_page_spec.
Qed.

Lemma swap_read_spec p s : winv None [] s -> is_Some (w_pages s !! p) -> wp total (swap_read p) (fun _ s' => winv None [] s') s.
Proof.
  intros H [g Hg]. unfold swap_read. apply wp_bind. unfold wp at 1, load_page. rewrite Hg. apply wp_bind. eapply wp_done; [done|].
  apply wp_bind. eapply wp_done; [done|]. cbv beta.
  eapply priv_decrypt_page_spec; [by apply winv_page_data|cbn; apply lookup_insert_eq].
Qed.

(** ** Swapping one page *)

(** Page [p] waits for being written to entry [e]: record [a], scratch page [b],
    context [c] with transform [t]. *)
Definition tracked (e : Z) (p a b c : nat) (t : tfm) (d : bytes) (s : wstate) : Prop :=
  winv None [] s /\ w_tree s !! e = Some a /\
  (exists f, w_swpds s !! a = Some (Swpd (Some c) (Some p) (Some b) e f)) /\
  (exists g, w_pages s !! p = Some g /\ pg_private g = e /\ pg_data g = d) /\
  (exists y, w_ctxs s !! c = Some y /\ px_mapcount y <> 0 /\ px_cipher y = Some t).

#[local] Opaque zeros.

Lemma add_to_priv_run p g c y mm s :
  winv None [] s -> w_mem s = [] -> w_pages s !! p = Some g -> pg_mapcount g = 1 -> pg_rmapping g = true ->
  pg_anon_vma g = Some [Vma mm (Some c)] -> entry_ok (pg_private g) -> w_tree s !! pg_private g = None ->
  w_ctxs s !! c = Some y ->
  add_to_priv p s = Done (1,
    WS (<[c := with_counts (px_lock y) (px_pagecount y + 1) (px_mapcount y) y]> (w_ctxs s))
       (<[S (w_brk s) := Swpd (Some c) (Some p) (Some (w_brk s)) (pg_private g) 0]> (w_swpds s))
       (<[w_brk s := Page (zeros PAGE_SIZE) (pg_private g) 0 false None]> (w_pages s))
       (<[pg_private g := S (w_brk s)]> (w_tree s)) (w_map s) (w_disk s) (S (S (w_brk s))) [] (w_rng s)).
Proof.
  intros H Hm Hp Hmc Hr Ha He Ht Hc. destruct (wi_brk _ _ _ H (w_brk s) ltac:(done)) as (_ & _ & Hb).
  assert (Hpb : p <> w_brk s) by congruence. destruct s as [ctxs swpds pages tree map disk brk mem rng]. cbn in *. subst mem.
  unfold add_to_priv, __add_to_priv. erewrite bind_done; [|unfold load_page; cbn; by rewrite Hp].
  rewrite Hmc, Hr, Ha. cbn [Z.ltb Z.compare Pos.compare Pos.compare_cont orb negb avc_loop vma_ctx].
  erewrite bind_done; [|unfold __alloc_priv_page; erewrite bind_done; [|unfold priv_ctx_entry_get; erewrite bind_done; [|unfold load_ctx; cbn; by rewrite Hc]; done]].
  2: { cbn. unfold bind, load_page. cbn. rewrite lookup_insert_ne, Hp by done. cbn. rewrite lookup_insert_eq. done. }
  cbv beta iota. erewrite bind_done.
  2: { unfold __add_to_priv_tree. erewrite bind_done; [|unfold load_swpd; cbn; by rewrite lookup_insert_eq]. cbn [sp_page].
    erewrite bind_done; [|unfold load_page; cbn; rewrite lookup_insert_ne, lookup_insert_ne, Hp by done; done].
    replace (pg_private g =? 0) with false by (unfold entry_ok in He; lia).
    erewrite bind_done; [|done]. cbn [negb priv_tree_insert]. erewrite bind_done; [|unfold radix_tree_insert; cbn; rewrite Ht; done]. done. }
  cbn. by rewrite insert_insert_eq.
Qed.

Lemma add_to_priv_tracks p g c y mm t s :
  winv None [] s -> w_mem s = [] -> w_pages s !! p = Some g -> plain p s -> pg_mapcount g = 1 -> pg_rmapping g = true ->
  pg_anon_vma g = Some [Vma mm (Some c)] -> entry_ok (pg_private g) -> w_tree s !! pg_private g = None ->
  w_ctxs s !! c = Some y -> px_mapcount y <> 0 -> px_cipher y = Some t ->
  exists s', add_to_priv p s = Done (1, s') /\
    tracked (pg_private g) p (S (w_brk s)) (w_brk s) c t (pg_data g) s' /\ w_disk s' = w_disk s.
Proof.
  intros H Hm Hp Hpl Hmc Hr Ha He Ht Hc Hmp Hcy. pose proof (add_to_priv_run p g c y mm s H Hm Hp Hmc Hr Ha He Ht Hc) as E.
  destruct (wi_brk _ _ _ H (w_brk s) ltac:(done)) as (_ & _ & Hb).
  eexists. split; [exact E|]. split; [|done]. split.
  - assert (Hre : reclaimable p s).
    { exists g. split; [done|]. split; [done|]. split; [exact Hpl|]. intros ch v c' Ech Hv Hvc. rewrite Ha in Ech.
      injection Ech as <-. apply list_elem_of_singleton in Hv as ->. injection Hvc as <-. eauto. }
    exact (wp_run _ _ _ _ _ _ (add_to_priv_spec p s H Hre) E).
  - cbn. rewrite lookup_insert_eq. split; [done|]. split; [eexists; apply lookup_insert_eq|]. split.
    + exists g. rewrite lookup_insert_ne; [done|congruence].
    + eexists. rewrite lookup_insert_eq. done.
Qed.

(** The same record once the page was handed to the device. *)
Definition written (e : Z) (p a b c : nat) (t : tfm) (d : bytes) (s : wstate) : Prop :=
  winv None [] s /\ w_tree s !! e = Some a /\
  w_swpds s !! a = Some (Swpd (Some c) (Some p) (Some b) e 1) /\
  (exists g, w_pages s !! p = Some g /\ pg_private g = e /\ pg_data g = d) /\
  (exists g, w_pages s !! b = Some g /\ pg_private g = e) /\
  (exists y, w_ctxs s !! c = Some y /\ px_mapcount y <> 0 /\ px_cipher y = Some (next (page_tfm t) (length d))) /\
  w_disk s !! e = Some (stream_xor (page_tfm t) d).

Lemma swap_write_run e p a b c t d s : tracked e p a b c t d s ->
  exists s', swap_write p s = Done (b, s') /\ written e p a b c t d s' /\
    (forall e', e' <> e -> w_disk s' !! e' = w_disk s !! e') /\ w_tree s' = w_tree s /\
    (forall a', a' <> a -> w_swpds s' !! a' = w_swpds s !! a') /\ (forall p', p' <> b -> w_pages s' !! p' = w_pages s !! p').
Proof.
  intros (H & Ht & (f & Ha) & (g & Hg & He & Hd) & (y & Hy & Hm & Hc)).
  destruct (wi_page _ _ _ H _ _ _ Ha eq_refl) as [_ Hpl]. specialize (Hpl : plain p s).
  destruct (wi_scratch _ _ _ H _ _ _ Ha eq_refl) as (gb & Hb & Hbe). cbn in Hbe.
  pose proof (wi_sound _ _ _ H _ _ Hy) as Hs. rewrite bool_decide_false in Hs by done. destruct Hs as (Hl & _ & _ & Hok).
  destruct (Hok Hm) as (t' & Ec & Htok). rewrite Hc in Ec. injection Ec as <-.
  assert (Hpb : p <> b) by (intros ->; by apply (Hpl a _ Ha)).
  set (y' := with_cipher (Some (next (page_tfm t) (length d))) y). set (gb' := with_data (stream_xor (page_tfm t) d) gb).
  set (s1 := set_pages (<[b := gb']> (w_pages s)) (set_ctxs (<[c := y']> (w_ctxs s)) s)).
  set (s2 := set_swpds (<[a := Swpd (Some c) (Some p) (Some b) e 1]> (w_swpds s)) s1).
  assert (E1 : priv_encrypt_page p s = Done (b, s2)).
  { unfold priv_encrypt_page. erewrite bind_done; [|unfold load_page; by rewrite Hg]. rewrite He.
    erewrite bind_done; [|by eapply find_priv_page_run]. rewrite Ht. erewrite bind_done; [|unfold load_swpd; by rewrite Ha].
    cbn [sp_ctx sp_page sp_scratch]. rewrite bool_decide_true by done. cbn [negb].
    erewrite bind_done; [|unfold load_page; by rewrite Hb]. rewrite Hbe, Z.eqb_refl. cbn [negb].
    erewrite bind_done; [|eapply crypt_page_run; try done; apply encrypt_stream]. rewrite Hd. fold y'.
    erewrite bind_done; [|done]. fold gb'. unfold set_swapped_bit at 1. unfold bind at 1 2, find_priv_page. cbn. rewrite Ht.
    unfold bind at 1 2, load_swpd. cbn. rewrite Ha. cbn. rewrite Z.eqb_refl. cbn. rewrite Ha. done. }
  assert (E : swap_write p s = Done (b, set_disk (<[e := stream_xor (page_tfm t) d]> (w_disk s)) s2)).
  { unfold swap_write. erewrite bind_done; [|unfold load_page; by rewrite Hg]. erewrite bind_done; [|exact E1].
    erewrite bind_done; [|unfold load_page; cbn; by rewrite lookup_insert_eq]. by rewrite He. }
  eexists. split; [exact E|]. split.
  - split; [exact (wp_run _ _ _ _ _ _ (swap_write_spec p s H (ex_intro _ g Hg) Hpl) E)|]. cbn. rewrite !lookup_insert_eq, lookup_insert_ne by done.
    split; [done|]. split; [done|]. split; [by exists g|]. split; [by eexists|]. split; [by eexists|done].
  - split_and!; [intros e' He'|done|intros a' Ha'|intros p' Hp']; cbn; by apply lookup_insert_ne.
Qed.

Lemma page_tfm_again t n : tfm_ok t -> page_tfm (next (page_tfm t) n) = page_tfm t.
Proof. intros H. apply set_iv_again; done || apply length_zeros || apply bytes_ok_zeros. Qed.

(** Writing one page leaves the others waiting, with the context's next transform. *)
Lemma swap_write_others e p a b c t d s e' p' a' b' d' : tracked e p a b c t d s -> tracked e' p' a' b' c t d' s -> e <> e' ->
  exists s', swap_write p s = Done (b, s') /\ written e p a b c t d s' /\
    tracked e' p' a' b' c (next (page_tfm t) (length d)) d' s'.
Proof.
  intros Htr (_ & Ht' & (f' & Ha') & (g' & Hg' & Hge' & Hgd') & _) Hne.
  destruct (swap_write_run _ _ _ _ _ _ _ _ Htr) as (s' & E & Hw & _ & Et & Es & Ep). exists s'. split; [done|]. split; [done|].
  destruct Hw as (H' & _ & _ & _ & _ & Hy & _). destruct Htr as (H & Ht & (f & Ha) & _).
  destruct (wi_page _ _ _ H _ _ _ Ha' eq_refl) as [_ Hpl].
  assert (Haa : a' <> a) by (intros ->; apply Hne; exact (winv_tree_inj _ _ _ _ _ _ H Ht Ht')).
  assert (Hpb : p' <> b) by (intros ->; by apply (Hpl a _ Ha)).
  split; [done|]. split; [by rewrite Et|]. split; [exists f'; by rewrite Es|]. split; [exists g'; by rewrite Ep|done].
Qed.

(** The same record once the device has the page. *)
Definition stored (e : Z) (a c : nat) (t : tfm) (d : bytes) (s : wstate) : Prop :=
  winv None [] s /\ w_tree s !! e = Some a /\ w_swpds s !! a = Some (Swpd (Some c) None None e 1) /\
  (exists y, w_ctxs s !! c = Some y /\ px_mapcount y <> 0 /\ px_cipher y = Some (next (page_tfm t) (length d))) /\
  w_disk s !! e = Some (stream_xor (page_tfm t) d).

Lemma end_swap_bio_write_run e p a b c t d s : written e p a b c t d s ->
  exists s', end_swap_bio_write b s = Done (tt, s') /\ stored e a c t d s' /\ w_pages s' = delete b (w_pages s) /\
    (forall q, plain q s -> plain q s').
Proof.
  intros (H & Ht & Ha & (g & Hg & He & Hd) & (gb & Hb & Hbe) & Hy & Hdk).
  destruct (wi_page _ _ _ H _ _ _ Ha eq_refl) as [_ Hpl]. pose proof (wi_entry _ _ _ H _ _ Ha) as Hen. unfold entry_ok in Hen. cbn in Hen.
  assert (E : end_swap_bio_write b s = Done (tt, set_swpds (<[a := Swpd (Some c) None None e 1]> (w_swpds s))
    (set_pages (delete b (w_pages s)) s))).
  { unfold end_swap_bio_write. erewrite bind_done; [|unfold load_page; by rewrite Hb]. rewrite Hbe.
    erewrite bind_done; [|by eapply find_priv_page_run]. rewrite Ht. erewrite bind_done; [|unfold load_swpd; by rewrite Ha].
    cbn [sp_page]. erewrite bind_done; [|unfold load_page; by rewrite Hg]. rewrite He. unfold delete_scratch_page.
    replace (e =? 0) with false by lia. erewrite bind_done; [|by eapply find_priv_page_run]. rewrite Ht.
    erewrite bind_done; [|unfold load_swpd; by rewrite Ha]. cbn. unfold bind. by rewrite Hb. }
  eexists. split; [exact E|]. split; [|split; [done|]].
  2: { intros q Hq a' x'. cbn. intros [[<- <-]|[_ E']]%lookup_insert_Some; [done|by eapply Hq]. }
  split; [exact (wp_run _ _ _ _ _ _ (end_swap_bio_write_spec b s H (ex_intro _ gb Hb)) E)|]. cbn. rewrite lookup_insert_eq. done.
Qed.

Lemma swap_read_run e a c t d p g s : stored e a c t d s -> tfm_ok t -> w_pages s !! p = Some g -> pg_private g = e ->
  exists s', swap_read p s = Done (tt, s') /\ w_pages s' !! p = Some (with_data d g) /\ winv None [] s'.
Proof.
  intros (H & Ht & Ha & (y & Hy & Hm & Hc) & Hdk) Htok Hp He.
  pose proof (wi_sound _ _ _ H _ _ Hy) as Hs. rewrite bool_decide_false in Hs by done. destruct Hs as (Hl & _ & _ & Hok).
  set (s1 := set_pages (<[p := with_data (stream_xor (page_tfm t) d) g]> (w_pages s)) s).
  pose proof (page_tfm_again t (length d) Htok) as Hrs.
  destruct (swap_read p s) as [[[] s']|f] eqn:E; cycle 1.
  { pose proof (swap_read_spec p s H (ex_intro _ g Hp)) as W. unfold wp in W. by rewrite E in W. }
  exists s'. split; [done|]. split; [|exact (wp_run _ _ _ _ _ _ (swap_read_spec p s H (ex_intro _ g Hp)) E)].
  revert E. unfold swap_read. erewrite bind_done; [|unfold load_page; by rewrite Hp]. erewrite bind_done; [|done].
  erewrite bind_done; [|done]. rewrite He, Hdk. cbn [default]. fold s1.
  unfold priv_decrypt_page. erewrite bind_done; [|unfold load_page; cbn; by rewrite lookup_insert_eq]. cbn [pg_private with_data]. rewrite He.
  erewrite bind_done; [|eapply find_priv_page_run; by apply winv_page_data]. cbn [w_tree set_pages s1]. rewrite Ht.
  erewrite bind_done; [|unfold load_swpd; cbn; by rewrite Ha]. cbn [sp_ctx].
  erewrite bind_done; [|unfold load_ctx; cbn; by rewrite Hy]. apply Z.eqb_neq in Hm as Em. rewrite Em.
  erewrite bind_done; [|eapply crypt_page_run; try done; [apply decrypt_stream|by apply next_ok, page_tfm_ok]].
  cbn [pg_data with_data]. rewrite Hrs, stream_xor_involutive. intros [= <-]. cbn. rewrite lookup_insert_eq. done.
Qed.

Lemma swap_rewrite_run e a c t d p g s : stored e a c t d s -> w_pages s !! p = Some g -> plain p s -> pg_private g = e ->
  exists s', swap_write p s = Done (p, s') /\ w_disk s' !! e = Some (pg_data g) /\ winv None [] s'.
Proof.
  intros (H & Ht & Ha & _) Hp Hpl He. unfold swap_write. erewrite bind_done; [|unfold load_page; by rewrite Hp].
  destruct (wp_elim _ _ _ (set_untrack_spec e p s H)) as (b & s1 & E & H1 & (_ & _ & K) & ->).
  assert (Ee : priv_encrypt_page p s = Done (p, s1)).
  { unfold priv_encrypt_page. erewrite bind_done; [|unfold load_page; by rewrite Hp]. rewrite He.
    erewrite bind_done; [|by eapply find_priv_page_run]. rewrite Ht. erewrite bind_done; [|unfold load_swpd; by rewrite Ha].
    cbn [sp_ctx sp_page]. rewrite bool_decide_false by done. exact E. }
  erewrite bind_done; [|exact Ee]. destruct (K p Hpl) as [_ Kp]. rewrite Hp in Kp.
  erewrite bind_done; [|unfold load_page; by rewrite Kp]. eexists. split; [done|]. cbn. rewrite He, lookup_insert_eq.
  split; [done|]. by eapply winv_irrel.
Qed.

(** *** The last reference *)

Lemma gang_single e a i : radix_tree_gang_lookup i 64 {[e := a]} = if bool_decide (i <= e) then [a] else [].
Proof.
  unfold radix_tree_gang_lookup. rewrite map_to_list_singleton. change (merge_sort Z.le (map fst [(e, a)])) with [e].
  rewrite filter_cons. case_decide; [rewrite bool_decide_true|rewrite bool_decide_false]; try done.
  cbn. by rewrite lookup_singleton_eq.
Qed.

Lemma set_swapped_bit_run lk lo e v a x s : winv lk lo s -> w_tree s !! e = Some a -> w_swpds s !! a = Some x ->
  set_swapped_bit e v s = Done (tt, set_swpds (<[a := with_flags v x]> (w_swpds s)) s).
Proof.
  intros H Ht Ha. unfold set_swapped_bit. erewrite bind_done; [|by eapply find_priv_page_run]. rewrite Ht.
  erewrite bind_done; [|unfold load_swpd; by rewrite Ha]. done.
Qed.

(** The state the loop of [delete_all_from_priv] works in: one record, unflagged. *)
Lemma put_single e a x c y s : winv None [] s -> w_tree s = {[e := a]} -> w_swpds s !! a = Some x ->
  w_ctxs s !! c = Some y -> px_mapcount y = 1 ->
  let s1 := set_ctxs (<[c := with_counts true (px_pagecount y) 0 y]> (w_ctxs s)) s in
  exists bit s2, winv (Some c) [] s2 /\ w_tree s2 = w_tree s /\ w_ctxs s2 = w_ctxs s1 /\ w_map s2 = w_map s /\
    w_swpds s2 !! a = Some (with_flags 0 x) /\
    test_swapped_bit (sp_entry x) s1 = Done (bit, s1) /\
    (if bit then set_swapped_bit (sp_entry x) 0 else ret tt) s1 = Done (tt, s2).
Proof.
  intros H Ht Ha Hy Hm s1. pose proof (wi_sound _ _ _ H _ _ Hy) as Hs. rewrite bool_decide_false in Hs by done.
  destruct Hs as (Hl & _ & _ & Hok). destruct (Hok ltac:(lia)) as (t & Ec & Htok).
  pose proof (wi_back _ _ _ H _ _ Ha ltac:(apply not_elem_of_nil)) as Hta.
  assert (H1 : winv (Some c) [] s1).
  { eapply (winv_ctx None (Some c)); [exact H|exact Hy|done| |].
    - rewrite bool_decide_true by done. split_and!; done || by exists t.
    - intros c' Hne. rewrite !bool_decide_false by congruence. done. }
  assert (Et : test_swapped_bit (sp_entry x) s1 = Done (negb (sp_flags x =? 0), s1)).
  { unfold test_swapped_bit. erewrite bind_done; [|by eapply find_priv_page_run]. cbn [w_tree set_ctxs s1]. rewrite Hta.
    erewrite bind_done; [|unfold load_swpd; cbn; by rewrite Ha]. done. }
  exists (negb (sp_flags x =? 0)). destruct (sp_flags x =? 0) eqn:Ef; cbn [negb] in *.
  - exists s1. split_and!; try done. cbn. rewrite Ha. f_equal. apply Z.eqb_eq in Ef. destruct x; cbn in *. by subst.
  - eexists. split; [|split_and!; [..|by eapply set_swapped_bit_run]]; try done; [by eapply winv_swpd|apply lookup_insert_eq].
Qed.

Lemma swapcache_free_deadlock e a x c y s : winv (Some c) [] s -> 0 < e -> w_tree s !! e = Some a -> w_swpds s !! a = Some x ->
  sp_ctx x = Some c -> w_ctxs s !! c = Some y -> px_mapcount y = 0 -> px_pagecount y = 1 -> px_lock y = true ->
  w_map s !! e = Some SWAP_HAS_CACHE -> swapcache_free e s = Oops Deadlock.
Proof.
  intros H He Ht Ha Hc Hy Hm Hpc Hl Hmap. unfold swapcache_free. erewrite bind_done; [|done]. rewrite Hmap.
  replace (e =? 0) with false by lia. cbn [default negb andb]. change (negb (SWAP_HAS_CACHE =? 0)) with true. cbv iota.
  apply bind_oops. unfold swap_entry_free. erewrite bind_done; [|done]. cbv beta. rewrite Hmap. cbn [default].
  change (if SWAP_HAS_CACHE =? SWAP_HAS_CACHE then _ else _) with (0, 0). cbv beta iota. erewrite bind_done; [|done]. cbv beta.
  apply bind_oops. change (Z.lor 0 0 =? 0) with true. cbv iota. set (s1 := set_map _ s).
  assert (H1 : winv (Some c) [] s1) by by eapply winv_irrel.
  erewrite bind_done; [|by eapply (set_swapped_bit_run _ _ e 0 a x)]. set (s2 := set_swpds _ s1).
  assert (H2 : winv (Some c) [] s2) by by eapply winv_swpd.
  unfold delete_from_priv. replace (e =? 0) with false by lia.
  erewrite bind_done; [|unfold test_swapped_bit; erewrite bind_done; [|by eapply find_priv_page_run];
    cbn [w_tree s2 s1 set_swpds set_map]; rewrite Ht; erewrite bind_done; [|unfold load_swpd; cbn; by rewrite lookup_insert_eq]; done].
  cbn [with_flags sp_flags Z.eqb negb]. erewrite bind_done; [|done]. cbv beta. cbn [w_tree s2 s1 set_swpds set_map]. rewrite Ht.
  rewrite (free_priv_page_run a (with_flags 0 x) c y); [unfold last_use; by rewrite Hm, Hpc, Hl|apply lookup_insert_eq|done|done|].
  intros b Hb. destruct (wi_scratch _ _ _ H _ _ _ Ha Hb) as (g & Hg & _). by exists g.
Qed.
End SwapFacts.

(** ** Properties *)

Section SwapProperties.
Context {B : BlkCipher} {L : StreamCipher B}.

(** C24: safety of encrypted swap.  From every state that satisfies the invariant
    (tree and records agree, every record counts on a live context, no context is
    kept without a reference or freed with one, scratch pages have one owner),
    every operation whose caller keeps its part either ends in such a state or
    raises one of the faults named for it: [add_to_priv] frees a record twice when
    the tree cannot grow, writing meets a context without cipher, allocation does not
    check two results, and the last [priv_ctx_put] can wait for its own lock or
    read a freed record.  Reading and freeing swap never fault. *)
Theorem swap_ops_safe op s : winv None [] s -> op_pre op s ->
  wp (op_fault op) (run_op op) (fun _ s' => winv None [] s') s.
Proof.
  intros H. destruct op; cbn [op_pre op_fault run_op]; intros Hp.
  - apply wp_bind. by eapply wp_mono; [apply add_to_priv_spec|].
  - apply wp_bind. by eapply wp_mono; [destruct Hp; by apply swap_write_spec|].
  - by apply end_swap_bio_write_spec.
  - by apply swap_read_spec.
  - by apply swap_free_spec.
  - apply (wp_weaken (dl None)); [by intros f []|]. eapply wp_mono; [by apply (swapcache_free_spec None e)|]. by intros ? ? [].
  - apply wp_bind. by eapply wp_mono; [apply priv_ctx_alloc_spec|].
  - destruct Hp as [y Hy]. apply wp_bind. eapply wp_mono; [by apply (priv_ctx_get_spec c y)|]. by intros ? ? [].
  - destruct Hp as (y & Hy & Hm). apply (wp_weaken (uaf (Some c))); [intros f [->|[-> _]]; [by left|by right]|]. by apply (priv_ctx_put_spec c y).
Qed.


(** C39: writing the same page again.  The completed write forgot which page the
    record is for, so the next [swap_writepage] of that page takes the record for out
    of date, drops it and hands the page itself to the device: the contents are
    stored in clear. *)
Theorem second_write_in_clear e p a b c t d s : tracked e p a b c t d s ->
  exists s1 s2 s3, swap_write p s = Done (b, s1) /\ end_swap_bio_write b s1 = Done (tt, s2) /\
    swap_write p s2 = Done (p, s3) /\ w_disk s3 !! e = Some d.
Proof.
  intros Htr. destruct (swap_write_run _ _ _ _ _ _ _ _ Htr) as (s1 & E1 & Hw & _).
  destruct (end_swap_bio_write_run _ _ _ _ _ _ _ _ Hw) as (s2 & E2 & Hst & Ep & Hq).
  destruct Hw as (H1 & _ & Ha & (g & Hg & He & Hd) & _). destruct (wi_page _ _ _ H1 _ _ _ Ha eq_refl) as [_ Hpl].
  assert (Hpb : p <> b) by (intros ->; by apply (Hpl a _ Ha)).
  assert (Hg2 : w_pages s2 !! p = Some g) by (rewrite Ep, lookup_delete_ne; done).
  destruct (swap_rewrite_run _ _ _ _ _ p g s2 Hst Hg2 (Hq p Hpl) He) as (s3 & E3 & G3 & _). exists s1, s2, s3. by rewrite <- Hd.
Qed.

(** One key stream for all pages of a process.  Every page is encrypted from the
    zero IV, so what the device holds for two pages of one context differs exactly
    as the pages do. *)
Theorem pages_share_keystream e p a b c t d s e' p' a' b' d' :
  tracked e p a b c t d s -> tracked e' p' a' b' c t d' s -> e <> e' -> length d = length d' -> tfm_ok t ->
  exists s1 s2 x x', swap_write p s = Done (b, s1) /\ swap_write p' s1 = Done (b', s2) /\
    w_disk s2 !! e = Some x /\ w_disk s2 !! e' = Some x' /\ xor_bytes x x' = xor_bytes d d'.
Proof.
  intros Htr Htr' Hne Hl Htok. destruct (swap_write_others _ _ _ _ _ _ _ _ _ _ _ _ _ Htr Htr' Hne) as (s1 & E1 & Hw & Htr1).
  destruct (swap_write_run _ _ _ _ _ _ _ _ Htr1) as (s2 & E2 & Hw2 & Hd2 & _). eexists s1, s2, _, _.
  split; [done|]. split; [done|]. rewrite Hd2 by done. split; [apply Hw|]. split; [apply Hw2|].
  rewrite page_tfm_again by done. unfold stream_xor. rewrite <- Hl. by rewrite xor_bytes_cancel by (rewrite ?stream_length; done).
Qed.

(** The last reference to a context with a page in the swap cache.  The record
    is freed under the context's own lock, and it is the last thing that counts on the
    context: [priv_ctx_put] waits for the lock it holds. *)
Theorem last_put_deadlocks e a x p c y s :
  winv None [] s -> w_tree s = {[e := a]} -> w_swpds s !! a = Some x -> sp_ctx x = Some c -> sp_page x = Some p ->
  w_ctxs s !! c = Some y -> px_mapcount y = 1 -> px_pagecount y = 1 -> w_map s !! e = Some SWAP_HAS_CACHE ->
  priv_ctx_put (Some c) s = Oops Deadlock.
Proof.
  intros H Ht Ha Hc Hp Hy Hm Hpc Hmap. pose proof (wi_sound _ _ _ H _ _ Hy) as (Hl & _).
  pose proof (wi_back _ _ _ H _ _ Ha ltac:(apply not_elem_of_nil)) as Hta. rewrite Ht in Hta.
  apply lookup_singleton_Some in Hta as [He _]. pose proof (wi_entry _ _ _ H _ _ Ha) as Hen. unfold entry_ok in Hen.
  destruct (put_single e a x c y s H Ht Ha Hy Hm) as (bit & s2 & H2 & Et2 & Ec2 & Em2 & Ha2 & E1 & E2).
  cbn [priv_ctx_put]. erewrite bind_done; [|unfold load_ctx; by rewrite Hy]. rewrite Hm, Hl. cbn [Z.eqb Pos.eqb].
  erewrite bind_done; [|done]. apply bind_oops. unfold delete_all_from_priv. erewrite bind_done; [|done]. cbv beta.
  cbn [w_tree set_ctxs]. rewrite Ht, map_size_singleton. cbn [delete_all_loop]. erewrite bind_done; [|done]. cbn [w_tree set_ctxs].
  rewrite Ht, gang_single, bool_decide_true by lia. apply bind_oops. cbn [delete_victims].
  erewrite bind_done; [|unfold load_swpd; cbn; by rewrite Ha]. erewrite bind_done; [|exact E1]. erewrite bind_done; [|exact E2].
  rewrite Hp. apply bind_oops. rewrite <- He. apply (swapcache_free_deadlock e a (with_flags 0 x) c (with_counts true (px_pagecount y) 0 y)); try done; try lia.
  - rewrite Et2, Ht. apply lookup_singleton_eq.
  - rewrite Ec2. apply lookup_insert_eq.
  - by rewrite Em2.
Qed.

(** The end of one private process reaches the others.  [delete_all_from_priv]
    never looks at the context it is given: the last reference to [c] drops the
    swap-cache count of a page that belongs to another context. *)
Theorem last_put_hits_others e a x p c c' y s :
  winv None [] s -> w_tree s = {[e := a]} -> w_swpds s !! a = Some x -> sp_ctx x = Some c' -> c' <> c -> sp_page x = Some p ->
  w_ctxs s !! c = Some y -> px_mapcount y = 1 -> px_pagecount y = 0 -> w_map s !! e = Some (SWAP_HAS_CACHE + 1) ->
  exists s', priv_ctx_put (Some c) s = Done (tt, s') /\ w_map s' !! e = Some 1 /\
    (exists x', w_swpds s' !! a = Some x' /\ sp_ctx x' = Some c' /\ sp_page x' = Some p).
Proof.
  intros H Ht Ha Hc Hne Hp Hy Hm Hpc Hmap. pose proof (wi_sound _ _ _ H _ _ Hy) as (Hl & _ & _ & Hok).
  destruct (Hok ltac:(lia)) as (t & Ec & _). pose proof (wi_back _ _ _ H _ _ Ha ltac:(apply not_elem_of_nil)) as Hta.
  rewrite Ht in Hta. apply lookup_singleton_Some in Hta as [He _]. pose proof (wi_entry _ _ _ H _ _ Ha) as Hen. unfold entry_ok in Hen.
  destruct (put_single e a x c y s H Ht Ha Hy Hm) as (bit & s2 & H2 & Et2 & Ec2 & Em2 & Ha2 & E1 & E2).
  set (s3 := set_map (<[e := 1]> (w_map s2)) s2).
  assert (Ef : swapcache_free e s2 = Done (tt, s3)).
  { unfold swapcache_free. erewrite bind_done; [|done]. rewrite Em2, Hmap. replace (e =? 0) with false by lia.
    cbn [default negb andb]. change (negb (id (SWAP_HAS_CACHE + 1) =? 0)) with true. cbv iota.
    assert (Eu : swap_entry_free false e SWAP_HAS_CACHE s2 = Done (1, s3)).
    { unfold swap_entry_free. erewrite bind_done; [|done]. cbv beta. by rewrite Em2, Hmap. }
    by rewrite (bind_done _ _ _ _ _ Eu). }
  assert (Ev : delete_victims [a] (set_ctxs (<[c := with_counts true (px_pagecount y) 0 y]> (w_ctxs s)) s) = Done (tt, s3)).
  { cbn [delete_victims]. erewrite bind_done; [|unfold load_swpd; cbn; by rewrite Ha]. erewrite bind_done; [|exact E1].
    erewrite bind_done; [|exact E2]. rewrite Hp, <- He. by erewrite bind_done; [|exact Ef]. }
  exists (set_ctxs (delete c (w_ctxs s3)) s3). split; [|split; [apply lookup_insert_eq|by exists (with_flags 0 x)]].
  cbn [priv_ctx_put]. erewrite bind_done; [|unfold load_ctx; by rewrite Hy]. rewrite Hm, Hl. cbn [Z.eqb Pos.eqb].
  erewrite bind_done; [|done]. erewrite bind_done.
  2: { unfold delete_all_from_priv. erewrite bind_done; [|done]. cbn [w_tree set_ctxs]. rewrite Ht, map_size_singleton.
    cbn [delete_all_loop]. erewrite bind_done; [|done]. cbn [w_tree set_ctxs]. rewrite Ht, gang_single, bool_decide_true by lia.
    erewrite bind_done; [|exact Ev]. cbn [last]. erewrite bind_done; [|unfold load_swpd; cbn; by rewrite Ha2].
    cbn [sp_entry with_flags]. rewrite <- He, u64_small by lia. erewrite bind_done; [|done].
    cbn [w_tree s3 set_map]. rewrite Et2, Ht, gang_single, bool_decide_false by lia. done. }
  erewrite bind_done; [|unfold load_ctx; cbn [w_ctxs s3 set_map]; rewrite Ec2; cbn; by rewrite lookup_insert_eq].
  cbn [px_cipher with_counts px_pagecount]. by rewrite Ec, Hpc.
Qed.
End SwapProperties.

(** ** Witnesses *)

Section SwapWitness.
#[local] Existing Instance aes_cipher.

(** Two pages of one process, in the swap cache at entries 5 and 6; the context
    is the first thing allocated, at address 10. *)
Definition wit_page (e : Z) (d : bytes) : page := Page d e 1 true (Some [Vma 1 (Some 10%nat)]).
Definition wit_w0 (n : Z) : wstate :=
  WS ∅ ∅ {[0%nat := wit_page 5 [1; 2; 3]; 1%nat := wit_page 6 [4; 5; 6]]} ∅ {[5 := n]} ∅ 10 [] [7; 8; 9].
Definition wit_w1 (n : Z) : wstate := exec priv_ctx_alloc (wit_w0 n).
Definition wit_w2 (n : Z) : wstate := exec (add_to_priv 0) (wit_w1 n).
Definition wit_w3 (n : Z) : wstate := exec (add_to_priv 1) (wit_w2 n).
Definition wit_w4 (n : Z) : wstate := exec priv_ctx_alloc (wit_w2 n).

Lemma wit_winv0 n : winv None [] (wit_w0 n).
Proof.
  constructor; cbn; try (intros *; by rewrite lookup_empty).
  intros m Hm. rewrite !lookup_empty. rewrite lookup_insert_ne, lookup_singleton_ne by lia. done.
Qed.

Lemma wit_run1 n : priv_ctx_alloc (wit_w0 n) = Done (Some 10%nat, wit_w1 n).
Proof. apply (val_exec priv_ctx_alloc). vm_compute. reflexivity. Qed.

Lemma wit_winv1 n : winv None [] (wit_w1 n).
Proof. exact (wp_run _ _ _ _ _ _ (priv_ctx_alloc_spec _ (wit_winv0 n)) (wit_run1 n)). Qed.

Lemma wit_ctx1 n : exists y t, w_ctxs (wit_w1 n) !! 10%nat = Some y /\ px_mapcount y = 1 /\ px_cipher y = Some t /\ tfm_ok t.
Proof.
  destruct (w_ctxs (wit_w1 n) !! 10%nat) as [y|] eqn:E; [|discriminate (f_equal (fmap px_mapcount) E)].
  assert (Hm : px_mapcount <$> w_ctxs (wit_w1 n) !! 10%nat = Some 1) by (vm_compute; reflexivity).
  rewrite E in Hm. injection Hm as Hm. exists y. pose proof (wi_sound _ _ _ (wit_winv1 n) _ _ E) as (_ & _ & _ & Hok).
  destruct (Hok ltac:(lia)) as (t & Ht & Ho). by exists t.
Qed.

Lemma wit_plain n p : plain p (wit_w1 n).
Proof. intros a x Ha. assert (E : w_swpds (wit_w1 n) = ∅) by (vm_compute; reflexivity). by rewrite E, lookup_empty in Ha. Qed.

Lemma wit_pages1 n : w_pages (wit_w1 n) !! 0%nat = Some (wit_page 5 [1; 2; 3]) /\ w_pages (wit_w1 n) !! 1%nat = Some (wit_page 6 [4; 5; 6]).
Proof. split; vm_compute; reflexivity. Qed.

Lemma wit_add n p e d :
  w_pages (wit_w1 n) !! p = Some (wit_page e d) -> entry_ok e ->
  exists t s, tfm_ok t /\ add_to_priv p (wit_w1 n) = Done (1, s) /\ tracked e p 12 11 10 t d s.
Proof.
  intros Hp He. destruct (wit_ctx1 n) as (y & t & Hy & Hm & Hc & Ht).
  assert (Et : w_tree (wit_w1 n) = ∅) by (vm_compute; reflexivity).
  destruct (add_to_priv_tracks p (wit_page e d) 10 y 1 t (wit_w1 n)) as (s & E & Htr & _);
    [apply wit_winv1|vm_compute; reflexivity|exact Hp|apply wit_plain|reflexivity|reflexivity|reflexivity|exact He
    |by rewrite Et, lookup_empty|exact Hy|lia|exact Hc|]. exists t, s. split; [exact Ht|]. split; [exact E|exact Htr].
Qed.

Lemma wit_run2 n : add_to_priv 0 (wit_w1 n) = Done (1, wit_w2 n) /\ exists t, tracked 5 0 12 11 10 t [1; 2; 3] (wit_w2 n) /\ tfm_ok t.
Proof.
  destruct (wit_add n 0 5 [1; 2; 3]) as (t & s & Ht & E & Htr); [apply wit_pages1|unfold entry_ok; lia|].
  assert (Es : s = wit_w2 n) by (unfold wit_w2, exec; by rewrite E). rewrite <- Es. by eauto.
Qed.

Lemma swap_ops_safe_witness : wp (op_fault (OpAdd 0)) (run_op (OpAdd 0)) (fun _ s' => winv None [] s') (wit_w1 64).
Proof.
  apply (swap_ops_safe (OpAdd 0) (wit_w1 64)); [apply wit_winv1|]. exists (wit_page 5 [1; 2; 3]).
  split; [apply wit_pages1|]. split; [split; reflexivity|]. split; [apply wit_plain|].
  intros ch v c [= <-] Hv Hc. apply list_elem_of_singleton in Hv as ->. injection Hc as <-.
  destruct (wit_ctx1 64) as (y & t & Hy & Hm & _). exists y. split; [exact Hy|]. rewrite Hm. discriminate.
Defined.


Lemma second_write_in_clear_witness : exists s1 s2 s3, swap_write 0 (wit_w2 64) = Done (11%nat, s1) /\
  end_swap_bio_write 11 s1 = Done (tt, s2) /\ swap_write 0 s2 = Done (0%nat, s3) /\ w_disk s3 !! 5 = Some [1; 2; 3].
Proof.
  destruct (wit_run2 64) as [_ (t & Htr & _)]. exact (second_write_in_clear 5 0 12 11 10 t [1; 2; 3] (wit_w2 64) Htr).
Defined.

Lemma last_put_deadlocks_witness : priv_ctx_put (Some 10%nat) (wit_w2 64) = Oops Deadlock.
Proof.
  destruct (wit_run2 64) as [_ (t & (H & _ & (f & Ha) & _ & (y & Hy & _)) & _)].
  apply (last_put_deadlocks 5 12 _ 0 10 y (wit_w2 64) H ltac:(vm_compute; reflexivity) Ha eq_refl eq_refl Hy).
  - assert (E : px_mapcount <$> w_ctxs (wit_w2 64) !! 10%nat = Some 1) by (vm_compute; reflexivity). rewrite Hy in E. by injection E.
  - assert (E : px_pagecount <$> w_ctxs (wit_w2 64) !! 10%nat = Some 1) by (vm_compute; reflexivity). rewrite Hy in E. by injection E.
  - vm_compute. reflexivity.
Defined.

Lemma wit_run3 n : add_to_priv 1 (wit_w2 n) = Done (1, wit_w3 n).
Proof. unfold wit_w3. apply val_exec. vm_compute. reflexivity. Qed.

Lemma wit_reclaim2 n : reclaimable 1 (wit_w2 n).
Proof.
  destruct (wit_run2 n) as [_ (t & (H & _ & _ & _ & (y & Hy & Hm & _)) & _)].
  exists (wit_page 6 [4; 5; 6]). split; [vm_compute; reflexivity|]. split; [split; reflexivity|]. split.
  - assert (E : w_swpds (wit_w2 n) = {[12%nat := Swpd (Some 10%nat) (Some 0%nat) (Some 11%nat) 5 0]}) by (vm_compute; reflexivity).
    intros a x Ha. rewrite E in Ha. apply lookup_singleton_Some in Ha as [<- <-]. done.
  - intros ch v c [= <-] Hv Hc. apply list_elem_of_singleton in Hv as ->. injection Hc as <-. eauto.
Qed.

Lemma wit_both n : exists t, tracked 5 0 12 11 10 t [1; 2; 3] (wit_w3 n) /\ tracked 6 1 14 13 10 t [4; 5; 6] (wit_w3 n) /\ tfm_ok t.
Proof.
  destruct (wit_run2 n) as [_ (t0 & (H2 & _) & _)].
  pose proof (wp_run _ _ _ _ _ _ (add_to_priv_spec 1 _ H2 (wit_reclaim2 n)) (wit_run3 n)) as H3.
  assert (Hm : px_mapcount <$> w_ctxs (wit_w3 n) !! 10%nat = Some 1) by (vm_compute; reflexivity).
  destruct (w_ctxs (wit_w3 n) !! 10%nat) as [y|] eqn:E; [|done]. injection Hm as Hm.
  pose proof (wi_sound _ _ _ H3 _ _ E) as (_ & _ & _ & Hok). destruct (Hok ltac:(lia)) as (t & Ht & Ho). exists t.
  split; [|split; [|done]]; (split; [exact H3|]; split; [vm_compute; reflexivity|]; split; [exists 0; vm_compute; reflexivity|];
    split; [eexists; split; [vm_compute; reflexivity|split; reflexivity]|exists y; split; [exact E|split; [lia|exact Ht]]]).
Qed.

Lemma pages_share_keystream_witness : exists s1 s2 x x', swap_write 0 (wit_w3 64) = Done (11%nat, s1) /\ swap_write 1 s1 = Done (13%nat, s2) /\
  w_disk s2 !! 5 = Some x /\ w_disk s2 !! 6 = Some x' /\ xor_bytes x x' = [5; 7; 5].
Proof.
  destruct (wit_both 64) as (t & H1 & H2 & Ht).
  exact (pages_share_keystream 5 0 12 11 10 t [1; 2; 3] (wit_w3 64) 6 1 14 13 [4; 5; 6] H1 H2 ltac:(discriminate) eq_refl Ht).
Defined.

Lemma wit_run4 n : priv_ctx_alloc (wit_w2 n) = Done (Some 13%nat, wit_w4 n).
Proof. unfold wit_w4. apply val_exec. vm_compute. reflexivity. Qed.

Lemma last_put_hits_others_witness : exists s', priv_ctx_put (Some 13%nat) (wit_w4 65) = Done (tt, s') /\ w_map s' !! 5 = Some 1.
Proof.
  destruct (wit_run2 65) as [_ (t & (H2 & _) & _)].
  pose proof (wp_run _ _ _ _ _ _ (priv_ctx_alloc_spec _ H2) (wit_run4 65)) as H.
  assert (Hm : px_mapcount <$> w_ctxs (wit_w4 65) !! 13%nat = Some 1) by (vm_compute; reflexivity).
  assert (Hp : px_pagecount <$> w_ctxs (wit_w4 65) !! 13%nat = Some 0) by (vm_compute; reflexivity).
  destruct (w_ctxs (wit_w4 65) !! 13%nat) as [y|] eqn:E; [|done]. injection Hm as Hm. injection Hp as Hp.
  destruct (last_put_hits_others 5 12 (Swpd (Some 10%nat) (Some 0%nat) (Some 11%nat) 5 0) 0 13 10 y (wit_w4 65) H) as (s' & E1 & E2 & _);
    [vm_compute; reflexivity|vm_compute; reflexivity|reflexivity|discriminate|reflexivity|exact E|exact Hm|exact Hp|vm_compute; reflexivity|].
  exists s'. split; [exact E1|exact E2].
Defined.
End SwapWitness.
