(* ===== verification/LibPriv.v ===== *)
(** * The user-side library

    crypto/libprivcrypt: a process makes a context ([priv_crypt.c]), connects it
    to a context in the kernel over /dev/priv_crypt_ctl ([kern_backend.c]),
    agrees on a key ([polarssl_kex.c]) and then encrypts or decrypts what it
    exchanges with the kernel's channels ([aesni.c]).  The kernel is the driver of
    [Driver]; PolarSSL is a record of functions here, and what the exchange relies
    on of the two sides is the class [KexAgree]; [RealSession] has the record of the
    real functions. *)

From S2P Require Import Prelude BlkCipher Ctr AesCipher PrivCrypt Kex Driver.

Definition PRIV_CRYPT_SOME_ERR : Z := 1.
Definition PRIV_CRYPT_NO_ALG : Z := 2.
Definition PRIV_OPTION_TEST_KEX : Z := 1.
Definition PRIV_OPTION_DIR_DEC : Z := 2.
Definition PRIV_CRYPT_KEX_PARAMS : Z := 1.
Definition MAX_CRYPT_LEN : nat := (16 * 256)%nat.

Section Lib.
Context `{BC : BlockCipher}.

(** ** Process state *)

(** The kernel, the process's allocator and what its freed memory held. *)
Record lstate := LS {
  l_k : kstate;
  l_mem : list bool;        (* malloc and open: true fails *)
  l_live : Z;               (* blocks not freed *)
  l_freed : list bytes;     (* contents of freed key schedules *)
  l_rng : bytes;            (* gcry_randomize *)
  l_fd : nat;               (* the next file *)
}.
Abbreviation U := (M lstate).

Definition set_lk (k : kstate) (s : lstate) : lstate := LS k (l_mem s) (l_live s) (l_freed s) (l_rng s) (l_fd s).
Definition sys {A} (m : M kstate A) : U A := zoom l_k set_lk m.

Definition malloc : U bool := fun s =>
  match l_mem s with
  | true :: m => Done (false, LS (l_k s) m (l_live s) (l_freed s) (l_rng s) (l_fd s))
  | m => Done (true, LS (l_k s) (drop 1 m) (l_live s + 1) (l_freed s) (l_rng s) (l_fd s))
  end.
Definition free : U unit := modify (fun s => LS (l_k s) (l_mem s) (l_live s - 1) (l_freed s) (l_rng s) (l_fd s)).
Definition free_region (b : bytes) : U unit :=
  modify (fun s => LS (l_k s) (l_mem s) (l_live s - 1) (b :: l_freed s) (l_rng s) (l_fd s)).

(** ** aesni.c *)

(** [struct aesni_state].  Of the key schedule its first bytes, the key itself. *)
Record aesni_state := Aesni { as_key : bytes; as_iv : bytes }.

(** [priv_aesni_init]; [junk] is what the allocated memory holds. *)
Definition priv_aesni_init (junk : aesni_state) (alg : Z) : U (Z * option aesni_state) :=
  let! ok := malloc in
  if negb ok then ret (- PRIV_CRYPT_SOME_ERR, None) else
  if negb (alg =? PRIV_CRYPT_ALG_AES_CTR) then free ;; ret (- PRIV_CRYPT_NO_ALG, None) else
  let! ok := malloc in
  if negb ok then free ;; ret (- PRIV_CRYPT_SOME_ERR, None) else
  ret (0, Some junk).

(** [aesni_set_key] (aesni-intel_asm.S): the low byte of the length selects how much
    of the key is used; it cannot fail. *)
Definition aesni_set_key (key : bytes) (key_len : Z) : Z * bytes :=
  (0, take (if u8 key_len <? 24 then 16 else if u8 key_len =? 24 then 24 else 32) key).

(** [priv_aesni_set_key], [priv_aesni_set_iv] *)
Definition priv_aesni_set_key (user_ctx : option aesni_state) (len : Z) (key : bytes) : Z * option aesni_state :=
  match user_ctx with
  | None => (- PRIV_CRYPT_SOME_ERR, None)
  | Some st =>
      let '(rc, k) := aesni_set_key key len in
      if truthy rc then (- PRIV_CRYPT_SOME_ERR, Some st) else (0, Some (Aesni k (as_iv st)))
  end.
Definition priv_aesni_set_iv (user_ctx : option aesni_state) (len : Z) (iv : bytes) : Z * option aesni_state :=
  match user_ctx with
  | None => (- PRIV_CRYPT_SOME_ERR, None)
  | Some st =>
      if negb (len =? 16) then (- PRIV_CRYPT_SOME_ERR, Some st)
      else (0, Some (Aesni (as_key st) (take (Z.to_nat len) iv)))
  end.

(** [priv_aesni_crypt]: status, state, data.  [last] is the uninitialised block on
    the stack. *)
Definition priv_aesni_crypt (last : bytes) (user_ctx : option aesni_state) (data : bytes) : Z * option aesni_state * bytes :=
  match user_ctx with
  | None => (- PRIV_CRYPT_SOME_ERR, None, data)
  | Some st =>
      let len := length data in
      let most_len := if (16 <? len)%nat then (len - len mod 16)%nat else 0%nat in
      let '(out, iv) :=
        if (16 <? len)%nat then aesni_ctr_enc (as_key st) (as_iv st) (take most_len data) most_len else ([], as_iv st) in
      let rest := drop most_len data in
      if (0 <? length rest)%nat then
        let '(blk, iv) := aesni_ctr_enc (as_key st) iv (splice 0 rest last) 16 in
        (0, Some (Aesni (as_key st) iv), out ++ take (length rest) blk)
      else (0, Some (Aesni (as_key st) iv), out)
  end.
Definition priv_aesni_encrypt := priv_aesni_crypt.
Definition priv_aesni_decrypt := priv_aesni_crypt.

(** [priv_aesni_destroy]: [sizeof(st->aesni_ctx)] is the size of a pointer, and [st]
    itself is not freed. *)
Definition priv_aesni_destroy (user_ctx : option aesni_state) : U unit :=
  match user_ctx with
  | None => ret tt
  | Some st => free_region (splice 0 (zeros 8) (as_key st))
  end.

(** ** polarssl_kex.c *)

(** What the library calls of PolarSSL: the two [mpi_read_string] of
    [get_public], [mpi_size(&ctx->P)], [dhm_make_params], [dhm_read_public],
    [mpi_exp_mod] into [K], [dhm_check_range], [mpi_write_binary] of [K], and
    [tls1_prf]. *)
Record polarssl := Polarssl {
  dhm_context : Type;
  dhm_zero : dhm_context;
  read_public_params : dhm_context -> Z * dhm_context;
  size_P : dhm_context -> Z;
  dhm_make_params : dhm_context -> Z -> (nat -> bytes) -> Z * dhm_context * bytes;
  dhm_read_public : dhm_context -> bytes -> Z * dhm_context;
  exp_mod_K : dhm_context -> Z * dhm_context;
  dhm_check_range : dhm_context -> Z;
  write_K : dhm_context -> Z * bytes;
  tls1_prf : bytes -> bytes -> bytes -> nat -> Z * bytes;
}.

Inductive kex_state := KEX_START | KEX_INIT_SENT | KEX_DONE.

Section Polarssl.
Variable P : polarssl.

(** [struct polarssl_kex_ctx] *)
Record polarssl_kex_ctx := PKex { pk_key_size : Z; pk_key : bytes; pk_dhm : dhm_context P; pk_state : kex_state }.

(** [polarssl_init] *)
Definition polarssl_init (junk : bytes) (key_size : Z) : U (option polarssl_kex_ctx) :=
  let! ok := malloc in
  if negb ok then ret None else
  let! ok := malloc in
  if negb ok then free ;; ret None else
  ret (Some (PKex key_size (take (Z.to_nat key_size) junk) (dhm_zero P) KEX_START)).

(** [null_rng] *)
Definition null_rng (n : nat) : bytes := replicate n 1.

(** [max_dhm_buf_size] *)
Definition max_dhm_buf_size (d : dhm_context P) : Z := 3 * (size_P P d + 2) + 2.

(** [make_params] *)
Definition make_params (d : dhm_context P) : Z * dhm_context P * bytes :=
  let '(rc, d, msg) := dhm_make_params P d (size_P P d) null_rng in
  if truthy rc then (rc, d, msg) else (0, d, msg ++ [0; 0]).

Definition POLARSSL_ERR_DHM_CALC_SECRET_FAILED : Z := - 13056.  (* -0x3300 *)

(** [calc_pre_secret] *)
Definition calc_pre_secret (d : dhm_context P) : Z * dhm_context P :=
  let '(ret, d) := exp_mod_K P d in
  if truthy ret then (POLARSSL_ERR_DHM_CALC_SECRET_FAILED + ret, d) else
  let ret := dhm_check_range P d in
  if truthy ret then (ret, d) else (0, d).

(** "master secret" and "key expansion" *)
Definition lbl_master : bytes := [109; 97; 115; 116; 101; 114; 32; 115; 101; 99; 114; 101; 116].
Definition lbl_expand : bytes := [107; 101; 121; 32; 101; 120; 112; 97; 110; 115; 105; 111; 110].

(** [calc_secret]; [pre_master] comes from [malloc]. *)
Definition calc_secret (key_len : nat) (d : dhm_context P) : U (Z * bytes) :=
  let! ok := malloc in
  if negb ok then ret (-1, []) else
  let '(rc, pre_master) := write_K P d in
  if rc <? 0 then free ;; ret (rc, []) else
  let random := seqZ 0 64 in
  let '(rc, master) := tls1_prf P pre_master lbl_master random 48 in
  if rc <? 0 then free ;; ret (rc, []) else
  let random := drop 32 random ++ take 32 random in
  let '(rc, key) := tls1_prf P master lbl_expand random key_len in
  if rc <? 0 then free ;; ret (rc, []) else
  free ;; ret (0, key).

(** [polarssl_process_msg]: the status, the context and the message to send *)
Definition polarssl_process_msg (ctx : polarssl_kex_ctx) (in_buf : bytes) : U (Z * polarssl_kex_ctx * bytes) :=
  match pk_state ctx with
  | KEX_START =>
      let '(rc, d) := read_public_params P (pk_dhm ctx) in
      let ctx := PKex (pk_key_size ctx) (pk_key ctx) d KEX_START in
      if rc <? 0 then ret (rc, ctx, []) else
      if Z.of_nat MAX_KEX_MSG_LEN - 1 <? max_dhm_buf_size d then ret (- PRIV_CRYPT_SOME_ERR, ctx, []) else
      let '(rc, d, msg) := make_params d in
      if rc <? 0 then ret (rc, PKex (pk_key_size ctx) (pk_key ctx) d KEX_START, []) else
      ret (1, PKex (pk_key_size ctx) (pk_key ctx) d KEX_INIT_SENT, PRIV_CRYPT_KEX_PARAMS :: msg)
  | KEX_INIT_SENT =>
      if (length in_buf <? 1)%nat then ret (- PRIV_CRYPT_SOME_ERR, ctx, []) else
      if negb (default 0 (in_buf !! 0%nat) =? PRIV_CRYPT_KEX_RESPONSE) then ret (- PRIV_CRYPT_SOME_ERR, ctx, []) else
      let '(rc, d) := dhm_read_public P (pk_dhm ctx) (drop 1 in_buf) in
      let ctx := PKex (pk_key_size ctx) (pk_key ctx) d KEX_INIT_SENT in
      if rc <? 0 then ret (-1, ctx, []) else
      let '(rc, d) := calc_pre_secret d in
      let ctx := PKex (pk_key_size ctx) (pk_key ctx) d KEX_INIT_SENT in
      if rc <? 0 then ret (-1, ctx, []) else
      let! r := calc_secret (Z.to_nat (pk_key_size ctx)) d in
      if fst r <? 0 then ret (-1, ctx, []) else
      ret (0, PKex (pk_key_size ctx) (snd r) d KEX_DONE, [])
  | KEX_DONE => ret (0, ctx, [])
  end.

(** [polarssl_get_key], [polarssl_destroy] *)
Definition polarssl_get_key (ctx : polarssl_kex_ctx) : Z * bytes := (0, pk_key ctx).
Definition polarssl_destroy (ctx : polarssl_kex_ctx) : U Z := free ;; free ;; ret 0.

(** [struct priv_kex_ops]: [process_msg] takes the message received and gives the
    status, the context and the message to send. *)
Record priv_kex_ops := KexOps {
  kx_ctx : Type;
  kx_init : Z -> U (option kx_ctx);
  kx_get_key : kx_ctx -> Z * bytes;
  kx_process_msg : kx_ctx -> bytes -> U (Z * kx_ctx * bytes);
  kx_destroy : kx_ctx -> U Z;
}.

(** [polarssl_kex_ops]; [junk] is what the memory for the key holds. *)
Definition polarssl_kex_ops (junk : bytes) : priv_kex_ops := {|
  kx_init := polarssl_init junk;
  kx_get_key := polarssl_get_key;
  kx_process_msg := polarssl_process_msg;
  kx_destroy := polarssl_destroy;
|}.
End Polarssl.

(** ** test_kex.c and null_kex.c *)

(** "This is a test." *)
Definition test_msg : bytes := [84; 104; 105; 115; 32; 105; 115; 32; 97; 32; 116; 101; 115; 116; 46].

(** [test_process_msg]; the context is [msg_done].  Before a reply the shared buffer
    still holds the message sent. *)
Definition test_process_msg (msg_done : bool) (in_buf : bytes) : U (Z * bool * bytes) :=
  if msg_done then
    if default PRIV_CRYPT_KEX_DEBUG (in_buf !! 0%nat) =? PRIV_CRYPT_KEX_DEBUG then ret (0, msg_done, []) else ret (-1, msg_done, [])
  else ret (1, true, PRIV_CRYPT_KEX_DEBUG :: test_msg).

Definition test_kex_ops : priv_kex_ops := {|
  kx_init := fun _ => let! ok := malloc in ret (if ok then Some false else None);
  kx_get_key := fun _ => (-1, []);
  kx_process_msg := test_process_msg;
  kx_destroy := fun _ => free ;; ret 0;
|}.

Definition null_kex_ops : priv_kex_ops := {|
  kx_init := fun key_size => let! ok := malloc in ret (if ok then Some key_size else None);
  kx_get_key := fun key_size => (0, u8 <$> seqZ 0 key_size);
  kx_process_msg := fun c _ => ret (0, c, []);
  kx_destroy := fun _ => free ;; ret 0;
|}.

(** ** kern_backend.c *)

(** [struct kern_backend] *)
Record kern_backend := KernBackend { kb_fd : nat; kb_id : Z }.

(** [cctx->backend_ctx]: never assigned, NULL, or a backend *)
Inductive backend_ptr := BUninit | BNull | BKern (b : kern_backend).

(** Which key exchange [cctx->kex_ops] selects. *)
Inductive kex_choice := Polarssl_kex | Test_kex.

(** [struct priv_cctx]; [user_ops] is the AES-NI table, [backend_ops] the kernel's. *)
Record priv_cctx := PC {
  pc_alg : Z;
  pc_key_size : Z;
  pc_iv_size : Z;
  pc_iv : bytes;
  pc_dir : Z;
  pc_user : option aesni_state;
  pc_backend : backend_ptr;
  pc_kex : kex_choice;
}.
Definition with_user (u : option aesni_state) (c : priv_cctx) : priv_cctx :=
  PC (pc_alg c) (pc_key_size c) (pc_iv_size c) (pc_iv c) (pc_dir c) u (pc_backend c) (pc_kex c).
Definition with_backend (b : backend_ptr) (c : priv_cctx) : priv_cctx :=
  PC (pc_alg c) (pc_key_size c) (pc_iv_size c) (pc_iv c) (pc_dir c) (pc_user c) b (pc_kex c).

Section Kern.
Variable P : polarssl.
Variable ops : option (@dhm_kex_ops ctr_aes).
Variable pid : Z.

Definition no_arg : uarg := UArg None None None None.

(** [ioctl] of the C library: an error is -1. *)
Definition ioctl (fd : nat) (cmd : Z) (arg : uarg) : U (Z * uout) :=
  let! r := sys (priv_crypt_ioctl ops pid fd cmd arg) in
  ret (if fst r <? 0 then -1 else fst r, snd r).

(** [open("/dev/priv_crypt_ctl")] and [close] *)
Definition open : U (option nat) :=
  let! ok := malloc in
  if negb ok then ret None else
  let! fd := gets l_fd in
  modify (fun s => LS (l_k s) (l_mem s) (l_live s - 1) (l_freed s) (l_rng s) (S fd)) ;;
  let! _ := sys (priv_crypt_open fd) in
  ret (Some fd).
Definition close (fd : nat) : U unit := let! _ := sys (priv_crypt_release fd) in ret tt.

(** [priv_cmd_new_ctx]: the status as an unsigned id *)
Definition priv_cmd_new_ctx (fd : nat) (cctx : priv_cctx) : U Z :=
  let! r := ioctl fd PRIV_CRYPT_CMD_NEW_CTX (UArg (Some (AlgDesc (pc_alg cctx) (pc_key_size cctx) (pc_dir cctx))) None None None) in
  ret (u32 (fst r)).

(** [kern_init]: status and backend; an unsigned id is never below zero. *)
Definition kern_init (cctx : priv_cctx) : U (Z * option kern_backend) :=
  let! ok := malloc in
  if negb ok then ret (- PRIV_CRYPT_SOME_ERR, None) else
  let! o := open in
  match o with
  | None => free ;; ret (- PRIV_CRYPT_SOME_ERR, None)
  | Some fd =>
      let! id := priv_cmd_new_ctx fd cctx in
      if id <? 0 then close fd ;; free ;; ret (- PRIV_CRYPT_SOME_ERR, None) else
      ret (0, Some (KernBackend fd id))
  end.

(** [kern_set_iv]; [junk] is the rest of the descriptor on the stack. *)
Definition kern_set_iv (junk : bytes) (b : kern_backend) (len : Z) (iv : bytes) : U Z :=
  let desc := IvDesc len (splice 0 (take (Z.to_nat len) iv) junk) in
  let! r := ioctl (kb_fd b) PRIV_CRYPT_CMD_SET_IV (UArg None None (Some desc) None) in
  ret (if fst r <? 0 then - PRIV_CRYPT_SOME_ERR else 0).

(** [kern_send_kex_msg]: the status and the reply *)
Definition kern_send_kex_msg (b : kern_backend) (msg : bytes) : U (Z * bytes) :=
  let! r := ioctl (kb_fd b) PRIV_CRYPT_CMD_KEY_EXCHANGE
    (UArg None None None (Some (KexDesc (length msg) (Some msg) true true))) in
  if fst r <? 0 then ret (- PRIV_CRYPT_SOME_ERR, []) else
  let out_size := default 0 (fst (snd r)) in
  ret (if 0 <? out_size then 1 else 0, default [] (snd (snd r))).

(** [kern_destroy] *)
Definition kern_destroy (b : kern_backend) : U unit :=
  let! _ := ioctl (kb_fd b) PRIV_CRYPT_CMD_DESTROY no_arg in
  close (kb_fd b) ;;
  free.

(** [priv_cmd_activation] and [kern_set_activation] *)
Definition kern_set_activation (b : kern_backend) (dir : bool) : U Z :=
  let! r := ioctl (kb_fd b) (if dir then PRIV_CRYPT_CMD_ACTIVATE else PRIV_CRYPT_CMD_DEACTIVATE) no_arg in
  ret (if fst r <? 0 then - PRIV_CRYPT_SOME_ERR else 0).

(** [kern_crypt]: the data is copied to a descriptor on the stack and back. *)
Definition kern_crypt (b : kern_backend) (data : bytes) : U (Z * bytes) :=
  if (MAX_CRYPT_LEN <? length data)%nat then oops OutOfBounds else
  let! r := ioctl (kb_fd b) PRIV_CRYPT_CMD_DEBUG_CRYPT no_arg in
  ret (fst r, data).

(** [kern_per_backend]; [req_data] is [None] for NULL. *)
Definition kern_per_backend (b : kern_backend) (req_data : option Z) : Z * option Z :=
  match req_data with
  | None => (- PRIV_CRYPT_SOME_ERR, None)
  | Some _ => (0, Some (kb_id b))
  end.

(** ** priv_crypt.c *)

(** [priv_set_option] *)
Definition priv_set_option (cctx : priv_cctx) (option : Z) : Z * priv_cctx :=
  if option =? PRIV_OPTION_TEST_KEX then
    (0, PC (pc_alg cctx) (pc_key_size cctx) (pc_iv_size cctx) (pc_iv cctx) (pc_dir cctx) (pc_user cctx) (pc_backend cctx) Test_kex)
  else if option =? PRIV_OPTION_DIR_DEC then
    (0, PC (pc_alg cctx) (pc_key_size cctx) (pc_iv_size cctx) (pc_iv cctx) PRIV_CRYPT_DIR_DEC (pc_user cctx) (pc_backend cctx) (pc_kex cctx))
  else (- PRIV_CRYPT_SOME_ERR, cctx).

(** [get_iv_size], as the [uint32_t] it is stored in *)
Definition get_iv_size (alg : Z) : Z := if alg =? PRIV_CRYPT_ALG_AES_CTR then 16 else u32 (-1).

Definition get_random_bytes (n : nat) : U bytes := fun s =>
  Done (take n (l_rng s ++ zeros n), LS (l_k s) (l_mem s) (l_live s) (l_freed s) (drop n (l_rng s)) (l_fd s)).

(** [priv_create_cctx]; [junk_u] and [junk_iv] are what the allocated memory holds. *)
Definition priv_create_cctx (junk_u : aesni_state) (junk_iv : bytes) (alg key_size : Z) : U (Z * option priv_cctx) :=
  if negb (priv_crypt_alg_valid alg) then ret (- PRIV_CRYPT_NO_ALG, None) else
  let! ok := malloc in
  if negb ok then ret (- PRIV_CRYPT_SOME_ERR, None) else
  let! r := priv_aesni_init junk_u alg in
  if fst r <? 0 then free ;; ret (fst r, None) else
  let iv_size := get_iv_size alg in
  let! rnd := get_random_bytes (Z.to_nat iv_size) in
  let iv := splice 0 rnd junk_iv in
  let '(rc, u) := priv_aesni_set_iv (snd r) iv_size iv in
  if rc <? 0 then free ;; ret (rc, None) else
  ret (0, Some (PC alg key_size iv_size iv PRIV_CRYPT_DIR_ENC u BUninit Polarssl_kex)).

(** [priv_destroy_cctx]: the structure itself is not freed. *)
Definition priv_destroy_cctx (cctx : priv_cctx) : U unit :=
  match pc_backend cctx with
  | BUninit => oops Uninit
  | BNull => ret tt
  | BKern b => kern_destroy b
  end ;;
  priv_aesni_destroy (pc_user cctx).

(** The table [cctx->kex_ops] points to. *)
Definition kex_ops_of (junk : bytes) (k : kex_choice) : priv_kex_ops :=
  match k with Polarssl_kex => polarssl_kex_ops P junk | Test_kex => test_kex_ops end.

(** The loop of [do_kex]: the last status and the exchange's context.  Both
    exchanges send at most one message, so three rounds are enough. *)
Fixpoint kex_loop (fuel : nat) (b : kern_backend) (kx : priv_kex_ops) (ctx : kx_ctx kx) (in_buf : bytes) : U (Z * kx_ctx kx) :=
  match fuel with
  | O => oops Bug
  | S n =>
      let! r := kx_process_msg kx ctx in_buf in
      let '(rc, ctx, msg) := r in
      if rc <? 1 then ret (rc, ctx) else
      let! r := kern_send_kex_msg b msg in
      if 0 <=? fst r then kex_loop n b kx ctx (snd r) else ret (fst r, ctx)
  end.

(** [do_kex] *)
Definition do_kex (junk : bytes) (cctx : priv_cctx) (b : kern_backend) : U (Z * priv_cctx) :=
  let kx := kex_ops_of junk (pc_kex cctx) in
  let! o := kx_init kx (pc_key_size cctx) in
  match o with
  | None => ret (- PRIV_CRYPT_SOME_ERR, cctx)
  | Some ctx =>
      let! r := kex_loop 3 b kx ctx [] in
      let '(rc, ctx) := r in
      let '(rc, key) := if rc =? 0 then kx_get_key kx ctx else (rc, []) in
      let! _ := kx_destroy kx ctx in
      if rc =? 0 then
        let '(rc, u) := priv_aesni_set_key (pc_user cctx) (pc_key_size cctx) key in
        ret (rc, with_user u cctx)
      else ret (rc, cctx)
  end.

(** [priv_new_backend]; [junk] and [junk_iv] are uninitialised memory. *)
Definition priv_new_backend (junk junk_iv : bytes) (cctx : priv_cctx) : U (Z * priv_cctx) :=
  let! r := kern_init cctx in
  match r with
  | (rc, None) => ret (rc, cctx)
  | (_, Some b) =>
      let cctx := with_backend (BKern b) cctx in
      let! r := do_kex junk cctx b in
      let '(rc, cctx) := r in
      if rc <? 0 then kern_destroy b ;; ret (rc, with_backend BNull cctx) else
      let! rc := kern_set_iv junk_iv b (pc_iv_size cctx) (pc_iv cctx) in
      if rc <? 0 then kern_destroy b ;; ret (rc, with_backend BNull cctx) else
      ret (0, cctx)
  end.

(** [cctx->backend_ctx], dereferenced by the backend's operations *)
Definition get_backend (cctx : priv_cctx) : U kern_backend :=
  match pc_backend cctx with
  | BUninit => oops Uninit
  | BNull => oops NullDeref
  | BKern b => ret b
  end.

(** [priv_get_id]; [id] is [None] for NULL. *)
Definition priv_get_id (cctx : priv_cctx) (id : option Z) : U (Z * option Z) :=
  match id with
  | None => ret (- PRIV_CRYPT_SOME_ERR, None)
  | Some _ =>
      let! b := get_backend cctx in
      let '(rc, id) := kern_per_backend b id in
      ret (if rc <? 0 then - PRIV_CRYPT_SOME_ERR else 0, id)
  end.

(** [priv_remote_crypt] *)
Definition priv_remote_crypt (cctx : priv_cctx) (data : bytes) : U (Z * bytes) :=
  let! b := get_backend cctx in
  let! r := kern_crypt b data in
  ret (if fst r <? 0 then - PRIV_CRYPT_SOME_ERR else 0, snd r).

(** [priv_crypt]; [last] as for [priv_aesni_crypt] *)
Definition priv_crypt (last : bytes) (cctx : priv_cctx) (data : bytes) : Z * priv_cctx * bytes :=
  let '(rc, u, out) :=
    if pc_dir cctx =? PRIV_CRYPT_DIR_ENC then priv_aesni_decrypt last (pc_user cctx) data
    else priv_aesni_encrypt last (pc_user cctx) data in
  (rc, with_user u cctx, out).

(** [priv_activate] and [priv_deactivate] *)
Definition priv_set_active (on : bool) (cctx : priv_cctx) : U Z :=
  let! b := get_backend cctx in
  kern_set_activation b on.
Definition priv_activate := priv_set_active true.
Definition priv_deactivate := priv_set_active false.
End Kern.
End Lib.

(** ** The AES-NI path against the kernel's counter mode *)

Section AesniFacts.
Context `{BC : BlockCipher}.

Lemma last_block key iv r last : (0 < length r <= 16)%nat -> length last = 16%nat ->
  take (length r) (fst (ctr_ref key iv (splice 0 r last))) = fst (ctr_ref key iv r) /\
  snd (ctr_ref key iv (splice 0 r last)) = snd (ctr_ref key iv r).
Proof.
  intros Hr Hl. assert (Hs : length (splice 0 r last) = 16%nat) by (rewrite length_splice; lia).
  unfold ctr_ref, ctr_adv. cbn [fst snd]. rewrite Hs, (nblocks_small (length r)), (nblocks_small 16) by lia. split; [|done].
  unfold keystream. rewrite (nblocks_small (length r)), (nblocks_small 16) by lia. set (k := ks_blocks key iv 1).
  assert (Hk : length k = 16%nat) by apply length_ks_blocks. rewrite (take_ge k 16) by lia.
  unfold splice. rewrite take_0. cbn [app Nat.add]. rewrite <- (take_drop (length r) k) at 1.
  rewrite xor_bytes_app by (rewrite length_take; lia). rewrite take_app_length'; [done|].
  rewrite length_xor_bytes, length_take. lia.
Qed.

Lemma priv_aesni_crypt_ref last key iv data : iv_ok iv -> length last = 16%nat ->
  priv_aesni_crypt last (Some (Aesni key iv)) data
  = (0, Some (Aesni key (snd (ctr_ref key iv data))), fst (ctr_ref key iv data)).
Proof.
  intros Hiv Hl. unfold priv_aesni_crypt. cbn [as_key as_iv]. set (n := length data).
  set (m := if (16 <? n)%nat then (n - n mod 16)%nat else 0%nat).
  assert (Hm : exists q, m = (16 * q)%nat /\ (m <= n)%nat /\ (n - m <= 16)%nat).
  { unfold m. destruct (Nat.ltb_spec 16 n).
    - exists (n / 16)%nat. pose proof (Nat.div_mod n 16). pose proof (Nat.mod_upper_bound n 16). lia.
    - exists 0%nat. lia. }
  destruct Hm as (q & Hq & Hmn & Hrest).
  assert (Hbulk : (if (16 <? n)%nat then aesni_ctr_enc key iv (take m data) m else ([], iv)) = ctr_ref key iv (take m data)).
  { assert (Ht : length (take m data) = m) by (rewrite length_take; lia). destruct (16 <? n)%nat eqn:E.
    - rewrite <- Ht at 2. by apply (aesni_ctr_enc_ref key iv (take m data) q); [|lia].
    - unfold m. by rewrite take_0, ctr_ref_nil. }
  rewrite Hbulk. clearbody m.
  replace (ctr_ref key iv data) with (ctr_ref key iv (take m data ++ drop m data)) by (by rewrite take_drop).
  rewrite (ctr_ref_split key iv _ _ q) by (rewrite length_take; lia).
  destruct (ctr_ref key iv (take m data)) as [out iv1] eqn:E1.
  assert (Hiv1 : iv_ok iv1) by (injection E1 as _ <-; by apply ctr_adv_ok).
  set (r := drop m data). assert (Hr : length r = (n - m)%nat) by (unfold r; rewrite length_drop; done).
  destruct (Nat.ltb_spec 0 (length r)) as [Hpos|H0].
  - destruct (last_block key iv1 r last) as [Ha Hb]; [lia|done|].
    assert (Hs : length (splice 0 r last) = 16%nat) by (rewrite length_splice; lia).
    pose proof (aesni_ctr_enc_ref key iv1 (splice 0 r last) 1 Hiv1 Hs) as Hone. rewrite Hs in Hone. rewrite Hone.
    destruct (ctr_ref key iv1 (splice 0 r last)) as [blk iv2]. cbn [fst snd] in *. rewrite Ha, Hb. by destruct (ctr_ref key iv1 r).
  - assert (r = []) as -> by (apply nil_length_inv; lia). rewrite ctr_ref_nil. cbn. by rewrite app_nil_r.
Qed.
End AesniFacts.

(** ** Properties *)

Section LibProperties.
Context `{BC : BlockCipher}.

(** C14: On every message the library's AES-NI path, which hands whole blocks to the
    assembly and pads the rest on the stack, gives the bytes and the counter that the
    kernel's "ctr(aes)" transform gives with the same key and counter; what the stack
    block held before does not show. *)
Theorem user_crypt_is_kernel_crypt last (t : ctr_tfm) data :
  iv_ok (t_iv t) -> length last = 16%nat ->
  let '(rc, t', out) := ctr_blkcipher_crypt t data in
  priv_aesni_crypt last (Some (Aesni (t_key t) (t_iv t))) data = (rc, Some (Aesni (t_key t') (t_iv t')), out).
Proof.
  intros Hiv Hl. unfold ctr_blkcipher_crypt. rewrite crypto_ctr_crypt_ref by done.
  rewrite priv_aesni_crypt_ref by done. by destruct (ctr_ref _ _ _).
Qed.
End LibProperties.

Section LibWitness.
#[local] Existing Instance aes_cipher.

Lemma user_crypt_is_kernel_crypt_witness :
  priv_aesni_crypt (repeat 77 16) (Some (Aesni [1; 2] wit_iv)) (repeat 5 35)
  = (0, Some (Aesni [1; 2] (snd (crypto_ctr_crypt [1; 2] wit_iv (repeat 5 35)))), fst (crypto_ctr_crypt [1; 2] wit_iv (repeat 5 35))).
Proof.
  refine (user_crypt_is_kernel_crypt (repeat 77 16) (CtrTfm [1; 2] wit_iv) (repeat 5 35) _ eq_refl).
  split; [reflexivity|]. repeat constructor; lia.
Defined.
End LibWitness.
