(* ===== verification/LibAesNi.v ===== *)
(** src/crypto/libprivcrypt/aesni.c on top of its assembly: the functions of [LibPriv] that set
    the key and encrypt, with the calls to [aesni_set_key] and [aesni_ctr_enc] run on the
    machine of [AesNi] instead of on the model of [Ctr].  The two agree step by step. *)

From Stdlib Require Import ZArith Lia List.
From stdpp Require Import base list numbers.
From S2P Require Import Prelude Fips197 Ctr AesCipher AesNi AesNiModes LibPriv.

Set Default Proof Using "Type".

Open Scope Z_scope.

#[local] Existing Instance aes_cipher.

(** ** The calls *)

(** [struct aesni_state]: the 484 bytes of [struct aes_ctx], aligned, and the vector *)
Record asm_state := Asm { am_ctx : bytes; am_iv : bytes }.

Section Calls.
(** What the registers hold when a function is entered, and a bound on loop iterations *)
Context (regs : nat -> state) (fuel : nat).

Definition call_set_key (st : asm_state) (in_key : bytes) (key_len : Z) : outcome (Z * asm_state) :=
  let m := Machine regs (fun g => match g with RDI => Ptr CTX 0 | RSI => Ptr IN_KEY 0 | RDX => Int key_len | _ => Int 0 end)
    (fun r => match r with CTX => am_ctx st | IN_KEY => in_key | DATA => [] | IVEC => am_iv st end) in
  match AesNi.aesni_set_key m with
  | Done (rc, m') => Done (rc, Asm (mem m' CTX) (am_iv st))
  | Oops f => Oops f
  end.

(** [aesni_ctr_enc(st->aesni_ctx, data, data, len, st->iv)] *)
Definition call_ctr_enc (st : asm_state) (data : bytes) (len : nat) : outcome (bytes * asm_state) :=
  let m := Machine regs
    (fun g => match g with RDI => Ptr CTX 0 | RSI | RDX => Ptr DATA 0 | RCX => Int len | R8 => Ptr IVEC 0 | _ => Int 0 end)
    (fun r => match r with CTX => am_ctx st | IN_KEY => [] | DATA => data | IVEC => am_iv st end) in
  match AesNiModes.aesni_ctr_enc fuel m with
  | Done (_, m') => Done (mem m' DATA, Asm (mem m' CTX) (mem m' IVEC))
  | Oops f => Oops f
  end.

(** ** aesni.c *)

(** [priv_aesni_set_key] *)
Definition asm_set_key (user_ctx : option asm_state) (len : Z) (key : bytes) : outcome (Z * option asm_state) :=
  match user_ctx with
  | None => Done (- PRIV_CRYPT_SOME_ERR, None)
  | Some st =>
      match call_set_key st key len with
      | Done (rc, st) => Done (if truthy rc then - PRIV_CRYPT_SOME_ERR else 0, Some st)
      | Oops f => Oops f
      end
  end.

(** [priv_aesni_crypt]: status, state, data.  [last] is the uninitialised block on the stack. *)
Definition asm_crypt (last : bytes) (user_ctx : option asm_state) (data : bytes) : outcome (Z * option asm_state * bytes) :=
  match user_ctx with
  | None => Done (- PRIV_CRYPT_SOME_ERR, None, data)
  | Some st =>
      let len := length data in
      let most_len := if (16 <? len)%nat then (len - len mod 16)%nat else 0%nat in
      match (if (16 <? len)%nat then call_ctr_enc st data most_len else Done (data, st)) with
      | Oops f => Oops f
      | Done (data, st) =>
          let rest := drop most_len data in
          if (0 <? length rest)%nat then
            match call_ctr_enc st (splice 0 rest last) 16 with
            | Done (blk, st) => Done (0, Some st, take most_len data ++ take (length rest) blk)
            | Oops f => Oops f
            end
          else Done (0, Some st, data)
      end
  end.
End Calls.

(** ** Simulation *)

(** A state of the assembly is one of the model: the context has the schedule of its key. *)
Record related (st : asm_state) (a : aesni_state) : Prop := {
  rl_key : bytes_ok (as_key a);
  rl_size : key_size (length (as_key a));
  rl_ctx : expanded_ctx (as_key a) (am_ctx st);
  rl_iv : am_iv st = as_iv a;
  rl_ok : iv_ok (as_iv a);
}.

Lemma call_set_key_ok regs st key : length (am_ctx st) = 484%nat -> key_size (length key) ->
  exists st', call_set_key regs st key (length key) = Done (0, st') /\ expanded_ctx key (am_ctx st') /\ am_iv st' = am_iv st.
Proof.
  intros Hl Hn. unfold call_set_key. set (m := Machine regs _ _). assert (C : called key m) by by split.
  destruct (wp_elim _ _ _ (set_key_ok key m C Hn)) as (rc & m' & E & -> & Hs). rewrite E. eexists. by split.
Qed.

Lemma call_ctr_enc_ok regs fuel st a data len : related st a -> (len <= length data)%nat -> Z.of_nat len < 2 ^ 63 -> (len < 16 * S fuel)%nat ->
  let '(out, iv) := Ctr.aesni_ctr_enc (as_key a) (as_iv a) data len in
  exists st', call_ctr_enc regs fuel st data len = Done (out, st') /\ related st' (Aesni (as_key a) iv).
Proof.
  intros [R1 R2 R3 R4 R5] Hl Hmax Hf. unfold call_ctr_enc. set (m := Machine regs _ _).
  assert (C : ctr_call (am_ctx st) (as_iv a) [] data len m) by by split.
  destruct (wp_elim _ _ _ (ctr_enc_ok (as_key a) (am_ctx st) (as_iv a) [] data len fuel m R1 R2 R3 R5 C Hl Hmax Hf)) as ([] & m' & E & H). rewrite E.
  destruct (Ctr.aesni_ctr_enc (as_key a) (as_iv a) data len) as [out iv]. destruct H as (Hd & Hi & Hv & Hx). exists (Asm (mem m' CTX) (mem m' IVEC)).
  split; [by rewrite Hd|]. by split.
Qed.

(** Counter mode on the head of a buffer leaves the rest of it. *)
Section Rest.
Context (key r : bytes).

Lemma loop1_rest fuel : forall iv inp len, (len <= length inp)%nat -> (16 <= len)%nat ->
  aesni_ctr_loop1 fuel key iv (inp ++ r) len = let '(o, v, l) := aesni_ctr_loop1 fuel key iv inp len in (o ++ r, v, l).
Proof.
  induction fuel as [|fuel IH]; intros iv inp len Hl H16; [done|]. cbn [aesni_ctr_loop1]. unfold aesni_block. rewrite take_app_le, drop_app_le by lia.
  destruct (Nat.leb_spec 16 (len - 16)); [|by rewrite app_assoc]. rewrite IH by (rewrite ?length_drop; lia).
  destruct (aesni_ctr_loop1 fuel key _ (drop 16 inp) (len - 16)) as [[o v] l]. by rewrite app_assoc.
Qed.

Lemma loop4_rest fuel : forall iv inp len, (len <= length inp)%nat -> (64 <= len)%nat ->
  aesni_ctr_loop4 fuel key iv (inp ++ r) len = let '(o, v, l) := aesni_ctr_loop4 fuel key iv inp len in (o ++ r, v, l).
Proof.
  induction fuel as [|fuel IH]; intros iv inp len Hl H64; [done|]. cbn [aesni_ctr_loop4].
  assert (S : forall j, (j + 16 <= 64)%nat -> slice j 16 (inp ++ r) = slice j 16 inp)
    by (intros j Hj; unfold slice; rewrite drop_app_le by lia; apply take_app_le; rewrite length_drop; lia).
  rewrite !S, drop_app_le by lia. set (out := _ ++ _ ++ _ ++ _). set (iv' := Ctr.aesni_inc (Ctr.aesni_inc _)).
  destruct (Nat.leb_spec 64 (len - 64)); [|destruct (Nat.ltb_spec (len - 64) 16)].
  - rewrite IH by (rewrite ?length_drop; lia). destruct (aesni_ctr_loop4 fuel key iv' (drop 64 inp) (len - 64)) as [[o v] l]. by rewrite app_assoc.
  - by rewrite app_assoc.
  - rewrite loop1_rest by (rewrite ?length_drop; lia). destruct (aesni_ctr_loop1 (len - 64) key iv' (drop 64 inp) (len - 64)) as [[o v] l]. by rewrite app_assoc.
Qed.

Lemma ctr_enc_rest iv inp len : (len <= length inp)%nat ->
  Ctr.aesni_ctr_enc key iv (inp ++ r) len = let '(o, v) := Ctr.aesni_ctr_enc key iv inp len in (o ++ r, v).
Proof.
  intros Hl. unfold Ctr.aesni_ctr_enc. destruct (Nat.ltb_spec len 16); [done|]. destruct (Nat.ltb_spec len 64).
  - rewrite loop1_rest by lia. by destruct (aesni_ctr_loop1 len key iv inp len) as [[o v] l].
  - rewrite loop4_rest by lia. by destruct (aesni_ctr_loop4 len key iv inp len) as [[o v] l].
Qed.
End Rest.

Lemma length_ctr_enc key iv data m : iv_ok iv -> length data = (16 * m)%nat -> length (fst (Ctr.aesni_ctr_enc key iv data (length data))) = length data.
Proof.
  intros Hiv Hl. rewrite (aesni_ctr_enc_ref key iv data m) by done. unfold ctr_ref. cbn [fst]. by rewrite length_xor_bytes, length_keystream, Nat.min_id.
Qed.

(** The first call of [priv_aesni_crypt], for the whole blocks *)
Lemma whole_blocks_ok regs fuel st a data : related st a -> Z.of_nat (length data) < 2 ^ 63 -> (length data < 16 * S fuel)%nat ->
  let len := length data in
  let most_len := (len - len mod 16)%nat in
  let '(out, iv) := Ctr.aesni_ctr_enc (as_key a) (as_iv a) (take most_len data) most_len in
  length out = most_len /\ exists st', call_ctr_enc regs fuel st data most_len = Done (out ++ drop most_len data, st') /\ related st' (Aesni (as_key a) iv).
Proof.
  intros R Hmax Hf len most_len. assert (Hm : (most_len <= len)%nat) by (unfold most_len; lia).
  assert (H16 : most_len = (16 * (len / 16))%nat) by (unfold most_len; pose proof (Nat.div_mod len 16); lia).
  assert (Ht : length (take most_len data) = most_len) by (rewrite length_take; fold len; lia).
  pose proof (length_ctr_enc (as_key a) (as_iv a) (take most_len data) (len / 16) (rl_ok _ _ R) ltac:(lia)) as L. rewrite Ht in L.
  pose proof (call_ctr_enc_ok regs fuel st a data most_len R Hm ltac:(unfold len in *; lia) ltac:(unfold len in *; lia)) as C.
  pose proof (ctr_enc_rest (as_key a) (drop most_len data) (as_iv a) (take most_len data) most_len ltac:(lia)) as E. rewrite take_drop in E. rewrite E in C.
  destruct (Ctr.aesni_ctr_enc (as_key a) (as_iv a) (take most_len data) most_len) as [out iv]. done.
Qed.

(** The second call, for what is left *)
Lemma last_block_ok regs fuel last st a rest out : related st a -> length last = 16%nat -> (length rest <= 16)%nat -> (1 <= fuel)%nat ->
  exists st' a' o,
    (if (0 <? length rest)%nat then
       match call_ctr_enc regs fuel st (splice 0 rest last) 16 with
       | Done (blk, st) => Done (0, Some st, out ++ take (length rest) blk)
       | Oops f => Oops f
       end
     else Done (0, Some st, out ++ rest)) = Done (0, Some st', o) /\
    (if (0 <? length rest)%nat then
       let '(blk, iv) := Ctr.aesni_ctr_enc (as_key a) (as_iv a) (splice 0 rest last) 16 in
       (0, Some (Aesni (as_key a) iv), out ++ take (length rest) blk)
     else (0, Some (Aesni (as_key a) (as_iv a)), out)) = (0, Some a', o) /\ related st' a'.
Proof.
  intros R Hlast Hr Hf. destruct (Nat.ltb_spec 0 (length rest)) as [H0|H0].
  - assert (Hs : length (splice 0 rest last) = 16%nat) by (rewrite length_splice; lia).
    pose proof (call_ctr_enc_ok regs fuel st a (splice 0 rest last) 16 R ltac:(lia) ltac:(lia) ltac:(lia)) as C.
    destruct (Ctr.aesni_ctr_enc (as_key a) (as_iv a) (splice 0 rest last) 16) as [blk iv]. destruct C as (st' & -> & R'). eauto 10.
  - exists st, (Aesni (as_key a) (as_iv a)), out. destruct rest; [|cbn in H0; lia]. rewrite app_nil_r. split_and!; [done..|]. by destruct a.
Qed.

(** C17 The user side of a channel is sound down to its instructions.  Setting a key of 16, 24
    or 32 bytes through the assembly leaves a state related to that of the model, and from
    related states [priv_aesni_crypt] on the assembly and on the model return the same status
    and the same data and stay related: the model of [LibPriv], over the block function of
    FIPS 197, loses nothing.  No call faults, whatever the registers held. *)
Theorem user_cipher_refined regs fuel :
  (forall st a key, length (am_ctx st) = 484%nat -> am_iv st = as_iv a -> iv_ok (as_iv a) -> bytes_ok key -> key_size (length key) ->
    exists st' a', asm_set_key regs (Some st) (length key) key = Done (0, Some st') /\ priv_aesni_set_key (Some a) (length key) key = (0, Some a') /\ related st' a') /\
  (forall st a last data, related st a -> length last = 16%nat -> Z.of_nat (length data) < 2 ^ 63 -> (length data < 16 * S fuel)%nat -> (1 <= fuel)%nat ->
    exists st' a' out, asm_crypt regs fuel last (Some st) data = Done (0, Some st', out) /\ priv_aesni_crypt last (Some a) data = (0, Some a', out) /\ related st' a').
Proof.
  split.
  - intros st a key Hl Hi Hv Hk Hn. unfold asm_set_key. destruct (call_set_key_ok regs st key Hl Hn) as (st' & -> & Hs & Hi'). eexists _, _. split; [done|].
    unfold priv_aesni_set_key, aesni_set_key. cbn [truthy Z.eqb negb]. split; [done|].
    rewrite take_ge by (destruct Hn as [-> | [-> | ->]]; apply Nat.leb_le; reflexivity). split; try done. by rewrite Hi'.
  - intros st a last data R Hlast Hmax Hf Hf1. unfold asm_crypt, priv_aesni_crypt. destruct (Nat.ltb_spec 16 (length data)) as [H16|H16].
    + pose proof (whole_blocks_ok regs fuel st a data R Hmax Hf) as W. cbv zeta in W. set (most := (length data - length data mod 16)%nat) in *.
      destruct (Ctr.aesni_ctr_enc (as_key a) (as_iv a) (take most data) most) as [out iv]. destruct W as (Lo & st1 & -> & R1).
      rewrite drop_app_length', take_app_length' by done. apply (last_block_ok regs fuel last st1 (Aesni (as_key a) iv)); [done|done| |done].
      rewrite length_drop. unfold most. pose proof (Nat.mod_upper_bound (length data) 16). lia.
    + rewrite drop_0, take_0. by apply (last_block_ok regs fuel last st a data []).
Qed.

(** A key of 32 bytes set on fresh memory, then 70 bytes encrypted *)
Definition key32 : bytes := Z.of_nat <$> seq 1 32.

Lemma user_cipher_refined_witness :
  exists st a, asm_set_key (fun _ => to_state (zeros 16)) (Some (Asm (zeros 484) ones16)) 32 key32 = Done (0, Some st) /\
    exists st' a' out, asm_crypt (fun _ => to_state (zeros 16)) 8 (zeros 16) (Some st) (zeros 70) = Done (0, Some st', out) /\
      priv_aesni_crypt (zeros 16) (Some a) (zeros 70) = (0, Some a', out).
Proof.
  destruct (user_cipher_refined (fun _ => to_state (zeros 16)) 8) as [HK HC].
  assert (Hv : iv_ok ones16) by (split; [reflexivity|apply bytes_ok_check; vm_compute; reflexivity]).
  destruct (HK (Asm (zeros 484) ones16) (Aesni [] ones16) key32) as (st & a & E & _ & R);
    [reflexivity|reflexivity|exact Hv|apply bytes_ok_check; vm_compute; reflexivity|right; right; reflexivity|].
  exists st, a. split; [exact E|]. destruct (HC st a (zeros 16) (zeros 70) R) as (st' & a' & out & E1 & E2 & _); [reflexivity|rewrite length_zeros; lia|rewrite length_zeros; lia|lia|].
  exists st', a', out. split; [exact E1|exact E2].
Defined.
