(* ===== verification/GpuAes.v ===== *)
(** * The display's block cipher

    src/host/gpu/aes: the counter arithmetic and the AES-128 functions that every thread of the
    graphics processor runs (aes.cu), and the key expansion the processor does for them
    (aes_cpu.cpp).  They compute the cipher of FIPS 197; the counter arithmetic is exact except
    that a counter that overflows before the last chunk of an addition is one too large. *)

From S2P Require Import Prelude Fips197 AesGeneric GpuTables.

(** ** The counter *)

Definition MAXVAL : Z := 0xFF.

(** The loop over the bytes of [plus], from the last one; [tmp_y] and [carry] are added *)
Fixpoint plus_bytes (n : nat) (tmp_y carry : Z) (v : bytes) : bytes * Z :=
  match n with
  | O => (v, carry)
  | S i =>
      if negb (MAXVAL =? at_ v i) && (tmp_y <=? MAXVAL - carry - at_ v i)
      then (<[i := u8 (at_ v i + tmp_y + carry)]> v, 0)
      else plus_bytes i 0 1 (<[i := u8 (tmp_y - (MAXVAL + 1 - at_ v i - carry))]> v)
  end.

(** The loop over the chunks of [y]; the carry of a chunk stays for the next one *)
Fixpoint plus_loop (fuel : nat) (j carry : Z) (v : bytes) : bytes :=
  match fuel with
  | O => v
  | S fuel =>
      if j <=? 0 then v else
      let '(v, carry) := plus_bytes 16 (if MAXVAL <? j then MAXVAL else j) carry v in
      plus_loop fuel (j - MAXVAL) carry v
  end.

(** [struct bigint] as the 16 bytes it has in memory.  [y] is converted to [int]. *)
Definition gpu_bigint_plus (x : bytes) (y : Z) : bytes := plus_loop (Z.to_nat (s32 y / MAXVAL + 1)) (s32 y) 0 x.

(** [plus] of aes_cpu.cpp, the same text on the processor *)
Definition bigint_plus (x : bytes) (y : Z) : bytes := plus_loop (Z.to_nat (s32 y / MAXVAL + 1)) (s32 y) 0 x.

(** ** The transformations *)

Definition SBOX (i : Z) : Z := at_ Sbox (Z.to_nat i).
Definition INVSBOX (i : Z) : Z := at_ InvSbox (Z.to_nat i).
Definition XTIMEE (i : Z) : Z := at_ XtimeE (Z.to_nat i).
Definition XTIMEB (i : Z) : Z := at_ XtimeB (Z.to_nat i).
Definition XTIMED (i : Z) : Z := at_ XtimeD (Z.to_nat i).
Definition XTIME9 (i : Z) : Z := at_ Xtime9 (Z.to_nat i).

(** [union Int4Char], as its four bytes *)
Definition i8 (c : bytes) (k : nat) : Z := at_ c k.
Definition set_i8 (k : nat) (v : Z) (c : bytes) : bytes := <[k := v]> c.
Definition i32 (c : bytes) : Z := le_value c.
Definition set_i32 (z : Z) : bytes := le_bytes 4 z.

Definition FETCH_COL (input : bytes) (col : nat) : bytes := slice (4 * col) 4 input.
Definition SAVE_COL (out input : bytes) (col : nat) : bytes := splice (4 * col) input out.

Definition _ShiftRows_opt (input : bytes) : bytes :=
  let col0 := FETCH_COL input 0 in
  let col1 := FETCH_COL input 1 in
  let col2 := FETCH_COL input 2 in
  let col3 := FETCH_COL input 3 in
  let col0 := set_i8 0 (SBOX (i8 col0 0)) col0 in
  let col1 := set_i8 0 (SBOX (i8 col1 0)) col1 in
  let col2 := set_i8 0 (SBOX (i8 col2 0)) col2 in
  let col3 := set_i8 0 (SBOX (i8 col3 0)) col3 in
  let tmp1 := SBOX (i8 col0 1) in
  let col0 := set_i8 1 (SBOX (i8 col1 1)) col0 in
  let col1 := set_i8 1 (SBOX (i8 col2 1)) col1 in
  let col2 := set_i8 1 (SBOX (i8 col3 1)) col2 in
  let col3 := set_i8 1 tmp1 col3 in
  let tmp2 := SBOX (i8 col0 2) in
  let tmp3 := SBOX (i8 col1 2) in
  let col0 := set_i8 2 (SBOX (i8 col2 2)) col0 in
  let col1 := set_i8 2 (SBOX (i8 col3 2)) col1 in
  let col2 := set_i8 2 tmp2 col2 in
  let col3 := set_i8 2 tmp3 col3 in
  let tmp3 := SBOX (i8 col3 3) in
  let col3 := set_i8 3 (SBOX (i8 col2 3)) col3 in
  let col2 := set_i8 3 (SBOX (i8 col1 3)) col2 in
  let col1 := set_i8 3 (SBOX (i8 col0 3)) col1 in
  let col0 := set_i8 3 tmp3 col0 in
  SAVE_COL (SAVE_COL (SAVE_COL (SAVE_COL input col0 0) col1 1) col2 2) col3 3.

Definition _InvShiftRows_opt (input : bytes) : bytes :=
  let col0 := FETCH_COL input 0 in
  let col1 := FETCH_COL input 1 in
  let col2 := FETCH_COL input 2 in
  let col3 := FETCH_COL input 3 in
  let col0 := set_i8 0 (INVSBOX (i8 col0 0)) col0 in
  let col1 := set_i8 0 (INVSBOX (i8 col1 0)) col1 in
  let col2 := set_i8 0 (INVSBOX (i8 col2 0)) col2 in
  let col3 := set_i8 0 (INVSBOX (i8 col3 0)) col3 in
  let tmp1 := INVSBOX (i8 col3 1) in
  let col3 := set_i8 1 (INVSBOX (i8 col2 1)) col3 in
  let col2 := set_i8 1 (INVSBOX (i8 col1 1)) col2 in
  let col1 := set_i8 1 (INVSBOX (i8 col0 1)) col1 in
  let col3 := set_i8 1 tmp1 col3 in
  let tmp2 := INVSBOX (i8 col0 2) in
  let tmp3 := INVSBOX (i8 col1 2) in
  let col0 := set_i8 2 (INVSBOX (i8 col2 2)) col0 in
  let col1 := set_i8 2 (INVSBOX (i8 col3 2)) col1 in
  let col2 := set_i8 2 tmp2 col2 in
  let col3 := set_i8 2 tmp3 col3 in
  let tmp3 := INVSBOX (i8 col0 3) in
  let col0 := set_i8 3 (INVSBOX (i8 col1 3)) col0 in
  let col1 := set_i8 3 (INVSBOX (i8 col2 3)) col1 in
  let col2 := set_i8 3 (INVSBOX (i8 col0 3)) col2 in
  let col3 := set_i8 3 tmp3 col3 in
  SAVE_COL (SAVE_COL (SAVE_COL (SAVE_COL input col0 0) col1 1) col2 2) col3 3.

(** [state[i] = v] *)
Definition put (i : nat) (v : Z) (state : bytes) : bytes := <[i := v]> state.

Definition _InvShiftRows (state : bytes) : bytes :=
  let g i s := INVSBOX (at_ s i) in
  let s := put 0 (g 0%nat state) state in
  let s := put 4 (g 4%nat s) s in
  let s := put 8 (g 8%nat s) s in
  let s := put 12 (g 12%nat s) s in
  let tmp := g 13%nat s in
  let s := put 13 (g 9%nat s) s in
  let s := put 9 (g 5%nat s) s in
  let s := put 5 (g 1%nat s) s in
  let s := put 1 tmp s in
  let tmp := g 2%nat s in
  let tmp2 := g 6%nat s in
  let s := put 2 (g 10%nat s) s in
  let s := put 6 (g 14%nat s) s in
  let s := put 10 tmp s in
  let s := put 14 tmp2 s in
  let tmp := g 3%nat s in
  let s := put 3 (g 7%nat s) s in
  let s := put 7 (g 11%nat s) s in
  let s := put 11 (g 15%nat s) s in
  put 15 tmp s.

(** The four rows of the product of a column with the inverse polynomial *)
Definition inv_e (c : bytes) : Z := Z.lxor (Z.lxor (Z.lxor (XTIMEE (i8 c 0)) (XTIMEB (i8 c 1))) (XTIMED (i8 c 2))) (XTIME9 (i8 c 3)).
Definition inv_9 (c : bytes) : Z := Z.lxor (Z.lxor (Z.lxor (XTIME9 (i8 c 0)) (XTIMEE (i8 c 1))) (XTIMEB (i8 c 2))) (XTIMED (i8 c 3)).
Definition inv_d (c : bytes) : Z := Z.lxor (Z.lxor (Z.lxor (XTIMED (i8 c 0)) (XTIME9 (i8 c 1))) (XTIMEE (i8 c 2))) (XTIMEB (i8 c 3)).
Definition inv_b (c : bytes) : Z := Z.lxor (Z.lxor (Z.lxor (XTIMEB (i8 c 0)) (XTIMED (i8 c 1))) (XTIME9 (i8 c 2))) (XTIMEE (i8 c 3)).

Definition _InvMixSubColumns_opt (state : bytes) : bytes :=
  let col0 := FETCH_COL state 0 in
  let col1 := FETCH_COL state 1 in
  let col2 := FETCH_COL state 2 in
  let col3 := FETCH_COL state 3 in
  let state := SAVE_COL state [INVSBOX (inv_e col0); INVSBOX (inv_9 col3); INVSBOX (inv_d col2); INVSBOX (inv_b col1)] 0 in
  let state := SAVE_COL state [INVSBOX (inv_e col1); INVSBOX (inv_9 col0); INVSBOX (inv_d col3); INVSBOX (inv_b col2)] 1 in
  let state := SAVE_COL state [INVSBOX (inv_e col2); INVSBOX (inv_9 col1); INVSBOX (inv_d col0); INVSBOX (inv_b col3)] 2 in
  SAVE_COL state [INVSBOX (inv_e col3); INVSBOX (inv_9 col2); INVSBOX (inv_d col1); INVSBOX (inv_b col0)] 3.

(** [tmp] holds the products at the places they are shifted to. *)
Definition _InvMixSubColumns (state tmp : bytes) : bytes :=
  let column k tmp (p0 p1 p2 p3 : nat) :=
    let c := slice (4 * k) 4 state in
    put p3 (inv_b c) (put p2 (inv_d c) (put p1 (inv_9 c) (put p0 (inv_e c) tmp))) in
  let tmp := column 0%nat tmp 0%nat 5%nat 10%nat 15%nat in
  let tmp := column 1%nat tmp 4%nat 9%nat 14%nat 3%nat in
  let tmp := column 2%nat tmp 8%nat 13%nat 2%nat 7%nat in
  let tmp := column 3%nat tmp 12%nat 1%nat 6%nat 11%nat in
  foldl (fun s i => put i (INVSBOX (at_ tmp i)) s) state (seq 0 16).

Definition xtime32 (x : Z) : Z :=
  Z.lxor (u32 (Z.land (Z.shiftr x 7) 0x01010101 * 0x1b)) (Z.land (u32 (Z.shiftl x 1)) 0xfefefefe).

Definition MixColumn (ib : Z) : Z :=
  let ibTmp := Z.lor (Z.shiftr ib 8) (u32 (Z.shiftl ib 24)) in
  let ibTmp := Z.lxor ibTmp ib in
  let ib := Z.lxor ib (xtime32 ibTmp) in
  let ibTmp := Z.lxor ibTmp (Z.lor (u32 (Z.shiftl ibTmp 16)) (Z.shiftr ibTmp 16)) in
  Z.lxor ib ibTmp.

Definition _MixColumns_opt (state : bytes) : bytes :=
  let col0 := set_i32 (MixColumn (i32 (FETCH_COL state 0))) in
  let col1 := set_i32 (MixColumn (i32 (FETCH_COL state 1))) in
  let col2 := set_i32 (MixColumn (i32 (FETCH_COL state 2))) in
  let col3 := set_i32 (MixColumn (i32 (FETCH_COL state 3))) in
  SAVE_COL (SAVE_COL (SAVE_COL (SAVE_COL state col0 0) col1 1) col2 2) col3 3.

(** [state[i] ^= key[i]] for the four words *)
Definition _AddRoundKey (state key : bytes) : bytes :=
  foldl (fun s i => splice (4 * i) (le_bytes 4 (Z.lxor (le32 s i) (le32 key i))) s) state (seq 0 4).

(** ** A block *)

Definition Nb : nat := 4.
Definition Nk : nat := 4.
Definition Nr : nat := 10.

(** [(unsigned* )expkey + round * Nb] *)
Definition key_of (expkey : bytes) (round : nat) : bytes := drop (4 * (round * Nb)) expkey.

Definition _EncryptOneAESBlock (in_ expkey : bytes) : bytes :=
  let s := _AddRoundKey in_ (key_of expkey 0) in
  let s := foldl (fun s round => _AddRoundKey (_MixColumns_opt (_ShiftRows_opt s)) (key_of expkey round)) s (seq 1 (Nr - 1)) in
  _AddRoundKey (_ShiftRows_opt s) (key_of expkey Nr).

Definition _DecryptOneAESBlock (in_ expkey : bytes) : bytes :=
  let s := _InvShiftRows (_AddRoundKey in_ (key_of expkey Nr)) in
  let s := foldl (fun s round => _InvMixSubColumns_opt (_AddRoundKey s (key_of expkey round))) s (reverse (seq 1 (Nr - 1))) in
  _AddRoundKey s (key_of expkey 0).

(** [buf.d[i] ^= iv->d[i]] *)
Definition _ParallelXor_opt (buf iv : bytes) : bytes := _AddRoundKey buf iv.

(** ** The key expansion *)

Definition Rcon_tab : list Z := [0x00; 0x01; 0x02; 0x04; 0x08; 0x10; 0x20; 0x40; 0x80; 0x1b; 0x36].

(** One iteration of the loop of [ExpandKey] *)
Definition expand_step (expKey : bytes) (idx : nat) : bytes :=
  let tmp0 := at_ expKey (4 * idx - 4) in
  let tmp1 := at_ expKey (4 * idx - 3) in
  let tmp2 := at_ expKey (4 * idx - 2) in
  let tmp3 := at_ expKey (4 * idx - 1) in
  let '(tmp0, tmp1, tmp2, tmp3) :=
    if (idx mod Nk =? 0)%nat then (Z.lxor (SBOX tmp1) (at_ Rcon_tab (idx / Nk)), SBOX tmp2, SBOX tmp3, SBOX tmp0)
    else if (6 <? Nk)%nat && (idx mod Nk =? 4)%nat then (SBOX tmp0, SBOX tmp1, SBOX tmp2, SBOX tmp3)
    else (tmp0, tmp1, tmp2, tmp3) in
  let e := put (4 * idx + 0) (Z.lxor (at_ expKey (4 * idx - 4 * Nk + 0)) tmp0) expKey in
  let e := put (4 * idx + 1) (Z.lxor (at_ e (4 * idx - 4 * Nk + 1)) tmp1) e in
  let e := put (4 * idx + 2) (Z.lxor (at_ e (4 * idx - 4 * Nk + 2)) tmp2) e in
  put (4 * idx + 3) (Z.lxor (at_ e (4 * idx - 4 * Nk + 3)) tmp3) e.

(** The buffer of the caller has 176 bytes. *)
Definition ExpandKey (key expKey : bytes) : bytes :=
  foldl expand_step (splice 0 (take (Nk * 4) key) expKey) (seq Nk (Nb * (Nr + 1) - Nk)).

(** ** What the counter arithmetic computes *)

Lemma insert_snoc {A} (p q : list A) (b x : A) n : length p = n -> <[n := x]> ((p ++ [b]) ++ q) = p ++ x :: q.
Proof. intros <-. rewrite <- app_assoc. pose proof (insert_app_r p ([b] ++ q) 0 x) as E. rewrite Nat.add_0_r in E. exact E. Qed.

Lemma at_snoc (p q : bytes) b n : length p = n -> at_ ((p ++ [b]) ++ q) n = b.
Proof. intros <-. unfold at_. rewrite <- app_assoc. cbn [app]. by rewrite list_lookup_middle. Qed.

(** The bytes from [n] on do not change; the number the others make and the carry take the sum. *)
Lemma plus_bytes_value (n : nat) : forall p q t c, length p = n -> bytes_ok p -> 0 <= t <= 255 -> 0 <= c <= 1 -> 0 < t + c ->
  (n = 0%nat -> t = 0) ->
  exists p' c', plus_bytes n t c (p ++ q) = (p' ++ q, c') /\ length p' = n /\ bytes_ok p' /\ 0 <= c' <= 1 /\
    be_value p' + c' * 256 ^ n = be_value p + t + c.
Proof.
  induction n as [|n IH]; intros p q t c Hl Hp Ht Hc Htc H0.
  - apply nil_length_inv in Hl as ->. exists [], c. rewrite H0 by done. split_and!; (done || lia).
  - destruct p as [|b p _] using rev_ind; [done|]. rewrite length_app in Hl. cbn in Hl. apply Forall_app in Hp as [Hp [Hb _]%Forall_cons].
    cbn [plus_bytes]. rewrite at_snoc by lia. rewrite !insert_snoc by lia. unfold MAXVAL, byte_ok in *. rewrite be_value_snoc.
    destruct (Z.eqb_spec 255 b), (Z.leb_spec t (255 - c - b)); cbn [negb andb].
    all: try (destruct (IH p (u8 (t - (255 + 1 - b - c)) :: q) 0 1) as (p' & c' & -> & Hl' & Hp' & Hc' & E); [lia|done|lia..|];
      exists (p' ++ [u8 (t - (255 + 1 - b - c))]), c'; rewrite <- app_assoc; split_and!; [done|rewrite length_app; cbn; lia|
        apply Forall_app; split; [done|repeat constructor; apply byte_u8]|lia..|];
      rewrite be_value_snoc, Nat2Z.inj_succ, Z.pow_succ_r by lia; unfold u8;
      replace ((t - (255 + 1 - b - c)) mod 2 ^ 8) with (t + b + c - 256) by (Z.div_mod_to_equations; lia); lia).
    exists (p ++ [u8 (b + t + c)]), 0. rewrite <- app_assoc. split_and!; [done|rewrite length_app; cbn; lia|
        apply Forall_app; split; [done|repeat constructor; apply byte_u8]|lia..|].
    rewrite be_value_snoc. unfold u8. rewrite Z.mod_small by lia. lia.
Qed.

(** One chunk, of the 16 bytes *)
Lemma plus_chunk v t c : length v = 16%nat -> bytes_ok v -> 0 < t <= 255 -> 0 <= c <= 1 ->
  exists v' c', plus_bytes 16 t c v = (v', c') /\ length v' = 16%nat /\ bytes_ok v' /\ 0 <= c' <= 1 /\
    be_value v' + c' * 2 ^ 128 = be_value v + t + c.
Proof.
  intros Hl Hv Ht Hc. destruct (plus_bytes_value 16 v [] t c) as (v' & c' & E & ? & ? & ? & V); [done|done|lia..|done|].
  rewrite !app_nil_r in E. exists v', c'. split_and!; [done..|lia|lia|exact V].
Qed.

(** What the whole chunks before the last one add up to *)
Definition before_last (j : Z) : Z := 255 * ((j - 1) / 255).

Lemma be_value_16 v : length v = 16%nat -> bytes_ok v -> 0 <= be_value v < 2 ^ 128.
Proof. intros Hl Hv. pose proof (be_value_range v Hv) as H. rewrite Hl in H. exact H. Qed.

Lemma plus_loop_exact (fuel : nat) : forall v j c, length v = 16%nat -> bytes_ok v -> 0 <= c <= 1 -> be_value v + c < 2 ^ 128 -> 0 < j < 2 ^ 31 -> j / 255 < fuel ->
  length (plus_loop fuel j c v) = 16%nat /\ bytes_ok (plus_loop fuel j c v) /\
  be_value (plus_loop fuel j c v) = (be_value v + c + j + (if 2 ^ 128 <=? be_value v + c + before_last j then 1 else 0)) mod 2 ^ 128.
Proof.
  induction fuel as [|fuel IH]; intros v j c Hl Hv Hc Hvc Hj Hf; [Z.div_mod_to_equations; lia|]. cbn [plus_loop]. destruct (Z.leb_spec j 0); [lia|].
  pose proof (be_value_16 v Hl Hv). unfold MAXVAL. destruct (Z.ltb_spec 255 j) as [Hlt|Hle].
  - destruct (plus_chunk v 255 c) as (v' & c' & -> & Hl' & Hv' & Hc' & E); [done|done|lia..|]. pose proof (be_value_16 v' Hl' Hv').
    destruct (IH v' (j - 255) c' Hl' Hv' Hc' ltac:(lia) ltac:(lia)) as (? & ? & ->); [Z.div_mod_to_equations; lia|]. split_and!; [done..|].
    assert (Eb : before_last j = 255 + before_last (j - 255)) by (unfold before_last; Z.div_mod_to_equations; lia).
    assert (0 <= before_last (j - 255) < 2 ^ 31) by (unfold before_last; Z.div_mod_to_equations; lia). rewrite Eb.
    assert (Hc'' : c' = 0 \/ c' = 1) by lia. destruct Hc'' as [-> | ->].
    + destruct (Z.leb_spec (2 ^ 128) (be_value v' + 0 + before_last (j - 255))), (Z.leb_spec (2 ^ 128) (be_value v + c + (255 + before_last (j - 255)))); try lia; f_equal; lia.
    + destruct (Z.leb_spec (2 ^ 128) (be_value v' + 1 + before_last (j - 255))), (Z.leb_spec (2 ^ 128) (be_value v + c + (255 + before_last (j - 255)))); try lia.
      replace (be_value v + c + j + 1) with (be_value v' + 1 + (j - 255) + 0 + 1 * 2 ^ 128) by lia. by rewrite Z.mod_add.
  - destruct (plus_chunk v j c) as (v' & c' & -> & Hl' & Hv' & Hc' & E); [done|done|lia..|]. pose proof (be_value_16 v' Hl' Hv').
    assert (Z0 : before_last j = 0) by (unfold before_last; Z.div_mod_to_equations; lia). rewrite Z0.
    assert (Hr : plus_loop fuel (j - 255) c' v' = v') by (destruct fuel; [done|]; cbn [plus_loop]; destruct (Z.leb_spec (j - 255) 0); [done|lia]).
    rewrite Hr. split_and!; [done..|]. destruct (Z.leb_spec (2 ^ 128) (be_value v + c + 0)).
    + lia.
    + replace (be_value v + c + j + 0) with (be_value v' + c' * 2 ^ 128) by lia. rewrite Z.mod_add by done. by rewrite Z.mod_small.
Qed.

Lemma bigint_plus_exact x y : length x = 16%nat -> bytes_ok x -> 0 <= y < 2 ^ 31 ->
  gpu_bigint_plus x y = be_bytes 16 (be_value x + y + (if 2 ^ 128 <=? be_value x + before_last y then 1 else 0)).
Proof.
  intros Hl Hx Hy. pose proof (be_value_16 x Hl Hx). unfold gpu_bigint_plus. rewrite s32_small by lia. unfold MAXVAL.
  destruct (decide (y = 0)) as [->|Hne].
  - cbn [plus_loop Z.to_nat Z.div Z.add Z.leb Z.compare]. change (plus_loop (Z.to_nat (0 / 255 + 1)) 0 0 x) with x.
    change (before_last 0) with (- 255). destruct (Z.leb_spec (2 ^ 128) (be_value x + - 255)); [lia|]. rewrite !Z.add_0_r, <- Hl. by rewrite be_bytes_value.
  - destruct (plus_loop_exact (Z.to_nat (y / 255 + 1)) x y 0) as (Hl' & Hx' & E); [done|done|lia..|Z.div_mod_to_equations; lia|].
    rewrite <- (be_bytes_value _ Hx'), Hl', E. change (2 ^ 128) with (256 ^ 16%nat) at 2. rewrite be_bytes_mod. by rewrite Z.add_0_r.
Qed.

Lemma cpu_plus_same x y : bigint_plus x y = gpu_bigint_plus x y.
Proof. reflexivity. Qed.

(** ** The tables and transformations, against FIPS 197 *)

Lemma SBOX_S i : SBOX i = S_ i.
Proof. unfold SBOX, S_. do 2 f_equal. Qed.
Lemma INVSBOX_IS i : INVSBOX i = IS i.
Proof. unfold INVSBOX, IS. do 2 f_equal. Qed.

Lemma XTIME_gmul i : byte_ok i -> XTIMEE i = gmul 14 i /\ XTIMEB i = gmul 11 i /\ XTIMED i = gmul 13 i /\ XTIME9 i = gmul 9 i.
Proof.
  intros H. split_and!.
  - revert i H. apply (byte_eq XTIMEE (gmul 14)). vm_compute. reflexivity.
  - revert i H. apply (byte_eq XTIMEB (gmul 11)). vm_compute. reflexivity.
  - revert i H. apply (byte_eq XTIMED (gmul 13)). vm_compute. reflexivity.
  - revert i H. apply (byte_eq XTIME9 (gmul 9)). vm_compute. reflexivity.
Qed.

(** A block of 16 bytes, one by one *)
Ltac block b H := do 16 (destruct b as [|? b]; [discriminate H|]); destruct b; [|discriminate H].

Lemma ShiftRows_opt_ok b : length b = 16%nat -> _ShiftRows_opt b = of_state (ShiftRows (SubBytes (to_state b))).
Proof. intros H. block b H. cbv -[SBOX S_]. by rewrite !SBOX_S. Qed.

Lemma InvShiftRows_ok b : length b = 16%nat -> _InvShiftRows b = of_state (InvShiftRows (InvSubBytes (to_state b))).
Proof. intros H. block b H. cbv -[INVSBOX IS]. by rewrite !INVSBOX_IS. Qed.

Lemma InvMixSubColumns_opt_ok b : length b = 16%nat -> bytes_ok b ->
  _InvMixSubColumns_opt b = of_state (InvShiftRows (InvSubBytes (InvMixColumns (to_state b)))).
Proof.
  intros H Hb. assert (E : forall i, XTIMEE (at_ b i) = gmul 14 (at_ b i) /\ XTIMEB (at_ b i) = gmul 11 (at_ b i) /\ XTIMED (at_ b i) = gmul 13 (at_ b i) /\ XTIME9 (at_ b i) = gmul 9 (at_ b i))
    by (intros i; apply XTIME_gmul; by apply byte_ok_at).
  assert (C : forall k, (k < 4)%nat -> let c := FETCH_COL b k in let m := inv_mix_col (col_at b (4 * k)) in
    inv_e c = r0 m /\ inv_9 c = r1 m /\ inv_d c = r2 m /\ inv_b c = r3 m).
  { intros k Hk. assert (I : forall j, (j < 4)%nat -> i8 (FETCH_COL b k) j = at_ b (4 * k + j)).
    { intros j Hj. unfold i8, FETCH_COL, slice, at_. rewrite lookup_take_lt by lia. by rewrite lookup_drop. }
    cbv zeta. unfold inv_e, inv_9, inv_d, inv_b. rewrite !I by lia. rewrite Nat.add_0_r.
    destruct (E (4 * k)%nat) as (-> & -> & -> & ->). destruct (E (4 * k + 1)%nat) as (-> & -> & -> & ->).
    destruct (E (4 * k + 2)%nat) as (-> & -> & -> & ->). destruct (E (4 * k + 3)%nat) as (-> & -> & -> & ->). done. }
  destruct (C 0%nat) as (A0 & A1 & A2 & A3); [lia|]. destruct (C 1%nat) as (B0 & B1 & B2 & B3); [lia|].
  destruct (C 2%nat) as (C0 & C1 & C2 & C3); [lia|]. destruct (C 3%nat) as (D0 & D1 & D2 & D3); [lia|]. clear C E.
  unfold _InvMixSubColumns_opt. rewrite A0, A1, A2, A3, B0, B1, B2, B3, C0, C1, C2, C3, D0, D1, D2, D3, !INVSBOX_IS. clear -H. block b H. reflexivity.
Qed.

Lemma InvMixSubColumns_same b tmp : length b = 16%nat -> length tmp = 16%nat -> _InvMixSubColumns b tmp = _InvMixSubColumns_opt b.
Proof. intros H H'. block b H. block tmp H'. reflexivity. Qed.

Lemma xtime32_star x : xtime32 x = star_x x.
Proof.
  unfold xtime32, star_x. rewrite Z.lxor_comm. f_equal.
  - rewrite Z.shiftl_land. unfold u32. rewrite <- !Z.land_ones by done. rewrite <- !Z.land_assoc. f_equal.
  - do 2 f_equal. by rewrite Z.shiftr_land.
Qed.

Lemma xtime_lxor a b : byte_ok a -> byte_ok b -> xtime (Z.lxor a b) = Z.lxor (gmul 2 a) (gmul 2 b).
Proof.
  intros Ha Hb. assert (E : forall x, byte_ok x -> xtime x = gmul 2 x) by (apply (byte_eq xtime (gmul 2)); vm_compute; reflexivity).
  rewrite E by by apply byte_lxor. apply gmul_lxor.
Qed.

Lemma MixColumn_W c : col_ok c -> MixColumn (W c) = W (mix_col c).
Proof.
  intros H. unfold MixColumn. change (Z.lor (Z.shiftr (W c) 8) (u32 (Z.shiftl (W c) 24))) with (ror32 (W c) 8). destruct (ror32_W c H) as (-> & _).
  rewrite W_xor by auto using col_ok_Rot. set (t := xor_col (RotWord c) c). assert (Ht : col_ok t) by (apply col_ok_xor; [by apply col_ok_Rot|done]).
  rewrite xtime32_star, star_x_W by done. rewrite (Z.lor_comm (u32 _)). change (Z.lor (Z.shiftr (W t) 16) (u32 (Z.shiftl (W t) 16))) with (ror32 (W t) 16).
  destruct (ror32_W t Ht) as (_ & -> & _). rewrite !W_xor by auto 6 using col_ok_Rot, col_ok_xor, col_ok_map, byte_ok_xtime. f_equal. unfold t.
  assert (E3 : forall x, byte_ok x -> gmul 3 x = Z.lxor (gmul 2 x) x) by (apply (byte_eq (gmul 3) (fun x => Z.lxor (gmul 2 x) x)); vm_compute; reflexivity).
  assert (E1 : forall x, byte_ok x -> gmul 1 x = x) by (apply (byte_eq (gmul 1) (fun x => x)); vm_compute; reflexivity).
  destruct H. unfold mix_col, mul_col, xor_col, xor4. cbn [map_col RotWord r0 r1 r2 r3]. rewrite !xtime_lxor, !E3, !E1 by done. f_equal; xor_solve.
Qed.

(** Words of a block *)
Lemma i32_fetch b k : length b = 16%nat -> (k < 4)%nat -> i32 (FETCH_COL b k) = W (col_at b (4 * k)).
Proof. intros H Hk. block b H. do 4 (destruct k as [|k]; [reflexivity|]). lia. Qed.

Lemma MixColumns_opt_ok b : length b = 16%nat -> bytes_ok b -> _MixColumns_opt b = of_state (MixColumns (to_state b)).
Proof.
  intros H Hb. unfold _MixColumns_opt, set_i32. rewrite !i32_fetch, !MixColumn_W by (done || lia || by apply col_ok_at).
  assert (M : forall k, col_ok (mix_col (col_at b k))) by (intros k; by apply col_ok_mul). rewrite !le_bytes_W by apply M. clear -H. block b H. reflexivity.
Qed.

Lemma xor_word s k i : length s = 16%nat -> bytes_ok s -> (16 <= length k)%nat -> bytes_ok k -> (i < 4)%nat ->
  let s' := splice (4 * i) (le_bytes 4 (Z.lxor (le32 s i) (le32 k i))) s in
  s' = splice (4 * i) (col_bytes (xor_col (col_at s (4 * i)) (col_at k (4 * i)))) s /\ length s' = 16%nat /\ bytes_ok s'.
Proof.
  intros Hl Hs Hk Hkb Hi. cbv zeta. assert (Hc : col_ok (xor_col (col_at s (4 * i)) (col_at k (4 * i)))) by (apply col_ok_xor; by apply col_ok_at).
  rewrite !le32_col, W_xor, le_bytes_W by (lia || done || by apply col_ok_at). split_and!; [done|rewrite length_splice; cbn; lia|].
  unfold splice. apply Forall_app. split; [by apply Forall_take|]. apply Forall_app. split; [|by apply Forall_drop].
  destruct Hc. do 4 (apply Forall_cons; split; [assumption|]). apply Forall_nil; done.
Qed.

Lemma AddRoundKey_ok s k : length s = 16%nat -> bytes_ok s -> (16 <= length k)%nat -> bytes_ok k ->
  _AddRoundKey s k = of_state (AddRoundKey (to_state s) (to_state k)).
Proof.
  intros H Hs Hk Hkb. unfold _AddRoundKey. cbn [seq foldl].
  destruct (xor_word s k 0) as (E0 & L0 & B0); [done..|lia|]. destruct (xor_word _ k 1 L0 B0) as (E1 & L1 & B1); [done..|lia|].
  destruct (xor_word _ k 2 L1 B1) as (E2 & L2 & B2); [done..|lia|]. destruct (xor_word _ k 3 L2 B2) as (E3 & _ & _); [done..|lia|].
  rewrite E3, E2, E1, E0. clear -H. unfold AddRoundKey, to_state. cbn [k0 k1 k2 k3].
  set (x0 := col_at k 0) in *. change (4 * 0)%nat with 0%nat. change (4 * 1)%nat with 4%nat. change (4 * 2)%nat with 8%nat. change (4 * 3)%nat with 12%nat.
  fold x0. generalize x0 (col_at k 4) (col_at k 8) (col_at k 12). intros. block s H. reflexivity.
Qed.

(** ** The key expansion, against FIPS 197 *)

(** The buffer has the words expanded so far. *)
Record filled (ws : list column) (e : bytes) : Prop := {
  fl_len : length e = 176%nat;
  fl_at : forall i w, ws !! i = Some w -> col_at e (4 * i) = w;
}.

(** Four bytes written behind the words there are *)
Definition put4 (n : nat) (c : column) (e : bytes) : bytes := put (n + 3) (r3 c) (put (n + 2) (r2 c) (put (n + 1) (r1 c) (put n (r0 c) e))).

Lemma at_put e i j v : (i < length e)%nat -> at_ (put i v e) j = if decide (i = j) then v else at_ e j.
Proof. apply at_insert. Qed.

Lemma filled_put ws e c : filled ws e -> (length ws < 44)%nat -> filled (ws ++ [c]) (put4 (4 * length ws) c e).
Proof.
  intros [Hl Ha] Hn. assert (L : forall i v (e : bytes), length (put i v e) = length e) by (intros; apply length_insert).
  split; [unfold put4; by rewrite !L|]. intros i w Hi.
  assert (A : forall j, at_ (put4 (4 * length ws) c e) j = if decide (j = 4 * length ws)%nat then r0 c else if decide (j = 4 * length ws + 1)%nat then r1 c
    else if decide (j = 4 * length ws + 2)%nat then r2 c else if decide (j = 4 * length ws + 3)%nat then r3 c else at_ e j).
  { intros j. unfold put4. rewrite !at_put by (rewrite ?L; lia). repeat case_decide; (done || lia). }
  unfold col_at. rewrite !A. apply lookup_app_Some in Hi as [Hi|[Hge Hi]].
  - apply lookup_lt_Some in Hi as Hlt. rewrite !decide_False by lia. by apply Ha.
  - destruct (i - length ws)%nat as [|k] eqn:E; [|done]. injection Hi as <-. replace i with (length ws) by lia.
    repeat (first [rewrite decide_True by lia|rewrite decide_False by lia]). by destruct c.
Qed.

Lemma Rcon_ok i : (0 < i < 11)%nat -> Rcon i = Col (at_ Rcon_tab i) 0 0 0.
Proof. intros H. do 11 (destruct i as [|i]; [try done; lia|]). lia. Qed.

Lemma expand_step_ok ws e : filled ws e -> (4 <= length ws < 44)%nat -> filled (ws ++ [next_word 4 ws]) (expand_step e (length ws)).
Proof.
  intros F Hn. set (c := next_word 4 ws). cut (expand_step e (length ws) = put4 (4 * length ws) c e).
  { intros ->. apply filled_put; [done|lia]. }
  destruct (lookup_lt_is_Some_2 ws (length ws - 1)) as [w Hw]; [lia|]. destruct (lookup_lt_is_Some_2 ws (length ws - 4)) as [u Hu]; [lia|].
  pose proof (fl_at _ _ F _ _ Hw) as Ew. pose proof (fl_at _ _ F _ _ Hu) as Eu. pose proof (fl_len _ _ F) as Hl.
  unfold c, next_word, temp_word. rewrite Hw, Hu. cbn [default]. subst w u. set (n := length ws) in *.
  assert (L : forall i v (e : bytes), length (put i v e) = length e) by (intros; apply length_insert).
  assert (A : forall i j v (e : bytes), (j < i < length e)%nat -> at_ (put i v e) j = at_ e j) by (intros; rewrite at_put by lia; by rewrite decide_False by lia).
  unfold expand_step, Nk. cbn [Nat.ltb Nat.leb andb]. assert (R := Rcon_ok (n / 4) ltac:(pose proof (Nat.div_mod_eq n 4); pose proof (Nat.mod_upper_bound n 4); lia)). fold n.
  replace (4 * (n - 4))%nat with (4 * n - 4 * 4)%nat by lia. replace (4 * (n - 1))%nat with (4 * n - 4)%nat by lia.
  unfold col_at. replace (4 * n - 4 + 1)%nat with (4 * n - 3)%nat by lia. replace (4 * n - 4 + 2)%nat with (4 * n - 2)%nat by lia. replace (4 * n - 4 + 3)%nat with (4 * n - 1)%nat by lia.
  destruct (n mod 4 =? 0)%nat; rewrite ?R; repeat (rewrite A by (rewrite ?L; lia)); rewrite !Nat.add_0_r; unfold put4, xor_col; cbn [SubWord RotWord map_col r0 r1 r2 r3]; [|done].
  rewrite !SBOX_S, !Z.lxor_0_r. done.
Qed.

Lemma expand_steps_ok m : forall ws e, filled ws e -> (4 <= length ws)%nat -> (length ws + m <= 44)%nat ->
  filled (expand 4 m ws) (foldl expand_step e (seq (length ws) m)).
Proof.
  induction m as [|m IH]; intros ws e F H4 Hm; [done|]. cbn [expand seq foldl]. assert (F' := expand_step_ok ws e F ltac:(lia)).
  assert (L : length (ws ++ [next_word 4 ws]) = S (length ws)) by (rewrite length_app; cbn; lia). rewrite <- L. apply IH; [done|lia..].
Qed.

Lemma ExpandKey_ok key e : length key = 16%nat -> length e = 176%nat -> filled (KeyExpansion key) (ExpandKey key e).
Proof.
  intros Hk He. unfold KeyExpansion, ExpandKey. rewrite Hk. change (Nb * (Nr + 1) - Nk)%nat with 40%nat. change (4 * (16 / 4 + 7) - 16 / 4)%nat with 40%nat.
  change (16 / 4)%nat with 4%nat. rewrite take_ge by (cbn; lia).
  assert (Lw : length (key_words key) = 4%nat) by (unfold key_words; by rewrite Hk).
  pose proof (expand_steps_ok 40 (key_words key) (splice 0 key e)) as H. rewrite Lw in H. apply H; [|lia..]. clear H.
  split; [rewrite length_splice; lia|]. intros i w Hw. unfold key_words in Hw. rewrite Hk, list_lookup_fmap in Hw. apply fmap_Some in Hw as (k & [-> Hi]%lookup_seq & ->).
  change (16 / 4)%nat with 4%nat in Hi. cbn [Nat.add] in *. unfold col_at, splice, at_. rewrite take_0. cbn [app]. rewrite !lookup_app_l by lia. done.
Qed.

(** ** The block functions, against FIPS 197 *)

Lemma key_of_ok key e r : length key = 16%nat -> length e = 176%nat -> (r <= 10)%nat ->
  to_state (key_of (ExpandKey key e) r) = round_key (KeyExpansion key) r.
Proof.
  intros Hk He Hr. destruct (ExpandKey_ok key e Hk He) as [Hl Ha]. unfold key_of, Nb, round_key.
  assert (Lw : length (KeyExpansion key) = 44%nat) by (rewrite length_KeyExpansion by (left; done); lia).
  assert (A : forall k, (k < 4)%nat -> default (Col 0 0 0 0) (KeyExpansion key !! (4 * r + k)%nat) = col_at (drop (4 * (r * 4)) (ExpandKey key e)) (4 * k)).
  { intros k Hk4. destruct (lookup_lt_is_Some_2 (KeyExpansion key) (4 * r + k)) as [w Hw]; [lia|]. rewrite Hw. cbn [default]. rewrite <- (Ha _ _ Hw).
    unfold col_at, at_. rewrite !lookup_drop. by replace (4 * (4 * r + k))%nat with (4 * (r * 4) + 4 * k)%nat by lia; rewrite !Nat.add_assoc. }
  rewrite !A by lia. done.
Qed.

(** An expanded key: what the device functions need of it *)
Record expanded_key (key e : bytes) : Prop := {
  ek_len : length e = 176%nat;
  ek_ok : bytes_ok e;
  ek_key : bytes_ok key;
  ek_size : length key = 16%nat;
  ek_round : forall r, (r <= 10)%nat -> to_state (key_of e r) = round_key (KeyExpansion key) r;
}.

Section Block.
Context (key e : bytes) (K : expanded_key key e).

Lemma add_key s r : state_ok s -> (r <= 10)%nat -> _AddRoundKey (of_state s) (key_of e r) = of_state (AddRoundKey s (round_key (KeyExpansion key) r)).
Proof using K.
  intros Hs Hr. destruct K. rewrite AddRoundKey_ok; [by rewrite to_of_state, ek_round0|done|by apply bytes_ok_state| |by apply Forall_drop].
  unfold key_of, Nb. rewrite length_drop. lia.
Qed.

Lemma enc_round_ok s r : state_ok s -> (r <= 10)%nat ->
  _AddRoundKey (_MixColumns_opt (_ShiftRows_opt (of_state s))) (key_of e r) = of_state (enc_round s (round_key (KeyExpansion key) r)).
Proof using K.
  intros Hs Hr. rewrite ShiftRows_opt_ok, to_of_state by done. rewrite MixColumns_opt_ok, to_of_state by (done || apply bytes_ok_state; auto with aes).
  rewrite add_key by auto with aes. done.
Qed.

Lemma state_ok_key r : state_ok (round_key (KeyExpansion key) r).
Proof using K. apply state_ok_round_key, (ek_key _ _ K). Qed.

Lemma enc_rounds_ok rs s : state_ok s -> Forall (fun r => r <= 10)%nat rs ->
  foldl (fun s r => _AddRoundKey (_MixColumns_opt (_ShiftRows_opt s)) (key_of e r)) (of_state s) rs
    = of_state (foldl enc_round s (round_key (KeyExpansion key) <$> rs)).
Proof using K.
  intros Hs H. revert s Hs. induction H as [|r rs Hr H IH]; intros s Hs; [done|]. cbn [foldl fmap list_fmap]. rewrite enc_round_ok by done.
  apply IH. unfold enc_round. auto 6 using state_ok_key with aes.
Qed.

Lemma EncryptOne_ok b : length b = 16%nat -> bytes_ok b -> _EncryptOneAESBlock b e = aes key b.
Proof using K.
  intros Hl Hb. assert (Hs := state_ok_block b Hb). unfold _EncryptOneAESBlock, aes, Cipher. cbv zeta. rewrite (ek_size _ _ K). change (16 / 4 + 6)%nat with Nr.
  rewrite <- (of_to_state b Hl) at 1. rewrite add_key by (done || lia). rewrite enc_rounds_ok by (auto using state_ok_key with aes || (apply Forall_forall; intros r [? ?]%elem_of_seq; unfold Nr in *; lia)).
  fold enc_round. rewrite ShiftRows_opt_ok, to_of_state by done. rewrite add_key; [done| |done].
  apply state_ok_shift, state_ok_sub, rounds_ok; [auto using state_ok_key with aes|]. apply Forall_fmap, Forall_true. intros. apply state_ok_key.
Qed.

Lemma dec_step_ok s r : state_ok s -> (r <= 10)%nat ->
  _InvMixSubColumns_opt (_AddRoundKey (of_state (enc_round s (round_key (KeyExpansion key) r))) (key_of e r)) = of_state s.
Proof using K.
  intros Hs Hr. rewrite add_key by (try done; unfold enc_round; auto 6 using state_ok_key with aes). unfold enc_round. rewrite AddRoundKey_cancel.
  rewrite InvMixSubColumns_opt_ok, to_of_state by (done || apply bytes_ok_state; auto 6 with aes). rewrite InvMix_Mix by auto with aes. by rewrite unsub.
Qed.

Lemma dec_rounds_ok rs s : state_ok s -> Forall (fun r => r <= 10)%nat rs ->
  foldl (fun s r => _InvMixSubColumns_opt (_AddRoundKey s (key_of e r))) (of_state (foldl enc_round s (round_key (KeyExpansion key) <$> rs))) (reverse rs) = of_state s.
Proof using K.
  intros Hs. induction rs as [|r rs IH] using rev_ind; intros H; [done|]. apply Forall_app in H as [H [Hr _]%Forall_cons].
  rewrite fmap_app, foldl_app, reverse_app. cbn [fmap list_fmap foldl reverse rev_append app]. rewrite dec_step_ok; [by apply IH| |done].
  apply rounds_ok; [done|]. apply Forall_fmap, Forall_true. intros. apply state_ok_key.
Qed.

Lemma DecryptOne_ok b : length b = 16%nat -> bytes_ok b -> _DecryptOneAESBlock (_EncryptOneAESBlock b e) e = b.
Proof using K.
  intros Hl Hb. assert (Hs := state_ok_block b Hb). rewrite EncryptOne_ok by done. unfold aes, Cipher, _DecryptOneAESBlock. cbv zeta. rewrite (ek_size _ _ K). change (16 / 4 + 6)%nat with Nr.
  fold enc_round. set (s0 := AddRoundKey (to_state b) (round_key (KeyExpansion key) 0)). assert (H0 : state_ok s0) by (apply state_ok_add; [done|apply state_ok_key]).
  set (s9 := foldl enc_round s0 (round_key (KeyExpansion key) <$> seq 1 (Nr - 1))).
  change (foldl _ s0 _) with s9. assert (H9 : state_ok s9) by (apply rounds_ok; [done|]; apply Forall_fmap, Forall_true; intros; apply state_ok_key).
  rewrite add_key by (try done; auto 6 using state_ok_key with aes). rewrite AddRoundKey_cancel, InvShiftRows_ok, to_of_state, unsub by done.
  unfold s9. rewrite dec_rounds_ok by (done || (apply Forall_forall; intros r [? ?]%elem_of_seq; unfold Nr in *; lia)).
  rewrite add_key by (done || lia). unfold s0. by rewrite AddRoundKey_cancel, of_to_state.
Qed.
End Block.

(** The buffer that [ExpandKey] fills is an expanded key. *)
Lemma expanded_ExpandKey key e : length key = 16%nat -> bytes_ok key -> length e = 176%nat -> expanded_key key (ExpandKey key e).
Proof.
  intros Hk Hb He. destruct (ExpandKey_ok key e Hk He) as [Hl Ha]. split; [done| |done|done|intros; by apply key_of_ok].
  revert Hl Ha. generalize (ExpandKey key e) as E. intros E Hl Ha. apply Forall_lookup_2. intros j v Hj. apply lookup_lt_Some in Hj as Hlt. rewrite Hl in Hlt.
  assert (Lw : length (KeyExpansion key) = 44%nat) by (rewrite length_KeyExpansion by (left; done); lia).
  pose proof (Nat.div_mod_eq j 4) as Ej. pose proof (Nat.mod_upper_bound j 4 ltac:(lia)) as Hm.
  destruct (lookup_lt_is_Some_2 (KeyExpansion key) (j / 4)) as [w Hw]; [lia|]. pose proof (Ha _ _ Hw) as Ew.
  assert (Hok : col_ok w) by (eapply Forall_lookup_1; [|exact Hw]; apply expand_ok, Forall_fmap, Forall_true; intros; by apply col_ok_at).
  clear Ha Hw Lw. apply at_lookup in Hj. rewrite <- Hj, Ej. set (q := (j / 4)%nat) in *. subst w. destruct Hok. cbn [col_at r0 r1 r2 r3] in *.
  destruct (j mod 4)%nat as [|[|[|[|m]]]]; [rewrite Nat.add_0_r; assumption|assumption..|lia].
Qed.

(** The version of the inverse row shift that no function calls is not one: it loses the second
    byte of the first column and the fourth byte of the third. *)
Lemma InvShiftRows_opt_differs : _InvShiftRows_opt (seqZ 0 16) <> _InvShiftRows (seqZ 0 16).
Proof. vm_compute. discriminate. Qed.

(** ** Properties *)

(** C22 The cipher of the graphics processor is AES-128: with the key that [ExpandKey] expands into
    a buffer of any content, [_EncryptOneAESBlock] computes the cipher of FIPS 197 and
    [_DecryptOneAESBlock] inverts it, and the two versions of the inverse column mix agree. *)
Theorem gpu_block_is_fips197 key buf b : length key = 16%nat -> bytes_ok key -> length buf = 176%nat -> length b = 16%nat -> bytes_ok b ->
  let e := ExpandKey key buf in
  _EncryptOneAESBlock b e = aes key b /\ _DecryptOneAESBlock (_EncryptOneAESBlock b e) e = b /\
  forall tmp, length tmp = 16%nat -> _InvMixSubColumns b tmp = _InvMixSubColumns_opt b.
Proof.
  intros Hk Hkb Hbuf Hl Hb e. pose proof (expanded_ExpandKey key buf Hk Hkb Hbuf) as K. split_and!.
  - by apply EncryptOne_ok.
  - by apply (DecryptOne_ok key).
  - intros. by apply InvMixSubColumns_same.
Qed.

Lemma gpu_block_is_fips197_witness :
  let e := ExpandKey (seqZ 0 16) (zeros 176) in
  _EncryptOneAESBlock example_block e = aes (seqZ 0 16) example_block /\ _DecryptOneAESBlock (_EncryptOneAESBlock example_block e) e = example_block.
Proof.
  destruct (gpu_block_is_fips197 (seqZ 0 16) (zeros 176) example_block) as (H1 & H2 & _);
    [reflexivity|apply bytes_ok_check; vm_compute; reflexivity|apply length_zeros|reflexivity|apply bytes_ok_check; vm_compute; reflexivity|].
  split; [exact H1|exact H2].
Defined.

(** C30 The counter of a thread: [gpu_bigint_plus] and [plus] add a number below 2^31 to a counter
    of 16 bytes modulo 2^128, and one more exactly if the counter overflows in a chunk of 255
    that is not the last one, because the carry out of the top byte is kept for the next chunk. *)
Theorem gpu_counter_exact x y : length x = 16%nat -> bytes_ok x -> 0 <= y < 2 ^ 31 ->
  gpu_bigint_plus x y = be_bytes 16 (be_value x + y + (if 2 ^ 128 <=? be_value x + 255 * ((y - 1) / 255) then 1 else 0)) /\
  bigint_plus x y = gpu_bigint_plus x y.
Proof. intros Hl Hx Hy. split; [by apply bigint_plus_exact|apply cpu_plus_same]. Qed.

(** A counter 255 before the end, plus 256: the result is 2 and not 1. *)
Lemma gpu_counter_exact_witness : gpu_bigint_plus (replicate 15 255 ++ [1]) 256 = be_bytes 16 2.
Proof.
  destruct (gpu_counter_exact (replicate 15 255 ++ [1]) 256) as [E _]; [reflexivity|apply bytes_ok_check; reflexivity|lia|]. rewrite E. vm_compute. reflexivity.
Defined.
