(* ===== verification/GpuKernel.v ===== *)
(** * Encryption on the graphics processor

    src/host/gpu/aes/aes.cu: device memory, the kernel that every thread runs, and the host
    functions that set it up and call it.  For every schedule of its threads the kernel adds
    the key stream of counter mode to its input. *)

From stdpp Require Import functions.
From S2P Require Import Prelude Fips197 Ctr AesCipher AesGeneric GpuTables GpuAes.

(** ** Device memory *)

(** An allocation: its size, and its bytes *)
Record block := Block { b_size : Z; b_data : nat -> Z }.

(** The pointers of aes.cu, to device memory and to pinned host memory *)
Inductive devvar := d_expkey | d_sbox | d_invsbox | d_xtimee | d_xtimeb | d_xtimed | d_xtime9 | d_in_enc | d_out_enc | d_in_dec | d_out_dec.
Inductive hostvar := h_in_enc | h_out_enc | h_in_dec | h_out_dec.
#[export] Instance devvar_eq : EqDecision devvar.
Proof. solve_decision. Defined.
#[export] Instance hostvar_eq : EqDecision hostvar.
Proof. solve_decision. Defined.

(** [g_mem] has the live allocations by their addresses; [g_answers] is what [cudaMalloc] and
    [cudaMallocHost] will answer, the address and what the memory holds, or a failure.
    [g_tex] says which pointers textures are bound to.  [no_encrypt] is whether the
    environment has the variable NO_ENCRYPT. *)
Record gpu := Gpu {
  g_mem : gmap Z block;
  g_answers : list (option (Z * (nat -> Z)));
  g_ptr : devvar -> Z;
  g_host : hostvar -> option block;
  g_tex : devvar -> bool;
  no_encrypt : bool;
}.

Definition set_mem (m : gmap Z block) (g : gpu) : gpu := Gpu m (g_answers g) (g_ptr g) (g_host g) (g_tex g) (no_encrypt g).
Definition set_answers (l : list (option (Z * (nat -> Z)))) (g : gpu) : gpu := Gpu (g_mem g) l (g_ptr g) (g_host g) (g_tex g) (no_encrypt g).
Definition set_ptr (v : devvar) (a : Z) (g : gpu) : gpu := Gpu (g_mem g) (g_answers g) (<[v := a]> (g_ptr g)) (g_host g) (g_tex g) (no_encrypt g).
Definition set_host (v : hostvar) (b : block) (g : gpu) : gpu := Gpu (g_mem g) (g_answers g) (g_ptr g) (<[v := Some b]> (g_host g)) (g_tex g) (no_encrypt g).
Definition set_tex (v : devvar) (g : gpu) : gpu := Gpu (g_mem g) (g_answers g) (g_ptr g) (g_host g) (<[v := true]> (g_tex g)) (no_encrypt g).

(** [n] bytes from [off] on, and bytes stored there *)
Definition rd (f : nat -> Z) (off n : nat) : bytes := (fun i => f (off + i)%nat) <$> seq 0 n.
Definition wr (f : nat -> Z) (off : nat) (d : bytes) : nat -> Z :=
  fun i => if (off <=? i)%nat && (i <? off + length d)%nat then at_ d (i - off) else f i.

(** A failure ends the process ([CUDA_SAFE_CALL]). *)
Definition cuda_answer : M gpu (Z * (nat -> Z)) :=
  let! l := gets g_answers in
  match l with
  | Some x :: l => modify (set_answers l) ;; ret x
  | _ => oops Exit
  end.
Definition cudaMalloc (n : Z) : M gpu Z :=
  let! x := cuda_answer in
  modify (fun g => set_mem (<[fst x := Block n (snd x)]> (g_mem g)) g) ;;
  ret (fst x).
Definition cudaMallocHost (v : hostvar) (n : Z) : M gpu unit :=
  let! x := cuda_answer in
  modify (set_host v (Block n (snd x))).
Definition cudaFree (a : Z) : M gpu unit :=
  let! m := gets g_mem in
  match m !! a with
  | Some _ => modify (set_mem (delete a m))
  | None => oops DoubleFree
  end.

Definition in_block (b : block) (off n : nat) : bool := Z.of_nat (off + n) <=? b_size b.

Definition dev_read (a : Z) (off n : nat) : M gpu bytes :=
  let! m := gets g_mem in
  match m !! a with
  | None => oops UseAfterFree
  | Some b => if in_block b off n then ret (rd (b_data b) off n) else oops OutOfBounds
  end.
Definition dev_write (a : Z) (off : nat) (d : bytes) : M gpu unit :=
  let! m := gets g_mem in
  match m !! a with
  | None => oops UseAfterFree
  | Some b => if in_block b off (length d) then modify (set_mem (<[a := Block (b_size b) (wr (b_data b) off d)]> m)) else oops OutOfBounds
  end.
Definition host_read (v : hostvar) (n : nat) : M gpu bytes :=
  let! h := gets g_host in
  match h v with
  | None => oops NullDeref
  | Some b => if in_block b 0 n then ret (rd (b_data b) 0 n) else oops OutOfBounds
  end.
Definition host_write (v : hostvar) (d : bytes) : M gpu unit :=
  let! h := gets g_host in
  match h v with
  | None => oops NullDeref
  | Some b => if in_block b 0 (length d) then modify (set_host v (Block (b_size b) (wr (b_data b) 0 d))) else oops OutOfBounds
  end.

(** ** The kernel *)

(** In what order the threads of each block load the key, and in what order the threads of the
    grid, as pairs of block and thread numbers, do their work after the barrier *)
Record schedule := Schedule { s_load : nat -> list nat; s_run : list (nat * nat) }.

Fixpoint each {A} (f : A -> M gpu unit) (l : list A) : M gpu unit :=
  match l with [] => ret tt | x :: l => f x ;; each f l end.

(** Before [__syncthreads]: a thread copies one word of the key to the shared buffer. *)
Fixpoint load_bufkey (expkey : Z) (ts : list nat) (bufkey : bytes) : M gpu bytes :=
  match ts with
  | [] => ret bufkey
  | t :: ts =>
      let! bufkey := (if (t <? 44)%nat then let! w := dev_read expkey (4 * t) 4 in ret (splice (4 * t) w bufkey) else ret bufkey) in
      load_bufkey expkey ts bufkey
  end.

(** The shared buffers of the blocks, which start with [junk] *)
Fixpoint load_blocks (expkey : Z) (junk : nat -> bytes) (load : nat -> list nat) (bs : list nat) : M gpu (list bytes) :=
  match bs with
  | [] => ret []
  | b :: bs =>
      let! k := load_bufkey expkey (load b) (junk b) in
      let! ks := load_blocks expkey junk load bs in
      ret (k :: ks)
  end.

(** A texture that a thread fetches from is bound to memory with the table. *)
Definition fetches (v : devvar) (tab : list Z) : M gpu unit :=
  let! g := get in
  if g_tex g v then
    let! t := dev_read (g_ptr g v) 0 256 in
    if bool_decide (t = tab) then ret tt else oops Uninit
  else oops Uninit.

(** After the barrier *)
Definition thread (in_ out : Z) (iv : bytes) (bufkeys : list bytes) (blockDim : nat) (bt : nat * nat) : M gpu unit :=
  let '(blockIdx, threadIdx) := bt in
  let block_start := u32 (blockIdx * blockDim) in
  let myId := u32 (threadIdx + block_start) in
  let myiv := gpu_bigint_plus iv myId in
  let myiv := _EncryptOneAESBlock myiv (default [] (bufkeys !! blockIdx)) in
  let! x := dev_read in_ (16 * Z.to_nat myId) 16 in
  let myiv := _ParallelXor_opt myiv x in
  dev_write out (16 * Z.to_nat myId) myiv.

Definition encrypt_decrypt_counter (sch : schedule) (junk : nat -> bytes) (blocks threads : nat) (in_ expkey out : Z) (iv : bytes) : M gpu unit :=
  fetches d_sbox Sbox ;;
  let! bufkeys := load_blocks expkey junk (s_load sch) (seq 0 blocks) in
  each (thread in_ out iv bufkeys threads) (s_run sch).

(** ** The host *)

Definition THREADS_PER_BLOCK : Z := 256.
Definition MAX_BLOCK_SIZE : Z := 1024 * 1024 * 16.

Section Host.
(** What the scheduler of the device does, and what shared memory holds at first *)
Context (sch : nat -> schedule) (junk : nat -> bytes).

(** Where the result is: in device memory, or copied to the host *)
Inductive result := InGpu (a : Z) | OnHost (d : bytes).

(** [gpu_process_string]: the status, and what [*d_out] is after a status of 0 *)
Definition gpu_process_string (in_ : bytes) (iv : bytes) (keep_result_in_gpu : bool) : M gpu (Z * option result) :=
  let length := Z.of_nat (length in_) in
  if MAX_BLOCK_SIZE <? length then ret (-1, None) else
  if negb (length mod (THREADS_PER_BLOCK * 16) =? 0) then ret (-1, None) else
  host_write h_in_enc in_ ;;
  let! p := gets g_ptr in
  let! h := host_read h_in_enc (Z.to_nat length) in
  dev_write (p d_in_enc) 0 h ;;
  let units := length / 16 in
  let threads := if THREADS_PER_BLOCK <=? units then THREADS_PER_BLOCK else units mod THREADS_PER_BLOCK in
  if threads =? 0 then oops DivZero else
  let blocks := units / threads in
  let blocks := if blocks =? 0 then 1 else blocks in
  let! skip := gets no_encrypt in
  (if skip then ret tt else
     encrypt_decrypt_counter (sch (Z.to_nat blocks)) junk (Z.to_nat blocks) (Z.to_nat threads) (p d_in_enc) (p d_expkey) (p d_out_enc) iv) ;;
  if negb keep_result_in_gpu then
    let! d := dev_read (p d_out_enc) 0 (Z.to_nat length) in
    host_write h_in_enc d ;;
    ret (0, Some (OnHost d))
  else ret (0, Some (InGpu (p d_out_enc))).

Definition gpu_encrypt_string := gpu_process_string.
Definition gpu_decrypt_string := gpu_process_string.
End Host.

(** [CUDA_SAFE_CALL(cudaMalloc(&v, n))] *)
Definition alloc (v : devvar) (n : Z) : M gpu unit :=
  let! a := cudaMalloc n in
  modify (set_ptr v a).

(** [cudaMalloc], [cudaMemcpy] and [cudaBindTexture] of a table *)
Definition upload (v : devvar) (tab : list Z) : M gpu unit :=
  let! p := gets g_ptr in
  dev_write (p v) 0 tab.
Definition bind_texture (v : devvar) : M gpu unit := modify (set_tex v).

Definition gpu_init : M gpu unit :=
  alloc d_sbox 256 ;;
  upload d_sbox Sbox ;;
  bind_texture d_sbox ;;
  alloc d_invsbox 256 ;;
  upload d_invsbox InvSbox ;;
  bind_texture d_invsbox ;;
  alloc d_xtimee 256 ;;
  alloc d_xtimeb 256 ;;
  alloc d_xtimed 256 ;;
  alloc d_xtime9 256 ;;
  upload d_xtimee XtimeE ;;
  upload d_xtimeb XtimeB ;;
  upload d_xtimed XtimeD ;;
  upload d_xtime9 Xtime9 ;;
  bind_texture d_xtimee ;;
  bind_texture d_xtimeb ;;
  bind_texture d_xtimed ;;
  bind_texture d_xtime9 ;;
  alloc d_in_enc MAX_BLOCK_SIZE ;;
  alloc d_out_enc MAX_BLOCK_SIZE ;;
  alloc d_in_dec MAX_BLOCK_SIZE ;;
  alloc d_out_dec MAX_BLOCK_SIZE ;;
  alloc d_expkey 176 ;;
  cudaMallocHost h_in_enc MAX_BLOCK_SIZE ;;
  cudaMallocHost h_out_enc MAX_BLOCK_SIZE ;;
  cudaMallocHost h_in_dec MAX_BLOCK_SIZE ;;
  cudaMallocHost h_out_dec MAX_BLOCK_SIZE.

(** [stack] is the uninitialised buffer of [gpu_set_key]. *)
Definition gpu_set_key (stack key : bytes) : M gpu unit :=
  let! p := gets g_ptr in
  dev_write (p d_expkey) 0 (ExpandKey key stack).

(** [if (v) CUDA_SAFE_CALL(cudaFree(v))] *)
Definition release (v : devvar) : M gpu unit :=
  let! p := gets g_ptr in
  if p v =? 0 then ret tt else cudaFree (p v).
Definition cudaFreeHost (v : hostvar) : M gpu unit :=
  modify (fun g => Gpu (g_mem g) (g_answers g) (g_ptr g) (<[v := None]> (g_host g)) (g_tex g) (no_encrypt g)).

Definition gpu_exit : M gpu unit :=
  release d_in_enc ;;
  release d_out_enc ;;
  release d_in_dec ;;
  release d_out_dec ;;
  release d_expkey ;;
  release d_sbox ;;
  release d_invsbox ;;
  release d_xtimee ;;
  release d_xtimeb ;;
  release d_xtimed ;;
  release d_xtime9 ;;
  cudaFreeHost h_in_enc ;;
  cudaFreeHost h_out_enc ;;
  cudaFreeHost h_in_dec ;;
  cudaFreeHost h_out_dec.

(** ** Bytes of an allocation *)

Lemma length_rd f off n : length (rd f off n) = n.
Proof. unfold rd. by rewrite length_fmap, length_seq. Qed.

Lemma rd_lookup f off n i : (i < n)%nat -> rd f off n !! i = Some (f (off + i)%nat).
Proof. intros H. unfold rd. by rewrite list_lookup_fmap, lookup_seq_lt. Qed.

Lemma rd_ext f g off n : (forall i, (off <= i < off + n)%nat -> f i = g i) -> rd f off n = rd g off n.
Proof. intros H. apply list_fmap_ext. intros i x Hx. apply lookup_seq in Hx as [-> Hi]. apply H. lia. Qed.

Lemma rd_wr f off d : rd (wr f off d) off (length d) = d.
Proof.
  apply list_eq_same_length with (length d); [done|apply length_rd|]. intros i x y Hi. rewrite rd_lookup by done. intros [= <-] Hy. unfold wr.
  destruct (Nat.leb_spec off (off + i)), (Nat.ltb_spec (off + i) (off + length d)); try lia. cbn [andb]. replace (off + i - off)%nat with i by lia. by apply at_lookup.
Qed.

Lemma rd_wr_other f off d off' n : (off' + n <= off \/ off + length d <= off')%nat -> rd (wr f off d) off' n = rd f off' n.
Proof.
  intros H. apply rd_ext. intros i Hi. unfold wr. destruct (Nat.leb_spec off i), (Nat.ltb_spec i (off + length d)); cbn [andb]; (done || lia).
Qed.

Lemma rd_app f off n m : rd f off (n + m) = rd f off n ++ rd f (off + n) m.
Proof.
  unfold rd. rewrite seq_app, fmap_app. f_equal. replace (0 + n)%nat with (n + 0)%nat by lia. rewrite <- (fmap_add_seq n 0 m), <- list_fmap_compose.
  apply list_fmap_ext. intros i x _. cbn. f_equal. lia.
Qed.

Lemma rd_mjoin f (F : nat -> bytes) c n : (forall i, (i < n)%nat -> rd f (c * i) c = F i) -> rd f 0 (c * n) = mjoin (F <$> seq 0 n).
Proof.
  induction n as [|n IH]; intros H; [by rewrite Nat.mul_0_r|]. rewrite seq_S, fmap_app, join_app. cbn [fmap list_fmap mjoin list_join].
  rewrite app_nil_r, <- IH by (intros; apply H; lia). rewrite Nat.mul_succ_r, rd_app, Nat.add_0_l. by rewrite H by lia.
Qed.

(** Equal word by word *)
Lemma take_words {A} c n (l k : list A) : (forall i, (i < n)%nat -> slice (c * i) c l = slice (c * i) c k) -> take (c * n) l = take (c * n) k.
Proof.
  induction n as [|n IH]; intros H; [by rewrite Nat.mul_0_r, !take_0|]. rewrite Nat.mul_succ_r, <- !take_take_drop.
  rewrite IH by (intros; apply H; lia). f_equal. by apply (H n); lia.
Qed.

(** ** The key in shared memory *)

Lemma dev_read_ok g a b off n : g_mem g !! a = Some b -> Z.of_nat (off + n) <= b_size b -> dev_read a off n g = Done (rd (b_data b) off n, g).
Proof. intros E H. unfold dev_read, bind, gets. rewrite E. unfold in_block. by rewrite (proj2 (Z.leb_le _ _) H). Qed.

Lemma dev_write_ok g a b off d : g_mem g !! a = Some b -> Z.of_nat (off + length d) <= b_size b ->
  dev_write a off d g = Done (tt, set_mem (<[a := Block (b_size b) (wr (b_data b) off d)]> (g_mem g)) g).
Proof. intros E H. unfold dev_write, bind, gets. rewrite E. unfold in_block. by rewrite (proj2 (Z.leb_le _ _) H). Qed.

(** The words that threads copied are those of the key, the others as before. *)
Lemma load_bufkey_words g a b ts : g_mem g !! a = Some b -> b_size b = 176 -> forall bk, length bk = 176%nat ->
  exists bk', load_bufkey a ts bk g = Done (bk', g) /\ length bk' = 176%nat /\
    forall w, (w < 44)%nat -> slice (4 * w) 4 bk' = if decide (w ∈ ts) then rd (b_data b) (4 * w) 4 else slice (4 * w) 4 bk.
Proof.
  intros E Hb. induction ts as [|t ts IH]; intros bk Hl; [exists bk; split_and!; [done..|]; intros w _; by rewrite decide_False by set_solver|].
  cbn [load_bufkey]. destruct (Nat.ltb_spec t 44) as [Ht|Ht].
  - unfold bind at 1. rewrite (bind_done _ _ _ _ _ (dev_read_ok g a b (4 * t) 4 E ltac:(lia))). cbn [ret].
    assert (Ll : length (splice (4 * t) (rd (b_data b) (4 * t) 4) bk) = 176%nat) by (rewrite length_splice; rewrite ?length_rd; lia).
    destruct (IH _ Ll) as (bk' & -> & L' & Hw). exists bk'. split_and!; [done..|]. intros w Hlt. rewrite Hw by done.
    destruct (decide (w ∈ ts)); [by rewrite decide_True by set_solver|]. destruct (decide (w = t)) as [->|Hne].
    + rewrite decide_True by set_solver. rewrite <- (length_rd (b_data b) (4 * t) 4) at 2. apply slice_splice. rewrite length_rd. lia.
    + rewrite decide_False by set_solver. destruct (decide (w < t)%nat); [apply slice_splice_before; lia|apply slice_splice_after; rewrite length_rd; lia].
  - unfold bind at 1. cbn [ret]. destruct (IH bk Hl) as (bk' & -> & L' & Hw). exists bk'. split_and!; [done..|]. intros w Hlt. rewrite Hw by done.
    destruct (decide (w ∈ ts)); [by rewrite decide_True by set_solver|]. rewrite decide_False; [done|]. intros [->|?]%elem_of_cons; (lia || done).
Qed.

Lemma load_bufkey_ok g a b ts bk : g_mem g !! a = Some b -> b_size b = 176 -> length bk = 176%nat -> (forall w, (w < 44)%nat -> w ∈ ts) ->
  load_bufkey a ts bk g = Done (rd (b_data b) 0 176, g).
Proof.
  intros E Hb Hl Hts. destruct (load_bufkey_words g a b ts E Hb bk Hl) as (bk' & -> & L' & Hw). do 2 f_equal.
  rewrite <- (take_ge bk' 176), <- (take_ge (rd (b_data b) 0 176) 176) by (rewrite ?length_rd; lia). apply (take_words 4 44). intros i Hi.
  rewrite Hw, decide_True by auto. unfold slice. replace 176%nat with (4 * i + (4 + (172 - 4 * i)))%nat by lia.
  rewrite !rd_app, drop_app_length' by (by rewrite length_rd). by rewrite take_app_length' by (by rewrite length_rd).
Qed.

Lemma load_blocks_ok g a b junk load bs : g_mem g !! a = Some b -> b_size b = 176 -> (forall k, length (junk k) = 176%nat) ->
  (forall k w, k ∈ bs -> (w < 44)%nat -> w ∈ load k) -> load_blocks a junk load bs g = Done (replicate (length bs) (rd (b_data b) 0 176), g).
Proof.
  intros E Hb Hj Hl. induction bs as [|k bs IH]; [done|]. cbn [load_blocks length replicate].
  rewrite (bind_done _ _ _ _ _ (load_bufkey_ok g a b (load k) (junk k) E Hb (Hj k) ltac:(intros; apply Hl; [left|done]))).
  by rewrite (bind_done _ _ _ _ _ (IH ltac:(intros; apply Hl; [by right|done]))).
Qed.

(** ** The threads *)

Lemma ParallelXor_ok a b : length a = 16%nat -> bytes_ok a -> length b = 16%nat -> bytes_ok b -> _ParallelXor_opt a b = xor_bytes a b.
Proof.
  intros Ha Oa Hb Ob. unfold _ParallelXor_opt. rewrite AddRoundKey_ok by (done || lia). clear Oa Ob. block a Ha. block b Hb. reflexivity.
Qed.

Lemma bigint_plus_ok x y : length x = 16%nat -> bytes_ok x -> 0 <= y < 2 ^ 31 -> length (gpu_bigint_plus x y) = 16%nat /\ bytes_ok (gpu_bigint_plus x y).
Proof. intros Hl Hx Hy. rewrite bigint_plus_exact by done. split; [apply length_be_bytes|apply bytes_ok_be_bytes]. Qed.

Section Threads.
Context (key iv e : bytes) (K : expanded_key key e) (Hiv : length iv = 16%nat) (Hivb : bytes_ok iv).
Context (in_ out : Z) (Hne : in_ <> out) (blockDim blocks : nat) (Hn : Z.of_nat (blocks * blockDim) < 2 ^ 31).

(** What the thread number [i] of the grid stores *)
Definition gpu_block (inp : nat -> Z) (i : nat) : bytes := xor_bytes (aes key (gpu_bigint_plus iv i)) (rd inp (16 * i) 16).

(** The number of a thread *)
Definition grid_id (bt : nat * nat) : nat := (snd bt + fst bt * blockDim)%nat.
Definition in_grid (bt : nat * nat) : Prop := (fst bt < blocks /\ snd bt < blockDim)%nat.

Lemma grid_id_lt bt : in_grid bt -> (grid_id bt < blocks * blockDim)%nat.
Proof using Type. intros [Hb Ht]. unfold grid_id. clear -Hb Ht. nia. Qed.

(** The input, and room for the output *)
Record buffers (inp outp : nat -> Z) (g : gpu) : Prop := {
  bf_in : exists sz, g_mem g !! in_ = Some (Block sz inp) /\ Z.of_nat (16 * (blocks * blockDim)) <= sz;
  bf_out : exists sz, g_mem g !! out = Some (Block sz outp) /\ Z.of_nat (16 * (blocks * blockDim)) <= sz;
  bf_ok : bytes_ok (rd inp 0 (16 * (blocks * blockDim)));
}.

Lemma input_ok inp outp g i : buffers inp outp g -> (i < blocks * blockDim)%nat -> bytes_ok (rd inp (16 * i) 16).
Proof.
  intros [_ _ Hok] Hi. replace (16 * (blocks * blockDim))%nat with (16 * i + (16 + 16 * (blocks * blockDim - i - 1)))%nat in Hok by lia.
  rewrite !rd_app in Hok. apply Forall_app in Hok as [_ [? _]%Forall_app]. done.
Qed.

(** The state with another output *)
Definition with_out (f : nat -> Z) (g : gpu) : gpu :=
  match g_mem g !! out with Some b => set_mem (<[out := Block (b_size b) f]> (g_mem g)) g | None => g end.

Lemma buffers_with_out inp outp f g : buffers inp outp g -> buffers inp f (with_out f g).
Proof using Hne.
  intros [(si & Ei & Hi) (so & Eo & Ho) Hok]. unfold with_out. rewrite Eo. cbn [b_size]. split; [exists si|exists so|done]; cbn [set_mem g_mem].
  - by rewrite lookup_insert_ne.
  - by rewrite lookup_insert_eq.
Qed.

Lemma with_out_twice f f' g inp outp : buffers inp outp g -> with_out f' (with_out f g) = with_out f' g.
Proof. intros [_ (so & Eo & Ho) _]. unfold with_out. rewrite Eo. cbn [b_size set_mem g_mem]. rewrite lookup_insert_eq. cbn [b_size]. by rewrite insert_insert_eq. Qed.

Lemma thread_ok bufkeys inp outp g bt : in_grid bt -> bufkeys !! fst bt = Some e -> buffers inp outp g ->
  thread in_ out iv bufkeys blockDim bt g = Done (tt, with_out (wr outp (16 * grid_id bt) (gpu_block inp (grid_id bt))) g).
Proof using K Hiv Hivb Hn.
  intros Hbt Hk B. pose proof (grid_id_lt bt Hbt) as Hlt. destruct B as [(si & Ei & Hi) (so & Eo & Ho) Hok] eqn:EB. destruct bt as [b t]. unfold thread. cbn [fst] in Hk.
  assert (Eid : u32 (t + u32 (b * blockDim)) = grid_id (b, t)).
  { assert (E : Z.of_nat (grid_id (b, t)) = t + b * blockDim) by (unfold grid_id; cbn [fst snd]; lia).
    assert (0 <= t + b * blockDim < 2 ^ 31) by lia. assert (0 <= b * blockDim) by nia. rewrite (u32_small (b * blockDim)) by lia. rewrite u32_small by lia. lia. }
  cbv zeta. rewrite Eid, Nat2Z.id. set (i := grid_id (b, t)) in *. rewrite Hk. cbn [default].
  destruct (bigint_plus_ok iv i Hiv Hivb ltac:(lia)) as [Lp Op]. rewrite (EncryptOne_ok key e K) by done.
  rewrite (bind_done _ _ _ _ _ (dev_read_ok g in_ (Block si inp) (16 * i) 16 Ei ltac:(cbn [b_size]; lia))). cbn [b_data].
  rewrite ParallelXor_ok; [|done|apply bytes_ok_aes; [apply (ek_key _ _ K)|done]|apply length_rd|eapply input_ok; [exact B|done]].
  assert (Lb : length (gpu_block inp i) = 16%nat) by (unfold gpu_block; by rewrite length_xor_bytes, length_rd).
  fold (gpu_block inp i). rewrite (dev_write_ok g out (Block so outp)) by (try done; rewrite Lb; cbn [b_size]; lia).
  unfold with_out. by rewrite Eo.
Qed.

Lemma with_out_same inp outp g : buffers inp outp g -> with_out outp g = g.
Proof. intros [_ (so & Eo & Ho) _]. unfold with_out. rewrite Eo. cbn [b_size]. rewrite insert_id by done. by destruct g. Qed.

Lemma threads_ok bufkeys inp L : (forall b, (b < blocks)%nat -> bufkeys !! b = Some e) -> Forall in_grid L -> forall outp g, buffers inp outp g ->
  exists f, each (thread in_ out iv bufkeys blockDim) L g = Done (tt, with_out f g) /\
    (forall i, (i < blocks * blockDim)%nat -> rd f (16 * i) 16 = if decide (i ∈ grid_id <$> L) then gpu_block inp i else rd outp (16 * i) 16) /\
    (forall j, (16 * (blocks * blockDim) <= j)%nat -> f j = outp j).
Proof using K Hiv Hivb Hn Hne.
  intros Hk. induction L as [|bt L IH]; intros HL outp g B.
  - exists outp. split_and!; [by rewrite (with_out_same inp)|intros i _; by rewrite decide_False by set_solver|done].
  - apply Forall_cons in HL as [Hbt HL]. cbn [each]. rewrite (bind_done _ _ _ _ _ (thread_ok bufkeys inp outp g bt Hbt (Hk _ (proj1 Hbt)) B)).
    set (d := gpu_block inp (grid_id bt)). set (o1 := wr outp (16 * grid_id bt) d).
    assert (Ld : length d = 16%nat) by (unfold d, gpu_block; by rewrite length_xor_bytes, length_rd).
    destruct (IH HL o1 _ (buffers_with_out inp outp o1 g B)) as (f & -> & Hf & Hhi). exists f. rewrite (with_out_twice _ _ _ inp outp B). split_and!; [done|..].
    + intros i Hi. rewrite Hf by done. cbn [fmap list_fmap]. destruct (decide (i ∈ grid_id <$> L)); [by rewrite decide_True by set_solver|].
      destruct (decide (i = grid_id bt)) as [->|Hni].
      * rewrite decide_True by set_solver. unfold o1. rewrite <- Ld at 2. apply rd_wr.
      * rewrite decide_False by (intros [?|?]%elem_of_cons; done). unfold o1. apply rd_wr_other. lia.
    + intros j Hj. rewrite Hhi by done. unfold o1, wr. pose proof (grid_id_lt bt Hbt). destruct (Nat.ltb_spec j (16 * grid_id bt + length d)); [lia|]. by rewrite andb_false_r.
Qed.
End Threads.

(** A schedule of the grid runs every thread of it, in any order. *)
Record runs_grid (blocks threads : nat) (s : schedule) : Prop := {
  rg_load : forall b, (b < blocks)%nat -> s_load s b ≡ₚ seq 0 threads;
  rg_run : s_run s ≡ₚ (seq 0 blocks ≫= fun b => pair b <$> seq 0 threads);
}.

Lemma runs_all blocks threads s : runs_grid blocks threads s ->
  Forall (in_grid threads blocks) (s_run s) /\ forall i, (i < blocks * threads)%nat -> i ∈ grid_id threads <$> s_run s.
Proof.
  intros [_ H]. split.
  - rewrite H. apply Forall_forall. intros [b t] (b' & (t' & E & Ht)%list_elem_of_fmap & Hb)%list_elem_of_bind. apply elem_of_seq in Hb, Ht. injection E as -> ->.
    split; cbn [fst snd]; lia.
  - intros i Hi. rewrite H. apply list_elem_of_fmap. exists ((i / threads)%nat, (i mod threads)%nat). unfold grid_id. cbn [fst snd].
    assert (threads <> 0%nat) by lia. pose proof (Nat.div_mod_eq i threads). split; [lia|].
    apply list_elem_of_bind. exists (i / threads)%nat. split; [|apply elem_of_seq; split; [lia|]; apply Nat.Div0.div_lt_upper_bound; lia].
    apply list_elem_of_fmap. eexists. split; [done|]. apply elem_of_seq. pose proof (Nat.mod_upper_bound i threads). lia.
Qed.

(** ** The kernel and the call *)

(** What [gpu_init] and [gpu_set_key] leave, but for the output buffer *)
Record ready (key : bytes) (g : gpu) : Prop := {
  rd_sbox : g_tex g d_sbox = true /\ exists f, g_mem g !! g_ptr g d_sbox = Some (Block 256 f) /\ rd f 0 256 = Sbox;
  rd_key : exists f, g_mem g !! g_ptr g d_expkey = Some (Block 176 f) /\ expanded_key key (rd f 0 176);
  rd_in : exists f, g_mem g !! g_ptr g d_in_enc = Some (Block MAX_BLOCK_SIZE f);
  rd_host : exists f, g_host g h_in_enc = Some (Block MAX_BLOCK_SIZE f);
  rd_apart : NoDup [g_ptr g d_sbox; g_ptr g d_expkey; g_ptr g d_in_enc; g_ptr g d_out_enc];
}.

(** Only the contents of the input and the output change. *)
Record same_but_buffers (g g' : gpu) : Prop := {
  sb_ptr : g_ptr g' = g_ptr g;
  sb_tex : g_tex g' = g_tex g;
  sb_answers : g_answers g' = g_answers g;
  sb_env : no_encrypt g' = no_encrypt g;
  sb_mem : forall a, a <> g_ptr g d_in_enc -> a <> g_ptr g d_out_enc -> g_mem g' !! a = g_mem g !! a;
}.

Lemma apart4 (a b c d : Z) : NoDup [a; b; c; d] -> a <> b /\ a <> c /\ a <> d /\ b <> c /\ b <> d /\ c <> d.
Proof. rewrite !NoDup_cons, !not_elem_of_cons. tauto. Qed.

Lemma ready_kept key g g' : ready key g -> same_but_buffers g g' -> (exists f, g_mem g' !! g_ptr g d_in_enc = Some (Block MAX_BLOCK_SIZE f)) ->
  (exists f, g_host g' h_in_enc = Some (Block MAX_BLOCK_SIZE f)) -> ready key g'.
Proof.
  intros [R1 R2 R3 R4 R5] [S1 S2 S3 S4 S5] Hi Hh. destruct (apart4 _ _ _ _ R5) as (? & ? & ? & ? & ? & ?). split; rewrite ?S1, ?S2; try done; by rewrite S5.
Qed.

Section Process.
Context (key iv : bytes) (Hiv : iv_ok iv).
Context (sch : nat -> schedule) (Hs : forall n, runs_grid n 256 (sch n)) (junk : nat -> bytes) (Hj : forall b, length (junk b) = 176%nat).

(** What a thread computes is a block of counter mode, as long as no counter passes the end. *)
Lemma gpu_block_ctr inp (i : nat) : be_value iv + i < 2 ^ 128 -> Z.of_nat i < 2 ^ 31 -> bytes_ok key ->
  gpu_block key iv inp i = xor_bytes (@encrypt_one aes_cipher key (Nat.iter i ctr_succ iv)) (rd inp (16 * i) 16).
Proof using Hiv.
  intros Hi Hm Hk. destruct Hiv as [Hl Hb]. unfold gpu_block. f_equal. rewrite iter_succ_value, encrypt_one_aes by (done || apply bytes_ok_be_bytes).
  rewrite bigint_plus_exact by (done || lia). f_equal. f_equal.
  assert (before_last i <= i) by (unfold before_last; Z.div_mod_to_equations; lia). destruct (Z.leb_spec (2 ^ 128) (be_value iv + before_last i)); lia.
Qed.

Lemma ctr_blocks_mjoin inp n :
  mjoin ((fun i => xor_bytes (@encrypt_one aes_cipher key (Nat.iter i ctr_succ iv)) (rd inp (16 * i) 16)) <$> seq 0 n)
    = xor_bytes (rd inp 0 (16 * n)) (@ks_blocks aes_cipher key iv n).
Proof.
  induction n as [|n IH]; [done|]. rewrite seq_S, fmap_app, join_app, IH. cbn [fmap list_fmap mjoin list_join].
  replace (16 * S n)%nat with (16 * n + 16)%nat by lia. rewrite rd_app. replace (S n) with (n + 1)%nat by lia. rewrite ks_blocks_add.
  rewrite xor_bytes_app by (rewrite length_rd, length_ks_blocks; done). f_equal. cbn [ks_blocks Nat.add]. rewrite !app_nil_r. apply xor_bytes_comm.
Qed.

Lemma fetches_ok g : ready key g -> fetches d_sbox Sbox g = Done (tt, g).
Proof.
  intros [(T & f & E & F) _ _ _ _]. unfold fetches. rewrite (bind_done get _ g g g) by done. rewrite T.
  rewrite (bind_done _ _ _ _ _ (dev_read_ok g _ _ 0 256 E ltac:(cbn [b_size]; lia))). cbn [b_data]. by rewrite F, bool_decide_true.
Qed.

Lemma kernel_ok n g inp outp : ready key g -> Z.of_nat (n * 256) < 2 ^ 31 -> buffers (g_ptr g d_in_enc) (g_ptr g d_out_enc) 256 n inp outp g ->
  exists f, encrypt_decrypt_counter (sch n) junk n 256 (g_ptr g d_in_enc) (g_ptr g d_expkey) (g_ptr g d_out_enc) iv g = Done (tt, with_out (g_ptr g d_out_enc) f g) /\
    forall i, (i < n * 256)%nat -> rd f (16 * i) 16 = gpu_block key iv inp i.
Proof using Hiv Hs Hj.
  intros R Hn B. pose proof R as [_ (ek & Ek & Kk) _ _ Hd]. destruct (apart4 _ _ _ _ Hd) as (_ & _ & _ & _ & _ & Hio). unfold encrypt_decrypt_counter.
  rewrite (bind_done _ _ _ _ _ (fetches_ok g R)). pose proof (rg_load _ _ _ (Hs n)) as Hload.
  rewrite (bind_done _ _ _ _ _ (load_blocks_ok g _ _ junk (s_load (sch n)) (seq 0 n) Ek eq_refl Hj
    ltac:(intros k w [_ Hk]%elem_of_seq Hw; rewrite Hload by lia; apply elem_of_seq; lia))). cbn [b_data]. rewrite length_seq.
  destruct (runs_all n 256 (sch n) (Hs n)) as [HF Hall]. destruct Hiv as [Hl Hb].
  destruct (threads_ok key iv (rd ek 0 176) Kk Hl Hb (g_ptr g d_in_enc) (g_ptr g d_out_enc) Hio 256 n Hn (replicate n (rd ek 0 176)) inp (s_run (sch n))
    ltac:(intros b Hlt; by apply lookup_replicate_2) HF outp g B) as (f & -> & Hf & _).
  exists f. split; [done|]. intros i Hi. rewrite Hf by done. by rewrite decide_True by auto.
Qed.

(** The pieces of the call before the kernel: the input, through pinned memory, to the device *)
Lemma send_ok g d : ready key g -> Z.of_nat (length d) <= MAX_BLOCK_SIZE ->
  exists g1 g2, host_write h_in_enc d g = Done (tt, g1) /\ host_read h_in_enc (length d) g1 = Done (d, g1) /\ g_ptr g1 = g_ptr g /\
    dev_write (g_ptr g d_in_enc) 0 d g1 = Done (tt, g2) /\ same_but_buffers g g2 /\ ready key g2 /\
    (exists inp, g_mem g2 !! g_ptr g d_in_enc = Some (Block MAX_BLOCK_SIZE inp) /\ rd inp 0 (length d) = d) /\
    g_mem g2 !! g_ptr g d_out_enc = g_mem g !! g_ptr g d_out_enc.
Proof.
  intros R Hd. pose proof R as [_ _ (fi & Ei) (fh & Eh) Ha]. destruct (apart4 _ _ _ _ Ha) as (_ & _ & _ & _ & _ & Hio).
  assert (Ib : forall f, in_block (Block MAX_BLOCK_SIZE f) 0 (length d) = true) by (intros f; apply Z.leb_le; exact Hd).
  set (g1 := set_host h_in_enc (Block MAX_BLOCK_SIZE (wr fh 0 d)) g).
  assert (Eg : g_host g1 h_in_enc = Some (Block MAX_BLOCK_SIZE (wr fh 0 d))) by (cbn [g1 set_host g_host]; by rewrite fn_lookup_insert).
  set (g2 := set_mem (<[g_ptr g d_in_enc := Block MAX_BLOCK_SIZE (wr fi 0 d)]> (g_mem g1)) g1). exists g1, g2.
  assert (Em : g_mem g2 !! g_ptr g d_in_enc = Some (Block MAX_BLOCK_SIZE (wr fi 0 d))) by (cbn [g2 set_mem g_mem]; by rewrite lookup_insert_eq).
  assert (S : same_but_buffers g g2) by (split; try done; intros a Hi _; cbn [g2 g1 set_mem set_host g_mem]; by rewrite lookup_insert_ne).
  split_and!.
  - unfold host_write, bind, gets. rewrite Eh, Ib. done.
  - unfold host_read, bind, gets. rewrite Eg, Ib. cbn [b_data]. by rewrite rd_wr.
  - done.
  - rewrite (dev_write_ok g1 _ (Block MAX_BLOCK_SIZE fi)); [done|exact Ei|exact Hd].
  - done.
  - apply (ready_kept key g); [done|done|by eexists|]. cbn [g2 set_mem g_host]. by eexists.
  - eexists. split; [exact Em|]. apply rd_wr.
  - cbn [g2 g1 set_mem set_host g_mem]. by rewrite lookup_insert_ne.
Qed.

Lemma slice_rd f n c i : ((i + 1) * c <= n)%nat -> slice (c * i) c (rd f 0 n) = rd f (c * i) c.
Proof.
  intros H. replace n with (c * i + (c + (n - c * i - c)))%nat by lia. unfold slice. rewrite !rd_app, drop_app_length' by (by rewrite length_rd).
  by rewrite take_app_length' by (by rewrite length_rd).
Qed.

(** What the device computes for a frame [d], block by block *)
Definition gpu_stream (d : bytes) : bytes :=
  mjoin ((fun i => xor_bytes (aes key (gpu_bigint_plus iv (Z.of_nat i))) (slice (16 * i) 16 d)) <$> seq 0 (length d / 16)).

Lemma gpu_stream_ctr d n : length d = (16 * n)%nat -> be_value iv + n <= 2 ^ 128 -> Z.of_nat n < 2 ^ 31 -> bytes_ok key ->
  gpu_stream d = fst (@ctr_ref aes_cipher key iv d).
Proof using Hiv.
  intros Hd Hn Hm Hk. rewrite (ctr_ref_blocks key iv d n Hd). cbn [fst]. unfold gpu_stream. rewrite Hd, Nat.mul_comm, Nat.div_mul by lia.
  assert (E : d = rd (at_ d) 0 (16 * n)).
  { apply list_eq_same_length with (16 * n)%nat; [by rewrite length_rd|done|]. intros i x y Hi. rewrite rd_lookup by done. cbn [Nat.add].
    intros Hx [= <-]. symmetry. by apply at_lookup. }
  transitivity (xor_bytes (rd (at_ d) 0 (16 * n)) (@ks_blocks aes_cipher key iv n)); [|by rewrite <- E]. rewrite <- ctr_blocks_mjoin. f_equal. apply list_fmap_ext. intros i x Hx. apply lookup_seq in Hx as [-> Hi]. cbn [Nat.add].
  rewrite <- gpu_block_ctr by (done || lia). unfold gpu_block. f_equal. rewrite <- (slice_rd (at_ d) (16 * n)) by lia. by rewrite <- E.
Qed.

Lemma with_out_frame g out sz outp f : g_mem g !! out = Some (Block sz outp) ->
  g_mem (with_out out f g) !! out = Some (Block sz f) /\ forall a, a <> out -> g_mem (with_out out f g) !! a = g_mem g !! a.
Proof.
  intros E. unfold with_out. rewrite E. cbn [b_size set_mem g_mem]. split; [apply lookup_insert_eq|]. intros a Ha. by rewrite lookup_insert_ne.
Qed.

Lemma same_with_out g g2 sz outp f : same_but_buffers g g2 -> g_mem g2 !! g_ptr g d_out_enc = Some (Block sz outp) ->
  same_but_buffers g (with_out (g_ptr g d_out_enc) f g2).
Proof.
  intros [S1 S2 S3 S4 S5] E. destruct (with_out_frame g2 _ sz outp f E) as (_ & W). split; try (unfold with_out; by rewrite E).
  intros a Hi Ho. by rewrite W, S5.
Qed.

Lemma ready_with_out g sz outp f out : ready key g -> out = g_ptr g d_out_enc -> g_mem g !! out = Some (Block sz outp) -> ready key (with_out out f g).
Proof.
  intros R -> E. pose proof R as [_ _ (fi & Ei) (fh & Eh) Ha]. destruct (apart4 _ _ _ _ Ha) as (_ & _ & _ & _ & _ & Hio). destruct (with_out_frame g _ sz outp f E) as (_ & W).
  apply (ready_kept key g); [done|by apply (same_with_out g g sz outp)|exists fi; by rewrite W|exists fh; unfold with_out; by rewrite E].
Qed.

(** The arguments of the launch *)
Lemma launch_size (m : nat) : 0 < m -> (4096 * m) / 16 = m * 256 /\ (THREADS_PER_BLOCK <=? m * 256) = true /\ (4096 * m) mod (THREADS_PER_BLOCK * 16) = 0.
Proof.
  intros H. unfold THREADS_PER_BLOCK. split_and!; [by replace (4096 * m) with (m * 256 * 16) by lia; rewrite Z.div_mul|apply Z.leb_le; lia|].
  change (256 * 16) with 4096. rewrite Z.mul_comm. by apply Z.mod_mul.
Qed.

Lemma process_ok g d (m : nat) sz outp : ready key g -> no_encrypt g = false -> length d = (4096 * m)%nat -> (0 < m)%nat -> 4096 * m <= MAX_BLOCK_SIZE -> bytes_ok d ->
  g_mem g !! g_ptr g d_out_enc = Some (Block sz outp) -> 4096 * m <= sz ->
  exists g' f, gpu_process_string sch junk d iv true g = Done ((0, Some (InGpu (g_ptr g d_out_enc))), g') /\ same_but_buffers g g' /\ ready key g' /\
    g_mem g' !! g_ptr g d_out_enc = Some (Block sz f) /\ rd f 0 (length d) = gpu_stream d.
Proof using Hiv Hs Hj.
  intros R He Hd Hm Hmax Hb Eo Hsz. destruct (send_ok g d R ltac:(lia)) as (g1 & g2 & E1 & E2 & Ep & E3 & S2 & R2 & (inp & Ein & Fin) & Eo2). rewrite Eo in Eo2.
  destruct (launch_size m ltac:(lia)) as (U1 & U2 & U3). assert (Ld : Z.of_nat (length d) = 4096 * m) by lia.
  assert (B : buffers (g_ptr g2 d_in_enc) (g_ptr g2 d_out_enc) 256 m inp outp g2).
  { rewrite (sb_ptr _ _ S2). replace (16 * (m * 256))%nat with (length d) by lia.
    split; [exists MAX_BLOCK_SIZE|exists sz|]; replace (16 * (m * 256))%nat with (length d) by lia; rewrite ?Fin; split_and?; (done || lia). }
  destruct (kernel_ok m g2 inp outp R2 ltac:(unfold MAX_BLOCK_SIZE in *; lia) B) as (f & Ek & Hf). rewrite (sb_ptr _ _ S2) in Ek, B.
  unfold gpu_process_string. rewrite Ld, U3. cbv zeta. rewrite (proj2 (Z.ltb_ge MAX_BLOCK_SIZE (4096 * m)) Hmax). cbn [Z.eqb negb].
  rewrite (bind_done _ _ _ _ _ E1). rewrite (bind_done (gets g_ptr) _ g1 (g_ptr g) g1) by (unfold gets; by rewrite Ep).
  replace (Z.to_nat (4096 * m)) with (length d) by lia. rewrite (bind_done _ _ _ _ _ E2), (bind_done _ _ _ _ _ E3), U1, U2.
  change (THREADS_PER_BLOCK =? 0) with false. cbv iota. unfold THREADS_PER_BLOCK. rewrite Z.div_mul by lia. destruct (Z.eqb_spec m 0); [lia|]. rewrite Nat2Z.id.
  rewrite (bind_done (gets no_encrypt) _ g2 false g2) by (unfold gets; by rewrite (sb_env _ _ S2), He). change (Z.to_nat 256) with 256%nat. rewrite (bind_done _ _ _ _ _ Ek).
  destruct (with_out_frame g2 (g_ptr g d_out_enc) sz outp f Eo2) as (W1 & W2). exists (with_out (g_ptr g d_out_enc) f g2), f.
  split_and!; [done|eapply same_with_out; [done|exact Eo2]| |done|].
  - eapply ready_with_out; [exact R2|by rewrite (sb_ptr _ _ S2)|exact Eo2].
  - rewrite Hd. replace (4096 * m)%nat with (16 * (m * 256))%nat by lia. rewrite (rd_mjoin f (gpu_block key iv inp) 16 (m * 256)) by exact Hf.
    unfold gpu_stream. replace (length d / 16)%nat with (m * 256)%nat by (rewrite Hd; replace (4096 * m)%nat with (m * 256 * 16)%nat by lia; by rewrite Nat.div_mul).
    f_equal. apply list_fmap_ext. intros i x Hx. apply lookup_seq in Hx as [-> Hi]. unfold gpu_block. cbn [Nat.add]. f_equal.
    rewrite <- (slice_rd inp (length d)) by lia. by rewrite Fin.
Qed.

(** The output buffer has been freed: the first thread writes to freed memory. *)
Lemma thread_freed g inp sz out bufkeys n bt : g_mem g !! g_ptr g d_in_enc = Some (Block sz inp) -> Z.of_nat (16 * (n * 256)) <= sz -> Z.of_nat (n * 256) < 2 ^ 31 ->
  in_grid 256 n bt -> g_mem g !! out = None -> thread (g_ptr g d_in_enc) out iv bufkeys 256 bt g = Oops UseAfterFree.
Proof.
  intros Ei Hsz Hn Hbt Eo. pose proof (grid_id_lt 256 n bt Hbt) as Hlt. destruct bt as [b t]. unfold thread.
  assert (E : Z.of_nat (grid_id 256 (b, t)) = t + b * 256%nat) by (unfold grid_id; cbn [fst snd]; lia).
  rewrite (u32_small (b * 256%nat)) by (clear -E Hlt Hn; lia). rewrite u32_small by (clear -E Hlt Hn; lia). rewrite <- E, Nat2Z.id. cbv zeta.
  rewrite (bind_done _ _ _ _ _ (dev_read_ok g _ _ (16 * grid_id 256 (b, t)) 16 Ei ltac:(cbn [b_size]; clear -Hlt Hsz; lia))).
  unfold dev_write, bind, gets. by rewrite Eo.
Qed.

Lemma process_freed g d (m : nat) keep : ready key g -> no_encrypt g = false -> length d = (4096 * m)%nat -> (0 < m)%nat -> 4096 * m <= MAX_BLOCK_SIZE ->
  g_mem g !! g_ptr g d_out_enc = None -> gpu_process_string sch junk d iv keep g = Oops UseAfterFree.
Proof using Hs Hj.
  intros R He Hd Hm Hmax Eo. destruct (send_ok g d R ltac:(clear -Hd Hmax; lia)) as (g1 & g2 & E1 & E2 & Ep & E3 & S2 & R2 & (inp & Ein & Fin) & Eo2). rewrite Eo in Eo2.
  destruct (launch_size m ltac:(clear -Hm; lia)) as (U1 & U2 & U3). assert (Ld : Z.of_nat (length d) = 4096 * m) by (clear -Hd; lia).
  assert (Ek : encrypt_decrypt_counter (sch m) junk m 256 (g_ptr g d_in_enc) (g_ptr g d_expkey) (g_ptr g d_out_enc) iv g2 = Oops UseAfterFree).
  { pose proof R2 as [_ (ek & Ek & Kk) _ _ _]. unfold encrypt_decrypt_counter. rewrite (bind_done _ _ _ _ _ (fetches_ok g2 R2)), <- (sb_ptr _ _ S2). pose proof (rg_load _ _ _ (Hs m)) as Hload.
    rewrite (bind_done _ _ _ _ _ (load_blocks_ok g2 _ _ junk (s_load (sch m)) (seq 0 m) Ek eq_refl Hj
      ltac:(intros k w [_ Hlt]%elem_of_seq Hw; rewrite Hload by (clear -Hlt; lia); apply elem_of_seq; clear -Hw; lia))).
    destruct (runs_all m 256 (sch m) (Hs m)) as [HF Hall]. destruct (s_run (sch m)) as [|bt run] eqn:Er.
    - specialize (Hall 0%nat ltac:(clear -Hm; lia)). by apply elem_of_nil in Hall.
    - cbn [each]. apply bind_oops. apply Forall_cons in HF as [Hbt _]. rewrite (sb_ptr _ _ S2) in *. unfold MAX_BLOCK_SIZE in *.
      rewrite <- (sb_ptr _ _ S2) in Ein |- *. eapply (thread_freed _ _ _ _ _ m); [exact Ein|clear -Hmax; lia|clear -Hmax; lia|done|by rewrite (sb_ptr _ _ S2)]. }
  unfold gpu_process_string. rewrite Ld, U3. cbv zeta. rewrite (proj2 (Z.ltb_ge MAX_BLOCK_SIZE (4096 * m)) Hmax). cbn [Z.eqb negb].
  rewrite (bind_done _ _ _ _ _ E1). rewrite (bind_done (gets g_ptr) _ g1 (g_ptr g) g1) by (unfold gets; by rewrite Ep).
  replace (Z.to_nat (4096 * m)) with (length d) by (clear -Ld; lia). rewrite (bind_done _ _ _ _ _ E2), (bind_done _ _ _ _ _ E3), U1, U2.
  change (THREADS_PER_BLOCK =? 0) with false. cbv iota. unfold THREADS_PER_BLOCK. rewrite Z.div_mul by done. destruct (Z.eqb_spec m 0); [lia|]. rewrite Nat2Z.id.
  rewrite (bind_done (gets no_encrypt) _ g2 false g2) by (unfold gets; by rewrite (sb_env _ _ S2), He). change (Z.to_nat 256) with 256%nat. by rewrite (bind_oops _ _ _ _ Ek).
Qed.
End Process.

(** ** Setting up *)

Section Init.
Context (m : gmap Z block) (p : devvar -> Z) (h : hostvar -> option block) (t : devvar -> bool) (e : bool) (l : list (option (Z * (nat -> Z)))).

Lemma alloc_eq v n a f : alloc v n (Gpu m (Some (a, f) :: l) p h t e) = Done (tt, Gpu (<[a := Block n f]> m) l (<[v := a]> p) h t e).
Proof. reflexivity. Qed.

Lemma upload_eq v tab a sz f : p v = a -> m !! a = Some (Block sz f) -> Z.of_nat (length tab) <= sz ->
  upload v tab (Gpu m l p h t e) = Done (tt, Gpu (<[a := Block sz (wr f 0 tab)]> m) l p h t e).
Proof.
  intros <- E H. unfold upload. rewrite (bind_done (gets g_ptr) _ (Gpu m l p h t e) p (Gpu m l p h t e)) by done. rewrite (dev_write_ok _ _ (Block sz f)) by done. done.
Qed.

Lemma bind_texture_eq v : bind_texture v (Gpu m l p h t e) = Done (tt, Gpu m l p h (<[v := true]> t) e).
Proof. reflexivity. Qed.

Lemma malloc_host_eq v n a f : cudaMallocHost v n (Gpu m (Some (a, f) :: l) p h t e) = Done (tt, Gpu m l p (<[v := Some (Block n f)]> h) t e).
Proof. reflexivity. Qed.
End Init.

(** [gpu_init] and [gpu_set_key], when every allocation succeeds with an address of its own *)
Section Startup.
Context (key stack : bytes) (Hk : bytes_ok key) (Hkl : length key = 16%nat) (Hst : length stack = 176%nat).
Context (a : nat -> Z) (f : nat -> nat -> Z) (Ha : forall i j, (i < 11)%nat -> (j < 11)%nat -> a i = a j -> i = j).

Ltac other := let E := fresh in intros E; apply Ha in E; [discriminate|lia|lia].
Ltac looks := repeat first [rewrite lookup_insert_eq | rewrite lookup_insert_ne by other]; reflexivity.
Ltac run E := erewrite bind_done; [|eapply E].
Ltac up := erewrite bind_done; [|eapply upload_eq; [reflexivity|looks|done]].

Lemma init_ok g rest : g_answers g = ((fun i => Some (a i, f i)) <$> seq 0 15) ++ rest ->
  exists g1 g2, gpu_init g = Done (tt, g1) /\ gpu_set_key stack key g1 = Done (tt, g2) /\ ready key g2 /\ g_answers g2 = rest /\ no_encrypt g2 = no_encrypt g /\
    g_ptr g2 d_out_enc = a 7%nat /\ (exists c, g_mem g2 !! a 7%nat = Some (Block MAX_BLOCK_SIZE c)) /\
    (forall x, (forall i, (i < 11)%nat -> x <> a i) -> g_mem g2 !! x = g_mem g !! x).
Proof using Hk Hkl Hst Ha.
  destruct g as [m l p h t e]. cbn [g_answers seq fmap list_fmap app]. intros ->. eexists _, _. split; [|split].
  - unfold gpu_init. run alloc_eq. up. run bind_texture_eq. run alloc_eq. up. run bind_texture_eq.
    do 4 (run alloc_eq). do 4 up. do 4 (run bind_texture_eq). do 5 (run alloc_eq). do 3 (run malloc_host_eq). apply malloc_host_eq.
  - unfold gpu_set_key, bind at 1, gets. cbn [g_ptr]. rewrite (dev_write_ok _ _ (Block 176 (f 10%nat))); [reflexivity| |].
    + cbn [g_mem g_ptr]. looks.
    + rewrite (ek_len _ _ (expanded_ExpandKey key stack Hkl Hk Hst)). cbn [b_size]. lia.
  - cbn [b_size b_data g_mem]. split_and!.
    + pose proof (expanded_ExpandKey key stack Hkl Hk Hst) as KE. split; cbn [set_mem g_mem g_ptr g_host g_tex].
      * split; [reflexivity|]. eexists. split; [looks|]. change 256%nat with (length Sbox). apply rd_wr.
      * eexists. split; [looks|]. pose proof (rd_wr (f 10%nat) 0 (ExpandKey key stack)) as E. rewrite (ek_len _ _ KE) in E. by rewrite E.
      * eexists. looks.
      * eexists. reflexivity.
      * change (NoDup [a 0%nat; a 10%nat; a 6%nat; a 7%nat]). rewrite !NoDup_cons, !not_elem_of_cons. split_and!; try other; (apply not_elem_of_nil || constructor).
    + done.
    + done.
    + done.
    + eexists. cbn [set_mem g_mem]. looks.
    + intros x Hx. cbn [set_mem g_mem]. rewrite !lookup_insert_ne by (apply not_eq_sym, Hx; lia). done.
Qed.
End Startup.

(** ** Properties *)

(** C21 Encryption on the graphics processor is counter mode, whatever order its threads run in.
    Once the device is set up, [gpu_process_string] of a frame of whole launches (a multiple of
    4096 bytes, at most 16 MB) returns 0 without a fault and leaves in the output buffer the
    frame encrypted with the counter mode that the processor and the kernel use, as long as
    no counter passes 2^128.  A frame that is too large or not a multiple is refused with -1
    and changes nothing, and an empty one divides by zero. *)
Theorem gpu_process_is_ctr key iv sch junk g d : ready key g -> iv_ok iv -> (forall n, runs_grid n 256 (sch n)) -> (forall b, length (junk b) = 176%nat) -> bytes_ok d ->
  no_encrypt g = false -> (exists f, g_mem g !! g_ptr g d_out_enc = Some (Block MAX_BLOCK_SIZE f)) ->
  let n := Z.of_nat (length d) in
  (0 < n <= MAX_BLOCK_SIZE -> n mod 4096 = 0 -> be_value iv + n / 16 <= 2 ^ 128 ->
     exists g' f, gpu_process_string sch junk d iv true g = Done ((0, Some (InGpu (g_ptr g d_out_enc))), g') /\ ready key g' /\
       g_mem g' !! g_ptr g d_out_enc = Some (Block MAX_BLOCK_SIZE f) /\ rd f 0 (length d) = fst (@ctr_ref aes_cipher key iv d)) /\
  (MAX_BLOCK_SIZE < n \/ n mod 4096 <> 0 -> forall keep, gpu_process_string sch junk d iv keep g = Done ((-1, None), g)) /\
  (n = 0 -> forall keep, gpu_process_string sch junk d iv keep g = Oops DivZero).
Proof.
  intros R Hiv Hs Hj Hd He (f & Ef) n. split_and!.
  - intros Hn H4 Hv. set (m := Z.to_nat (n / 4096)). assert (Em : n = 4096 * m) by (unfold m; Z.div_mod_to_equations; lia).
    destruct (process_ok key iv Hiv sch Hs junk Hj g d m MAX_BLOCK_SIZE f R He) as (g' & f' & E & _ & R' & Eo & F); [lia..|done|done|lia|].
    exists g', f'. split_and!; [done..|]. rewrite F. apply (gpu_stream_ctr key iv Hiv d (256 * m)).
    + lia.
    + replace (n / 16) with (256 * m) in Hv by (rewrite Em; Z.div_mod_to_equations; lia). lia.
    + unfold MAX_BLOCK_SIZE in *. lia.
    + destruct R as [_ (? & _ & [])]. done.
  - intros H keep. unfold gpu_process_string. fold n. change (THREADS_PER_BLOCK * 16) with 4096.
    destruct (Z.ltb_spec MAX_BLOCK_SIZE n); [done|]. destruct (Z.eqb_spec (n mod 4096) 0); [lia|done].
  - intros H keep. assert (Ed : d = []) by (apply nil_length_inv; lia). rewrite Ed.
    destruct (send_ok key g [] R) as (g1 & g2 & E1 & E2 & Ep & E3 & _ & _ & _ & _); [cbn; unfold MAX_BLOCK_SIZE; lia|].
    unfold gpu_process_string. cbn [length]. cbv zeta. change (MAX_BLOCK_SIZE <? Z.of_nat 0) with false.
    change (negb (Z.of_nat 0 mod (THREADS_PER_BLOCK * 16) =? 0)) with false. cbv iota. rewrite (bind_done _ _ _ _ _ E1). rewrite (bind_done (gets g_ptr) _ g1 (g_ptr g) g1) by (unfold gets; by rewrite Ep).
    change (Z.to_nat (Z.of_nat 0)) with (length (@nil Z)). rewrite (bind_done _ _ _ _ _ E2), (bind_done _ _ _ _ _ E3). done.
Qed.

(** A device whose allocations are numbered from 1, and threads that run in order *)
Definition fresh_gpu (rest : list (option (Z * (nat -> Z)))) : gpu :=
  Gpu ∅ (((fun i => Some (Z.of_nat i + 1, fun _ => 0)) <$> seq 0 15) ++ rest) (fun _ => 0) (fun _ => None) (fun _ => false) false.
Definition in_order (n : nat) : schedule := Schedule (fun _ => seq 0 256) (seq 0 n ≫= fun b => pair b <$> seq 0 256).

Lemma in_order_runs n : runs_grid n 256 (in_order n).
Proof. by split. Qed.

Lemma gpu_process_is_ctr_witness :
  exists g1 g2 g' f, gpu_init (fresh_gpu []) = Done (tt, g1) /\ gpu_set_key (zeros 176) (seqZ 0 16) g1 = Done (tt, g2) /\
    gpu_process_string in_order (fun _ => zeros 176) (zeros 4096) (zeros 16) true g2 = Done ((0, Some (InGpu (g_ptr g2 d_out_enc))), g') /\
    g_mem g' !! g_ptr g2 d_out_enc = Some (Block MAX_BLOCK_SIZE f) /\ rd f 0 4096 = fst (@ctr_ref aes_cipher (seqZ 0 16) (zeros 16) (zeros 4096)).
Proof.
  destruct (init_ok (seqZ 0 16) (zeros 176) ltac:(apply bytes_ok_check; vm_compute; reflexivity) eq_refl (length_zeros 176) (fun i => Z.of_nat i + 1) (fun _ _ => 0) ltac:(cbv beta; intros; lia)
    (fresh_gpu []) [] eq_refl) as (g1 & g2 & E1 & E2 & R & _ & Ee & Ep & Eo & _).
  destruct (gpu_process_is_ctr (seqZ 0 16) (zeros 16) in_order (fun _ => zeros 176) g2 (zeros 4096)) as (H & _ & _);
    [exact R|split; [apply length_zeros|apply bytes_ok_zeros]|apply in_order_runs|intros; apply length_zeros|apply bytes_ok_zeros|exact Ee|rewrite Ep; exact Eo|].
  rewrite length_zeros in H. destruct H as (g' & f & E & _ & Em & F); [unfold MAX_BLOCK_SIZE; lia|reflexivity|vm_compute; discriminate|].
  exists g1, g2, g', f. split_and!; assumption.
Defined.
