(* ===== verification/GpuDisplay.v ===== *)
(** * The private display

    The guest's screen goes to the graphics card encrypted: QEMU (ui/sdl.c) hands each frame to
    a thread (src/host/gpu/display/encrypted-display.cpp) that encrypts it with the AES
    instructions and lets the graphics processor decrypt it into the texture that is shown.
    The two threads share one buffer under a lock with one condition variable. *)

From stdpp Require Import functions.
From S2P Require Import Prelude Fips197 Ctr AesCipher AesNi LibPriv LibAesNi AesGeneric GpuTables GpuAes GpuKernel.

#[local] Existing Instance aes_cipher.

(** ** State *)

(** [struct exchange_buffer], with the cipher of the processor ([hd] of aes_cpu.cpp), the array
    behind the texture ([a_Src]) and the frames that were shown, the last one first.  [asleep]
    is whether the thread waits for the condition. *)
Record display := Display {
  x_gpu : gpu;
  hd : option bytes;
  a_Src : bytes;
  screen : list bytes;
  bufptr : bytes;
  x_w : Z;
  x_h : Z;
  x_iv : bytes;
  aeskeyptr : bytes;
  ready_cpu : bool;
  ready_gpu : bool;
  inited : bool;
  asleep : bool;
}.

Definition set_gpu (g : gpu) (d : display) : display := Display g (hd d) (a_Src d) (screen d) (bufptr d) (x_w d) (x_h d) (x_iv d) (aeskeyptr d) (ready_cpu d) (ready_gpu d) (inited d) (asleep d).
Definition set_hd (h : option bytes) (d : display) : display := Display (x_gpu d) h (a_Src d) (screen d) (bufptr d) (x_w d) (x_h d) (x_iv d) (aeskeyptr d) (ready_cpu d) (ready_gpu d) (inited d) (asleep d).
Definition set_array (a : bytes) (d : display) : display := Display (x_gpu d) (hd d) a (screen d) (bufptr d) (x_w d) (x_h d) (x_iv d) (aeskeyptr d) (ready_cpu d) (ready_gpu d) (inited d) (asleep d).
Definition set_screen (l : list bytes) (d : display) : display := Display (x_gpu d) (hd d) (a_Src d) l (bufptr d) (x_w d) (x_h d) (x_iv d) (aeskeyptr d) (ready_cpu d) (ready_gpu d) (inited d) (asleep d).
Definition set_buf (b : bytes) (d : display) : display := Display (x_gpu d) (hd d) (a_Src d) (screen d) b (x_w d) (x_h d) (x_iv d) (aeskeyptr d) (ready_cpu d) (ready_gpu d) (inited d) (asleep d).
Definition set_iv (v : bytes) (d : display) : display := Display (x_gpu d) (hd d) (a_Src d) (screen d) (bufptr d) (x_w d) (x_h d) v (aeskeyptr d) (ready_cpu d) (ready_gpu d) (inited d) (asleep d).
Definition set_flags (c g i s : bool) (d : display) : display := Display (x_gpu d) (hd d) (a_Src d) (screen d) (bufptr d) (x_w d) (x_h d) (x_iv d) (aeskeyptr d) c g i s.

Definition on_gpu {A} (m : M gpu A) : M display A := zoom x_gpu set_gpu m.

Section Display.
(** What the registers hold at a call of the assembly, the scheduler of the device, and what
    shared memory, the stack and fresh memory of the processor hold *)
Context (regs : nat -> state) (sch : nat -> schedule) (junk : nat -> bytes) (stack fresh : bytes).

(** ** The processor's side (aes_cpu.cpp) *)

(** [posix_memalign] of a [struct aes_ctx] *)
Definition cpu_init : M display unit := modify (set_hd (Some fresh)).

Definition cpu_set_key (key : bytes) : M display Z :=
  let! h := gets hd in
  match h with
  | None => oops Exit
  | Some ctx =>
      match call_set_key regs (Asm ctx []) key 16 with
      | Done (rc, st) => modify (set_hd (Some (am_ctx st))) ;; ret rc
      | Oops f => oops f
      end
  end.

(** The counter is passed by value; the data is encrypted in place. *)
Definition cpu_encrypt_string_count (in_ ctr : bytes) : M display bytes :=
  let! h := gets hd in
  match h with
  | None => oops Exit
  | Some ctx =>
      let! g := gets x_gpu in
      if no_encrypt g then ret in_ else
      match call_ctr_enc regs (length in_) (Asm ctx ctr) in_ (length in_) with
      | Done (out, st) => modify (set_hd (Some (am_ctx st))) ;; ret out
      | Oops f => oops f
      end
  end.

Definition cpu_decrypt_string_count (in_ ctr : bytes) : M display bytes :=
  let! g := gets x_gpu in
  if no_encrypt g then ret in_ else cpu_encrypt_string_count in_ ctr.

Definition aes_cpu_exit : M display unit := modify (set_hd None).

(** ** The screen *)

Definition gpu_init_encryption (aeskey : bytes) : M display unit :=
  on_gpu gpu_init ;;
  on_gpu (gpu_set_key stack aeskey) ;;
  cpu_init ;;
  cpu_set_key aeskey ;;
  ret tt.

(** [gpu_updateScreen]: the status of [gpu_decrypt_string] is not looked at; after a status of 0
    [cudaData] is the buffer of the device, else the one allocated here. *)
Definition gpu_updateScreen (hSrc_encrypted iv : bytes) : M display unit :=
  let imgSize := length hSrc_encrypted in
  let! cudaData := on_gpu (cudaMalloc imgSize) in
  let! r := on_gpu (gpu_decrypt_string sch junk hSrc_encrypted iv true) in
  let cudaData := match snd r with Some (InGpu a) => a | _ => cudaData end in
  let! img := on_gpu (dev_read cudaData 0 imgSize) in
  modify (set_array img) ;;
  on_gpu (cudaFree cudaData).

(** [X11_GL_SwapBuffers_mark] *)
Definition swap_buffers : M display unit := modify (fun d => set_screen (a_Src d :: screen d) d).

(** [exchange_buffer::draw], without the measurement of time *)
Definition draw : M display unit :=
  let! d := get in
  let! enc := cpu_encrypt_string_count (bufptr d) (x_iv d) in
  modify (set_buf enc) ;;
  gpu_updateScreen enc (x_iv d) ;;
  swap_buffers ;;
  modify (set_iv (bigint_plus (x_iv d) (u32 (x_w d * x_h d * 4 / 16)))).

(** ** The two threads *)

(** [invoke_thread] up to the start of the thread; [buf] is what [malloc] returned. *)
Definition invoke_thread (g : gpu) (buf aeskey iv : bytes) (w h : Z) : outcome display :=
  if (w =? 0) || (h =? 0) then Oops Exit else
  Done (Display g None [] [] buf w h iv aeskey false false false false).

(** [exchange_buffer::run] until it first waits: [init_gpu_thread], then the signal *)
Definition run_start : M display unit :=
  let! d := get in
  gpu_init_encryption (aeskeyptr d) ;;
  modify (fun d => set_buf (zeros (length (bufptr d))) d) ;;
  modify (set_flags false true true true).

(** One pass of the loop of [run] while the thread holds the lock, after it has been woken (by
    a signal or for no reason): a frame that is ready is drawn, then the thread waits. *)
Definition run_pass : M display unit :=
  let! d := get in
  if ready_cpu d then
    draw ;;
    modify (fun d => set_flags false true (inited d) true d)
  else modify (fun d => set_flags false (ready_gpu d) (inited d) true d).

(** [exchange_buffer::encrypt], the other thread's section: [None] if it has to wait *)
Definition encrypt (img : bytes) : M display (option unit) :=
  let! d := get in
  if (length img =? 0)%nat then oops Exit else
  if negb (ready_gpu d) then ret None else
  if (length (bufptr d) <? length img)%nat then oops OutOfBounds else
  modify (set_buf (splice 0 img (bufptr d))) ;;
  modify (fun d => set_flags true (ready_gpu d) (inited d) false d) ;;
  ret (Some tt).

(** What the threads do, in any order *)
Inductive dop := Send (img : bytes) | Wake.
Definition dstep (o : dop) : M display unit :=
  match o with
  | Send img => encrypt img ;; ret tt
  | Wake => run_pass
  end.
Fixpoint drun (os : list dop) : M display unit :=
  match os with [] => ret tt | o :: os => dstep o ;; drun os end.

(** ** ui/sdl.c *)

Definition GL_TURNON_WIDTH : Z := 1024.
(** "111 111 111 111 " *)
Definition aeskey : bytes := [49; 49; 49; 32; 49; 49; 49; 32; 49; 49; 49; 32; 49; 49; 49; 32].
Definition first_iv : bytes := le_bytes 4 1 ++ le_bytes 4 2 ++ le_bytes 4 3 ++ le_bytes 4 4.

(** [gpu_set_gl_properties]; [disabled] is whether DISABLE_GPU_ENC is set. *)
Definition gpu_set_gl_properties (disabled : bool) (g : gpu) (buf : bytes) (w h : Z) : outcome (option display) :=
  if disabled then Done None else
  if negb (w =? GL_TURNON_WIDTH) then Done None else
  match invoke_thread g buf aeskey first_iv w h with Done d => Done (Some d) | Oops f => Oops f end.

(** [sdl_update]: [None] if the frame is drawn without encryption *)
Definition sdl_update (disabled : bool) (width : Z) (data : option bytes) : M display (option unit) :=
  if negb (width =? GL_TURNON_WIDTH) || disabled then ret None else
  match data with
  | None => ret (Some tt)
  | Some img => encrypt img
  end.
End Display.

(** ** What the display is to do *)

(** The frame that waits, and the frames shown, the last one first: a new frame replaces one
    that waits. *)
Record dspec := Spec { pending : option bytes; shown : list bytes }.
Definition spec_step (s : dspec) (o : dop) : dspec :=
  match o with
  | Send img => Spec (Some img) (shown s)
  | Wake => match pending s with Some f => Spec None (f :: shown s) | None => s end
  end.
Fixpoint wakes (os : list dop) : nat :=
  match os with [] => 0 | Send _ :: os => wakes os | Wake :: os => S (wakes os) end.

(** Counter mode undoes itself. *)
Lemma ctr_ref_undone key iv d : fst (ctr_ref key iv (fst (ctr_ref key iv d))) = d.
Proof.
  unfold ctr_ref. cbn [fst]. rewrite length_xor_bytes, length_keystream, Nat.min_id. apply xor_bytes_involutive. by rewrite length_keystream.
Qed.

Lemma length_ctr_ref key iv d : length (fst (ctr_ref key iv d)) = length d.
Proof. unfold ctr_ref. cbn [fst]. by rewrite length_xor_bytes, length_keystream, Nat.min_id. Qed.

Lemma bytes_ok_ctr_ref key iv d : bytes_ok d -> bytes_ok (fst (ctr_ref key iv d)).
Proof. intros H. unfold ctr_ref. cbn [fst]. apply bytes_ok_xor; [done|apply bytes_ok_keystream]. Qed.

Section Frames.
Context (regs : nat -> state) (sch : nat -> schedule) (junk : nat -> bytes).
Context (Hs : forall n, runs_grid n 256 (sch n)) (Hj : forall b, length (junk b) = 176%nat).
Context (key iv0 : bytes) (Hk : bytes_ok key) (Hkl : length key = 16%nat) (Hiv : iv_ok iv0).
(** The frame has [4096 * m] bytes. *)
Context (m : nat) (Hm : (0 < m)%nat) (Hmax : 4096 * m <= MAX_BLOCK_SIZE).

(** The counter of frame number [n] *)
Definition frame_iv (n : nat) : bytes := be_bytes 16 (be_value iv0 + 256 * m * n).

(** What [cudaMalloc] will answer: the first time an address that is not in use, and from then
    on, when the output buffer has been freed, the address of that buffer. *)
Definition reused (g : gpu) (x : option (Z * (nat -> Z))) : Prop := exists f, x = Some (g_ptr g d_out_enc, f).
Record supply (n : nat) (g : gpu) : Prop := {
  sp_len : (n <= length (g_answers g))%nat;
  sp_out : (exists f, g_mem g !! g_ptr g d_out_enc = Some (Block MAX_BLOCK_SIZE f) /\
             (g_answers g = [] \/ exists a c l, g_answers g = Some (a, c) :: l /\ g_mem g !! a = None /\ Forall (reused g) l)) \/
           (g_mem g !! g_ptr g d_out_enc = None /\ Forall (reused g) (g_answers g));
}.

(** The state of the threads, for [n] more frames *)
Record dinv (n : nat) (s : dspec) (d : display) : Prop := {
  di_ready : ready key (x_gpu d);
  di_env : no_encrypt (x_gpu d) = false;
  di_supply : supply n (x_gpu d);
  di_hd : exists ctx, hd d = Some ctx /\ expanded_ctx key ctx;
  di_size : x_w d * x_h d * 4 = 4096 * m;
  di_len : length (bufptr d) = (4096 * m)%nat;
  di_ok : bytes_ok (bufptr d);
  di_iv : x_iv d = frame_iv (length (shown s));
  di_screen : screen d = shown s;
  di_flags : ready_gpu d = true /\ inited d = true /\ asleep d = negb (ready_cpu d);
  di_buf : match pending s with
           | Some f => ready_cpu d = true /\ bufptr d = f
           | None => ready_cpu d = false /\
               bufptr d = match shown s with [] => zeros (4096 * m) | f :: l => fst (ctr_ref key (frame_iv (length l)) f) end
           end;
}.

Lemma frame_iv_ok n : iv_ok (frame_iv n).
Proof. split; [apply length_be_bytes|apply bytes_ok_be_bytes]. Qed.

Lemma frame_iv_value (n : nat) : be_value iv0 + 256 * m * n < 2 ^ 128 -> be_value (frame_iv n) = be_value iv0 + 256 * m * n.
Proof using Hiv.
  intros H. unfold frame_iv. rewrite be_value_bytes. apply Z.mod_small. destruct Hiv as [Hl Hb]. pose proof (be_value_16 iv0 Hl Hb) as Hv. change (256 ^ 16%nat) with (2 ^ 128). clear -H Hv. lia.
Qed.

(** *** The processor's side *)

Lemma cpu_encrypt_ok d ctx data iv k : hd d = Some ctx -> expanded_ctx key ctx -> no_encrypt (x_gpu d) = false -> iv_ok iv -> length data = (16 * k)%nat -> Z.of_nat (length data) < 2 ^ 63 ->
  exists ctx', cpu_encrypt_string_count regs data iv d = Done (fst (ctr_ref key iv data), set_hd (Some ctx') d) /\ expanded_ctx key ctx'.
Proof using Hk Hkl.
  intros Hh Hc He Hi Hl H63. unfold cpu_encrypt_string_count. rewrite (bind_done (gets hd) _ d (Some ctx) d) by (unfold gets; by rewrite Hh).
  rewrite (bind_done (gets x_gpu) _ d (x_gpu d) d) by done. rewrite He.
  assert (R : related (Asm ctx iv) (Aesni key iv)) by (split; try done; by left).
  pose proof (call_ctr_enc_ok regs (length data) (Asm ctx iv) (Aesni key iv) data (length data) R (le_n _) H63 ltac:(clear; lia)) as C. cbn [as_key as_iv] in C.
  rewrite (aesni_ctr_enc_ref key iv data k Hi Hl) in C. destruct (ctr_ref key iv data) as [out v]. destruct C as (st' & -> & [_ _ R3 _ _]). cbn [as_key] in R3.
  exists (am_ctx st'). by split.
Qed.

(** *** The device's side *)

Lemma on_gpu_done {A} (c : M gpu A) d a g : c (x_gpu d) = Done (a, g) -> on_gpu c d = Done (a, set_gpu g d).
Proof. intros E. unfold on_gpu, zoom. by rewrite E. Qed.

(** After [cudaMalloc] the output buffer is there, large enough, and everything else as before. *)
Lemma malloc_ok n g : ready key g -> supply (S n) g -> exists a g1, cudaMalloc (4096 * m) g = Done (a, g1) /\ ready key g1 /\ g_ptr g1 = g_ptr g /\ no_encrypt g1 = no_encrypt g /\
  (exists sz f, g_mem g1 !! g_ptr g d_out_enc = Some (Block sz f) /\ 4096 * m <= sz) /\ g_answers g1 = tail (g_answers g) /\ Forall (reused g) (g_answers g1) /\ (n <= length (g_answers g1))%nat.
Proof using Hkl Hm Hmax.
  intros R [Hlen Hsup]. pose proof R as [(T & fs & Es & Fs) (fk & Ek & Kk) (fi & Ei) Hh Ha]. destruct (apart4 _ _ _ _ Ha) as (_ & _ & N1 & _ & N2 & N3).
  assert (X : exists a c l, g_answers g = Some (a, c) :: l /\ Forall (reused g) l /\ (g_mem g !! a = None \/ a = g_ptr g d_out_enc) /\
    exists sz f, <[a := Block (4096 * m) c]> (g_mem g) !! g_ptr g d_out_enc = Some (Block sz f) /\ 4096 * m <= sz).
  { destruct Hsup as [(f & Eo & [E|(a & c & l & El & Ea & Hl)])|[Eo Hl]].
    - rewrite E in Hlen. cbn in Hlen. lia.
    - exists a, c, l. split_and!; [done..|by left|]. exists MAX_BLOCK_SIZE, f. split; [|done]. rewrite lookup_insert_ne; [done|]. intros ->. congruence.
    - destruct (g_answers g) as [|x l] eqn:El; [cbn in Hlen; lia|]. apply Forall_cons in Hl as [[c ->] Hl]. exists (g_ptr g d_out_enc), c, l.
      split_and!; [done..|by right|]. rewrite lookup_insert_eq. exists (4096 * m), c. split; [done|lia]. }
  destruct X as (a & c & l & El & Hl & Hfresh & Hout). exists a. eexists. split; [unfold cudaMalloc, cuda_answer, bind, gets; rewrite El; reflexivity|]. cbn [fst snd].
  rewrite El in Hlen |- *. cbn [length set_answers set_mem g_answers g_mem g_ptr no_encrypt g_host g_tex tail] in *.
  assert (Na : forall p b, g_mem g !! p = Some b -> p <> g_ptr g d_out_enc -> p <> a) by (intros p b Hp Hne ->; destruct Hfresh; [congruence|done]).
  split_and!; try done; [|lia]. split; cbn [set_answers set_mem g_answers g_mem g_ptr no_encrypt g_host g_tex]; try done.
  - split; [done|]. exists fs. rewrite lookup_insert_ne; [done|]. symmetry. by eapply Na.
  - exists fk. rewrite lookup_insert_ne; [done|]. symmetry. by eapply Na.
  - exists fi. rewrite lookup_insert_ne; [done|]. symmetry. by eapply Na.
Qed.

Lemma free_ok g a b : g_mem g !! a = Some b -> cudaFree a g = Done (tt, set_mem (delete a (g_mem g)) g).
Proof. intros E. unfold cudaFree, bind, gets. by rewrite E. Qed.

Lemma update_ok n d enc iv : ready key (x_gpu d) -> no_encrypt (x_gpu d) = false -> supply (S n) (x_gpu d) -> iv_ok iv -> length enc = (4096 * m)%nat -> bytes_ok enc ->
  exists g', gpu_updateScreen sch junk enc iv d = Done (tt, set_gpu g' (set_array (gpu_stream key iv enc) d)) /\
    ready key g' /\ no_encrypt g' = false /\ supply n g'.
Proof using Hs Hj Hkl Hm Hmax.
  intros R He Hsup Hi Hl Ho. unfold gpu_updateScreen. rewrite Hl. cbv zeta. replace (Z.of_nat (4096 * m)%nat) with (4096 * m) by lia.
  destruct (malloc_ok n _ R Hsup) as (a & g1 & E1 & R1 & P1 & V1 & (sz & f1 & Eo & Hsz) & A1 & F1 & L1). rewrite (bind_done _ _ _ _ _ (on_gpu_done _ _ _ _ E1)).
  destruct (process_ok key iv Hi sch Hs junk Hj g1 enc m sz f1 R1) as (g2 & f & E2 & S2 & R2 & Eo2 & F2); [by rewrite V1|done..|by rewrite P1|done|]. rewrite P1 in E2, Eo2.
  rewrite (bind_done _ _ (set_gpu g1 d) _ _ (on_gpu_done _ (set_gpu g1 d) _ _ E2)). cbn [snd].
  assert (E3 : dev_read (g_ptr (x_gpu d) d_out_enc) 0 (4096 * m) g2 = Done (gpu_stream key iv enc, g2)).
  { rewrite (dev_read_ok g2 _ _ 0 (4096 * m) Eo2) by (cbn [b_size]; lia). cbn [b_data]. by rewrite <- Hl, F2. }
  rewrite (bind_done _ _ (set_gpu g2 (set_gpu g1 d)) _ _ (on_gpu_done _ (set_gpu g2 (set_gpu g1 d)) _ _ E3)).
  rewrite (bind_done (modify _) _ _ tt _ eq_refl). cbv beta.
  rewrite (on_gpu_done _ (set_array _ (set_gpu g2 _)) _ _ (free_ok g2 _ _ Eo2)). eexists. split; [reflexivity|].
  pose proof R2 as [(T & fs & Es & Fs) (fk & Ek & Kk) (fi & Ei) Hh Ha]. destruct S2 as [B1 B2 B3 B4 B5]. destruct (apart4 _ _ _ _ Ha) as (_ & _ & N1 & _ & N2 & N3). rewrite P1 in B1. rewrite B1 in Es, Ek, Ei, N1, N2, N3, Ha.
  assert (D : forall p, p <> g_ptr (x_gpu d) d_out_enc -> g_mem (set_mem (delete (g_ptr (x_gpu d) d_out_enc) (g_mem g2)) g2) !! p = g_mem g2 !! p)
    by (intros p Hp; cbn [set_mem g_mem]; by rewrite lookup_delete_ne).
  split_and!.
  - split; change (g_ptr (set_mem _ g2)) with (g_ptr g2); rewrite ?B1, ?D by done; [split; [done|]; by exists fs|by exists fk|by exists fi|done|done].
  - by rewrite <- He, <- V1, <- B4.
  - split; [cbn [set_mem g_answers]; by rewrite B3|]. right. cbn [set_mem g_mem g_ptr g_answers]. rewrite B1. split; [apply lookup_delete_eq|]. rewrite B3.
    eapply Forall_impl; [exact F1|]. intros x [c ->]. exists c. cbn [set_mem g_ptr]. by rewrite B1.
Qed.

(** *** Frames *)

(** No counter passes the end within [n] frames. *)
Definition room (n : nat) : Prop := be_value iv0 + 256 * m * n <= 2 ^ 128.

Lemma room_le n k : room n -> (k <= n)%nat -> room k.
Proof. unfold room. intros H Hle. assert (H0 : 256 * m * k <= 256 * m * n) by (apply Z.mul_le_mono_nonneg_l; clear -Hle; lia). clear -H H0. lia. Qed.

Lemma frame_iv_next n : room (S n) -> bigint_plus (frame_iv n) (u32 (4096 * m / 16)) = frame_iv (S n).
Proof using regs Hiv Hm Hmax Hkl.
  unfold room, MAX_BLOCK_SIZE in *. intros H. replace (4096 * m) with (256 * m * 16) by lia. rewrite Z.div_mul, u32_small by lia.
  rewrite cpu_plus_same. destruct (frame_iv_ok n) as [Hl Hb]. rewrite bigint_plus_exact by (done || lia). rewrite frame_iv_value by lia.
  assert (before_last (256 * m) < 256 * m) by (unfold before_last; Z.div_mod_to_equations; lia).
  destruct (Z.leb_spec (2 ^ 128) (be_value iv0 + 256 * m * n + before_last (256 * m))); [lia|]. unfold frame_iv. f_equal. lia.
Qed.

Lemma frame_shown n f : room (S n) -> length f = (4096 * m)%nat ->
  gpu_stream key (frame_iv n) (fst (ctr_ref key (frame_iv n) f)) = f.
Proof using regs Hiv Hm Hmax Hkl Hk.
  unfold room, MAX_BLOCK_SIZE in *. intros H Hl. rewrite (gpu_stream_ctr key (frame_iv n) (frame_iv_ok n) _ (256 * m)).
  - apply ctr_ref_undone.
  - rewrite length_ctr_ref. lia.
  - rewrite frame_iv_value by lia. lia.
  - lia.
  - done.
Qed.

Lemma draw_ok n f l d : dinv (S n) (Spec (Some f) l) d -> room (S (length l)) ->
  exists d', draw regs sch junk d = Done (tt, d') /\ dinv n (Spec None (f :: l)) (set_flags false true (inited d') true d').
Proof using Hs Hj Hkl Hm Hmax Hk Hiv.
  intros [I1 I2 I3 (ctx & I4 & I5) I6 I7 I8 I9 I10 [F1 [F2 F3]] [I11 I12]] Hr. cbn [pending shown] in *. unfold draw. rewrite (bind_done get _ d d d eq_refl).
  destruct (cpu_encrypt_ok d ctx (bufptr d) (x_iv d) (256 * m) I4 I5 I2) as (ctx' & E1 & C1); [rewrite I9; apply frame_iv_ok|lia|unfold MAX_BLOCK_SIZE in *; lia|].
  rewrite (bind_done _ _ _ _ _ E1), (bind_done (modify _) _ _ tt _ eq_refl). set (enc := fst (ctr_ref key (x_iv d) (bufptr d))).
  set (d1 := set_buf enc (set_hd (Some ctx') d)).
  destruct (update_ok n d1 enc (x_iv d)) as (g' & E2 & R2 & V2 & S2); [done|done|done|rewrite I9; apply frame_iv_ok|unfold enc; by rewrite length_ctr_ref|by apply bytes_ok_ctr_ref|].
  rewrite (bind_done _ _ _ _ _ E2). unfold swap_buffers. rewrite (bind_done (modify _) _ _ tt _ eq_refl). eexists. split; [reflexivity|].
  split; cbn [set_flags set_iv set_screen set_gpu set_array set_buf set_hd d1 x_gpu hd x_w x_h bufptr x_iv screen a_Src ready_gpu inited asleep ready_cpu pending shown length negb]; try done.
  - by exists ctx'.
  - unfold enc. by rewrite length_ctr_ref.
  - unfold enc. by apply bytes_ok_ctr_ref.
  - rewrite I6, I9. by apply frame_iv_next.
  - rewrite I10. f_equal. unfold enc. rewrite I9, I12. apply frame_shown; [done|by rewrite <- I12].
  - split; [done|]. unfold enc. by rewrite I9, I12.
Qed.

Definition op_ok (o : dop) : Prop := match o with Send img => length img = (4096 * m)%nat /\ bytes_ok img | Wake => True end.

Lemma supply_less n k g : supply n g -> (k <= n)%nat -> supply k g.
Proof. intros [H1 H2] Hle. split; [clear -H1 Hle; lia|done]. Qed.

Lemma dinv_less n k s d : dinv n s d -> (k <= n)%nat -> dinv k s d.
Proof. intros [] Hle. split; try done. by eapply supply_less. Qed.

Lemma splice_whole (a b : bytes) : length a = length b -> splice 0 a b = a.
Proof. intros H. unfold splice. rewrite take_0, drop_ge by (cbn; by rewrite H). cbn [app]. apply app_nil_r. Qed.

Lemma send_frame n s img d : dinv n s d -> op_ok (Send img) -> exists d', encrypt img d = Done (Some tt, d') /\ dinv n (spec_step s (Send img)) d'.
Proof using Hm.
  intros [I1 I2 I3 I4 I6 I7 I8 I9 I10 [F1 [F2 F3]] I11] [Hl Ho]. unfold encrypt. rewrite (bind_done get _ d d d eq_refl).
  destruct (Nat.eqb_spec (length img) 0) as [H0|_]; [rewrite Hl in H0; clear -H0 Hm; lia|]. rewrite F1. cbn [negb].
  destruct (Nat.ltb_spec (length (bufptr d)) (length img)) as [H1|_]; [rewrite Hl, I7 in H1; clear -H1; lia|].
  rewrite !(bind_done (modify _) _ _ tt _ eq_refl). eexists. split; [reflexivity|]. rewrite splice_whole by (by rewrite Hl, I7).
  split; cbn [spec_step set_flags set_buf x_gpu hd x_w x_h bufptr x_iv screen ready_gpu inited asleep ready_cpu pending shown negb]; done.
Qed.

Lemma step_ok n s o d : dinv (wakes [o] + n) s d -> op_ok o -> room (length (shown s) + wakes [o]) ->
  exists d', dstep regs sch junk o d = Done (tt, d') /\ dinv n (spec_step s o) d'.
Proof using Hs Hj Hkl Hm Hmax Hk Hiv.
  intros I Ho Hr. destruct o as [img|]; cbn [dstep wakes Nat.add] in *.
  - destruct (send_frame n s img d I Ho) as (d' & E & I'). exists d'. split; [by rewrite (bind_done _ _ _ _ _ E)|done].
  - unfold run_pass. rewrite (bind_done get _ d d d eq_refl). destruct s as [[f|] l]; cbn [pending shown spec_step] in *.
    + rewrite (proj1 (di_buf _ _ _ I)). destruct (draw_ok n f l d I) as (d' & E & I'); [by rewrite Nat.add_comm in Hr|]. rewrite (bind_done _ _ _ _ _ E).
      eexists. by split.
    + rewrite (proj1 (di_buf _ _ _ I)). eexists. split; [reflexivity|]. apply (dinv_less (S n) n); [|clear; lia]. destruct I as [I1 I2 I3 I4 I6 I7 I8 I9 I10 [F1 [F2 F3]] [I11 I12]].
      split; cbn [set_flags x_gpu hd x_w x_h bufptr x_iv screen ready_gpu inited asleep ready_cpu pending shown negb]; done.
Qed.

Lemma wakes_cons o os : wakes (o :: os) = (wakes [o] + wakes os)%nat.
Proof. by destruct o. Qed.

Lemma shown_step s o : (length (shown (spec_step s o)) <= length (shown s) + wakes [o])%nat.
Proof. destruct o; cbn [spec_step wakes shown]; [lia|]. destruct (pending s); cbn [shown length]; lia. Qed.

Lemma run_ok os : Forall op_ok os -> forall n s d, dinv (wakes os + n) s d -> room (length (shown s) + wakes os) ->
  exists d', drun regs sch junk os d = Done (tt, d') /\ dinv n (foldl spec_step s os) d'.
Proof using Hs Hj Hkl Hm Hmax Hk Hiv.
  induction 1 as [|o os Ho H IH]; intros n s d I Hr; [by exists d|]. cbn [drun foldl]. rewrite wakes_cons in I, Hr.
  destruct (step_ok (wakes os + n) s o d) as (d1 & E & I1); [by rewrite Nat.add_assoc|done|eapply room_le; [exact Hr|clear; lia]|].
  rewrite (bind_done _ _ _ _ _ E). apply IH; [done|]. eapply room_le; [exact Hr|]. pose proof (shown_step s o) as P. clear -P. lia.
Qed.
End Frames.

(** ** Setting up *)

Section Startup.
Context (key stack : bytes) (Hk : bytes_ok key) (Hkl : length key = 16%nat) (Hst : length stack = 176%nat).
Context (a : nat -> Z) (f : nat -> nat -> Z) (Ha : forall i j, (i < 11)%nat -> (j < 11)%nat -> a i = a j -> i = j).

(** The first section of the thread *)
Lemma start_ok regs fresh d (h : nat) rest : length fresh = 484%nat -> no_encrypt (x_gpu d) = false -> g_answers (x_gpu d) = ((fun i => Some (a i, f i)) <$> seq 0 15) ++ rest ->
  aeskeyptr d = key -> iv_ok (x_iv d) -> x_w d * x_h d * 4 = 4096 * h -> length (bufptr d) = (4096 * h)%nat -> screen d = [] ->
  (rest = [] \/ exists b c l, rest = Some (b, c) :: l /\ g_mem (x_gpu d) !! b = None /\ (forall i, (i < 11)%nat -> b <> a i) /\ Forall (fun x => exists c, x = Some (a 7%nat, c)) l) ->
  exists d', run_start regs stack fresh d = Done (tt, d') /\ dinv key (x_iv d) h (length rest) (Spec None []) d'.
Proof using Hk Hkl Hst Ha.
  intros Hf He Hans Hkey Hiv Hsz Hlen Hscr Hrest. destruct (init_ok key stack Hk Hkl Hst a f Ha (x_gpu d) rest Hans) as (g1 & g2 & E1 & E2 & R & A2 & V2 & P2 & (c & Eo) & Hm).
  unfold run_start, gpu_init_encryption. rewrite (bind_done get _ d d d eq_refl), Hkey.
  set (d1 := set_gpu g2 (set_gpu g1 d)).
  destruct (call_set_key_ok regs (Asm fresh []) key Hf) as (st & E3 & C3 & _); [left; exact Hkl|]. rewrite Hkl in E3.
  assert (Einit : (on_gpu gpu_init ;; on_gpu (gpu_set_key stack key) ;; cpu_init fresh ;; cpu_set_key regs key ;; ret tt) d = Done (tt, set_hd (Some (am_ctx st)) (set_hd (Some fresh) d1))).
  { rewrite (bind_done _ _ _ _ _ (on_gpu_done _ d _ _ E1)), (bind_done _ _ (set_gpu g1 d) _ _ (on_gpu_done _ (set_gpu g1 d) _ _ E2)). fold d1.
    unfold cpu_init. rewrite (bind_done (modify _) _ d1 tt _ eq_refl). unfold cpu_set_key, bind, gets. cbn [set_hd hd]. change (Z.of_nat 16) with 16 in E3. rewrite E3. reflexivity. }
  rewrite (bind_done _ _ _ _ _ Einit), (bind_done (modify _) _ _ tt _ eq_refl). eexists. split; [reflexivity|].
  split; cbn [set_flags set_buf set_hd set_gpu d1 x_gpu hd x_w x_h x_iv bufptr screen ready_gpu inited asleep ready_cpu pending shown length negb]; try done.
  - by rewrite V2.
  - split; [by rewrite A2|]. left. exists c. rewrite P2. split; [done|]. rewrite A2. destruct Hrest as [->|(b & cc & l & -> & Hb & Hb' & Hl)]; [by left|right].
    exists b, cc, l. split_and!; [done|by rewrite Hm|]. eapply Forall_impl; [exact Hl|]. intros x [y ->]. exists y. by rewrite P2.
  - by exists (am_ctx st).
  - by rewrite length_zeros.
  - apply bytes_ok_zeros.
  - unfold frame_iv. rewrite Z.mul_0_r, Z.add_0_r. destruct Hiv as [Hl Hb]. by rewrite <- Hl, be_bytes_value.
  - by rewrite Hlen.
Qed.
End Startup.

(** ** Properties *)

(** What [cudaMalloc] answers after [gpu_init], whose addresses are [a]: an address not in use,
    and then always the one of the output buffer *)
Definition allocator (a : nat -> Z) (g : gpu) (rest : list (option (Z * (nat -> Z)))) : Prop :=
  rest = [] \/ exists b c l, rest = Some (b, c) :: l /\ g_mem g !! b = None /\ (forall i, (i < 11)%nat -> b <> a i) /\ Forall (fun x => exists c, x = Some (a 7%nat, c)) l.



(** C37 Where the display depends on luck.  [gpu_updateScreen] frees the output buffer of the device
    instead of the buffer it allocated: a frame that is drawn while that buffer is free, and for
    which [cudaMalloc] answers another address, is written to freed memory.  It does not
    look at the status of the decryption: for a frame that is refused (its size not a multiple
    of 4096 bytes, or above 16 MB) it shows what was in the memory that [cudaMalloc] gave it.
    And a frame larger than the shared buffer is copied beyond its end. *)
Theorem display_update_defects key iv sch junk d img b c l :
  ready key (x_gpu d) -> no_encrypt (x_gpu d) = false -> (forall n, runs_grid n 256 (sch n)) -> (forall k, length (junk k) = 176%nat) ->
  g_answers (x_gpu d) = Some (b, c) :: l -> g_mem (x_gpu d) !! b = None ->
  let n := Z.of_nat (length img) in
  (0 < n <= MAX_BLOCK_SIZE -> n mod 4096 = 0 -> g_mem (x_gpu d) !! g_ptr (x_gpu d) d_out_enc = None -> b <> g_ptr (x_gpu d) d_out_enc ->
     gpu_updateScreen sch junk img iv d = Oops UseAfterFree) /\
  (MAX_BLOCK_SIZE < n \/ n mod 4096 <> 0 -> exists d', gpu_updateScreen sch junk img iv d = Done (tt, d') /\ a_Src d' = rd c 0 (length img)) /\
  (ready_gpu d = true -> (length (bufptr d) < length img)%nat -> encrypt img d = Oops OutOfBounds).
Proof.
  intros R He Hs Hj Hans Hb n. set (g1 := set_mem (<[b := Block n c]> (g_mem (x_gpu d))) (set_answers l (x_gpu d))).
  assert (E1 : on_gpu (cudaMalloc n) d = Done (b, set_gpu g1 d)) by (apply on_gpu_done; unfold cudaMalloc, cuda_answer, bind, gets; rewrite Hans; reflexivity).
  split_and!.
  - intros Hn H4 Eo Hne. unfold gpu_updateScreen. cbv zeta. fold n. rewrite (bind_done _ _ _ _ _ E1). set (m := Z.to_nat (n / 4096)).
    assert (Em : n = 4096 * m) by (unfold m; Z.div_mod_to_equations; lia). pose proof R as [(T & fs & Es & Fs) (fk & Ek & Kk) (fi & Ei) Hh Ha].
    assert (R1 : ready key g1).
    { split; cbn [g1 set_mem set_answers g_mem g_ptr g_host g_tex]; try done;
        [split; [done|]; exists fs|exists fk|exists fi]; rewrite lookup_insert_ne by congruence; done. }
    assert (E2 : gpu_decrypt_string sch junk img iv true g1 = Oops UseAfterFree).
    { apply (process_freed key iv sch Hs junk Hj g1 img m true R1); [done|lia..|]. cbn [g1 set_mem set_answers g_mem g_ptr]. by rewrite lookup_insert_ne. }
    apply bind_oops. unfold on_gpu, zoom. cbn [set_gpu x_gpu]. by rewrite E2.
  - intros Hn. unfold gpu_updateScreen. cbv zeta. fold n. rewrite (bind_done _ _ _ _ _ E1).
    assert (E2 : gpu_decrypt_string sch junk img iv true g1 = Done ((-1, None), g1)).
    { unfold gpu_decrypt_string, gpu_process_string. fold n. change (THREADS_PER_BLOCK * 16) with 4096. destruct (Z.ltb_spec MAX_BLOCK_SIZE n); [done|].
      destruct (Z.eqb_spec (n mod 4096) 0); [lia|done]. }
    rewrite (bind_done _ _ _ _ _ (on_gpu_done _ (set_gpu g1 d) _ _ E2)). cbn [snd].
    assert (Eb : g_mem g1 !! b = Some (Block n c)) by (cbn [g1 set_mem g_mem]; apply lookup_insert_eq).
    rewrite (bind_done _ _ _ _ _ (on_gpu_done _ (set_gpu g1 (set_gpu g1 d)) _ _ (dev_read_ok g1 b _ 0 (length img) Eb ltac:(cbn [b_size]; lia)))). cbn [b_data].
    rewrite (bind_done (modify _) _ _ tt _ eq_refl). cbv beta. rewrite (on_gpu_done _ (set_array _ (set_gpu g1 _)) _ _ (free_ok g1 b _ Eb)). eexists. split; reflexivity.
  - intros Hr Hl. unfold encrypt. rewrite (bind_done get _ d d d eq_refl), Hr. destruct (Nat.eqb_spec (length img) 0); [lia|]. cbn [negb]. destruct (Nat.ltb_spec (length (bufptr d)) (length img)); [done|lia].
Qed.

(** After [gpu_init], with the output buffer freed and the allocator answering 100: a frame of one
    line, one of 16 bytes, and one for which the shared buffer is too small *)
Lemma display_update_defects_witness :
  exists g1 g2, gpu_init (fresh_gpu [Some (100, fun _ => 5)]) = Done (tt, g1) /\ gpu_set_key (zeros 176) aeskey g1 = Done (tt, g2) /\
    let d := set_flags false true true true (Display (set_mem (delete 8 (g_mem g2)) g2) None [] [] (zeros 8) 1024 1 first_iv aeskey false false false false) in
    gpu_updateScreen in_order (fun _ => zeros 176) (zeros 4096) first_iv d = Oops UseAfterFree /\
    (exists d', gpu_updateScreen in_order (fun _ => zeros 176) (zeros 16) first_iv d = Done (tt, d') /\ a_Src d' = replicate 16 5) /\
    encrypt (zeros 16) d = Oops OutOfBounds.
Proof.
  destruct (init_ok aeskey (zeros 176) ltac:(apply bytes_ok_check; reflexivity) eq_refl (length_zeros 176) (fun i => Z.of_nat i + 1) (fun _ _ => 0) ltac:(cbv beta; intros; lia)
    (fresh_gpu [Some (100, fun _ => 5)]) [Some (100, fun _ => 5)] eq_refl) as (g1 & g2 & E1 & E2 & R & Ea & Ee & Ep & Eo & Hm).
  exists g1, g2. split; [exact E1|]. split; [exact E2|]. intros d. change (Z.of_nat 7 + 1) with 8 in Ep.
  assert (R' : ready aeskey (x_gpu d)).
  { pose proof R as [_ _ (fi & Ei) Hh Ha]. destruct (apart4 _ _ _ _ Ha) as (_ & _ & _ & _ & _ & Hio). rewrite Ep in Hio. apply (ready_kept aeskey g2 _ R).
    - split; try reflexivity. intros x _ Hx. rewrite Ep in Hx. cbn [d set_flags x_gpu set_mem g_mem]. by rewrite lookup_delete_ne.
    - exists fi. cbn [d set_flags x_gpu set_mem g_mem]. by rewrite lookup_delete_ne.
    - exact Hh. }
  assert (Hb : g_mem (x_gpu d) !! 100 = None).
  { cbn [d set_flags x_gpu set_mem g_mem]. rewrite lookup_delete_ne by done. rewrite Hm; [reflexivity|]. intros i Hi. lia. }
  assert (T : forall img, _) by (intros img; exact (display_update_defects aeskey first_iv in_order (fun _ => zeros 176) d img 100 (fun _ => 5) [] R' Ee in_order_runs (fun _ => length_zeros 176) Ea Hb)).
  split_and!.
  - destruct (T (zeros 4096)) as (H & _ & _). rewrite length_zeros in H. apply H; [unfold MAX_BLOCK_SIZE; lia|reflexivity| |cbn [d set_flags x_gpu set_mem g_ptr]; by rewrite Ep].
    cbn [d set_flags x_gpu set_mem g_ptr g_mem]. rewrite Ep. apply lookup_delete_eq.
  - destruct (T (zeros 16)) as (_ & H & _). apply H. right. discriminate.
  - destruct (T (zeros 16)) as (_ & _ & H). apply H; [reflexivity|apply Nat.ltb_lt; reflexivity].
Defined.
