(* ===== verification/Session.v ===== *)
(** * A session between the library and the kernel

    What libprivcrypt and the driver do together: [priv_new_backend] runs the key
    exchange with the kernel and leaves the two sides with one key and one counter,
    and the messages of a channel then stay in step.  The arithmetic of the exchange
    (PolarSSL in the process, crypto_math in the kernel) is the class [KexAgree]. *)

From Stdlib Require Import Zpow_facts.
From S2P Require Import Prelude BlkCipher Ctr AesCipher PrivCrypt Kex Driver LibPriv.

(** ** What the exchange relies on *)

(** [mpi_size], and a number as [mpi_write_binary] writes it. *)
Definition nbytes (z : Z) : nat := if 0 <? z then Z.to_nat ((Z.log2 z + 8) / 8) else 0.
Definition mpi_bytes (z : Z) : bytes := be_bytes (nbytes z) z.

(** [DHM_MPI_EXPORT], and the message of [dhm_make_params]. *)
Definition dhm_export (z : Z) : bytes := be_bytes 2 (nbytes z) ++ mpi_bytes z.
Definition dhm_params (p g gx : Z) : bytes := dhm_export p ++ dhm_export g ++ dhm_export gx.

Definition prf_fun : Type := bytes -> bytes -> bytes -> nat -> bytes.

(** The key both sides derive from the shared number. *)
Definition derive (prf : prf_fun) (key_len : nat) (pre_master : bytes) : bytes :=
  let random := seqZ 0 64 in
  let master := prf pre_master lbl_master random 48%nat in
  prf master lbl_expand (drop 32 random ++ take 32 random) key_len.

(** Public values that [dhm_check_range] accepts. *)
Definition in_range (p v : Z) : Prop := 2 <= v <= p - 2.

(** The process sends [g^x] and raises what it receives to [x]; the kernel answers a
    well-formed message with [g^y] for some [y], or with an error, and raises what it
    received to [y].  Both derive keys with one function.  [roomy] kernels have memory. *)
Definition roomy `{B : BlkCipher} (s : kstate) : Prop := k_mem s = [].

Class KexAgree `{BC : BlockCipher} (P : polarssl) (ops : dhm_kex_ops) (p g x : Z) (prf : prf_fun) : Prop := {
  ka_laws : exists E, KexLaws E ops;
  ka_x : 0 <= x;
  ka_size : 3 * (Z.of_nat (nbytes p) + 2) + 2 < MAX_KEX_MSG_LEN;
  ka_msg : Z.of_nat (length (dhm_params p g (g ^ x mod p))) + 3 <= MAX_KEX_MSG_LEN;
  ka_gx : in_range p (g ^ x mod p);
  ka_prf : forall k n, 0 <= k < p -> let random := seqZ 0 64 in
    let master := prf (mpi_bytes k) lbl_master random 48%nat in
    tls1_prf P (mpi_bytes k) lbl_master random 48%nat = (0, master) /\
    tls1_prf P master lbl_expand (drop 32 random ++ take 32 random) n = (0, derive prf n (mpi_bytes k));
  ka_prf_length : forall s l r n, length (prf s l r n) = n;
  ka_user : exists d1 d2,
    read_public_params P (dhm_zero P) = (0, d1) /\ size_P P d1 = nbytes p /\
    dhm_make_params P d1 (nbytes p) null_rng = (0, d2, dhm_params p g (g ^ x mod p)) /\
    forall gy, in_range p gy -> exists d3 d4,
      dhm_read_public P d2 (be_bytes (nbytes p) gy) = (0, d3) /\ exp_mod_K P d3 = (0, d4) /\
      dhm_check_range P d4 = 0 /\ write_K P d4 = (0, mpi_bytes (gy ^ x mod p));
  ka_init : forall s, roomy s -> wp total (ko_init ops) (fun r s' => is_Some (snd r) /\ roomy s') s;
  ka_destroy : forall kex s, roomy s -> wp total (ko_destroy ops kex) (fun _ s' => roomy s') s;
  ka_respond : forall kex n gx s, roomy s -> Z.of_nat (nbytes p) <= n -> in_range p gx ->
    wp total (ko_respond ops kex n (dhm_params p g gx ++ [0; 0])) (fun r s' =>
      let '(rc, kex', sz, out) := r in
      roomy s' /\
      (rc < 0 \/ exists y, 0 <= y /\ rc = 0 /\ in_range p (g ^ y mod p) /\
         out = be_bytes (nbytes p) (g ^ y mod p) /\ sz = Z.of_nat (nbytes p) /\
         forall m s1, roomy s1 -> 0 <= m -> wp total (ko_get_key ops kex' m) (fun r s2 =>
           roomy s2 /\ r = (0, derive prf (Z.to_nat m) (mpi_bytes (gx ^ y mod p)))) s1)) s;
}.

(** ** The kernel with memory to spare *)

Section Kernel.
Context `{BC : BlockCipher}.

Lemma wp_and {S A} E F (m : M S A) (Q R : A -> S -> Prop) s :
  wp E m Q s -> wp F m R s -> wp E m (fun a s' => Q a s' /\ R a s') s.
Proof. unfold wp. by destruct (m s) as [[]|]. Qed.

Lemma roomy_kmalloc s : roomy s -> kmalloc s = Done (None, set_live (k_live s + 1) s).
Proof. unfold roomy, kmalloc. by intros ->. Qed.

Lemma setup_crypto_ctx_roomy p key_size dir s :
  roomy s -> key_sized key_size -> k_ctxs s !! p = Some zero_ctx ->
  wp total (setup_crypto_ctx p key_size 16 dir) (fun rc s' => rc = 0 /\ roomy s' /\ is_Some (k_ctxs s' !! p)) s.
Proof.
  intros Hr Hk Hp. unfold setup_crypto_ctx.
  wp_bind. eapply wp_done; [by apply roomy_kmalloc|]. set (s1 := set_live _ s).
  wp_bind. eapply (wp_done _ _ _ s1); [by apply load_run|]. wp_bind. eapply wp_done; [by eapply (store_run p zero_ctx)|].
  set (s2 := put p _ s1). wp_bind. eapply wp_done; [by apply roomy_kmalloc|]. set (s3 := set_live _ s2).
  wp_bind. eapply (wp_done _ _ _ s3); [apply load_run, put_lookup|].
  wp_bind. eapply wp_done; [eapply store_run, put_lookup|].
  set (c4 := upd_sizes _ _ _ _). wp_bind. eapply wp_done.
  { apply (priv_set_key_run p c4 tfm_fresh); [apply put_lookup|done|done|].
    destruct Hk as [-> | [-> | ->]]; vm_compute; lia. }
  wp_pure. split; [done|]. split; [done|]. rewrite put_lookup. eauto.
Qed.

Lemma make_crypto_ctx_roomy key_size dir s :
  roomy s -> key_sized key_size -> dir = PRIV_CRYPT_DIR_ENC \/ dir = PRIV_CRYPT_DIR_DEC ->
  wp total (make_crypto_ctx PRIV_CRYPT_ALG_AES_CTR key_size dir) (fun r s' => is_Some (snd r) /\ roomy s') s.
Proof.
  intros Hr Hk Hd. unfold make_crypto_ctx.
  replace (negb (dir =? PRIV_CRYPT_DIR_ENC) && negb (dir =? PRIV_CRYPT_DIR_DEC)) with false by (destruct Hd as [-> | ->]; done).
  replace (negb (key_size =? 16) && negb (key_size =? 24) && negb (key_size =? 32)) with false
    by (destruct Hk as [-> | [-> | ->]]; done).
  change (negb (priv_crypt_alg_valid _)) with false. cbn iota.
  wp_bind. eapply wp_done; [by apply roomy_kmalloc|]. wp_bind. unfold fresh. unfold wp at 1. wp_bind. unfold wp at 1, modify.
  set (s2 := set_ctxs _ _). set (p := k_brk _). wp_bind.
  wp_use setup_crypto_ctx_roomy; [done|done|apply lookup_insert_eq|]. intros rc s3 (-> & Hr3 & c & Hc). cbn iota.
  wp_bind. eapply wp_done; [by apply roomy_kmalloc|]. wp_bind. unfold get_fresh_id, wp at 1.
  wp_bind. eapply wp_done; [by apply load_run|]. wp_bind. eapply wp_done; [by eapply store_run|].
  wp_pure. split; [by eexists|done].
Qed.

(** [PRIV_CRYPT_CMD_NEW_CTX] *)
Definition fresh_ctx (pid i key_size dir : Z) : priv_crypt_ctx := upd_pid pid (new_ctx i key_size dir).

Lemma do_new_ctx_roomy pid f key_size dir s :
  kinv s -> roomy s -> k_id s < 2 ^ 31 - 1 -> key_sized key_size -> dir = PRIV_CRYPT_DIR_ENC \/ dir = PRIV_CRYPT_DIR_DEC ->
  wp total (do_new_ctx pid f (Some (AlgDesc PRIV_CRYPT_ALG_AES_CTR key_size dir))) (fun rc s' =>
    rc = k_id s + 1 /\ kinv s' /\ roomy s' /\ k_ctxs s !! k_brk s = None /\ k_init s' = true /\
    k_ctxs s' = <[k_brk s := fresh_ctx pid rc key_size dir]> (k_ctxs s) /\
    k_files s' = <[f := Some (k_brk s)]> (k_files s) /\ k_refs s' = k_refs s /\ k_id s' = k_id s + 1 /\ k_brk s' = S (k_brk s)) s.
Proof.
  intros H Hr Hid Hk Hd. pose proof (do_new_ctx_spec pid f (Some (AlgDesc PRIV_CRYPT_ALG_AES_CTR key_size dir)) s H Hid) as Hinv.
  eapply wp_mono; [apply (wp_and total _ _ (fun rc s' => rc = k_id s + 1 /\ roomy s' /\
    k_ctxs s' = <[k_brk s := fresh_ctx pid rc key_size dir]> (k_ctxs s) /\
    k_files s' = <[f := Some (k_brk s)]> (k_files s) /\ k_refs s' = k_refs s /\ k_id s' = k_id s + 1 /\ k_brk s' = S (k_brk s)) _ s) with (2 := Hinv)|].
  2: { intros rc s' [(-> & ? & ? & ? & ? & ? & ?) [? _]]. pose proof (kinv_fresh _ H). pose proof (ki_init s'). by split_and!; auto. }
  assert (Hm := make_crypto_ctx_roomy key_size dir s Hr Hk Hd).
  assert (Hs := make_crypto_ctx_spec PRIV_CRYPT_ALG_AES_CTR key_size dir s (kinv_fresh _ H)).
  unfold do_new_ctx. cbn [ad_alg ad_key_size ad_dir].
  apply wp_elim in Hm as ([rc o] & s1 & E1 & [p Hp] & Hr1). cbn in Hp. subst o.
  unfold wp in Hs. rewrite E1 in Hs. destruct Hs as (_ & _ & _ & Hp & Hrc & _ & Hc). cbn [fst snd] in *.
  pose proof (ki_id0 _ H) as Hid0. rewrite (s32_small (k_id s + 1)), u32_small, s32_small in * by lia.
  wp_bind. eapply wp_done; [exact E1|]. cbn [fst snd].
  replace (rc <? 0) with false by lia. injection Hc as E2 E3 E4 E5 E6 E7 E8 E9.
  assert (Hc1 : k_ctxs s1 !! p = Some (new_ctx (k_id s + 1) key_size dir)) by (rewrite E4; apply lookup_insert_eq).
  wp_bind. eapply wp_done; [by apply load_run|]. wp_bind. eapply wp_done; [by eapply store_run|].
  wp_pure. cbn. rewrite E4, E7, insert_insert_eq. subst. by split_and!.
Qed.

(** ** The key exchange in the kernel *)

Section Agree.
Context (P : polarssl) (ops : dhm_kex_ops) (p g x : Z) (prf : prf_fun) {KA : KexAgree P ops p g x prf}.

(** The key for a shared number. *)
Definition key_of (n : Z) (k : Z) : bytes := derive prf (Z.to_nat n) (mpi_bytes k).

Lemma length_derive n b : length (derive prf n b) = n.
Proof. apply (ka_prf_length (KexAgree := KA)). Qed.

(** The kernel's part: an error with the context as it was, or [g^y] and the key. *)
Definition answered (q : nat) (c : priv_crypt_ctx) (t : ctr_tfm) (gx : Z) (s : kstate) (rc sz : Z) (out : bytes) (s' : kstate) : Prop :=
  rc < 0 /\ core s' = core s \/
  exists y, 0 <= y /\ rc = 0 /\ in_range p (g ^ y mod p) /\ out = be_bytes (nbytes p) (g ^ y mod p) /\
    sz = Z.of_nat (nbytes p) + 1 /\ core s' = core (put q (keyed t (key_of (cc_key_size c) (gx ^ y mod p)) c) s).

Lemma kex_params_agree kex q c t s gx n :
  k_ctxs s !! q = Some c -> ctx_ok c -> cc_cipher c = Some t -> roomy s ->
  Z.of_nat (nbytes p) <= n - 1 -> in_range p gx ->
  wp total (kex_params ops kex q n (dhm_params p g gx ++ [0; 0])) (fun r s' =>
    roomy s' /\ answered q c t gx s (fst (fst r)) (snd (fst r)) (snd r) s') s.
Proof.
  intros Hq Hok Ht Hr Hn Hgx. assert (Hk : key_sized (cc_key_size c)) by apply Hok.
  destruct (ka_laws (KexAgree := KA)) as [kf HL].
  assert (Hk0 : 0 <= cc_key_size c) by (unfold key_sized in Hk; lia). unfold kex_params. wp_bind.
  eapply wp_mono; [eapply wp_and; [apply (ka_respond kex (n - 1) gx s Hr Hn Hgx)|apply (kl_respond kex (n - 1)); lia]|].
  intros [[[rc kex'] sz] out] s1 [[Hr1 Hres] (C1 & _)].
  destruct Hres as [Hneg|(y & Hy & -> & Hgy & Hout & Hsz & Hkey)].
  { replace (rc <? 0) with true by lia. wp_bind.
    eapply wp_mono; [eapply wp_and; [by apply (ka_destroy kex')|apply (kl_destroy kex')]|]. intros [] s2 [Hr2 C2].
    wp_pure. split; [done|]. left. split; [done|congruence]. }
  cbn [Z.ltb Z.compare]. assert (Q1 : k_ctxs s1 !! q = Some c) by (by rewrite (core_lookup _ _ _ C1)).
  wp_bind. eapply wp_done; [by apply load_run|]. wp_bind.
  eapply wp_mono; [eapply wp_and; [by apply Hkey|by apply (kl_get_key kex' (cc_key_size c))]|].
  intros r s2 [[Hr2 ->] [C2 _]]. cbn [fst snd Z.ltb Z.compare].
  assert (Q2 : k_ctxs s2 !! q = Some c) by (by rewrite (core_lookup _ _ _ C2)).
  wp_bind. eapply wp_done; [apply (priv_set_key_run q c t); [done..|rewrite length_derive; lia]|]. wp_bind.
  eapply wp_mono; [eapply wp_and; [by apply (ka_destroy kex')|apply (kl_destroy kex')]|]. intros [] s3 [Hr3 C3].
  wp_pure. split; [done|]. right. exists y. cbn [fst snd]. split_and!; try done.
  - by rewrite Hsz.
  - rewrite C3. rewrite take_ge by (rewrite length_derive; lia). apply core_put_eq. congruence.
Qed.

Definition kex_msg (gx : Z) : bytes := PRIV_CRYPT_KEX_PARAMS :: dhm_params p g gx ++ [0; 0].

Lemma kex_msg_fits : (length (kex_msg (g ^ x mod p)) <= MAX_KEX_MSG_LEN)%nat.
Proof. pose proof (ka_msg (KexAgree := KA)). unfold kex_msg. cbn [length]. rewrite length_app. cbn [length]. lia. Qed.

Lemma process_kex_agree q c t s gx kb :
  k_ctxs s !! q = Some c -> ctx_ok c -> cc_cipher c = Some t -> roomy s -> in_range p gx ->
  length kb = MAX_KEX_MSG_LEN -> (length (kex_msg gx) <= MAX_KEX_MSG_LEN)%nat ->
  wp total (process_kex_msg (Some ops) q MAX_KEX_MSG_LEN (length (kex_msg gx)) (splice 0 (kex_msg gx) kb)) (fun r s' =>
    exists out, snd r = splice 0 (PRIV_CRYPT_KEX_RESPONSE :: out) (splice 0 (kex_msg gx) kb) /\
    roomy s' /\ answered q c t gx s (fst (fst r)) (snd (fst r)) out s') s.
Proof.
  intros Hq Hok Ht Hr Hgx Hkb Hm. pose proof (ka_size (KexAgree := KA)) as Hsz. unfold process_kex_msg.
  change (length (kex_msg gx) <? 1)%nat with false.
  change (default 0 (splice 0 (kex_msg gx) kb !! 0%nat)) with PRIV_CRYPT_KEX_PARAMS. cbn iota.
  change (PRIV_CRYPT_KEX_PARAMS =? Kex.PRIV_CRYPT_KEX_PARAMS) with true. cbn iota.
  assert (E : slice 1 (length (kex_msg gx) - 1) (splice 0 (kex_msg gx) kb) = dhm_params p g gx ++ [0; 0]).
  { unfold slice, splice, kex_msg. rewrite take_0. cbn [app drop length Nat.sub Nat.add]. rewrite Nat.sub_0_r. apply take_app_length. }
  destruct (ka_laws (KexAgree := KA)) as [kf HL]. rewrite E. wp_bind.
  eapply wp_mono; [eapply wp_and; [by apply ka_init|apply kl_init]|].
  intros [rc [kex|]] s1 [[Hk Hr1] [C1 _]]; [|by destruct Hk].
  wp_bind. eapply wp_mono; [apply (kex_params_agree kex q c t); try done; [by rewrite (core_lookup _ _ _ C1)|lia]|].
  intros [[rc2 sz] out] s2 [Hr2 Hans]. cbn [fst snd] in Hans. wp_pure. exists out. split; [done|]. split; [done|].
  destruct Hans as [[Hneg C2]|(y & ? & -> & ? & ? & ? & C2)].
  - left. cbn. replace (rc2 <? 0) with true by lia. split; [done|congruence].
  - right. exists y. split_and!; try done. rewrite C2. by apply core_put_eq.
Qed.

(** [PRIV_CRYPT_CMD_KEY_EXCHANGE] with the process's message: the context keeps all but
    its key; the reply is [g^y]. *)
Definition rekeyed_with (c : priv_crypt_ctx) (tk : ctr_tfm) (c' : priv_crypt_ctx) : Prop :=
  ctx_ok c' /\ same_id c c' /\ cc_cipher c' = Some tk /\ cc_dir c' = cc_dir c /\ cc_activated c' = cc_activated c.

Definition kex_desc_of (gx : Z) : kex_desc := KexDesc (length (kex_msg gx)) (Some (kex_msg gx)) true true.

Definition kex_post (q : nat) (c : priv_crypt_ctx) (t : ctr_tfm) (gx : Z) (s : kstate) (r : Z * uout) (s' : kstate) : Prop :=
  roomy s' /\ exists c' tk, rekeyed_with c tk c' /\ core s' = core (put q c' s) /\
    (fst r < 0 \/ exists y, 0 <= y /\ in_range p (g ^ y mod p) /\
       r = (0, (Some (Z.of_nat (nbytes p) + 1), Some (PRIV_CRYPT_KEX_RESPONSE :: be_bytes (nbytes p) (g ^ y mod p)))) /\
       tk = CtrTfm (key_of (cc_key_size c) (gx ^ y mod p)) (t_iv t)).

Lemma do_kex_agree q c t s gx :
  ctx_ok c -> k_ctxs s !! q = Some c -> cc_cipher c = Some t -> roomy s -> in_range p gx ->
  (length (kex_msg gx) <= MAX_KEX_MSG_LEN)%nat ->
  wp total (Driver.do_kex (Some ops) (Some q) (Some (kex_desc_of gx))) (kex_post q c t gx s) s.
Proof.
  intros Hok Hq Ht Hr Hgx Hm. pose proof (ka_size (KexAgree := KA)) as Hsz.
  assert (Hk : key_sized (cc_key_size c)) by apply Hok.
  destruct (co_kex _ Hok) as (kb & Hkb & Hkl). unfold Driver.do_kex, kex_desc_of. cbn [kd_in_size kd_in kd_size_ok kd_out_ok negb].
  replace (MAX_KEX_MSG_LEN <? length (kex_msg gx)) with false by lia.
  wp_bind. eapply wp_done; [by apply load_run|]. rewrite Hkb, Nat2Z.id, take_ge by done.
  wp_bind. eapply wp_done; [by eapply store_run|]. set (kb1 := splice 0 (kex_msg gx) kb). set (c1 := upd_kex_buf (Some kb1) c).
  assert (Hl1 : length kb1 = MAX_KEX_MSG_LEN) by (unfold kb1; rewrite length_splice; lia).
  assert (Hok1 : ctx_ok c1) by (by apply ctx_ok_kex). wp_bind.
  destruct (ka_laws (KexAgree := KA)) as [kf HL].
  eapply wp_mono; [eapply wp_and|].
  { apply (process_kex_agree q c1 t (put q c1 s) gx kb); try done; apply put_lookup. }
  { apply (process_kex_msg_spec kf (Some ops) q c1); [by intros o [= <-]|apply put_lookup|done|done]. }
  intros [[rc sz] buf] s2 [(out & Hbuf & Hr2 & Hans) (Hl2 & _)]. cbn [fst snd] in *. fold kb1 in Hbuf.
  destruct Hans as [[Hneg C2]|(y & Hy & -> & Hgy & Hout & Hz & C2)].
  - assert (Q2 : k_ctxs s2 !! q = Some c1) by (rewrite (core_lookup _ _ _ C2); apply put_lookup).
    wp_bind. eapply wp_done; [by apply load_run|]. wp_bind. eapply wp_done; [by eapply store_run|].
    replace (rc <? 0) with true by lia. wp_pure. split; [done|].
    exists (upd_kex_buf (Some buf) c), t. split; [|split; [|left; cbn; lia]].
    + split; [by apply ctx_ok_kex|]. done.
    + rewrite <- (put_put q _ c1 s). by apply core_put_eq.
  - set (tk := CtrTfm (key_of (cc_key_size c) (gx ^ y mod p)) (t_iv t)).
    assert (Hkt : snd (blk_setkey t (key_of (cc_key_size c) (gx ^ y mod p))) = tk).
    { cbn. unfold crypto_ctr_setkey. by rewrite (key_sized_len (cc_key_size c)) by (done || apply length_derive). }
    set (c2 := keyed t _ c1) in C2.
    assert (Q2 : k_ctxs s2 !! q = Some c2) by (rewrite (core_lookup _ _ _ C2); apply put_lookup).
    wp_bind. eapply wp_done; [by apply load_run|]. wp_bind. eapply wp_done; [by eapply store_run|].
    cbn [Z.ltb Z.compare]. wp_pure. split; [done|].
    exists (upd_kex_buf (Some buf) c2), tk. split; [|split].
    + split; [|split; [done|split; [by rewrite <- Hkt|done]]]. apply ctx_ok_kex; [|done].
      destruct (co_cipher _ Hok) as (t' & Ht' & Htok). rewrite Ht in Ht'. injection Ht' as <-.
      apply ctx_ok_keyed; [done..|apply length_derive].
    + rewrite <- (put_put q _ c1 s), <- (put_put q _ c2 (put q c1 s)). by apply core_put_eq.
    + right. exists y. split_and!; try done. f_equal. f_equal; f_equal.
      * subst sz. apply u32_small. unfold MAX_KEX_MSG_LEN in Hsz. lia.
      * subst. unfold splice at 1. rewrite take_0. cbn [app].
        replace (Z.to_nat _) with (length (PRIV_CRYPT_KEX_RESPONSE :: be_bytes (nbytes p) (g ^ y mod p))) by (cbn [length]; rewrite length_be_bytes; lia).
        apply (take_app_length (_ :: _)).
Qed.

(** ** The process's side *)

Abbreviation U := (M lstate).

Definition same (s s' : lstate) : Prop := l_k s' = l_k s /\ l_mem s' = l_mem s /\ l_fd s' = l_fd s.

Lemma same_trans s1 s2 s3 : same s1 s2 -> same s2 s3 -> same s1 s3.
Proof. unfold same. intros (-> & -> & ->) (-> & -> & ->). done. Qed.

Lemma wp_malloc E s : l_mem s = [] -> wp E malloc (fun ok s' => ok = true /\ same s s') s.
Proof. intros Hm. unfold wp, malloc. rewrite Hm. done. Qed.

Lemma wp_free s : wp total free (fun _ s' => same s s') s.
Proof. done. Qed.

Lemma wp_sys {A} E (m : M kstate A) (Q : A -> lstate -> Prop) s :
  wp E m (fun a k => Q a (set_lk k s)) (l_k s) -> wp E (sys m) Q s.
Proof. unfold wp, sys, zoom. by destruct (m (l_k s)) as [[]|]. Qed.

(** An [ioctl] on a file whose context is [o]. *)
Lemma ioctl_kex pid f o arg k : kinv k -> k_files k !! f = Some o ->
  priv_crypt_ioctl (Some ops) pid f PRIV_CRYPT_CMD_KEY_EXCHANGE arg k = Driver.do_kex (Some ops) o (ua_kex arg) k.
Proof.
  intros H Hf. unfold priv_crypt_ioctl, gets, bind at 1. rewrite (ki_init _ H).
  cbn -[Driver.do_kex]. unfold bind, get_file. by rewrite Hf.
Qed.

(** The two steps of the process's state machine. *)
Lemma polarssl_first ks key :
  exists d2, (forall gy, in_range p gy -> exists d3 d4,
      dhm_read_public P d2 (be_bytes (nbytes p) gy) = (0, d3) /\ exp_mod_K P d3 = (0, d4) /\
      dhm_check_range P d4 = 0 /\ write_K P d4 = (0, mpi_bytes (gy ^ x mod p))) /\
    forall s, polarssl_process_msg P (PKex P ks key (dhm_zero P) KEX_START) [] s
      = Done ((1, PKex P ks key d2 KEX_INIT_SENT, kex_msg (g ^ x mod p)), s).
Proof.
  destruct (ka_user (KexAgree := KA)) as (d1 & d2 & H1 & H2 & H3 & H4). exists d2. split; [exact H4|]. intros s.
  pose proof (ka_size (KexAgree := KA)) as Hsz. unfold polarssl_process_msg. cbn [pk_state pk_dhm pk_key_size pk_key]. rewrite H1. cbn iota.
  unfold max_dhm_buf_size, make_params. rewrite H2, H3. cbn [Z.ltb Z.compare truthy Z.eqb negb].
  replace (Z.of_nat MAX_KEX_MSG_LEN - 1 <? 3 * (Z.of_nat (nbytes p) + 2) + 2) with false by lia. done.
Qed.

Lemma calc_secret_wp ks d k s : write_K P d = (0, mpi_bytes k) -> 0 <= k < p -> l_mem s = [] ->
  wp total (calc_secret P (Z.to_nat ks) d) (fun r s' => r = (0, key_of ks k) /\ same s s') s.
Proof.
  intros Hk Hkp Hm. destruct (ka_prf (KexAgree := KA) k (Z.to_nat ks) Hkp) as [E1 E2]. unfold calc_secret. wp_bind. wp_use wp_malloc; [done|]. intros ok s1 [-> H1]. cbn [negb].
  rewrite Hk. cbn [Z.ltb Z.compare]. rewrite E1. cbn [Z.ltb Z.compare]. rewrite E2. cbn [Z.ltb Z.compare].
  wp_bind. wp_use wp_free. intros [] s2 H2. wp_pure. split; [done|]. by eapply same_trans.
Qed.

Lemma polarssl_second ks key d2 d3 d4 gy s :
  dhm_read_public P d2 (be_bytes (nbytes p) gy) = (0, d3) -> exp_mod_K P d3 = (0, d4) ->
  dhm_check_range P d4 = 0 -> write_K P d4 = (0, mpi_bytes (gy ^ x mod p)) -> l_mem s = [] ->
  wp total (polarssl_process_msg P (PKex P ks key d2 KEX_INIT_SENT) (PRIV_CRYPT_KEX_RESPONSE :: be_bytes (nbytes p) gy)) (fun r s' =>
    r = (0, PKex P ks (key_of ks (gy ^ x mod p)) d4 KEX_DONE, []) /\ same s s') s.
Proof.
  intros H1 H2 H3 H4 Hm. unfold polarssl_process_msg. cbn -[nbytes be_bytes calc_pre_secret calc_secret wp bind].
  rewrite drop_0, H1. unfold calc_pre_secret. rewrite H2. cbn -[nbytes be_bytes calc_secret wp bind].
  rewrite H3. cbn -[nbytes be_bytes calc_secret wp bind].
  wp_bind. pose proof (ka_gx (KexAgree := KA)) as Hp. unfold in_range in Hp.
  wp_use calc_secret_wp; [exact H4|apply Z.mod_pos_bound; lia|done|]. intros r s' [-> Hs]. by wp_pure.
Qed.

(** [do_kex] of the process: the kernel's context [q] gets a key, and unless the kernel
    reported an error the process has the same one. *)
Definition exchanged (q : nat) (c : priv_crypt_ctx) (t : ctr_tfm) (s : lstate) (rc : Z) (key : bytes) (s' : lstate) : Prop :=
  l_mem s' = [] /\ l_fd s' = l_fd s /\ kinv (l_k s') /\ roomy (l_k s') /\
  exists c' tk, rekeyed_with c tk c' /\ core (l_k s') = core (put q c' (l_k s)) /\
    (rc < 0 \/ rc = 0 /\ tk = CtrTfm key (t_iv t) /\ length key = Z.to_nat (cc_key_size c)).

Lemma dh_agree y : 0 <= y -> (g ^ x mod p) ^ y mod p = (g ^ y mod p) ^ x mod p.
Proof.
  intros Hy. pose proof (ka_x (KexAgree := KA)) as Hx. pose proof (ka_gx (KexAgree := KA)) as Hp. unfold in_range in Hp.
  rewrite <- !Zpower_mod by lia. by rewrite <- !Z.pow_mul_r, Z.mul_comm by lia.
Qed.

(** What a reply leaves of the state. *)
Definition sent (q : nat) (c : priv_crypt_ctx) (t : ctr_tfm) (s : lstate) (r : Z * bytes) (s' : lstate) : Prop :=
  l_mem s' = [] /\ l_fd s' = l_fd s /\ kinv (l_k s') /\ roomy (l_k s') /\
  exists c' tk, rekeyed_with c tk c' /\ core (l_k s') = core (put q c' (l_k s)) /\
    (fst r < 0 \/ exists y, 0 <= y /\ in_range p (g ^ y mod p) /\
       r = (1, PRIV_CRYPT_KEX_RESPONSE :: be_bytes (nbytes p) (g ^ y mod p)) /\
       tk = CtrTfm (key_of (cc_key_size c) ((g ^ x mod p) ^ y mod p)) (t_iv t)).

Lemma kern_send_agree pid b q c t s :
  kinv (l_k s) -> roomy (l_k s) -> l_mem s = [] -> k_files (l_k s) !! kb_fd b = Some (Some q) ->
  k_ctxs (l_k s) !! q = Some c -> cc_cipher c = Some t ->
  wp total (kern_send_kex_msg (Some ops) pid b (kex_msg (g ^ x mod p))) (sent q c t s) s.
Proof.
  intros Hi Hr Hm Hf Hq Ht. pose proof (ki_ok _ Hi _ _ Hq) as Hok. pose proof (ka_gx (KexAgree := KA)) as Hgx.
  pose proof kex_msg_fits as Hlen. unfold kern_send_kex_msg, ioctl. wp_bind. wp_bind. apply wp_sys.
  destruct (ka_laws (KexAgree := KA)) as [kf HL].
  assert (Hrun : wp total (Driver.do_kex (Some ops) (Some q) (Some (kex_desc_of (g ^ x mod p)))) (fun r k =>
    kex_post q c t (g ^ x mod p) (l_k s) r k /\ kinv k) (l_k s)).
  { eapply wp_and; [by apply do_kex_agree|].
    apply (do_kex_spec kf (Some ops) ltac:(by intros o [= <-]) (Some q)); [done|intros ? [= <-]; by rewrite Hq|].
    intros d [= <-]. cbn. split; [lia|]. by intros ? [= <-]. }
  unfold wp in Hrun |- * at 1. rewrite (ioctl_kex pid _ (Some q)) by done. cbn [ua_kex]. fold (kex_desc_of (g ^ x mod p)).
  destruct (Driver.do_kex _ _ _ _) as [[r k]|]; [|done]. destruct Hrun as [(Hr' & c' & tk & Hc' & Hcore & Hres) Hk].
  destruct Hres as [Hneg|(y & Hy & Hgy & -> & Htk)].
  - wp_pure. cbn [fst snd]. replace (fst r <? 0) with true by lia. cbn. split_and!; try done. exists c', tk. split_and!; try done. by left.
  - wp_pure. cbn [fst snd Z.ltb Z.compare]. change (default 0 (Some ?z)) with z.
    replace (0 <? Z.of_nat (nbytes p) + 1) with true by (symmetry; apply Z.ltb_lt; clear; lia).
    split_and!; try done. exists c', tk. split_and!; try done. right. by exists y.
Qed.

Lemma kex_loop_step pid n b kx ctx in_buf :
  kex_loop (Some ops) pid (S n) b kx ctx in_buf
  = let! r := kx_process_msg kx ctx in_buf in
    let '(rc, ctx, msg) := r in
    if rc <? 1 then ret (rc, ctx) else
    let! r := kern_send_kex_msg (Some ops) pid b msg in
    if 0 <=? fst r then kex_loop (Some ops) pid n b kx ctx (snd r) else ret (fst r, ctx).
Proof. done. Qed.

Lemma kex_loop_agree pid b q c t ks junk key s :
  kinv (l_k s) -> roomy (l_k s) -> l_mem s = [] -> k_files (l_k s) !! kb_fd b = Some (Some q) ->
  k_ctxs (l_k s) !! q = Some c -> cc_cipher c = Some t -> cc_key_size c = ks ->
  wp total (kex_loop (Some ops) pid 3 b (polarssl_kex_ops P junk) (PKex P ks key (dhm_zero P) KEX_START) []) (fun r s' =>
    exchanged q c t s (fst r) (pk_key P (snd r)) s') s.
Proof.
  intros Hi Hr Hm Hf Hq Ht Hks. destruct (polarssl_first ks key) as (d2 & Hsnd & Hfst). rewrite kex_loop_step. wp_bind.
  eapply wp_done; [apply Hfst|]. cbn [Z.ltb Z.compare]. wp_bind. wp_use kern_send_agree; [done..|].
  intros [rc reply] s1 (Hm1 & Hd1 & Hi1 & Hr1 & c' & tk & Hc' & Hcore & Hres). cbn [fst snd] in *.
  destruct Hres as [Hneg|(y & Hy & Hgy & [= -> ->] & Htk)].
  { replace (0 <=? rc) with false by lia. wp_pure. split_and!; try done. exists c', tk. split_and!; try done. by left. }
  cbn [Z.leb Z.compare]. rewrite kex_loop_step. wp_bind. destruct (Hsnd _ Hgy) as (d3 & d4 & E1 & E2 & E3 & E4).
  wp_use polarssl_second; [done..|]. intros r s2 [-> (Ek & Em & Ed)]. cbn [Z.ltb Z.compare]. wp_pure. cbn [fst snd pk_key].
  unfold exchanged. rewrite Ek, Em, Ed. split_and!; try done. exists c', tk. split_and!; try done. right.
  rewrite Htk, Hks, dh_agree by done. split_and!; try done. apply length_derive.
Qed.

(** ** Contexts as [priv_create_cctx] makes them *)

Record created (cctx : priv_cctx) : Prop := {
  cr_alg : pc_alg cctx = PRIV_CRYPT_ALG_AES_CTR;
  cr_key : key_sized (pc_key_size cctx);
  cr_dir : pc_dir cctx = PRIV_CRYPT_DIR_ENC \/ pc_dir cctx = PRIV_CRYPT_DIR_DEC;
  cr_size : pc_iv_size cctx = 16;
  cr_iv : iv_ok (take 16 (pc_iv cctx));
  cr_user : exists k, pc_user cctx = Some (Aesni k (take 16 (pc_iv cctx)));
  cr_kex : pc_kex cctx = Polarssl_kex;
}.

(** [priv_create_cctx] makes such contexts, and [priv_set_option] keeps them so. *)
Lemma priv_create_cctx_created junk_u junk_iv key_size s :
  l_mem s = [] -> bytes_ok (l_rng s) -> key_sized key_size -> length junk_iv = MAX_IV_LEN ->
  wp total (priv_create_cctx junk_u junk_iv PRIV_CRYPT_ALG_AES_CTR key_size) (fun r s' =>
    l_k s' = l_k s /\ l_mem s' = [] /\ l_fd s' = l_fd s /\ l_rng s' = drop 16 (l_rng s) /\
    exists cctx, r = (0, Some cctx) /\ created cctx /\ pc_key_size cctx = key_size) s.
Proof.
  intros Hm Hb Hk Hj. unfold priv_create_cctx, priv_aesni_init. change (negb (priv_crypt_alg_valid _)) with false. cbn iota.
  assert (Hrun : forall s0, l_mem s0 = [] -> malloc s0 = Done (true, LS (l_k s0) [] (l_live s0 + 1) (l_freed s0) (l_rng s0) (l_fd s0)))
    by (intros s0 E; unfold malloc; by rewrite E).
  wp_bind. eapply wp_done; [by apply Hrun|]. cbn [negb]. wp_bind. wp_bind. eapply wp_done; [by apply Hrun|]. cbn [negb].
  change (PRIV_CRYPT_ALG_AES_CTR =? PRIV_CRYPT_ALG_AES_CTR) with true. cbn [negb].
  wp_bind. eapply wp_done; [by apply Hrun|]. cbn [negb]. unfold wp at 1, ret at 1. cbn [fst snd Z.ltb Z.compare].
  wp_bind. unfold wp at 1, get_random_bytes. cbn [l_rng l_k]. change (Z.to_nat (get_iv_size PRIV_CRYPT_ALG_AES_CTR)) with 16%nat.
  set (rnd := take 16 (l_rng s ++ zeros 16)).
  assert (Hr : length rnd = 16%nat) by (unfold rnd; rewrite length_take, length_app, length_zeros; lia).
  assert (E : take 16 (splice 0 rnd junk_iv) = rnd) by (unfold splice; rewrite take_0; cbn [app]; by rewrite take_app_length').
  assert (Hok : iv_ok rnd).
  { split; [done|]. unfold rnd. apply Forall_take, Forall_app. split; [done|]. apply (bytes_ok_zeros 16). }
  change (priv_aesni_set_iv _ _ _) with (0, Some (Aesni (as_key junk_u) (take 16 (splice 0 rnd junk_iv)))).
  cbn [Z.ltb Z.compare]. wp_pure. split; [done|]. split; [done|]. split; [done|]. split; [done|]. eexists. split; [done|]. split; [|done].
  split; cbn [pc_alg pc_key_size pc_dir pc_iv_size pc_iv pc_user pc_kex]; try done; [by left|by rewrite E|by eexists].
Qed.

(** The kernel context behind a connected library context: the same key and counter. *)
Definition in_sync (cctx : priv_cctx) (q : nat) (k : kstate) : Prop :=
  exists b c t, pc_backend cctx = BKern b /\ k_files k !! kb_fd b = Some (Some q) /\ k_ctxs k !! q = Some c /\
    cc_id c = kb_id b /\ cc_dir c = pc_dir cctx /\ cc_cipher c = Some t /\ iv_ok (t_iv t) /\
    length (t_key t) = Z.to_nat (pc_key_size cctx) /\ pc_user cctx = Some (Aesni (t_key t) (t_iv t)).

Lemma ioctl_new pid f arg k : kinv k ->
  priv_crypt_ioctl (Some ops) pid f PRIV_CRYPT_CMD_NEW_CTX arg k = no_out (do_new_ctx pid f (ua_alg arg)) k.
Proof. intros H. unfold priv_crypt_ioctl, gets, bind at 1. by rewrite (ki_init _ H). Qed.

Lemma ioctl_set_iv pid f q arg k : kinv k -> k_files k !! f = Some (Some q) ->
  priv_crypt_ioctl (Some ops) pid f PRIV_CRYPT_CMD_SET_IV arg k = no_out (do_set_iv (Some q) (ua_iv arg)) k.
Proof.
  intros H Hf. unfold priv_crypt_ioctl, gets, bind at 1. rewrite (ki_init _ H).
  cbn -[do_set_iv no_out]. unfold bind, get_file. by rewrite Hf.
Qed.

Lemma ioctl_destroy pid f arg k : kinv k ->
  priv_crypt_ioctl (Some ops) pid f PRIV_CRYPT_CMD_DESTROY arg k = no_out (do_destroy f) k.
Proof. intros H. unfold priv_crypt_ioctl, gets, bind at 1. by rewrite (ki_init _ H). Qed.

Lemma wp_ext {S A} E (m m' : M S A) Q s : m s = m' s -> wp E m' Q s -> wp E m Q s.
Proof. unfold wp. by intros ->. Qed.

Lemma open_wp s : l_mem s = [] ->
  wp total open (fun o s' => o = Some (l_fd s) /\ l_mem s' = [] /\
    l_k s' = set_files (<[l_fd s := None]> (k_files (l_k s))) (l_k s)) s.
Proof. intros Hm. unfold wp, open, bind, malloc. by rewrite Hm. Qed.

Lemma new_ctx_agree pid fd cctx s :
  created cctx -> kinv (l_k s) -> roomy (l_k s) -> k_id (l_k s) < 2 ^ 31 - 1 ->
  wp total (priv_cmd_new_ctx (Some ops) pid fd cctx) (fun id s' =>
    id = k_id (l_k s) + 1 /\ l_mem s' = l_mem s /\ kinv (l_k s') /\ roomy (l_k s') /\ k_ctxs (l_k s) !! k_brk (l_k s) = None /\
    k_ctxs (l_k s') = <[k_brk (l_k s) := fresh_ctx pid id (pc_key_size cctx) (pc_dir cctx)]> (k_ctxs (l_k s)) /\
    k_files (l_k s') = <[fd := Some (k_brk (l_k s))]> (k_files (l_k s)) /\
    k_refs (l_k s') = k_refs (l_k s) /\ k_id (l_k s') = k_id (l_k s) + 1 /\ k_brk (l_k s') = S (k_brk (l_k s))) s.
Proof.
  intros Hc Hi Hr Hid. pose proof (ki_id0 _ Hi) as Hid0. unfold priv_cmd_new_ctx, ioctl. wp_bind. wp_bind. apply wp_sys.
  eapply wp_ext; [by apply ioctl_new|]. cbn [ua_alg]. rewrite (cr_alg _ Hc). unfold no_out. wp_bind.
  wp_use do_new_ctx_roomy; [done..|apply Hc|apply Hc|]. intros rc k (Hrc & Hk & Hr' & Hn & _ & Hcs & Hfs & Hrf & Hki & Hkb).
  wp_pure. cbn [fst snd set_lk l_k l_mem]. replace (rc <? 0) with false by (clear - Hrc Hid0; lia).
  rewrite u32_small by (clear - Hrc Hid Hid0; lia). by split_and!.
Qed.

(** [kern_init] makes a kernel context on a file of its own. *)
Definition opened (pid : Z) (cctx : priv_cctx) (s : lstate) (b : kern_backend) (s' : lstate) : Prop :=
  kb_fd b = l_fd s /\ kb_id b = k_id (l_k s) + 1 /\ l_mem s' = [] /\ kinv (l_k s') /\ roomy (l_k s') /\
  k_ctxs (l_k s) !! k_brk (l_k s) = None /\
  k_ctxs (l_k s') = <[k_brk (l_k s) := fresh_ctx pid (kb_id b) (pc_key_size cctx) (pc_dir cctx)]> (k_ctxs (l_k s)) /\
  k_files (l_k s') = <[l_fd s := Some (k_brk (l_k s))]> (k_files (l_k s)) /\
  k_refs (l_k s') = k_refs (l_k s) /\ k_id (l_k s') = k_id (l_k s) + 1 /\ k_brk (l_k s') = S (k_brk (l_k s)).

Lemma kern_init_agree pid cctx s :
  created cctx -> kinv (l_k s) -> roomy (l_k s) -> l_mem s = [] -> k_id (l_k s) < 2 ^ 31 - 1 ->
  wp total (kern_init (Some ops) pid cctx) (fun r s' => exists b, r = (0, Some b) /\ opened pid cctx s b s') s.
Proof.
  intros Hc Hi Hr Hm Hid. pose proof (ki_id0 _ Hi) as Hid0. unfold kern_init. wp_bind. wp_use wp_malloc; [done|].
  intros ok s1 [-> (Ek & Em & Ef)]. cbn [negb]. rewrite Hm in Em. wp_bind. wp_use open_wp; [done|].
  intros o s2 (-> & Em2 & Ek2). rewrite Ek in Ek2. wp_bind.
  wp_use new_ctx_agree; [done|rewrite Ek2; by apply kinv_files|by rewrite Ek2|by rewrite Ek2|].
  intros id s3 (Hid3 & Hm3 & Hi3 & Hr3 & Hn & Hcs & Hfs & Hrf & Hki & Hkb). rewrite Ek2 in *. cbn [k_id k_ctxs k_brk k_files k_refs set_files] in *.
  replace (id <? 0) with false by (clear - Hid3 Hid0; lia). wp_pure. eexists. split; [done|].
  unfold opened. rewrite Ef in *. rewrite insert_insert_eq in Hfs. split_and!; try done. by rewrite Hm3.
Qed.

(** [do_kex] of the library: the key exchanged is the one the transform of [q] now has. *)
Definition keys_agree (q : nat) (c : priv_crypt_ctx) (t : ctr_tfm) (cctx : priv_cctx) (s : lstate) (r : Z * priv_cctx) (s' : lstate) : Prop :=
  l_mem s' = [] /\ kinv (l_k s') /\ roomy (l_k s') /\
  exists c' tk, rekeyed_with c tk c' /\ core (l_k s') = core (put q c' (l_k s)) /\
    (fst r < 0 \/
     r = (0, with_user (Some (Aesni (t_key tk) (take 16 (pc_iv cctx)))) cctx) /\ t_iv tk = t_iv t /\
     length (t_key tk) = Z.to_nat (cc_key_size c)).

Lemma aesni_set_key_take n key : key_sized n -> length key = Z.to_nat n -> aesni_set_key key n = (0, key).
Proof. intros [-> | [-> | ->]] Hl; unfold aesni_set_key; cbn; rewrite take_ge; try done; rewrite Hl; done. Qed.

Lemma user_kex_agree pid junk cctx b q c t s :
  created cctx -> kinv (l_k s) -> roomy (l_k s) -> l_mem s = [] -> k_files (l_k s) !! kb_fd b = Some (Some q) ->
  k_ctxs (l_k s) !! q = Some c -> cc_cipher c = Some t -> cc_key_size c = pc_key_size cctx ->
  wp total (do_kex P (Some ops) pid junk cctx b) (keys_agree q c t cctx s) s.
Proof.
  intros Hc Hi Hr Hm Hf Hq Ht Hks. unfold do_kex. rewrite (cr_kex _ Hc). cbn [kex_ops_of polarssl_kex_ops kx_init].
  unfold polarssl_init. wp_bind. wp_bind. wp_use wp_malloc; [done|]. intros ok s1 [-> S1]. cbn [negb].
  wp_bind. wp_use wp_malloc; [by destruct S1 as (_ & -> & _)|]. intros ok s2 [-> S2]. cbn [negb].
  destruct (same_trans _ _ _ S1 S2) as (Ek & Em & _). wp_pure. wp_bind. fold (polarssl_kex_ops P junk).
  wp_use kex_loop_agree; [rewrite ?Ek, ?Em; done..|].
  intros [rc ctx] s3 (Hm3 & _ & Hi3 & Hr3 & c' & tk & Hc' & Hcore & Hres). cbn [fst snd] in *. rewrite Ek in Hcore.
  destruct Hres as [Hneg|(-> & Htk & Hlen)].
  - replace (rc =? 0) with false by (clear - Hneg; lia). cbn. replace (rc =? 0) with false by (clear - Hneg; lia).
    split_and!; try done. exists c', tk. split_and!; try done. by left.
  - destruct (cr_user _ Hc) as [k0 Hu]. cbn [Z.eqb polarssl_kex_ops kx_get_key polarssl_get_key]. rewrite Hu. unfold priv_aesni_set_key.
    rewrite aesni_set_key_take by (apply Hc || by rewrite <- Hks). cbn.
    split_and!; try done. exists c', tk. split_and!; try done. right. by rewrite Htk.
Qed.

(** [kern_set_iv]: the transform of [q] starts from the IV. *)
Lemma kern_set_iv_agree pid junk_iv b q c t iv s :
  kinv (l_k s) -> k_files (l_k s) !! kb_fd b = Some (Some q) -> k_ctxs (l_k s) !! q = Some c -> cc_cipher c = Some t ->
  iv_ok (take 16 iv) -> length junk_iv = MAX_IV_LEN ->
  wp total (kern_set_iv (Some ops) pid junk_iv b 16 iv) (fun rc s' =>
    rc = 0 /\ l_mem s' = l_mem s /\ l_k s' = put q (ived t (take 16 iv) c) (l_k s) /\ kinv (l_k s')) s.
Proof.
  intros Hi Hf Hq Ht [Hl Hb] Hj. pose proof (ki_ok _ Hi _ _ Hq) as Hok. unfold kern_set_iv, ioctl. wp_bind. wp_bind. apply wp_sys.
  eapply wp_ext; [by apply ioctl_set_iv|]. cbn [ua_iv do_set_iv iv_d_size iv_d_iv]. unfold no_out. wp_bind.
  change (Z.to_nat 16) with 16%nat. set (d := splice 0 (take 16 iv) junk_iv).
  assert (Hd : take 16 d = take 16 iv) by (unfold d, splice; rewrite take_0; cbn [app]; by rewrite take_app_length').
  assert (Hdl : length d = MAX_IV_LEN) by (unfold d; rewrite length_splice; [done|rewrite Hj, Hl; unfold MAX_IV_LEN; lia]).
  eapply wp_done.
  { pose proof (priv_set_iv_run q c t (l_k s) 16 d Hq Ht) as R. rewrite (co_iv_size _ Hok), Z.eqb_refl in R. apply R. rewrite Hdl. unfold MAX_IV_LEN. lia. }
  change (Z.to_nat 16) with 16%nat. rewrite Hd. wp_pure. cbn. split_and!; try done.
  destruct (co_cipher _ Hok) as (t' & Ht' & Htok). rewrite Ht in Ht'. injection Ht' as <-.
  eapply (kinv_put q c); try done. by apply ctx_ok_ived.
Qed.

(** [kern_destroy] takes the kernel context and the file away. *)
Lemma kern_destroy_agree pid b q c s :
  kinv (l_k s) -> k_files (l_k s) !! kb_fd b = Some (Some q) -> k_ctxs (l_k s) !! q = Some c ->
  wp total (kern_destroy (Some ops) pid b) (fun _ s' =>
    kinv (l_k s') /\ k_ctxs (l_k s') = delete q (k_ctxs (l_k s)) /\ k_files (l_k s') = delete (kb_fd b) (k_files (l_k s)) /\
    k_refs (l_k s') = unref c (k_refs (l_k s)) /\ k_id (l_k s') = k_id (l_k s) /\ k_brk (l_k s') = k_brk (l_k s) /\
    k_mem (l_k s') = k_mem (l_k s) /\ l_mem s' = l_mem s) s.
Proof.
  intros Hi Hf Hq. unfold kern_destroy, ioctl. wp_bind. wp_bind. apply wp_sys.
  eapply wp_ext; [by apply ioctl_destroy|]. unfold no_out. wp_bind. eapply wp_done.
  { rewrite (do_destroy_run _ (Some q)), Hq; [done|done|]. split; [done|]. intros ? [= <-]. by rewrite Hq. }
  wp_pure. cbn. split_and!; try done; [|apply delete_insert_eq]. by apply kinv_files, kinv_files, kinv_reaped.
Qed.

(** [priv_activate] and [priv_deactivate] of a connected context *)
Lemma set_active_run pid on c b q y l : kinv (l_k l) -> pc_backend c = BKern b -> k_files (l_k l) !! kb_fd b = Some (Some q) -> k_ctxs (l_k l) !! q = Some y ->
  priv_set_active (Some ops) pid on c l = Done (0, set_lk (put q (upd_activated (of_bool on) y) (l_k l)) l).
Proof.
  intros H Hb Hf Hq. unfold priv_set_active, get_backend. rewrite Hb. unfold bind at 1, ret at 1, kern_set_activation, ioctl, sys, zoom, bind at 1 2.
  assert (E : priv_crypt_ioctl (Some ops) pid (kb_fd b) (if on then PRIV_CRYPT_CMD_ACTIVATE else PRIV_CRYPT_CMD_DEACTIVATE) no_arg (l_k l) = Done ((0, no_uout), put q (upd_activated (of_bool on) y) (l_k l))).
  { unfold priv_crypt_ioctl, gets, bind at 1. rewrite (ki_init _ H). destruct on; cbn -[do_set_activated no_out]; unfold bind at 1, get_file; rewrite Hf;
      unfold no_out, do_set_activated, priv_set_activated, bind; rewrite (load_run q y) by done; by rewrite (store_run q y). }
  by rewrite E.
Qed.

Lemma set_iv_whole (t : ctr_tfm) iv : iv_ok (t_iv t) -> iv_ok iv -> crypto_blkcipher_set_iv t iv = CtrTfm (t_key t) iv.
Proof.
  intros [Hl _] [Hl' _]. unfold crypto_blkcipher_set_iv, splice. rewrite take_0, drop_ge by lia. cbn [app]. by rewrite app_nil_r.
Qed.

Lemma delete_fresh (m m' : gmap nat priv_crypt_ctx) q c c' :
  m !! q = None -> m' = <[q := c']> (<[q := c]> m) -> delete q m' = m.
Proof. intros Hn ->. rewrite insert_insert_eq. by apply delete_insert_id. Qed.

(** One more context was numbered, and the references are what they were. *)
Definition grown (s s' : lstate) : Prop :=
  kinv (l_k s') /\ roomy (l_k s') /\ l_mem s' = [] /\ k_refs (l_k s') = k_refs (l_k s) /\
  k_id (l_k s') = k_id (l_k s) + 1 /\ k_brk (l_k s') = S (k_brk (l_k s)).

(** A new kernel context at [q], used by nobody and not active, in step with the library's *)
Definition connected (cctx : priv_cctx) (s s' : lstate) (cctx' : priv_cctx) : Prop :=
  let q := k_brk (l_k s) in
  in_sync cctx' q (l_k s') /\ pc_dir cctx' = pc_dir cctx /\ k_ctxs (l_k s) !! q = None /\
  (exists c, k_ctxs (l_k s') = <[q := c]> (k_ctxs (l_k s)) /\ cc_user_ref c = None /\ cc_activated c = 0) /\
  k_files (l_k s') = <[l_fd s := Some q]> (k_files (l_k s)).

Lemma new_backend_full pid junk junk_iv cctx s :
  created cctx -> kinv (l_k s) -> roomy (l_k s) -> l_mem s = [] -> k_id (l_k s) < 2 ^ 31 - 1 ->
  k_files (l_k s) !! l_fd s = None -> length junk_iv = MAX_IV_LEN ->
  wp total (priv_new_backend P (Some ops) pid junk junk_iv cctx) (fun r s' =>
    grown s s' /\
    (fst r = 0 /\ connected cctx s s' (snd r) \/
     fst r < 0 /\ pc_backend (snd r) = BNull /\ k_ctxs (l_k s') = k_ctxs (l_k s) /\ k_files (l_k s') = k_files (l_k s))) s.
Proof.
  intros Hc Hi Hr Hm Hid Hfd Hj. set (q := k_brk (l_k s)). unfold priv_new_backend. wp_bind.
  wp_use kern_init_agree; [done..|]. intros r s1 (b & -> & Hb & Hbi & Hm1 & Hi1 & Hr1 & Hn & Hcs & Hfs & Hrf & Hki & Hkb).
  set (c := fresh_ctx _ _ _ _) in Hcs. fold q in Hcs, Hfs, Hn.
  assert (Hf1 : k_files (l_k s1) !! kb_fd b = Some (Some q)) by (rewrite Hfs, Hb; apply lookup_insert_eq).
  assert (Hq1 : k_ctxs (l_k s1) !! q = Some c) by (rewrite Hcs; apply lookup_insert_eq).
  set (cctx1 := with_backend (BKern b) cctx). assert (Hc1 : created cctx1) by (destruct Hc; by split).
  wp_bind. wp_use (user_kex_agree pid junk cctx1 b q c); [done..|].
  intros [rc cctx2] s2 (Hm2 & Hi2 & Hr2 & c' & tk & (Hok' & (Eid & _ & Eu) & Et & Ed & Ea) & Hcore & Hres). cbn [fst] in Hres.
  injection Hcore as _ _ Hq2 _ Hrf2 Hf2 Hki2 Hkb2. cbn in Hq2, Hrf2, Hf2, Hki2, Hkb2.
  destruct Hres as [Hneg|([= -> ->] & Etiv & Elen)].
  - replace (rc <? 0) with true by (clear - Hneg; lia). wp_bind.
    wp_use (kern_destroy_agree pid b q c'); [done|by rewrite Hf2|rewrite Hq2; apply lookup_insert_eq|].
    intros [] s3 (Hi3 & Hcs3 & Hfs3 & Hrf3 & Hki3 & Hkb3 & Hkm3 & Hm3). wp_pure. split.
    + unfold grown, roomy in *. assert (Hu : unref c' (k_refs (l_k s2)) = k_refs (l_k s2)) by (unfold unref; rewrite Eu; done). split_and!; congruence.
    + right. split_and!; try done.
      * rewrite Hcs3. by eapply delete_fresh; [|rewrite Hq2, Hcs].
      * rewrite Hfs3, Hf2, Hfs, Hb. rewrite delete_insert_eq. by apply delete_id.
  - cbn [Z.ltb Z.compare with_user pc_iv_size pc_iv]. wp_bind. rewrite (cr_size _ Hc1).
    wp_use (kern_set_iv_agree pid junk_iv b q c' tk); [done|by rewrite Hf2|rewrite Hq2; apply lookup_insert_eq|done|apply Hc|done|].
    intros rc s3 (-> & Hm3 & Hk3 & Hi3). cbn [Z.ltb Z.compare]. wp_pure. split.
    { split; [done|]. unfold roomy in *. rewrite Hk3. cbn. split_and!; congruence. }
    left. split; [done|]. split.
    2: { split; [done|]. split; [done|]. split; [|rewrite Hk3; cbn; by rewrite Hf2, Hfs].
         exists (ived (B := ctr_aes) tk (take 16 (pc_iv cctx)) c'). rewrite Hk3. cbn. by rewrite Hq2, Hcs, !insert_insert_eq. }
    exists b, (ived (B := ctr_aes) tk (take 16 (pc_iv cctx)) c'), (CtrTfm (t_key tk) (take 16 (pc_iv cctx))). cbn [fst snd]. rewrite Hk3. fold q.
    split_and!; cbn [with_user with_backend pc_backend pc_user]; try done; [by rewrite <- Hf1, <- Hf2|by apply put_lookup| |apply Hc].
    cbn. f_equal. apply set_iv_whole; [|apply Hc]. destruct (co_cipher _ Hok') as (t' & Ht' & Htok).
    rewrite Et in Ht'. by injection Ht' as <-.
Qed.

(** Given memory, [priv_new_backend] returns.  Either its status is 0, and the new
    kernel context behind the file has the id the library stored, the direction asked
    for, and a transform with exactly the library's key and counter; or the kernel
    reported an error in the exchange, the status is negative, and the kernel's contexts
    and the open files are what they were. *)
Lemma new_backend_agree pid junk junk_iv cctx s :
  created cctx -> kinv (l_k s) -> roomy (l_k s) -> l_mem s = [] -> k_id (l_k s) < 2 ^ 31 - 1 ->
  k_files (l_k s) !! l_fd s = None -> length junk_iv = MAX_IV_LEN ->
  wp total (priv_new_backend P (Some ops) pid junk junk_iv cctx) (fun r s' =>
    kinv (l_k s') /\
    (fst r = 0 /\ in_sync (snd r) (k_brk (l_k s)) (l_k s') \/
     fst r < 0 /\ pc_backend (snd r) = BNull /\ k_ctxs (l_k s') = k_ctxs (l_k s) /\ k_files (l_k s') = k_files (l_k s))) s.
Proof.
  intros. wp_use new_backend_full; [done..|]. intros r s' [(Hk & _) [(R1 & R2 & _)|R2]]; (split; [done|]); [by left|by right].
Qed.

Lemma wp_oops {S A} (m : M S A) F s : wp (fun f => f = F) m (fun _ _ => False) s -> m s = Oops F.
Proof. unfold wp. destruct (m s) as [[]|]; [done|by intros ->]. Qed.

Lemma make_crypto_ctx_nomem key_size dir e m s : k_mem s = Some e :: m ->
  dir = PRIV_CRYPT_DIR_ENC \/ dir = PRIV_CRYPT_DIR_DEC ->
  make_crypto_ctx PRIV_CRYPT_ALG_AES_CTR key_size dir s = Done ((- ENOMEM, None), set_mem m s).
Proof. intros He [-> | ->]; unfold make_crypto_ctx, bind at 1, kmalloc; cbn; by rewrite He. Qed.

Lemma kern_init_nomem pid cctx e m s :
  created cctx -> kinv (l_k s) -> l_mem s = [] -> k_mem (l_k s) = Some e :: m ->
  wp total (kern_init (Some ops) pid cctx) (fun r s' => exists b, r = (0, Some b) /\
    l_mem s' = [] /\ kinv (l_k s') /\ k_files (l_k s') !! kb_fd b = Some None) s.
Proof.
  intros Hc Hi Hm He. unfold kern_init. wp_bind. wp_use wp_malloc; [done|]. intros ok s1 [-> (Ek & Em & _)]. cbn [negb].
  wp_bind. wp_use open_wp; [by rewrite Em|]. intros o s2 (-> & Hm2 & Ek2). rewrite Ek in Ek2.
  assert (Hi2 : kinv (l_k s2)) by (rewrite Ek2; by apply kinv_files).
  wp_bind. unfold priv_cmd_new_ctx, ioctl. wp_bind. wp_bind. apply wp_sys. eapply wp_ext; [by apply ioctl_new|].
  unfold no_out. wp_bind. unfold do_new_ctx. cbn [ua_alg ad_alg ad_key_size ad_dir]. rewrite (cr_alg _ Hc). wp_bind.
  eapply wp_done; [apply (make_crypto_ctx_nomem _ _ e m); [by rewrite Ek2|apply Hc]|].
  wp_pure. cbn. eexists. split; [done|]. split; [done|]. split.
  - eapply kinv_core; [|exact Hi2]. done.
  - rewrite Ek2. apply lookup_insert_eq.
Qed.

(** When the kernel cannot allocate the context, the library does not notice: the
    id is unsigned, so [kern_init]'s check for an error never succeeds.  The library
    goes on to the key exchange on a file that has no context, and the kernel
    dereferences a NULL pointer. *)
Theorem failed_new_ctx_oopses pid junk junk_iv cctx e m s :
  created cctx -> kinv (l_k s) -> l_mem s = [] -> k_mem (l_k s) = Some e :: m ->
  priv_new_backend P (Some ops) pid junk junk_iv cctx s = Oops NullDeref.
Proof.
  intros Hc Hi Hm He. apply wp_oops. unfold priv_new_backend. wp_bind.
  eapply (wp_weaken total); [done|]. wp_use kern_init_nomem; [done..|]. intros r s1 (b & -> & Hm1 & Hi1 & Hf1). wp_bind.
  unfold do_kex. cbn [with_backend pc_kex pc_key_size]. rewrite (cr_kex _ Hc). cbn [kex_ops_of polarssl_kex_ops kx_init].
  unfold polarssl_init. wp_bind. wp_bind. wp_use wp_malloc; [done|]. intros ok s2 [-> S2]. cbn [negb].
  wp_bind. wp_use wp_malloc; [by destruct S2 as (_ & -> & _)|]. intros ok s3 [-> S3]. cbn [negb].
  destruct (same_trans _ _ _ S2 S3) as (Ek & _ & _). unfold wp at 1, ret. wp_bind.
  destruct (polarssl_first (pc_key_size cctx) (take (Z.to_nat (pc_key_size cctx)) junk)) as (d2 & _ & Hfst).
  fold (polarssl_kex_ops P junk). rewrite kex_loop_step. wp_bind. eapply wp_done; [apply Hfst|]. cbn [Z.ltb Z.compare].
  wp_bind. unfold kern_send_kex_msg, ioctl. wp_bind. wp_bind. apply wp_sys. rewrite Ek.
  eapply wp_ext; [by apply (ioctl_kex _ _ None)|]. pose proof kex_msg_fits. unfold Driver.do_kex. cbn [ua_kex kd_in_size].
  by replace (MAX_KEX_MSG_LEN <? length (kex_msg (g ^ x mod p))) with false by lia.
Qed.
End Agree.

(** ** Traffic *)

(** One message through a channel, encrypted in the kernel and decrypted by the library
    or the other way round: the message received where both sides report success. *)
Definition pass (last : bytes) (q : nat) (to_user : bool) (cctx : priv_cctx) (d : bytes) : M kstate (priv_cctx * option bytes) :=
  if to_user then
    let! r := PrivCrypt.priv_crypt (Some q) d d in
    let '(rc, cctx, out) := priv_crypt last cctx (snd r) in
    ret (cctx, if (fst r =? 0) && (rc =? 0) then Some out else None)
  else
    let '(rc, cctx, out) := priv_crypt last cctx d in
    let! r := PrivCrypt.priv_crypt (Some q) out out in
    ret (cctx, if (fst r =? 0) && (rc =? 0) then Some (snd r) else None).

Fixpoint pass_all (last : bytes) (q : nat) (cctx : priv_cctx) (ms : list (bool * bytes)) : M kstate (priv_cctx * list (option bytes)) :=
  match ms with
  | [] => ret (cctx, [])
  | (dir, d) :: ms =>
      let! r := pass last q dir cctx d in
      let! r' := pass_all last q (fst r) ms in
      ret (fst r', snd r :: snd r')
  end.

Lemma user_crypt_run last (t : ctr_tfm) cctx d :
  iv_ok (t_iv t) -> length last = 16%nat -> pc_user cctx = Some (Aesni (t_key t) (t_iv t)) ->
  priv_crypt last cctx d
  = (0, with_user (Some (Aesni (t_key t) (ctr_adv (t_iv t) (length d)))) cctx, stream_xor (B := ctr_aes) t d).
Proof.
  intros Hiv Hl Hu. unfold priv_crypt, priv_aesni_decrypt, priv_aesni_encrypt. rewrite Hu, priv_aesni_crypt_ref by done.
  by destruct (_ =? _).
Qed.

(** The kernel side is active and in step with [cctx]. *)
Definition live_sync (cctx : priv_cctx) (q : nat) (k : kstate) : Prop :=
  kinv k /\ in_sync cctx q k /\ forall c, k_ctxs k !! q = Some c -> cc_activated c <> 0.

Lemma live_sync_next cctx q k b c (t : ctr_tfm) pg n :
  live_sync cctx q k -> pc_backend cctx = BKern b -> k_files k !! kb_fd b = Some (Some q) -> k_ctxs k !! q = Some c ->
  cc_id c = kb_id b -> cc_dir c = pc_dir cctx -> iv_ok (t_iv t) -> length (t_key t) = Z.to_nat (pc_key_size cctx) ->
  ctx_ok (upd_pg (Some pg) (upd_cipher (Some (next (B := ctr_aes) t n)) c)) ->
  live_sync (with_user (Some (Aesni (t_key t) (ctr_adv (t_iv t) n))) cctx) q
    (put q (upd_pg (Some pg) (upd_cipher (Some (next (B := ctr_aes) t n)) c)) k).
Proof.
  intros (Hi & _ & Ha) Hb Hf Hq Hid Hd Hiv Hk Hok. split; [by eapply (kinv_put q c)|]. split.
  - exists b, (upd_pg (Some pg) (upd_cipher (Some (next (B := ctr_aes) t n)) c)), (CtrTfm (t_key t) (ctr_adv (t_iv t) n)).
    split_and!; try done; [apply put_lookup|by apply ctr_adv_ok].
  - intros c0. rewrite put_lookup. intros [= <-]. exact (Ha c Hq).
Qed.

Lemma pass_run last q dir cctx d k :
  live_sync cctx q k -> length last = 16%nat ->
  exists cctx' k', pass last q dir cctx d k = Done ((cctx', Some d), k') /\ live_sync cctx' q k'.
Proof.
  intros H Hl. pose proof H as (Hi & (b & c & t & Hb & Hf & Hq & Hid & Hd & Ht & Hiv & Hk & Hu) & Ha).
  pose proof (ki_ok _ Hi _ _ Hq) as Hok. pose proof (user_crypt_run last t cctx) as Huser.
  set (e := stream_xor t d). assert (He : length e = length d) by apply length_stream_xor.
  destruct dir; unfold pass.
  - destruct (priv_crypt_run q c t d k Hq Hok Ht (Ha _ Hq)) as (pg & _ & _ & Hok' & Hrun). fold e in Hrun.
    erewrite bind_done by exact Hrun. cbn [fst snd]. rewrite Huser by done. unfold e at 2. rewrite stream_xor_involutive, He.
    eexists _, _. split; [done|]. by eapply live_sync_next.
  - rewrite Huser by done. fold e.
    destruct (priv_crypt_run q c t e k Hq Hok Ht (Ha _ Hq)) as (pg & _ & _ & Hok' & Hrun). rewrite He in Hok', Hrun.
    erewrite bind_done by exact Hrun. cbn [fst snd]. unfold e at 1. rewrite stream_xor_involutive.
    eexists _, _. split; [done|]. by eapply live_sync_next.
Qed.

(** C7: From a kernel context that is active and in step with the library's, any number
    of messages of any lengths, each passed in either direction, is received as sent, and
    the two sides are in step afterwards. *)
Theorem channel_stays_in_sync last q cctx ms k :
  live_sync cctx q k -> length last = 16%nat ->
  exists cctx' k', pass_all last q cctx ms k = Done ((cctx', (fun m => Some (snd m)) <$> ms), k') /\ live_sync cctx' q k'.
Proof.
  intros H Hl. revert cctx k H. induction ms as [|[dir d] ms IH]; intros cctx k H; [by eexists _, _|].
  destruct (pass_run last q dir cctx d k H Hl) as (c1 & k1 & E1 & H1). destruct (IH c1 k1 H1) as (c2 & k2 & E2 & H2).
  exists c2, k2. split; [|done]. cbn [pass_all]. erewrite bind_done by exact E1. cbn [fst snd].
  by erewrite bind_done by exact E2.
Qed.
End Kernel.

(** ** Witnesses *)

Section SessionWitness.
#[local] Existing Instance aes_cipher.

(** Diffie-Hellman in the integers modulo 23, with 5^6 and 5^15. *)
Definition wit_prf : prf_fun := fun s _ _ n => take n (s ++ zeros n).

Definition wit_ssl : polarssl := {|
  dhm_context := Z * Z;
  dhm_zero := (0, 0);
  read_public_params := fun d => (0, d);
  size_P := fun _ => 1;
  dhm_make_params := fun d _ _ => (0, d, dhm_params 23 5 8);
  dhm_read_public := fun d b => (0, (be_value b, 0));
  exp_mod_K := fun d => (0, (fst d, fst d ^ 6 mod 23));
  dhm_check_range := fun d => if (2 <=? fst d) && (fst d <=? 21) then 0 else -1;
  write_K := fun d => (0, mpi_bytes (snd d));
  tls1_prf := fun s l r n => (0, wit_prf s l r n);
|}.

Definition wit_kex_ops : dhm_kex_ops := {|
  dhm_kex := Z;
  ko_init := let! a := kmalloc in ret (match a with None => (0, Some 0) | Some _ => (- ENOMEM, None) end);
  ko_destroy := fun _ => kfree;
  ko_respond := fun k n msg =>
    if n <? 1 then ret (- ENOMEM, k, 0, []) else ret (0, default 0 (msg !! 8%nat) ^ 15 mod 23, 1, [19]);
  ko_get_key := fun k n => ret (0, derive wit_prf (Z.to_nat n) (mpi_bytes k));
|}.

Lemma wit_prf_length s l r n : length (wit_prf s l r n) = n.
Proof. unfold wit_prf. rewrite length_take, length_app, length_zeros. lia. Qed.

#[local] Instance wit_kex_laws : KexLaws total wit_kex_ops.
Proof.
  split; cbn; intros.
  - wp_bind. destruct (kmalloc_cases s) as [(s' & E & C & _)|(e & s' & E & C & _)]; (eapply wp_done; [exact E|]); by wp_pure.
  - by wp_pure.
  - case_match; wp_pure; cbn; split_and!; done || lia.
  - wp_pure. split; [done|]. intros _. apply wit_prf_length.
Qed.

Lemma wit_range gx : in_range 23 gx -> be_bytes 1 gx = [gx] /\ nbytes gx = 1%nat.
Proof.
  unfold in_range. intros H. split; [cbn; by rewrite Z.mod_small by lia|]. unfold nbytes. replace (0 <? gx) with true by lia.
  assert (0 <= Z.log2 gx < 5) by (split; [apply Z.log2_nonneg|apply Z.log2_lt_pow2; lia]).
  replace ((Z.log2 gx + 8) / 8) with 1; [done|]. apply (Z.div_unique_pos _ _ _ (Z.log2 gx)); lia.
Qed.

#[local] Instance wit_agree : KexAgree wit_ssl wit_kex_ops 23 5 6 wit_prf.
Proof.
  split; try done; try exact _.
  - exists total. exact _.
  - apply wit_prf_length.
  - exists (0, 0), (0, 0). split_and!; try done. intros gy Hgy.
    exists (gy, 0), (gy, gy ^ 6 mod 23). destruct (wit_range _ Hgy) as [E _]. change (nbytes 23) with 1%nat.
    cbn [wit_ssl dhm_read_public exp_mod_K dhm_check_range write_K fst snd]. rewrite E. split_and!; try done.
    + unfold in_range in Hgy. by replace ((2 <=? gy) && (gy <=? 21)) with true by lia.
  - intros s Hs. cbn. wp_bind. eapply wp_done; [by apply roomy_kmalloc|]. by wp_pure.
  - intros kex n gx s Hs Hn Hgx. cbn [wit_kex_ops ko_respond ko_get_key]. replace (n <? 1) with false by (change (nbytes 23) with 1%nat in Hn; lia). wp_pure. split; [done|].
    right. exists 15. split; [done|]. split; [done|]. split; [vm_compute; done|]. split; [reflexivity|]. split; [reflexivity|].
    assert (E : (dhm_params 23 5 gx ++ [0; 0]) !! 8%nat = Some gx).
    { destruct (wit_range _ Hgx) as [E1 E2]. unfold dhm_params, dhm_export, mpi_bytes. by rewrite E2, E1. }
    rewrite E. intros m s1 Hs1 _. by wp_pure.
Qed.

Definition wit_cctx : priv_cctx := PC 1 16 16 (repeat 7 64) PRIV_CRYPT_DIR_ENC (Some (Aesni [] (repeat 7 16))) BUninit Polarssl_kex.

Lemma wit_created : created wit_cctx.
Proof. split; try done; [by left|by left|split; [done|repeat constructor; lia]|by exists []]. Qed.

Definition wit_l0 : lstate := LS wit_s0 [] 0 [] [] 3%nat.
Definition wit_connect : M lstate (Z * priv_cctx) := priv_new_backend wit_ssl (Some wit_kex_ops) 42 [] (repeat 0 64) wit_cctx.

Definition wit_l1 : lstate := LS (set_mem [Some 1%positive] wit_s0) [] 0 [] [] 3%nat.

Lemma failed_new_ctx_oopses_witness : wit_connect wit_l1 = Oops NullDeref.
Proof.
  apply (failed_new_ctx_oopses wit_ssl wit_kex_ops 23 5 6 wit_prf 42 [] (repeat 0 64) wit_cctx 1 [] wit_l1);
    [apply wit_created|apply kinv_loaded, wit_loaded|reflexivity..].
Defined.

Definition wit_live : priv_cctx :=
  PC 1 16 16 (zeros 64) PRIV_CRYPT_DIR_ENC (Some (Aesni (temp_key 16) (zeros 16))) (BKern (KernBackend 0 1)) Polarssl_kex.

Definition wit_parts (c : priv_crypt_ctx) : bytes * bytes :=
  match cc_cipher c with Some t => (t_key t, t_iv t) | None => ([], []) end.

Lemma wit_live_sync : live_sync wit_live 0 wit_s5.
Proof.
  destruct wit_ctx5 as (c & t & Hc & Ht & _ & Ha & Hid). split; [apply wit_inv5|]. split.
  - exists (KernBackend 0 1), c, (CtrTfm (temp_key 16) (zeros 16)).
    split; [done|]. split; [apply wit_file5|]. split; [done|]. split; [done|]. split; [|split; [|split; [|done]]].
    + assert (E : cc_dir <$> k_ctxs wit_s5 !! 0%nat = Some 1) by (vm_compute; reflexivity). rewrite Hc in E. by injection E.
    + assert (E : wit_parts <$> k_ctxs wit_s5 !! 0%nat = Some (temp_key 16, zeros 16)) by (vm_compute; reflexivity).
      rewrite Hc in E. injection E as E. unfold wit_parts in E. rewrite Ht in E |- *. destruct t as [k v]. by injection E as -> ->.
    + split; [done|]. apply bytes_ok_zeros.
  - rewrite Hc. by intros ? [= <-].
Qed.

Lemma channel_stays_in_sync_witness :
  exists cctx' k', pass_all (repeat 3 16) 0 wit_live [(true, [1; 2; 3]); (false, repeat 9 40)] wit_s5
    = Done ((cctx', [Some [1; 2; 3]; Some (repeat 9 40)]), k') /\ live_sync cctx' 0 k'.
Proof.
  apply (channel_stays_in_sync (repeat 3 16) 0 wit_live [(true, [1; 2; 3]); (false, repeat 9 40)] wit_s5);
    [apply wit_live_sync|reflexivity].
Defined.
End SessionWitness.
