(* ===== verification/RealSession.v ===== *)
(** * Sessions over the real arithmetic

    The library with its copy of PolarSSL (src/crypto/polarssl-1.1.1 behind
    src/crypto/libprivcrypt/polarssl_kex.c) and the kernel with the crypto_math module: the
    two implement [KexAgree], so the theorem of [Session] on [priv_new_backend] holds for the
    programs as they are, down to the limbs of the numbers and the rounds of the hashes.

    The memory that PolarSSL itself allocates in the process is not limited here, nor are
    the kernel's allocations; the numbers are 64-bit limbs with 128-bit products in the
    process and without in the kernel. *)

From Stdlib Require Import String.
From Bignums Require Import BigZ.
From S2P Require Import Prelude Mpi MpiOps MpiDiv MpiExp Dhm MpiSafe Hash HashSpec Prf BlkCipher Ctr AesCipher PrivCrypt Kex CryptoMath Driver LibPriv Session.

(** ** PolarSSL in the process *)

(** A function of PolarSSL with memory to spare; a fault, which the theorems exclude, would
    show as [d]. *)
Definition run {A} (m : M unit A) (d : A) : A := match m tt with Done (a, _) => a | Oops _ => d end.

Lemma run_fine {A} (Q : A -> Prop) (m : M unit A) d : fine (St := unit) Q m -> Q (run m d).
Proof. intros H. specialize (H tt I). unfold wp in H. unfold run. by destruct (m tt) as [[a s]|]; [apply H|]. Qed.

Section Real.
(** [fuel] bounds the loops; the others are uninitialised buffers of the stack and the heap.
    The numbers of the sources are [dhm_sample_P] and [dhm_sample_G]. *)
Variables (fuel : nat) (junk : hash_ctx) (tmp : bytes) (dst : nat -> bytes) (Ps Gs : bytes).

(** [get_public] *)
Definition get_public (ctx : Dhm.dhm_context) : M unit (Z * Dhm.dhm_context) := read_group ctx Ps Gs.

(** The functions the library calls *)
Definition real_ssl : polarssl := {|
  LibPriv.dhm_context := Dhm.dhm_context;
  LibPriv.dhm_zero := Dhm.dhm_zero;
  read_public_params := fun d => run (get_public d) (-1, d);
  size_P := fun d => Z.of_nat (run (mpi_size (dh_P d)) 0%nat);
  LibPriv.dhm_make_params := fun d n rng =>
    let '(rc, (d', msg)) := run (Dhm.dhm_make_params true fuel (fun n => ret (0, rng n)) d (Z.to_nat n)) (-1, (d, [])) in (rc, d', msg);
  LibPriv.dhm_read_public := fun d b => run (Dhm.dhm_read_public d b) (-1, d);
  exp_mod_K := fun d => run (dhm_exp_K true fuel d) (-1, d);
  LibPriv.dhm_check_range := fun d => run (Dhm.dhm_check_range (dh_GY d) (dh_P d)) (-1);
  write_K := fun d => run (let! n := mpi_size (dh_K d) in mpi_write_binary (dh_K d) n) (-1, []);
  LibPriv.tls1_prf := fun secret label random n => Prf.tls1_prf junk tmp secret label random (dst n);
|}.
End Real.

Definition dhm_sample_P : bytes := dhm_test_P.
Definition dhm_sample_G : bytes := dhm_test_G.

(** ** The two descriptions of sizes and messages *)

Lemma nbytes_zbytes z : nbytes z = zbytes z.
Proof.
  unfold nbytes, zbytes, zbits. destruct (Z.ltb_spec 0 z); [|done]. pose proof (Z.log2_nonneg z).
  rewrite Z2Nat.inj_div, Z2Nat.inj_add by lia. change (Z.to_nat 8) with 8%nat. f_equal. lia.
Qed.

Lemma mpi_bytes_be z : mpi_bytes z = be_bytes (zbytes z) z.
Proof. unfold mpi_bytes. by rewrite nbytes_zbytes. Qed.

Lemma dhm_params_exported p g gx : dhm_params p g gx = exported p ++ exported g ++ exported gx.
Proof. unfold dhm_params, Session.dhm_export, exported. by rewrite !mpi_bytes_be, !nbytes_zbytes. Qed.

Lemma in_range_ok p v : in_range p v <-> range_ok p v = true.
Proof. unfold in_range, range_ok. lia. Qed.

(** What [null_rng] gives: every limb is 0x0101010101010101. *)
Definition null_number (n : nat) : Z := lval (replicate n 0x0101010101010101).

Lemma le_limbs_ones m n : (8 * m <= n)%nat -> le_limbs m (replicate n 1) = replicate m 0x0101010101010101.
Proof.
  revert n. induction m as [|m IH]; intros n Hn; [done|]. cbn [le_limbs replicate]. rewrite take_replicate, drop_replicate.
  rewrite IH, Nat.min_l by lia. done.
Qed.

Lemma null_rng_ok : rng_ok (AL := ample) (fun n v => v = null_number n) (fun n => ret (0, null_rng n)).
Proof.
  intros n s Hs. unfold wp, ret. split; [done|]. split; [done|]. cbn [fst snd]. unfold null_rng. split_and!; try done.
  - apply length_replicate.
  - by apply Forall_replicate.
  - rewrite le_limbs_ones; [done|]. pose proof (Nat.div_mod_eq n 8). lia.
Qed.

(** ** The implementation of the interface *)

(** Buffers of the right sizes, whatever is in them *)
Record buffers (junk : hash_ctx) (tmp : bytes) (out : nat -> bytes) : Prop := {
  bf_junk : length (h_buffer junk) = 64%nat; bf_tmp : length tmp = 128%nat; bf_out : forall n, length (out n) = n;
}.

Section User.
Variables (fuel : nat) (junk : hash_ctx) (tmp : bytes) (dst : nat -> bytes) (Ps Gs : bytes) (p g x : Z).
Hypothesis Hbuf : buffers junk tmp dst.
Hypothesis Hmod : modulus true fuel p.
Hypothesis HPs : hex_value Ps = Some p.
Hypothesis HGs : hex_value Gs = Some g.
Hypothesis HPl : Z.of_nat (length Ps) <= 16 * 4998.
Hypothesis HGl : Z.of_nat (length Gs) <= 16 * 4998.
Hypothesis Hx : shrunk p (null_number (zbytes p / 8 + 1)) x.
Hypothesis Hgx : range_ok p (g ^ x mod p) = true.

Abbreviation ssl := (real_ssl fuel junk tmp dst Ps Gs).

(** The context after the first message *)
Definition sent_ctx (d : Dhm.dhm_context) : Prop := private p g x d /\ dh_GY d = mpi_zeroed /\ dh_len d = zbytes p.

Lemma user_first : exists d1 d2,
  read_public_params ssl (LibPriv.dhm_zero ssl) = (0, d1) /\ size_P ssl d1 = zbytes p /\
  LibPriv.dhm_make_params ssl d1 (zbytes p) null_rng = (0, d2, exported p ++ exported g ++ exported (g ^ x mod p)) /\ sent_ctx d2.
Proof.
  pose proof (run_fine _ _ (-1, Dhm.dhm_zero) (read_group_fine p g Ps Gs HPs HGs HPl HGl)) as H1. cbn [real_ssl read_public_params LibPriv.dhm_zero size_P LibPriv.dhm_make_params].
  unfold get_public. destruct (run (read_group _ _ _) _) as [rc d1]. destruct H1 as [E (Hc & HX & HY)]. cbn [fst snd] in *. subst rc.
  exists d1. assert (H2 := run_fine _ _ 0%nat (mpi_size_fine p (dh_P d1) (pm_P _ _ _ Hc))).
  assert (H3 := dhm_make_params_fine true fuel _ _ p g Hmod null_rng_ok d1 Hc ltac:(rewrite HX; cbn; lia)).
  apply (run_fine _ _ (-1, (d1, []))) in H3. rewrite Nat2Z.id.
  destruct (run (Dhm.dhm_make_params _ _ _ _ _) _) as [rc [d2 msg]]. destruct H3 as (x' & (x0 & -> & Hs) & Hv & EY & H). cbn [fst snd] in *.
  rewrite (shrunk_unique _ _ _ _ Hs Hx), Hgx in *. destruct H as (-> & El & ->). exists d2. rewrite H2. split_and!; try done.
  split; [done|]. by rewrite EY.
Qed.

Lemma user_second d2 gy : sent_ctx d2 -> range_ok p gy = true -> exists d3 d4,
  LibPriv.dhm_read_public ssl d2 (be_bytes (zbytes p) gy) = (0, d3) /\ exp_mod_K ssl d3 = (0, d4) /\
  LibPriv.dhm_check_range ssl d4 = 0 /\ write_K ssl d4 = (0, be_bytes (zbytes (gy ^ x mod p)) (gy ^ x mod p)).
Proof.
  intros (Hv & HY & Hl) Hgy. cbn [real_ssl LibPriv.dhm_read_public exp_mod_K LibPriv.dhm_check_range write_K].
  assert (H1 := dhm_read_public_fine (AL := ample) true fuel p g Hmod x d2 gy Hv Hl Hgy ltac:(by rewrite HY)).
  apply (run_fine _ _ (-1, d2)) in H1. destruct (run (Dhm.dhm_read_public _ _) _) as [rc d3].
  destruct H1 as [E (Hv3 & HY3 & Hs3 & Hl3)]. cbn [fst snd] in *. subst rc. exists d3.
  assert (H2 := dhm_exp_K_fine (AL := ample) true fuel p g Hmod x gy d3 Hv3 HY3 Hs3).
  apply (run_fine _ _ (-1, d3)) in H2. destruct (run (dhm_exp_K _ _ _) _) as [rc d4].
  destruct H2 as [E (Hv4 & HK4 & EY4 & _)]. cbn [fst snd] in *. subst rc. exists d4.
  assert (H3 := run_fine _ _ (-1) (dhm_check_range_fine (AL := ample) (dh_GY d4) (dh_P d4) gy p ltac:(by rewrite EY4)
    (pm_P _ _ _ (pv_params _ _ _ _ Hv4)) (pm_P_short _ _ _ (pv_params _ _ _ _ Hv4)))).
  cbv beta in H3. rewrite Hgy in H3. split_and!; try done.
  apply (run_fine (fun r => r = (0, be_bytes (zbytes (gy ^ x mod p)) (gy ^ x mod p)))).
  eapply fine_bind; [by apply mpi_size_fine|]. intros ? ->. eapply fine_mono; [|by apply mpi_write_binary_fine].
  intros [rc b] [E1 E2]. cbn [fst snd] in *. by subst.
Qed.
End User.

Section Agreement.
Context `{BC : BlockCipher}.
Variables (fuel kfuel : nat) (junk kjunk : hash_ctx) (tmp ktmp kmaster : bytes) (dst kdst : nat -> bytes) (Ps Gs : bytes) (p g x : Z).

(** What the numbers of an exchange have to satisfy: the texts denote them, the modulus is
    one both sides can handle and fits a message, and the public number of the library, whose
    private number is no secret, is in range. *)
Record group : Prop := {
  gr_user : modulus true fuel p;
  gr_kernel : modulus longlong kfuel p;
  gr_P : hex_value Ps = Some p;
  gr_G : hex_value Gs = Some g;
  gr_P_text : Z.of_nat (length Ps) <= 16 * 4998;
  gr_G_text : Z.of_nat (length Gs) <= 16 * 4998;
  gr_g : 0 <= g <= p;
  gr_fits : 3 * (Z.of_nat (zbytes p) + 2) + 2 < MAX_KEX_MSG_LEN;
  gr_x : shrunk p (null_number (zbytes p / 8 + 1)) x;
  gr_gx : range_ok p (g ^ x mod p) = true;
}.

Hypothesis Hbuf : buffers junk tmp dst.
Hypothesis Hkbuf : buffers kjunk ktmp kdst.
Hypothesis Hkmaster : length kmaster = 48%nat.
Hypothesis Hgr : group.

Abbreviation ssl := (real_ssl fuel junk tmp dst Ps Gs).
Abbreviation ops := (cm_dhm_kex_ops kfuel kjunk ktmp kmaster kdst).

Lemma zbytes_mod v : (zbytes (v mod p) <= zbytes p)%nat.
Proof. pose proof (mo_p _ _ _ (gr_user Hgr)). pose proof (Z.mod_pos_bound v p ltac:(lia)). apply zbytes_mono. lia. Qed.

Lemma real_prf k n : 0 <= k < p -> let random := seqZ 0 64 in
  let master := PRF (mpi_bytes k) lbl_master random 48%nat in
  LibPriv.tls1_prf ssl (mpi_bytes k) lbl_master random 48%nat = (0, master) /\
  LibPriv.tls1_prf ssl master lbl_expand (drop 32 random ++ take 32 random) n = (0, derive PRF n (mpi_bytes k)).
Proof.
  intros Hk. destruct Hbuf as [Hj Ht Hd]. pose proof (mo_size _ _ _ (gr_user Hgr)). assert (zbytes k <= zbytes p)%nat by (apply zbytes_mono; lia).
  cbv zeta. cbn [real_ssl LibPriv.tls1_prf]. rewrite mpi_bytes_be. split.
  - rewrite tls1_prf_run, Hd; [done|done|done|apply bytes_ok_be_bytes|rewrite length_be_bytes; lia|by apply bytes_ok_check|by apply bytes_ok_check|vm_compute; lia].
  - rewrite tls1_prf_run, Hd; [reflexivity|done|done|apply bytes_ok_PRF|rewrite length_PRF; lia|by apply bytes_ok_check|by apply bytes_ok_check|vm_compute; lia].
Qed.

Lemma real_respond kex n gx (s : kstate) : roomy s -> Z.of_nat (nbytes p) <= n -> in_range p gx ->
  wp total (ko_respond ops kex n (dhm_params p g gx ++ [0; 0])) (fun r s' =>
    let '(rc, kex', sz, out) := r in
    roomy s' /\
    (rc < 0 \/ exists y, 0 <= y /\ rc = 0 /\ in_range p (g ^ y mod p) /\
       out = be_bytes (nbytes p) (g ^ y mod p) /\ sz = Z.of_nat (nbytes p) /\
       forall m s1, roomy s1 -> 0 <= m -> wp total (ko_get_key ops kex' m) (fun r s2 =>
         roomy s2 /\ r = (0, derive PRF (Z.to_nat m) (mpi_bytes (gx ^ y mod p)))) s1)) s.
Proof.
  intros Hs Hn Hgx. rewrite nbytes_zbytes in *. apply in_range_ok in Hgx. pose proof (gr_g Hgr) as Hg. pose proof (gr_kernel Hgr) as Hm.
  pose proof (mo_size _ _ _ Hm). assert (zbytes g <= zbytes p)%nat by (apply zbytes_mono; lia).
  rewrite dhm_params_exported, <- !app_assoc. cbn [cm_dhm_kex_ops ko_respond ko_get_key].
  eapply wp_mono; [apply (cm_dhm_respond_fine kfuel p g Hm) with (gx := gx); (done || lia)|].
  intros [[[rc kex'] sz] out] s' (_ & O & y & Hy & HA). split; [exact O|]. destruct (range_ok p (g ^ y mod p)) eqn:ER; [|left; lia].
  destruct HA as (-> & -> & -> & HK). right. exists y. rewrite in_range_ok. split_and!; try done; [lia|]. intros m s1 Hs1 _.
  pose proof (zbytes_mod (gx ^ y)). destruct Hkbuf as [Hj Ht Hd].
  eapply wp_mono; [apply (cm_dhm_get_key_fine kjunk ktmp kmaster kdst Hj Ht Hkmaster Hd kex' m _ HK); [lia|exact Hs1]|].
  intros r s2 (_ & O2 & ->). split; [exact O2|]. by rewrite mpi_bytes_be.
Qed.

#[export] Instance real_agree : KexAgree ssl ops p g x PRF.
Proof.
  pose proof (gr_g Hgr) as Hg. pose proof (gr_fits Hgr) as Hf. pose proof (gr_gx Hgr) as Hgx.
  assert (Hlen : Z.of_nat (length (dhm_params p g (g ^ x mod p))) + 3 <= MAX_KEX_MSG_LEN).
  { rewrite dhm_params_exported. unfold exported. rewrite !length_app, !length_be_bytes. pose proof (zbytes_mod (g ^ x)).
    assert (zbytes g <= zbytes p)%nat by (apply zbytes_mono; lia). lia. }
  destruct (user_first fuel junk tmp dst Ps Gs p g x (gr_user Hgr) (gr_P Hgr) (gr_G Hgr) (gr_P_text Hgr) (gr_G_text Hgr) (gr_x Hgr) Hgx)
    as (d1 & d2 & E1 & E2 & E3 & Hd2).
  split; try done.
  - exists confined. by apply cm_dhm_laws; destruct Hkbuf.
  - apply (pv_range _ _ _ _ (proj1 Hd2)).
  - by rewrite nbytes_zbytes.
  - by apply in_range_ok.
  - apply real_prf.
  - apply length_PRF.
  - exists d1, d2. rewrite nbytes_zbytes, dhm_params_exported. split_and!; try done. intros gy Hgy%in_range_ok. rewrite mpi_bytes_be.
    by apply (user_second fuel junk tmp dst Ps Gs p g x (gr_user Hgr)).
  - intros s Hs. cbn [cm_dhm_kex_ops ko_init]. unfold cm_dhm_init. wp_bind. eapply wp_done; [by apply roomy_kmalloc|]. wp_pure. split; [by eexists|done].
  - apply real_respond.
Qed.
End Agreement.

(** ** The group of the sources *)

(** Powers modulo a number, on words of the machine *)
Fixpoint powm (a : BigZ.t) (m : positive) (n : BigZ.t) : BigZ.t :=
  match m with
  | xH => BigZ.modulo a n
  | xO m => BigZ.modulo (BigZ.square (powm a m n)) n
  | xI m => BigZ.modulo (BigZ.mul (BigZ.square (powm a m n)) a) n
  end.

Lemma powm_spec a m n : 0 < BigZ.to_Z n -> BigZ.to_Z (powm a m n) = BigZ.to_Z a ^ Zpos m mod BigZ.to_Z n.
Proof.
  intros Hn. induction m as [m IH|m IH|]; cbn [powm]; rewrite BigZ.spec_modulo, ?BigZ.spec_mul, ?BigZ.spec_square, ?IH; [| |by rewrite Z.pow_1_r];
    set (v := BigZ.to_Z a); set (q := BigZ.to_Z n) in *.
  - rewrite Pos2Z.inj_xI, Z.pow_add_r, Z.pow_1_r, Z.pow_twice_r by lia.
    rewrite <- (Z.mul_mod_idemp_l (_ * _) v), <- (Z.mul_mod (v ^ Z.pos m) (v ^ Z.pos m)), Z.mul_mod_idemp_l by lia. done.
  - rewrite Pos2Z.inj_xO, Z.pow_twice_r, <- Z.mul_mod by lia. done.
Qed.

Definition sample_p : Z := Eval vm_compute in default 0 (hex_value dhm_sample_P).
Definition sample_x : Z := Eval vm_compute in null_number 17 / 2 ^ 57.

Lemma shrunk_check p x0 (k : nat) : 0 <= x0 -> x0 / 2 ^ Z.of_nat (S k) < p -> p <= x0 / 2 ^ Z.of_nat k -> shrunk p x0 (x0 / 2 ^ Z.of_nat (S k)).
Proof.
  intros H0 H1 H2. split; [done|]. exists (S k). split; [done|]. intros j Hj. etransitivity; [exact H2|].
  apply Z.div_le_compat_l; [done|]. split; [apply Z.pow_pos_nonneg; lia|apply Z.pow_le_mono_r; lia].
Qed.

Lemma sample_range : range_ok sample_p (4 ^ sample_x mod sample_p) = true.
Proof.
  assert (E : 4 ^ sample_x mod sample_p = BigZ.to_Z (powm (BigZ.of_Z 4) (Z.to_pos sample_x) (BigZ.of_Z sample_p))).
  { rewrite powm_spec, !BigZ.spec_of_Z; [reflexivity|]. by vm_compute. }
  rewrite E. vm_compute. reflexivity.
Qed.

Lemma sample_group fuel kfuel : (1088 <= fuel)%nat -> (1088 <= kfuel)%nat ->
  group fuel kfuel dhm_sample_P dhm_sample_G sample_p 4 sample_x.
Proof.
  intros Hf Hk.
  assert (Hm : forall ll f, (1088 <= f)%nat -> modulus ll f sample_p).
  { intros ll f Hlf. assert (H : modulus_check ll 1088 sample_p = true) by (destruct ll; vm_compute; reflexivity).
    apply modulus_checked in H as []. split; (done || lia). }
  split; [by apply Hm|by apply Hm|vm_compute; reflexivity|reflexivity|vm_compute; discriminate|vm_compute; discriminate|split; by vm_compute|by vm_compute| |apply sample_range].
  apply (shrunk_check _ (null_number 17) 56); by vm_compute.
Qed.

(** C1: [priv_new_backend] of the library against the kernel, with the group of the sources, the
    big numbers, the hashes and the pseudo-random function as PolarSSL computes them: given
    memory it returns.  Either its status is 0, and the new kernel context behind the file
    has the id the library stored, the direction asked for, and a transform with exactly the
    library's key and counter; or the kernel reported an error in the exchange, the status is
    negative, and the kernel's contexts and the open files are what they were. *)
Theorem session_in_sync `{BC : BlockCipher} fuel kfuel junk kjunk tmp ktmp kmaster dst kdst pid kbuf junk_iv cctx s :
  (1088 <= fuel)%nat -> (1088 <= kfuel)%nat -> buffers junk tmp dst -> buffers kjunk ktmp kdst -> length kmaster = 48%nat ->
  created cctx -> kinv (l_k s) -> roomy (l_k s) -> l_mem s = [] -> k_id (l_k s) < 2 ^ 31 - 1 ->
  k_files (l_k s) !! l_fd s = None -> length junk_iv = MAX_IV_LEN ->
  wp total (priv_new_backend (real_ssl fuel junk tmp dst dhm_sample_P dhm_sample_G) (Some (cm_dhm_kex_ops kfuel kjunk ktmp kmaster kdst))
      pid kbuf junk_iv cctx) (fun r s' =>
    kinv (l_k s') /\
    (fst r = 0 /\ in_sync (snd r) (k_brk (l_k s)) (l_k s') \/
     fst r < 0 /\ pc_backend (snd r) = BNull /\ k_ctxs (l_k s') = k_ctxs (l_k s) /\ k_files (l_k s') = k_files (l_k s))) s.
Proof.
  intros Hf Hkf Hb Hkb Hm. intros. pose proof (sample_group fuel kfuel Hf Hkf) as Hg.
  by apply (new_backend_agree _ _ sample_p 4 sample_x PRF (KA := real_agree _ _ _ _ _ _ _ _ _ _ _ _ _ _ Hb Hkb Hm Hg)).
Qed.

Section Witness.
#[local] Existing Instance aes_cipher.

Lemma some_buffers : buffers cm_junk (zeros 128) zeros.
Proof. split; [reflexivity|reflexivity|apply length_zeros]. Qed.

Lemma enough_fuel : (1088 <= Z.to_nat 1088)%nat.
Proof. lia. Qed.

Lemma session_in_sync_witness : exists r s',
  priv_new_backend (real_ssl (Z.to_nat 1088) cm_junk (zeros 128) zeros dhm_sample_P dhm_sample_G)
    (Some (cm_dhm_kex_ops (Z.to_nat 1088) cm_junk (zeros 128) (zeros 48) zeros)) 42 [] (repeat 0 64) wit_cctx wit_l0 = Done (r, s') /\
  kinv (l_k s') /\ (fst r = 0 -> in_sync (snd r) 0 (l_k s')).
Proof.
  assert (H := session_in_sync (Z.to_nat 1088) (Z.to_nat 1088) cm_junk cm_junk (zeros 128) (zeros 128) (zeros 48) zeros zeros 42 [] (repeat 0 64)
    wit_cctx wit_l0 enough_fuel enough_fuel some_buffers some_buffers eq_refl wit_created (kinv_loaded _ wit_loaded) eq_refl eq_refl eq_refl eq_refl eq_refl).
  apply wp_elim in H as (r & s' & E & Hk & H). exists r, s'. split; [exact E|]. split; [exact Hk|]. intros E0.
  destruct H as [[_ H]|[H _]]; [exact H|lia].
Defined.

(** In the integers modulo 23, with a kernel whose random bytes are ones too, the two sides do
    connect. *)
Definition small_l0 : lstate := LS (cm_s0 []) [] 0 [] [] 3%nat.

Example small_session_connects :
  fst <$> val (priv_new_backend (real_ssl 64 cm_junk (zeros 128) zeros (chars "17"%string) (chars "5"%string))
    (Some (cm_dhm_kex_ops 64 cm_junk (zeros 128) (zeros 48) zeros)) 42 [] (repeat 0 64) wit_cctx) small_l0 = Some 0.
Proof. vm_compute. reflexivity. Qed.
End Witness.
