(* ===== verification/QemuNet.v ===== *)
(** * QEMU's side of the private network

    qemu-kvm-0.15.1: the packet queues between network clients (net/queue.c), the tap client that
    encrypts what the guest sends and decrypts what it receives (net/tap.c), and the creation of
    a private network card (net.c), over the library and the kernel modules it talks to. *)

From S2P Require Import Prelude Text BlkCipher Ctr AesCipher PrivCrypt Kex Driver PrivNet LibPriv.

(** [struct iovec]: [iov_base] is the memory from the pointer to the end of its object. *)
Record iovec := Iov { iov_base : bytes; iov_len : nat }.
Definition iov_data (v : iovec) : bytes := take (iov_len v) (iov_base v).

(** ** net/queue.c *)

Definition QEMU_NET_PACKET_FLAG_NONE : Z := 0.
Definition QEMU_NET_PACKET_FLAG_RAW : Z := 1.

(** [struct NetPacket] and [struct NetQueue]; [np_cb] is whether there is a callback. *)
Record NetPacket := Pkt { np_flags : Z; np_data : bytes; np_cb : bool }.
Record NetQueue := Queue { packets : list NetPacket; delivering : bool }.

Definition qemu_new_net_queue : NetQueue := Queue [] false.

(** A queue in a larger state, with its delivery functions.  They may write to the data they
    are given; what it holds afterwards is part of their result. *)
Section Queue.
Context {St : Type} (queue : St -> NetQueue) (set_queue : NetQueue -> St -> St).
Context (deliver : Z -> bytes -> M St (Z * bytes)) (deliver_iov : list iovec -> M St (Z * list iovec)) (sent_cb : Z -> M St unit).

Definition set_packets (l : list NetPacket) (s : St) : St := set_queue (Queue l (delivering (queue s))) s.
Definition set_delivering (b : bool) (s : St) : St := set_queue (Queue (packets (queue s)) b) s.

Definition qemu_net_queue_append (flags : Z) (data : bytes) (cb : bool) : M St Z :=
  modify (fun s => set_packets (packets (queue s) ++ [Pkt flags data cb]) s) ;;
  ret (Z.of_nat (length data)).

Definition qemu_net_queue_append_iov (flags : Z) (iov : list iovec) (cb : bool) : M St Z :=
  qemu_net_queue_append flags (iov ≫= iov_data) cb.

Definition qemu_net_queue_deliver (flags : Z) (data : bytes) : M St (Z * bytes) :=
  modify (set_delivering true) ;;
  let! r := deliver flags data in
  modify (set_delivering false) ;;
  ret r.

Definition qemu_net_queue_deliver_iov (iov : list iovec) : M St (Z * list iovec) :=
  modify (set_delivering true) ;;
  let! r := deliver_iov iov in
  modify (set_delivering false) ;;
  ret r.

(** The loop of [qemu_net_queue_flush], at most [n] packets *)
Fixpoint flush_loop (n : nat) : M St unit :=
  match n with
  | O => ret tt
  | S n =>
      let! q := gets queue in
      match packets q with
      | [] => ret tt
      | packet :: l =>
          modify (set_packets l) ;;
          let! r := qemu_net_queue_deliver (np_flags packet) (np_data packet) in
          if fst r =? 0 then
            modify (fun s => set_packets (Pkt (np_flags packet) (snd r) (np_cb packet) :: packets (queue s)) s)
          else
            (if np_cb packet then sent_cb (fst r) else ret tt) ;;
            flush_loop n
      end
  end.

(** No delivery function adds to the queue it delivers, so the packets that are there bound the
    loop. *)
Definition qemu_net_queue_flush : M St unit :=
  let! q := gets queue in flush_loop (length (packets q)).

Definition qemu_net_queue_send (flags : Z) (data : bytes) (cb : bool) : M St (Z * bytes) :=
  let! q := gets queue in
  if delivering q then let! n := qemu_net_queue_append flags data false in ret (n, data) else
  let! r := qemu_net_queue_deliver flags data in
  if fst r =? 0 then qemu_net_queue_append flags (snd r) cb ;; ret (0, snd r) else
  qemu_net_queue_flush ;;
  ret r.

Definition qemu_net_queue_send_iov (flags : Z) (iov : list iovec) (cb : bool) : M St (Z * list iovec) :=
  let! q := gets queue in
  if delivering q then let! n := qemu_net_queue_append_iov flags iov false in ret (n, iov) else
  let! r := qemu_net_queue_deliver_iov iov in
  if fst r =? 0 then qemu_net_queue_append_iov flags (snd r) cb ;; ret (0, snd r) else
  qemu_net_queue_flush ;;
  ret r.
End Queue.

(** ** State *)

(** What a write to the tap device does *)
Inductive wanswer := WOk | WIntr | WAgain | WErr.

(** [TAPState] with its [VLANClientState]; [t_in] are the packets that wait in the device,
    [t_out] those written to it, [t_answers] what the next writes do (then they succeed). *)
Record TAPState := Tap {
  t_link_down : bool;
  t_disabled : bool;
  t_queue : NetQueue;
  t_buf : bytes;
  read_poll : bool;
  write_poll : bool;
  using_vnet_hdr : bool;
  host_vnet_hdr_len : nat;
  t_in : list bytes;
  t_out : list bytes;
  t_answers : list wanswer;
}.

(** The guest's emulated card, a client that takes packets when it has buffers: [c_can] are its
    next answers to [can_receive], [c_takes] whether it takes the next packets, [c_got] what it
    took, [c_sent] how many of its own packets were reported sent. *)
Record card := Card {
  c_link_down : bool;
  c_disabled : bool;
  c_queue : NetQueue;
  c_can : list bool;
  c_takes : list bool;
  c_got : list bytes;
  c_sent : nat;
}.

(** The privnet module of the kernel, apart from the kernel's contexts *)
Record netmod := NetMod { nm_loaded : bool; nm_root : mtree; nm_delay : Z; nm_mac_buff : bytes }.

Section Qemu.
Context `{BC : BlockCipher}.

(** [struct NICInfo] *)
Record NICInfo := Nic { macaddr : bytes; used : bool; nd_cctx_in : option priv_cctx; nd_cctx_out : option priv_cctx }.

(** QEMU's variables, and the kernel below its library *)
Record qemu := Qemu {
  q_lib : lstate;
  q_mod : netmod;
  nd_table : list NICInfo;
  nb_nics : nat;
  mac_index : Z;
  q_tap : TAPState;
  q_card : card;
}.

Abbreviation Q := (M qemu).

Definition set_lib (l : lstate) (s : qemu) : qemu := Qemu l (q_mod s) (nd_table s) (nb_nics s) (mac_index s) (q_tap s) (q_card s).
Definition set_nics (l : list NICInfo) (s : qemu) : qemu := Qemu (q_lib s) (q_mod s) l (nb_nics s) (mac_index s) (q_tap s) (q_card s).
Definition set_nb_nics (n : nat) (s : qemu) : qemu := Qemu (q_lib s) (q_mod s) (nd_table s) n (mac_index s) (q_tap s) (q_card s).
Definition set_index (i : Z) (s : qemu) : qemu := Qemu (q_lib s) (q_mod s) (nd_table s) (nb_nics s) i (q_tap s) (q_card s).
Definition set_tap (t : TAPState) (s : qemu) : qemu := Qemu (q_lib s) (q_mod s) (nd_table s) (nb_nics s) (mac_index s) t (q_card s).
Definition set_card (c : card) (s : qemu) : qemu := Qemu (q_lib s) (q_mod s) (nd_table s) (nb_nics s) (mac_index s) (q_tap s) c.
Definition in_lib {A} (m : M lstate A) : Q A := zoom q_lib set_lib m.

(** The state of the kernel's network filter *)
Definition ns (s : qemu) : nstate :=
  NS (l_k (q_lib s)) (nm_root (q_mod s)) (nm_delay (q_mod s)) (nm_mac_buff (q_mod s)).
Definition set_ns (n : nstate) (s : qemu) : qemu :=
  Qemu (set_lk (n_k n) (q_lib s)) (NetMod (nm_loaded (q_mod s)) (n_root n) (n_delay n) (n_mac_buff n))
    (nd_table s) (nb_nics s) (mac_index s) (q_tap s) (q_card s).
Definition in_kernel {A} (m : M nstate A) : Q A := zoom ns set_ns m.

Definition on_tap (f : TAPState -> TAPState) : Q unit := modify (fun s => set_tap (f (q_tap s)) s).
Definition on_card (f : card -> card) : Q unit := modify (fun s => set_card (f (q_card s)) s).
Definition tap_set_disabled (b : bool) (t : TAPState) : TAPState :=
  Tap (t_link_down t) b (t_queue t) (t_buf t) (read_poll t) (write_poll t) (using_vnet_hdr t) (host_vnet_hdr_len t) (t_in t) (t_out t) (t_answers t).
Definition tap_set_queue (q : NetQueue) (t : TAPState) : TAPState :=
  Tap (t_link_down t) (t_disabled t) q (t_buf t) (read_poll t) (write_poll t) (using_vnet_hdr t) (host_vnet_hdr_len t) (t_in t) (t_out t) (t_answers t).
Definition tap_set_buf (b : bytes) (t : TAPState) : TAPState :=
  Tap (t_link_down t) (t_disabled t) (t_queue t) b (read_poll t) (write_poll t) (using_vnet_hdr t) (host_vnet_hdr_len t) (t_in t) (t_out t) (t_answers t).
Definition tap_set_polls (r w : bool) (t : TAPState) : TAPState :=
  Tap (t_link_down t) (t_disabled t) (t_queue t) (t_buf t) r w (using_vnet_hdr t) (host_vnet_hdr_len t) (t_in t) (t_out t) (t_answers t).
Definition tap_set_device (i o : list bytes) (a : list wanswer) (t : TAPState) : TAPState :=
  Tap (t_link_down t) (t_disabled t) (t_queue t) (t_buf t) (read_poll t) (write_poll t) (using_vnet_hdr t) (host_vnet_hdr_len t) i o a.
Definition card_set_disabled (b : bool) (c : card) : card := Card (c_link_down c) b (c_queue c) (c_can c) (c_takes c) (c_got c) (c_sent c).
Definition card_set_queue (q : NetQueue) (c : card) : card := Card (c_link_down c) (c_disabled c) q (c_can c) (c_takes c) (c_got c) (c_sent c).
Definition card_set_sent (n : nat) (c : card) : card := Card (c_link_down c) (c_disabled c) (c_queue c) (c_can c) (c_takes c) (c_got c) n.
Definition card_set_can (l : list bool) (c : card) : card := Card (c_link_down c) (c_disabled c) (c_queue c) l (c_takes c) (c_got c) (c_sent c).
Definition card_set_got (l : list bytes) (a : list bool) (c : card) : card := Card (c_link_down c) (c_disabled c) (c_queue c) (c_can c) a l (c_sent c).

(** ** net/tap.c: packets *)

Definition TAP_BUFSIZE : Z := 4096 + 65536.

Definition tap_read_poll (enable : bool) : Q unit := on_tap (fun t => tap_set_polls enable (write_poll t) t).
Definition tap_write_poll (enable : bool) : Q unit := on_tap (fun t => tap_set_polls (read_poll t) enable t).

(** The inner loop of [get_nic_with_mac]: [None] if it reads beyond the packet *)
Fixpoint same_mac (a addr : bytes) : option bool :=
  match a, addr with
  | [], _ => Some true
  | _ :: _, [] => None
  | x :: a, y :: addr => if x =? y then same_mac a addr else Some false
  end.

Fixpoint scan_nics (i : nat) (l : list NICInfo) (addr : bytes) : Q (option nat) :=
  match l with
  | [] => ret None
  | n :: l =>
      match same_mac (macaddr n) addr with
      | None => oops OutOfBounds
      | Some true => ret (Some i)
      | Some false => scan_nics (S i) l addr
      end
  end.

(** [get_nic_with_mac]: an index of [nd_table] *)
Definition get_nic_with_mac (addr : bytes) : Q (option nat) :=
  let! s := get in scan_nics 0 (take (nb_nics s) (nd_table s)) addr.

Definition nic_cctx (dir_in : bool) (n : NICInfo) : option priv_cctx := if dir_in then nd_cctx_in n else nd_cctx_out n.
Definition nic_set_cctx (dir_in : bool) (c : option priv_cctx) (n : NICInfo) : NICInfo :=
  if dir_in then Nic (macaddr n) (used n) c (nd_cctx_out n) else Nic (macaddr n) (used n) (nd_cctx_in n) c.
Definition store_cctx (i : nat) (dir_in : bool) (c : option priv_cctx) : Q unit :=
  modify (fun s => set_nics (alter (nic_set_cctx dir_in c) i (nd_table s)) s).

Section Tap.
(** The stack buffer of the library's cipher *)
Context (last : bytes).

(** [priv_crypt_packet]: the status, and the memory from [buf] on *)
Definition priv_crypt_packet (len : Z) (buf : bytes) (dir_in : bool) : Q (Z * bytes) :=
  let! o := get_nic_with_mac (if dir_in then buf else drop 6 buf) in
  let! nics := gets nd_table in
  match (i ← o; n ← nics !! i; c ← nic_cctx dir_in n; Some (i, c)) with
  | None => ret (0, buf)
  | Some (i, cctx) =>
      match buf !! 13%nat with
      | None => oops OutOfBounds
      | Some t =>
          let buf := <[13%nat := u8 (t + (if dir_in then -1 else 1))]> buf in
          if len <? 14 then ret (-1, buf) else
          if Z.of_nat (length buf) <? len then oops OutOfBounds else
          let '(rc, cctx, out) := LibPriv.priv_crypt last cctx (slice 14 (Z.to_nat len - 14) buf) in
          store_cctx i dir_in (Some cctx) ;;
          ret (if rc <? 0 then -1 else 0, splice 14 out buf)
      end
  end.

(** The loop of [tap_write_packet] over the pieces of a packet *)
Fixpoint crypt_iovs (iov : list iovec) : Q (list iovec) :=
  match iov with
  | [] => ret []
  | v :: iov =>
      let! r := priv_crypt_packet (iov_len v) (iov_base v) false in
      let base := if fst r <? 0 then splice 0 (zeros (iov_len v)) (snd r) else snd r in
      let! iov := crypt_iovs iov in
      ret (Iov base (iov_len v) :: iov)
  end.

(** The loop around [writev]: what it did and the answers left *)
Fixpoint writev_loop (l : list wanswer) : wanswer * list wanswer :=
  match l with
  | [] => (WOk, [])
  | WIntr :: l => writev_loop l
  | a :: l => (a, l)
  end.

Definition tap_write_packet (iov : list iovec) : Q (Z * list iovec) :=
  let! iov := crypt_iovs iov in
  let data := iov ≫= iov_data in
  let! t := gets q_tap in
  let '(a, l) := writev_loop (t_answers t) in
  on_tap (fun t => tap_set_device (t_in t) (t_out t ++ (if a is WOk then [data] else [])) l t) ;;
  match a with
  | WOk => ret (Z.of_nat (length data), iov)
  | WAgain => tap_write_poll true ;; ret (0, iov)
  | _ => ret (-1, iov)
  end.

(** [struct virtio_net_hdr_mrg_rxbuf hdr = { }] *)
Definition hdr_iov (n : nat) : iovec := Iov (zeros 12) n.

Definition tap_receive_iov (iov : list iovec) : Q (Z * list iovec) :=
  let! t := gets q_tap in
  if negb (host_vnet_hdr_len t =? 0)%nat && negb (using_vnet_hdr t) then
    let! r := tap_write_packet (hdr_iov (host_vnet_hdr_len t) :: iov) in
    ret (fst r, tail (snd r))
  else tap_write_packet iov.

(** The memory of the packet after the pieces were encrypted *)
Definition last_base (iov : list iovec) : bytes := match List.last iov (Iov [] 0) with Iov b _ => b end.

Definition tap_receive_raw (buf : bytes) : Q (Z * bytes) :=
  let! t := gets q_tap in
  let iov := (if (host_vnet_hdr_len t =? 0)%nat then [] else [hdr_iov (host_vnet_hdr_len t)]) ++ [Iov buf (length buf)] in
  let! r := tap_write_packet iov in
  ret (fst r, last_base (snd r)).

Definition tap_receive (buf : bytes) : Q (Z * bytes) :=
  let! t := gets q_tap in
  if negb (host_vnet_hdr_len t =? 0)%nat && negb (using_vnet_hdr t) then tap_receive_raw buf else
  let! r := tap_write_packet [Iov buf (length buf)] in
  ret (fst r, last_base (snd r)).

(** ** net.c: delivery between the card and the tap *)

(** [qemu_deliver_packet] and [qemu_deliver_packet_iov] to the tap *)
Definition tap_deliver (flags : Z) (data : bytes) : Q (Z * bytes) :=
  let! t := gets q_tap in
  if t_link_down t then ret (Z.of_nat (length data), data) else
  if t_disabled t then ret (0, data) else
  let! r := if truthy (Z.land flags QEMU_NET_PACKET_FLAG_RAW) then tap_receive_raw data else tap_receive data in
  (if fst r =? 0 then on_tap (tap_set_disabled true) else ret tt) ;;
  ret r.

Definition tap_deliver_iov (iov : list iovec) : Q (Z * list iovec) :=
  let! t := gets q_tap in
  if t_link_down t then ret (Z.of_nat (sum_list_with iov_len iov), iov) else
  tap_receive_iov iov.

(** [qemu_deliver_packet] to the card *)
Definition card_deliver (flags : Z) (data : bytes) : Q (Z * bytes) :=
  let! c := gets q_card in
  if c_link_down c then ret (Z.of_nat (length data), data) else
  if c_disabled c then ret (0, data) else
  match c_takes c with
  | false :: l => on_card (card_set_got (c_got c) l) ;; on_card (card_set_disabled true) ;; ret (0, data)
  | l => on_card (card_set_got (c_got c ++ [data]) (tail l)) ;; ret (Z.of_nat (length data), data)
  end.

(** [tap_send_completed] *)
Definition tap_send_completed (len : Z) : Q unit := tap_read_poll true.

(** The card's own callback *)
Definition card_send_completed (len : Z) : Q unit := on_card (fun c => card_set_sent (S (c_sent c)) c).

Definition set_tq (q : NetQueue) (s : qemu) : qemu := set_tap (tap_set_queue q (q_tap s)) s.
Definition set_cq (q : NetQueue) (s : qemu) : qemu := set_card (card_set_queue q (q_card s)) s.
Definition tq (s : qemu) : NetQueue := t_queue (q_tap s).
Definition cq (s : qemu) : NetQueue := c_queue (q_card s).
Definition tap_flush : Q unit := qemu_net_queue_flush tq set_tq tap_deliver card_send_completed.
Definition card_deliver_iov (iov : list iovec) : Q (Z * list iovec) :=
  let! r := card_deliver QEMU_NET_PACKET_FLAG_NONE (iov ≫= iov_data) in ret (fst r, iov).

(** [qemu_send_packet_async] and [qemu_sendv_packet_async] from the card, and from the tap *)
Definition card_send_packet_async (data : bytes) (cb : bool) : Q (Z * bytes) :=
  let! c := gets q_card in
  if c_link_down c then ret (Z.of_nat (length data), data) else
  qemu_net_queue_send tq set_tq tap_deliver card_send_completed QEMU_NET_PACKET_FLAG_NONE data cb.

Definition card_sendv_packet_async (iov : list iovec) (cb : bool) : Q (Z * list iovec) :=
  let! c := gets q_card in
  if c_link_down c then ret (Z.of_nat (sum_list_with iov_len iov), iov) else
  qemu_net_queue_send_iov tq set_tq tap_deliver tap_deliver_iov card_send_completed QEMU_NET_PACKET_FLAG_NONE iov cb.

Definition tap_send_packet_async (data : bytes) : Q Z :=
  let! t := gets q_tap in
  if t_link_down t then ret (Z.of_nat (length data)) else
  let! r := qemu_net_queue_send cq set_cq card_deliver tap_send_completed QEMU_NET_PACKET_FLAG_NONE data true in
  ret (fst r).

(** [qemu_can_send_packet] from the tap *)
Definition tap_can_send : Q bool :=
  let! c := gets q_card in
  if c_disabled c then ret false else
  on_card (card_set_can (tail (c_can c))) ;;
  ret (if c_can c is false :: _ then false else true).

(** [tap_writable] *)
Definition tap_writable : Q unit :=
  tap_write_poll false ;;
  on_tap (tap_set_disabled false) ;;
  tap_flush.

(** The loop of [tap_send]: every pass takes a packet from the device. *)
Fixpoint tap_send_loop (waiting : list bytes) : Q unit :=
  match waiting with
  | [] => ret tt
  | f :: waiting =>
      let d := take (Z.to_nat TAP_BUFSIZE) f in
      let size := Z.of_nat (length d) in
      on_tap (fun t => tap_set_buf (splice 0 d (t_buf t)) (tap_set_device waiting (t_out t) (t_answers t) t)) ;;
      if size <=? 0 then ret tt else
      let packet_start_pos := 10 in
      let! t := gets q_tap in
      let! r := priv_crypt_packet (u64 (size - packet_start_pos)) (drop (Z.to_nat packet_start_pos) (t_buf t)) true in
      on_tap (fun t => tap_set_buf (take (Z.to_nat packet_start_pos) (t_buf t) ++ snd r) t) ;;
      let! more :=
        if fst r <? 0 then ret true else
        let! t := gets q_tap in
        let skip := if negb (host_vnet_hdr_len t =? 0)%nat && negb (using_vnet_hdr t) then host_vnet_hdr_len t else 0%nat in
        if size - skip <? 0 then oops OutOfBounds else
        let! size := tap_send_packet_async (slice skip (Z.to_nat size - skip) (t_buf t)) in
        (if size =? 0 then tap_read_poll false else ret tt) ;;
        ret (0 <? size) in
      if negb more then ret tt else
      let! go := tap_can_send in
      if go then tap_send_loop waiting else ret tt
  end.

Definition tap_send : Q unit := let! t := gets q_tap in tap_send_loop (t_in t).
End Tap.

(** ** net.c: a private card *)

Definition MAX_NICS : nat := 8.

Section Init.
(** The library's key exchange, the kernel's, and uninitialised memory *)
Context (P : polarssl) (ops : option (@dhm_kex_ops ctr_aes)) (pid : Z) (junk_u : aesni_state) (junk junk_iv : bytes).

(** [priv_easy_create] (priv-util.c): the status and [*cctx_store] *)
Definition priv_easy_create (dir_in : bool) : M lstate (Z * option priv_cctx) :=
  let! r := priv_create_cctx junk_u junk_iv PRIV_CRYPT_ALG_AES_CTR 16 in
  match r with
  | (rc, None) => ret (rc, None)
  | (_, Some cctx) =>
      let '(rc, cctx) := if dir_in then (0, cctx) else priv_set_option cctx PRIV_OPTION_DIR_DEC in
      if rc <? 0 then priv_destroy_cctx ops pid cctx ;; ret (rc, None) else
      let! r := priv_new_backend P ops pid junk junk_iv cctx in
      if fst r <? 0 then priv_destroy_cctx ops pid (snd r) ;; ret (fst r, None) else
      ret (0, Some (snd r))
  end.

(** A context of [ni] that is not there is a NULL pointer. *)
Definition the {A} (o : option A) : Q A := match o with Some a => ret a | None => oops NullDeref end.
Definition ni_cctx (i : nat) (dir_in : bool) : Q priv_cctx :=
  let! s := get in the (n ← nd_table s !! i; nic_cctx dir_in n).
Definition ni_mac (i : nat) : Q bytes := let! s := get in the (macaddr <$> nd_table s !! i).

(** What [priv_nic_register] writes *)
Definition nic_text (mac : bytes) (id_in id_out : Z) : bytes :=
  (mac ≫= fun b => sprintf_02X b ++ [58]) ++ sprintf_X id_in ++ 44 :: sprintf_X id_out.

(** [priv_nic_register]: the file is a write to the kernel's module. *)
Definition priv_nic_register (i : nat) : Q Z :=
  let! m := gets q_mod in
  if negb (nm_loaded m) then ret (-1) else
  let! ci := ni_cctx i true in
  let! r := in_lib (priv_get_id ci (Some 0)) in
  match r with
  | (rc, Some id_in) =>
      if rc <? 0 then ret (-1) else
      let! co := ni_cctx i false in
      let! r := in_lib (priv_get_id co (Some 0)) in
      match r with
      | (rc, Some id_out) =>
          if rc <? 0 then ret (-1) else
          let! mac := ni_mac i in
          let sysfs_wbuf := nic_text mac id_in id_out in
          let! n := in_kernel (privnet_store attr_add_mac sysfs_wbuf) in
          ret (if n =? length sysfs_wbuf then 0 else -1)
      | _ => ret (-1)
      end
  | _ => ret (-1)
  end.

(** [priv_nic_init] *)
Definition priv_nic_init (i : nat) : Q Z :=
  let drop_one (dir_in : bool) : Q unit :=
    let! c := ni_cctx i dir_in in
    in_lib (priv_destroy_cctx ops pid c) ;;
    store_cctx i dir_in None in
  let! r := in_lib (priv_easy_create true) in
  if fst r <? 0 then ret (fst r) else
  store_cctx i true (snd r) ;;
  let! r := in_lib (priv_easy_create false) in
  if fst r <? 0 then drop_one true ;; ret (fst r) else
  store_cctx i false (snd r) ;;
  let! rc := priv_nic_register i in
  if rc <? 0 then drop_one false ;; drop_one true ;; ret rc else
  let! ci := ni_cctx i true in
  let! rc := in_lib (priv_activate ops pid ci) in
  if rc <? 0 then drop_one false ;; drop_one true ;; ret rc else
  let! co := ni_cctx i false in
  let! rc := in_lib (priv_activate ops pid co) in
  if rc <? 0 then drop_one false ;; drop_one true ;; ret rc else
  ret 0.

(** [nic_get_free_idx] *)
Fixpoint nic_get_free_idx (i : nat) (l : list NICInfo) : option nat :=
  match l with
  | [] => None
  | n :: l => if used n then nic_get_free_idx (S i) l else Some i
  end.

(** [qemu_macaddr_default_if_unset] *)
Definition qemu_macaddr_default_if_unset (mac : bytes) : Q bytes :=
  if bool_decide (mac = zeros 6) then
    let! i := gets mac_index in
    modify (set_index (s32 (i + 1))) ;;
    ret [0x52; 0x54; 0x00; 0x12; 0x34; u8 (0x56 + i)]
  else ret mac.

(** The options of a card that [net_init_nic] looks at: the address as [net_parse_macaddr] read
    it, if one is given *)
Record nic_opts := NicOpts { o_netdev : bool; o_macaddr : option (option bytes); o_vectors : option Z; o_encrypt : bool }.

Definition set_nic (i : nat) (n : NICInfo) : Q unit := modify (fun s => set_nics (<[i := n]> (nd_table s)) s).

(** [net_init_nic]; [o_netdev] is whether the named back end was found. *)
Definition net_init_nic (opts : nic_opts) : Q Z :=
  let! s := get in
  match nic_get_free_idx 0 (nd_table s) with
  | None => ret (-1)
  | Some idx =>
      if (MAX_NICS <=? nb_nics s)%nat then ret (-1) else
      set_nic idx (Nic (zeros 6) false None None) ;;
      if negb (o_netdev opts) then ret (-1) else
      match default (Some (zeros 6)) (o_macaddr opts) with
      | None => ret (-1)
      | Some mac =>
          let! mac := qemu_macaddr_default_if_unset mac in
          set_nic idx (Nic mac false None None) ;;
          if (if o_vectors opts is Some v then (v <? 0) || (0x7ffffff <? v) else false) then ret (-1) else
          let! rc := if o_encrypt opts then priv_nic_init idx else ret 0 in
          if rc <? 0 then ret (-1) else
          modify (fun s => set_nics (alter (fun n => Nic (macaddr n) true (nd_cctx_in n) (nd_cctx_out n)) idx (nd_table s)) s) ;;
          modify (fun s => set_nb_nics (S (nb_nics s)) s) ;;
          ret (Z.of_nat idx)
      end
  end.
End Init.
End Qemu.
