(* ===== verification/NetPath.v ===== *)
(** * The private network from the wire to the guest

    The network driver of the host (linux-3.0/drivers/net/e1000e_priv/netdev.c) encrypts what it
    receives for a private address and decrypts what it sends for one; in between the frames
    cross the host and the tap device, encrypted, to and from QEMU ([QemuNet]). *)

From S2P Require Import Prelude Text BlkCipher Ctr AesCipher PrivCrypt Kex Driver PrivNet LibPriv Session QemuNet.

(** ** The driver *)

Definition ETH_HLEN : nat := 14.

Section Driver.
Context {B : BlkCipher}.

(** [idptr] of the tree, which the hooks use as a [struct mac_crypt_refs *] *)
Definition find_refs (addr : bytes) : M nstate (option mac_crypt_refs) :=
  if (length addr <? 6)%nat then oops OutOfBounds else
  let! o := privnet_find_mac (take 6 addr) in
  match o with
  | None => ret None
  | Some (MLeaf n) => ret (Some n)
  | Some (MNode _) => oops WildPtr
  end.

(** Change the last byte of the header of [skb] by [d], and pass what follows through [crypt]. *)
Definition crypt_frame (d : Z) (crypt : bytes -> M kstate bytes) (skb : bytes) : M nstate bytes :=
  match skb !! (ETH_HLEN - 1)%nat with
  | None => oops OutOfBounds
  | Some ch =>
      let! data := nkern (crypt (drop ETH_HLEN skb)) in
      ret (<[(ETH_HLEN - 1)%nat := u8 (ch + d)]> (take ETH_HLEN skb) ++ data)
  end.

(** [e1000_receive_skb] up to the call of the network stack: the frame passed up *)
Definition e1000_receive_skb (skb : bytes) : M nstate bytes :=
  let! idptr := find_refs skb in
  match idptr with
  | None => ret skb
  | Some n => crypt_frame 1 (fun d => privnet_encrypt d n) skb
  end.

(** What [e1000_tx_queue] does to the frame of a descriptor *)
Definition tx_decrypt (skb : bytes) : M nstate bytes :=
  let! idptr := find_refs (drop 6 skb) in
  match idptr with
  | None => ret skb
  | Some n => crypt_frame (-1) (fun d => privnet_decrypt d n) skb
  end.

(** [struct e1000_ring]: the frame each slot has ([buffer_info->skb]) *)
Record tx_ring := Ring { buffer_info : list (option bytes); next_to_use : nat }.

(** The loop of [e1000_tx_queue] over [count] descriptors from slot [i] on, and the slot after
    them *)
Fixpoint tx_loop (count i : nat) (slots : list (option bytes)) : M nstate (nat * list (option bytes)) :=
  let! slots :=
    match slots !! i with
    | Some (Some skb) => let! skb := tx_decrypt skb in ret (<[i := Some skb]> slots)
    | Some None => ret slots
    | None => oops OutOfBounds
    end in
  let i := if (S i =? length slots)%nat then 0%nat else S i in
  match count with
  | O | S O => ret (i, slots)
  | S count => tx_loop count i slots
  end.

Definition e1000_tx_queue (count : nat) (ring : tx_ring) : M nstate tx_ring :=
  let! r := tx_loop count (next_to_use ring) (buffer_info ring) in
  ret (Ring (snd r) (fst r)).

(** [erase_vm_frame]: the memory of the frame before it is freed *)
Definition erase_vm_frame (skb : option bytes) : M nstate (option bytes) :=
  match skb with
  | None => ret None
  | Some skb =>
      let! idptr := find_refs (drop 6 skb) in
      match idptr with
      | None => ret (Some skb)
      | Some _ => ret (Some (zeros (length skb)))
      end
  end.

(** [e1000_put_txbuf] of a slot: its frame is erased and freed; what the freed memory holds *)
Definition e1000_put_txbuf (i : nat) (ring : tx_ring) : M nstate (option bytes * tx_ring) :=
  match buffer_info ring !! i with
  | None => oops OutOfBounds
  | Some skb =>
      let! mem := erase_vm_frame skb in
      ret (mem, Ring (<[i := None]> (buffer_info ring)) (next_to_use ring))
  end.
End Driver.

(** ** The path *)

Section Path.
Context `{BC : BlockCipher} (last : bytes).

(** QEMU and the kernel, and the frames that left the machine *)
Record world := World { w_q : qemu; w_wire : list bytes }.
Definition set_wq (q : qemu) (w : world) : world := World q (w_wire w).
Definition set_wire (l : list bytes) (w : world) : world := World (w_q w) l.
Definition on_q {A} (m : M qemu A) : M world A := zoom w_q set_wq m.

(** What happens: the driver receives a frame, and the host's bridge puts it into the tap device
    behind a header; QEMU reads the device; the card has buffers again; the card sends a
    frame, or a header and a frame in two pieces; the bridge takes a packet from the tap
    device, and the driver sends it. *)
Inductive nop := WireIn (hdr f : bytes) | TapReady | CardReady | GuestSend (f : bytes) | GuestSendv (hdr f : bytes) | Xmit.

(** [qemu_flush_queued_packets] of the card *)
Definition card_ready : M qemu unit :=
  on_card (card_set_disabled false) ;;
  qemu_net_queue_flush cq set_cq card_deliver tap_send_completed.

Definition nstep (o : nop) : M world unit :=
  match o with
  | WireIn hdr f =>
      let! skb := on_q (in_kernel (e1000_receive_skb f)) in
      on_q (on_tap (fun t => tap_set_device (t_in t ++ [hdr ++ skb]) (t_out t) (t_answers t) t))
  | TapReady => on_q (tap_send last)
  | CardReady => on_q card_ready
  | GuestSend f => on_q (card_send_packet_async last f true) ;; ret tt
  | GuestSendv hdr f => on_q (card_sendv_packet_async last [Iov hdr 10; Iov f (length f)] true) ;; ret tt
  | Xmit =>
      let! t := on_q (gets q_tap) in
      match t_out t with
      | [] => ret tt
      | p :: l =>
          on_q (on_tap (fun t => tap_set_device (t_in t) l (t_answers t) t)) ;;
          let! skb := on_q (in_kernel (tx_decrypt (drop (host_vnet_hdr_len t) p))) in
          modify (fun w => set_wire (w_wire w ++ [skb]) w)
      end
  end.

Fixpoint nrun (os : list nop) : M world unit :=
  match os with [] => ret tt | o :: os => nstep o ;; nrun os end.
End Path.

(** ** Positions in the key streams *)

Section Positions.
Context `{BC : BlockCipher}.

(** The state of the cipher for each private address *)
Abbreviation pos := (bytes -> option ctr_tfm).

Definition frame_mac (dir_in : bool) (f : bytes) : bytes := if dir_in then take 6 f else take 6 (drop 6 f).

(** A frame under a cipher state, its type changed by [d] *)
Definition mask (d : Z) (t : ctr_tfm) (f : bytes) : bytes :=
  <[13%nat := u8 (Prelude.at_ f 13 + d)]> (take 14 f) ++ stream_xor (B := ctr_aes) t (drop 14 f).

Definition frame_ok (f : bytes) : Prop := (14 <= length f)%nat /\ bytes_ok f.

Lemma length_mask d t f : (14 <= length f)%nat -> length (mask d t f) = length f.
Proof. intros H. unfold mask. rewrite length_app, length_insert, length_take, length_stream_xor, length_drop. lia. Qed.

Lemma take_mask d t f n : (14 <= length f)%nat -> (n <= 13)%nat -> take n (mask d t f) = take n f.
Proof.
  intros H Hn. unfold mask. rewrite take_app_le by (rewrite length_insert, length_take; lia).
  rewrite take_insert_ge by lia. rewrite take_take. f_equal. lia.
Qed.

Lemma frame_mac_mask dir d t f : (14 <= length f)%nat -> frame_mac dir (mask d t f) = frame_mac dir f.
Proof.
  intros H. unfold frame_mac. destruct dir; [by apply take_mask; [|lia]|].
  rewrite !(firstn_skipn_comm 6 6). by rewrite take_mask by (lia || done).
Qed.

Lemma mask_unmask d t f : frame_ok f -> mask (- d) t (mask d t f) = f.
Proof.
  intros [Hl Hb]. set (g := mask d t f). assert (Hg : length g = length f) by by apply length_mask.
  assert (Hd : drop 14 g = stream_xor (B := ctr_aes) t (drop 14 f)).
  { unfold g, mask. by rewrite drop_app_length' by (rewrite length_insert, length_take; lia). }
  assert (Ht : take 14 g = <[13%nat := u8 (Prelude.at_ f 13 + d)]> (take 14 f)).
  { unfold g, mask. by rewrite take_app_length' by (rewrite length_insert, length_take; lia). }
  assert (Ha : Prelude.at_ g 13 = u8 (Prelude.at_ f 13 + d)).
  { unfold Prelude.at_. rewrite <- (lookup_take_lt g 14 13) by lia. rewrite Ht, list_lookup_insert_eq by (rewrite length_take; lia). done. }
  unfold mask at 1. rewrite Ha, Hd, Ht, list_insert_insert_eq, stream_xor_involutive.
  destruct (lookup_lt_is_Some_2 f 13) as [x Hx]; [lia|]. pose proof (Forall_lookup_1 _ _ _ _ Hb Hx) as Hx'.
  assert (E : u8 (u8 (Prelude.at_ f 13 + d) + - d) = x).
  { rewrite (at_lookup _ _ _ Hx). unfold u8. rewrite Zplus_mod_idemp_l. replace (x + d + - d) with x by lia. by apply u8_small. }
  rewrite E. rewrite list_insert_id; [apply take_drop|]. by rewrite lookup_take_lt by lia.
Qed.

Definition enc (dir_in : bool) (P : pos) (f : bytes) : bytes :=
  match P (frame_mac dir_in f) with Some t => mask 1 t f | None => f end.

Definition advance (dir_in : bool) (P : pos) (f : bytes) : pos := fun mac =>
  if bool_decide (mac = frame_mac dir_in f) then (fun t => next (B := ctr_aes) t (length f - 14)) <$> P mac else P mac.

(** Frames encrypted one after the other, and where the streams are afterwards *)
Fixpoint encs (dir_in : bool) (P : pos) (fs : list bytes) : list bytes :=
  match fs with [] => [] | f :: fs => enc dir_in P f :: encs dir_in (advance dir_in P f) fs end.
Definition advances (dir_in : bool) (P : pos) (fs : list bytes) : pos := foldl (advance dir_in) P fs.

Definition pos_eq (P R : pos) : Prop := forall mac, P mac = R mac.

Lemma enc_ext dir P R f : pos_eq P R -> enc dir P f = enc dir R f.
Proof. intros H. unfold enc. by rewrite H. Qed.

Lemma advance_ext dir P R f : pos_eq P R -> pos_eq (advance dir P f) (advance dir R f).
Proof. intros H mac. unfold advance. by rewrite H. Qed.

Lemma encs_ext dir P R fs : pos_eq P R -> encs dir P fs = encs dir R fs.
Proof.
  revert P R. induction fs as [|f fs IH]; intros P R H; [done|]. cbn [encs]. rewrite (enc_ext _ P R) by done. f_equal.
  apply IH. by apply advance_ext.
Qed.

Lemma advances_ext dir P R fs : pos_eq P R -> pos_eq (advances dir P fs) (advances dir R fs).
Proof. revert P R. induction fs as [|f fs IH]; intros P R H; [done|]. apply IH. by apply advance_ext. Qed.

Lemma encs_snoc dir P fs f : encs dir P (fs ++ [f]) = encs dir P fs ++ [enc dir (advances dir P fs) f].
Proof. revert P. induction fs as [|g fs IH]; intros P; [done|]. cbn. by rewrite IH. Qed.

Lemma advances_snoc dir P fs f : advances dir P (fs ++ [f]) = advance dir (advances dir P fs) f.
Proof. unfold advances. by rewrite foldl_app. Qed.
End Positions.

(** ** The cards and the kernel's entries *)

Section Wf.
Context `{BC : BlockCipher}.
Abbreviation pos := (bytes -> option ctr_tfm).

(** The cards that [get_nic_with_mac] looks at, and the one with an address *)
Definition nics (s : qemu) : list NICInfo := take (nb_nics s) (nd_table s).
Definition nic_at (mac : bytes) (s : qemu) : option (nat * NICInfo) := list_find (fun n => macaddr n = mac) (nics s).
Definition kst (s : qemu) : kstate := l_k (q_lib s).

Definition ref_of (dir_in : bool) (e : mac_crypt_refs) : nat := if dir_in then mr_in_ref e else mr_out_ref e.

(** Where QEMU's cipher for an address is, and where the kernel's is *)
Definition upos (dir_in : bool) (s : qemu) : pos := fun mac =>
  n ← nic_at mac s; c ← nic_cctx dir_in (snd n); u ← pc_user c; Some (CtrTfm (as_key u) (as_iv u)).
Definition kpos (dir_in : bool) (s : qemu) : pos := fun mac =>
  n ← nic_at mac s; e ← entry (ns s) mac; p ← mjoin (k_refs (kst s) !! ref_of dir_in e); x ← k_ctxs (kst s) !! p; (cc_cipher x : option ctr_tfm).

(** One direction of a private card: a context of the library, and an active one in the kernel
    behind the entry of the card's address *)
Definition chan (dir_in : bool) (s : qemu) (mac : bytes) (c : priv_cctx) : Prop :=
  exists e p x t u, entry (ns s) mac = Some e /\ k_refs (kst s) !! ref_of dir_in e = Some (Some p) /\
    k_ctxs (kst s) !! p = Some x /\ cc_activated x <> 0 /\ cc_cipher x = Some t /\ pc_user c = Some u /\ iv_ok (as_iv u).

Record net_wf (s : qemu) : Prop := {
  nw_inv : ninv (ns s);
  nw_mac : forall n, n ∈ nics s -> mac_ok (macaddr n) /\ macaddr n <> zeros 6;
  nw_uniq : NoDup (macaddr <$> nics s);
  nw_priv : forall n, n ∈ nics s ->
    nd_cctx_in n = None /\ nd_cctx_out n = None /\ entry (ns s) (macaddr n) = None \/
    forall dir, exists c, nic_cctx dir n = Some c /\ chan dir s (macaddr n) c;
}.

(** An address is one of QEMU's cards, or nobody's. *)
Definition mine (s : qemu) (mac : bytes) : Prop := is_Some (entry (ns s) mac) -> exists n, n ∈ nics s /\ macaddr n = mac.

Lemma nic_at_elem s n : net_wf s -> n ∈ nics s -> exists i, nic_at (macaddr n) s = Some (i, n).
Proof.
  intros H Hn. unfold nic_at. destruct (list_find_elem_of (fun m => macaddr m = macaddr n) (nics s) n) as [[i m] E]; [done..|].
  exists i. rewrite E. apply list_find_Some in E as (Ei & Em & _). apply list_elem_of_lookup in Hn as [j Ej].
  assert (i = j) as ->; [|congruence].
  apply (NoDup_lookup _ _ _ (macaddr n) (nw_uniq _ H)); rewrite list_lookup_fmap; [by rewrite Ei; cbn; f_equal|by rewrite Ej].
Qed.

Lemma nic_at_inv s mac i n : nic_at mac s = Some (i, n) -> nics s !! i = Some n /\ macaddr n = mac.
Proof. intros (A & B & _)%list_find_Some. done. Qed.

Lemma set_ns_id s : set_ns (ns s) s = s.
Proof. by destruct s as [[] []]. Qed.

(** A private address: both positions are known. *)
Lemma chan_kpos dir s n i c : nic_at (macaddr n) s = Some (i, n) -> chan dir s (macaddr n) c -> nic_cctx dir n = Some c ->
  exists e p x t u, entry (ns s) (macaddr n) = Some e /\ k_refs (kst s) !! ref_of dir e = Some (Some p) /\ k_ctxs (kst s) !! p = Some x /\
    cc_activated x <> 0 /\ cc_cipher x = Some t /\ kpos dir s (macaddr n) = Some t /\
    pc_user c = Some u /\ iv_ok (as_iv u) /\ upos dir s (macaddr n) = Some (CtrTfm (as_key u) (as_iv u)).
Proof.
  intros Hn (e & p & x & t & u & He & Hr & Hx & Ha & Ht & Hu & Hi) Hc. exists e, p, x, t, u. split_and!; try done.
  - unfold kpos. rewrite Hn. cbn. rewrite He. cbn. rewrite Hr. cbn. rewrite Hx. done.
  - unfold upos. rewrite Hn. cbn. rewrite Hc. cbn. by rewrite Hu.
Qed.

(** The kernel's part of the state with one context replaced *)
Definition kput (p : nat) (x : priv_crypt_ctx) (s : qemu) : qemu := set_ns (set_nk (put p x (kst s)) (ns s)) s.

Lemma kput_kst p x s : kst (kput p x s) = put p x (kst s).
Proof. done. Qed.
Lemma kput_entry p x s mac : entry (ns (kput p x s)) mac = entry (ns s) mac.
Proof. done. Qed.

(** What a frame through the kernel leaves as it was *)
Record kmoved (dir_in : bool) (f : bytes) (s s' : qemu) : Prop := {
  km_wf : net_wf s';
  km_nics : nd_table s' = nd_table s /\ nb_nics s' = nb_nics s;
  km_tap : q_tap s' = q_tap s;
  km_card : q_card s' = q_card s;
  km_entry : forall mac, entry (ns s') mac = entry (ns s) mac;
  km_pos : pos_eq (kpos dir_in s') (advance dir_in (kpos dir_in s) f);
  km_other : pos_eq (kpos (negb dir_in) s') (kpos (negb dir_in) s);
}.

Lemma kput_moved dir f s n e p x t pg :
  net_wf s -> n ∈ nics s -> macaddr n = frame_mac dir f -> entry (ns s) (macaddr n) = Some e ->
  k_refs (kst s) !! ref_of dir e = Some (Some p) -> k_ctxs (kst s) !! p = Some x -> cc_activated x <> 0 -> cc_cipher x = Some t ->
  let x' := upd_pg (Some pg) (upd_cipher (Some (next (B := ctr_aes) t (length f - 14))) x) in
  ctx_ok x' -> kmoved dir f s (kput p x' s).
Proof.
  intros H Hn Hm He Hr Hx Ha Ht x' Hok. set (s' := kput p x' s).
  assert (Hsep : forall dir' e' mac' p', mac_ok mac' -> entry (ns s) mac' = Some e' -> k_refs (kst s) !! ref_of dir' e' = Some (Some p') -> (mac', dir') <> (macaddr n, dir) -> p' <> p).
  { intros dir' e' mac' p' Hok' He' Hr' Hne. eapply (ref_sep (kst s)); [apply H|done|done|].
    destruct (decide (mac' = macaddr n)) as [-> |Hmm].
    - rewrite He in He'. injection He' as <-. destruct (ni_refs _ (nw_inv _ H) _ _ Hok' He) as (_ & _ & Hd). destruct dir, dir'; cbn; congruence.
    - pose proof (ni_sep _ (nw_inv _ H) mac' (macaddr n) e' e Hok' (proj1 (nw_mac _ H _ Hn)) Hmm He' He) as Hs.
      destruct (Hs (ref_of dir' e')) as [H1 H2]; [destruct dir'; auto|]. destruct dir; done. }
  assert (Hc' : forall q y, k_ctxs (kst s) !! q = Some y -> exists y', k_ctxs (kst s') !! q = Some y' /\ cc_activated y' = cc_activated y /\ (q <> p -> y' = y) /\ is_Some (cc_cipher y')).
  { intros q y Hy. cbn. destruct (decide (q = p)) as [-> |Hq].
    - rewrite lookup_insert_eq. rewrite Hx in Hy. injection Hy as <-. eexists. split; [done|]. split; [done|]. split; [done|]. by eexists.
    - rewrite lookup_insert_ne by done. exists y. split; [done|]. split; [done|]. split; [done|].
      destruct (co_cipher _ (ki_ok _ (ni_k _ (nw_inv _ H)) _ _ Hy)) as (t' & Ht' & _). rewrite Ht'. eauto. }
  split; try done.
  - split.
    + pose proof (nw_inv _ H) as []. split; try done. by eapply (kinv_put p x).
    + apply H.
    + apply H.
    + intros m Hm'. destruct (nw_priv _ H m Hm') as [Hp|Hp]; [by left|right]. intros dir'. destruct (Hp dir') as (c & Hc & e' & p' & y & t' & u & E1 & E2 & E3 & E4 & E5 & E6).
      exists c. split; [done|]. destruct (Hc' _ _ E3) as (y' & Y1 & Y2 & Y3 & t'' & Y4). exists e', p', y', t'', u. split_and!; try done; try apply E6. congruence.
  - intros mac. unfold advance, kpos. change (nic_at mac s') with (nic_at mac s). change (entry (ns s') mac) with (entry (ns s) mac).
    change (k_refs (kst s')) with (k_refs (kst s)). destruct (nic_at mac s) as [[i m]|] eqn:Em; [|by case_bool_decide].
    apply nic_at_inv in Em as [Ei Emac]. assert (Hin : m ∈ nics s) by by eapply list_elem_of_lookup_2.
    assert (Hmac : mac_ok mac) by (rewrite <- Emac; apply (nw_mac _ H _ Hin)). cbn [mbind option_bind].
    destruct (entry (ns s) mac) as [e'|] eqn:Ee; cbn; [|by case_bool_decide]. destruct (k_refs (kst s) !! ref_of dir e') as [[p'|]|] eqn:Er; cbn; [|by case_bool_decide..].
    case_bool_decide as E.
    + assert (mac = macaddr n) as Emn by congruence. subst mac. rewrite Emn in Ee. rewrite Ee in He. injection He as ->. rewrite Er in Hr. injection Hr as ->.
      rewrite lookup_insert_eq, Hx. cbn. by rewrite Ht.
    + rewrite lookup_insert_ne; [done|]. intros <-. apply (Hsep dir e' mac p Hmac Ee Er); [|done]. intros E0. apply (f_equal fst) in E0. cbn in E0. congruence.
  - intros mac. unfold kpos. change (nic_at mac s') with (nic_at mac s). change (entry (ns s') mac) with (entry (ns s) mac).
    change (k_refs (kst s')) with (k_refs (kst s)). destruct (nic_at mac s) as [[i m]|] eqn:Em; [|done].
    apply nic_at_inv in Em as [Ei Emac]. assert (Hin : m ∈ nics s) by by eapply list_elem_of_lookup_2.
    assert (Hmac : mac_ok mac) by (rewrite <- Emac; apply (nw_mac _ H _ Hin)). cbn [mbind option_bind].
    destruct (entry (ns s) mac) as [e'|] eqn:Ee; cbn; [|done]. destruct (k_refs (kst s) !! ref_of (negb dir) e') as [[p'|]|] eqn:Er; cbn; [|done..].
    rewrite lookup_insert_ne; [done|]. intros <-. apply (Hsep (negb dir) e' mac p Hmac Ee Er); [|done]. intros E0. apply (f_equal snd) in E0. by destruct dir.
Qed.

(** The two hooks of the driver are one function. *)
Definition hook (dir_in : bool) (d : Z) (f : bytes) : M nstate bytes :=
  let! idptr := find_refs (if dir_in then f else drop 6 f) in
  match idptr with
  | None => ret f
  | Some n => crypt_frame d (fun x => __privnet_crypt x (ref_of dir_in n)) f
  end.

Lemma frame_mac_ok dir f : frame_ok f -> mac_ok (frame_mac dir f).
Proof.
  intros [Hl Hb]. unfold frame_mac, mac_ok. destruct dir; rewrite ?length_take, ?length_drop; (split; [lia|]).
  - by apply Forall_take.
  - by apply Forall_take, Forall_drop.
Qed.

Lemma advance_none dir (P : pos) f : P (frame_mac dir f) = None -> pos_eq P (advance dir P f).
Proof. intros H mac. unfold advance. case_bool_decide as E; [|done]. by rewrite E, H. Qed.

Lemma find_refs_run addr mac s : ninv s -> mac_ok mac -> (6 <= length addr)%nat -> take 6 addr = mac -> find_refs addr s = Done (entry s mac, s).
Proof.
  intros H Hm Hl Ha. unfold find_refs. replace (length addr <? 6)%nat with false by (symmetry; apply Nat.ltb_ge; lia).
  rewrite Ha. unfold privnet_find_mac, bind, gets, ret. rewrite (entry_find s mac H Hm). by destruct (entry s mac).
Qed.

Lemma hook_run dir d f s : net_wf s -> (14 <= length f)%nat -> mac_ok (frame_mac dir f) -> mine s (frame_mac dir f) ->
  exists s', in_kernel (hook dir d f) s = Done (match kpos dir s (frame_mac dir f) with Some t => mask d t f | None => f end, s') /\
    kmoved dir f s s'.
Proof.
  intros H Hl Hm Hmine. set (mac := frame_mac dir f) in *.
  assert (E : find_refs (if dir then f else drop 6 f) (ns s) = Done (entry (ns s) mac, ns s)).
  { apply find_refs_run; [apply H|done|destruct dir; rewrite ?length_drop; lia|by destruct dir]. }
  unfold in_kernel, zoom, hook. rewrite (bind_done _ _ _ _ _ E). destruct (entry (ns s) mac) as [e|] eqn:Ee.
  - destruct (Hmine ltac:(eauto)) as (n & Hn & Emac). destruct (nw_priv _ H n Hn) as [(_ & _ & Hno)|Hp]; [congruence|].
    destruct (Hp dir) as (c & Hc & Hch). destruct (nic_at_elem s n H Hn) as [i Hi].
    destruct (chan_kpos dir s n i c Hi Hch Hc) as (e' & p & x & t & u & He & Hr & Hx & Ha & Ht & Hk & _).
    rewrite Emac in He, Hk. rewrite Ee in He. injection He as <-. rewrite Hk.
    pose proof (ki_ok _ (ni_k _ (nw_inv _ H)) _ _ Hx) as Hok.
    destruct (priv_crypt_run p x t (drop 14 f) (kst s) Hx Hok Ht Ha) as (pg & _ & _ & Hok' & Hrun). rewrite length_drop in Hok', Hrun.
    destruct (lookup_lt_is_Some_2 f 13) as [ch Hch13]; [lia|]. unfold crypt_frame. change (ETH_HLEN - 1)%nat with 13%nat. change ETH_HLEN with 14%nat. rewrite Hch13.
    assert (Ec : nkern (__privnet_crypt (drop 14 f) (ref_of dir e)) (ns s)
      = Done (stream_xor (B := ctr_aes) t (drop 14 f), set_nk (put p (upd_pg (Some pg) (upd_cipher (Some (next t (length f - 14))) x)) (kst s)) (ns s))).
    { apply nkern_run. unfold __privnet_crypt, bind at 1, load_ref. change (n_k (ns s)) with (kst s). rewrite Hr. by rewrite (bind_done _ _ _ _ _ Hrun). }
    rewrite (bind_done _ _ _ _ _ Ec). unfold ret. eexists. split.
    { unfold mask. by rewrite (at_lookup _ _ _ Hch13). }
    apply (kput_moved dir f s n e p x t pg); try done; by rewrite Emac.
  - assert (Hk : kpos dir s mac = None) by (unfold kpos; rewrite Ee; by destruct (nic_at mac s)). rewrite Hk.
    eexists. split; [unfold ret; by rewrite set_ns_id|]. split; try done. by apply advance_none.
Qed.
End Wf.

(** ** A packet through QEMU's cipher *)

Lemma list_find_alter {A} (P : A -> Prop) `{!forall x, Decision (P x)} g i l : (forall x, P (g x) <-> P x) ->
  list_find P (alter g i l) = (fun r => (fst r, if bool_decide (fst r = i) then g (snd r) else snd r)) <$> list_find P l.
Proof.
  intros Hg. revert i. induction l as [|x l IH]; intros i; [done|]. destruct i as [|i].
  - change (alter g 0%nat (x :: l)) with (g x :: l). cbn [list_find]. destruct (decide (P x)) as [Hx|Hx].
    + rewrite decide_True by by apply Hg. done.
    + rewrite decide_False by by rewrite Hg. rewrite <- option_fmap_compose. apply option_fmap_ext. by intros [j y].
  - change (alter g (S i) (x :: l)) with (x :: alter g i l). cbn [list_find]. destruct (decide (P x)) as [Hx|Hx]; [done|].
    rewrite IH, <- !option_fmap_compose. apply option_fmap_ext. intros [j y]. cbn. repeat case_bool_decide; by simplify_eq.
Qed.

Lemma take_alter {A} (g : A -> A) n i l : take n (alter g i l) = alter g i (take n l).
Proof.
  revert n i. induction l as [|x l IH]; intros [|n] [|i]; try done. cbn. f_equal. apply IH.
Qed.

Section Packet.
Context `{BC : BlockCipher} (last : bytes) (Hlast : length last = 16%nat).
Abbreviation pos := (bytes -> option ctr_tfm).

Lemma same_mac_run a addr : (length a <= length addr)%nat -> same_mac a addr = Some (bool_decide (a = take (length a) addr)).
Proof.
  revert addr. induction a as [|x a IH]; intros [|y addr] H; cbn [length] in H; [done|done|lia|]. cbn [same_mac length take].
  destruct (Z.eqb_spec x y) as [-> |Hn].
  - rewrite IH by lia. f_equal. apply bool_decide_ext. split; [by intros <-|by intros [=]].
  - f_equal. symmetry. apply bool_decide_eq_false. congruence.
Qed.

Lemma scan_nics_run i l addr s : (forall n, n ∈ l -> length (macaddr n) = 6%nat) -> (6 <= length addr)%nat ->
  scan_nics i l addr s = Done ((fun r => i + fst r)%nat <$> list_find (fun n => macaddr n = take 6 addr) l, s).
Proof.
  intros Hl Ha. revert i. induction l as [|n l IH]; intros i; [done|]. cbn [scan_nics list_find].
  pose proof (Hl n ltac:(left)) as Hn. rewrite same_mac_run, Hn by lia. destruct (decide (macaddr n = take 6 addr)) as [E|E].
  - rewrite bool_decide_eq_true_2 by done. cbn. by rewrite Nat.add_0_r.
  - rewrite bool_decide_eq_false_2 by done. rewrite IH by (intros m Hm; apply Hl; by right). f_equal. f_equal.
    rewrite <- option_fmap_compose. apply option_fmap_ext. intros [j m]. cbn. lia.
Qed.

(** What a packet through QEMU's cipher leaves as it was *)
Record umoved (dir_in : bool) (f : bytes) (s s' : qemu) : Prop := {
  um_wf : net_wf s';
  um_lib : q_lib s' = q_lib s /\ q_mod s' = q_mod s;
  um_macs : macaddr <$> nics s' = macaddr <$> nics s;
  um_tap : q_tap s' = q_tap s;
  um_card : q_card s' = q_card s;
  um_pos : pos_eq (upos dir_in s') (advance dir_in (upos dir_in s) f);
  um_other : pos_eq (upos (negb dir_in) s') (upos (negb dir_in) s);
  um_kpos : forall dir, pos_eq (kpos dir s') (kpos dir s);
}.

Lemma umoved_refl dir f s : net_wf s -> upos dir s (frame_mac dir f) = None -> umoved dir f s s.
Proof. intros H Hn. split; try done. by apply advance_none. Qed.

Lemma nic_cctx_set dir dir' c n : nic_cctx dir' (nic_set_cctx dir c n) = if Bool.eqb dir dir' then c else nic_cctx dir' n.
Proof. by destruct dir, dir'. Qed.

Lemma store_moved dir f s i n c u :
  net_wf s -> nic_at (frame_mac dir f) s = Some (i, n) -> nic_cctx dir n = Some c -> pc_user c = Some u -> iv_ok (as_iv u) ->
  umoved dir f s (set_nics (alter (nic_set_cctx dir (Some (with_user (Some (Aesni (as_key u) (ctr_adv (as_iv u) (length f - 14)))) c))) i (nd_table s)) s).
Proof.
  intros H Hat Hc Hu Hi. set (c' := with_user _ c). set (s' := set_nics _ s). set (g := nic_set_cctx dir (Some c')).
  assert (Hg : forall m, macaddr (g m) = macaddr m) by (intros m; by destruct dir).
  assert (En : nics s' = alter g i (nics s)) by apply take_alter.
  assert (Eat : forall mac, nic_at mac s' = (fun r => (fst r, if bool_decide (fst r = i) then g (snd r) else snd r)) <$> nic_at mac s).
  { intros mac. unfold nic_at. rewrite En. apply list_find_alter. intros m. by rewrite Hg. }
  assert (Em : macaddr <$> nics s' = macaddr <$> nics s).
  { rewrite En. apply list_eq. intros j. rewrite !list_lookup_fmap. destruct (decide (j = i)) as [-> |Hj].
    - rewrite list_lookup_alter_eq, <- option_fmap_compose. destruct (nics s !! i); [|done]. cbn. by rewrite Hg.
    - by rewrite list_lookup_alter_ne. }
  destruct (nic_at_inv _ _ _ _ Hat) as [Hin Hmac].
  assert (Hin' : forall m, m ∈ nics s' -> exists m0, m0 ∈ nics s /\ macaddr m = macaddr m0 /\ (m = m0 \/ m0 = n /\ m = g n)).
  { intros m Hm. rewrite En in Hm. apply list_elem_of_lookup in Hm as [j Hj]. destruct (decide (j = i)) as [-> |Hne].
    - rewrite list_lookup_alter_eq, Hin in Hj. injection Hj as <-. exists n. rewrite Hg. split; [by eapply list_elem_of_lookup_2|]. auto.
    - rewrite list_lookup_alter_ne in Hj by done. exists m. split; [by eapply list_elem_of_lookup_2|]. auto. }
  assert (Hi' : iv_ok (ctr_adv (as_iv u) (length f - 14))) by by apply ctr_adv_ok.
  assert (Hpos : forall dir' mac, upos dir' s' mac = if Bool.eqb dir dir' then advance dir (upos dir s) f mac else upos dir' s mac).
  { intros dir' mac. unfold upos at 1. rewrite Eat. destruct (nic_at mac s) as [[j m]|] eqn:Ej; cbn.
    2: { unfold advance, upos. rewrite Ej. cbn. destruct (Bool.eqb dir dir'); [|done]. by case_bool_decide. }
    destruct (nic_at_inv _ _ _ _ Ej) as [Hj Hmj]. unfold advance, upos. rewrite Ej. cbn. case_bool_decide as Eij.
    - subst j. rewrite Hin in Hj. injection Hj as <-. unfold g. rewrite nic_cctx_set. destruct (Bool.eqb dir dir') eqn:Ed; [|done].
      rewrite bool_decide_eq_true_2 by congruence. rewrite Hc. cbn. by rewrite Hu.
    - destruct (Bool.eqb dir dir') eqn:Ed; [apply eqb_prop in Ed; subst dir'|done]. rewrite bool_decide_eq_false_2; [done|].
      intros ->. rewrite Hat in Ej. congruence. }
  split; try done.
  - split.
    + apply H.
    + intros m Hm. destruct (Hin' m Hm) as (m0 & H0 & E0 & _). rewrite E0. by apply H.
    + rewrite Em. apply H.
    + intros m Hm. destruct (Hin' m Hm) as (m0 & H0 & E0 & Hcase). rewrite E0. destruct (nw_priv _ H m0 H0) as [Hp|Hp].
      * left. destruct Hcase as [-> |[-> _]]; [done|]. destruct Hp as (E1 & E2 & _). destruct dir; cbn in Hc; congruence.
      * right. intros dir'. destruct (Hp dir') as (d & Hd & Hch). destruct Hcase as [-> |[-> ->]]; [by exists d|].
        unfold g. rewrite nic_cctx_set. destruct (Bool.eqb dir dir') eqn:Ed; [|by exists d]. apply eqb_prop in Ed. subst dir'.
        exists c'. split; [done|]. destruct Hch as (e & p & x & t & u0 & E1 & E2 & E3 & E4 & E5 & E6 & _).
        exists e, p, x, t, (Aesni (as_key u) (ctr_adv (as_iv u) (length f - 14))). by split_and!.
  - intros mac. rewrite Hpos. by destruct dir.
  - intros mac. rewrite Hpos. by destruct dir.
  - intros dir' mac. unfold kpos. rewrite Eat. by destruct (nic_at mac s).
Qed.

Lemma packet_run dir f rest s : net_wf s -> (14 <= length f)%nat ->
  exists s', priv_crypt_packet last (length f) (f ++ rest) dir s
    = Done ((0, (match upos dir s (frame_mac dir f) with Some t => mask (if dir then -1 else 1) t f | None => f end) ++ rest), s') /\
    umoved dir f s s'.
Proof.
  intros H Hl. set (mac := frame_mac dir f). unfold priv_crypt_packet.
  assert (E : get_nic_with_mac (if dir then f ++ rest else drop 6 (f ++ rest)) s = Done (fst <$> nic_at mac s, s)).
  { unfold get_nic_with_mac, bind, get. fold (nics s). rewrite scan_nics_run.
    - f_equal. f_equal. unfold nic_at, mac, frame_mac. destruct dir; [by rewrite take_app_le by lia|].
      rewrite drop_app_le by lia. rewrite take_app_le by (rewrite length_drop; lia). done.
    - intros n Hn. apply (nw_mac _ H _ Hn).
    - destruct dir; rewrite ?length_drop, length_app; lia. }
  rewrite (bind_done _ _ _ _ _ E). unfold bind at 1, gets. destruct (nic_at mac s) as [[i n]|] eqn:Ei.
  2: { cbn. exists s. assert (Hu : upos dir s mac = None) by (unfold upos; by rewrite Ei). rewrite Hu. split; [done|]. by apply umoved_refl. }
  destruct (nic_at_inv _ _ _ _ Ei) as [Hin Hmac].
  assert (Htab : nd_table s !! i = Some n).
  { unfold nics in Hin. apply lookup_take_Some in Hin as [? _]. done. }
  cbn. rewrite Htab. cbn. destruct (nw_priv _ H n ltac:(by eapply list_elem_of_lookup_2)) as [(H1 & H2 & _)|Hp].
  { assert (Hn : nic_cctx dir n = None) by (by destruct dir). rewrite Hn. cbn. exists s.
    assert (Hu : upos dir s mac = None) by (unfold upos; rewrite Ei; cbn; by rewrite Hn). rewrite Hu. split; [done|]. by apply umoved_refl. }
  destruct (Hp dir) as (c & Hc & Hch). rewrite Hc. cbn. pose proof Hch as (e & p & x & t & u & _ & _ & _ & _ & _ & Hu & Hiv).
  assert (Hup : upos dir s mac = Some (CtrTfm (as_key u) (as_iv u))) by (unfold upos; rewrite Ei; cbn; rewrite Hc; cbn; by rewrite Hu). rewrite Hup.
  destruct (lookup_lt_is_Some_2 f 13) as [ch Hch13]; [lia|]. rewrite lookup_app_l, Hch13 by lia.
  destruct (Z.ltb_spec (length f) 14); [lia|]. set (ch' := u8 _). rewrite insert_app_l by lia.
  destruct (Z.ltb_spec (length (<[13%nat := ch']> f ++ rest)) (length f)) as [Hlt|_]; [rewrite length_app, length_insert in Hlt; lia|].
  assert (Es : slice 14 (Z.to_nat (length f) - 14) (<[13%nat := ch']> f ++ rest) = drop 14 f).
  { unfold slice. rewrite drop_app_le by (rewrite length_insert; lia). rewrite drop_insert_lt by lia.
    rewrite take_app_length'; [done|]. rewrite length_drop. lia. }
  rewrite Es. rewrite (user_crypt_run last (CtrTfm (as_key u) (as_iv u)) c (drop 14 f)) by (done || by destruct u).
  rewrite length_drop. unfold store_cctx, bind, modify, ret. eexists. split.
  - f_equal. f_equal. f_equal. unfold mask, splice. rewrite length_stream_xor, length_drop.
    rewrite (at_lookup _ _ _ Hch13). assert (El : length (<[13%nat := ch']> f) = length f) by apply length_insert.
    rewrite take_app_le by lia. rewrite (drop_app_length' (<[13%nat := ch']> f) rest (14 + (length f - 14))) by lia.
    rewrite take_insert_lt by lia. by rewrite <- app_assoc.
  - by apply (store_moved dir f s i n c u).
Qed.
End Packet.

(** ** The card *)

Section CardFacts.
Context `{BC : BlockCipher}.

Definition card_ok (c : card) : Prop :=
  c_link_down c = false /\ delivering (c_queue c) = false /\ (packets (c_queue c) = [] \/ c_disabled c = true).
(** The packets the card has, and those that wait for it inside QEMU *)
Definition card_data (c : card) : list bytes := c_got c ++ (np_data <$> packets (c_queue c)).

(** A card that always takes packets *)
Definition card_eager (c : card) : Prop := c_can c = [] /\ c_takes c = [] /\ c_disabled c = false.

Lemma card_send_run data s : card_ok (q_card s) -> t_link_down (q_tap s) = false -> (0 < length data)%nat ->
  exists sz c, tap_send_packet_async data s = Done (sz, set_card c s) /\ card_ok c /\ card_data c = card_data (q_card s) ++ [data] /\
    (card_eager (q_card s) -> card_eager c /\ 0 < sz).
Proof.
  destruct s as [lib md nd nb ix tp [ld dis [pk del] can takes got sent]]. intros (E1 & E2 & E3) Ht Hd. cbn in E1, E2, E3, Ht. subst ld del.
  unfold tap_send_packet_async, bind at 1, gets. cbn [q_tap]. rewrite Ht. unfold card_data, card_eager. cbn [q_card c_got c_queue packets c_can c_takes c_disabled].
  destruct dis.
  - exists 0. eexists. split; [reflexivity|]. cbn. split; [split; [done|split; [done|by right]]|]. split; [by rewrite fmap_app, app_assoc|]. by intros (_ & _ & ?).
  - destruct E3 as [-> |]; [|done]. destruct takes as [|[|] takes].
    + exists (Z.of_nat (length data)), (Card false false (Queue [] false) can [] (got ++ [data]) sent). split; [|split; [|split; [|intros (-> & _ & _); split; [done|lia]]]].
      * unfold qemu_net_queue_send, qemu_net_queue_deliver, bind, gets, modify, card_deliver. cbn. destruct (Z.eqb_spec (length data) 0); [lia|]. done.
      * split; [done|]. split; [done|]. by left.
      * cbn. by rewrite !app_nil_r.
    + exists (Z.of_nat (length data)), (Card false false (Queue [] false) can takes (got ++ [data]) sent). split; [|split; [|split; [|by intros (_ & ? & _)]]].
      * unfold qemu_net_queue_send, qemu_net_queue_deliver, bind, gets, modify, card_deliver. cbn. destruct (Z.eqb_spec (length data) 0); [lia|]. done.
      * split; [done|]. split; [done|]. by left.
      * cbn. by rewrite !app_nil_r.
    + exists 0. eexists. split; [reflexivity|]. cbn. split; [split; [done|split; [done|by right]]|]. split; [by rewrite app_nil_r|]. by intros (_ & ? & _).
Qed.

Lemma can_send_run s : exists go l, tap_can_send s = Done (go, set_card (card_set_can l (q_card s)) s) /\ (card_eager (q_card s) -> go = true /\ l = []).
Proof.
  destruct s as [lib md nd nb ix tp [ld dis q can takes got sent]]. unfold tap_can_send, bind at 1, gets, card_eager. cbn [q_card c_disabled c_can c_takes]. destruct dis.
  - exists false, can. split; [done|]. by intros (_ & _ & ?).
  - eexists _, (tail can). split; [reflexivity|]. by intros (-> & _ & _).
Qed.

Lemma flush_run pk s : packets (cq s) = pk -> card_ok (card_set_disabled true (q_card s)) -> c_disabled (q_card s) = false -> Forall (fun p => np_data p <> []) pk ->
  exists c r, flush_loop cq set_cq card_deliver tap_send_completed (length pk) s
    = Done (tt, set_card c (set_tap (tap_set_polls r (write_poll (q_tap s)) (q_tap s)) s)) /\
    card_ok c /\ card_data c = card_data (q_card s).
Proof.
  revert s. induction pk as [|p pk IH]; intros s Hp (H1 & H2 & _) H3 Hne.
  { exists (q_card s), (read_poll (q_tap s)). destruct s as [lib md nd nb ix [] []]. cbn in *. split; [done|]. split; [|done]. split; [done|]. split; [done|]. by left. }
  apply Forall_cons in Hne as [Hn Hne]. cbn [length flush_loop].
  destruct s as [lib md nd nb ix [tl td tq tb rp wp uv hl ti to ta] [ld dis [pk0 del] can takes got sent]]. cbn in Hp, H1, H2, H3. subst pk0 ld del dis.
  destruct p as [fl d cb]. cbn [np_data] in Hn. unfold bind at 1, gets. cbn [cq q_card c_queue packets].
  unfold bind at 1, modify at 1. set (s1 := set_packets cq set_cq pk _). cbn in s1.
  assert (Hd : Z.of_nat (length d) <> 0) by (destruct d; [done|cbn; lia]). apply Z.eqb_neq in Hd.
  assert (Hcase : (exists l, takes = false :: l) \/ forall l, takes <> false :: l) by (destruct takes as [|[|]]; eauto). destruct Hcase as [[l ->]|Hno].
  { exists (Card false true (Queue (Pkt fl d cb :: pk) false) can l got sent), rp. split; [done|]. split; [split; [done|split; [done|by right]]|done]. }
  set (c2 := Card false false (Queue pk false) can (tail takes) (got ++ [d]) sent). set (t2 := Tap tl td tq tb rp wp uv hl ti to ta).
  assert (E : qemu_net_queue_deliver cq set_cq card_deliver fl d s1 = Done ((Z.of_nat (length d), d), Qemu lib md nd nb ix t2 c2))
    by (destruct takes as [|[|] takes]; [done|done|by destruct (Hno takes)]).
  cbn [np_flags np_data np_cb]. rewrite (bind_done _ _ _ _ _ E). cbn [fst]. rewrite Hd. set (t3 := if cb then tap_set_polls true wp t2 else t2).
  assert (Ec : (if cb then tap_send_completed (Z.of_nat (length d)) else ret tt) (Qemu lib md nd nb ix t2 c2) = Done (tt, Qemu lib md nd nb ix t3 c2)) by (unfold t3; by destruct cb).
  rewrite (bind_done _ _ _ _ _ Ec). destruct (IH (Qemu lib md nd nb ix t3 c2)) as (c & r & Er & Hc & Ed); [done|split; [done|split; [done|by right]]|done|done|].
  exists c, r. split; [rewrite Er; unfold t3; by destruct cb|]. split; [done|]. rewrite Ed. unfold card_data. cbn. by rewrite <- app_assoc.
Qed.

Lemma card_ready_run s : card_ok (q_card s) -> Forall (fun p => np_data p <> []) (packets (cq s)) ->
  exists c r, card_ready s = Done (tt, set_card c (set_tap (tap_set_polls r (write_poll (q_tap s)) (q_tap s)) s)) /\
    card_ok c /\ card_data c = card_data (q_card s).
Proof.
  intros (H1 & H2 & _) Hne. unfold card_ready. set (s1 := set_card (card_set_disabled false (q_card s)) s).
  rewrite (bind_done (on_card _) _ s tt s1 eq_refl). unfold qemu_net_queue_flush. rewrite (bind_done (gets cq) _ s1 (cq s1) s1 eq_refl).
  destruct (flush_run (packets (cq s1)) s1) as (c & r & E & Hc & Ed); [done|split; [done|split; [done|by right]]|done|done|].
  exists c, r. split; [exact E|]. split; [done|]. by rewrite Ed.
Qed.
End CardFacts.

(** ** Frames in flight *)

Section Flow.
Context `{BC : BlockCipher} (last : bytes) (Hlast : length last = 16%nat).
Abbreviation pos := (bytes -> option ctr_tfm).
(** The addresses that frames have: QEMU's and nobody's *)
Context (ours : bytes -> Prop).
(** The private addresses, those of all cards, and whether the queue to the tap is delivering *)
Context (priv : bytes -> Prop) (macs : list bytes) (dl : bool).

(** A packet of the tap device is a header and a frame; the card sees the header if it uses it. *)
Definition pkts (dir_in : bool) (P : pos) (l : list (bytes * bytes)) : list bytes := zip_with app (fst <$> l) (encs dir_in P (snd <$> l)).
Definition view (uses : bool) (p : bytes * bytes) : bytes := if uses then fst p ++ snd p else snd p.

Definition pkt_ok (dir_in : bool) (p : bytes * bytes) : Prop :=
  length (fst p) = 10%nat /\ frame_ok (snd p) /\ Z.of_nat (10 + length (snd p)) <= TAP_BUFSIZE /\ ours (frame_mac dir_in (snd p)).

Record tap_ok (t : TAPState) : Prop := {
  to_up : t_link_down t = false;
  to_on : t_disabled t = false;
  to_queue : t_queue t = Queue [] dl;
  to_buf : Z.of_nat (length (t_buf t)) = TAP_BUFSIZE;
  to_hdr : host_vnet_hdr_len t = 10%nat;
  to_writes : Forall (fun a => a = WOk \/ a = WIntr) (t_answers t);
}.

(** [rin] are the frames the kernel has encrypted and QEMU not yet read, [rout] those that QEMU
    has encrypted and the kernel not yet sent. *)
Record flows (s : qemu) (rin rout : list (bytes * bytes)) : Prop := {
  fl_wf : net_wf s;
  fl_ours : forall mac, ours mac -> mine s mac;
  fl_tap : tap_ok (q_tap s);
  fl_card : card_ok (q_card s);
  fl_rin : Forall (pkt_ok true) rin;
  fl_rout : Forall (pkt_ok false) rout;
  fl_in : t_in (q_tap s) = pkts true (upos true s) rin;
  fl_kin : pos_eq (kpos true s) (advances true (upos true s) (snd <$> rin));
  fl_out : t_out (q_tap s) = pkts false (kpos false s) rout;
  fl_uout : pos_eq (upos false s) (advances false (kpos false s) (snd <$> rout));
  fl_macs : macaddr <$> nics s = macs;
  fl_priv : forall mac dir, priv mac -> is_Some (upos dir s mac);
}.

Lemma pkts_ext dir P R l : pos_eq P R -> pkts dir P l = pkts dir R l.
Proof. intros H. unfold pkts. by rewrite (encs_ext dir P R). Qed.

Lemma length_encs dir P l : length (encs dir P l) = length l.
Proof. revert P. induction l as [|f l IH]; intros P; [done|]. cbn. by rewrite IH. Qed.

Lemma pkts_snoc dir P l h f : pkts dir P (l ++ [(h, f)]) = pkts dir P l ++ [h ++ enc dir (advances dir P (snd <$> l)) f].
Proof. unfold pkts. rewrite !fmap_app. cbn. rewrite encs_snoc. rewrite zip_with_app; [done|]. by rewrite length_encs, !length_fmap. Qed.

Lemma mine_same s s' mac : (forall m, entry (ns s') m = entry (ns s) m) -> macaddr <$> nics s' = macaddr <$> nics s -> mine s mac -> mine s' mac.
Proof.
  intros He Hm H Hs. rewrite He in Hs. destruct (H Hs) as (n & Hn & Hmac).
  assert (Hin : mac ∈ macaddr <$> nics s') by (rewrite Hm; apply list_elem_of_fmap; eauto).
  apply list_elem_of_fmap in Hin as (n' & ? & ?). eauto.
Qed.

Lemma length_enc dir P f : (14 <= length f)%nat -> length (enc dir P f) = length f.
Proof. intros H. unfold enc. destruct (P _); [by apply length_mask|done]. Qed.
Lemma frame_mac_enc dir dir' P f : (14 <= length f)%nat -> frame_mac dir' (enc dir P f) = frame_mac dir' f.
Proof. intros H. unfold enc. destruct (P _); [by apply frame_mac_mask|done]. Qed.

(** Decrypting at the position where a frame was encrypted *)
Lemma dec_enc dir P f : frame_ok f ->
  match P (frame_mac dir (enc dir P f)) with Some t => mask (-1) t (enc dir P f) | None => enc dir P f end = f.
Proof.
  intros Hf. rewrite frame_mac_enc by apply Hf. unfold enc. destruct (P (frame_mac dir f)) as [t|]; [|done]. by apply (mask_unmask 1).
Qed.

Lemma advance_enc dir P R f : (14 <= length f)%nat -> pos_eq (advance dir R (enc dir P f)) (advance dir R f).
Proof. intros H mac. unfold advance. by rewrite frame_mac_enc, length_enc. Qed.

(** The driver receives a frame. *)
Lemma flows_wire h f s rin rout : flows s rin rout -> pkt_ok true (h, f) ->
  exists skb s', in_kernel (e1000_receive_skb f) s = Done (skb, s') /\
    flows (set_tap (tap_set_device (t_in (q_tap s') ++ [h ++ skb]) (t_out (q_tap s')) (t_answers (q_tap s')) (q_tap s')) s') (rin ++ [(h, f)]) rout /\
    q_tap s' = q_tap s /\ q_card s' = q_card s.
Proof.
  intros F Hp. pose proof Hp as (Hh & Hf & Hb & Ho).
  destruct (hook_run true 1 f s (fl_wf _ _ _ F) (proj1 Hf) (frame_mac_ok true f Hf) (fl_ours _ _ _ F _ Ho)) as (s' & E & [Hwf [Hn Hnb] Ht Hc He Hk Hk']).
  exists (enc true (kpos true s) f), s'. split; [exact E|]. split; [|done].
  assert (Hu : forall dir mac, upos dir s' mac = upos dir s mac) by (intros dir mac; unfold upos, nic_at, nics; by rewrite Hn, Hnb).
  destruct F as [_ F2 F3 F4 F5 F6 F7 F8 F9 F10 F11 F12]. rewrite Ht. split.
  - destruct Hwf. by split.
  - intros mac Hm. apply (mine_same s); [exact He|unfold nics; cbn; by rewrite Hn, Hnb|by apply F2].
  - destruct F3. by split.
  - cbn. by rewrite Hc.
  - apply Forall_app. split; [done|]. by apply Forall_singleton.
  - done.
  - cbn [set_tap q_tap t_in tap_set_device]. rewrite pkts_snoc, F7. f_equal; [by apply pkts_ext; intros mac; rewrite <- Hu|].
    f_equal. f_equal. apply enc_ext. intros mac. rewrite F8. apply advances_ext. intros m. symmetry. apply Hu.
  - intros mac. change (kpos true (set_tap _ s')) with (kpos true s'). rewrite Hk, fmap_app. cbn [fmap list_fmap snd]. rewrite advances_snoc. apply advance_ext.
    intros m. rewrite F8. apply advances_ext. intros m'. symmetry. apply Hu.
  - cbn [set_tap q_tap t_out tap_set_device]. rewrite F9. apply pkts_ext. intros mac. symmetry. apply Hk'.
  - intros mac. change (upos false (set_tap _ s')) with (upos false s'). rewrite Hu, F10. apply advances_ext. intros m. symmetry. apply Hk'.
  - rewrite <- F11. unfold nics. cbn. by rewrite Hn, Hnb.
  - intros mac dir Hpr. pose proof (F12 mac dir Hpr) as X. by rewrite <- Hu in X.
Qed.

(** The driver sends the first packet of the device. *)
Lemma flows_xmit h f s rin rout : flows s rin ((h, f) :: rout) ->
  exists p l s', t_out (q_tap s) = p :: l /\
    in_kernel (tx_decrypt (drop 10 p)) (set_tap (tap_set_device (t_in (q_tap s)) l (t_answers (q_tap s)) (q_tap s)) s) = Done (f, s') /\ flows s' rin rout /\ q_card s' = q_card s /\ using_vnet_hdr (q_tap s') = using_vnet_hdr (q_tap s).
Proof.
  intros [F1 F2 F3 F4 F5 F6 F7 F8 F9 F10 F11 F12]. apply Forall_cons in F6 as [(Hh & Hf & Hb & Ho) F6]. cbn [fst snd] in *.
  set (xf := enc false (kpos false s) f). set (l := pkts false (advance false (kpos false s) f) rout).
  set (s1 := set_tap (tap_set_device (t_in (q_tap s)) l (t_answers (q_tap s)) (q_tap s)) s). assert (H1 : net_wf s1) by (destruct F1; by split).
  assert (Hl : (14 <= length xf)%nat) by (unfold xf; rewrite length_enc; apply Hf).
  assert (Hm : frame_mac false xf = frame_mac false f) by (apply frame_mac_enc, Hf).
  destruct (hook_run false (-1) xf s1 H1 Hl) as (s' & E & [Hwf [Hn Hnb] Ht Hc He Hk Hk']).
  { rewrite Hm. by apply frame_mac_ok. }
  { rewrite Hm. by apply F2. }
  change (kpos false s1) with (kpos false s) in E, Hk. unfold xf in E at 2 3. rewrite (dec_enc false) in E by done.
  exists (h ++ xf), l, s'. split; [exact F9|]. rewrite drop_app_length' by done. split; [exact E|].
  assert (Hu : forall dir mac, upos dir s' mac = upos dir s mac) by (intros dir mac; unfold upos, nic_at, nics; by rewrite Hn, Hnb).
  assert (Hk2 : pos_eq (kpos false s') (advance false (kpos false s) f)) by (intros mac; rewrite Hk; apply advance_enc, Hf).
  rewrite Ht. split; [|by rewrite Hc]. split.
  - done.
  - intros mac Hmac. apply (mine_same s); [exact He|unfold nics; cbn; by rewrite Hn, Hnb|by apply F2].
  - rewrite Ht. destruct F3. by split.
  - by rewrite Hc.
  - done.
  - done.
  - rewrite Ht. cbn. rewrite F7. by apply pkts_ext; intros mac; rewrite <- Hu.
  - intros mac. rewrite Hk'. change (kpos (negb false) s1 mac) with (kpos true s mac). rewrite F8. apply advances_ext. intros m. symmetry. apply Hu.
  - rewrite Ht. cbn. apply pkts_ext. intros mac. symmetry. apply Hk2.
  - intros mac. rewrite Hu, F10. change (advances false (kpos false s) (snd <$> (h, f) :: rout)) with (advances false (advance false (kpos false s) f) (snd <$> rout)).
    apply advances_ext. intros m. symmetry. apply Hk2.
  - rewrite <- F11. unfold nics. cbn. by rewrite Hn, Hnb.
  - intros mac dir Hpr. pose proof (F12 mac dir Hpr) as X. by rewrite <- Hu in X.
Qed.

Lemma ours_after dir f s s' : umoved dir f s s' -> (forall mac, ours mac -> mine s mac) -> forall mac, ours mac -> mine s' mac.
Proof.
  intros U H mac Hm. apply (mine_same s); [|apply U|by apply H]. intros m. destruct (um_lib _ _ _ _ U) as [El Em]. unfold entry, ns. by rewrite El, Em.
Qed.

Lemma priv_after dir f s s' mac dir' : pos_eq (upos dir s') (advance dir (upos dir s) f) -> pos_eq (upos (negb dir) s') (upos (negb dir) s) ->
  is_Some (upos dir' s mac) -> is_Some (upos dir' s' mac).
Proof.
  intros H1 H2 Hs. destruct (decide (dir' = dir)) as [-> |Hd].
  - rewrite H1. unfold advance. case_bool_decide; [by apply fmap_is_Some|done].
  - replace dir' with (negb dir) in * by by destruct dir, dir'. by rewrite H2.
Qed.

(** [net_wf] does not look at the tap and the card. *)
Lemma net_wf_outer t c s : net_wf s -> net_wf (set_card c (set_tap t s)).
Proof. intros []. by split. Qed.

Lemma slice_view (u : bool) (h f rest : bytes) : length h = 10%nat -> slice (if u then 0 else 10)%nat (10 + length f - (if u then 0 else 10))%nat (h ++ f ++ rest) = view u (h, f).
Proof.
  intros Hh. unfold slice, view. cbn [fst snd]. destruct u.
  - rewrite drop_0, app_assoc. apply take_app_length'. rewrite length_app. lia.
  - rewrite drop_app_length' by done. apply take_app_length'. lia.
Qed.

(** QEMU reads a packet: the frame reaches the card, or its queue, as it was on the wire. *)
Lemma flows_read h f s rin rout : flows s ((h, f) :: rin) rout ->
  exists p l more s', t_in (q_tap s) = p :: l /\ t_in (q_tap s') = l /\ flows s' rin rout /\
    tap_send_loop last (p :: l) s = (if negb more then ret tt else let! go := tap_can_send in if go then tap_send_loop last l else ret tt) s' /\
    card_data (q_card s') = card_data (q_card s) ++ [view (using_vnet_hdr (q_tap s)) (h, f)] /\
    using_vnet_hdr (q_tap s') = using_vnet_hdr (q_tap s) /\ (card_eager (q_card s) -> card_eager (q_card s') /\ more = true).
Proof.
  intros [F1 F2 F3 F4 F5 F6 F7 F8 F9 F10 F11 F12]. apply Forall_cons in F5 as [(Hh & Hf & Hb & Ho) F5]. cbn [fst snd] in *. destruct F3 as [T1 T2 T3 T4 T5 T6].
  set (xf := enc true (upos true s) f) in *. assert (Hl : (14 <= length xf)%nat) by (unfold xf; rewrite length_enc; apply Hf).
  assert (Hxl : length xf = length f) by (apply length_enc, Hf). set (l := pkts true (advance true (upos true s) f) rin).
  set (p := h ++ xf). assert (Hp : length p = (10 + length f)%nat) by (unfold p; rewrite length_app; lia).
  assert (Etake : take (Z.to_nat TAP_BUFSIZE) p = p) by (apply take_ge; lia). set (buf := t_buf (q_tap s)) in *. set (rest := drop (length p) buf).
  assert (Ebuf : splice 0 p buf = h ++ xf ++ rest) by (unfold splice, p, rest; rewrite take_0; cbn [app Nat.add]; by rewrite <- app_assoc).
  set (s1 := set_tap (tap_set_buf (splice 0 p buf) (tap_set_device l (t_out (q_tap s)) (t_answers (q_tap s)) (q_tap s))) s).
  assert (H1 : net_wf s1) by (apply (net_wf_outer _ (q_card s) s F1)).
  destruct (packet_run last Hlast true xf rest s1 H1 Hl) as (s2 & E2 & U). pose proof U as [Hwf _ _ Ht Hc Hup Huo Hk].
  change (upos true s1) with (upos true s) in E2, Hup. change (pos_eq (upos false s2) (upos false s)) in Huo. unfold xf in E2 at 3 4. rewrite (dec_enc true) in E2 by done.
  set (t3 := tap_set_buf (h ++ f ++ rest) (q_tap s1)). set (s3 := set_tap t3 s2).
  assert (Hview : (0 < length (view (using_vnet_hdr (q_tap s)) (h, f)))%nat) by (unfold view; destruct Hf; case_match; cbn [fst snd]; rewrite ?length_app; lia).
  destruct (card_send_run (view (using_vnet_hdr (q_tap s)) (h, f)) s3) as (sz & c & E4 & Hcok & Hcd & Heag); [cbn; by rewrite Hc|done|done|].
  set (t5 := if sz =? 0 then tap_set_polls false (write_poll t3) t3 else t3). set (s5 := set_card c (set_tap t5 s3)).
  exists p, l, (0 <? sz), s5. split; [exact F7|]. split; [unfold s5, t5; cbn; by destruct (sz =? 0)|].
  assert (Hup2 : pos_eq (upos true s2) (advance true (upos true s) f)) by (intros mac; rewrite Hup; apply advance_enc, Hf).
  assert (F' : flows s5 rin rout).
  { split.
    - by apply (net_wf_outer t5 c s3), (net_wf_outer t3 (q_card s2)).
    - exact (ours_after _ _ _ _ U F2).
    - unfold s5, t5. cbn. assert (G : tap_ok t3).
      { split; try done. cbn. rewrite !length_app. unfold rest. rewrite length_drop. unfold TAP_BUFSIZE in *. lia. }
      destruct (sz =? 0); [|done]. destruct G. by split.
    - done.
    - done.
    - done.
    - transitivity l; [unfold s5, t5; cbn; by destruct (sz =? 0)|]. apply pkts_ext. intros mac. symmetry. apply Hup2.
    - intros mac. change (kpos true s5 mac) with (kpos true s2 mac). rewrite Hk. change (kpos true s1 mac) with (kpos true s mac). rewrite F8.
      change (advances true (upos true s) (snd <$> (h, f) :: rin)) with (advances true (advance true (upos true s) f) (snd <$> rin)).
      apply advances_ext. intros m. symmetry. apply Hup2.
    - transitivity (t_out (q_tap s)); [unfold s5, t5; cbn; by destruct (sz =? 0)|]. rewrite F9. apply pkts_ext. intros mac. symmetry. apply (Hk false).
    - intros mac. change (upos false s5 mac) with (upos false s2 mac). rewrite (Huo mac), F10.
      apply advances_ext. intros m. symmetry. apply (Hk false).
    - rewrite <- F11. apply U.
    - intros mac dir Hm. exact (priv_after true f s s2 mac dir Hup2 Huo (F12 mac dir Hm)). }
  split; [exact F'|]. split.
  2: { cbn [s5 set_card q_card]. rewrite Hcd. split; [cbn; by rewrite Hc|]. split; [unfold t5; cbn; by destruct (sz =? 0)|].
       intros He. destruct Heag as [? ?]; [cbn; by rewrite Hc|]. split; [done|]. by apply Z.ltb_lt. }
  cbn [tap_send_loop]. rewrite Etake. rewrite (bind_done (on_tap _) _ s tt s1 eq_refl). destruct (Z.leb_spec (length p) 0) as [Hle|_]; [lia|].
  rewrite (bind_done (gets q_tap) _ s1 (q_tap s1) s1 eq_refl). change (t_buf (q_tap s1)) with (splice 0 p buf). change (Z.to_nat 10) with 10%nat.
  rewrite Ebuf, drop_app_length' by done. replace (u64 (length p - 10)) with (Z.of_nat (length xf)) by (rewrite u64_small; unfold TAP_BUFSIZE in *; lia).
  rewrite (bind_done _ _ _ _ _ E2). cbn [fst snd].
  assert (E3 : on_tap (fun t => tap_set_buf (take 10 (t_buf t) ++ f ++ rest) t) s2 = Done (tt, s3)).
  { unfold on_tap, modify, s3, t3. rewrite Ht. cbn [s1 set_tap q_tap tap_set_buf t_buf]. rewrite Ebuf, take_app_length' by done. done. }
  rewrite (bind_done _ _ _ _ _ E3). change (0 <? 0) with false. cbv iota. rewrite (bind_done (bind (gets q_tap) _) _ s3 (0 <? sz) s5); [done|].
  rewrite (bind_done (gets q_tap) _ s3 (q_tap s3) s3 eq_refl). change (host_vnet_hdr_len (q_tap s3)) with (host_vnet_hdr_len (q_tap s)). rewrite T5.
  change (using_vnet_hdr (q_tap s3)) with (using_vnet_hdr (q_tap s)). change (negb (10 =? 0)%nat) with true. cbn [andb].
  assert (Esk : (if negb (using_vnet_hdr (q_tap s)) then 10 else 0)%nat = (if using_vnet_hdr (q_tap s) then 0 else 10)%nat) by (by destruct (using_vnet_hdr (q_tap s))).
  rewrite Esk. destruct (Z.ltb_spec (length p - Z.of_nat (if using_vnet_hdr (q_tap s) then 0 else 10)%nat) 0) as [Hlt|_]; [destruct (using_vnet_hdr (q_tap s)); lia|].
  change (t_buf (q_tap s3)) with (h ++ f ++ rest). rewrite Nat2Z.id, Hp, slice_view by done. rewrite (bind_done _ _ _ _ _ E4).
  unfold s5, t5. by destruct (sz =? 0).
Qed.

(** [tap_send] reads packets until the card refuses one or none is left. *)
Lemma flows_reads rin : forall s rout, flows s rin rout ->
  exists din rin' s', rin = din ++ rin' /\ tap_send_loop last (t_in (q_tap s)) s = Done (tt, s') /\ flows s' rin' rout /\
    card_data (q_card s') = card_data (q_card s) ++ (view (using_vnet_hdr (q_tap s)) <$> din) /\
    using_vnet_hdr (q_tap s') = using_vnet_hdr (q_tap s) /\ (card_eager (q_card s) -> rin' = []).
Proof.
  induction rin as [|[h f] rin IH]; intros s rout F.
  { exists [], [], s. rewrite (fl_in _ _ _ F). split_and!; try done. cbn. by rewrite app_nil_r. }
  destruct (flows_read h f s rin rout F) as (p & l & more & s1 & Hin & Hl & F1 & E & Hcd & Hu & Heag). rewrite Hin, E. destruct more; cbn [negb].
  2: { exists [(h, f)], rin, s1. split_and!; try done. intros He. by destruct (Heag He). }
  destruct (can_send_run s1) as (go & can & Eg & Hgo). rewrite (bind_done _ _ _ _ _ Eg). set (s2 := set_card _ s1).
  assert (F2 : flows s2 rin rout).
  { destruct F1 as [A1 A2 A3 (A4 & A5 & A6) A7 A8 A9 A10 A11 A12 A13 A14]. split; try done. by apply (net_wf_outer (q_tap s1) _ s1). }
  destruct go.
  - destruct (IH s2 rout F2) as (din & rin' & s' & -> & E' & F' & Hcd' & Hu' & Heag'). change (t_in (q_tap s2)) with (t_in (q_tap s1)) in E'. rewrite Hl in E'.
    exists ((h, f) :: din), rin', s'. split_and!; try done.
    + rewrite Hcd'. change (card_data (q_card s2)) with (card_data (q_card s1)). change (using_vnet_hdr (q_tap s2)) with (using_vnet_hdr (q_tap s1)). by rewrite Hcd, Hu, <- app_assoc.
    + by rewrite Hu'.
    + intros He. apply Heag'. destruct (Heag He) as [He1 _]. destruct (Hgo He1) as [_ ->]. destruct He1 as (? & ? & ?). by split_and!.
  - exists [(h, f)], rin, s2. split_and!; try done. intros He. destruct (Heag He) as [He1 _]. by destruct (Hgo He1).
Qed.

(** No card has the address that a header has in the place of a source address. *)
Definition no_card (s : qemu) (hb : bytes) : Prop := forall n, n ∈ nics s -> same_mac (macaddr n) (drop 6 hb) = Some false.

Lemma header_run hb s : no_card s hb -> priv_crypt_packet last 10 hb false s = Done ((0, hb), s).
Proof.
  intros H. unfold priv_crypt_packet. assert (E : get_nic_with_mac (drop 6 hb) s = Done (None, s)); [|by rewrite (bind_done _ _ _ _ _ E)].
  unfold get_nic_with_mac, bind, get. fold (nics s). unfold no_card in H. assert (G : forall i, scan_nics i (nics s) (drop 6 hb) s = Done (None, s)); [|apply G].
  induction (nics s) as [|n l IH]; intros i; [done|]. cbn [scan_nics]. rewrite (H n) by left. apply IH. intros m Hm. apply H. by right.
Qed.

Lemma zero_header s : net_wf s -> no_card s (zeros 12).
Proof.
  intros H n Hn. destruct (nw_mac _ H _ Hn) as [[Hl _] Hz]. change (drop 6 (zeros 12)) with (zeros 6). rewrite (same_mac_run last Hlast) by by rewrite Hl.
  rewrite Hl. f_equal. by apply bool_decide_eq_false.
Qed.

Lemma writev_ok l : Forall (fun a => a = WOk \/ a = WIntr) l -> exists l', writev_loop l = (WOk, l') /\ Forall (fun a => a = WOk \/ a = WIntr) l'.
Proof. induction 1 as [|a l [-> | ->] Hl IH]; [by exists []|by exists l|exact IH]. Qed.

(** QEMU sends a header and a frame. *)
Lemma flows_write hb f s rin rout : flows s rin rout -> no_card s hb -> pkt_ok false (take 10 hb, f) ->
  exists iov s', tap_write_packet last [Iov hb 10; Iov f (length f)] s = Done ((Z.of_nat (10 + length f), iov), s') /\
    flows s' rin (rout ++ [(take 10 hb, f)]) /\ q_card s' = q_card s /\ using_vnet_hdr (q_tap s') = using_vnet_hdr (q_tap s).
Proof.
  intros [F1 F2 F3 F4 F5 F6 F7 F8 F9 F10 F11 F12] Hno Hp. pose proof Hp as (Hh & Hf & _ & _). cbn [fst snd] in *. unfold tap_write_packet.
  destruct (packet_run last Hlast false f [] s F1 (proj1 Hf)) as (s1 & E1 & U). pose proof U as [Hwf _ _ Ht Hc Hup Huo Hk].
  change (pos_eq (upos true s1) (upos true s)) in Huo. fold (enc false (upos false s) f) in E1. set (xf := enc false (upos false s) f) in *. rewrite !app_nil_r in E1.
  assert (Hxl : length xf = length f) by (apply length_enc, Hf).
  set (iov := [Iov hb 10; Iov xf (length f)]).
  assert (Ei : crypt_iovs last [Iov hb 10; Iov f (length f)] s = Done (iov, s1)).
  { cbn [crypt_iovs iov_len iov_base]. rewrite (bind_done _ _ _ _ _ (header_run hb s Hno)). cbn [fst snd]. rewrite (bind_done (bind _ _) _ s [Iov xf (length f)] s1); [done|].
    by rewrite (bind_done _ _ _ _ _ E1). }
  rewrite (bind_done _ _ _ _ _ Ei). rewrite (bind_done (gets q_tap) _ s1 (q_tap s1) s1 eq_refl). rewrite Ht.
  destruct (writev_ok _ (to_writes _ F3)) as (l & El & Hl). rewrite El.
  assert (Ed : iov ≫= iov_data = take 10 hb ++ xf) by (cbn; unfold iov_data; cbn [iov_len iov_base]; rewrite app_nil_r; by rewrite (take_ge xf) by lia).
  set (t2 := tap_set_device (t_in (q_tap s)) (t_out (q_tap s) ++ [take 10 hb ++ xf]) l (q_tap s)). set (s2 := set_tap t2 s1).
  exists iov, s2. split.
  { rewrite Ed. rewrite (bind_done (on_tap _) _ s1 tt s2) by (unfold on_tap, modify, s2, t2; by rewrite Ht). unfold ret. f_equal. f_equal. f_equal. rewrite length_app. lia. }
  split; [|by split]. split.
  - by apply (net_wf_outer t2 (q_card s1) s1).
  - exact (ours_after _ _ _ _ U F2).
  - destruct F3. by split.
  - cbn. by rewrite Hc.
  - done.
  - apply Forall_app. split; [done|]. by apply Forall_singleton.
  - cbn. rewrite F7. apply pkts_ext. intros mac. symmetry. apply Huo.
  - intros mac. change (kpos true s2 mac) with (kpos true s1 mac). rewrite Hk, F8. apply advances_ext. intros m. symmetry. apply Huo.
  - cbn [s2 set_tap q_tap t2 tap_set_device t_out]. rewrite pkts_snoc, F9. f_equal; [apply pkts_ext; intros mac; symmetry; apply (Hk false)|].
    f_equal. f_equal. apply enc_ext. intros mac. rewrite F10. apply advances_ext. intros m. symmetry. apply (Hk false).
  - intros mac. change (upos false s2 mac) with (upos false s1 mac). rewrite Hup, fmap_app. cbn [fmap list_fmap snd]. rewrite advances_snoc. apply advance_ext.
    intros m. rewrite F10. apply advances_ext. intros m'. symmetry. apply (Hk false).
  - rewrite <- F11. apply U.
  - intros mac dir Hm. exact (priv_after false f s s1 mac dir Hup Huo (F12 mac dir Hm)).
Qed.
End Flow.

(** ** The card sends *)

Section Send.
Context `{BC : BlockCipher} (last : bytes) (Hlast : length last = 16%nat) (ours priv : bytes -> Prop) (macs : list bytes).

Lemma flows_tq dl dl' s rin rout : flows ours priv macs dl s rin rout -> flows ours priv macs dl' (set_tq (Queue [] dl') s) rin rout.
Proof.
  intros [F1 F2 [T1 T2 T3 T4 T5 T6] F4 F5 F6 F7 F8 F9 F10 F11 F12]. split; try done. by apply (net_wf_outer _ (q_card s) s).
Qed.

Lemma tq_empty dl s rin rout : flows ours priv macs dl s rin rout -> tq s = Queue [] dl.
Proof. intros F. apply (fl_tap _ _ _ _ _ _ _ F). Qed.

Lemma flows_send f s rin rout : flows ours priv macs false s rin rout -> using_vnet_hdr (q_tap s) = false -> pkt_ok ours false (zeros 10, f) ->
  exists r s', card_send_packet_async last f true s = Done (r, s') /\ flows ours priv macs false s' rin (rout ++ [(zeros 10, f)]) /\
    q_card s' = q_card s /\ using_vnet_hdr (q_tap s') = using_vnet_hdr (q_tap s).
Proof.
  intros F Hu Hp. unfold card_send_packet_async. rewrite (bind_done (gets q_card) _ s (q_card s) s eq_refl). destruct (fl_card _ _ _ _ _ _ _ F) as (-> & _).
  unfold qemu_net_queue_send. rewrite (bind_done (gets tq) _ s (tq s) s eq_refl), (tq_empty _ _ _ _ F). cbn [delivering].
  set (s1 := set_tq (Queue [] true) s). assert (F1 : flows ours priv macs true s1 rin rout) by by apply (flows_tq false).
  destruct (flows_write last Hlast ours priv macs true (zeros 12) f s1 rin rout F1) as (iov & s2 & E2 & F2 & Hc & Hu2).
  { apply (zero_header last Hlast), F1. } { done. }
  set (s3 := set_tq (Queue [] false) s2). assert (F3 : flows ours priv macs false s3 rin (rout ++ [(zeros 10, f)])) by by apply (flows_tq true).
  assert (E3 : qemu_net_queue_deliver tq set_tq (tap_deliver last) QEMU_NET_PACKET_FLAG_NONE f s = Done ((Z.of_nat (10 + length f), last_base iov), s3)).
  { unfold qemu_net_queue_deliver. rewrite (bind_done (modify _) _ s tt s1) by (unfold modify, set_delivering; by rewrite (tq_empty _ _ _ _ F)).
    assert (Ed : tap_deliver last QEMU_NET_PACKET_FLAG_NONE f s1 = Done ((Z.of_nat (10 + length f), last_base iov), s2)).
    { unfold tap_deliver. rewrite (bind_done (gets q_tap) _ s1 (q_tap s1) s1 eq_refl). pose proof (fl_tap _ _ _ _ _ _ _ F1) as [T1 T2 _ _ T5 _]. rewrite T1, T2.
      change (truthy _) with false. cbv iota. rewrite (bind_done (tap_receive last f) _ s1 (Z.of_nat (10 + length f), last_base iov) s2).
      - cbn [fst]. destruct (Z.eqb_spec (Z.of_nat (10 + length f)) 0); [lia|]. done.
      - unfold tap_receive, tap_receive_raw. rewrite (bind_done (gets q_tap) _ s1 (q_tap s1) s1 eq_refl). change (using_vnet_hdr (q_tap s1)) with (using_vnet_hdr (q_tap s)).
        rewrite T5, Hu. cbn [Nat.eqb negb andb]. rewrite (bind_done (gets q_tap) _ s1 (q_tap s1) s1 eq_refl), T5. cbn [Nat.eqb app]. unfold hdr_iov.
        by rewrite (bind_done _ _ _ _ _ E2). }
    rewrite (bind_done _ _ _ _ _ Ed). rewrite (bind_done (modify _) _ s2 tt s3) by (unfold modify, set_delivering; by rewrite (tq_empty _ _ _ _ F2)). done. }
  rewrite (bind_done _ _ _ _ _ E3). cbn [fst]. destruct (Z.eqb_spec (Z.of_nat (10 + length f)) 0); [lia|].
  exists (Z.of_nat (10 + length f), last_base iov), s3. split; [|done]. unfold qemu_net_queue_flush. done.
Qed.

Lemma flows_sendv hb f s rin rout : flows ours priv macs false s rin rout -> using_vnet_hdr (q_tap s) = true -> no_card s hb -> pkt_ok ours false (take 10 hb, f) ->
  exists r s', card_sendv_packet_async last [Iov hb 10; Iov f (length f)] true s = Done (r, s') /\ flows ours priv macs false s' rin (rout ++ [(take 10 hb, f)]) /\
    q_card s' = q_card s /\ using_vnet_hdr (q_tap s') = using_vnet_hdr (q_tap s).
Proof.
  intros F Hu Hno Hp. unfold card_sendv_packet_async. rewrite (bind_done (gets q_card) _ s (q_card s) s eq_refl). destruct (fl_card _ _ _ _ _ _ _ F) as (-> & _).
  unfold qemu_net_queue_send_iov. rewrite (bind_done (gets tq) _ s (tq s) s eq_refl), (tq_empty _ _ _ _ F). cbn [delivering].
  set (s1 := set_tq (Queue [] true) s). assert (F1 : flows ours priv macs true s1 rin rout) by by apply (flows_tq false).
  destruct (flows_write last Hlast ours priv macs true hb f s1 rin rout F1 Hno Hp) as (iov & s2 & E2 & F2 & Hc & Hu2).
  set (s3 := set_tq (Queue [] false) s2). assert (F3 : flows ours priv macs false s3 rin (rout ++ [(take 10 hb, f)])) by by apply (flows_tq true).
  assert (E3 : qemu_net_queue_deliver_iov tq set_tq (tap_deliver_iov last) [Iov hb 10; Iov f (length f)] s = Done ((Z.of_nat (10 + length f), iov), s3)).
  { unfold qemu_net_queue_deliver_iov. rewrite (bind_done (modify _) _ s tt s1) by (unfold modify, set_delivering; by rewrite (tq_empty _ _ _ _ F)).
    assert (Ed : tap_deliver_iov last [Iov hb 10; Iov f (length f)] s1 = Done ((Z.of_nat (10 + length f), iov), s2)).
    { unfold tap_deliver_iov. rewrite (bind_done (gets q_tap) _ s1 (q_tap s1) s1 eq_refl). pose proof (fl_tap _ _ _ _ _ _ _ F1) as [T1 T2 _ _ T5 _]. rewrite T1.
      unfold tap_receive_iov. rewrite (bind_done (gets q_tap) _ s1 (q_tap s1) s1 eq_refl). change (using_vnet_hdr (q_tap s1)) with (using_vnet_hdr (q_tap s)).
      rewrite T5, Hu. exact E2. }
    rewrite (bind_done _ _ _ _ _ Ed). rewrite (bind_done (modify _) _ s2 tt s3) by (unfold modify, set_delivering; by rewrite (tq_empty _ _ _ _ F2)). done. }
  rewrite (bind_done _ _ _ _ _ E3). cbn [fst]. destruct (Z.eqb_spec (Z.of_nat (10 + length f)) 0); [lia|].
  exists (Z.of_nat (10 + length f), iov), s3. split; [|done]. unfold qemu_net_queue_flush. done.
Qed.
End Send.

(** ** Any order of events *)

Section Run.
Context `{BC : BlockCipher} (last : bytes) (Hlast : length last = 16%nat).

(** A card set up, nothing on its way: QEMU and the kernel are at the same place of every key
    stream. *)
Record net_ready (s : qemu) : Prop := {
  nr_wf : net_wf s;
  nr_tap : tap_ok false (q_tap s) /\ t_in (q_tap s) = [] /\ t_out (q_tap s) = [];
  nr_card : card_ok (q_card s) /\ card_data (q_card s) = [];
  nr_sync : forall dir, pos_eq (kpos dir s) (upos dir s);
}.

(** Frames of a size the tap can take, and of addresses of this machine or of nobody; a card
    that uses headers sends them, in a piece of their own that does not look like a frame of
    the card. *)
Definition nop_ok (s : qemu) (o : nop) : Prop :=
  match o with
  | WireIn hdr f => pkt_ok (mine s) true (hdr, f)
  | GuestSend f => using_vnet_hdr (q_tap s) = false /\ pkt_ok (mine s) false (zeros 10, f)
  | GuestSendv hb f => using_vnet_hdr (q_tap s) = true /\ no_card s hb /\ pkt_ok (mine s) false (take 10 hb, f)
  | _ => True
  end.

(** What came from the wire, and what the guest sent *)
Definition came (o : nop) : list (bytes * bytes) := match o with WireIn hdr f => [(hdr, f)] | _ => [] end.
Definition sent (o : nop) : list (bytes * bytes) :=
  match o with GuestSend f => [(zeros 10, f)] | GuestSendv hb f => [(take 10 hb, f)] | _ => [] end.

(** After the frames [ins] came and the guest sent [outs] *)
Definition carried (s0 : qemu) (ins outs : list (bytes * bytes)) (rin rout : list (bytes * bytes)) (w : world) : Prop :=
  let u := using_vnet_hdr (q_tap s0) in
  flows (mine s0) (fun mac => forall dir, is_Some (upos dir s0 mac)) (macaddr <$> nics s0) false (w_q w) rin rout /\ using_vnet_hdr (q_tap (w_q w)) = u /\
  exists din dout, ins = din ++ rin /\ outs = dout ++ rout /\ Forall (pkt_ok (mine s0) true) din /\
    card_data (q_card (w_q w)) = view u <$> din /\ w_wire w = snd <$> dout.

Lemma carried_start s : net_ready s -> carried s [] [] [] [] (World s []).
Proof.
  intros [H1 (H2 & H3 & H4) [H5 H6] H7]. split; [|split; [done|by exists [], []]]. split; try done. intros mac. symmetry. apply (H7 false).
Qed.

Lemma no_card_same s s' hb : macaddr <$> nics s' = macaddr <$> nics s -> no_card s hb -> no_card s' hb.
Proof.
  intros E H n Hn. assert (Hm : macaddr n ∈ macaddr <$> nics s) by (rewrite <- E; apply list_elem_of_fmap; eauto).
  apply list_elem_of_fmap in Hm as (m & -> & Hm). by apply H.
Qed.

Lemma on_q_done {A} (m : M qemu A) w a q : m (w_q w) = Done (a, q) -> on_q m w = Done (a, set_wq q w).
Proof. intros E. unfold on_q, zoom. by rewrite E. Qed.

Lemma step_carried o s0 ins outs rin rout w : nop_ok s0 o -> carried s0 ins outs rin rout w ->
  exists w' rin' rout', nstep last o w = Done (tt, w') /\ carried s0 (ins ++ came o) (outs ++ sent o) rin' rout' w' /\
    (o = TapReady -> card_eager (q_card (w_q w)) -> rin' = []) /\ (o = Xmit -> rin' = rin /\ rout' = tail rout).
Proof.
  intros Hop (F & Hu & din & dout & -> & -> & Hok & Hd & Hw). set (u := using_vnet_hdr (q_tap s0)) in *. destruct o as [h f| | |f|hb f|]; cbn [nstep came sent].
  - destruct (flows_wire (mine s0) _ _ false h f (w_q w) rin rout F Hop) as (skb & s1 & E & F1 & Ht & Hc).
    rewrite (bind_done _ _ _ _ _ (on_q_done _ _ _ _ E)). eexists _, (rin ++ [(h, f)]), rout. split; [by apply on_q_done|]. split; [|done].
    split; [exact F1|]. split; [cbn; by rewrite Ht|]. exists din, dout. cbn. rewrite Hc. split_and!; try done; by rewrite ?app_nil_r, <- ?app_assoc.
  - destruct (flows_reads last Hlast (mine s0) _ _ false rin (w_q w) rout F) as (d2 & rin' & s' & -> & E & F' & Hd' & Hu' & He).
    eexists _, rin', rout. split; [apply on_q_done; exact E|]. rewrite !app_nil_r. split; [|by split].
    split; [exact F'|]. split; [by cbn; rewrite Hu'|]. exists (din ++ d2), dout. cbn. rewrite Hd', Hd, Hu, fmap_app.
    split_and!; try done; [by rewrite <- app_assoc|]. apply Forall_app. split; [done|]. pose proof (fl_rin _ _ _ _ _ _ _ F) as Hr. by apply Forall_app in Hr as [? _].
  - assert (Hne : Forall (fun p => np_data p <> []) (packets (cq (w_q w)))).
    { assert (Hall : Forall (fun d => d <> []) (card_data (q_card (w_q w)))).
      { rewrite Hd. apply Forall_fmap. eapply Forall_impl; [exact Hok|]. intros [h f] (_ & [Hl _] & _). intros E%(f_equal length). revert E. unfold compose, view.
        cbn [fst snd] in *. destruct u; rewrite ?length_app; cbn [length]; lia. }
      unfold card_data in Hall. apply Forall_app in Hall as [_ Hall]. by apply (Forall_fmap np_data) in Hall. }
    destruct (card_ready_run (w_q w) (fl_card _ _ _ _ _ _ _ F) Hne) as (c & r & E & Hc & Hcd).
    eexists _, rin, rout. split; [by apply on_q_done|]. rewrite !app_nil_r. split; [|by split]. split.
    + destruct F as [A1 A2 [] A4 A5 A6 A7 A8 A9 A10 A11 A12]. split; try done. by apply net_wf_outer.
    + split; [done|]. exists din, dout. split_and!; try done. cbn. by rewrite Hcd.
  - destruct Hop as [Hu0 Hp]. destruct (flows_send last Hlast (mine s0) _ _ f (w_q w) rin rout F) as (r & s' & E & F' & Hc & Hu'); [by rewrite Hu|done|].
    rewrite (bind_done _ _ _ _ _ (on_q_done _ _ _ _ E)). eexists _, rin, (rout ++ [(zeros 10, f)]). split; [done|]. rewrite app_nil_r. split; [|done].
    split; [exact F'|]. split; [cbn; by rewrite Hu'|]. exists din, dout. cbn. rewrite Hc. split_and!; try done; by rewrite ?app_nil_r, <- ?app_assoc.
  - destruct Hop as (Hu0 & Hno & Hp). destruct (flows_sendv last Hlast (mine s0) _ _ hb f (w_q w) rin rout F) as (r & s' & E & F' & Hc & Hu'); [by rewrite Hu| |done|].
    { apply (no_card_same s0); [apply F|done]. }
    rewrite (bind_done _ _ _ _ _ (on_q_done _ _ _ _ E)). eexists _, rin, (rout ++ [(take 10 hb, f)]). split; [done|]. rewrite app_nil_r. split; [|done].
    split; [exact F'|]. split; [cbn; by rewrite Hu'|]. exists din, dout. cbn. rewrite Hc. split_and!; try done; by rewrite ?app_nil_r, <- ?app_assoc.
  - rewrite (bind_done (on_q (gets q_tap)) _ w (q_tap (w_q w)) w) by (by destruct w). rewrite !app_nil_r. destruct rout as [|[h f] rout].
    + rewrite (fl_out _ _ _ _ _ _ _ F). exists w, rin, []. split; [done|]. split; [|by split]. split; [done|]. split; [done|]. by exists din, dout.
    + destruct (flows_xmit (mine s0) _ _ false h f (w_q w) rin rout F) as (p & l & s' & Eo & E & F' & Hc & Hu'). rewrite Eo, (to_hdr _ _ (fl_tap _ _ _ _ _ _ _ F)).
      rewrite (bind_done _ _ _ _ _ (on_q_done (on_tap _) w tt _ eq_refl)). cbn [w_q set_wq] in *.
      match goal with |- context [bind _ _ ?w1] => rewrite (bind_done _ _ _ _ _ (on_q_done _ w1 _ _ E)) end. eexists _, rin, rout. split; [done|]. split; [|by split].
      split; [exact F'|]. split; [cbn; by rewrite Hu'|]. exists din, (dout ++ [(h, f)]). cbn. rewrite Hc, fmap_app, Hw. split_and!; try done; by rewrite <- ?app_assoc.
Qed.

Lemma run_carried os : forall s0 ins outs rin rout w, Forall (nop_ok s0) os -> carried s0 ins outs rin rout w ->
  exists w' rin' rout', nrun last os w = Done (tt, w') /\ carried s0 (ins ++ (os ≫= came)) (outs ++ (os ≫= sent)) rin' rout' w'.
Proof.
  induction os as [|o os IH]; intros s0 ins outs rin rout w Hok H; [exists w, rin, rout; cbn; by rewrite !app_nil_r|]. apply Forall_cons in Hok as [Ho Hok].
  destruct (step_carried o s0 ins outs rin rout w Ho H) as (w1 & r1 & r2 & E & H1 & _). destruct (IH s0 _ _ _ _ w1 Hok H1) as (w2 & r3 & r4 & E2 & H2).
  exists w2, r3, r4. split; [cbn [nrun]; by rewrite (bind_done _ _ _ _ _ E)|]. cbn. by rewrite !app_assoc.
Qed.

Lemma xmits_carried rout : forall s0 ins outs rin w, carried s0 ins outs rin rout w ->
  exists w', nrun last (replicate (length rout) Xmit) w = Done (tt, w') /\ carried s0 ins outs rin [] w'.
Proof.
  induction rout as [|p rout IH]; intros s0 ins outs rin w H; [by exists w|]. destruct (step_carried Xmit s0 ins outs rin (p :: rout) w I H) as (w1 & r1 & r2 & E & H1 & _ & Hx).
  destruct (Hx eq_refl) as [-> ->]. cbn in H1. rewrite !app_nil_r in H1. destruct (IH s0 ins outs rin w1 H1) as (w2 & E2 & H2).
  exists w2. split; [|done]. cbn [length replicate nrun]. by rewrite (bind_done _ _ _ _ _ E).
Qed.

Lemma advances_none dir P fs mac : advances dir P fs mac <> None -> P mac <> None.
Proof.
  revert P. induction fs as [|f fs IH]; intros P H; [done|]. apply IH in H. unfold advance in H. case_bool_decide; [|done]. by destruct (P mac).
Qed.
End Run.

(** ** A device that is busy *)

Section Busy.
Context `{BC : BlockCipher} (last : bytes) (Hlast : length last = 16%nat).

(** The frame is encrypted before [writev] is asked; its answer does not change that. *)
Lemma crypt_run f s : net_wf s -> (14 <= length f)%nat ->
  exists s', crypt_iovs last [hdr_iov 10; Iov f (length f)] s = Done ([hdr_iov 10; Iov (enc false (upos false s) f) (length f)], s') /\ umoved false f s s'.
Proof.
  intros H Hf. destruct (packet_run last Hlast false f [] s H Hf) as (s1 & E1 & U). rewrite !app_nil_r in E1. exists s1. split; [|done].
  cbn [crypt_iovs hdr_iov iov_len iov_base]. rewrite (bind_done _ _ _ _ _ (header_run last (zeros 12) s (zero_header last Hlast s H))). cbn [fst snd].
  rewrite (bind_done (bind _ _) _ s [Iov (enc false (upos false s) f) (length f)] s1); [done|]. by rewrite (bind_done _ _ _ _ _ E1).
Qed.

(** A tap that is up, uses headers of ten bytes of its own, and whose next write is answered [a] *)
Record tap_up (a : list wanswer) (t : TAPState) : Prop := {
  tu_up : t_link_down t = false;
  tu_on : t_disabled t = false;
  tu_hdr : host_vnet_hdr_len t = 10%nat;
  tu_own : using_vnet_hdr t = false;
  tu_answers : t_answers t = a;
}.

Lemma deliver_run ans a f s : net_wf s -> (14 <= length f)%nat -> tap_up ans (q_tap s) -> writev_loop ans = (a, []) -> a = WOk \/ a = WAgain ->
  exists t s1, tap_deliver last QEMU_NET_PACKET_FLAG_NONE f s
    = Done ((if a is WOk then Z.of_nat (10 + length f) else 0, enc false (upos false s) f), set_tap t s1) /\ umoved false f s s1 /\
    t_out t = t_out (q_tap s) ++ (if a is WOk then [zeros 10 ++ enc false (upos false s) f] else []) /\ t_queue t = t_queue (q_tap s) /\
    tap_up [] (tap_set_disabled false t).
Proof.
  intros H Hf [T1 T2 T3 T4 T5] Hans Ha. destruct (crypt_run f s H Hf) as (s1 & E & U). pose proof (um_tap _ _ _ _ U) as Ht. set (xf := enc false (upos false s) f) in *.
  assert (Hx : length xf = length f) by by apply length_enc. set (iov := [hdr_iov 10; Iov xf (length f)]) in *.
  set (t1 := tap_set_device (t_in (q_tap s)) (t_out (q_tap s) ++ (if a is WOk then [zeros 10 ++ xf] else [])) [] (q_tap s)).
  set (t2 := if a is WOk then t1 else tap_set_disabled true (tap_set_polls (read_poll t1) true t1)). exists t2, s1.
  assert (Ew : tap_write_packet last [hdr_iov 10; Iov f (length f)] s = Done ((if a is WOk then Z.of_nat (10 + length f) else 0, iov), set_tap (if a is WOk then t1 else tap_set_polls (read_poll t1) true t1) s1)).
  { unfold tap_write_packet. rewrite (bind_done _ _ _ _ _ E). rewrite (bind_done (gets q_tap) _ s1 (q_tap s) s1) by (unfold gets; by rewrite Ht). rewrite T5.
    assert (Ed : iov ≫= iov_data = zeros 10 ++ xf) by (cbn; unfold iov_data; cbn [iov_len iov_base]; rewrite app_nil_r; by rewrite (take_ge xf) by lia).
    rewrite Ed, Hans. destruct Ha as [-> | ->]; rewrite (bind_done (on_tap _) _ s1 tt (set_tap t1 s1)) by (unfold on_tap, modify, t1; by rewrite Ht); [|done].
    unfold ret. f_equal. f_equal. f_equal. rewrite length_app. cbn. lia. }
  split.
  { unfold tap_deliver. rewrite (bind_done (gets q_tap) _ s (q_tap s) s eq_refl), T1, T2. change (truthy _) with false. cbv iota.
    rewrite (bind_done (tap_receive last f) _ s (if a is WOk then Z.of_nat (10 + length f) else 0, xf) (set_tap (if a is WOk then t1 else tap_set_polls (read_poll t1) true t1) s1)).
    - cbn [fst]. unfold t2. destruct Ha as [-> | ->]; [|done]. destruct (Z.eqb_spec (Z.of_nat (10 + length f)) 0); [lia|done].
    - unfold tap_receive, tap_receive_raw. rewrite (bind_done (gets q_tap) _ s (q_tap s) s eq_refl), T3, T4. cbn [Nat.eqb negb andb].
      rewrite (bind_done (gets q_tap) _ s (q_tap s) s eq_refl), T3. cbn [Nat.eqb app]. by rewrite (bind_done _ _ _ _ _ Ew). }
  split; [done|]. unfold t2. split; [by destruct a|]. split; [by destruct a|]. destruct Ha as [-> | ->]; by split.
Qed.

Lemma xor_bytes_swap (a b d : bytes) : length a = length d -> length b = length d -> xor_bytes (xor_bytes (xor_bytes d a) b) a = xor_bytes d b.
Proof.
  unfold xor_bytes. revert a b. induction d as [|z d IH]; intros [|x a] [|y b] H1 H2; try done. cbn in *. f_equal; [|apply IH; lia].
  rewrite (Z.lxor_assoc z x y), (Z.lxor_comm x y), <- (Z.lxor_assoc z y x), Z.lxor_assoc, Z.lxor_nilpotent. apply Z.lxor_0_r.
Qed.

Lemma mask_parts d t f : (14 <= length f)%nat ->
  take 14 (mask d t f) = <[13%nat := u8 (Prelude.at_ f 13 + d)]> (take 14 f) /\ drop 14 (mask d t f) = stream_xor (B := ctr_aes) t (drop 14 f) /\
  Prelude.at_ (mask d t f) 13 = u8 (Prelude.at_ f 13 + d).
Proof.
  intros H. assert (Hl : length (<[13%nat := u8 (Prelude.at_ f 13 + d)]> (take 14 f)) = 14%nat) by (rewrite length_insert, length_take; lia).
  unfold mask. split_and!; [by apply take_app_length'|by apply drop_app_length'|]. unfold Prelude.at_ at 1. rewrite lookup_app_l by lia.
  rewrite list_lookup_insert_eq by (rewrite length_take; lia). done.
Qed.

(** Decrypting a frame that was encrypted twice *)
Lemma mask_thrice t t' f : (14 <= length f)%nat -> mask (-1) t (mask 1 t' (mask 1 t f)) = mask 1 t' f.
Proof.
  intros H. assert (H1 : (14 <= length (mask 1 t f))%nat) by by rewrite length_mask. assert (H2 : (14 <= length (mask 1 t' (mask 1 t f)))%nat) by by rewrite !length_mask.
  destruct (mask_parts 1 t f H) as (A1 & A2 & A3), (mask_parts 1 t' (mask 1 t f) H1) as (B1 & B2 & B3).
  unfold mask at 1. rewrite B1, B2, B3, A1, A2, A3, !list_insert_insert_eq. unfold mask. f_equal.
  - f_equal. unfold u8. change (2 ^ 8) with 256. clear. generalize (Prelude.at_ f 13). intros x. Z.div_mod_to_equations. lia.
  - unfold stream_xor. rewrite !length_xor_bytes, !stream_length. rewrite !Nat.min_id. apply xor_bytes_swap; by rewrite stream_length.
Qed.
(** The queue keeps what the tap did not take, as the tap left it. *)
Lemma busy_send f xf ta sa s : c_link_down (q_card s) = false -> tq s = Queue [] false -> t_queue ta = Queue [] true ->
  tap_deliver last QEMU_NET_PACKET_FLAG_NONE f (set_tq (Queue [] true) s) = Done ((0, xf), set_tap ta sa) ->
  card_send_packet_async last f true s = Done ((0, xf), set_tq (Queue [Pkt QEMU_NET_PACKET_FLAG_NONE xf true] false) (set_tap ta sa)).
Proof.
  intros Hc Hq Hta Ea. unfold card_send_packet_async. rewrite (bind_done (gets q_card) _ s (q_card s) s eq_refl), Hc.
  unfold qemu_net_queue_send, qemu_net_queue_deliver, set_delivering.
  rewrite (bind_done (gets tq) _ s (tq s) s eq_refl), Hq. cbn [delivering]. unfold bind, modify. rewrite Hq. cbn [packets]. rewrite Ea. cbn [fst snd Z.eqb].
  unfold qemu_net_queue_append, bind, modify, ret, set_packets. do 2 f_equal. unfold tq. cbn. by rewrite Hta.
Qed.

(** [tap_writable] hands it to the tap again. *)
Lemma writable_run xf yf ta sa tc sc : (0 < length xf)%nat -> t_queue tc = Queue [] true ->
  tap_deliver last QEMU_NET_PACKET_FLAG_NONE xf (set_tap (tap_set_queue (Queue [] true) (tap_set_disabled false (tap_set_polls (read_poll ta) false ta))) sa)
    = Done ((Z.of_nat (10 + length xf), yf), set_tap tc sc) ->
  tap_writable last (set_tq (Queue [Pkt QEMU_NET_PACKET_FLAG_NONE xf true] false) (set_tap ta sa))
    = Done (tt, set_card (card_set_sent (S (c_sent (q_card sc))) (q_card sc)) (set_tq (Queue [] false) (set_tap tc sc))).
Proof.
  intros Hx Hc Ec. set (q1 := set_tq _ _). unfold tap_writable. rewrite (bind_done (tap_write_poll false) _ q1 tt _ eq_refl), (bind_done (on_tap _) _ _ tt _ eq_refl).
  match goal with |- tap_flush last ?q = _ => set (q1b := q) end. unfold tap_flush, qemu_net_queue_flush. rewrite (bind_done (gets tq) _ q1b (tq q1b) q1b eq_refl).
  change (length (packets (tq q1b))) with 1%nat. cbn [flush_loop]. rewrite (bind_done (gets tq) _ q1b (tq q1b) q1b eq_refl).
  change (packets (tq q1b)) with [Pkt QEMU_NET_PACKET_FLAG_NONE xf true]. cbv iota beta. rewrite (bind_done (modify _) _ q1b tt _ eq_refl). cbn [np_flags np_data np_cb].
  match goal with |- bind _ _ ?q = _ => set (q1c := q) end.
  assert (Ed : qemu_net_queue_deliver tq set_tq (tap_deliver last) QEMU_NET_PACKET_FLAG_NONE xf q1c = Done ((Z.of_nat (10 + length xf), yf), set_tq (Queue [] false) (set_tap tc sc))).
  { unfold qemu_net_queue_deliver. rewrite (bind_done (modify _) _ q1c tt _ eq_refl), (bind_done _ _ _ _ _ Ec). rewrite (bind_done (modify _) _ _ tt (set_tq (Queue [] false) (set_tap tc sc))); [done|].
    unfold modify, set_delivering. do 2 f_equal. unfold tq. cbn. by rewrite Hc. }
  rewrite (bind_done _ _ _ _ _ Ed). cbn [fst]. destruct (Z.eqb_spec (Z.of_nat (10 + length xf)) 0); [lia|]. done.
Qed.
End Busy.
