(* ===== verification/NetInit.v ===== *)
(** * Creating a private network card

    [net_init_nic] of QEMU with the encrypt option: two contexts of the library connected to the
    kernel, their ids written to the privnet module, and both activated.  The result is the state
    from which the network is transparent. *)

From S2P Require Import Prelude Text BlkCipher Ctr AesCipher PrivCrypt Kex Driver PrivNet LibPriv Session QemuNet NetPath.

(** ** What the library leaves alone *)

Section Still.
Context `{BC : BlockCipher}.

(** The next file descriptor and the random bytes *)
Definition still {A} (m : M lstate A) : Prop :=
  forall s a s', m s = Done (a, s') -> l_fd s' = l_fd s /\ l_rng s' = l_rng s.

Lemma still_ret {A} (a : A) : still (ret a).
Proof. intros s b s' [= _ <-]. done. Qed.
Lemma still_oops {A} f : still (@oops lstate A f).
Proof. intros s b s' [=]. Qed.
Lemma still_bind {A C} (m : M lstate A) (k : A -> M lstate C) : still m -> (forall a, still (k a)) -> still (bind m k).
Proof.
  intros Hm Hk s a s'. unfold bind. destruct (m s) as [[b s1]|] eqn:E; [|done]. intros E'. destruct (Hm _ _ _ E), (Hk b _ _ _ E'). split; congruence.
Qed.
Lemma still_sys {A} (m : M kstate A) : still (sys m).
Proof. intros s a s'. unfold sys, zoom. destruct (m (l_k s)) as [[b k]|]; [|done]. by intros [= _ <-]. Qed.
Lemma still_malloc : still malloc.
Proof. intros s a s'. unfold malloc. destruct (l_mem s) as [|[] ?]; by intros [= _ <-]. Qed.
Lemma still_free : still free.
Proof. intros s a s' [= _ <-]. done. Qed.
Lemma still_free_region b : still (free_region b).
Proof. intros s a s' [= _ <-]. done. Qed.
End Still.

#[export] Hint Resolve still_ret still_oops still_sys still_malloc still_free still_free_region : lacuna.

(** Go through a program of the library. *)
Ltac still_tac :=
  repeat first
    [ apply still_bind; [|intros ?]
    | progress (auto with lacuna)
    | match goal with |- still (match ?x with _ => _ end) => destruct x eqn:? end ].

Section StillLib.
Context `{BC : BlockCipher} (P : polarssl) (ops : option (@dhm_kex_ops ctr_aes)) (pid : Z).

Lemma still_ioctl fd cmd arg : still (ioctl ops pid fd cmd arg).
Proof. unfold ioctl. still_tac. Qed.
#[local] Hint Resolve still_ioctl : lacuna.

Lemma still_send b msg : still (kern_send_kex_msg ops pid b msg).
Proof. unfold kern_send_kex_msg. still_tac. Qed.
Lemma still_set_iv j b n iv : still (kern_set_iv ops pid j b n iv).
Proof. unfold kern_set_iv. still_tac. Qed.
Lemma still_destroy b : still (kern_destroy ops pid b).
Proof. unfold kern_destroy, close. still_tac. Qed.
Lemma still_process ctx buf : still (polarssl_process_msg P ctx buf).
Proof. unfold polarssl_process_msg, calc_secret. still_tac. Qed.
#[local] Hint Resolve still_send still_set_iv still_destroy still_process : lacuna.

Lemma still_loop junk n b ctx buf : still (kex_loop ops pid n b (polarssl_kex_ops P junk) ctx buf).
Proof. revert ctx buf. induction n as [|n IH]; intros ctx buf; cbn [kex_loop polarssl_kex_ops kx_process_msg]; still_tac. Qed.
#[local] Hint Resolve still_loop : lacuna.

Lemma still_do_kex junk cctx b : pc_kex cctx = Polarssl_kex -> still (do_kex P ops pid junk cctx b).
Proof.
  intros E. unfold do_kex. rewrite E. cbn [kex_ops_of]. apply still_bind.
  - cbn. unfold polarssl_init. still_tac.
  - intros [ctx|]; [|apply still_ret]. apply still_bind; [apply still_loop|]. intros [rc c]. cbn. unfold polarssl_get_key, polarssl_destroy. still_tac.
Qed.
End StillLib.

(** ** A context of QEMU's *)

Section Easy.
Context `{BC : BlockCipher} (P : polarssl) (ops : dhm_kex_ops) (p g x : Z) (prf : prf_fun) {KA : KexAgree P ops p g x prf}.
Context (pid : Z) (junk_u : aesni_state) (junk junk_iv : bytes) (Hj : length junk_iv = MAX_IV_LEN).

(** The library with memory to spare and random bytes, its descriptors fresh *)
Record lib_ok (s : lstate) : Prop := {
  lo_k : kinv (l_k s);
  lo_roomy : roomy (l_k s);
  lo_mem : l_mem s = [];
  lo_rng : bytes_ok (l_rng s);
  lo_fds : forall fd, (l_fd s <= fd)%nat -> k_files (l_k s) !! fd = None;
}.

Lemma bind_shift {S A C} (m m' : M S A) (k : A -> M S C) s s' : m s = m' s' -> bind m k s = bind m' k s'.
Proof. unfold bind. by intros ->. Qed.

Lemma new_backend_fd cctx s r s' : created cctx -> l_mem s = [] -> priv_new_backend P (Some ops) pid junk junk_iv cctx s = Done (r, s') ->
  l_fd s' = S (l_fd s) /\ l_rng s' = l_rng s.
Proof.
  intros Hc Hm. set (fd := l_fd s). set (KI := let! id := priv_cmd_new_ctx (Some ops) pid fd cctx in
    if id <? 0 then close fd ;; free ;; ret (- PRIV_CRYPT_SOME_ERR, None) else ret (0, Some (KernBackend fd id))).
  assert (Ek : exists s2, kern_init (Some ops) pid cctx s = KI s2 /\ l_fd s2 = S fd /\ l_rng s2 = l_rng s).
  { unfold kern_init, open. unfold bind at 1, malloc at 1. rewrite Hm. cbn [negb]. unfold bind at 1 2, malloc at 1. cbn [l_mem drop negb]. eexists. split; [reflexivity|]. done. }
  destruct Ek as (s2 & Ek & E2 & E3). unfold priv_new_backend. rewrite (bind_shift _ KI _ s s2 Ek).
  rewrite <- E2, <- E3. revert s2 r s' Ek E2 E3. enough (St : forall K : Z * option kern_backend -> M lstate (Z * priv_cctx), (forall a, still (K a)) -> still (bind KI K)).
  { intros s2 r' s'' _ _ _. apply St. intros [rc [b|]]; [|apply still_ret]. apply still_bind; [apply still_do_kex, Hc|].
    intros [rc' c]. destruct (rc' <? 0); [apply still_bind; [apply still_destroy|intros; apply still_ret]|]. apply still_bind; [apply still_set_iv|].
    intros rc2. destruct (rc2 <? 0); [apply still_bind; [apply still_destroy|intros; apply still_ret]|apply still_ret]. }
  intros K HK. apply still_bind; [|exact HK]. apply still_bind; [unfold priv_cmd_new_ctx; apply still_bind; [apply still_ioctl|intros; apply still_ret]|].
  intros id. unfold close. still_tac.
Qed.

(** What a call of [priv_easy_create] does: a new kernel context at [q] that nobody uses, in step
    with the library's; or none. *)
Definition new_chan (q : nat) (s s' : lstate) (c : priv_cctx) : Prop :=
  in_sync c q (l_k s') /\ k_ctxs (l_k s) !! q = None /\
  (exists y, k_ctxs (l_k s') = <[q := y]> (k_ctxs (l_k s)) /\ cc_user_ref y = None /\ cc_activated y = 0) /\
  k_files (l_k s') = <[l_fd s := Some q]> (k_files (l_k s)) /\ (l_fd s < l_fd s')%nat.

Definition easy_post (s : lstate) (r : Z * option priv_cctx) (s' : lstate) : Prop :=
  lib_ok s' /\ k_refs (l_k s') = k_refs (l_k s) /\ k_id (l_k s') = k_id (l_k s) + 1 /\ k_brk (l_k s') = S (k_brk (l_k s)) /\
  ((exists c, r = (0, Some c) /\ new_chan (k_brk (l_k s)) s s' c) \/
   fst r < 0 /\ snd r = None /\ k_ctxs (l_k s') = k_ctxs (l_k s) /\ k_files (l_k s') = k_files (l_k s)).

Lemma easy_create_ok dir s : lib_ok s -> k_id (l_k s) < 2 ^ 31 - 1 ->
  wp total (priv_easy_create P (Some ops) pid junk_u junk junk_iv dir) (easy_post s) s.
Proof.
  intros [H1 H2 H3 H4 H5] Hid. unfold priv_easy_create. wp_bind.
  wp_use priv_create_cctx_created; [done|done|by left|done|]. intros r s1 (Ek & Em & Ef & Er & cctx & -> & Hc & Hks).
  set (c1 := if dir then cctx else snd (priv_set_option cctx PRIV_OPTION_DIR_DEC)).
  assert (Hc1 : created c1) by (unfold c1; destruct dir; [done|]; destruct Hc; split; try done; by right).
  assert (E1 : (if dir then (0, cctx) else priv_set_option cctx PRIV_OPTION_DIR_DEC) = (0, c1)) by (unfold c1; by destruct dir).
  rewrite E1. change (0 <? 0) with false. cbv iota. wp_bind. assert (Hfd : k_files (l_k s1) !! l_fd s1 = None) by (rewrite Ek, Ef; by apply H5).
  pose proof (new_backend_full P ops p g x prf pid junk junk_iv c1 s1 Hc1 ltac:(by rewrite Ek) ltac:(by rewrite Ek) Em ltac:(by rewrite Ek) Hfd Hj) as Hn.
  apply wp_elim in Hn as ([rc c2] & s2 & E2 & (K2 & R2 & M2 & F2 & I2 & B2) & Hcase). cbn [fst snd] in Hcase. rewrite Ek in F2, I2, B2.
  destruct (new_backend_fd c1 s1 _ _ Hc1 Em E2) as [Fd Rng]. eapply wp_done; [exact E2|]. cbn [fst snd].
  assert (Hrng : bytes_ok (l_rng s2)) by (rewrite Rng, Er; by apply Forall_drop).
  destruct Hcase as [(-> & Hs & _ & Hq & (y & Hy & Hu & Ha) & Hfs)|(Hneg & Hb & Hcs & Hfs)].
  - change (0 <? 0) with false. cbv iota. wp_pure. rewrite Ek in Hs, Hq, Hy, Hfs. rewrite Ef in Fd, Hfs. unfold easy_post. split.
    { split; try done. intros fd Hle. rewrite Hfs, lookup_insert_ne by lia. apply H5. lia. }
    split_and!; try done. left. exists c2. split; [done|]. split_and!; try done; [eauto|lia].
  - replace (rc <? 0) with true by (clear - Hneg; lia). wp_bind. unfold priv_destroy_cctx. rewrite Hb. wp_bind. wp_pure.
    assert (Hd : exists l, priv_aesni_destroy (pc_user c2) s2 = Done (tt, l) /\ l_k l = l_k s2 /\ l_mem l = l_mem s2 /\ l_rng l = l_rng s2 /\ l_fd l = l_fd s2)
      by (unfold priv_aesni_destroy; destruct (pc_user c2); eexists; by split_and!).
    destruct Hd as (l & -> & D1 & D2 & D3 & D4). rewrite Ek in Hcs, Hfs. unfold easy_post. rewrite D1. split.
    { split; rewrite ?D1, ?D2, ?D3, ?D4; try done. intros fd Hle. rewrite Hfs. apply H5. rewrite Fd, Ef in Hle. lia. }
    split_and!; try done. right. by split_and!.
Qed.
End Easy.

(** ** What adding an address leaves alone *)

Section AddFrame.
Context {B : BlkCipher} {L : StreamCipher B}.

(** A context up to the reference that uses it *)
Definition like (c c' : priv_crypt_ctx) : Prop := exists lock ref, c' = upd_user lock ref c.

Record linked_only (s s' : kstate) : Prop := {
  lk_files : k_files s' = k_files s;
  lk_id : k_id s' = k_id s;
  lk_mem : k_mem s' = k_mem s;
  lk_ctxs : forall p c, k_ctxs s !! p = Some c -> exists c', k_ctxs s' !! p = Some c' /\ like c c';
  lk_dom : forall p, k_ctxs s !! p = None -> k_ctxs s' !! p = None;
}.

Lemma like_refl c : like c c.
Proof. exists (cc_user_lock c), (cc_user_ref c). by destruct c. Qed.
Lemma like_trans c1 c2 c3 : like c1 c2 -> like c2 c3 -> like c1 c3.
Proof. intros (l & r & ->) (l' & r' & ->). by exists l', r'. Qed.

Lemma linked_only_refl s : linked_only s s.
Proof. split; try done. intros p c Hp. eauto using like_refl. Qed.
Lemma linked_only_trans s1 s2 s3 : linked_only s1 s2 -> linked_only s2 s3 -> linked_only s1 s3.
Proof.
  intros [A1 A2 A3 A4 A5] [B1 B2 B3 B4 B5]. split; try congruence; [|auto].
  intros p c Hp. destruct (A4 p c Hp) as (c2 & H2 & L2). destruct (B4 p c2 H2) as (c3 & H3 & L3). eauto using like_trans.
Qed.
(** A change of references, of the free store and of the next address *)
Lemma linked_only_same s s' : k_files s' = k_files s -> k_id s' = k_id s -> k_mem s' = k_mem s -> k_ctxs s' = k_ctxs s -> linked_only s s'.
Proof. intros E1 E2 E3 E4. split; try done; rewrite E4; [|done]. intros p c Hp. eauto using like_refl. Qed.
Lemma linked_only_put p c lock ref s refs : k_ctxs s !! p = Some c -> linked_only s (set_refs refs (put p (upd_user lock ref c) s)).
Proof.
  intros Hp. split; try done; cbn.
  - intros q d Hq. destruct (decide (q = p)) as [-> |Hn].
    + rewrite lookup_insert_eq. assert (d = c) as -> by congruence. eexists. split; [done|]. by exists lock, ref.
    + rewrite lookup_insert_ne by done. eauto using like_refl.
  - intros q Hq. rewrite lookup_insert_ne; [done|]. congruence.
Qed.

Lemma use_ctx_keeps id r s : kinv s -> k_refs s !! r = Some None ->
  exists rc s', use_ctx id (Some r) s = Done (rc, s') /\ kinv s' /\ linked_only s s' /\ (forall r', r' <> r -> k_refs s' !! r' = k_refs s !! r') /\
    (0 <= rc -> exists p, k_refs s' !! r = Some (Some p)).
Proof.
  intros H Hr. destruct (use_ctx_run id r s H Hr) as (rc & s' & E & H' & Hc). exists rc, s'. split; [done|]. split; [done|].
  destruct Hc as [(p & c & Hp & _ & [(_ & -> & ->)|(_ & -> & ->)])|(_ & -> & ->)].
  - split; [by apply linked_only_put|]. split; [intros r' Hn; cbn; by rewrite lookup_insert_ne|]. intros _. exists p. apply lookup_insert_eq.
  - split; [apply linked_only_refl|]. split; [done|]. unfold EBUSY. lia.
  - split; [apply linked_only_refl|]. split; [done|]. unfold ENODEV. lia.
Qed.

Lemma setup_node_keeps n s : kinv s -> k_refs s !! mr_in_ref n = None -> k_refs s !! mr_out_ref n = None -> mr_in_ref n <> mr_out_ref n ->
  exists rc s', setup_node n s = Done (rc, s') /\ linked_only s s' /\ forall r, r <> mr_in_ref n -> r <> mr_out_ref n -> k_refs s' !! r = k_refs s !! r.
Proof.
  intros H H1 H2 Hne. unfold setup_node, bind at 1 2, cctx_ref_init, modify.
  set (s1 := set_refs (<[mr_in_ref n := None]> (k_refs s)) s). set (s2 := set_refs (<[mr_out_ref n := None]> (k_refs s1)) s1).
  assert (K1 : kinv s1) by by apply kinv_ref_init. assert (K2 : kinv s2) by (apply kinv_ref_init; [done|]; cbn; by rewrite lookup_insert_ne).
  assert (L2 : linked_only s s2) by by apply linked_only_same.
  assert (R0 : forall r, r <> mr_in_ref n -> r <> mr_out_ref n -> k_refs s2 !! r = k_refs s !! r) by (intros r N1 N2; cbn; by rewrite !lookup_insert_ne).
  destruct (use_ctx_keeps (mr_in n) (mr_in_ref n) s2 K2) as (rc & s3 & E3 & K3 & L3 & R3 & P3).
  { cbn. by rewrite lookup_insert_ne, lookup_insert_eq. }
  rewrite (bind_done _ _ _ _ _ E3). destruct (Z.ltb_spec rc 0).
  { eexists _, _. split; [done|]. split; [by eapply linked_only_trans|]. intros r N1 N2. rewrite R3 by done. by apply R0. }
  destruct (P3 ltac:(lia)) as [p Hp]. destruct (use_ctx_keeps (mr_out n) (mr_out_ref n) s3 K3) as (rc' & s4 & E4 & K4 & L4 & R4 & _).
  { rewrite R3 by done. apply lookup_insert_eq. }
  rewrite (bind_done _ _ _ _ _ E4). assert (LL : linked_only s s4) by (eapply linked_only_trans; [exact L2|by eapply linked_only_trans]).
  assert (R : forall r, r <> mr_in_ref n -> r <> mr_out_ref n -> k_refs s4 !! r = k_refs s !! r) by (intros r N1 N2; rewrite R4, R3 by done; by apply R0).
  destruct (rc' <? 0); [|by eexists _, _]. assert (Hp4 : k_refs s4 !! mr_in_ref n = Some (Some p)) by by rewrite R4.
  destruct (ki_back _ K4 _ _ Hp4) as (c & Hc & _). rewrite (bind_done _ _ _ _ _ (unuse_ctx_run p _ c s4 Hp4 Hc)). eexists _, _. split; [done|].
  split; [eapply linked_only_trans; [exact LL|]; apply (linked_only_put p c false None s4 (k_refs s4) Hc)|exact R].
Qed.

(** With memory, adding an address returns, and touches no reference there was. *)
Definition added_frame (s s' : kstate) : Prop := linked_only s s' /\ forall r, is_Some (k_refs s !! r) -> k_refs s' !! r = k_refs s !! r.

Lemma new_refs_keeps i o s : kinv s -> refs_below s -> k_mem s = [] -> wp total (new_refs i o) (fun _ s' => added_frame s s') s.
Proof.
  intros H Hb Hm. unfold new_refs. wp_bind. eapply wp_done; [unfold kmalloc; by rewrite Hm|]. unfold fresh. wp_bind. unfold wp at 1. wp_bind. unfold wp at 1. wp_bind.
  cbn [k_brk set_brk set_live]. set (r1 := k_brk s). set (s2 := set_brk _ (set_brk _ (set_live _ s))). set (n := Refs i r1 o (S r1)).
  assert (K2 : kinv s2). { pose proof H as []. split; cbn; auto. intros q Hq. specialize (ki_brk q Hq). lia. }
  assert (Fresh : forall r, (r1 <= r)%nat -> k_refs s !! r = None).
  { intros r Hr. destruct (k_refs s !! r) eqn:E; [|done]. assert (r < k_brk s)%nat by (apply Hb; eauto). unfold r1 in Hr. lia. }
  assert (L2 : linked_only s s2) by by apply linked_only_same.
  destruct (setup_node_keeps n s2 K2) as (rc & s3 & E3 & L3 & R3); [apply (Fresh r1); lia|apply (Fresh (S r1)); lia|cbn; lia|].
  assert (Old : forall r, is_Some (k_refs s !! r) -> r <> r1 /\ r <> S r1) by (intros r Hr; apply Hb in Hr; unfold r1; lia).
  eapply wp_done; [exact E3|]. pose proof (linked_only_trans _ _ _ L2 L3) as L4. destruct (rc <? 0).
  - unfold free_refs, kfree, free_ref. wp_pure. split; [eapply linked_only_trans; [exact L4|]; by apply linked_only_same|].
    intros r Hr. destruct (Old r Hr) as [N1 N2]. cbn. rewrite !lookup_delete_ne by done. by rewrite R3.
  - wp_pure. split; [done|]. intros r Hr. destruct (Old r Hr) as [N1 N2]. by rewrite R3.
Qed.

Lemma added_frame_trans s1 s2 s3 : added_frame s1 s2 -> added_frame s2 s3 -> added_frame s1 s3.
Proof. intros [A1 A2] [B1 B2]. split; [by eapply linked_only_trans|]. intros r Hr. rewrite B2, A2; [done|done|]. by rewrite A2. Qed.

Lemma add_mac_keeps mac i o t s : bytes_ok mac -> mac <> [] -> wf (length mac) t -> kinv s -> refs_below s -> k_mem s = [] ->
  wp total (add_mac_at mac i o t) (fun _ s' => added_frame s s') s.
Proof.
  intros Hok Hne. revert t s. induction Hok as [|b mac Hb Hok IH]; intros t s Hw H Hr Hm; [done|].
  destruct t as [|l]; [done|]. destruct mac as [|b' mac].
  - cbn [add_mac_at]. destruct (child l b) as [c|] eqn:Ec; [wp_pure; split; [apply linked_only_refl|done]|].
    wp_bind. wp_use new_refs_keeps; [done..|]. intros [rc [n|]] s' F; by wp_pure.
  - cbn [add_mac_at]. wp_bind. destruct (child l b) as [c|] eqn:Ec.
    + wp_pure. apply wp_bind. destruct Hw as [_ Hw]. wp_use (IH ltac:(done) c s); [by eapply Hw|done..|]. intros r s' F. by wp_pure.
    + unfold alloc_mac_tree_node. wp_bind. eapply wp_done; [unfold kmalloc; by rewrite Hm|]. eapply wp_done; [done|]. apply wp_bind. set (s1 := set_live _ s).
      assert (F1 : added_frame s s1) by (split; [by apply linked_only_same|done]).
      wp_use (IH ltac:(done) (MNode (replicate 256 None)) s1); [apply wf_empty|by apply (kinv_core s)|done|done|]. intros r s' F. wp_pure. by eapply added_frame_trans.
Qed.
End AddFrame.

(** ** The steps of [priv_nic_init] *)

Section Steps.
Context `{BC : BlockCipher} (P : polarssl) (ops : dhm_kex_ops) (pid : Z).

Lemma in_lib_run {A} (m : M lstate A) s a l : m (q_lib s) = Done (a, l) -> in_lib m s = Done (a, set_lib l s).
Proof. intros E. unfold in_lib, zoom. by rewrite E. Qed.

Lemma in_kernel_run {A} (m : M nstate A) s a n : m (ns s) = Done (a, n) -> in_kernel m s = Done (a, set_ns n s).
Proof. intros E. unfold in_kernel, zoom. by rewrite E. Qed.

(** The text of a card is read as its address and its ids. *)
Lemma nic_text_store mac i o s : mac_ok mac -> 0 <= i < 2 ^ 32 -> 0 <= o < 2 ^ 32 ->
  privnet_store attr_add_mac (nic_text mac i o) s =
  (let! rc := privnet_add_mac mac i o in if rc <? 0 then ret rc else ret (Z.of_nat (length (nic_text mac i o)))) (set_mac_buff mac s).
Proof.
  intros Hm Hi Ho. set (rest := 58 :: sprintf_X i ++ 44 :: sprintf_X o). destruct (mac_text_read mac rest Hm) as [Hl Hr].
  assert (Et : nic_text mac i o = mac_text mac ++ rest).
  { destruct Hm as [Hn _]. destruct mac as [|b0 [|b1 [|b2 [|b3 [|b4 [|b5 [|]]]]]]]; done. }
  unfold privnet_store. rewrite Et, Hr. pose proof (sprintf_X_pos i). pose proof (sprintf_X_pos o).
  assert (Hlen : (21 <= length (mac_text mac ++ rest))%nat) by (unfold rest; rewrite length_app, Hl; simpl; rewrite length_app; simpl; lia).
  replace (Z.of_nat (length (mac_text mac ++ rest)) <? 17) with false by lia. replace (Z.of_nat (length (mac_text mac ++ rest)) <? 21) with false by lia.
  assert (E : drop 18 (mac_text mac ++ rest) = sprintf_X i ++ 44 :: sprintf_X o).
  { replace 18%nat with (length (mac_text mac) + 1)%nat by lia. by rewrite <- drop_drop, drop_app_length. }
  rewrite E, hex_loop_X by done. change (drop 1 (44 :: sprintf_X o)) with (sprintf_X o).
  pose proof (hex_loop_X o [] Ho eq_refl) as Hx. rewrite app_nil_r in Hx. by rewrite Hx.
Qed.

(** With memory, an address is added or refused. *)
Definition put_in (mac : bytes) (i o : Z) (s s' : nstate) : Prop :=
  exists e, linked_to (mr_in_ref e) i (n_k s') /\ linked_to (mr_out_ref e) o (n_k s') /\
    forall m, mac_ok m -> entry s' m = if decide (m = mac) then Some e else entry s m.
Definition same_entries (s s' : nstate) : Prop :=
  (forall m, mac_ok m -> entry s' m = entry s m) /\ k_refs (n_k s') = k_refs (n_k s).

Lemma add_mac_run mac i o s : ninv s -> mac_ok mac -> k_mem (n_k s) = [] ->
  exists rc s', privnet_add_mac mac i o s = Done (rc, s') /\ ninv s' /\ added_frame (n_k s) (n_k s') /\
    (is_Some (entry s mac) -> rc < 0) /\ (rc < 0 /\ same_entries s s' \/ rc = 0 /\ put_in mac i o s s').
Proof.
  intros H Hm Hmem. pose proof (privnet_add_mac_spec mac i o s H Hm) as Hs. destruct (Hm) as [Hl Hb].
  pose proof (add_mac_keeps mac i o (n_root s) (n_k s) Hb ltac:(by intros ->) ltac:(rewrite Hl; apply H) (ni_k _ H) (ni_below _ H) Hmem) as Hf.
  apply wp_elim in Hf as ([rc t] & k & E & F).
  assert (E' : privnet_add_mac mac i o s = Done (rc, set_root t (set_nk k s))).
  { unfold privnet_add_mac, bind, gets, nkern, zoom. by rewrite E. }
  rewrite E' in Hs. destruct Hs as (I & Hbusy & Hc). exists rc, (set_root t (set_nk k s)). split_and!; try done.
  intros He. rewrite (Hbusy He). done.
Qed.

Lemma ninv_buff b s : ninv s -> ninv (set_mac_buff b s).
Proof. intros []. by split. Qed.

Lemma ninv_kernel s s' : ninv s -> n_root s' = n_root s -> kinv (n_k s') -> k_refs (n_k s') = k_refs (n_k s) -> (k_brk (n_k s) <= k_brk (n_k s'))%nat -> ninv s'.
Proof.
  intros [A1 A2 A3 A4 A5] Er Hk Ef Hb. assert (En : forall m, entry s' m = entry s m) by (intros m; unfold entry; by rewrite Er).
  split; [done| |by rewrite Er| |].
  - intros r Hr. rewrite Ef in Hr. apply A2 in Hr. lia.
  - intros m n Hm. rewrite En, Ef. by apply A4.
  - intros m m' n n' Hm Hm' Hd. rewrite !En. by apply A5.
Qed.

(** [priv_nic_register] with both contexts in place *)
Lemma register_run i n c1 c2 b1 b2 s : ninv (ns s) -> k_mem (kst s) = [] -> nd_table s !! i = Some n -> mac_ok (macaddr n) ->
  nd_cctx_in n = Some c1 -> nd_cctx_out n = Some c2 -> pc_backend c1 = BKern b1 -> pc_backend c2 = BKern b2 ->
  0 <= kb_id b1 < 2 ^ 32 -> 0 <= kb_id b2 < 2 ^ 32 ->
  exists rc t, priv_nic_register i s = Done (rc, set_ns t s) /\ ninv t /\ added_frame (kst s) (n_k t) /\
    (rc = -1 /\ same_entries (ns s) t \/ rc = 0 /\ entry (ns s) (macaddr n) = None /\ put_in (macaddr n) (kb_id b1) (kb_id b2) (ns s) t).
Proof.
  intros H Hmem Hn Hm E1 E2 B1 B2 R1 R2. unfold priv_nic_register. rewrite (bind_done (gets q_mod) _ s (q_mod s) s eq_refl).
  destruct (nm_loaded (q_mod s)) eqn:El; cbn [negb].
  2: { exists (-1), (ns s). rewrite set_ns_id. split_and!; try done; [split; [apply linked_only_refl|done]|]. left. by split_and!. }
  assert (Hid : forall c b, pc_backend c = BKern b -> in_lib (LibPriv.priv_get_id c (Some 0)) s = Done ((0, Some (kb_id b)), s)).
  { intros c b Hb. unfold LibPriv.priv_get_id, get_backend, in_lib, zoom, bind. rewrite Hb. by destruct s. }
  assert (C1 : ni_cctx i true s = Done (c1, s)) by (unfold ni_cctx, get, bind; rewrite Hn; cbn; by rewrite E1).
  assert (C2 : ni_cctx i false s = Done (c2, s)) by (unfold ni_cctx, get, bind; rewrite Hn; cbn; by rewrite E2).
  rewrite (bind_done _ _ _ _ _ C1), (bind_done _ _ _ _ _ (Hid c1 b1 B1)). change (0 <? 0) with false. cbv iota beta.
  rewrite (bind_done _ _ _ _ _ C2), (bind_done _ _ _ _ _ (Hid c2 b2 B2)). change (0 <? 0) with false. cbv iota beta.
  assert (Cm : ni_mac i s = Done (macaddr n, s)) by (unfold ni_mac, get, bind; by rewrite Hn). rewrite (bind_done _ _ _ _ _ Cm).
  set (mac := macaddr n) in *. set (s0 := set_mac_buff mac (ns s)).
  destruct (add_mac_run mac (kb_id b1) (kb_id b2) s0 (ninv_buff _ _ H) Hm Hmem) as (rc & t & Ea & It & Ft & Hbusy & Hc).
  set (text := nic_text mac (kb_id b1) (kb_id b2)). set (out := if rc <? 0 then rc else Z.of_nat (length text)).
  assert (Es : privnet_store attr_add_mac text (ns s) = Done (out, t)).
  { unfold text. rewrite nic_text_store by done. fold text s0. unfold bind. rewrite Ea. unfold out. by destruct (rc <? 0). }
  rewrite (bind_done _ _ _ _ _ (in_kernel_run _ _ _ _ Es)). eexists _, t. split; [done|]. split; [done|]. split; [exact Ft|].
  destruct Hc as [[Hneg Hs]|[-> Hp]].
  - left. split; [|exact Hs]. unfold out. replace (rc <? 0) with true by (clear - Hneg; lia). destruct (Z.eqb_spec rc (Z.of_nat (length text))); [lia|done].
  - right. unfold out. change (0 <? 0) with false. cbv iota. rewrite Z.eqb_refl. split_and!; [done| |exact Hp].
    destruct (entry (ns s) mac) eqn:E; [|done]. exfalso. apply (Z.lt_irrefl 0), Hbusy. exists m. exact E.
Qed.

(** [priv_activate] *)
Lemma activate_run c b q y l : kinv (l_k l) -> pc_backend c = BKern b -> k_files (l_k l) !! kb_fd b = Some (Some q) -> k_ctxs (l_k l) !! q = Some y ->
  priv_activate (Some ops) pid c l = Done (0, set_lk (put q (upd_activated 1 y) (l_k l)) l).
Proof. apply set_active_run. Qed.
End Steps.

(** ** [priv_nic_init] *)

Section NicInit.
Context `{BC : BlockCipher} (P : polarssl) (ops : dhm_kex_ops) (p g x : Z) (prf : prf_fun) {KA : KexAgree P ops p g x prf}.
Context (pid : Z) (junk_u : aesni_state) (junk junk_iv : bytes) (Hj : length junk_iv = MAX_IV_LEN).

(** The parts of QEMU's state the creation of a card changes *)
Definition st (l : lstate) (m : netmod) (t : list NICInfo) (s : qemu) : qemu := Qemu l m t (nb_nics s) (mac_index s) (q_tap s) (q_card s).

(** What it keeps of the kernel's *)
Record kept (s s' : qemu) : Prop := {
  kp_lib : lib_ok (q_lib s');
  kp_inv : ninv (ns s');
  kp_refs : forall r, is_Some (k_refs (kst s) !! r) -> k_refs (kst s') !! r = k_refs (kst s) !! r;
  kp_ctxs : forall q c, k_ctxs (kst s) !! q = Some c -> exists c', k_ctxs (kst s') !! q = Some c' /\ like c c';
  kp_id : k_id (kst s') <= k_id (kst s) + 2;
  kp_mod : nm_loaded (q_mod s') = nm_loaded (q_mod s);
  kp_rest : nb_nics s' = nb_nics s /\ mac_index s' = mac_index s /\ q_tap s' = q_tap s /\ q_card s' = q_card s;
}.

(** A card that was not created leaves nothing behind. *)
Record undone (s s' : qemu) : Prop := {
  ud_kept : kept s s';
  ud_table : nd_table s' = nd_table s;
  ud_entries : same_entries (ns s) (ns s');
  ud_dom : forall q, k_ctxs (kst s) !! q = None -> k_ctxs (kst s') !! q = None;
}.

(** A card that was: an active context of the kernel at the same place as the library's, behind
    the entry of the address *)
Definition paired (dir : bool) (s : qemu) (mac : bytes) (c : priv_cctx) : Prop :=
  exists e q y u, entry (ns s) mac = Some e /\ k_refs (kst s) !! ref_of dir e = Some (Some q) /\ k_ctxs (kst s) !! q = Some y /\
    cc_activated y <> 0 /\ cc_cipher y = Some (CtrTfm (as_key u) (as_iv u)) /\ pc_user c = Some u /\ iv_ok (as_iv u).

Record created_nic (i : nat) (n : NICInfo) (s s' : qemu) : Prop := {
  cn_kept : kept s s';
  cn_new : entry (ns s) (macaddr n) = None;
  cn_entries : forall m, mac_ok m -> m <> macaddr n -> entry (ns s') m = entry (ns s) m;
  cn_paired : exists c1 c2, nd_table s' = <[i := Nic (macaddr n) (used n) (Some c1) (Some c2)]> (nd_table s) /\
    paired true s' (macaddr n) c1 /\ paired false s' (macaddr n) c2;
}.

(** A context of the library and its idle one in the kernel *)
Definition holds (c : priv_cctx) (q : nat) (l : lstate) : Prop :=
  exists b y, pc_backend c = BKern b /\ k_files (l_k l) !! kb_fd b = Some (Some q) /\ k_ctxs (l_k l) !! q = Some y /\ cc_user_ref y = None.

Lemma destroy_run c q l : lib_ok l -> holds c q l ->
  exists l', priv_destroy_cctx (Some ops) pid c l = Done (tt, l') /\ lib_ok l' /\ k_ctxs (l_k l') = delete q (k_ctxs (l_k l)) /\
    (exists b, pc_backend c = BKern b /\ k_files (l_k l') = delete (kb_fd b) (k_files (l_k l))) /\
    k_refs (l_k l') = k_refs (l_k l) /\ k_id (l_k l') = k_id (l_k l) /\ k_brk (l_k l') = k_brk (l_k l).
Proof.
  intros [H1 H2 H3 H4 H5] (b & y & Hb & Hf & Hq & Hu). pose proof (kern_destroy_agree ops pid b q y l H1 Hf Hq) as Hd.
  apply wp_elim in Hd as ([] & l1 & E & K1 & C1 & F1 & R1 & I1 & B1 & M1 & L1). destruct (still_destroy (Some ops) pid b l tt l1 E) as [Fd Rn].
  assert (Hd : exists l', priv_aesni_destroy (pc_user c) l1 = Done (tt, l') /\ l_k l' = l_k l1 /\ l_mem l' = l_mem l1 /\ l_rng l' = l_rng l1 /\ l_fd l' = l_fd l1)
    by (unfold priv_aesni_destroy; destruct (pc_user c); eexists; by split_and!).
  destruct Hd as (l' & E' & D1 & D2 & D3 & D4). exists l'. unfold priv_destroy_cctx. rewrite Hb. rewrite (bind_done _ _ _ _ _ E), E', D1.
  unfold unref in R1. rewrite Hu in R1. split_and!; try done; [|by exists b]. split; rewrite ?D1, ?D2, ?D3, ?D4; try done; [|congruence|congruence|].
  - unfold roomy in *. congruence.
  - intros fd Hle. rewrite F1, lookup_delete_None. right. apply H5. lia.
Qed.

Lemma ni_cctx_run i n dir c s : nd_table s !! i = Some n -> nic_cctx dir n = Some c -> ni_cctx i dir s = Done (c, s).
Proof. intros Hn Hc. unfold ni_cctx, get, bind. rewrite Hn. cbn. by rewrite Hc. Qed.

(** The second exit of [priv_nic_init]: destroy one context. *)
Definition drop_one (i : nat) (dir : bool) : M qemu unit :=
  let! c := ni_cctx i dir in in_lib (priv_destroy_cctx (Some ops) pid c) ;; store_cctx i dir None.

Lemma drop_run i n dir c q s : nd_table s !! i = Some n -> nic_cctx dir n = Some c -> lib_ok (q_lib s) -> holds c q (q_lib s) ->
  exists l', drop_one i dir s = Done (tt, st l' (q_mod s) (<[i := nic_set_cctx dir None n]> (nd_table s)) s) /\ lib_ok l' /\
    k_ctxs (l_k l') = delete q (k_ctxs (kst s)) /\ (exists b, pc_backend c = BKern b /\ k_files (l_k l') = delete (kb_fd b) (k_files (kst s))) /\
    k_refs (l_k l') = k_refs (kst s) /\ k_id (l_k l') = k_id (kst s) /\ k_brk (l_k l') = k_brk (kst s).
Proof.
  intros Hn Hc Hl Hh. destruct (destroy_run c q (q_lib s) Hl Hh) as (l' & E & R). exists l'. split; [|exact R].
  unfold drop_one. rewrite (bind_done _ _ _ _ _ (ni_cctx_run _ _ _ _ _ Hn Hc)), (bind_done _ _ _ _ _ (in_lib_run _ _ _ _ E)).
  unfold store_cctx, modify, set_nics, set_lib, st. cbn. by rewrite (alter_as_insert _ _ _ _ Hn).
Qed.

(** The third: destroy both. *)
Lemma drop_both i n c1 c2 q1 q2 (rc : Z) s : nd_table s !! i = Some n -> nd_cctx_in n = Some c1 -> nd_cctx_out n = Some c2 ->
  lib_ok (q_lib s) -> holds c1 q1 (q_lib s) -> holds c2 q2 (q_lib s) -> q1 <> q2 ->
  exists l', (drop_one i false ;; drop_one i true ;; ret rc) s = Done (rc, st l' (q_mod s) (<[i := Nic (macaddr n) (used n) None None]> (nd_table s)) s) /\
    lib_ok l' /\ k_ctxs (l_k l') = delete q1 (delete q2 (k_ctxs (kst s))) /\ k_refs (l_k l') = k_refs (kst s) /\ k_id (l_k l') = k_id (kst s) /\ k_brk (l_k l') = k_brk (kst s).
Proof.
  intros Hn H1 H2 Hl (b1 & y1 & B1 & F1 & Q1 & U1) Hh2 Hne. destruct (Hh2) as (b2 & _ & B2 & F2 & _).
  destruct (drop_run i n false c2 q2 s Hn H2 Hl Hh2) as (l2 & E2 & L2 & C2 & (b & Hb & Fs) & R2 & I2 & K2). assert (b = b2) as -> by congruence.
  set (s2 := st l2 _ _ _) in E2. rewrite (bind_done _ _ _ _ _ E2). set (n2 := nic_set_cctx false None n) in *.
  assert (Hn2 : nd_table s2 !! i = Some n2) by (apply list_lookup_insert_eq; by eapply lookup_lt_Some).
  assert (Hh1 : holds c1 q1 (q_lib s2)).
  { exists b1, y1. split; [done|]. cbn [q_lib s2 st]. rewrite Fs, C2, !lookup_delete_ne by congruence. done. }
  destruct (drop_run i n2 true c1 q1 s2 Hn2 H1 L2 Hh1) as (l1 & E1 & L1 & C1 & _ & R1 & I1 & K1). rewrite (bind_done _ _ _ _ _ E1).
  exists l1. change (kst s2) with (l_k l2) in *. split_and!; try congruence. unfold s2, st, n2. cbn. by rewrite list_insert_insert_eq.
Qed.

(** The last steps: both contexts are activated. *)
Definition finish (i : nat) : M qemu Z :=
  let! ci := ni_cctx i true in
  let! rc := in_lib (priv_activate (Some ops) pid ci) in
  if rc <? 0 then drop_one i false ;; drop_one i true ;; ret rc else
  let! co := ni_cctx i false in
  let! rc := in_lib (priv_activate (Some ops) pid co) in
  if rc <? 0 then drop_one i false ;; drop_one i true ;; ret rc else
  ret 0.

Definition activated2 (q1 q2 : nat) (y1 y2 : priv_crypt_ctx) (s : qemu) : qemu :=
  set_lib (set_lk (put q2 (upd_activated 1 y2) (put q1 (upd_activated 1 y1) (kst s))) (q_lib s)) s.

Lemma finish_run i n c1 c2 b1 b2 q1 q2 y1 y2 s : nd_table s !! i = Some n -> nd_cctx_in n = Some c1 -> nd_cctx_out n = Some c2 -> lib_ok (q_lib s) -> ninv (ns s) ->
  pc_backend c1 = BKern b1 -> pc_backend c2 = BKern b2 -> k_files (kst s) !! kb_fd b1 = Some (Some q1) -> k_files (kst s) !! kb_fd b2 = Some (Some q2) ->
  k_ctxs (kst s) !! q1 = Some y1 -> k_ctxs (kst s) !! q2 = Some y2 -> q1 <> q2 ->
  finish i s = Done (0, activated2 q1 q2 y1 y2 s) /\ lib_ok (q_lib (activated2 q1 q2 y1 y2 s)) /\ ninv (ns (activated2 q1 q2 y1 y2 s)).
Proof.
  intros Hn H1 H2 [L1 L2 L3 L4 L5] I B1 B2 F1 F2 Q1 Q2 Hne. set (k1 := put q1 (upd_activated 1 y1) (kst s)).
  assert (K1 : kinv k1) by by apply kinv_activated. assert (Q2' : k_ctxs k1 !! q2 = Some y2) by (cbn; by rewrite lookup_insert_ne).
  assert (K2 : kinv (put q2 (upd_activated 1 y2) k1)) by by apply kinv_activated. split_and!.
  - unfold finish. rewrite (bind_done _ _ _ _ _ (ni_cctx_run i n true c1 s Hn H1)).
    rewrite (bind_done _ _ _ _ _ (in_lib_run _ _ _ _ (activate_run ops pid c1 b1 q1 y1 (q_lib s) L1 B1 F1 Q1))). change (0 <? 0) with false. cbv iota.
    fold k1. set (s1 := set_lib (set_lk k1 (q_lib s)) s). rewrite (bind_done _ _ _ _ _ (ni_cctx_run i n false c2 s1 Hn H2)).
    by rewrite (bind_done _ _ _ _ _ (in_lib_run _ s1 _ _ (activate_run ops pid c2 b2 q2 y2 (q_lib s1) K1 B2 F2 Q2'))).
  - by split.
  - by apply (ninv_kernel (ns s)).
Qed.

Abbreviation nic_init := (priv_nic_init P (Some ops) pid junk_u junk junk_iv).
Abbreviation easy := (priv_easy_create P (Some ops) pid junk_u junk junk_iv).

(** One more context: the state is kept. *)
Lemma kept_easy s t r l : ninv (ns s) -> easy_post (q_lib s) r l -> kept s (st l (q_mod s) t s) /\ ninv (ns (st l (q_mod s) t s)).
Proof.
  intros I (L & R & Id & Bk & C). assert (I' : ninv (ns (st l (q_mod s) t s))).
  { apply (ninv_kernel (ns s)); try done; [apply L|]. cbn. rewrite Bk. lia. }
  split; [|done]. unfold kst. split; try done; unfold kst; cbn [q_lib st].
  - intros r' _. by rewrite R.
  - intros q c Hq. destruct C as [(c1 & _ & _ & Hf & (y & Hy & _) & _)|(_ & _ & Hy & _)]; rewrite Hy; [|eauto using like_refl].
    exists c. split; [|apply like_refl]. rewrite lookup_insert_ne; [done|]. unfold kst in Hq. congruence.
  - rewrite Id. lia.
Qed.

Lemma kept_same s s' : ninv (ns s) -> kept s s' -> n_root (ns s') = n_root (ns s) -> k_refs (kst s') = k_refs (kst s) ->
  nd_table s' = nd_table s -> (forall q, k_ctxs (kst s) !! q = None -> k_ctxs (kst s') !! q = None) -> undone s s'.
Proof. intros I K Er Ef Et Hd. split; try done. split; [|done]. intros m _. unfold entry. by rewrite Er. Qed.

(** The first context stays connected when the second is. *)
Lemma in_sync_more c c' q q' l l' : lib_ok l -> in_sync c q (l_k l) -> new_chan q' l l' c' -> in_sync c q (l_k l') /\ q <> q'.
Proof.
  intros H (b & y & t & E1 & E2 & E3 & E4) (_ & Hn & (y' & Hy & _) & Hf & _). assert (q <> q') by congruence. split; [|done].
  exists b, y, t. split; [done|]. rewrite Hf, Hy, !lookup_insert_ne; [done|done|]. intros Heq. pose proof (lo_fds _ H (l_fd l) (le_n _)) as E. congruence.
Qed.

(** Both contexts exist and are stored in the card. *)
Record both (i : nat) (n : NICInfo) (c1 c2 : priv_cctx) (q1 q2 : nat) (s s2 : qemu) : Prop := {
  bo_lt : (i < length (nd_table s))%nat;
  bo_table : nd_table s2 = <[i := Nic (macaddr n) (used n) (Some c1) (Some c2)]> (nd_table s);
  bo_kept : kept s s2;
  bo_root : nm_root (q_mod s2) = nm_root (q_mod s);
  bo_refs : k_refs (kst s2) = k_refs (kst s);
  bo_sync : in_sync c1 q1 (kst s2) /\ in_sync c2 q2 (kst s2) /\ q1 <> q2;
  bo_new : k_ctxs (kst s) !! q1 = None /\ k_ctxs (kst s) !! q2 = None;
  bo_ctxs : exists y1 y2, k_ctxs (kst s2) = <[q2 := y2]> (<[q1 := y1]> (k_ctxs (kst s))) /\ cc_user_ref y1 = None /\ cc_user_ref y2 = None;
}.

(** The kernel's state after an address was added or not *)
Lemma kept_added s s2 t : kept s s2 -> ninv t -> added_frame (kst s2) (n_k t) -> kept s (set_ns t s2).
Proof.
  intros [[L1 L2 L3 L4 L5] K2 K3 K4 K5 K6 K7] It [[A1 A2 A3 A4 A5] R]. split; try done.
  - split; cbn; try done; [apply It|unfold roomy; by rewrite A3|]. intros fd Hfd. rewrite A1. by apply L5.
  - by destruct t.
  - intros r Hr. cbn. rewrite R by by rewrite K3. by apply K3.
  - intros q c Hq. destruct (K4 q c Hq) as (c2 & H2 & H3). destruct (A4 q c2 H2) as (c3 & H4 & H5). exists c3. split; [done|]. by eapply like_trans.
  - cbn. by rewrite A2.
Qed.

(** A context nobody used is not used after a refusal. *)
Lemma still_idle s s2 q y : kinv s -> kinv s2 -> k_refs s2 = k_refs s -> linked_only s s2 -> k_ctxs s !! q = Some y -> cc_user_ref y = None ->
  exists y', k_ctxs s2 !! q = Some y' /\ cc_user_ref y' = None.
Proof.
  intros H H2 Ef L Hq Hu. destruct (lk_ctxs _ _ L q y Hq) as (y' & Hy' & _). exists y'. split; [done|].
  destruct (cc_user_ref y') as [r|] eqn:E; [|done]. pose proof (ki_refs _ H2 _ _ _ Hy' E) as Hr. rewrite Ef in Hr.
  destruct (ki_back _ H _ _ Hr) as (y2 & Hy2 & Hu2). congruence.
Qed.

Lemma refused_run i n c1 c2 q1 q2 t s s2 : both i n c1 c2 q1 q2 s s2 -> ninv t -> added_frame (kst s2) (n_k t) -> same_entries (ns s2) t ->
  exists s', (drop_one i false ;; drop_one i true ;; ret (-1)) (set_ns t s2) = Done (-1, s') /\ (nd_table s !! i = Some (Nic (macaddr n) (used n) None None) -> undone s s').
Proof.
  intros [Hlt Ht Hk Hr Hf (S1 & S2 & Hne) (N1 & N2) (y1 & y2 & Hy & U1 & U2)] It Fr [Se Sr]. pose proof (kept_added _ _ _ Hk It Fr) as Hk3.
  set (s3 := set_ns t s2) in *. assert (Kq : kinv (kst s2)) by apply Hk. destruct Fr as [Lk Rk].
  destruct S1 as (b1 & x1 & _ & B1 & F1 & X1 & _), S2 as (b2 & x2 & _ & B2 & F2 & X2 & _).
  destruct (still_idle (kst s2) (n_k t) q1 x1 Kq (ni_k _ It) Sr Lk X1) as (z1 & Z1 & V1); [rewrite Hy, lookup_insert_ne, lookup_insert_eq in X1 by done; congruence|].
  destruct (still_idle (kst s2) (n_k t) q2 x2 Kq (ni_k _ It) Sr Lk X2) as (z2 & Z2 & V2); [rewrite Hy, lookup_insert_eq in X2; congruence|].
  assert (Hn : nd_table s3 !! i = Some (Nic (macaddr n) (used n) (Some c1) (Some c2))) by (cbn; rewrite Ht; by apply list_lookup_insert_eq).
  destruct (drop_both i _ c1 c2 q1 q2 (-1) s3 Hn eq_refl eq_refl (kp_lib _ _ Hk3)) as (l' & E & L' & C' & R' & I' & K'); [| |done|].
  { exists b1, z1. cbn. by rewrite (lk_files _ _ Lk). } { exists b2, z2. cbn. by rewrite (lk_files _ _ Lk). }
  eexists. split; [exact E|]. intros Hs. destruct Hk3 as [_ K2 K3 K4 K5 K6 K7]. change (kst s3) with (n_k t) in *. split; cbn.
  - split; try done; unfold kst; cbn [st q_lib].
    + apply (ninv_kernel t); try done; cbn; [apply L'|lia].
    + rewrite R'. exact K3.
    + intros q c Hq. destruct (K4 q c Hq) as (c' & H1 & H2). exists c'. rewrite C', !lookup_delete_ne; [done|unfold kst in N1, N2; congruence..].
    + by rewrite I'.
  - rewrite Ht, list_insert_insert_eq. by apply list_insert_id.
  - split; [|cbn; by rewrite R', Sr]. intros m Hm. transitivity (entry t m); [done|]. rewrite Se by done. unfold entry. cbn. by rewrite Hr.
  - intros q Hq. unfold kst; cbn [st q_lib]. rewrite C'. apply lookup_delete_None. destruct (decide (q1 = q)) as [|D1]; [by left|]. right. apply lookup_delete_None.
    destruct (decide (q2 = q)) as [|D2]; [by left|]. right. apply (lk_dom _ _ Lk). by rewrite Hy, !lookup_insert_ne.
Qed.

(** A reference to a context with the id of a known one refers to that one. *)
Lemma linked_is r id s q y : kinv s -> linked_to r id s -> k_ctxs s !! q = Some y -> cc_id y = id -> k_refs s !! r = Some (Some q).
Proof. intros H (q' & y' & Hr & Hq' & Hi & _) Hq Hy. rewrite (ki_ids _ H q' q y' y) in Hr; [done|done|done|congruence]. Qed.

(** The library's context and its kernel context, moved behind a reference and activated *)
Lemma in_sync_paired c q dir e y' s s2 mac : in_sync c q (kst s2) -> (forall y, k_ctxs (kst s2) !! q = Some y -> like y y') ->
  entry (ns s) mac = Some e -> k_refs (kst s) !! ref_of dir e = Some (Some q) -> k_ctxs (kst s) !! q = Some (upd_activated 1 y') -> paired dir s mac c.
Proof.
  intros (b & y & t & _ & _ & Hq & _ & _ & Ht & Hiv & _ & Hu) Hl He Hr Hy. exists e, q, (upd_activated 1 y'), (Aesni (t_key t) (t_iv t)).
  destruct (Hl y Hq) as (lock & ref & ->). split_and!; try done. cbn in *. rewrite Ht. by destruct t.
Qed.

Lemma accepted_run i n c1 c2 q1 q2 b1 b2 t s s2 : both i n c1 c2 q1 q2 s s2 -> ninv t -> added_frame (kst s2) (n_k t) -> mac_ok (macaddr n) ->
  pc_backend c1 = BKern b1 -> pc_backend c2 = BKern b2 -> entry (ns s2) (macaddr n) = None -> put_in (macaddr n) (kb_id b1) (kb_id b2) (ns s2) t ->
  exists s', finish i (set_ns t s2) = Done (0, s') /\ created_nic i n s s'.
Proof.
  intros [Hlt Ht Hk Hr Hf (S1 & S2 & Hne) (N1 & N2) _] It Fr Hm B1 B2 En (e & L1 & L2 & He). pose proof (kept_added _ _ _ Hk It Fr) as Hk3.
  set (s3 := set_ns t s2) in *. destruct Fr as [Lk Rk]. destruct (S1) as (b & x1 & _ & B1' & F1 & X1 & Id1 & _). assert (b = b1) as -> by congruence.
  destruct (S2) as (b & x2 & _ & B2' & F2 & X2 & Id2 & _). assert (b = b2) as -> by congruence.
  destruct (lk_ctxs _ _ Lk q1 x1 X1) as (z1 & Z1 & V1). destruct (lk_ctxs _ _ Lk q2 x2 X2) as (z2 & Z2 & V2).
  assert (Hn : nd_table s3 !! i = Some (Nic (macaddr n) (used n) (Some c1) (Some c2))) by (cbn; rewrite Ht; by apply list_lookup_insert_eq).
  assert (R1 : k_refs (n_k t) !! mr_in_ref e = Some (Some q1)) by (apply (linked_is _ (kb_id b1) _ _ z1); try done; [apply It|]; by destruct V1 as (? & ? & ->)).
  assert (R2 : k_refs (n_k t) !! mr_out_ref e = Some (Some q2)) by (apply (linked_is _ (kb_id b2) _ _ z2); try done; [apply It|]; by destruct V2 as (? & ? & ->)).
  assert (I3 : ninv (ns s3)) by apply Hk3.
  destruct (finish_run i _ c1 c2 b1 b2 q1 q2 z1 z2 s3 Hn eq_refl eq_refl (kp_lib _ _ Hk3) I3 B1 B2) as (E & L' & I'); [by cbn; rewrite (lk_files _ _ Lk)..|done|done|done|].
  eexists. split; [exact E|]. set (s4 := activated2 q1 q2 z1 z2 s3) in *. destruct Hk3 as [_ _ K3 K4 K5 K6 K7].
  assert (Ee : entry (ns s4) (macaddr n) = Some e) by (change (entry t (macaddr n) = Some e); rewrite He by done; by rewrite decide_True).
  assert (Eo : forall m, entry (ns s2) m = entry (ns s) m) by (intros m; unfold entry; cbn; by rewrite Hr). split.
  - split; try done. intros q c Hq. destruct (K4 q c Hq) as (c' & H1 & H2). exists c'. split; [|done].
    unfold s4, activated2, kst. cbn. rewrite !lookup_insert_ne; [done|congruence..].
  - by rewrite <- Eo.
  - intros m Hm' Hd. change (entry t m = entry (ns s) m). rewrite He, decide_False by done. apply Eo.
  - exists c1, c2. split; [exact Ht|]. split.
    + apply (in_sync_paired c1 q1 true e z1 s4 s2); try done; [intros y Hy; congruence|]. unfold s4, activated2, kst. cbn. by rewrite lookup_insert_ne, lookup_insert_eq.
    + apply (in_sync_paired c2 q2 false e z2 s4 s2); try done; [intros y Hy; congruence|]. unfold s4, activated2, kst. cbn. by rewrite lookup_insert_eq.
Qed.

(** The rest of [priv_nic_init] once the first context is stored *)
Definition second (i : nat) : M qemu Z :=
  let! r := in_lib (easy false) in
  if fst r <? 0 then drop_one i true ;; ret (fst r) else
  store_cctx i false (snd r) ;;
  let! rc := priv_nic_register i in
  if rc <? 0 then drop_one i false ;; drop_one i true ;; ret rc else
  finish i.

Lemma register_both i n c1 c2 q1 q2 s s2 : nd_table s !! i = Some (Nic (macaddr n) (used n) None None) -> mac_ok (macaddr n) -> k_id (kst s) < 2 ^ 31 - 2 -> both i n c1 c2 q1 q2 s s2 ->
  exists rc s', (let! rc := priv_nic_register i in if rc <? 0 then drop_one i false ;; drop_one i true ;; ret rc else finish i) s2 = Done (rc, s') /\
    (rc = 0 /\ created_nic i n s s' \/ rc < 0 /\ undone s s').
Proof.
  intros Hn Hm Hid B. destruct (B) as [Hlt Ht Hk _ _ (S1 & S2 & _) _ _]. destruct S1 as (b1 & x1 & _ & B1 & _ & X1 & Id1 & _), S2 as (b2 & x2 & _ & B2 & _ & X2 & Id2 & _).
  assert (Kv : kinv (kst s2)) by apply Hk. pose proof (kp_id _ _ Hk). pose proof (ki_id _ Kv _ _ X1). pose proof (ki_id _ Kv _ _ X2).
  assert (Hn2 : nd_table s2 !! i = Some (Nic (macaddr n) (used n) (Some c1) (Some c2))) by (rewrite Ht; by apply list_lookup_insert_eq).
  destruct (register_run i _ c1 c2 b1 b2 s2 (kp_inv _ _ Hk) (lo_roomy _ (kp_lib _ _ Hk)) Hn2 Hm eq_refl eq_refl B1 B2) as (rc & t & E & It & Fr & Hc); [lia|lia|].
  rewrite (bind_done _ _ _ _ _ E). destruct Hc as [[-> Se]|(-> & En & Pi)].
  - destruct (refused_run i n c1 c2 q1 q2 t s s2 B It Fr Se) as (s' & E' & U). exists (-1), s'. split; [exact E'|]. right. split; [done|]. by apply U.
  - destruct (accepted_run i n c1 c2 q1 q2 b1 b2 t s s2 B It Fr Hm B1 B2 En Pi) as (s' & E' & C). exists 0, s'. split; [exact E'|]. by left.
Qed.

Lemma second_run i n c1 l1 s : ninv (ns s) -> nd_table s !! i = Some (Nic (macaddr n) (used n) None None) -> mac_ok (macaddr n) ->
  k_id (kst s) < 2 ^ 31 - 2 -> easy_post (q_lib s) (0, Some c1) l1 -> new_chan (k_brk (kst s)) (q_lib s) l1 c1 ->
  exists rc s', second i (st l1 (q_mod s) (<[i := Nic (macaddr n) (used n) (Some c1) None]> (nd_table s)) s) = Done (rc, s') /\
    (rc = 0 /\ created_nic i n s s' \/ rc < 0 /\ undone s s').
Proof.
  intros I Hn Hm Hid P1 NC1. set (t1 := <[i := _]> _). destruct (kept_easy s t1 _ l1 I P1) as [K1 I1]. set (s1 := st l1 _ t1 s) in *.
  assert (Hlt : (i < length (nd_table s))%nat) by by eapply lookup_lt_Some. destruct P1 as (L1 & Rf1 & Id1 & Bk1 & _). unfold kst in Hid.
  pose proof (easy_create_ok P ops p g x prf pid junk_u junk junk_iv Hj false l1 L1 ltac:(lia)) as H2. apply wp_elim in H2 as (r2 & l2 & R2 & P2).
  unfold second. rewrite (bind_done _ _ _ _ _ (in_lib_run _ s1 _ _ R2)). destruct (kept_easy s1 t1 r2 l2 I1 P2) as [K2 I2].
  assert (Hn1 : nd_table s1 !! i = Some (Nic (macaddr n) (used n) (Some c1) None)) by by apply list_lookup_insert_eq.
  destruct NC1 as (S1 & N1 & (y1 & Hy1 & U1 & _) & Hf1 & _).
  destruct (P2) as (L2 & Rf2 & Id2 & Bk2 & [(c2 & -> & NC2)|(Hneg & _ & C2 & F2)]).
  - change (fst (0, Some c2) <? 0) with false. cbv iota. cbn [snd]. rewrite (bind_done (store_cctx i false (Some c2)) _ _ tt _ eq_refl).
    destruct (in_sync_more c1 c2 _ _ l1 l2 L1 S1 NC2) as [S1' Hne]. apply (register_both i n c1 c2 (k_brk (kst s)) (k_brk (l_k l1))); [done..|].
    destruct NC2 as (S2 & N2 & (y2 & Hy2 & U2 & _) & Hf2 & _). split; [done| | |done| |done| |].
    + cbn. rewrite (alter_as_insert _ t1 _ _ Hn1). unfold t1. by rewrite list_insert_insert_eq.
    + split; try done; unfold kst; cbn.
      * by rewrite Rf2, Rf1.
      * intros q c Hq. exists c. split; [|apply like_refl]. rewrite Hy2, lookup_insert_ne, Hy1, lookup_insert_ne; [done|congruence|].
        intros <-. rewrite Hy1 in N2. apply lookup_insert_None in N2 as [N2 _]. unfold kst in *. congruence.
      * lia.
    + unfold kst; cbn. by rewrite Rf2, Rf1.
    + split; [done|]. rewrite Hy1 in N2. by apply lookup_insert_None in N2 as [N2 _].
    + exists y1, y2. unfold kst; cbn. by rewrite Hy2, Hy1.
  - replace (fst r2 <? 0) with true by (clear - Hneg; lia). set (s2 := set_lib l2 s1). destruct S1 as (b1 & x1 & _ & B1 & F1 & X1 & _).
    assert (x1 = y1) as -> by (rewrite Hy1, lookup_insert_eq in X1; congruence).
    destruct (drop_run i _ true c1 (k_brk (kst s)) s2 Hn1 eq_refl L2) as (l3 & E3 & L3 & C3 & _ & R3 & I3 & B3).
    { exists b1, y1. cbn. by rewrite F2, C2. }
    rewrite (bind_done _ _ _ _ _ E3). eexists _, _. split; [done|]. right. split; [done|]. change (kst s2) with (l_k l2) in *.
    assert (Ec : k_ctxs (l_k l3) = k_ctxs (kst s)) by (rewrite C3, C2, Hy1; by apply delete_insert_id). assert (Er : k_refs (l_k l3) = k_refs (kst s)) by (by rewrite R3, Rf2, Rf1).
    assert (I4 : ninv (ns (st l3 (q_mod s2) (<[i := Nic (macaddr n) (used n) None None]> t1) s2))) by (apply (ninv_kernel (ns s)); try done; cbn; [apply L3|lia]).
    apply kept_same; try done.
    + split; try done; unfold kst; cbn; [by rewrite Er| |lia]. rewrite Ec. eauto using like_refl.
    + cbn. unfold t1. rewrite list_insert_insert_eq. by apply list_insert_id.
    + unfold kst at 2; cbn. by rewrite Ec.
Qed.

(** [priv_nic_init] with memory *)
Lemma nic_init_run i n s : lib_ok (q_lib s) -> ninv (ns s) -> nd_table s !! i = Some n -> nd_cctx_in n = None -> nd_cctx_out n = None -> mac_ok (macaddr n) ->
  k_id (kst s) < 2 ^ 31 - 2 ->
  exists rc s', nic_init i s = Done (rc, s') /\ (rc = 0 /\ created_nic i n s s' \/ rc < 0 /\ undone s s').
Proof.
  intros Hl I Hn E1 E2 Hm Hid. change (nic_init i) with (let! r := in_lib (easy true) in if fst r <? 0 then ret (fst r) else store_cctx i true (snd r) ;; second i).
  pose proof (easy_create_ok P ops p g x prf pid junk_u junk junk_iv Hj true (q_lib s) Hl ltac:(unfold kst in Hid; lia)) as H1.
  apply wp_elim in H1 as (r1 & l1 & R1 & P1). rewrite (bind_done _ _ _ _ _ (in_lib_run _ _ _ _ R1)). destruct (kept_easy s (nd_table s) r1 l1 I P1) as [K1 I1].
  destruct (P1) as (L1 & Rf1 & Id1 & Bk1 & [(c1 & -> & NC1)|(Hneg & _ & C1 & _)]).
  2: { replace (fst r1 <? 0) with true by (clear - Hneg; lia). eexists _, _. split; [done|]. right. split; [done|]. apply (kept_same s); try done. unfold kst; cbn. by rewrite C1. }
  change (fst (0, Some c1) <? 0) with false. cbv iota. cbn [snd]. rewrite (bind_done (store_cctx i true (Some c1)) _ _ tt _ eq_refl).
  cbn [nd_table set_lib]. rewrite (alter_as_insert _ _ _ _ Hn). cbn [nic_set_cctx]. rewrite E2.
  destruct (second_run i n c1 l1 s) as (rc & s' & E & H); try done; [rewrite Hn; destruct n; cbn in *; congruence|]. by exists rc, s'.
Qed.
End NicInit.

(** ** [net_init_nic] *)

Section Boot.
Context `{BC : BlockCipher} (P : polarssl) (ops : dhm_kex_ops) (p g x : Z) (prf : prf_fun) {KA : KexAgree P ops p g x prf}.
Context (pid : Z) (junk_u : aesni_state) (junk junk_iv : bytes) (Hj : length junk_iv = MAX_IV_LEN).
Abbreviation init_nic := (net_init_nic P (Some ops) pid junk_u junk junk_iv).

(** The cards are at the front of the table, and nothing is on its way. *)
Record machine (s : qemu) : Prop := {
  mc_lib : lib_ok (q_lib s);
  mc_ready : net_ready s;
  mc_len : length (nd_table s) = MAX_NICS;
  mc_used : forall i n, nd_table s !! i = Some n -> (used n = true <-> (i < nb_nics s)%nat);
}.

(** The address a card gets *)
Definition nic_mac (o : nic_opts) (s : qemu) : option bytes :=
  mac ← default (Some (zeros 6)) (o_macaddr o);
  Some (if bool_decide (mac = zeros 6) then [0x52; 0x54; 0x00; 0x12; 0x34; u8 (0x56 + mac_index s)] else mac).

Lemma free_idx l : forall i k, (forall j n, l !! j = Some n -> (used n = true <-> (j < k)%nat)) ->
  nic_get_free_idx i l = if (k <? length l)%nat then Some (i + k)%nat else None.
Proof.
  induction l as [|n l IH]; intros i k H; [done|]. cbn [nic_get_free_idx length]. pose proof (H 0%nat n eq_refl) as H0. destruct (used n).
  - destruct k as [|k]; [exfalso; destruct H0 as [H0 _]; specialize (H0 eq_refl); lia|]. rewrite (IH (S i) k).
    + replace (S k <? S (length l))%nat with (k <? length l)%nat by done. destruct (k <? length l)%nat; [|done]. f_equal. lia.
    + intros j m Hm. rewrite (H (S j) m Hm). lia.
  - destruct k as [|k]; [by rewrite Nat.add_0_r|]. exfalso. destruct H0 as [_ H0]. by specialize (H0 ltac:(lia)).
Qed.

Lemma take_insert_end {A} (l : list A) k a : (k < length l)%nat -> take (S k) (<[k := a]> l) = take k l ++ [a].
Proof.
  intros H. rewrite (take_S_r _ _ a) by by apply list_lookup_insert_eq. by rewrite take_insert_ge.
Qed.

Lemma like_same c c' : like c c' -> cc_activated c' = cc_activated c /\ cc_cipher c' = cc_cipher c.
Proof. by intros (l & r & ->). Qed.

(** What is kept is where the cipher of an address is. *)
Lemma chan_kept dir s s' mac c : kept s s' -> entry (ns s') mac = entry (ns s) mac -> chan dir s mac c -> chan dir s' mac c.
Proof.
  intros K E (e & q & y & t & u & H1 & H2 & H3 & H4 & H5 & H6). destruct (kp_ctxs _ _ K q y H3) as (y' & Hy & [L1 L2]%like_same).
  exists e, q, y', t, u. rewrite E, (kp_refs _ _ K) by eauto. split_and!; try done; [by rewrite L1|by rewrite L2|apply H6..].
Qed.

Lemma pos_kept dir s s1 s' mac : kept s s1 -> ns s' = ns s1 -> entry (ns s1) mac = entry (ns s) mac -> nic_at mac s' = nic_at mac s ->
  net_ready s -> upos dir s' mac = upos dir s mac /\ kpos dir s' mac = upos dir s' mac.
Proof.
  intros K En1 E En Hr. assert (Hu : upos dir s' mac = upos dir s mac) by (unfold upos; by rewrite En). split; [done|].
  rewrite Hu, <- (nr_sync _ Hr dir mac). assert (Ek : kst s' = kst s1) by exact (f_equal n_k En1). unfold kpos. rewrite En, En1, Ek, E.
  destruct (nic_at mac s) as [[i n]|] eqn:Ea; [|done]. cbn. apply nic_at_inv in Ea as [Hi <-].
  destruct (nw_priv _ (nr_wf _ Hr) n) as [(_ & _ & ->)|Hc]; [by eapply list_elem_of_lookup_2|done|]. destruct (Hc dir) as (c & _ & e & q & y & t & u & -> & H2 & H3 & _).
  cbn. rewrite (kp_refs _ _ K) by eauto. rewrite H2. cbn. destruct (kp_ctxs _ _ K q y H3) as (y' & -> & [_ L2]%like_same). rewrite H3. cbn. by rewrite L2.
Qed.

Lemma chan_ns dir s s' mac c : ns s' = ns s -> chan dir s mac c -> chan dir s' mac c.
Proof. intros E. assert (Ek : kst s' = kst s) by exact (f_equal n_k E). unfold chan. by rewrite E, Ek. Qed.

Lemma priv_kept s s1 s' n : kept s s1 -> ns s' = ns s1 -> entry (ns s1) (macaddr n) = entry (ns s) (macaddr n) ->
  nd_cctx_in n = None /\ nd_cctx_out n = None /\ entry (ns s) (macaddr n) = None \/ (forall dir, exists c, nic_cctx dir n = Some c /\ chan dir s (macaddr n) c) ->
  nd_cctx_in n = None /\ nd_cctx_out n = None /\ entry (ns s') (macaddr n) = None \/ (forall dir, exists c, nic_cctx dir n = Some c /\ chan dir s' (macaddr n) c).
Proof.
  intros K En E [(H1 & H2 & H3)|Hc]; [left; rewrite En, E; done|]. right. intros dir. destruct (Hc dir) as (c & H1 & H2). exists c. split; [done|].
  apply (chan_ns dir s1); [done|]. by eapply chan_kept.
Qed.

(** The cards are the same. *)
Lemma ready_same s s1 s' : kept s s1 -> ns s' = ns s1 -> same_entries (ns s) (ns s1) -> nics s' = nics s -> q_tap s' = q_tap s -> q_card s' = q_card s ->
  net_ready s -> net_ready s'.
Proof.
  intros K En [Se _] Ec Et Ek Hr. pose proof Hr as [[W1 W2 W3 W4] R2 R3 R4]. split; rewrite ?Et, ?Ek; try done.
  - split; rewrite ?Ec; try done; [rewrite En; apply K|]. intros n Hn. apply (priv_kept s s1); [done|done| |by apply W4]. apply Se, W2, Hn.
  - intros dir mac. destruct (nic_at mac s) as [[i n]|] eqn:Ea.
    + pose proof Ea as [Hi Hm]%nic_at_inv. apply (pos_kept dir s s1 s'); try done; [|unfold nic_at; by rewrite Ec].
      apply Se. rewrite <- Hm. apply W2. by eapply list_elem_of_lookup_2.
    + unfold kpos, upos, nic_at in *. by rewrite Ec, Ea.
Qed.

(** One card more *)
Definition card_made (n : NICInfo) (s : qemu) : Prop :=
  nd_cctx_in n = None /\ nd_cctx_out n = None /\ entry (ns s) (macaddr n) = None \/ forall dir, exists c, nic_cctx dir n = Some c /\ paired dir s (macaddr n) c.

Lemma paired_pos dir n s c i : nic_cctx dir n = Some c -> paired dir s (macaddr n) c -> nic_at (macaddr n) s = Some (i, n) ->
  exists t, upos dir s (macaddr n) = Some t /\ kpos dir s (macaddr n) = Some t.
Proof.
  intros Hc (e & q & y & u & H1 & H2 & H3 & _ & H5 & H6 & _) Ha. exists (CtrTfm (as_key u) (as_iv u)). unfold upos, kpos. rewrite Ha. cbn. rewrite Hc. cbn. rewrite H6. split; [done|].
  rewrite H1. cbn. rewrite H2. cbn. rewrite H3. exact H5.
Qed.

Lemma ready_more s s1 s' n : kept s s1 -> ns s' = ns s1 -> (forall m, mac_ok m -> m <> macaddr n -> entry (ns s1) m = entry (ns s) m) -> card_made n s' ->
  nics s' = nics s ++ [n] -> macaddr n ∉ (macaddr <$> nics s) -> mac_ok (macaddr n) -> macaddr n <> zeros 6 -> q_tap s' = q_tap s -> q_card s' = q_card s ->
  net_ready s -> net_ready s'.
Proof.
  intros K En Se Hc Ec Hf Hm Hz Et Ek Hr. pose proof Hr as [[W1 W2 W3 W4] R2 R3 R4].
  assert (Old : forall m, m ∈ nics s -> macaddr m <> macaddr n) by (intros m Hi E; apply Hf; rewrite <- E; by apply list_elem_of_fmap_2).
  split; rewrite ?Et, ?Ek; try done.
  - split; rewrite ?Ec.
    + rewrite En. apply K.
    + intros m. rewrite elem_of_app, list_elem_of_singleton. intros [Hi| ->]; [by apply W2|done].
    + rewrite fmap_app. apply NoDup_app. split_and!; [done| |by apply NoDup_singleton]. intros m Hi. cbn. rewrite list_elem_of_singleton. by intros ->.
    + intros m. rewrite elem_of_app, list_elem_of_singleton. intros [Hi| ->].
      * apply (priv_kept s s1); [done|done| |by apply W4]. apply Se; [by apply W2|by apply Old].
      * destruct Hc as [Hc|Hc]; [by left|]. right. intros dir. destruct (Hc dir) as (c & H1 & e & q & y & u & H2). exists c. split; [done|]. exists e, q, y, (CtrTfm (as_key u) (as_iv u)), u. by destruct H2 as (? & ? & ? & ? & ? & ? & ?).
  - intros dir mac. destruct (nic_at mac s) as [[i m]|] eqn:Ea.
    + pose proof Ea as [Hi Hmac]%nic_at_inv. apply list_elem_of_lookup_2 in Hi. apply (pos_kept dir s s1 s'); try done; [apply Se; rewrite <- Hmac; [by apply W2|by apply Old]|].
      rewrite Ea. unfold nic_at in *. rewrite Ec. by apply list_find_app_l.
    + assert (Ha : nic_at mac s' = prod_map (fun k => k + length (nics s))%nat id <$> list_find (fun k => macaddr k = mac) [n]) by (unfold nic_at in *; rewrite Ec; by apply list_find_app_r).
      cbn in Ha. destruct (decide (macaddr n = mac)) as [<- |Hd]; [|unfold kpos, upos; by rewrite Ha].
      destruct Hc as [(H1 & H2 & H3)|Hc]; [unfold kpos, upos; rewrite Ha; cbn; rewrite H3; by destruct dir; cbn; rewrite ?H1, ?H2|].
      destruct (Hc dir) as (c & H1 & H2). destruct (paired_pos dir n s' c _ H1 H2 Ha) as (t & -> & ->). done.
Qed.
Lemma kept_refl s : lib_ok (q_lib s) -> ninv (ns s) -> kept s s.
Proof. intros L I. split; try done; [|lia]. intros q c Hq. eauto using like_refl. Qed.

(** A free slot of the table may be written. *)
Lemma machine_slot s l m t i : machine s -> q_lib s = l -> q_mod s = m -> (t = nd_table s \/ exists n, t = <[nb_nics s := n]> (nd_table s) /\ used n = false) ->
  machine (Qemu l m t (nb_nics s) i (q_tap s) (q_card s)) /\ nics (Qemu l m t (nb_nics s) i (q_tap s) (q_card s)) = nics s.
Proof.
  intros [L R Hl Hu] <- <- Ht. set (s' := Qemu _ _ _ _ _ _ _). assert (En : nics s' = nics s) by (destruct Ht as [-> |(n & -> & _)]; [done|]; by apply take_insert_ge).
  split; [|done]. split; [done| | |].
  - apply (ready_same s s s'); try done. apply kept_refl; [done|apply R].
  - destruct Ht as [-> |(n & -> & _)]; [done|]. cbn. by rewrite length_insert.
  - cbn. destruct Ht as [-> |(n & -> & Hn)]; [done|]. intros j m. destruct (decide (j = nb_nics s)) as [-> |Hd].
    + intros Hm. pose proof (lookup_lt_Some _ _ _ Hm) as Hlt. rewrite length_insert in Hlt. rewrite list_lookup_insert_eq in Hm by done. injection Hm as <-. rewrite Hn. split; [done|lia].
    + rewrite list_lookup_insert_ne by done. apply Hu.
Qed.

(** A slot is taken. *)
Definition take_slot (k : nat) (s : qemu) : qemu :=
  set_nb_nics (S (nb_nics s)) (set_nics (alter (fun n => Nic (macaddr n) true (nd_cctx_in n) (nd_cctx_out n)) k (nd_table s)) s).

Lemma machine_more s s1 n : machine s -> (nb_nics s < MAX_NICS)%nat -> kept s s1 -> (forall m, mac_ok m -> m <> macaddr n -> entry (ns s1) m = entry (ns s) m) ->
  nd_table s1 = <[nb_nics s := n]> (nd_table s) -> card_made n s1 -> macaddr n ∉ (macaddr <$> nics s) -> mac_ok (macaddr n) -> macaddr n <> zeros 6 ->
  let n' := Nic (macaddr n) true (nd_cctx_in n) (nd_cctx_out n) in
  machine (take_slot (nb_nics s) s1) /\ nics (take_slot (nb_nics s) s1) = nics s ++ [n'].
Proof.
  intros [L R Hl Hu] Hlt K Se Ht Hc Hf Hm Hz n'. set (s' := take_slot _ s1). destruct (kp_rest _ _ K) as (K1 & K2 & K3 & K4). rewrite <- Hl in Hlt.
  assert (Hn : nd_table s1 !! nb_nics s = Some n) by (rewrite Ht; by apply list_lookup_insert_eq).
  assert (Et : nd_table s' = <[nb_nics s := n']> (nd_table s)) by (cbn; rewrite (alter_as_insert _ _ _ _ Hn), Ht; apply list_insert_insert_eq).
  assert (En : nics s' = nics s ++ [n']) by (unfold nics; rewrite Et; cbn; rewrite K1; by apply take_insert_end). split; [|done]. split.
  - apply K.
  - by apply (ready_more s s1 s' n').
  - rewrite Et, length_insert. done.
  - rewrite Et. cbn. rewrite K1. intros j m. destruct (decide (j = nb_nics s)) as [-> |Hd].
    + rewrite list_lookup_insert_eq by done. intros [= <-]. split; [lia|done].
    + rewrite list_lookup_insert_ne by done. intros Hj'. rewrite (Hu j m Hj'). lia.
Qed.
Lemma macaddr_run mac s : exists i, qemu_macaddr_default_if_unset mac s =
  Done (if bool_decide (mac = zeros 6) then [0x52; 0x54; 0x00; 0x12; 0x34; u8 (0x56 + mac_index s)] else mac, set_index i s).
Proof. unfold qemu_macaddr_default_if_unset. case_bool_decide; [by eexists|]. exists (mac_index s). by destruct s. Qed.

Definition init_post (opts : nic_opts) (s : qemu) (rc : Z) (s' : qemu) : Prop :=
  machine s' /\ k_id (kst s') <= k_id (kst s) + 2 /\ q_tap s' = q_tap s /\ q_card s' = q_card s /\
  (rc = -1 /\ nics s' = nics s /\ same_entries (ns s) (ns s') \/
   rc = Z.of_nat (nb_nics s) /\ exists n, nics s' = nics s ++ [n] /\ nic_mac opts s = Some (macaddr n) /\
     forall dir, is_Some (upos dir s' (macaddr n)) <-> o_encrypt opts = true).

Lemma init_failed opts s t : machine t -> nics t = nics s -> ns t = ns s -> q_tap t = q_tap s -> q_card t = q_card s -> init_post opts s (-1) t.
Proof. intros M En E Et Ec. assert (Ek : kst t = kst s) by exact (f_equal n_k E). split; [done|]. split; [rewrite Ek; lia|]. split; [done|]. split; [done|]. left. split_and!; try done. by rewrite E. Qed.

(** The end of [net_init_nic], from the state with the slot prepared *)
Definition init_end (opts : nic_opts) (k : nat) : M qemu Z :=
  let! rc := if o_encrypt opts then priv_nic_init P (Some ops) pid junk_u junk junk_iv k else ret 0 in
  if rc <? 0 then ret (-1) else
  modify (fun s => set_nics (alter (fun n => Nic (macaddr n) true (nd_cctx_in n) (nd_cctx_out n)) k (nd_table s)) s) ;;
  modify (fun s => set_nb_nics (S (nb_nics s)) s) ;;
  ret (Z.of_nat k).

Lemma init_end_run opts mac s : machine s -> (nb_nics s < MAX_NICS)%nat -> k_id (kst s) < 2 ^ 31 - 2 -> nd_table s !! nb_nics s = Some (Nic mac false None None) ->
  mac_ok mac -> mac <> zeros 6 -> mac ∉ (macaddr <$> nics s) -> (o_encrypt opts = false -> entry (ns s) mac = None) ->
  exists rc s', init_end opts (nb_nics s) s = Done (rc, s') /\ machine s' /\ k_id (kst s') <= k_id (kst s) + 2 /\ q_tap s' = q_tap s /\ q_card s' = q_card s /\
    (rc = -1 /\ nics s' = nics s /\ same_entries (ns s) (ns s') \/
     rc = Z.of_nat (nb_nics s) /\ exists n, nics s' = nics s ++ [n] /\ macaddr n = mac /\ forall dir, is_Some (upos dir s' mac) <-> o_encrypt opts = true).
Proof.
  intros M Hlt Hid Hn Hm Hz Hf Hpub. set (n0 := Nic mac false None None) in *. pose proof M as [L R Hl Hu]. unfold init_end.
  assert (At : forall s' n, nics s' = nics s ++ [n] -> macaddr n = mac -> nic_at mac s' = Some (length (nics s), n)).
  { intros s' n E Ea. unfold nic_at. rewrite E, list_find_app_r; [cbn; by rewrite decide_True|]. apply list_find_None, Forall_forall.
    intros m Hi Em. apply Hf. rewrite <- Em. by apply list_elem_of_fmap_2. }
  destruct (o_encrypt opts) eqn:Ee.
  - destruct (nic_init_run P ops p g x prf pid junk_u junk junk_iv Hj (nb_nics s) n0 s) as (rc & s1 & E & C); try done; [apply R|]. rewrite (bind_done _ _ _ _ _ E).
    destruct C as [[-> [K En Es (c1 & c2 & Et & P1 & P2)]]|[Hneg [K Et Es Hd]]].
    + change (0 <? 0) with false. cbv iota. set (n := Nic (macaddr n0) (used n0) (Some c1) (Some c2)) in *.
      assert (Hc : forall dir, exists c, nic_cctx dir n = Some c /\ paired dir s1 mac c) by (intros []; eauto).
      destruct (machine_more s s1 n) as [M' Hn']; try done; [by right|]. set (s' := take_slot _ _) in *. exists (Z.of_nat (nb_nics s)), s'.
      split; [done|]. split; [done|]. split; [apply K|]. destruct (kp_rest _ _ K) as (_ & _ & K3 & K4). split; [done|]. split; [done|]. right. split; [done|]. eexists. split; [exact Hn'|]. split; [done|]. intros dir. split; [done|intros _].
      destruct (Hc dir) as (c & H1 & H2). destruct (paired_pos dir (Nic mac true (Some c1) (Some c2)) s' c _ H1 H2 (At s' _ Hn' eq_refl)) as (t & Ht & _). by exists t.
    + replace (rc <? 0) with true by (clear - Hneg; lia). exists (-1), s1. destruct (kp_rest _ _ K) as (K1 & K2 & K3 & K4).
      assert (En : nics s1 = nics s) by (unfold nics; by rewrite Et, K1). split; [done|]. split; [|split; [apply K|]; split_and!; [done|done|by left]].
      split; [apply K| |by rewrite Et|by rewrite Et, K1]. by apply (ready_same s s1).
  - rewrite (bind_done (ret 0) _ s 0 s eq_refl). change (0 <? 0) with false. cbv iota. assert (K : kept s s) by (apply kept_refl; [done|apply R]).
    assert (Et : nd_table s = <[nb_nics s := n0]> (nd_table s)) by by rewrite list_insert_id.
    destruct (machine_more s s n0) as [M' Hn']; try done; [left; by split_and!; [..|apply Hpub]|]. set (s' := take_slot _ _) in *. exists (Z.of_nat (nb_nics s)), s'.
    split; [done|]. split; [done|]. split; [unfold s', take_slot, kst; cbn; lia|]. split; [done|]. split; [done|]. right. split; [done|]. eexists. split; [exact Hn'|]. split; [done|].
    intros dir. unfold upos. rewrite (At s' _ Hn' eq_refl). cbn. destruct dir; cbn; (split; [by intros []|done]).
Qed.

Lemma init_nic_run opts s : machine s -> k_id (kst s) < 2 ^ 31 - 2 ->
  (forall mac, nic_mac opts s = Some mac -> mac_ok mac /\ (mac ∉ (macaddr <$> nics s)) /\ (o_encrypt opts = false -> entry (ns s) mac = None)) ->
  exists rc s', init_nic opts s = Done (rc, s') /\ init_post opts s rc s'.
Proof.
  intros M Hid Hmac. pose proof M as [_ _ Hl Hu]. unfold net_init_nic. rewrite (bind_done get _ s s s eq_refl), (free_idx _ 0 (nb_nics s)) by done.
  rewrite Hl. destruct (Nat.ltb_spec (nb_nics s) MAX_NICS) as [Hlt|Hge].
  2: { eexists _, _. split; [done|]. by apply init_failed. }
  replace (MAX_NICS <=? nb_nics s)%nat with false by (symmetry; by apply Nat.leb_gt). cbn [Nat.add]. set (k := nb_nics s) in *.
  set (sA := set_nics (<[k := Nic (zeros 6) false None None]> (nd_table s)) s). rewrite (bind_done (set_nic _ _) _ s tt sA eq_refl).
  destruct (machine_slot s (q_lib s) (q_mod s) (nd_table sA) (mac_index s) M eq_refl eq_refl) as [MA NA]; [right; by eexists|]. fold k in MA, NA. change (Qemu _ _ _ _ _ _ _) with sA in MA, NA.
  destruct (negb (o_netdev opts)); [eexists _, _; split; [done|]; by apply init_failed|]. unfold nic_mac in Hmac.
  destruct (default (Some (zeros 6)) (o_macaddr opts)) as [mac0|] eqn:Em; [|eexists _, _; split; [done|]; by apply init_failed]. cbn in Hmac.
  destruct (macaddr_run mac0 sA) as [i Ei]. rewrite (bind_done _ _ _ _ _ Ei). change (mac_index sA) with (mac_index s) in *. set (mac := if bool_decide _ then _ else _) in *.
  destruct (Hmac mac eq_refl) as (Hm & Hf & Hp). assert (Hz : mac <> zeros 6) by (unfold mac; by case_bool_decide).
  set (sB := set_nics (<[k := Nic mac false None None]> (nd_table sA)) (set_index i sA)). rewrite (bind_done (set_nic _ _) _ _ tt sB eq_refl).
  destruct (machine_slot sA (q_lib s) (q_mod s) (nd_table sB) i MA eq_refl eq_refl) as [MB NB]; [right; by eexists|]. change (Qemu _ _ _ _ _ _ _) with sB in MB, NB. rewrite NA in NB.
  destruct (if o_vectors opts is Some v then _ else _); [eexists _, _; split; [done|]; by apply init_failed|].
  destruct (init_end_run opts mac sB MB Hlt Hid) as (rc & s' & E & M' & Hi & Ht & Hk & C); [|done|done|by rewrite NB|done|].
  { cbn. rewrite list_insert_insert_eq. apply list_lookup_insert_eq. by rewrite Hl. }
  exists rc, s'. split; [exact E|]. split; [done|]. split; [exact Hi|]. split; [exact Ht|]. split; [exact Hk|]. rewrite NB in C. destruct C as [C|(-> & n & H1 & H2 & H3)]; [by left|].
  right. split; [done|]. exists n. unfold nic_mac. rewrite Em, H2. done.
Qed.
End Boot.
