(* ===== verification/NetProps.v ===== *)
(** * The private network, from the creation of a card to its traffic

    What the files before show of QEMU's network and of the kernel below it. *)

From S2P Require Import Prelude Text BlkCipher Ctr Fips197 AesCipher PrivCrypt Kex Driver PrivNet LibPriv Session QemuNet NetPath NetInit.

(** ** Properties *)

Section Properties.
Context `{BC : BlockCipher}.


(** C32 A busy tap device breaks the channel for good.  When [writev] answers EAGAIN, the frame
    of a private card has already been encrypted in place; the queue keeps the encrypted frame, and
    [tap_writable] encrypts it once more.  The driver undoes one of the two: on the wire is the
    frame under the next piece of the key stream, its type one too high; and from then on
    QEMU is one frame ahead of the kernel. *)
Theorem busy_tap_encrypts_twice last s f t : length last = 16%nat -> net_wf s -> (14 <= length f)%nat -> mac_ok (frame_mac false f) ->
  tap_up [WAgain] (q_tap s) -> tq s = Queue [] false -> t_out (q_tap s) = [] -> c_link_down (q_card s) = false ->
  upos false s (frame_mac false f) = Some t -> kpos false s (frame_mac false f) = Some t ->
  let t' := next (B := ctr_aes) t (length f - 14) in
  exists q1 q2 q3, card_send_packet_async last f true s = Done ((0, mask 1 t f), q1) /\ tap_writable last q1 = Done (tt, q2) /\
    t_out (q_tap q2) = [zeros 10 ++ mask 1 t' (mask 1 t f)] /\
    in_kernel (tx_decrypt (mask 1 t' (mask 1 t f))) q2 = Done (mask 1 t' f, q3) /\
    kpos false q3 (frame_mac false f) = Some t' /\ upos false q3 (frame_mac false f) = Some (next (B := ctr_aes) t' (length f - 14)).
Proof.
  intros Hlast H Hf Hm Htap Hq Hout Hc Hu Hk t'. set (mac := frame_mac false f) in *.
  set (s1 := set_tq (Queue [] true) s). assert (H1 : net_wf s1) by by apply (net_wf_outer _ (q_card s) s).
  destruct (deliver_run last Hlast [WAgain] WAgain f s1 H1 Hf) as (ta & sa & Ea & Ua & Oa & Qa & Ta); [by destruct Htap|done|by right|].
  assert (Ex : enc false (upos false s1) f = mask 1 t f) by (unfold enc; change (upos false s1) with (upos false s); fold mac; by rewrite Hu). rewrite Ex in Ea.
  set (xf := mask 1 t f) in *. assert (Hxl : length xf = length f) by by apply length_mask. assert (Hxm : frame_mac false xf = mac) by by apply frame_mac_mask.
  set (q1 := set_tq (Queue [Pkt QEMU_NET_PACKET_FLAG_NONE xf true] false) (set_tap ta sa)).
  assert (E1 : card_send_packet_async last f true s = Done ((0, xf), q1)) by by apply busy_send.
  set (tb := tap_set_queue (Queue [] true) (tap_set_disabled false (tap_set_polls (read_poll ta) false ta))). set (sb := set_tap tb sa).
  assert (Hb : net_wf sb) by (apply (net_wf_outer tb (q_card sa) sa), Ua).
  destruct (deliver_run last Hlast [] WOk xf sb Hb) as (tc & sc & Ec & Uc & Oc & Qc & _); [by rewrite Hxl|by destruct Ta|done|by left|].
  assert (Hub : upos false sb mac = Some t') by (change (upos false sb mac) with (upos false sa mac); rewrite (um_pos _ _ _ _ Ua); unfold advance; fold mac; rewrite bool_decide_eq_true_2 by done; change (upos false s1 mac) with (upos false s mac); by rewrite Hu).
  assert (Ey : enc false (upos false sb) xf = mask 1 t' xf) by (unfold enc; by rewrite Hxm, Hub). rewrite Ey in Ec, Oc.
  set (q2 := set_card (card_set_sent (S (c_sent (q_card sc))) (q_card sc)) (set_tq (Queue [] false) (set_tap tc sc))).
  assert (E2 : tap_writable last q1 = Done (tt, q2)) by (apply (writable_run last Hlast xf (mask 1 t' xf)); [lia|exact Qc|exact Ec]).
  assert (Eo : t_out (q_tap q2) = [zeros 10 ++ mask 1 t' xf]).
  { change (t_out (q_tap q2)) with (t_out tc). rewrite Oc. change (t_out (q_tap sb)) with (t_out ta). rewrite Oa. change (t_out (q_tap s1)) with (t_out (q_tap s)). by rewrite Hout. }
  set (yf := mask 1 t' xf) in *. assert (Hym : frame_mac false yf = mac) by (unfold yf; rewrite frame_mac_mask; [done|by rewrite Hxl]).
  assert (Hyl : length yf = length f) by (unfold yf; rewrite length_mask; [done|by rewrite Hxl]).
  assert (H2 : net_wf q2) by (apply (net_wf_outer _ _ sc), Uc).
  assert (Hk2 : kpos false q2 mac = Some t).
  { change (kpos false q2 mac) with (kpos false sc mac). rewrite (um_kpos _ _ _ _ Uc). change (kpos false sb mac) with (kpos false sa mac). by rewrite (um_kpos _ _ _ _ Ua). }
  assert (Hu2 : upos false q2 mac = Some (next (B := ctr_aes) t' (length f - 14))).
  { change (upos false q2 mac) with (upos false sc mac). rewrite (um_pos _ _ _ _ Uc). unfold advance. rewrite Hxm, bool_decide_eq_true_2 by done. by rewrite Hub, Hxl. }
  assert (Hmine : mine q2 mac).
  { intros _. unfold upos in Hu2. destruct (nic_at mac q2) as [[i n]|] eqn:En; [|done]. destruct (nic_at_inv _ _ _ _ En) as [Hi Hn]. exists n. split; [by eapply list_elem_of_lookup_2|done]. }
  destruct (hook_run false (-1) yf q2 H2) as (q3 & E3 & K); [lia|by rewrite Hym|by rewrite Hym|]. rewrite Hym, Hk2 in E3.
  exists q1, q2, q3. split_and!; [exact E1|exact E2|exact Eo| | |].
  - rewrite <- (mask_thrice last Hlast t t' f) by done. exact E3.
  - rewrite (km_pos _ _ _ _ K). unfold advance. rewrite Hym, bool_decide_eq_true_2 by done. by rewrite Hk2, Hyl.
  - destruct (km_nics _ _ _ _ K) as [N1 N2]. rewrite <- Hu2. unfold upos, nic_at, nics. by rewrite N1, N2.
Qed.
(** The slot after [i] *)
Definition slot_after (len i : nat) : nat := if (S i =? len)%nat then 0%nat else S i.
Definition slot_at (len i k : nat) : nat := Nat.iter k (slot_after len) i.

Lemma slot_at_S len i k : slot_at len i (S k) = slot_at len (slot_after len i) k.
Proof. induction k as [|k IH]; [done|]. cbn in *. by rewrite IH. Qed.

(** Descriptors without a frame of their own, then the one with it *)
Lemma tx_loop_run k : forall i slots f, (forall m, (m < k)%nat -> slots !! slot_at (length slots) i m = Some None) -> slots !! slot_at (length slots) i k = Some (Some f) ->
  forall s g s', tx_decrypt f s = Done (g, s') ->
  tx_loop (S k) i slots s = Done ((slot_at (length slots) i (S k), <[slot_at (length slots) i k := Some g]> slots), s').
Proof.
  induction k as [|k IH]; intros i slots f Hn Hf s g s' E.
  - cbn in Hf. cbn [tx_loop]. rewrite Hf. rewrite (bind_done _ _ s (<[i := Some g]> slots) s') by by rewrite (bind_done _ _ _ _ _ E). by rewrite length_insert.
  - pose proof (Hn 0%nat ltac:(lia)) as H0. cbn in H0. cbn [tx_loop]. rewrite H0. rewrite (bind_done (ret slots) _ s slots s eq_refl). fold (slot_after (length slots) i).
    rewrite !(slot_at_S _ i). apply (IH _ _ f); [|by rewrite <- slot_at_S|done]. intros m Hm. rewrite <- slot_at_S. apply Hn. lia.
Qed.

End Properties.

(** ** A machine with a private card *)

Section Boot.
Context `{BC : BlockCipher} (P : polarssl) (ops : dhm_kex_ops) (p g x : Z) (prf : prf_fun) {KA : KexAgree P ops p g x prf}.
Context (pid : Z) (junk_u : aesni_state) (junk junk_iv : bytes) (Hj : length junk_iv = MAX_IV_LEN).

(** C10 Creating a network card, with memory: [net_init_nic] returns.  With a fresh address and the
    encrypt option it either fails, and the cards and the kernel's table of addresses are as
    before, or the machine has one card more whose cipher in QEMU and in the kernel are at the
    same place of the same key streams; a card without the option is not encrypted.  The machine
    is again one whose network is transparent. *)
Theorem net_init_nic_ready opts s : machine s -> k_id (kst s) < 2 ^ 31 - 2 ->
  (forall mac, nic_mac opts s = Some mac -> mac_ok mac /\ (mac ∉ (macaddr <$> nics s)) /\ (o_encrypt opts = false -> entry (ns s) mac = None)) ->
  exists rc s', net_init_nic P (Some ops) pid junk_u junk junk_iv opts s = Done (rc, s') /\ machine s' /\ k_id (kst s') <= k_id (kst s) + 2 /\ q_tap s' = q_tap s /\ q_card s' = q_card s /\
    (rc = -1 /\ nics s' = nics s /\ same_entries (ns s) (ns s') \/
     rc = nb_nics s /\ exists n, nics s' = nics s ++ [n] /\ nic_mac opts s = Some (macaddr n) /\
       forall dir, is_Some (upos dir s' (macaddr n)) <-> o_encrypt opts = true).
Proof. intros. by apply (init_nic_run P ops p g x prf). Qed.
End Boot.

(** ** A concrete machine *)

#[local] Existing Instance aes_cipher.
#[local] Existing Instance wit_agree.
Definition wit_tap : TAPState := Tap false false (Queue [] false) (zeros (Z.to_nat TAP_BUFSIZE)) true false false 10 [] [] [].
Definition wit_card : card := Card false false (Queue [] false) [] [] [] 0.
Definition wit_q0 : qemu :=
  Qemu (LS wit_s0 [] 0 [] (replicate 64 9) 3%nat) (NetMod true (MNode (replicate 256 None)) 0 []) (replicate 8 (Nic (zeros 6) false None None)) 0 0 wit_tap wit_card.
Definition wit_nic_mac : bytes := [0x52; 0x54; 0x00; 1; 2; 3].
Definition wit_opts : nic_opts := NicOpts true (Some (Some wit_nic_mac)) None true.
Definition wit_boot : M qemu Z := net_init_nic wit_ssl (Some wit_kex_ops) 42 (Aesni [] []) [] (repeat 0 64) wit_opts.
Definition wit_q1 : qemu := exec wit_boot wit_q0.

Lemma wit_q0_inv : ninv (ns wit_q0).
Proof.
  assert (En : forall m, mac_ok m -> entry (ns wit_q0) m = None).
  { intros m [Hl _]. destruct m as [|b m]; [done|]. unfold entry. cbn [wit_q0 ns n_root nm_root q_mod]. by rewrite find_empty. }
  split.
  - apply kinv_loaded, wit_loaded.
  - intros r [? Hr]. done.
  - apply wf_empty.
  - intros m n Hm E. rewrite En in E by done. done.
  - intros m m' n n' Hm Hm' _ E. rewrite En in E by done. done.
Qed.

Lemma wit_machine : machine wit_q0.
Proof.
  split.
  - split; [apply kinv_loaded, wit_loaded|done|done| |done]. by apply Forall_replicate.
  - split.
    + split; [apply wit_q0_inv|by inversion 1|constructor|by inversion 1].
    + split; [|split; reflexivity]. split; [reflexivity..| |reflexivity|constructor]. cbn [wit_q0 q_tap wit_tap t_buf]. rewrite length_zeros. by apply Z2Nat.id.
    + split; [split; [reflexivity|split; [reflexivity|left; reflexivity]]|reflexivity].
    + intros dir mac. reflexivity.
  - reflexivity.
  - intros i n Hn. assert (n = Nic (zeros 6) false None None) as ->; [|split; [done|cbn; lia]]. apply list_elem_of_lookup_2, elem_of_replicate in Hn. by destruct Hn.
Qed.

Lemma wit_boot_rc : match wit_boot wit_q0 with Done (b, _) => Some b | Oops _ => None end = Some 0.
Proof. vm_compute. reflexivity. Qed.

Lemma wit_boot_post : wit_boot wit_q0 = Done (0, wit_q1) /\ init_post wit_opts wit_q0 0 wit_q1.
Proof.
  apply (run_done wit_boot wit_q0 (init_post wit_opts wit_q0)); [|exact wit_boot_rc].
  apply (init_nic_run wit_ssl wit_kex_ops 23 5 6 wit_prf 42 (Aesni [] []) [] (repeat 0 64) eq_refl wit_opts wit_q0 wit_machine); [reflexivity|].
  intros mac Hm. injection Hm as <-. split; [by repeat constructor|]. split; [|discriminate]. by inversion 1.
Qed.

Lemma wit_boot_run : exists n, wit_boot wit_q0 = Done (0, wit_q1) /\ machine wit_q1 /\ nics wit_q1 = [n] /\ macaddr n = wit_nic_mac /\ forall dir, is_Some (upos dir wit_q1 wit_nic_mac).
Proof.
  destruct wit_boot_post as (E & M & _ & _ & _ & [(C & _)|(_ & n & En & Em & Hu)]); [discriminate C|].
  assert (Em' : macaddr n = wit_nic_mac) by (injection Em as Em; symmetry; exact Em). exists n. split; [exact E|]. split; [exact M|]. split; [exact En|]. split; [exact Em'|].
  intros dir. rewrite <- Em'. apply Hu. reflexivity.
Qed.

(** Frames to and from the card *)
Definition wit_peer : bytes := [2; 0; 0; 0; 0; 9].
Definition wit_in : bytes := wit_nic_mac ++ wit_peer ++ [8; 0] ++ [1; 2; 3].
Definition wit_out : bytes := wit_peer ++ wit_nic_mac ++ [8; 0] ++ [4; 5; 6; 7].

Lemma wit_mine : mine wit_q1 wit_nic_mac.
Proof. destruct wit_boot_run as (n & _ & _ & En & Em & _). intros _. exists n. rewrite En, list_elem_of_singleton. split; [reflexivity|exact Em]. Qed.

Lemma wit_tap1 : q_tap wit_q1 = wit_tap /\ q_card wit_q1 = wit_card.
Proof. destruct wit_boot_post as (_ & _ & _ & Et & Ec & _). split; [exact Et|exact Ec]. Qed.

Lemma wit_last : length (replicate 16 3) = 16%nat.
Proof. reflexivity. Qed.
Lemma wit_bytes : bytes_ok wit_in /\ bytes_ok wit_out.
Proof. split; repeat constructor; done. Qed.

Definition wit_traffic : list nop := [WireIn (zeros 10) wit_in; TapReady; GuestSend wit_out; Xmit].


Lemma net_init_nic_ready_witness : exists rc s', wit_boot wit_q0 = Done (rc, s') /\ machine s'.
Proof.
  destruct (net_init_nic_ready wit_ssl wit_kex_ops 23 5 6 wit_prf 42 (Aesni [] []) [] (repeat 0 64) eq_refl wit_opts wit_q0 wit_machine) as (rc & s' & E & M & _).
  - reflexivity.
  - intros mac Hm. injection Hm as <-. split; [by repeat constructor|]. split; [|discriminate]. by inversion 1.
  - exists rc, s'. split; [exact E|exact M].
Defined.

(** A state and the same state with another tap *)
Lemma other_tap t s : (net_wf s -> net_wf (set_tap t s)) /\ (forall dir, upos dir (set_tap t s) = upos dir s) /\ (forall dir, kpos dir (set_tap t s) = kpos dir s) /\
  q_tap (set_tap t s) = t /\ q_card (set_tap t s) = q_card s.
Proof. split; [exact (net_wf_outer t (q_card s) s)|]. split_and!; reflexivity. Qed.

(** The tap's next write is refused. *)
Definition wit_busy : qemu := set_tap (tap_set_device [] [] [WAgain] wit_tap) wit_q1.

Lemma busy_tap_encrypts_twice_witness : exists t q1, card_send_packet_async (replicate 16 3) wit_out true wit_busy = Done ((0, mask 1 t wit_out), q1) /\
  upos false wit_busy wit_nic_mac = Some t.
Proof.
  destruct wit_boot_run as (n & _ & M & _ & _ & Hu). destruct (Hu false) as [t Ht]. destruct wit_tap1 as [_ Ec].
  pose proof (nr_sync _ (mc_ready _ M) false wit_nic_mac) as Hk. rewrite Ht in Hk.
  destruct (other_tap (tap_set_device [] [] [WAgain] wit_tap) wit_q1) as (W & U & K & T & C).
  destruct (busy_tap_encrypts_twice (replicate 16 3) wit_busy wit_out t wit_last) as (q1 & q2 & q3 & H1 & _); unfold wit_busy.
  - exact (W (nr_wf _ (mc_ready _ M))).
  - cbn; lia.
  - split; [reflexivity|]. by repeat constructor.
  - rewrite T. split; reflexivity.
  - unfold tq. rewrite T. reflexivity.
  - rewrite T. reflexivity.
  - rewrite C, Ec. reflexivity.
  - rewrite U. exact Ht.
  - rewrite K. exact Hk.
  - exists t, q1. split; [exact H1|]. rewrite U. exact Ht.
Defined.

Definition wit_ring : tx_ring := Ring [None; Some wit_out; None] 0.

