(* ===== verification/QemuInput.v ===== *)
(** * Private input: QEMU's side of the USB channel

    qemu-kvm-0.15.1: priv-usb.c, priv-input.c, the private part of the USB host devices
    (usb-linux.c, hw/usb-bus.c), of the display (ui/sdl.c), of the hypercalls (kvm-all.c) and of the command line (vl.c), above
    the library ([LibPriv]) and the kernel's USB channel ([UsbChannel]).

    A keyboard or mouse belongs to the host or, in private mode, to the guest.  Entering private
    mode opens the devices in QEMU and activates their contexts, so that the kernel encrypts
    what they send and QEMU decrypts it; leaving it takes them away again. *)

From S2P Require Import Prelude Text BlkCipher Ctr AesCipher PrivCrypt Kex Driver UsbChannel LibPriv.

(** ** State *)

(** [struct priv_kbd_info] *)
Record priv_kbd_info := Kbd { lctrl : bool; lalt : bool }.

(** [priv_handle_packet] of a device, and the operations of a private device *)
Inductive handler := priv_handle_enc | priv_kbd_handle.
Inductive PrivDeviceOps := usb_kbd_ops | usb_mouse_ops | do_nothing_ops.

(** [USBDevice] and [USBHostDevice] in one: the kernel's device, whether it is open and attached,
    the address the guest gave it, and its private fields *)
Record usbdev := UsbDev { ud_kdev : nat; ud_attached : bool; ud_addr : Z; ud_handler : option handler; ud_opaque : option nat }.

(** A completed [USBPacket] for the guest *)
Inductive usb_ret := Data (d : bytes) | USB_RET_STALL | USB_RET_NAK.
Record USBPacket := Packet { p_len : Z; p_data : bytes }.

(** The kernel's endpoint device of a USB device; [kd_given] are the URBs that wait to be reaped,
    newest first. *)
Record kdev := KDev { kd_dev : device; kd_pending : bool; kd_count : Z; kd_given : list (Z * urb * Z) }.

(** QEMU's USB devices: the heap, the ports in use, the next address, and what the next opens do:
    [None] if the device cannot be created, otherwise whether it is plugged in *)
Record usbs := Usbs { us_heap : gmap nat usbdev; us_bus : list nat; us_next : nat; us_opens : list (option bool) }.

(** The flags of priv-input.c and sdl.c, and what the next grabs answer *)
Record ui := Ui {
  gui_grab : bool;
  grabs : list bool;
  kbd_enabled : bool;
  mouse_enabled : bool;
  do_bench : bool;
  bench : Z;
  bench_status : Z;
  needs_reset : bool;
}.

Section Input.
Context `{BC : BlockCipher}.

(** [struct PrivUSBDevice]; [pd_freed] is whether the back end of the context was destroyed. *)
Record PrivUSBDevice := Pud {
  pd_ops : PrivDeviceOps;
  pd_dev : option nat;
  pd_opaque : option priv_kbd_info;
  pd_toggler : bool;
  pd_cctx : option priv_cctx;
  pd_freed : bool;
  pd_encrypt : bool;
  pd_kdev : nat;
}.

(** [in_puds] by address, [in_list] is [priv_devices]; [in_guest] are the packets completed for
    the guest, oldest first, with the device. *)
Record input := Input {
  in_lib : lstate;
  in_kdevs : list kdev;
  in_usbs : usbs;
  in_puds : list PrivUSBDevice;
  in_list : list nat;
  in_guest : list (nat * usb_ret);
  in_ui : ui;
}.

Abbreviation Q := (M input).

Definition set_lib (l : lstate) (s : input) : input := Input l (in_kdevs s) (in_usbs s) (in_puds s) (in_list s) (in_guest s) (in_ui s).
Definition set_kdevs (l : list kdev) (s : input) : input := Input (in_lib s) l (in_usbs s) (in_puds s) (in_list s) (in_guest s) (in_ui s).
Definition set_usbs (u : usbs) (s : input) : input := Input (in_lib s) (in_kdevs s) u (in_puds s) (in_list s) (in_guest s) (in_ui s).
Definition set_puds (l : list PrivUSBDevice) (s : input) : input := Input (in_lib s) (in_kdevs s) (in_usbs s) l (in_list s) (in_guest s) (in_ui s).
Definition set_devlist (l : list nat) (s : input) : input := Input (in_lib s) (in_kdevs s) (in_usbs s) (in_puds s) l (in_guest s) (in_ui s).
Definition set_guest (l : list (nat * usb_ret)) (s : input) : input := Input (in_lib s) (in_kdevs s) (in_usbs s) (in_puds s) (in_list s) l (in_ui s).
Definition set_ui (u : ui) (s : input) : input := Input (in_lib s) (in_kdevs s) (in_usbs s) (in_puds s) (in_list s) (in_guest s) u.
Definition in_library {A} (m : M lstate A) : Q A := zoom in_lib set_lib m.
Definition on_ui (f : ui -> ui) : Q unit := modify (fun s => set_ui (f (in_ui s)) s).

(** The kernel's view of one device *)
Definition in_kdev {A} (k : nat) (m : M ustate A) : Q A := fun s =>
  match in_kdevs s !! k with
  | None => Oops WildPtr
  | Some d =>
      match m (US (l_k (in_lib s)) (kd_dev d) (kd_pending d) (kd_count d) (kd_given d)) with
      | Oops f => Oops f
      | Done (a, u) =>
          Done (a, set_kdevs (<[k := KDev (u_dev u) (u_pending u) (u_count u) (u_given u)]> (in_kdevs s))
                     (set_lib (set_lk (u_k u) (in_lib s)) s))
      end
  end.

(** Private devices and USB devices by address; a USB device that is not in the heap was freed. *)
Definition load_pud (i : nat) : Q PrivUSBDevice := let! s := get in match in_puds s !! i with Some d => ret d | None => oops WildPtr end.
Definition upd_pud (i : nat) (f : PrivUSBDevice -> PrivUSBDevice) : Q unit := modify (fun s => set_puds (alter f i (in_puds s)) s).
Definition load_usb (h : nat) : Q usbdev := let! s := get in match us_heap (in_usbs s) !! h with Some d => ret d | None => oops UseAfterFree end.
Definition put_heap (m : gmap nat usbdev) (s : input) : input :=
  set_usbs (Usbs m (us_bus (in_usbs s)) (us_next (in_usbs s)) (us_opens (in_usbs s))) s.
Definition put_bus (l : list nat) (s : input) : input :=
  set_usbs (Usbs (us_heap (in_usbs s)) l (us_next (in_usbs s)) (us_opens (in_usbs s))) s.
Definition upd_usb (h : nat) (f : usbdev -> usbdev) : Q unit :=
  let! d := load_usb h in modify (fun s => put_heap (<[h := f d]> (us_heap (in_usbs s))) s).

Definition with_dev (o : option nat) (d : PrivUSBDevice) := Pud (pd_ops d) o (pd_opaque d) (pd_toggler d) (pd_cctx d) (pd_freed d) (pd_encrypt d) (pd_kdev d).
Definition with_opaque (o : option priv_kbd_info) (d : PrivUSBDevice) := Pud (pd_ops d) (pd_dev d) o (pd_toggler d) (pd_cctx d) (pd_freed d) (pd_encrypt d) (pd_kdev d).
Definition with_cctx (o : option priv_cctx) (b : bool) (d : PrivUSBDevice) := Pud (pd_ops d) (pd_dev d) (pd_opaque d) (pd_toggler d) o b (pd_encrypt d) (pd_kdev d).
Definition with_handler (o : option handler) (p : option nat) (d : usbdev) := UsbDev (ud_kdev d) (ud_attached d) (ud_addr d) o p.
Definition with_attached (b : bool) (d : usbdev) := UsbDev (ud_kdev d) b (ud_addr d) (ud_handler d) (ud_opaque d).

(** The context of a device; after its destruction the pointer stays. *)
Definition the_cctx (i : nat) : Q priv_cctx :=
  let! d := load_pud i in
  match pd_cctx d with
  | None => oops NullDeref
  | Some c => if pd_freed d then oops UseAfterFree else ret c
  end.

(** ** priv-input.c: flags *)

Definition PRIV_INPUT_BENCH_KEYBOARD : Z := 0x01.
Definition PRIV_INPUT_BENCH_MOUSE : Z := 0x02.

Definition priv_set_kbd_enabled (status : bool) : Q unit :=
  on_ui (fun u => Ui (gui_grab u) (grabs u) status (mouse_enabled u) (do_bench u)
    (if status then Z.lor (bench u) PRIV_INPUT_BENCH_KEYBOARD else Z.land (bench u) (Z.lnot PRIV_INPUT_BENCH_KEYBOARD)) (bench_status u) (needs_reset u)).

Definition priv_set_mouse_enabled (status : bool) : Q unit :=
  on_ui (fun u => Ui (gui_grab u) (grabs u) (kbd_enabled u) status (do_bench u)
    (if status then Z.lor (bench u) PRIV_INPUT_BENCH_MOUSE else Z.land (bench u) (Z.lnot PRIV_INPUT_BENCH_MOUSE)) (bench_status u) (needs_reset u)).

Definition priv_input_bench_trigger (type : Z) : Q unit :=
  on_ui (fun u => Ui (gui_grab u) (grabs u) (kbd_enabled u) (mouse_enabled u) (do_bench u) (bench u) (Z.lor (bench_status u) type) (needs_reset u)) ;;
  let! u := gets in_ui in
  if do_bench u && (Z.land (bench_status u) (bench u) =? bench u) then oops Exit else ret tt.

Definition set_hotplug_needs_reset (b : bool) : Q unit :=
  on_ui (fun u => Ui (gui_grab u) (grabs u) (kbd_enabled u) (mouse_enabled u) (do_bench u) (bench u) (bench_status u) b).
Definition set_gui_grab (b : bool) : Q unit :=
  on_ui (fun u => Ui b (grabs u) (kbd_enabled u) (mouse_enabled u) (do_bench u) (bench u) (bench_status u) (needs_reset u)).

(** [priv_dev_for_all] *)
Fixpoint priv_dev_for_all (fn : nat -> Q Z) (l : list nat) : Q Z :=
  match l with
  | [] => ret 0
  | i :: l => let! rc := fn i in if rc <? 0 then ret (-1) else priv_dev_for_all fn l
  end.

Section Devices.
(** The stack buffer of the library's cipher, the kernel's key exchange and the process *)
Context (last : bytes) (ops : option (@dhm_kex_ops ctr_aes)) (pid : Z).

(** ** Leaving private mode *)

(** [async_complete] of a device, which closing it calls *)
Section Close.
Context (async_complete : nat -> Q unit).

(** [usb_host_close]: what was not reaped goes when the file is closed. *)
Definition usb_host_close (h : nat) : Q Z :=
  let! d := load_usb h in
  if negb (ud_attached d) then ret (-1) else
  async_complete h ;;
  upd_usb h (with_attached false) ;;
  modify (fun s => put_bus (filter (fun p => p <> h) (us_bus (in_usbs s))) s) ;;
  modify (fun s => set_kdevs (alter (fun k => KDev (kd_dev k) (kd_pending k) (kd_count k) []) (ud_kdev d) (in_kdevs s)) s) ;;
  ret 0.

(** [qdev_free], through [usb_qdev_exit] and [usb_host_handle_destroy] *)
Definition qdev_free (h : nat) : Q unit :=
  let! _ := usb_host_close h in
  modify (fun s => put_heap (delete h (us_heap (in_usbs s))) s).

(** The search of [usb_device_delete_addr] *)
Fixpoint find_addr (addr : Z) (l : list nat) : Q (option nat) :=
  match l with
  | [] => ret None
  | p :: l => let! d := load_usb p in if ud_addr d =? addr then ret (Some p) else find_addr addr l
  end.

(** [usb_close_host_dev]: the device is deleted by the address the guest gave it. *)
Definition usb_close_host_dev (h : nat) : Q Z :=
  let! d := load_usb h in
  let! s := get in
  let! o := find_addr (ud_addr d) (us_bus (in_usbs s)) in
  match o with
  | None => ret (-1)
  | Some p => qdev_free p ;; ret 0
  end.

(** [usb_dev_disconnect], [usb_kbd_disconnect] *)
Definition usb_dev_disconnect (i : nat) : Q Z :=
  let! d := load_pud i in
  match pd_dev d with
  | None => ret 0
  | Some h =>
      (if pd_encrypt d then let! c := the_cctx i in let! _ := in_library (priv_deactivate ops pid c) in ret tt else ret tt) ;;
      upd_usb h (with_handler None None) ;;
      let! rc := usb_close_host_dev h in
      ret (if rc <? 0 then -1 else 0)
  end.

Definition usb_kbd_disconnect (i : nat) : Q Z :=
  let! d := load_pud i in
  (if pd_toggler d then upd_pud i (with_opaque None) else ret tt) ;;
  usb_dev_disconnect i.

(** [priv_dev_disconnect] *)
Definition priv_dev_disconnect (i : nat) : Q Z :=
  let! d := load_pud i in
  match pd_ops d with
  | usb_kbd_ops => usb_kbd_disconnect i
  | usb_mouse_ops => usb_dev_disconnect i
  | do_nothing_ops => ret 0
  end.

Definition priv_disconnect_all : Q Z :=
  set_hotplug_needs_reset true ;;
  let! l := gets in_list in
  priv_dev_for_all priv_dev_disconnect l.

(** [sdl_grab_end] *)
Definition sdl_grab_end : Q unit :=
  let! rc := priv_disconnect_all in
  if rc <? 0 then oops Exit else set_gui_grab false.

(** ** Packets *)

Definition USB_KBD_LCTRL : Z := 0x01.
Definition USB_KBD_LALT : Z := 0x04.

(** [priv_handle_enc_packet]: the status and the packet; an error of [priv_crypt] is not passed
    on. *)
Definition priv_handle_enc_packet (i : nat) (packet : USBPacket) : Q (Z * USBPacket) :=
  let! c := the_cctx i in
  let len := u64 (p_len packet) in
  if Z.of_nat (length (p_data packet)) <? len then oops OutOfBounds else
  let '(_, c, out) := LibPriv.priv_crypt last c (take (Z.to_nat len) (p_data packet)) in
  upd_pud i (with_cctx (Some c) false) ;;
  ret (0, Packet (p_len packet) (splice 0 out (p_data packet))).

(** [priv_kbd_handle_packet] *)
Definition priv_kbd_handle_packet (i : nat) (packet : USBPacket) : Q (Z * USBPacket) :=
  let! d := load_pud i in
  let! packet := if pd_encrypt d then let! r := priv_handle_enc_packet i packet in ret (snd r) else ret packet in
  if p_len packet <? 1 then ret (0, packet) else
  match p_data packet, pd_opaque d with
  | [], _ => oops OutOfBounds
  | _, None => oops NullDeref
  | ctrl_alt_state :: _, Some pki =>
      let ctrl := truthy (Z.land ctrl_alt_state USB_KBD_LCTRL) in
      let alt := truthy (Z.land ctrl_alt_state USB_KBD_LALT) in
      let on := ctrl && negb (lctrl pki) || alt && negb (lalt pki) in
      upd_pud i (with_opaque (Some (Kbd ctrl alt))) ;;
      if on && ctrl && alt then sdl_grab_end ;; ret (1, packet) else ret (0, packet)
  end.
End Close.

(** One pass of [async_complete] for a URB of an interrupt transfer: the packet is [p] before the
    handler sees it. *)
Definition urb_packet (x : urb) (status : Z) : USBPacket :=
  let d := default [] (urb_buf x) in
  Packet (if status =? 0 then Z.of_nat (length d) else if status =? - EPIPE then -3 else -2) d.

(** What the guest gets *)
Definition packet_ret (p : USBPacket) : usb_ret :=
  if p_len p =? -3 then USB_RET_STALL else if p_len p <? 0 then USB_RET_NAK else Data (take (Z.to_nat (p_len p)) (p_data p)).

(** [async_complete]: it reaps the URBs that wait, oldest first; each is a whole interrupt transfer
    whose packet was not cancelled.  [fuel] bounds the passes and the depth of the calls. *)
Fixpoint async_complete (fuel : nat) (h : nat) : Q unit :=
  match fuel with
  | O => oops Hang
  | S fuel =>
      let! d := load_usb h in
      if negb (ud_attached d) then ret tt else
      let! s := get in
      match reverse (from_option kd_given [] (in_kdevs s !! ud_kdev d)) with
      | [] => ret tt                                (* EAGAIN *)
      | (_, x, status) :: rest =>
          modify (fun s => set_kdevs (alter (fun k => KDev (kd_dev k) (kd_pending k) (kd_count k) (reverse rest)) (ud_kdev d) (in_kdevs s)) s) ;;
          let p := urb_packet x status in
          (if p_len p =? 8 then priv_input_bench_trigger PRIV_INPUT_BENCH_KEYBOARD
           else if p_len p =? 4 then priv_input_bench_trigger PRIV_INPUT_BENCH_MOUSE else ret tt) ;;
          let! d := load_usb h in
          let! r :=
            match ud_handler d, ud_opaque d with
            | None, _ => ret (0, p)
            | _, None => oops NullDeref
            | Some priv_handle_enc, Some i => priv_handle_enc_packet i p
            | Some priv_kbd_handle, Some i => priv_kbd_handle_packet (async_complete fuel) i p
            end in
          (if fst r =? 0 then modify (fun s => set_guest (in_guest s ++ [(h, packet_ret (snd r))]) s) else ret tt) ;;
          let! _ := load_usb h in                   (* async_free: the list of [s] *)
          async_complete fuel h
      end
  end.

(** ** Entering private mode *)

(** [usb_host_device_open] *)
Definition usb_host_device_open (k : nat) : Q (option nat) :=
  let! s := get in
  let u := in_usbs s in
  let h := us_next u in
  match us_opens u with
  | None :: l => modify (set_usbs (Usbs (us_heap u) (us_bus u) h l)) ;; ret None
  | l =>
      let att := if l is Some b :: _ then b else true in
      modify (set_usbs (Usbs (<[h := UsbDev k att 0 None None]> (us_heap u)) (if att then us_bus u ++ [h] else us_bus u) (S h) (tail l))) ;;
      ret (Some h)
  end.

Definition usb_dev_connect (i : nat) : Q Z :=
  let! d := load_pud i in
  let! o := usb_host_device_open (pd_kdev d) in
  upd_pud i (with_dev o) ;;
  match o with
  | None => ret (-1)
  | Some h =>
      if pd_encrypt d then
        let! c := the_cctx i in
        let! rc := in_library (priv_activate ops pid c) in
        if rc <? 0 then ret (-1) else
        upd_usb h (with_handler (Some priv_handle_enc) (Some i)) ;;
        ret 0
      else ret 0
  end.

Definition usb_kbd_connect (i : nat) : Q Z :=
  let! rc := usb_dev_connect i in
  if rc <? 0 then ret rc else
  let! d := load_pud i in
  if pd_toggler d then
    upd_pud i (with_opaque (Some (Kbd false false))) ;;
    match pd_dev d with
    | None => oops NullDeref
    | Some h => upd_usb h (with_handler (Some priv_kbd_handle) (Some i)) ;; ret rc
    end
  else ret rc.

Definition priv_dev_connect (i : nat) : Q Z :=
  let! d := load_pud i in
  match pd_ops d with
  | usb_kbd_ops => usb_kbd_connect i
  | usb_mouse_ops => usb_dev_connect i
  | do_nothing_ops => ret 0
  end.

Definition priv_connect_all : Q Z :=
  set_hotplug_needs_reset true ;;
  let! l := gets in_list in
  priv_dev_for_all priv_dev_connect l.

(** [sdl_grab_start] *)
Definition sdl_grab_start : Q unit :=
  let! rc := priv_connect_all in
  if rc <? 0 then oops Exit else
  let! u := gets in_ui in
  on_ui (fun u => Ui (gui_grab u) (tail (grabs u)) (kbd_enabled u) (mouse_enabled u) (do_bench u) (bench u) (bench_status u) (needs_reset u)) ;;
  if (if grabs u is false :: _ then false else true) then set_gui_grab true else ret tt.

(** The hypercall KVM_HC_TOGGLE of kvm-all.c *)
Definition kvm_hc_toggle (fuel : nat) (a0 : Z) : Q unit :=
  if a0 =? 0 then
    let! u := gets in_ui in
    if kbd_enabled u then sdl_grab_end (async_complete fuel) else ret tt
  else if a0 =? 1 then priv_input_bench_trigger PRIV_INPUT_BENCH_MOUSE
  else if a0 =? 2 then priv_input_bench_trigger PRIV_INPUT_BENCH_KEYBOARD
  else ret tt.

(** [usb_dev_free], [priv_free_all] *)
Definition usb_dev_free (i : nat) : Q Z :=
  let! d := load_pud i in
  match pd_cctx d with
  | None => ret 0
  | Some _ =>
      let! c := the_cctx i in
      in_library (priv_destroy_cctx ops pid c) ;;
      upd_pud i (with_cctx (Some c) true) ;;
      ret 0
  end.

Definition priv_dev_free (i : nat) : Q Z :=
  let! d := load_pud i in
  match pd_ops d with do_nothing_ops => ret 0 | _ => usb_dev_free i end.

Definition priv_free_all : Q Z := let! l := gets in_list in priv_dev_for_all priv_dev_free l.
End Devices.

(** ** Configuration *)

Section Config.
(** The library's key exchange, the kernel's, and uninitialised memory; whether
    [usb_linux_get_port] finds the device *)
Context (P : polarssl) (ops : option (@dhm_kex_ops ctr_aes)) (pid : Z) (junk_u : aesni_state) (junk junk_iv : bytes).

(** [usb_crypt_setup] of the private device at [i] *)
Definition usb_crypt_setup (port_found : bool) (i : nat) : Q Z :=
  let! d := load_pud i in
  let! r := in_library (priv_create_cctx junk_u junk_iv PRIV_CRYPT_ALG_AES_CTR 16) in
  match r with
  | (rc, None) => ret rc
  | (_, Some c) =>
      let! r := in_library (priv_new_backend P ops pid junk junk_iv c) in
      let c := snd r in
      let out_destroy (rc : Z) : Q Z :=
        in_library (priv_destroy_cctx ops pid c) ;;
        upd_pud i (with_cctx (Some c) true) ;;
        ret rc in
      if fst r <? 0 then out_destroy (fst r) else
      let! r := in_library (priv_get_id c (Some 0)) in
      match r with
      | (_, None) => out_destroy (fst r)
      | (rc, Some cctx_id) =>
          if rc <? 0 then out_destroy rc else
          if negb port_found then out_destroy (-1) else
          let! s := get in
          if negb (from_option (fun k => d_attr (kd_dev k)) false (in_kdevs s !! pd_kdev d)) then out_destroy (-1) else
          let sysfs_buf := sprintf_d (s32 cctx_id) in
          let! n := in_kdev (pd_kdev d) (device_cctx_id_store sysfs_buf) in
          if negb (n =? Z.of_nat (length sysfs_buf)) then out_destroy 0 else
          upd_pud i (with_cctx (Some c) false) ;;
          ret 0
      end
  end.

(** The options of [priv_config_usb]: the operations, the device that bus_num names (if it parses), and
    the flags *)
Record usb_opts := UsbOpts { uo_ops : option PrivDeviceOps; uo_bus_num : option nat; uo_toggler : bool; uo_encrypt : bool; uo_port_found : bool }.

(** [priv_config_usb] of a configuration with type=usb: the new device *)
Definition priv_config_usb (o : usb_opts) : Q (option nat) :=
  match uo_ops o, uo_bus_num o with
  | Some dops, Some k =>
      let! l := gets in_puds in
      let i := length l in
      modify (set_puds (l ++ [Pud dops None None (uo_toggler o) None false (uo_encrypt o) k])) ;;
      let! rc := if uo_encrypt o then usb_crypt_setup (uo_port_found o) i else ret 0 in
      if rc <? 0 then ret None else
      match dops with
      | usb_kbd_ops => priv_set_kbd_enabled true ;; ret (Some i)
      | usb_mouse_ops => priv_set_mouse_enabled true ;; ret (Some i)
      | do_nothing_ops => ret (Some i)
      end
  | _, _ => ret None
  end.

(** [config_pci_usb_dev] *)
Definition config_pci_usb_dev (kbd : bool) : Q (option nat) :=
  let! l := gets in_puds in
  modify (set_puds (l ++ [Pud do_nothing_ops None None false None false false 0])) ;;
  (if kbd then priv_set_kbd_enabled true else priv_set_mouse_enabled true) ;;
  ret (Some (length l)).

(** [priv_config_input], for configurations of USB devices and for the placeholders of devices
    behind an assigned PCI controller *)
Inductive config := CUsb (o : usb_opts) | CPciUsbDev (kbd : bool) | CNoMatch.

Definition priv_config_input (c : config) : Q Z :=
  let found (o : option nat) : Q Z :=
    match o with
    | None => ret (-1)
    | Some i => modify (fun s => set_devlist (i :: in_list s) s) ;; ret 0
    end in
  match c with
  | CUsb o => let! r := priv_config_usb o in found r
  | CPciUsbDev kbd => let! r := config_pci_usb_dev kbd in found r
  | CNoMatch => ret (-1)
  end.

(** The options -priv-input of the command line, in vl.c *)
Fixpoint priv_input_options (l : list config) : Q unit :=
  match l with
  | [] => ret tt
  | c :: l => let! rc := priv_config_input c in if rc <? 0 then oops Exit else priv_input_options l
  end.
End Config.
End Input.
