(* ===== verification/InputPath.v ===== *)
(** * Private input from the device to the guest

    What [QemuInput] and the kernel's USB channel do together: the stream of packets of an encrypted
    device, entering and leaving private mode, and where it goes wrong. *)

From stdpp Require Import functions.
From S2P Require Import Prelude Text BlkCipher Ctr AesCipher PrivCrypt Kex Driver UsbChannel LibPriv Session QemuInput.

(** ** Packets under a key stream *)

Section Stream.
Context `{BC : BlockCipher}.

Fixpoint sealed (t : ctr_tfm) (l : list bytes) : list bytes :=
  match l with [] => [] | d :: l => stream_xor (B := ctr_aes) t d :: sealed (next (B := ctr_aes) t (length d)) l end.
Definition after (t : ctr_tfm) (l : list bytes) : ctr_tfm := foldl (fun t d => next (B := ctr_aes) t (length d)) t l.

Lemma sealed_snoc t l d : sealed t (l ++ [d]) = sealed t l ++ [stream_xor (B := ctr_aes) (after t l) d].
Proof. revert t. induction l as [|x l IH]; intros t; [done|]. cbn. by rewrite IH. Qed.
Lemma after_snoc t l d : after t (l ++ [d]) = next (B := ctr_aes) (after t l) (length d).
Proof. unfold after. by rewrite foldl_app. Qed.
Lemma length_sealed t l : length (sealed t l) = length l.
Proof. revert t. induction l as [|x l IH]; intros t; [done|]. cbn. by rewrite IH. Qed.

Lemma packet_ret_data x : packet_ret (Packet (Z.of_nat (length x)) x) = Data x.
Proof.
  unfold packet_ret. cbn [p_len p_data]. destruct (Z.eqb_spec (Z.of_nat (length x)) (-3)); [lia|]. destruct (Z.ltb_spec (Z.of_nat (length x)) 0); [lia|]. by rewrite Nat2Z.id, firstn_all.
Qed.
End Stream.

(** ** One device *)

Section Path.
Context `{BC : BlockCipher} (last : bytes) (Hlast : length last = 16%nat) (ops : option (@dhm_kex_ops ctr_aes)) (pid : Z).

Definition kst (s : input) : kstate := l_k (in_lib s).
Definition view (s : input) (k : kdev) : ustate := US (kst s) (kd_dev k) (kd_pending k) (kd_count k) (kd_given k).

Lemma in_kdev_run {A} k kd (m : M ustate A) s a u : in_kdevs s !! k = Some kd -> m (view s kd) = Done (a, u) ->
  in_kdev k m s = Done (a, set_kdevs (<[k := KDev (u_dev u) (u_pending u) (u_count u) (u_given u)]> (in_kdevs s)) (set_lib (set_lk (u_k u) (in_lib s)) s)).
Proof. intros Hk E. unfold in_kdev. rewrite Hk. unfold view, kst in E. by rewrite E. Qed.

(** Both modifier keys of the release combination *)
Definition both_keys (d : bytes) : bool :=
  match d with [] => false | b :: _ => truthy (Z.land b USB_KBD_LCTRL) && truthy (Z.land b USB_KBD_LALT) end.
Definition calm (hd : option handler) (d : bytes) : Prop := Z.of_nat (length d) < 2 ^ 16 /\ (hd = Some priv_kbd_handle -> both_keys d = false).

(** A URB given back with its data *)
Definition back (x : bytes) : Z * urb * Z := (0, Urb true (Some x), 0).

(** A connected device: [u] is the library's cipher, [t] the kernel's; the packets [gs] are encrypted and wait to
    be reaped, [ps] waits for the kernel's worker. *)
Record conn (s : input) (i : nat) (d : PrivUSBDevice) (h : nat) (ud : usbdev) (kd : kdev) (q : nat) (y : priv_crypt_ctx) (c : priv_cctx) (u t : ctr_tfm) (gs ps : list bytes) : Prop := {
  cn_pud : in_puds s !! i = Some d;
  cn_dev : pd_dev d = Some h;
  cn_enc : pd_encrypt d = true;
  cn_freed : pd_freed d = false;
  cn_cctx : pd_cctx d = Some c;
  cn_usb : us_heap (in_usbs s) !! h = Some ud;
  cn_att : ud_attached ud = true;
  cn_same : ud_kdev ud = pd_kdev d;
  cn_opaque : ud_opaque ud = Some i;
  cn_handler : ud_handler ud = Some priv_handle_enc \/ ud_handler ud = Some priv_kbd_handle /\ is_Some (pd_opaque d);
  cn_kdev : in_kdevs s !! pd_kdev d = Some kd;
  cn_priv : is_Some (d_priv (kd_dev kd));
  cn_ref : k_refs (kst s) !! d_ref (kd_dev kd) = Some (Some q);
  cn_ctx : k_ctxs (kst s) !! q = Some y;
  cn_act : cc_activated y <> 0;
  cn_cipher : cc_cipher y = Some t;
  cn_user : pc_user c = Some (Aesni (t_key u) (t_iv u));
  cn_iv : iv_ok (t_iv u);
  cn_given : kd_given kd = reverse (back <$> sealed u gs);
  cn_after : t = after u gs;
  cn_pend : ps = [] /\ kd_pending kd = false \/
    exists x, ps = [x] /\ kd_pending kd = true /\ d_priv (kd_dev kd) = Some (Some (Work 0 (Urb true (Some x)) 0));
  cn_calm : Forall (calm (ud_handler ud)) (gs ++ ps);
}.

(** The worker with an active context, and what it leaves alone *)
Lemma work_run (v : ustate) w q y t x : kinv (u_k v) -> k_refs (u_k v) !! d_ref (u_dev v) = Some (Some q) -> k_ctxs (u_k v) !! q = Some y ->
  cc_cipher y = Some t -> cc_activated y <> 0 -> d_priv (u_dev v) = Some (Some w) -> w_urb w = Urb true (Some x) ->
  exists y', encrypt_and_giveback_urb v = Done (tt, US (put q y' (u_k v)) (u_dev v) false (u_count v)
      ((w_hcd w, Urb true (Some (stream_xor (B := ctr_aes) t x)), w_status w) :: u_given v)) /\
    kinv (put q y' (u_k v)) /\ cc_cipher y' = Some (next (B := ctr_aes) t (length x)) /\ cc_activated y' = cc_activated y.
Proof.
  intros H Hr Hq Ht Ha Hd Hw. destruct (priv_crypt_run q y t x (u_k v) Hq (ki_ok _ H _ _ Hq) Ht Ha) as (pg & _ & _ & Hok & E).
  set (y' := upd_pg _ _) in *. exists y'. split; [|split; [by eapply kinv_put|done]].
  unfold encrypt_and_giveback_urb, bind at 1 2, modify, gets. cbn [u_dev set_pending]. rewrite Hd, Hw. set (v1 := set_pending false v).
  assert (Hr1 : k_refs (u_k v1) !! d_ref (u_dev v1) = Some (Some q)) by done. assert (Hq1 : k_ctxs (u_k v1) !! q = Some y) by done.
  assert (E1 : priv_usb_urb_enc (Urb true (Some x)) v1 = Done ((0, Urb true (Some (stream_xor (B := ctr_aes) t x))), set_k (put q y' (u_k v)) v1)).
  { unfold priv_usb_urb_enc. cbn [urb_ep_dev negb urb_buf]. unfold bind at 1, gets.
    rewrite (bind_run _ _ _ _ _ (kern_run _ v1 _ _ (load_ref_run _ _ _ Hr1))), set_k_id. cbv iota beta.
    rewrite (bind_run _ _ _ _ _ (kern_run _ v1 _ _ (is_activated_run _ _ _ Hq1))), set_k_id. apply Z.eqb_neq in Ha. rewrite Ha.
    by rewrite (bind_run _ _ _ _ _ (kern_run _ v1 _ _ E)). }
  by rewrite (bind_run _ _ _ _ _ E1).
Qed.

(** A URB completes. *)
Lemma conn_complete s i d h ud kd q y c u t gs x : kinv (kst s) -> conn s i d h ud kd q y c u t gs [] -> calm (ud_handler ud) x ->
  exists kd' s', in_kdev (pd_kdev d) (priv_schedule_giveback_urb 0 (Urb true (Some x)) 0) s = Done (tt, s') /\
    s' = set_kdevs (<[pd_kdev d := kd']> (in_kdevs s)) s /\ d_ref (kd_dev kd') = d_ref (kd_dev kd) /\ conn s' i d h ud kd' q y c u t gs [x].
Proof.
  intros H C Hx. pose proof C as []. destruct cn_pend0 as [[_ Hp]|(x' & [=] & _)].
  pose proof (schedule_run (view s kd) q y 0 x 0 cn_ref0 cn_ctx0 cn_act0 ltac:(lia) cn_priv0 Hp) as E. cbv zeta in E.
  rewrite (in_kdev_run _ kd _ _ _ _ cn_kdev0 E). set (kd' := KDev _ _ _ _). exists kd'. eexists. split; [done|]. split; [by destruct s as [[] ? ? ? ? ? ?]|]. split; [done|].
  split; try done; cbn.
  - apply list_lookup_insert_eq. by eapply lookup_lt_Some.
  - right. exists x. by split_and!.
  - rewrite app_nil_r in cn_calm0. apply Forall_app. split; [done|]. by constructor.
Qed.

(** The worker runs. *)
Lemma conn_work s i d h ud kd q y c u t gs x : kinv (kst s) -> conn s i d h ud kd q y c u t gs [x] ->
  exists kd' y' s', in_kdev (pd_kdev d) encrypt_and_giveback_urb s = Done (tt, s') /\
    s' = set_kdevs (<[pd_kdev d := kd']> (in_kdevs s)) (set_lib (set_lk (put q y' (kst s)) (in_lib s)) s) /\ kinv (kst s') /\
    d_ref (kd_dev kd') = d_ref (kd_dev kd) /\ conn s' i d h ud kd' q y' c u (next (B := ctr_aes) t (length x)) (gs ++ [x]) [].
Proof.
  intros H C. pose proof C as []. destruct cn_pend0 as [[[=] _]|(x' & [= <-] & Hp & Hw)].
  destruct (work_run (view s kd) (Work 0 (Urb true (Some x)) 0) q y t x H cn_ref0 cn_ctx0 cn_cipher0 cn_act0 Hw eq_refl) as (y' & E & K & Hy & Ha).
  rewrite (in_kdev_run _ kd _ _ _ _ cn_kdev0 E). cbn [u_dev u_pending u_count u_given u_k]. set (kd' := KDev _ _ _ _). exists kd', y'. eexists. split; [done|]. split; [done|]. split; [exact K|]. split; [done|].
  split; try done; cbn.
  - apply list_lookup_insert_eq. by eapply lookup_lt_Some.
  - apply lookup_insert_eq.
  - by rewrite Ha.
  - rewrite cn_given0, sealed_snoc, fmap_app, reverse_app. subst t. done.
  - by rewrite after_snoc, cn_after0.
  - by left.
  - by rewrite app_nil_r.
Qed.

(** ** Reaping *)

Definition with_user_tfm (u : ctr_tfm) (c : priv_cctx) : priv_cctx := with_user (Some (Aesni (t_key u) (t_iv u))) c.

Lemma load_pud_run i d s : in_puds s !! i = Some d -> load_pud i s = Done (d, s).
Proof. intros Hi. unfold load_pud, bind, get. by rewrite Hi. Qed.

Lemma the_cctx_run i d c s : in_puds s !! i = Some d -> pd_freed d = false -> pd_cctx d = Some c -> the_cctx i s = Done (c, s).
Proof. intros Hi Hf Hc. unfold the_cctx. rewrite (bind_done _ _ _ _ _ (load_pud_run _ _ _ Hi)), Hc. by rewrite Hf. Qed.

Lemma upd_pud_run i d f s : in_puds s !! i = Some d -> upd_pud i f s = Done (tt, set_puds (<[i := f d]> (in_puds s)) s).
Proof. intros Hi. unfold upd_pud, modify. by rewrite (alter_as_insert _ _ _ _ Hi). Qed.

(** [priv_handle_enc_packet] undoes the kernel's encryption. *)
Lemma enc_packet_run i d c u x s : in_puds s !! i = Some d -> pd_freed d = false -> pd_cctx d = Some c ->
  pc_user c = Some (Aesni (t_key u) (t_iv u)) -> iv_ok (t_iv u) -> Z.of_nat (length x) < 2 ^ 16 ->
  let n := Z.of_nat (length x) in
  priv_handle_enc_packet last i (Packet n (stream_xor (B := ctr_aes) u x)) s
  = Done ((0, Packet n x), set_puds (<[i := with_cctx (Some (with_user_tfm (next (B := ctr_aes) u (length x)) c)) false d]> (in_puds s)) s).
Proof.
  intros Hi Hf Hc Hu Hiv Hx n. unfold priv_handle_enc_packet. rewrite (bind_done _ _ _ _ _ (the_cctx_run _ _ _ _ Hi Hf Hc)). cbn [p_len p_data].
  assert (Hn : u64 n = n) by (unfold u64, n; apply Z.mod_small; lia). assert (Hl : length (stream_xor (B := ctr_aes) u x) = length x) by apply length_stream_xor. rewrite Hn, Hl.
  destruct (Z.ltb_spec (Z.of_nat (length x)) n); [unfold n in *; lia|]. rewrite take_ge by (rewrite Hl; unfold n; lia).
  rewrite (user_crypt_run last u c) by done. rewrite (bind_done _ _ _ _ _ (upd_pud_run _ _ _ _ Hi)), Hl, stream_xor_involutive.
  unfold ret. do 3 f_equal. unfold splice. rewrite take_0. cbn [app]. rewrite drop_ge by (rewrite Hl; lia). by rewrite app_nil_r.
Qed.

(** The device after a packet, apart from its context *)
Definition moved (d d' : PrivUSBDevice) (c : priv_cctx) : Prop :=
  pd_ops d' = pd_ops d /\ pd_dev d' = pd_dev d /\ pd_toggler d' = pd_toggler d /\ pd_encrypt d' = pd_encrypt d /\ pd_kdev d' = pd_kdev d /\
  (is_Some (pd_opaque d) -> is_Some (pd_opaque d')) /\ pd_cctx d' = Some c /\ pd_freed d' = false.

Lemma kbd_packet_run reap i d c u x s : in_puds s !! i = Some d -> pd_freed d = false -> pd_cctx d = Some c -> pd_encrypt d = true -> is_Some (pd_opaque d) ->
  pc_user c = Some (Aesni (t_key u) (t_iv u)) -> iv_ok (t_iv u) -> Z.of_nat (length x) < 2 ^ 16 -> both_keys x = false ->
  let n := Z.of_nat (length x) in
  exists d', priv_kbd_handle_packet last ops pid reap i (Packet n (stream_xor (B := ctr_aes) u x)) s = Done ((0, Packet n x), set_puds (<[i := d']> (in_puds s)) s) /\
    moved d d' (with_user_tfm (next (B := ctr_aes) u (length x)) c).
Proof.
  intros Hi Hf Hc He [pki Hp] Hu Hiv Hx Hb n. unfold priv_kbd_handle_packet. rewrite (bind_done _ _ _ _ _ (load_pud_run _ _ _ Hi)), He.
  set (c' := with_user_tfm _ c). set (d1 := with_cctx (Some c') false d). set (s1 := set_puds (<[i := d1]> (in_puds s)) s).
  rewrite (bind_done _ _ s (Packet n x) s1) by (by rewrite (bind_done _ _ _ _ _ (enc_packet_run i d c u x s Hi Hf Hc Hu Hiv Hx))). cbn [p_len p_data].
  destruct x as [|b x]; [exists d1; by split_and!|]. destruct (Z.ltb_spec n 1); [unfold n in *; cbn in *; lia|]. rewrite Hp.
  assert (Hi1 : in_puds s1 !! i = Some d1) by (apply list_lookup_insert_eq; by eapply lookup_lt_Some).
  rewrite (bind_done _ _ _ _ _ (upd_pud_run _ _ _ _ Hi1)). cbn in Hb. rewrite <- andb_assoc, Hb, andb_false_r.
  eexists. split; [unfold s1; cbn; by rewrite list_insert_insert_eq|]. by split_and!.
Qed.

Lemma bench_run type s : do_bench (in_ui s) = false -> exists v, priv_input_bench_trigger type s = Done (tt, set_ui v s) /\ do_bench v = false.
Proof.
  intros Hb. unfold priv_input_bench_trigger. eexists. rewrite (bind_done (on_ui _) _ s tt _ eq_refl), (bind_done (gets in_ui) _ _ _ _ eq_refl). cbn. rewrite Hb. cbn. split; [done|]. done.
Qed.

Lemma bench_any n s : do_bench (in_ui s) = false ->
  exists v, (if n =? 8 then priv_input_bench_trigger PRIV_INPUT_BENCH_KEYBOARD else if n =? 4 then priv_input_bench_trigger PRIV_INPUT_BENCH_MOUSE else ret tt) s
    = Done (tt, set_ui v s) /\ do_bench v = false.
Proof.
  intros Hb. destruct (n =? 8); [by apply bench_run|]. destruct (n =? 4); [by apply bench_run|]. exists (in_ui s). split; [|done]. by destruct s.
Qed.

Lemma load_usb_run h ud s : us_heap (in_usbs s) !! h = Some ud -> load_usb h s = Done (ud, s).
Proof. intros Hh. unfold load_usb, bind, get. by rewrite Hh. Qed.

(** What a pass of [async_complete] on the device leaves alone *)
Record passed (i k h : nat) (got : list bytes) (d' : PrivUSBDevice) (kd' : kdev) (s s' : input) : Prop := {
  pa_lib : in_lib s' = in_lib s;
  pa_usbs : in_usbs s' = in_usbs s;
  pa_puds : in_puds s' = <[i := d']> (in_puds s);
  pa_kdevs : in_kdevs s' = <[k := kd']> (in_kdevs s);
  pa_list : in_list s' = in_list s;
  pa_guest : in_guest s' = in_guest s ++ ((fun x => (h, Data x)) <$> got);
  pa_bench : do_bench (in_ui s') = false;
}.

(** The handler of a device, on a packet encrypted by the kernel *)
Lemma handler_run fuel s i d ud c u x : in_puds s !! i = Some d -> pd_freed d = false -> pd_cctx d = Some c -> pd_encrypt d = true -> ud_opaque ud = Some i ->
  ud_handler ud = Some priv_handle_enc \/ ud_handler ud = Some priv_kbd_handle /\ is_Some (pd_opaque d) ->
  pc_user c = Some (Aesni (t_key u) (t_iv u)) -> iv_ok (t_iv u) -> calm (ud_handler ud) x ->
  let p := Packet (Z.of_nat (length x)) (stream_xor (B := ctr_aes) u x) in
  exists d', match ud_handler ud, ud_opaque ud with
      | None, _ => ret (0, p)
      | _, None => oops NullDeref
      | Some priv_handle_enc, Some i => priv_handle_enc_packet last i p
      | Some priv_kbd_handle, Some i => priv_kbd_handle_packet last ops pid (async_complete last ops pid fuel) i p
      end s = Done ((0, Packet (Z.of_nat (length x)) x), set_puds (<[i := d']> (in_puds s)) s) /\
    moved d d' (with_user_tfm (next (B := ctr_aes) u (length x)) c).
Proof.
  intros Hi Hf Hc He Ho Hh Hu Hiv [Hx Hk] p. rewrite Ho. destruct Hh as [E|[E Hop]]; rewrite E in *; cbv iota.
  - eexists. split; [by apply enc_packet_run|]. by split_and!.
  - by apply kbd_packet_run; [..|apply Hk].
Qed.

Lemma reap_pass fuel s i d h ud kd q y c u t x gs ps : conn s i d h ud kd q y c u t (x :: gs) ps -> do_bench (in_ui s) = false ->
  exists d' kd' s1, async_complete last ops pid (S fuel) h s = async_complete last ops pid fuel h s1 /\ passed i (pd_kdev d) h [x] d' kd' s s1 /\
    pd_kdev d' = pd_kdev d /\ d_ref (kd_dev kd') = d_ref (kd_dev kd) /\
    conn s1 i d' h ud kd' q y (with_user_tfm (next (B := ctr_aes) u (length x)) c) (next (B := ctr_aes) u (length x)) t gs ps.
Proof.
  intros C Hb. pose proof C as []. pose proof cn_calm0 as [Hx Hgs]%Forall_cons. cbn [async_complete].
  rewrite (bind_done _ _ _ _ _ (load_usb_run _ _ _ cn_usb0)), cn_att0. cbn [negb]. rewrite (bind_done get _ s s s eq_refl), cn_same0, cn_kdev0. cbn [from_option id].
  rewrite cn_given0, reverse_involutive. cbn [sealed fmap list_fmap]. unfold back at 1. cbv iota beta.
  set (rest := back <$> sealed _ gs). set (kd' := KDev (kd_dev kd) (kd_pending kd) (kd_count kd) (reverse rest)). set (s1 := set_kdevs (<[pd_kdev d := kd']> (in_kdevs s)) s).
  rewrite (bind_done (modify _) _ s tt s1) by (unfold modify; by rewrite (alter_as_insert _ _ _ _ cn_kdev0)). set (p := urb_packet _ 0).
  assert (Ep : p = Packet (Z.of_nat (length x)) (stream_xor (B := ctr_aes) u x)) by (unfold p, urb_packet; cbn; by rewrite length_stream_xor).
  destruct (bench_any (p_len p) s1 Hb) as (v & Ev & Hv). rewrite (bind_done _ _ _ _ _ Ev). set (s2 := set_ui v s1). rewrite (bind_done _ _ _ _ _ (load_usb_run h ud s2 cn_usb0)).
  destruct (handler_run fuel s2 i d ud c u x) as (d' & Eh & Hm); [done..|]. rewrite Ep, (bind_done _ _ _ _ _ Eh). cbn [fst snd Z.eqb].
  set (s3 := set_puds _ s2). rewrite packet_ret_data. set (s4 := set_guest (in_guest s3 ++ [(h, Data x)]) s3). match goal with |- exists _ _ _, bind ?m ?k s3 = _ /\ _ => rewrite (bind_done m k s3 tt s4 eq_refl) end. rewrite (bind_done _ _ _ _ _ (load_usb_run h ud s4 cn_usb0)).
  destruct Hm as (M1 & M2 & M3 & M4 & M5 & M6 & M7 & M8). exists d', kd', s4. split; [done|]. split; [by split|]. split; [done|]. split; [done|].
  split; try done; try congruence; cbn.
  - apply list_lookup_insert_eq. by eapply lookup_lt_Some.
  - destruct cn_handler0 as [?|[? ?]]; [by left|right; split; [done|by apply M6]].
  - rewrite M5. apply list_lookup_insert_eq. by eapply lookup_lt_Some.
  - by apply ctr_adv_ok.
Qed.

(** [async_complete] reaps everything that waits. *)
Lemma async_complete_run gs : forall fuel s i d h ud kd q y c u t ps, conn s i d h ud kd q y c u t gs ps -> do_bench (in_ui s) = false -> (length gs < fuel)%nat ->
  exists d' kd' c' s', async_complete last ops pid fuel h s = Done (tt, s') /\ passed i (pd_kdev d) h gs d' kd' s s' /\
    pd_kdev d' = pd_kdev d /\ d_ref (kd_dev kd') = d_ref (kd_dev kd) /\ conn s' i d' h ud kd' q y c' t t [] ps.
Proof.
  induction gs as [|x gs IH]; intros fuel s i d h ud kd q y c u t ps C Hb Hf.
  - destruct fuel as [|fuel]; [cbn in Hf; lia|]. pose proof C as []. exists d, kd, c, s. cbn in cn_after0. subst t. split_and!; try done.
    + cbn [async_complete]. rewrite (bind_done _ _ _ _ _ (load_usb_run _ _ _ cn_usb0)), cn_att0. cbn [negb].
      rewrite (bind_done get _ s s s eq_refl), cn_same0, cn_kdev0. cbn [from_option id]. by rewrite cn_given0.
    + split; try done; [by rewrite list_insert_id|by rewrite list_insert_id|]. cbn. by rewrite app_nil_r.
  - destruct fuel as [|fuel]; [cbn in Hf; lia|]. destruct (reap_pass fuel s i d h ud kd q y c u t x gs ps C Hb) as (d1 & kd1 & s1 & E & P & K & R & C1).
    destruct (IH fuel s1 i d1 h ud kd1 q y _ _ t ps C1 (pa_bench _ _ _ _ _ _ _ _ P)) as (d2 & kd2 & c2 & s2 & E2 & P2 & K2 & R2 & C2); [cbn in Hf; lia|].
    exists d2, kd2, c2, s2. split; [by rewrite E|]. split; [|split_and!; congruence || done]. destruct P as [A1 A2 A3 A4 A5 A6 A7], P2 as [B1 B2 B3 B4 B5 B6 B7]. split; try congruence.
    + by rewrite B3, A3, list_insert_insert_eq.
    + rewrite K in B4. by rewrite B4, A4, list_insert_insert_eq.
    + rewrite B6, A6, <- app_assoc. done.
Qed.

(** ** All devices of a session *)

(** Device [i] is open at [h], and [fl] are its packets on the way. *)
Definition conn_at (s : input) (i h : nat) (fl : list bytes) : Prop :=
  exists d ud kd q y c u t gs ps, conn s i d h ud kd q y c u t gs ps /\ fl = gs ++ ps.

Record session (I : list nat) (hs : nat -> nat) (fl : nat -> list bytes) (s : input) : Prop := {
  se_k : kinv (kst s);
  se_bench : do_bench (in_ui s) = false;
  se_conn : forall i, i ∈ I -> conn_at s i (hs i) (fl i);
  se_sep : forall i j d d', i ∈ I -> j ∈ I -> i <> j -> in_puds s !! i = Some d -> in_puds s !! j = Some d' -> pd_kdev d <> pd_kdev d';
  se_refs : forall k k' x x', in_kdevs s !! k = Some x -> in_kdevs s !! k' = Some x' -> k <> k' -> d_ref (kd_dev x) <> d_ref (kd_dev x');
}.

Lemma session_sub I J hs fl s : (forall i, i ∈ J -> i ∈ I) -> session I hs fl s -> session J hs fl s.
Proof. intros H [A1 A2 A3 A4 A5]. split; eauto. Qed.

Lemma conn_frame s s' i d h ud kd q y c u t gs ps : conn s i d h ud kd q y c u t gs ps -> in_puds s' !! i = in_puds s !! i -> us_heap (in_usbs s') !! h = us_heap (in_usbs s) !! h ->
  in_kdevs s' !! pd_kdev d = in_kdevs s !! pd_kdev d -> k_refs (kst s') = k_refs (kst s) -> k_ctxs (kst s') !! q = k_ctxs (kst s) !! q ->
  conn s' i d h ud kd q y c u t gs ps.
Proof. intros [] E1 E2 E3 E4 E5. by split; rewrite ?E1, ?E2, ?E3, ?E4, ?E5. Qed.

(** What a step of one device does to the others *)
Record one_step (i q : nat) (d d' : PrivUSBDevice) (kd kd' : kdev) (s s' : input) : Prop := {
  os_k : kinv (kst s');
  os_bench : do_bench (in_ui s') = false;
  os_puds : in_puds s' = <[i := d']> (in_puds s);
  os_kdevs : in_kdevs s' = <[pd_kdev d := kd']> (in_kdevs s);
  os_usbs : in_usbs s' = in_usbs s;
  os_refs : k_refs (kst s') = k_refs (kst s);
  os_ctxs : forall q', q' <> q -> k_ctxs (kst s') !! q' = k_ctxs (kst s) !! q';
  os_kdev : pd_kdev d' = pd_kdev d;
  os_ref : d_ref (kd_dev kd') = d_ref (kd_dev kd);
}.

Lemma session_step I hs fl s s' i d h ud kd q y c u t gs ps d' kd' fl' : session I hs fl s -> i ∈ I -> conn s i d h ud kd q y c u t gs ps ->
  one_step i q d d' kd kd' s s' -> conn_at s' i (hs i) fl' -> session I hs (<[i := fl']> fl) s'.
Proof.
  intros [S1 S2 S3 S4 S5] Hi C [O1 O2 O3 O4 O5 O6 O7 O8 O9] C'. pose proof (cn_pud _ _ _ _ _ _ _ _ _ _ _ _ _ C) as Hd. pose proof (cn_kdev _ _ _ _ _ _ _ _ _ _ _ _ _ C) as Hk.
  assert (Hlt : (i < length (in_puds s))%nat) by by eapply lookup_lt_Some. assert (Hlk : (pd_kdev d < length (in_kdevs s))%nat) by by eapply lookup_lt_Some.
  split; [done|done| | |].
  - intros j Hj. destruct (decide (j = i)) as [-> |Hn]; [by rewrite fn_lookup_insert|]. rewrite fn_lookup_insert_ne by done.
    destruct (S3 j Hj) as (e & ue & ke & qe & ye & ce & u1 & t1 & g1 & p1 & Ce & ->). exists e, ue, ke, qe, ye, ce, u1, t1, g1, p1. split; [|done].
    pose proof (S4 i j d e Hi Hj ltac:(done) Hd (cn_pud _ _ _ _ _ _ _ _ _ _ _ _ _ Ce)) as Hsep.
    pose proof (S5 _ _ _ _ Hk (cn_kdev _ _ _ _ _ _ _ _ _ _ _ _ _ Ce) Hsep) as Href. apply (conn_frame s); try done.
    + by rewrite O3, list_lookup_insert_ne.
    + by rewrite O5.
    + by rewrite O4, list_lookup_insert_ne.
    + apply O7. apply not_eq_sym. exact (ref_sep _ _ _ _ _ S1 (cn_ref _ _ _ _ _ _ _ _ _ _ _ _ _ C) (cn_ref _ _ _ _ _ _ _ _ _ _ _ _ _ Ce) Href).
  - assert (X : forall j e, in_puds s' !! j = Some e -> exists e0, in_puds s !! j = Some e0 /\ pd_kdev e = pd_kdev e0).
    { intros j e. rewrite O3. destruct (decide (j = i)) as [-> |Hn]; [rewrite list_lookup_insert_eq by done; intros [= <-]; eauto|rewrite list_lookup_insert_ne by done; eauto]. }
    intros j j' e e' Hj Hj' Hn (e0 & H0 & ->)%X (e1 & H1 & ->)%X. by apply (S4 j j').
  - assert (X : forall k e, in_kdevs s' !! k = Some e -> exists e0, in_kdevs s !! k = Some e0 /\ d_ref (kd_dev e) = d_ref (kd_dev e0)).
    { intros k e. rewrite O4. destruct (decide (k = pd_kdev d)) as [-> |Hn]; [rewrite list_lookup_insert_eq by done; intros [= <-]; eauto|rewrite list_lookup_insert_ne by done; eauto]. }
    intros k k' e e' (e0 & H0 & ->)%X (e1 & H1 & ->)%X Hn. by apply (S5 k k').
Qed.

(** The packets the guest got from a device *)
Definition got (h : nat) (l : list (nat * usb_ret)) : list bytes :=
  omap (fun e => match e with (h', Data x) => if decide (h' = h) then Some x else None | _ => None end) l.

Lemma got_app h l l' : got h (l ++ l') = got h l ++ got h l'.
Proof. apply omap_app. Qed.
Lemma got_own h xs : got h ((fun x => (h, Data x)) <$> xs) = xs.
Proof. unfold got. induction xs as [|x xs IH]; [done|]. cbn. rewrite decide_True by done. by f_equal. Qed.
Lemma got_other h h' xs : h' <> h -> got h ((fun x => (h', Data x)) <$> xs) = [].
Proof. intros Hn. unfold got. induction xs as [|x xs IH]; [done|]. cbn. by rewrite decide_False. Qed.

(** What can happen in a session: the device sends a packet and the host controller completes its URB, while no
    other of the device waits for the kernel's worker; the worker runs; QEMU reaps. *)
Record iworld := IWorld { iw_s : input; iw_sent : nat -> list bytes }.

Definition complete (k : nat) (x : bytes) : M input unit := in_kdev k (priv_schedule_giveback_urb 0 (Urb true (Some x)) 0).
Definition work (k : nat) : M input unit := in_kdev k encrypt_and_giveback_urb.
Definition reap (kd : kdev) (h : nat) : M input unit := async_complete last ops pid (S (length (kd_given kd))) h.

(** Device [i] of the session with its parts *)
Definition part (I : list nat) (s : input) (i : nat) (d : PrivUSBDevice) (h : nat) (ud : usbdev) (kd : kdev) : Prop :=
  i ∈ I /\ in_puds s !! i = Some d /\ pd_dev d = Some h /\ us_heap (in_usbs s) !! h = Some ud /\ in_kdevs s !! pd_kdev d = Some kd.

Inductive istep (I : list nat) (w : iworld) : iworld -> Prop :=
| is_complete i d h ud kd x s' : part I (iw_s w) i d h ud kd -> kd_pending kd = false -> calm (ud_handler ud) x ->
    complete (pd_kdev d) x (iw_s w) = Done (tt, s') -> istep I w (IWorld s' (<[i := iw_sent w i ++ [x]]> (iw_sent w)))
| is_work i d h ud kd s' : part I (iw_s w) i d h ud kd -> kd_pending kd = true ->
    work (pd_kdev d) (iw_s w) = Done (tt, s') -> istep I w (IWorld s' (iw_sent w))
| is_reap i d h ud kd s' : part I (iw_s w) i d h ud kd -> reap kd h (iw_s w) = Done (tt, s') -> istep I w (IWorld s' (iw_sent w)).

(** A device of the session, as its parts show it *)
Lemma part_conn I hs fl s i d h ud kd : session I hs fl s -> part I s i d h ud kd ->
  h = hs i /\ exists q y c u t gs ps, conn s i d h ud kd q y c u t gs ps /\ fl i = gs ++ ps.
Proof.
  intros S (Hi & Hd & Hh & Hu & Hk). destruct (se_conn _ _ _ _ S i Hi) as (d' & ud' & kd' & q & y & c & u & t & gs & ps & C & E).
  pose proof C as []. assert (d' = d) as -> by congruence. assert (h = hs i) as -> by congruence. split; [done|].
  assert (ud' = ud) as -> by congruence. assert (kd' = kd) as -> by congruence. by exists q, y, c, u, t, gs, ps.
Qed.

Lemma session_complete I hs fl s i d h ud kd x : session I hs fl s -> part I s i d h ud kd -> kd_pending kd = false -> calm (ud_handler ud) x ->
  exists s', complete (pd_kdev d) x s = Done (tt, s') /\ session I hs (<[i := fl i ++ [x]]> fl) s' /\ in_guest s' = in_guest s.
Proof.
  intros S Pt Hp Hx. destruct (part_conn _ _ _ _ _ _ _ _ _ S Pt) as (-> & q & y & c & u & t & gs & ps & C & ->). pose proof (cn_pend _ _ _ _ _ _ _ _ _ _ _ _ _ C) as [[-> _]|(x' & _ & Hp' & _)]; [|congruence].
  destruct (conn_complete s i d (hs i) ud kd q y c u t gs x (se_k _ _ _ _ S) C Hx) as (kd' & s' & E & -> & R & C'). eexists. split; [exact E|]. split; [|done]. destruct Pt as (Hi & Hd & _).
  eapply (session_step I hs fl s _ i d (hs i) ud kd q y c u t gs [] d kd'); [done|done|exact C| |].
  - split; try done; [apply S|apply S|]. cbn. by rewrite list_insert_id.
  - exists d, ud, kd', q, y, c, u, t, gs, [x]. split; [exact C'|]. by rewrite app_nil_r.
Qed.

Lemma session_work I hs fl s i d h ud kd : session I hs fl s -> part I s i d h ud kd -> kd_pending kd = true ->
  exists s', work (pd_kdev d) s = Done (tt, s') /\ session I hs (<[i := fl i]> fl) s' /\ in_guest s' = in_guest s.
Proof.
  intros S Pt Hp. destruct (part_conn _ _ _ _ _ _ _ _ _ S Pt) as (-> & q & y & c & u & t & gs & ps & C & Ef). pose proof (cn_pend _ _ _ _ _ _ _ _ _ _ _ _ _ C) as [[_ Hp']|(x & -> & _)]; [congruence|].
  destruct (conn_work s i d (hs i) ud kd q y c u t gs x (se_k _ _ _ _ S) C) as (kd' & y' & s' & E & -> & K & R & C'). eexists. split; [exact E|]. split; [|done]. destruct Pt as (Hi & Hd & _).
  eapply (session_step I hs fl s _ i d (hs i) ud kd q y c u t gs [x] d kd'); [done|done|exact C| |].
  - split; try done; [apply S|cbn; by rewrite list_insert_id|]. intros q' Hq. unfold kst. cbn. by rewrite lookup_insert_ne.
  - exists d, ud, kd', q, y', c, u, (next (B := ctr_aes) t (length x)), (gs ++ [x]), []. split; [exact C'|]. by rewrite app_nil_r.
Qed.

Lemma session_reap I hs fl s i d h ud kd : session I hs fl s -> part I s i d h ud kd ->
  exists s' gs ps, reap kd h s = Done (tt, s') /\ fl i = gs ++ ps /\ session I hs (<[i := ps]> fl) s' /\
    in_guest s' = in_guest s ++ ((fun x => (h, Data x)) <$> gs) /\ (kd_pending kd = false -> ps = []).
Proof.
  intros Se Pt. destruct (part_conn _ _ _ _ _ _ _ _ _ Se Pt) as (-> & q & y & c & u & t & gs & ps & C & Ef).
  assert (Hl : length (kd_given kd) = length gs) by (rewrite (cn_given _ _ _ _ _ _ _ _ _ _ _ _ _ C), length_reverse, length_fmap; apply length_sealed).
  destruct (async_complete_run gs (S (length (kd_given kd))) s i d (hs i) ud kd q y c u t ps C (se_bench _ _ _ _ Se)) as (d' & kd' & c' & s' & E & Ps & K & R & C'); [lia|].
  exists s', gs, ps. split; [exact E|]. split; [done|]. destruct Ps as [A1 A2 A3 A4 A5 A6 A7]. split; [|split; [done|]].
  - assert (Ek : kst s' = kst s) by (unfold kst; by rewrite A1). destruct Pt as (Hi & _).
    eapply (session_step I hs fl s s' i d (hs i) ud kd q y c u t gs ps d' kd'); [done|done|exact C| |].
    + split; rewrite ?Ek; try done. apply Se.
    + exists d', ud, kd', q, y, c', t, t, [], ps. by split.
  - intros Hp. destruct (cn_pend _ _ _ _ _ _ _ _ _ _ _ _ _ C) as [[-> _]|(x & _ & Hp' & _)]; [done|congruence].
Qed.

(** The invariant of a session: what a device sent is what the guest got and what is on its way. *)
Definition kept_all (I : list nat) (hs : nat -> nat) (w : iworld) : Prop :=
  exists fl, session I hs fl (iw_s w) /\ forall i, i ∈ I -> iw_sent w i = got (hs i) (in_guest (iw_s w)) ++ fl i.

(** Different devices are open at different addresses. *)
Lemma session_inj I hs fl s i j : session I hs fl s -> i ∈ I -> j ∈ I -> i <> j -> hs i <> hs j.
Proof.
  intros S Hi Hj Hn E. destruct (se_conn _ _ _ _ S i Hi) as (d & ud & kd & q & y & c & u & t & gs & ps & C & _), (se_conn _ _ _ _ S j Hj) as (d' & ud' & kd' & q' & y' & c' & u' & t' & gs' & ps' & C' & _).
  destruct C, C'. rewrite E in *. pose proof (se_sep _ _ _ _ S i j d d' Hi Hj Hn ltac:(done) ltac:(done)). congruence.
Qed.

Lemma istep_kept I hs w w' : kept_all I hs w -> istep I w w' -> kept_all I hs w'.
Proof.
  intros (fl & Se & Hs) St. destruct St as [i d h ud kd x s' Pt Hp Hx E|i d h ud kd s' Pt Hp E|i d h ud kd s' Pt E].
  - destruct (session_complete I hs fl _ i d h ud kd x Se Pt Hp Hx) as (s1 & E1 & S1 & G1). rewrite E in E1. injection E1 as <-. exists (<[i := fl i ++ [x]]> fl). split; [done|].
    intros j Hj. cbn. rewrite G1. destruct (decide (j = i)) as [-> |Hn]; [rewrite !fn_lookup_insert, Hs by done; by rewrite app_assoc|rewrite !fn_lookup_insert_ne by done; by apply Hs].
  - destruct (session_work I hs fl _ i d h ud kd Se Pt Hp) as (s1 & E1 & S1 & G1). rewrite E in E1. injection E1 as <-. exists (<[i := fl i]> fl). split; [done|].
    intros j Hj. cbn. rewrite G1. destruct (decide (j = i)) as [-> |Hn]; [rewrite fn_lookup_insert|rewrite fn_lookup_insert_ne by done]; by apply Hs.
  - destruct (session_reap I hs fl _ i d h ud kd Se Pt) as (s1 & gs & ps & E1 & Ef & S1 & G1 & _). rewrite E in E1. injection E1 as <-. exists (<[i := ps]> fl). split; [done|].
    destruct (part_conn _ _ _ _ _ _ _ _ _ Se Pt) as (-> & _). intros j Hj. cbn. rewrite G1, got_app. destruct (decide (j = i)) as [-> |Hn].
    + rewrite fn_lookup_insert, got_own, Hs, Ef by done. by rewrite app_assoc.
    + rewrite fn_lookup_insert_ne, got_other, app_nil_r by (done || apply not_eq_sym; eapply session_inj; eauto; apply Pt). by apply Hs.
Qed.

(** Every device of the session can go on. *)
Lemma kept_progress I hs w i : kept_all I hs w -> i ∈ I ->
  exists d ud kd u gs ps, part I (iw_s w) i d (hs i) ud kd /\ iw_sent w i = got (hs i) (in_guest (iw_s w)) ++ gs ++ ps /\
    kd_given kd = reverse (back <$> sealed u gs) /\
    (kd_pending kd = false -> forall x, calm (ud_handler ud) x -> exists s', complete (pd_kdev d) x (iw_s w) = Done (tt, s')) /\
    (kd_pending kd = true -> exists s', work (pd_kdev d) (iw_s w) = Done (tt, s')) /\
    exists s', reap kd (hs i) (iw_s w) = Done (tt, s') /\ (kd_pending kd = false -> got (hs i) (in_guest s') = iw_sent w i).
Proof.
  intros (fl & Se & Hs) Hi. destruct (se_conn _ _ _ _ Se i Hi) as (d & ud & kd & q & y & c & u & t & gs & ps & C & Ef). exists d, ud, kd, u, gs, ps. pose proof C as [].
  assert (Pt : part I (iw_s w) i d (hs i) ud kd) by by split_and!. rewrite (Hs i Hi), Ef. split_and!; try done.
  - intros Hp x Hx. destruct (session_complete I hs fl _ i d _ ud kd x Se Pt Hp Hx) as (s1 & E1 & _). eauto.
  - intros Hp. destruct (session_work I hs fl _ i d _ ud kd Se Pt Hp) as (s1 & E1 & _). eauto.
  - destruct (session_reap I hs fl _ i d _ ud kd Se Pt) as (s1 & g1 & p1 & E1 & Ef1 & _ & G1 & Hp1). exists s1. split; [done|]. intros Hp. rewrite G1, got_app, got_own, <- Ef, Ef1, (Hp1 Hp), app_nil_r. done.
Qed.
End Path.

(** ** Entering private mode *)

Section Grab.
Context `{BC : BlockCipher} (last : bytes) (Hlast : length last = 16%nat) (ops : @dhm_kex_ops ctr_aes) (pid : Z).

(** A device configured for encryption, not connected: its context is linked and both sides are at the same place. *)
Record rest (s : input) (i : nat) (d : PrivUSBDevice) (kd : kdev) (b : kern_backend) (q : nat) (y : priv_crypt_ctx) (c : priv_cctx) (t : ctr_tfm) : Prop := {
  re_pud : in_puds s !! i = Some d;
  re_ops : pd_ops d = usb_kbd_ops \/ pd_ops d = usb_mouse_ops;
  re_enc : pd_encrypt d = true;
  re_freed : pd_freed d = false;
  re_cctx : pd_cctx d = Some c;
  re_kdev : in_kdevs s !! pd_kdev d = Some kd;
  re_priv : is_Some (d_priv (kd_dev kd));
  re_idle : kd_pending kd = false /\ kd_given kd = [];
  re_ref : k_refs (kst s) !! d_ref (kd_dev kd) = Some (Some q);
  re_ctx : k_ctxs (kst s) !! q = Some y;
  re_cipher : cc_cipher y = Some t;
  re_user : pc_user c = Some (Aesni (t_key t) (t_iv t));
  re_iv : iv_ok (t_iv t);
  re_backend : pc_backend c = BKern b;
  re_file : k_files (kst s) !! kb_fd b = Some (Some q);
}.
Definition at_rest (s : input) (i : nat) : Prop := exists d kd b q y c t, rest s i d kd b q y c t.

(** What connecting device [i] changes: a new USB device, the context, the device. *)
Record connecting (i q : nat) (d' : PrivUSBDevice) (y' : priv_crypt_ctx) (ud : usbdev) (s s' : input) : Prop := {
  ct_k : kst s' = put q y' (kst s);
  ct_puds : in_puds s' = <[i := d']> (in_puds s);
  ct_kdevs : in_kdevs s' = in_kdevs s;
  ct_heap : us_heap (in_usbs s') = <[us_next (in_usbs s) := ud]> (us_heap (in_usbs s));
  ct_next : us_next (in_usbs s') = S (us_next (in_usbs s));
  ct_opens : us_opens (in_usbs s') = us_opens (in_usbs s);
  ct_same : in_list s' = in_list s /\ in_guest s' = in_guest s /\ in_ui s' = in_ui s;
}.

(** [usb_dev_connect] of a device that is plugged in *)
Lemma dev_connect_run s i d kd b q y c t : kinv (kst s) -> rest s i d kd b q y c t -> us_opens (in_usbs s) = [] ->
  let ud := UsbDev (pd_kdev d) true 0 (Some priv_handle_enc) (Some i) in
  exists s', usb_dev_connect (Some ops) pid i s = Done (0, s') /\ connecting i q (with_dev (Some (us_next (in_usbs s))) d) (upd_activated 1 y) ud s s'.
Proof.
  intros H [] Ho ud. unfold usb_dev_connect. rewrite (bind_done _ _ _ _ _ (load_pud_run _ _ _ re_pud0)). set (h := us_next (in_usbs s)). set (u0 := UsbDev (pd_kdev d) true 0 None None).
  set (s1 := set_usbs (Usbs (<[h := u0]> (us_heap (in_usbs s))) (us_bus (in_usbs s) ++ [h]) (S h) []) s).
  assert (E1 : usb_host_device_open (pd_kdev d) s = Done (Some h, s1)) by (unfold usb_host_device_open, bind, get; by rewrite Ho).
  rewrite (bind_done _ _ _ _ _ E1). set (d1 := with_dev (Some h) d). rewrite (bind_done _ _ _ _ _ (upd_pud_run i d _ s1 re_pud0)). fold d1. set (s2 := set_puds (<[i := d1]> (in_puds s1)) s1). rewrite re_enc0.
  assert (Hd : in_puds s2 !! i = Some d1) by (apply list_lookup_insert_eq; by eapply lookup_lt_Some).
  rewrite (bind_done _ _ _ _ _ (the_cctx_run i d1 c s2 Hd re_freed0 re_cctx0)).
  set (l := set_lk (put q (upd_activated 1 y) (kst s)) (in_lib s)).
  assert (E2 : in_library (priv_activate (Some ops) pid c) s2 = Done (0, set_lib l s2)).
  { unfold in_library, zoom, priv_activate. by rewrite (set_active_run ops pid true c b q y (in_lib s2) H re_backend0 re_file0 re_ctx0). }
  rewrite (bind_done _ _ _ _ _ E2). change (0 <? 0) with false. cbv iota. set (s3 := set_lib l s2).
  assert (E3 : load_usb h s3 = Done (u0, s3)) by (apply load_usb_run; apply lookup_insert_eq).
  unfold upd_usb. eexists. split; [unfold bind at 1 2; rewrite E3; reflexivity|]. split; try done. cbn. by rewrite insert_insert_eq.
Qed.

Lemma dev_connected s i d kd b q y c t : kinv (kst s) -> rest s i d kd b q y c t -> us_opens (in_usbs s) = [] ->
  exists d' ud s', priv_dev_connect (Some ops) pid i s = Done (0, s') /\ connecting i q d' (upd_activated 1 y) ud s s' /\ pd_kdev d' = pd_kdev d /\
    conn s' i d' (us_next (in_usbs s)) ud kd q (upd_activated 1 y) c t t [] [].
Proof.
  intros H R Ho. pose proof R as []. destruct (dev_connect_run s i d kd b q y c t H R Ho) as (s1 & E & C). set (h := us_next (in_usbs s)) in *. set (d1 := with_dev (Some h) d) in *.
  set (u1 := UsbDev (pd_kdev d) true 0 (Some priv_handle_enc) (Some i)) in *. assert (Hlt : (i < length (in_puds s))%nat) by by eapply lookup_lt_Some.
  assert (Conn : forall d' ud s', connecting i q d' (upd_activated 1 y) ud s s' -> pd_dev d' = Some h -> pd_encrypt d' = true -> pd_freed d' = false -> pd_cctx d' = Some c -> pd_kdev d' = pd_kdev d ->
    ud_attached ud = true -> ud_kdev ud = pd_kdev d -> ud_opaque ud = Some i -> ud_handler ud = Some priv_handle_enc \/ ud_handler ud = Some priv_kbd_handle /\ is_Some (pd_opaque d') ->
    conn s' i d' h ud kd q (upd_activated 1 y) c t t [] []).
  { intros d' ud s' [K1 K2 K3 K4 K5 K6 K7] A1 A2 A3 A4 A5 A6 A7 A8 A9. split; rewrite ?K1, ?K2, ?K3, ?K4, ?A5; try done; cbn.
    - by apply list_lookup_insert_eq.
    - apply lookup_insert_eq.
    - apply lookup_insert_eq.
    - by destruct re_idle0.
    - left. by destruct re_idle0. }
  unfold priv_dev_connect. rewrite (bind_done _ _ _ _ _ (load_pud_run _ _ _ re_pud0)). destruct re_ops0 as [-> | ->].
  2: { exists d1, u1, s1. split; [done|]. split; [done|]. split; [done|]. apply Conn; try done. by left. }
  unfold usb_kbd_connect. rewrite (bind_done _ _ _ _ _ E). change (0 <? 0) with false. cbv iota. pose proof C as [K1 K2 K3 K4 K5 K6 K7].
  assert (Hd1 : in_puds s1 !! i = Some d1) by (rewrite K2; by apply list_lookup_insert_eq). rewrite (bind_done _ _ _ _ _ (load_pud_run _ _ _ Hd1)).
  destruct (pd_toggler d1) eqn:Et.
  2: { exists d1, u1, s1. split; [done|]. split; [done|]. split; [done|]. apply Conn; try done. by left. }
  rewrite (bind_done _ _ _ _ _ (upd_pud_run i d1 _ s1 Hd1)). cbn [pd_dev d1 with_dev]. set (d2 := with_opaque (Some (Kbd false false)) d1). set (s2 := set_puds (<[i := d2]> (in_puds s1)) s1).
  assert (E3 : load_usb h s2 = Done (u1, s2)) by (apply load_usb_run; cbn; rewrite K4; apply lookup_insert_eq). set (u2 := with_handler (Some priv_kbd_handle) (Some i) u1).
  exists d2, u2. unfold upd_usb. eexists. split; [unfold bind at 1 2; rewrite E3; reflexivity|].
  match goal with |- connecting _ _ _ _ _ _ ?s' /\ _ => assert (C2 : connecting i q d2 (upd_activated 1 y) u2 s s') end.
  { split; cbn; try done; [by rewrite K2, list_insert_insert_eq|by rewrite K4, insert_insert_eq]. }
  split; [exact C2|]. split; [done|]. apply Conn; try done. right. split; [done|]. by eexists.
Qed.

(** The devices [D] are connected, the devices [R] not yet. *)
Record halfway (D R : list nat) (hs : nat -> nat) (s : input) : Prop := {
  hw_k : kinv (kst s);
  hw_conn : forall i, i ∈ D -> conn_at s i (hs i) [];
  hw_rest : forall i, i ∈ R -> at_rest s i;
  hw_nodup : NoDup (D ++ R);
  hw_sep : forall i j d d', i ∈ D ++ R -> j ∈ D ++ R -> i <> j -> in_puds s !! i = Some d -> in_puds s !! j = Some d' -> pd_kdev d <> pd_kdev d';
  hw_refs : forall k k' x x', in_kdevs s !! k = Some x -> in_kdevs s !! k' = Some x' -> k <> k' -> d_ref (kd_dev x) <> d_ref (kd_dev x');
  hw_next : forall h, is_Some (us_heap (in_usbs s) !! h) -> (h < us_next (in_usbs s))%nat;
  hw_opens : us_opens (in_usbs s) = [];
}.

Lemma rest_frame s s' i d kd b q y c t : rest s i d kd b q y c t -> in_puds s' !! i = in_puds s !! i -> in_kdevs s' !! pd_kdev d = in_kdevs s !! pd_kdev d ->
  k_refs (kst s') !! d_ref (kd_dev kd) = k_refs (kst s) !! d_ref (kd_dev kd) -> k_files (kst s') !! kb_fd b = k_files (kst s) !! kb_fd b -> k_ctxs (kst s') !! q = k_ctxs (kst s) !! q ->
  rest s' i d kd b q y c t.
Proof. intros [] E1 E2 E3 E4 E5. by split; rewrite ?E1, ?E2, ?E3, ?E4, ?E5. Qed.

Lemma halfway_step D i R hs s : halfway D (i :: R) hs s ->
  exists s', priv_dev_connect (Some ops) pid i s = Done (0, s') /\ halfway (i :: D) R (<[i := us_next (in_usbs s)]> hs) s' /\
    in_list s' = in_list s /\ in_guest s' = in_guest s /\ in_ui s' = in_ui s.
Proof.
  intros [H1 H2 H3 H4 H5 H6 H7 H8]. destruct (H3 i ltac:(by left)) as (d & kd & b & q & y & c & t & Re). pose proof Re as [].
  destruct (dev_connected s i d kd b q y c t H1 Re H8) as (d' & ud & s' & E & [K1 K2 K3 K4 K5 K6 K7] & Kd & C). exists s'. split; [done|]. split; [|done].
  assert (Hlt : (i < length (in_puds s))%nat) by by eapply lookup_lt_Some.
  assert (Perm : forall j, j ∈ (i :: D) ++ R <-> j ∈ D ++ i :: R) by (intros j; rewrite !elem_of_app, !elem_of_cons; tauto).
  assert (Hni : forall j, j ∈ D \/ j ∈ R -> j <> i).
  { intros j Hj ->. apply NoDup_app in H4 as (_ & Hx & Hr). apply NoDup_cons in Hr as [Hr _]. destruct Hj as [Hj|Hj]; [|done]. apply (Hx i Hj). by left. }
  assert (Hq : forall j e ke qe, j ∈ D ++ i :: R -> j <> i -> in_puds s !! j = Some e -> in_kdevs s !! pd_kdev e = Some ke -> k_refs (kst s) !! d_ref (kd_dev ke) = Some (Some qe) -> q <> qe).
  { intros j e ke qe Hj Hn He Hke Hr. apply (ref_sep (kst s) (d_ref (kd_dev kd)) (d_ref (kd_dev ke))); try done. apply (H6 (pd_kdev d) (pd_kdev e)); try done.
    apply (H5 i j); try done. apply elem_of_app. right. by left. }
  assert (Kc : k_refs (kst s') = k_refs (kst s) /\ k_files (kst s') = k_files (kst s)) by by rewrite K1. destruct Kc as [Kr Kf]. split.
  - rewrite K1. by apply kinv_activated.
  - intros j Hj. apply elem_of_cons in Hj as [-> |Hj]; [rewrite fn_lookup_insert; exists d', ud, kd, q, (upd_activated 1 y), c, t, t, [], []; by split|].
    rewrite fn_lookup_insert_ne by (apply not_eq_sym, Hni; by left). destruct (H2 j Hj) as (e & ue & ke & qe & ye & ce & u1 & t1 & g1 & p1 & Ce & Ef). exists e, ue, ke, qe, ye, ce, u1, t1, g1, p1. split; [|done].
    assert (Hn : j <> i) by (apply Hni; by left). pose proof Ce as []. apply (conn_frame s); try done.
    + by rewrite K2, list_lookup_insert_ne.
    + rewrite K4, lookup_insert_ne; [done|]. intros Eh. pose proof (H7 (hs j) ltac:(eauto)). lia.
    + by rewrite K3.
    + rewrite K1. cbn. apply lookup_insert_ne. apply (Hq j e ke); try done. apply elem_of_app. by left.
  - intros j Hj. destruct (H3 j ltac:(by right)) as (e & ke & be & qe & ye & ce & te & Ree). exists e, ke, be, qe, ye, ce, te. assert (Hn : j <> i) by (apply Hni; by right). pose proof Ree as []. apply (rest_frame s); rewrite ?K3, ?Kr, ?Kf; try done.
    + by rewrite K2, list_lookup_insert_ne.
    + rewrite K1. cbn. apply lookup_insert_ne. apply (Hq j e ke); try done. apply elem_of_app. right. by right.
  - cbn. apply NoDup_app in H4 as (A1 & A2 & A3). apply NoDup_cons in A3 as [A3 A4]. apply NoDup_cons. split; [|apply NoDup_app; split_and!; try done; intros j Hj1 Hj2; apply (A2 j Hj1); by right].
    rewrite elem_of_app. intros [Hx|Hx]; [|done]. apply (A2 i Hx). by left.
  - assert (X : forall j e, in_puds s' !! j = Some e -> exists e0, in_puds s !! j = Some e0 /\ pd_kdev e = pd_kdev e0).
    { intros j e. rewrite K2. destruct (decide (j = i)) as [-> |Hn]; [rewrite list_lookup_insert_eq by done; intros [= <-]; eauto|rewrite list_lookup_insert_ne by done; eauto]. }
    intros j j' e e' Hj%Perm Hj'%Perm Hn (e0 & A0 & ->)%X (e1 & A1 & ->)%X. by apply (H5 j j').
  - rewrite K3. exact H6.
  - rewrite K4, K5. intros h [x Hx]. apply lookup_insert_Some in Hx as [[<- _]|[_ Hx]]; [lia|]. pose proof (H7 h ltac:(eauto)). lia.
  - by rewrite K6.
Qed.

Lemma connect_list R : forall D hs s, halfway D R hs s -> exists hs' s', priv_dev_for_all (priv_dev_connect (Some ops) pid) R s = Done (0, s') /\ halfway (reverse R ++ D) [] hs' s' /\
  in_list s' = in_list s /\ in_guest s' = in_guest s /\ in_ui s' = in_ui s.
Proof.
  induction R as [|i R IH]; intros D hs s H; [by exists hs, s|]. destruct (halfway_step D i R hs s H) as (s1 & E1 & H1 & L1 & G1 & U1).
  destruct (IH _ _ _ H1) as (hs' & s2 & E2 & H2 & L2 & G2 & U2). exists hs', s2. cbn [priv_dev_for_all]. rewrite (bind_done _ _ _ _ _ E1). change (0 <? 0) with false. cbv iota.
  split; [done|]. split; [by rewrite reverse_cons, <- app_assoc|]. by rewrite L2, G2, U2.
Qed.

(** Everything configured, and nothing connected *)
Record configured (s : input) : Prop := {
  cf_half : halfway [] (in_list s) (fun _ => 0%nat) s;
  cf_bench : do_bench (in_ui s) = false;
}.

Lemma grab_start_run s : configured s -> exists hs s', sdl_grab_start (Some ops) pid s = Done (tt, s') /\ session (in_list s) hs (fun _ => []) s' /\
  in_guest s' = in_guest s /\ gui_grab (in_ui s') = (if grabs (in_ui s) is false :: _ then gui_grab (in_ui s) else true).
Proof.
  intros [Hw Hb]. set (s0 := exec (set_hotplug_needs_reset true) s). assert (Hw0 : halfway [] (in_list s) (fun _ => 0%nat) s0).
  { destruct Hw as [A1 A2 A3 A4 A5 A6 A7 A8]. split; try done; [by intros j Hj%not_elem_of_nil|]. intros j Hj. destruct (A3 j Hj) as (d & kd & b & q & y & c & t & Re). exists d, kd, b, q, y, c, t. by apply (rest_frame s). }
  destruct (connect_list (in_list s) [] _ s0 Hw0) as (hs & s1 & E1 & H1 & L1 & G1 & U1). rewrite app_nil_r in H1. exists hs.
  unfold sdl_grab_start, priv_connect_all. assert (Ec : priv_connect_all (Some ops) pid s = Done (0, s1)).
  { unfold priv_connect_all. rewrite (bind_done (set_hotplug_needs_reset true) _ s tt s0 eq_refl), (bind_done (gets in_list) _ s0 (in_list s) s0 eq_refl). exact E1. }
  rewrite (bind_done _ _ _ _ _ Ec). change (0 <? 0) with false. cbv iota. rewrite (bind_done (gets in_ui) _ s1 (in_ui s1) s1 eq_refl), U1.
  assert (Se : forall v, do_bench v = false -> session (in_list s) hs (fun _ => []) (set_ui v s1)).
  { intros v Hv. apply (session_sub (reverse (in_list s))); [intros j; by rewrite elem_of_reverse|]. destruct H1 as [A1 A2 _ _ A5 A6 _ _]. rewrite app_nil_r in A5. split; try done. intros j Hj. destruct (A2 j Hj) as (d & ud & kd & q & y & c & u & t & gs & ps & C & Ef). exists d, ud, kd, q, y, c, u, t, gs, ps. split; [|done]. by apply (conn_frame s1). }
  rewrite (bind_done (on_ui _) _ s1 tt _ eq_refl), U1. cbn [grabs in_ui s0]. change (grabs (in_ui s0)) with (grabs (in_ui s)).
  destruct (grabs (in_ui s)) as [|[] l] eqn:Eg; (eexists; split; [done|]; split; [by apply (Se _)|]; split; [done|]; done).
Qed.
End Grab.
