(* ===== verification/InputInit.v ===== *)
(** * Configuring private input devices

    [priv_config_input] of QEMU for a USB keyboard or mouse with encryption: a context of the library connected
    to the kernel, and its id written to the attribute of the device.  Any number of devices
    configured one after the other leave the state from which private mode is entered. *)

From stdpp Require Import functions.
From S2P Require Import Prelude Text BlkCipher Ctr AesCipher PrivCrypt Kex Driver UsbChannel LibPriv Session QemuNet NetInit QemuInput InputPath.

Section Setup.
Context `{BC : BlockCipher} (P : polarssl) (ops : dhm_kex_ops) (p g x : Z) (prf : prf_fun) {KA : KexAgree P ops p g x prf}.
Context (pid : Z) (junk_u : aesni_state) (junk junk_iv : bytes) (Hj : length junk_iv = MAX_IV_LEN).
Abbreviation setup := (usb_crypt_setup P (Some ops) pid junk_u junk junk_iv true).
Abbreviation easy := (priv_easy_create P (Some ops) pid junk_u junk junk_iv true).

(** ** The context *)

(** The calls of the library are those of [priv_easy_create]. *)
Lemma easy_parts l : lib_ok l -> k_id (l_k l) < 2 ^ 31 - 1 ->
  exists c0 l0 rc c l1, priv_create_cctx junk_u junk_iv PRIV_CRYPT_ALG_AES_CTR 16 l = Done ((0, Some c0), l0) /\
    priv_new_backend P (Some ops) pid junk junk_iv c0 l0 = Done ((rc, c), l1) /\
    (0 <= rc /\ easy l = Done ((0, Some c), l1) \/
     rc < 0 /\ exists z l2, priv_destroy_cctx (Some ops) pid c l1 = Done (z, l2) /\ easy l = Done ((rc, None), l2)).
Proof.
  intros L Hid. pose proof L as [_ _ L3 L4 _]. pose proof (easy_create_ok P ops p g x prf pid junk_u junk junk_iv Hj true l L Hid) as He. apply wp_elim in He as (r & l' & E & _).
  pose proof (priv_create_cctx_created junk_u junk_iv 16 l L3 L4 ltac:(by left) Hj) as Hc. apply wp_elim in Hc as (r0 & l0 & E0 & _ & _ & _ & _ & c0 & -> & _).
  exists c0, l0. unfold priv_easy_create in E |- *. rewrite (bind_done _ _ _ _ _ E0) in E |- *. cbv iota beta in E |- *. change (0 <? 0) with false in E |- *. cbv iota in E |- *.
  destruct (priv_new_backend P (Some ops) pid junk junk_iv c0 l0) as [[[rc c] l1]|] eqn:E1; [|by rewrite (bind_oops _ _ _ _ E1) in E]. exists rc, c, l1. split; [done|]. split; [done|].
  rewrite (bind_done _ _ _ _ _ E1) in E |- *. cbn [fst snd] in E |- *. destruct (rc <? 0) eqn:Er; [right|left; split; [lia|done]]. split; [lia|].
  destruct (priv_destroy_cctx (Some ops) pid c l1) as [[z l2]|] eqn:E2; [|by rewrite (bind_oops _ _ _ _ E2) in E]. exists z, l2. split; [done|]. by rewrite (bind_done _ _ _ _ _ E2).
Qed.

(** ** The attribute *)

Lemma store_id_run (v : ustate) q y : kinv (u_k v) -> k_refs (u_k v) !! d_ref (u_dev v) = Some None -> k_ctxs (u_k v) !! q = Some y -> cc_user_ref y = None -> cc_id y < 2 ^ 31 ->
  device_cctx_id_store (sprintf_d (s32 (cc_id y))) v =
    Done (Z.of_nat (length (sprintf_d (s32 (cc_id y)))), set_dev (set_cctx_id (cc_id y) (u_dev v)) (set_k (linked q (d_ref (u_dev v)) y (u_k v)) v)).
Proof.
  intros H Hr Hq Hu Hi. pose proof (ki_id _ H _ _ Hq) as Hid. set (r := d_ref (u_dev v)) in *.
  assert (E1 : unuse_ctx (Some r) (u_k v) = Done (tt, u_k v)) by (unfold unuse_ctx, bind, load_ref; by rewrite Hr).
  destruct (use_ctx_run (cc_id y) r (u_k v) H Hr) as (rc & k & E2 & _ & [(q' & y' & Hq' & Ei & Hc)|(Hn & _)]); [|by destruct (Hn q y)].
  assert (q' = q) as -> by by apply (ki_ids _ H q' q y' y). assert (y' = y) as -> by congruence. destruct Hc as [(_ & -> & ->)|([? Hc] & _)]; [|congruence].
  rewrite s32_small by lia. assert (Es : sscanf_d (sprintf_d (cc_id y)) = Some (cc_id y)) by (rewrite <- (app_nil_r (sprintf_d _)); apply sscanf_sprintf_d; (done || lia)).
  unfold device_cctx_id_store. rewrite Es, u32_small by lia.
  unfold bind at 1, gets. fold r. rewrite (bind_run _ _ _ _ _ (kern_run _ _ _ _ E1)), set_k_id. rewrite (bind_run _ _ _ _ _ (kern_run _ v _ _ E2)). done.
Qed.
(** ** [usb_crypt_setup] *)

(** The state after it: with a context at [q] that the device uses, or with a context that was destroyed *)
Definition done_setup (i : nat) (d : PrivUSBDevice) (kd : kdev) (c : priv_cctx) (q : nat) (y : priv_crypt_ctx) (l : lstate) (s : input) : input :=
  set_puds (<[i := with_cctx (Some c) false d]> (in_puds s))
    (set_kdevs (<[pd_kdev d := KDev (set_cctx_id (cc_id y) (kd_dev kd)) (kd_pending kd) (kd_count kd) (kd_given kd)]> (in_kdevs s))
      (set_lib (set_lk (linked q (d_ref (kd_dev kd)) y (l_k l)) l) s)).
Definition no_setup (i : nat) (d : PrivUSBDevice) (c : priv_cctx) (l : lstate) (s : input) : input :=
  set_puds (<[i := with_cctx (Some c) true d]> (in_puds s)) (set_lib l s).

Lemma setup_run s i d kd : lib_ok (in_lib s) -> k_id (kst s) < 2 ^ 31 - 1 -> in_puds s !! i = Some d -> in_kdevs s !! pd_kdev d = Some kd ->
  d_attr (kd_dev kd) = true -> k_refs (kst s) !! d_ref (kd_dev kd) = Some None ->
  exists r l, easy_post (in_lib s) r l /\
    ((exists c y, r = (0, Some c) /\ k_ctxs (l_k l) !! k_brk (kst s) = Some y /\ setup i s = Done (0, done_setup i d kd c (k_brk (kst s)) y l s)) \/
     fst r < 0 /\ exists c, setup i s = Done (fst r, no_setup i d c l s)).
Proof.
  intros L Hid Hd Hk Ha Hr. set (q := k_brk (kst s)). destruct (easy_parts (in_lib s) L Hid) as (c0 & l0 & rc & c & l1 & E0 & E1 & Hc).
  pose proof (easy_create_ok P ops p g x prf pid junk_u junk junk_iv Hj true (in_lib s) L Hid) as He. apply wp_elim in He as (r & l & E & Po). exists r, l. split; [done|].
  unfold usb_crypt_setup. rewrite (bind_done _ _ _ _ _ (load_pud_run _ _ _ Hd)).
  assert (X0 : in_library (priv_create_cctx junk_u junk_iv PRIV_CRYPT_ALG_AES_CTR 16) s = Done ((0, Some c0), set_lib l0 s)) by (unfold in_library, zoom; by rewrite E0).
  rewrite (bind_done _ _ _ _ _ X0). cbv iota beta. assert (X1 : in_library (priv_new_backend P (Some ops) pid junk junk_iv c0) (set_lib l0 s) = Done ((rc, c), set_lib l1 s)) by (unfold in_library, zoom; cbn [in_lib set_lib]; by rewrite E1).
  rewrite (bind_done _ _ _ _ _ X1). cbv zeta. cbn [fst snd]. destruct Hc as [[Hrc Ee]|(Hrc & z & l2 & E2 & Ee)]; rewrite E in Ee; injection Ee as -> ->.
  2: { right. split; [done|]. exists c. replace (rc <? 0) with true by (clear - Hrc; lia).
    assert (X2 : in_library (priv_destroy_cctx (Some ops) pid c) (set_lib l1 s) = Done (z, set_lib l2 s)) by (unfold in_library, zoom; cbn [in_lib set_lib]; by rewrite E2).
    rewrite (bind_done _ _ _ _ _ X2), (bind_done _ _ _ _ _ (upd_pud_run i d _ (set_lib l2 s) Hd)). done. }
  left. destruct Po as (L1 & Rf & Id & Bk & [(c' & [= <-] & Sy & _ & (y & Hy & Hu & _) & _)|(? & ? & _)]); [|done].
  assert (Hq : k_ctxs (l_k l1) !! q = Some y) by (rewrite Hy; apply lookup_insert_eq). destruct Sy as (b & y' & t & Hb & _ & Hq' & Ei & _). assert (y' = y) as -> by (unfold q, kst in Hq; congruence).
  exists c, y. split; [done|]. split; [done|]. replace (rc <? 0) with false by (clear - Hrc; lia).
  assert (X2 : in_library (priv_get_id c (Some 0)) (set_lib l1 s) = Done ((0, Some (kb_id b)), set_lib l1 s)) by (unfold in_library, zoom, priv_get_id, get_backend, bind; rewrite Hb; reflexivity).
  rewrite (bind_done _ _ _ _ _ X2). cbn [fst negb]. change (0 <? 0) with false. cbv iota. unfold bind at 1, get. cbn [in_kdevs set_lib]. rewrite Hk. cbn [from_option]. rewrite Ha. cbn [negb].
  pose proof (ki_id _ (lo_k _ L1) _ _ Hq) as Hi. fold q in Hq. assert (Hi' : cc_id y < 2 ^ 31) by (unfold kst in Hid; clear - Hi Hid Id; lia).
  pose proof (store_id_run (view (set_lib l1 s) kd) q y (lo_k _ L1) ltac:(change (k_refs (l_k l1) !! d_ref (kd_dev kd) = Some None); by rewrite Rf) Hq Hu Hi') as X3. rewrite <- Ei.
  rewrite (bind_done _ _ _ _ _ (in_kdev_run _ kd _ (set_lib l1 s) _ _ Hk X3)), Z.eqb_refl. cbn [negb].
  match goal with |- bind _ _ ?s1 = _ => rewrite (bind_done _ _ _ _ _ (upd_pud_run i d _ s1 Hd)) end. done.
Qed.

(** ** [priv_config_input] *)

(** An endpoint device with the attribute, that no context uses *)
Definition unused (s : input) (k : nat) : Prop :=
  exists kd, in_kdevs s !! k = Some kd /\ d_attr (kd_dev kd) = true /\ is_Some (d_priv (kd_dev kd)) /\ kd_pending kd = false /\ kd_given kd = [] /\
    k_refs (kst s) !! d_ref (kd_dev kd) = Some None.

(** The library is ready and what was configured is at rest. *)
Definition ready (s : input) : Prop := lib_ok (in_lib s) /\ configured s.

Lemma lib_ok_linked q r y l : lib_ok l -> k_ctxs (l_k l) !! q = Some y -> cc_user_ref y = None -> k_refs (l_k l) !! r = Some None -> lib_ok (set_lk (linked q r y (l_k l)) l).
Proof. intros [L1 L2 L3 L4 L5] Hq Hu Hr. split; try done. by apply kinv_linked. Qed.

(** A new private device [d] of the endpoint [k]: what was there stays. *)
Record grew (k : nat) (d : PrivUSBDevice) (s s' : input) : Prop := {
  gr_lib : lib_ok (in_lib s');
  gr_puds : in_puds s' = in_puds s ++ [d];
  gr_dk : pd_kdev d = k;
  gr_usbs : in_usbs s' = in_usbs s;
  gr_bench : do_bench (in_ui s') = do_bench (in_ui s);
  gr_guest : in_guest s' = in_guest s;
  gr_kdev : exists kd kd', in_kdevs s !! k = Some kd /\ in_kdevs s' = <[k := kd']> (in_kdevs s) /\ d_ref (kd_dev kd') = d_ref (kd_dev kd);
  gr_refs : forall kd r, in_kdevs s !! k = Some kd -> r <> d_ref (kd_dev kd) -> k_refs (kst s') !! r = k_refs (kst s) !! r;
  gr_ctxs : forall q, is_Some (k_ctxs (kst s) !! q) -> k_ctxs (kst s') !! q = k_ctxs (kst s) !! q;
  gr_files : forall f, is_Some (k_files (kst s) !! f) -> k_files (kst s') !! f = k_files (kst s) !! f;
  gr_id : k_id (kst s') = k_id (kst s) + 1;
}.

Lemma grew_refs k d s s' j v : grew k d s s' -> in_kdevs s' !! j = Some v -> exists v0, in_kdevs s !! j = Some v0 /\ d_ref (kd_dev v) = d_ref (kd_dev v0).
Proof.
  intros [_ _ _ _ _ _ (kd & kd' & Hk & E & Er) _ _ _ _] Hv. rewrite E in Hv. destruct (decide (j = k)) as [-> |Hn]; [|rewrite list_lookup_insert_ne in Hv by done; eauto].
  rewrite list_lookup_insert_eq in Hv by by eapply lookup_lt_Some. injection Hv as <-. eauto.
Qed.

Lemma grew_unused k d s s' k' : ready s -> grew k d s s' -> k' <> k -> unused s k' -> unused s' k'.
Proof.
  intros [_ [C _]] G Hn (kd & A1 & A2 & A3 & A4 & A5 & A6). destruct (gr_kdev _ _ _ _ G) as (kd0 & kd0' & Hk & E & _). exists kd. rewrite E, list_lookup_insert_ne by done. split_and!; try done.
  rewrite (gr_refs _ _ _ _ G kd0); [done|done|]. by apply (hw_refs _ _ _ _ C k' k).
Qed.

Lemma grew_rest k d s s' i : ready s -> unused s k -> grew k d s s' -> i ∈ in_list s ->
  exists d0, in_puds s' !! i = Some d0 /\ pd_kdev d0 <> k /\ (i < length (in_puds s))%nat /\ at_rest s' i.
Proof.
  intros [_ [C _]] (kd & Hk & _ & _ & _ & _ & Hr) G Hi. destruct (hw_rest _ _ _ _ C i Hi) as (d0 & kd0 & b & q & y & c & t & R). pose proof R as [Rp _ _ _ _ Rk _ _ Rr Rc _ _ _ _ Rf]. exists d0.
  assert (Hn : pd_kdev d0 <> k) by (intros E; rewrite E in Rk; congruence). assert (Hlt : (i < length (in_puds s))%nat) by by eapply lookup_lt_Some.
  assert (Hp : in_puds s' !! i = in_puds s !! i) by (rewrite (gr_puds _ _ _ _ G); by apply lookup_app_l). split; [by rewrite Hp|]. split; [done|]. split; [done|].
  exists d0, kd0, b, q, y, c, t. apply (rest_frame s); try done.
  - destruct (gr_kdev _ _ _ _ G) as (? & ? & _ & -> & _). by apply list_lookup_insert_ne.
  - apply (gr_refs _ _ _ _ G kd); [done|]. intros E. congruence.
  - apply (gr_files _ _ _ _ G). by rewrite Rf.
  - apply (gr_ctxs _ _ _ _ G). by rewrite Rc.
Qed.

Lemma grew_ready k d s s' : ready s -> unused s k -> grew k d s s' ->
  in_list s' = in_list s \/ in_list s' = length (in_puds s) :: in_list s /\ at_rest s' (length (in_puds s)) -> ready s'.
Proof.
  intros Rd U G Hl. pose proof Rd as [_ [C Hb]]. pose proof C as [A1 _ A3 A4 A5 A6 A7 A8]. set (n := length (in_puds s)) in *. split; [apply G|]. split; [|by rewrite (gr_bench _ _ _ _ G)].
  assert (Hin : forall i, i ∈ in_list s' -> i = n /\ at_rest s' n \/ i ∈ in_list s) by (intros i; destruct Hl as [-> |[-> Hr]]; rewrite ?elem_of_cons; tauto).
  assert (Hdn : in_puds s' !! n = Some d) by (rewrite (gr_puds _ _ _ _ G); by apply list_lookup_middle). split.
  - apply G.
  - by intros j Hi%not_elem_of_nil.
  - intros i [[-> ?]|Hi]%Hin; [done|]. destruct (grew_rest k d s s' i Rd U G Hi) as (d0 & _ & _ & _ & ?). done.
  - cbn. destruct Hl as [-> |[-> _]]; [done|]. apply NoDup_cons. split; [|done]. intros Hi. destruct (grew_rest k d s s' n Rd U G Hi) as (d0 & _ & _ & Hlt & _). unfold n in Hlt. lia.
  - intros i j d1 d2 Hi%Hin Hi'%Hin Hn H1 H2. pose proof (gr_dk _ _ _ _ G) as Hdk. destruct Hi as [[-> _]|Hi], Hi' as [[-> _]|Hi']; [done| | |].
    + destruct (grew_rest k d s s' j Rd U G Hi') as (d0 & E0 & Hk & _). rewrite Hdn in H1. congruence.
    + destruct (grew_rest k d s s' i Rd U G Hi) as (d0 & E0 & Hk & _). rewrite Hdn in H2. congruence.
    + apply (A5 i j); try done.
      * destruct (grew_rest k d s s' i Rd U G Hi) as (_ & _ & _ & Hlt & _). by rewrite (gr_puds _ _ _ _ G), lookup_app_l in H1.
      * destruct (grew_rest k d s s' j Rd U G Hi') as (_ & _ & _ & Hlt & _). by rewrite (gr_puds _ _ _ _ G), lookup_app_l in H2.
  - intros i j v v' (v0 & H0 & ->)%(grew_refs k d s s' i v G) (v1 & H1 & ->)%(grew_refs k d s s' j v' G) Hn. by apply (A6 i j).
  - by rewrite (gr_usbs _ _ _ _ G).
  - by rewrite (gr_usbs _ _ _ _ G).
Qed.

(** A new context of the library, at an address that was free *)
Lemma easy_keeps l r l' : lib_ok l -> easy_post l r l' ->
  (forall q, is_Some (k_ctxs (l_k l) !! q) -> k_ctxs (l_k l') !! q = k_ctxs (l_k l) !! q) /\ (forall f, is_Some (k_files (l_k l) !! f) -> k_files (l_k l') !! f = k_files (l_k l) !! f).
Proof.
  intros L (_ & _ & _ & _ & [(c & _ & _ & Hn & (y & Hy & _) & Hf & _)|(_ & _ & Hy & Hf)]); rewrite Hy, Hf; [|done]. pose proof (lo_fds _ L (l_fd l) (le_n _)) as Hfd.
  split; intros q [z Hz]; apply lookup_insert_ne; congruence.
Qed.

(** The result of [usb_crypt_setup] for a device just appended *)
Lemma setup_done s d kd r l c y : ready s -> in_kdevs s !! pd_kdev d = Some kd -> k_refs (kst s) !! d_ref (kd_dev kd) = Some None -> easy_post (in_lib s) r l ->
  r = (0, Some c) -> k_ctxs (l_k l) !! k_brk (kst s) = Some y ->
  let n := length (in_puds s) in let q := k_brk (kst s) in let s1 := set_puds (in_puds s ++ [d]) s in
  grew (pd_kdev d) (with_cctx (Some c) false d) s (done_setup n d kd c q y l s1) /\
  (pd_ops d = usb_kbd_ops \/ pd_ops d = usb_mouse_ops -> pd_encrypt d = true -> is_Some (d_priv (kd_dev kd)) -> kd_pending kd = false /\ kd_given kd = [] ->
    at_rest (done_setup n d kd c q y l s1) n).
Proof.
  intros [L C] Hk Hr Po -> Hq n q s1. destruct (easy_keeps _ _ _ L Po) as [Kc Kf]. destruct Po as (L1 & Rf & Id & _ & [(c' & [= <-] & Sy & Hn & (y' & Hy & Hu & _) & Hf & _)|(? & ? & _)]); [|done].
  assert (y' = y) as -> by (rewrite Hy, lookup_insert_eq in Hq; congruence). unfold kst in Hr. rewrite <- Rf in Hr.
  assert (Hp : in_puds (done_setup n d kd c q y l s1) = in_puds s ++ [with_cctx (Some c) false d]) by (cbn; rewrite insert_app_r_alt by (unfold n; lia); unfold n; by rewrite Nat.sub_diag).
  split; [split; try done|].
  - by apply lib_ok_linked.
  - eexists kd, _. split; [done|]. split; [reflexivity|]. done.
  - intros kd0 r0 H0 Hn0. assert (kd0 = kd) as -> by congruence. unfold kst. cbn. rewrite lookup_insert_ne by done. by rewrite Rf.
  - intros q0 [z Hz]. unfold kst in *. cbn. rewrite lookup_insert_ne; [apply Kc; eauto|]. unfold q. congruence.
  - intros O En Pr Id0. destruct Sy as (b & y0 & t & Hb & Hfb & Hq0 & Ei & Ed & Ec & Hiv & _ & Hus). assert (y0 = y) as -> by (unfold kst in Hq; congruence).
    exists (with_cctx (Some c) false d), (KDev (set_cctx_id (cc_id y) (kd_dev kd)) (kd_pending kd) (kd_count kd) (kd_given kd)), b, q, (upd_user true (Some (d_ref (kd_dev kd))) y), c, t. split; try done.
    + rewrite Hp. by apply list_lookup_middle.
    + cbn. apply list_lookup_insert_eq. by eapply lookup_lt_Some.
    + cbn. apply lookup_insert_eq.
    + cbn. apply lookup_insert_eq.
Qed.

Lemma setup_failed s d kd r l c : ready s -> in_kdevs s !! pd_kdev d = Some kd -> easy_post (in_lib s) r l ->
  grew (pd_kdev d) (with_cctx (Some c) true d) s (no_setup (length (in_puds s)) d c l (set_puds (in_puds s ++ [d]) s)).
Proof.
  intros [L C] Hk Po. destruct (easy_keeps _ _ _ L Po) as [Kc Kf]. destruct Po as (L1 & Rf & Id & _). split; try done.
  - cbn. by rewrite insert_app_r_alt, Nat.sub_diag by lia.
  - exists kd, kd. cbn. by rewrite list_insert_id.
  - intros. unfold kst. cbn. by rewrite Rf.
Qed.

(** The option of a keyboard or mouse *)
Definition device_option (mouse : bool) (k : nat) (toggler : bool) : config :=
  CUsb (UsbOpts (Some (if mouse then usb_mouse_ops else usb_kbd_ops)) (Some k) toggler true true).
Abbreviation config_input := (priv_config_input P (Some ops) pid junk_u junk junk_iv).
Abbreviation options := (priv_input_options P (Some ops) pid junk_u junk junk_iv).

Lemma config_run s mouse k toggler : ready s -> unused s k -> k_id (kst s) < 2 ^ 31 - 1 ->
  exists rc d s', config_input (device_option mouse k toggler) s = Done (rc, s') /\ grew k d s s' /\ ready s' /\
    (rc = 0 /\ in_list s' = length (in_puds s) :: in_list s \/ rc < 0).
Proof.
  intros Rd U Hid. pose proof U as (kd & Hk & Ha & Hp & Hpe & Hg & Hr). pose proof Rd as [L C]. set (n := length (in_puds s)).
  set (d := Pud (if mouse then usb_mouse_ops else usb_kbd_ops) None None toggler None false true k). set (s1 := set_puds (in_puds s ++ [d]) s).
  assert (Hd : in_puds s1 !! n = Some d) by by apply list_lookup_middle.
  destruct (setup_run s1 n d kd L Hid Hd Hk Ha Hr) as (r & l & Po & Hc). unfold priv_config_input, device_option, priv_config_usb. cbn [uo_ops uo_bus_num uo_encrypt uo_toggler uo_port_found].
  destruct Hc as [(c & y & -> & Hq & E)|(Hneg & c & E)].
  - destruct (setup_done s d kd _ l c y Rd Hk Hr Po eq_refl Hq) as [G R]. cbv zeta in G, R. fold n s1 in G, R. change (kst s) with (kst s1) in G, R. set (s2 := done_setup n d kd c (k_brk (kst s1)) y l s1) in *.
    specialize (R ltac:(destruct mouse; [by right|by left]) eq_refl Hp (conj Hpe Hg)).
    set (s3 := exec (if mouse then priv_set_mouse_enabled true else priv_set_kbd_enabled true) s2). set (s4 := set_devlist (n :: in_list s) s3).
    assert (G4 : grew k (with_cctx (Some c) false d) s s4) by (destruct G as [G1 G2 G3 G4 G5 G6 G7 G8 G9 G10 G11]; unfold s4, s3; destruct mouse; by split).
    exists 0, (with_cctx (Some c) false d), s4. split; [|split; [done|split]].
    + unfold bind at 1 2, gets at 1. fold n d. unfold bind at 1, modify at 1. fold s1. rewrite (bind_done _ _ _ _ _ E). change (0 <? 0) with false. cbv iota. unfold s4, s3. by destruct mouse.
    + apply (grew_ready k _ s s4 Rd U G4). right. split; [done|]. destruct R as (d0 & kd0 & b & q & y0 & c0 & t & R). exists d0, kd0, b, q, y0, c0, t. apply (rest_frame s2); try done; unfold s4, s3; by destruct mouse.
    + by left.
  - pose proof (setup_failed s d kd r l c Rd Hk Po) as G. fold n s1 in G. set (s2 := no_setup n d c l s1) in *. exists (-1), (with_cctx (Some c) true d), s2. split; [|split; [done|split]].
    + unfold bind at 1 2, gets at 1. fold n d. unfold bind at 1, modify at 1. fold s1. rewrite (bind_done _ _ _ _ _ E). replace (fst r <? 0) with true by (clear - Hneg; lia). done.
    + apply (grew_ready k _ s s2 Rd U G). by left.
    + by right.
Qed.

(** Any number of devices: QEMU goes on with all of them configured, or exits. *)
Lemma options_run l : forall s, ready s -> NoDup (snd <$> l) -> (forall k, k ∈ snd <$> l -> unused s k) -> k_id (kst s) + Z.of_nat (length l) < 2 ^ 31 ->
  options ((fun o => device_option (fst (fst o)) (snd o) (snd (fst o))) <$> l) s = Oops Exit \/
  exists s', options ((fun o => device_option (fst (fst o)) (snd o) (snd (fst o))) <$> l) s = Done (tt, s') /\ ready s' /\
    in_list s' = reverse (seq (length (in_puds s)) (length l)) ++ in_list s /\ in_guest s' = in_guest s.
Proof.
  induction l as [|[[m t] k] l IH]; intros s Rd Nd U Hid; [right; by exists s|]. cbn [fmap list_fmap fst snd length] in *. apply NoDup_cons in Nd as [Hk Nd].
  destruct (config_run s m k t Rd (U k ltac:(by left)) ltac:(lia)) as (rc & d & s1 & E & G & R1 & Hc). cbn [priv_input_options]. rewrite (bind_done _ _ _ _ _ E).
  destruct Hc as [[-> Hl]|Hneg]; [|left; by replace (rc <? 0) with true by (clear - Hneg; lia)]. change (0 <? 0) with false. cbv iota.
  destruct (IH s1 R1 Nd) as [E1|(s' & E1 & R' & Hl' & Hg)]; [|rewrite (gr_id _ _ _ _ G); lia|by left|].
  - intros k' Hk'. apply (grew_unused k d s s1 k' Rd G); [by intros -> |]. apply U. by right.
  - right. exists s'. split; [done|]. split; [done|]. rewrite Hl', Hl, (gr_puds _ _ _ _ G), length_app, Hg, (gr_guest _ _ _ _ G). cbn [length seq]. rewrite Nat.add_1_r, reverse_cons, <- app_assoc. done.
Qed.
End Setup.
