(* ===== verification/InputProps.v ===== *)
(** * Properties of private input

    Entering private mode and the stream of packets; and leaving it, where the devices go away while they are in
    use. *)

From stdpp Require Import functions.
From S2P Require Import Prelude Text BlkCipher Ctr AesCipher PrivCrypt Kex Driver UsbChannel LibPriv Session NetInit QemuInput InputPath InputInit.

Section Leave.
Context `{BC : BlockCipher} (last : bytes) (Hlast : length last = 16%nat) (ops : @dhm_kex_ops ctr_aes) (pid : Z).
Abbreviation reap_all := (async_complete last (Some ops) pid).
Abbreviation grab_end n := (sdl_grab_end (Some ops) pid (reap_all n)).

(** ** A packet on its way, whatever it holds *)

Lemma delivered s i d h ud kd q y c u t x : kinv (kst s) -> conn s i d h ud kd q y c u t [] [] ->
  exists s1 s2 y' w, complete (pd_kdev d) x s = Done (tt, s1) /\ work (pd_kdev d) s1 = Done (tt, s2) /\
    let kd' := KDev (set_priv (Some w) (kd_dev kd)) false (kd_count kd) [back (stream_xor (B := ctr_aes) u x)] in
    s2 = set_kdevs (<[pd_kdev d := kd']> (in_kdevs s)) (set_lib (set_lk (put q y' (kst s)) (in_lib s)) s) /\ kinv (kst s2) /\
    cc_cipher y' = Some (next (B := ctr_aes) u (length x)) /\ cc_activated y' <> 0.
Proof.
  intros H C. pose proof C as [Hi _ _ _ _ _ _ _ _ _ Hk Hw Hr Hq Ha Ht _ _ Hg Et Hp _]. cbn in Hg, Et. subst t. destruct Hp as [[_ Hp]|(x' & [=] & _)].
  pose proof (schedule_run (view s kd) q y 0 x 0 Hr Hq Ha ltac:(lia) Hw Hp) as E1. cbv zeta in E1. unfold complete, work. rewrite (in_kdev_run _ kd _ _ _ _ Hk E1). set (w := Work 0 _ 0) in *.
  set (kd1 := KDev _ _ _ _). set (s1 := set_kdevs (<[pd_kdev d := kd1]> (in_kdevs s)) s). exists s1.
  destruct (work_run (view s1 kd1) w q y u x H Hr Hq Ht Ha eq_refl eq_refl) as (y' & E2 & K & Hy & Ha').
  assert (Hk1 : in_kdevs s1 !! pd_kdev d = Some kd1) by (apply list_lookup_insert_eq; by eapply lookup_lt_Some). rewrite (in_kdev_run _ kd1 _ s1 _ _ Hk1 E2).
  eexists _, y', (Some w). split; [by destruct s as [[] ? ? ? ? ? ?]|]. split; [reflexivity|]. split; [|split; [exact K|split; [exact Hy|by rewrite Ha']]].
  cbn. by rewrite list_insert_insert_eq, Hg.
Qed.

(** ** An error of the device *)

(** The kernel gives an URB with an error back as it is. *)
Lemma error_given s d kd x st : in_kdevs s !! pd_kdev d = Some kd -> st < 0 ->
  in_kdev (pd_kdev d) (priv_schedule_giveback_urb 0 (Urb true (Some x)) st) s
  = Done (tt, set_kdevs (<[pd_kdev d := KDev (kd_dev kd) (kd_pending kd) (kd_count kd) ((0, Urb true (Some x), st) :: kd_given kd)]> (in_kdevs s)) s).
Proof.
  intros Hk Hs. assert (E : priv_schedule_giveback_urb 0 (Urb true (Some x)) st (view s kd)
    = Done (tt, US (kst s) (kd_dev kd) (kd_pending kd) (kd_count kd) ((0, Urb true (Some x), st) :: kd_given kd))).
  { unfold priv_schedule_giveback_urb. replace (0 <=? st) with false by lia. done. }
  rewrite (in_kdev_run _ kd _ _ _ _ Hk E). by destruct s as [[] ? ? ? ? ? ?].
Qed.

Lemma error_overruns n s i d h ud kd q y c u t ps x st : conn s i d h ud kd q y c u t [] ps -> st < 0 -> Z.of_nat (length x) < 2 ^ 16 ->
  exists s1, in_kdev (pd_kdev d) (priv_schedule_giveback_urb 0 (Urb true (Some x)) st) s = Done (tt, s1) /\ reap_all (S n) h s1 = Oops OutOfBounds.
Proof.
  intros C Hs Hx. pose proof C as [Hi Hd He Hf Hc Hu Hat Hsa Ho Hh Hk _ _ _ _ _ _ _ Hg _ _ _]. cbn in Hg. rewrite (error_given s d kd x st Hk Hs), Hg. set (kd1 := KDev _ _ _ _). set (s1 := set_kdevs _ s). exists s1. split; [done|].
  assert (Hk1 : in_kdevs s1 !! pd_kdev d = Some kd1) by (apply list_lookup_insert_eq; by eapply lookup_lt_Some). cbn [async_complete].
  rewrite (bind_done _ _ _ _ _ (load_usb_run h ud s1 Hu)), Hat. cbn [negb]. rewrite (bind_done get _ s1 s1 s1 eq_refl), Hsa, Hk1. cbn [from_option id kd1 kd_given]. 
  set (z := (0, Urb true (Some x), st)). change (reverse [z]) with [z]. unfold z. cbv iota beta. set (p := urb_packet _ st).
  assert (Hp : p_data p = x /\ (p_len p = -3 \/ p_len p = -2)) by (unfold p, urb_packet; cbn; destruct (Z.eqb_spec st 0); [lia|]; destruct (st =? - EPIPE); auto). destruct Hp as [Hpd Hpl].
  set (s2 := set_kdevs (alter (fun k => KDev (kd_dev k) (kd_pending k) (kd_count k) (reverse [])) (pd_kdev d) (in_kdevs s1)) s1). match goal with |- bind ?m ?k s1 = _ => rewrite (bind_done m k s1 tt s2 eq_refl) end.
  rewrite (bind_done _ _ s2 tt s2) by by (destruct Hpl as [-> | ->]). rewrite (bind_done _ _ _ _ _ (load_usb_run h ud s2 Hu)), Ho. apply bind_oops.
  assert (He1 : priv_handle_enc_packet last i p s2 = Oops OutOfBounds).
  { unfold priv_handle_enc_packet. rewrite (bind_done _ _ _ _ _ (the_cctx_run i d c s2 Hi Hf Hc)), Hpd. replace (Z.of_nat (length x) <? u64 (p_len p)) with true; [done|].
    symmetry. apply Z.ltb_lt. assert (U : u64 (-3) = 2 ^ 64 - 3 /\ u64 (-2) = 2 ^ 64 - 2) by done. destruct U as [U1 U2]. destruct Hpl as [-> | ->]; rewrite ?U1, ?U2; lia. }
  destruct Hh as [-> |[-> _]]; [done|]. unfold priv_kbd_handle_packet. rewrite (bind_done _ _ _ _ _ (load_pud_run i d s2 Hi)), He. by apply bind_oops, bind_oops.
Qed.

(** ** Leaving private mode *)

(** With its handler gone, a device that is closed gives what waits to the guest as it is. *)
Lemma drain_run ds : forall n s h ud kd, us_heap (in_usbs s) !! h = Some ud -> ud_attached ud = true -> ud_handler ud = None -> in_kdevs s !! ud_kdev ud = Some kd ->
  kd_given kd = reverse (back <$> ds) -> do_bench (in_ui s) = false -> (length ds < n)%nat ->
  exists v, do_bench v = false /\ reap_all n h s = Done (tt, set_ui v (set_guest (in_guest s ++ ((fun x => (h, Data x)) <$> ds))
    (set_kdevs (<[ud_kdev ud := KDev (kd_dev kd) (kd_pending kd) (kd_count kd) []]> (in_kdevs s)) s))).
Proof.
  induction ds as [|x ds IH]; intros [|n] s h ud kd Hu Ha Hh Hk Hg Hb Hn; try (cbn in Hn; lia); cbn [async_complete];
    rewrite (bind_done _ _ _ _ _ (load_usb_run h ud s Hu)), Ha; cbn [negb]; rewrite (bind_done get _ s s s eq_refl), Hk; cbn [from_option id]; rewrite Hg, reverse_involutive; cbn [fmap list_fmap].
  - exists (in_ui s). split; [done|]. cbn in Hg. rewrite app_nil_r. cbn in Hg. destruct kd. cbn in *. subst. rewrite list_insert_id by done. by destruct s.
  - unfold back at 1. cbv iota beta. set (kd1 := KDev (kd_dev kd) (kd_pending kd) (kd_count kd) (reverse (back <$> ds))). set (s1 := set_kdevs (<[ud_kdev ud := kd1]> (in_kdevs s)) s).
    rewrite (bind_done (modify _) _ s tt s1) by (unfold modify; by rewrite (alter_as_insert _ _ _ _ Hk)). set (p := urb_packet _ 0).
    assert (Ep : packet_ret p = Data x) by apply packet_ret_data. destruct (bench_any (p_len p) s1 Hb) as (v & Ev & Hv). rewrite (bind_done _ _ _ _ _ Ev). set (s2 := set_ui v s1). rewrite (bind_done _ _ _ _ _ (load_usb_run h ud s2 Hu)), Hh.
    match goal with |- context [bind ?m ?k s2] => rewrite (bind_done m k s2 (0, p) s2 eq_refl) end. cbn [fst snd Z.eqb].
    set (s3 := set_guest (in_guest s2 ++ [(h, packet_ret p)]) s2). match goal with |- context [bind ?m ?k s2] => rewrite (bind_done m k s2 tt s3 eq_refl) end.
    rewrite (bind_done _ _ _ _ _ (load_usb_run h ud s3 Hu)). destruct (IH n s3 h ud kd1) as (v' & Hv' & E'); try done; [by apply list_lookup_insert_eq, lookup_lt_is_Some|cbn in Hn; lia|].
    exists v'. split; [done|]. rewrite E'. unfold s3, s2, s1. cbn. rewrite list_insert_insert_eq, Ep, <- app_assoc. done.
Qed.

(** The only device, connected and known to the kernel by [b] *)
Record alone (s : input) (i : nat) (d : PrivUSBDevice) (h q : nat) (c : priv_cctx) (b : kern_backend) : Prop := {
  al_k : kinv (kst s);
  al_bench : do_bench (in_ui s) = false;
  al_list : in_list s = [i];
  al_bus : us_bus (in_usbs s) = [h];
  al_ops : pd_ops d = usb_kbd_ops \/ pd_ops d = usb_mouse_ops;
  al_backend : pc_backend c = BKern b;
  al_file : k_files (kst s) !! kb_fd b = Some (Some q);
}.

(** What [sdl_grab_end] leaves *)
Record gone (s s' : input) (i : nat) (d' : PrivUSBDevice) (h q : nat) (y : priv_crypt_ctx) (c : priv_cctx) (ds : list bytes) : Prop := {
  go_k : kst s' = put q (upd_activated 0 y) (kst s);
  go_list : in_list s' = [i];
  go_pud : in_puds s' !! i = Some d';
  go_dev : pd_dev d' = Some h;
  go_ops : pd_ops d' = usb_kbd_ops \/ pd_ops d' = usb_mouse_ops;
  go_cctx : pd_cctx d' = Some c /\ pd_freed d' = false /\ pd_encrypt d' = true;
  go_heap : us_heap (in_usbs s') !! h = None;
  go_guest : in_guest s' = in_guest s ++ ((fun x => (h, Data x)) <$> ds);
  go_grab : gui_grab (in_ui s') = false;
}.

(** A device that is open, and what waits to be reaped from it *)
Record held (s : input) (i : nat) (d : PrivUSBDevice) (h : nat) (ud : usbdev) (kd : kdev) (q : nat) (y : priv_crypt_ctx) (c : priv_cctx) (ds : list bytes) : Prop := {
  he_pud : in_puds s !! i = Some d;
  he_dev : pd_dev d = Some h;
  he_enc : pd_encrypt d = true;
  he_freed : pd_freed d = false;
  he_cctx : pd_cctx d = Some c;
  he_usb : us_heap (in_usbs s) !! h = Some ud;
  he_att : ud_attached ud = true;
  he_same : ud_kdev ud = pd_kdev d;
  he_kdev : in_kdevs s !! pd_kdev d = Some kd;
  he_ctx : k_ctxs (kst s) !! q = Some y;
  he_given : kd_given kd = reverse (back <$> ds);
}.

Lemma disconnect_run n s i d h ud kd q y c b ds : held s i d h ud kd q y c ds -> alone s i d h q c b -> (length ds < n)%nat ->
  exists s', usb_dev_disconnect (Some ops) pid (reap_all n) i s = Done (0, s') /\
    kst s' = put q (upd_activated 0 y) (kst s) /\ in_list s' = in_list s /\ in_puds s' = in_puds s /\ us_heap (in_usbs s') !! h = None /\
    in_guest s' = in_guest s ++ ((fun x => (h, Data x)) <$> ds).
Proof.
  intros C [A1 A2 A3 A4 A5 A6 A7] Hn. pose proof C as [Hi Hd He Hf Hc Hu Hat Hsa Hk Hq Hg]. unfold usb_dev_disconnect.
  rewrite (bind_done _ _ _ _ _ (load_pud_run i d s Hi)), Hd, He. set (l := set_lk (put q (upd_activated 0 y) (kst s)) (in_lib s)).
  assert (E1 : in_library (priv_deactivate (Some ops) pid c) s = Done (0, set_lib l s)).
  { unfold in_library, zoom, priv_deactivate. by rewrite (set_active_run ops pid false c b q y (in_lib s) A1 A6 A7 Hq). }
  set (s1 := set_lib l s). rewrite (bind_done _ _ s tt s1) by (by rewrite (bind_done _ _ _ _ _ (the_cctx_run i d c s Hi Hf Hc)), (bind_done _ _ _ _ _ E1)).
  set (ud1 := with_handler None None ud). set (s2 := put_heap (<[h := ud1]> (us_heap (in_usbs s1))) s1).
  assert (E2 : upd_usb h (with_handler None None) s1 = Done (tt, s2)) by (unfold upd_usb; by rewrite (bind_done _ _ _ _ _ (load_usb_run h ud s1 Hu))). rewrite (bind_done _ _ _ _ _ E2).
  assert (Hu2 : us_heap (in_usbs s2) !! h = Some ud1) by apply lookup_insert_eq.
  destruct (drain_run ds n s2 h ud1 kd Hu2 Hat eq_refl) as (v & _ & E3); [cbn; by rewrite Hsa|done..|]. set (s3 := set_ui v _) in E3.
  assert (E4 : exists s4, usb_close_host_dev (reap_all n) h s2 = Done (0, s4) /\ kst s4 = kst s2 /\ in_list s4 = in_list s2 /\ in_puds s4 = in_puds s2 /\ us_heap (in_usbs s4) !! h = None /\ in_guest s4 = in_guest s3).
  { unfold usb_close_host_dev. rewrite (bind_done _ _ _ _ _ (load_usb_run h ud1 s2 Hu2)), (bind_done get _ s2 s2 s2 eq_refl). change (us_bus (in_usbs s2)) with (us_bus (in_usbs s)). rewrite A4. cbn [find_addr].
    rewrite (bind_done _ _ s2 (Some h) s2) by (by rewrite (bind_done _ _ _ _ _ (load_usb_run h ud1 s2 Hu2)), Z.eqb_refl).
    assert (E5 : exists s5, usb_host_close (reap_all n) h s2 = Done (0, s5) /\ kst s5 = kst s2 /\ in_list s5 = in_list s2 /\ in_puds s5 = in_puds s2 /\ in_guest s5 = in_guest s3).
    { unfold usb_host_close. rewrite (bind_done _ _ _ _ _ (load_usb_run h ud1 s2 Hu2)). change (ud_attached ud1) with (ud_attached ud). rewrite Hat. cbn [negb]. rewrite (bind_done _ _ _ _ _ E3).
      unfold upd_usb at 1. eexists. split; [unfold bind at 1 2; rewrite (load_usb_run h ud1 s3 Hu2); reflexivity|]. done. }
    destruct E5 as (s5 & E5 & K1 & K2 & K3 & K4). unfold qdev_free. eexists. split; [unfold bind at 1 2; rewrite E5; reflexivity|]. split_and!; try done. cbn. apply lookup_delete_eq. }
  destruct E4 as (s4 & E4 & K1 & K2 & K3 & K4 & K5). rewrite (bind_done _ _ _ _ _ E4). exists s4. split; [done|]. by rewrite K1, K2, K3, K5.
Qed.

Lemma grab_end_run n s i d h ud kd q y c b ds : held s i d h ud kd q y c ds -> alone s i d h q c b -> (length ds < n)%nat ->
  exists s' d', grab_end n s = Done (tt, s') /\ gone s s' i d' h q y c ds.
Proof.
  intros He A Hn. pose proof He as [H1 H2 H3 H4 H5 H6 H7 H8 H9 H10 H11]. pose proof A as [A1 A2 A3 A4 A5 A6 A7]. set (s0 := exec (set_hotplug_needs_reset true) s).
  assert (X : forall d', in_puds s !! i = Some d -> pd_dev d' = Some h -> pd_encrypt d' = true -> pd_freed d' = false -> pd_cctx d' = Some c -> pd_kdev d' = pd_kdev d -> pd_ops d' = pd_ops d ->
    let s1 := set_puds (<[i := d']> (in_puds s0)) s0 in exists s2, usb_dev_disconnect (Some ops) pid (reap_all n) i s1 = Done (0, s2) /\ gone s (exec (set_gui_grab false) s2) i d' h q y c ds).
  { intros d' Hi B1 B2 B3 B4 B5 B6 s1. assert (Hl : (i < length (in_puds s0))%nat) by by eapply lookup_lt_Some. assert (Hp1 : in_puds s1 !! i = Some d') by by apply list_lookup_insert_eq.
    assert (He1 : held s1 i d' h ud kd q y c ds) by by (split; rewrite ?B5). assert (A' : alone s1 i d' h q c b) by by (split; rewrite ?B6).
    destruct (disconnect_run n s1 i d' h ud kd q y c b ds He1 A' Hn) as (s2 & E & K1 & K2 & K3 & K4 & K5). exists s2. split; [exact E|]. split; try done; cbn; [by rewrite K2|by rewrite K3|by rewrite B6]. }
  assert (E0 : exists d' s2, priv_dev_disconnect (Some ops) pid (reap_all n) i s0 = Done (0, s2) /\ gone s (exec (set_gui_grab false) s2) i d' h q y c ds).
  { assert (Hi0 : in_puds s0 !! i = Some d) by done. assert (Hs : set_puds (<[i := d]> (in_puds s0)) s0 = s0) by (rewrite list_insert_id by done; by destruct s).
    destruct (X d) as (s2 & E2 & G2); try done. cbv zeta in E2. rewrite Hs in E2. unfold priv_dev_disconnect. rewrite (bind_done _ _ _ _ _ (load_pud_run i d s0 Hi0)).
    destruct A5 as [-> | ->]; [|eauto]. unfold usb_kbd_disconnect. rewrite (bind_done _ _ _ _ _ (load_pud_run i d s0 Hi0)). destruct (pd_toggler d); [|eauto].
    rewrite (bind_done _ _ _ _ _ (upd_pud_run i d _ s0 Hi0)). destruct (X (with_opaque None d)) as (s3 & E3 & G3); try done. eauto. }
  destruct E0 as (d' & s2 & E0 & G). exists (exec (set_gui_grab false) s2), d'. split; [|done]. unfold sdl_grab_end, priv_disconnect_all.
  rewrite (bind_done _ _ s 0 s2); [done|]. rewrite (bind_done (set_hotplug_needs_reset true) _ s tt s0 eq_refl), (bind_done (gets in_list) _ s0 [i] s0) by (unfold gets; cbn; by rewrite A3).
  cbn [priv_dev_for_all]. by rewrite (bind_done _ _ _ _ _ E0).
Qed.

(** A second release writes to the device that is gone. *)
Lemma second_release_run n s s' i d' h q y c b ds : kinv (kst s) -> k_ctxs (kst s) !! q = Some y -> gone s s' i d' h q y c ds ->
  pc_backend c = BKern b -> k_files (kst s) !! kb_fd b = Some (Some q) -> grab_end n s' = Oops UseAfterFree.
Proof.
  intros K Hq [G1 G2 G3 G4 G5 (G6 & G7 & G8) G9 _ _] Hb Hf. set (s0 := exec (set_hotplug_needs_reset true) s'). unfold sdl_grab_end, priv_disconnect_all. apply bind_oops.
  rewrite (bind_done (set_hotplug_needs_reset true) _ s' tt s0 eq_refl), (bind_done (gets in_list) _ s0 [i] s0) by (unfold gets; cbn; by rewrite G2). cbn [priv_dev_for_all]. apply bind_oops.
  assert (X : forall s1 d1, in_puds s1 !! i = Some d1 -> pd_dev d1 = Some h -> pd_cctx d1 = Some c -> pd_freed d1 = false -> pd_encrypt d1 = true -> kst s1 = kst s' -> us_heap (in_usbs s1) !! h = None ->
    usb_dev_disconnect (Some ops) pid (reap_all n) i s1 = Oops UseAfterFree).
  { intros s1 d1 B1 B2 B3 B4 B5 B6 B7. unfold usb_dev_disconnect. rewrite (bind_done _ _ _ _ _ (load_pud_run i d1 s1 B1)), B2, B5. set (y0 := upd_activated 0 y) in *.
    assert (Kk : kinv (l_k (in_lib s1))) by (change (kinv (kst s1)); rewrite B6, G1; by apply kinv_activated).
    pose proof (set_active_run ops pid false c b q y0 (in_lib s1) Kk Hb) as E. unfold kst in B6, G1. rewrite B6, G1 in E. specialize (E Hf ltac:(apply lookup_insert_eq)).
    match type of E with _ = Done (0, ?l) => rewrite (bind_done _ _ s1 tt (set_lib l s1)) end.
    - apply bind_oops. unfold upd_usb. apply bind_oops. unfold load_usb, bind, get. cbn. by rewrite B7.
    - rewrite (bind_done _ _ _ _ _ (the_cctx_run i d1 c s1 B1 B4 B3)). unfold in_library, zoom, priv_deactivate, bind. by rewrite E. }
  assert (G3' : in_puds s0 !! i = Some d') by done. unfold priv_dev_disconnect. rewrite (bind_done _ _ _ _ _ (load_pud_run i d' s0 G3')). destruct G5 as [-> | ->]; [|by apply (X s0 d')].
  unfold usb_kbd_disconnect. rewrite (bind_done _ _ _ _ _ (load_pud_run i d' s0 G3')). destruct (pd_toggler d'); [|by apply (X s0 d')]. rewrite (bind_done _ _ _ _ _ (upd_pud_run i d' _ s0 G3')).
  apply (X _ (with_opaque None d')); try done. apply list_lookup_insert_eq. by eapply lookup_lt_Some.
Qed.

(** The keys that end private mode, as [priv_kbd_handle_packet] sees them *)
Lemma kbd_release_run n s i d h ud kd q y c b u x pki : held s i d h ud kd q y c [] -> alone s i d h q c b -> pc_user c = Some (Aesni (t_key u) (t_iv u)) -> iv_ok (t_iv u) ->
  pd_opaque d = Some pki -> lctrl pki && lalt pki = false -> both_keys x = true -> Z.of_nat (length x) < 2 ^ 16 ->
  let len := Z.of_nat (length x) in
  exists s', priv_kbd_handle_packet last (Some ops) pid (reap_all (S n)) i (Packet len (stream_xor (B := ctr_aes) u x)) s = Done ((1, Packet len x), s') /\ us_heap (in_usbs s') !! h = None.
Proof.
  intros He A Hu Hiv Hp Hpk Hb Hx len. pose proof He as [H1 H2 H3 H4 H5 H6 H7 H8 H9 H10 H11]. unfold priv_kbd_handle_packet. rewrite (bind_done _ _ _ _ _ (load_pud_run i d s H1)), H3.
  set (c' := with_user_tfm (next (B := ctr_aes) u (length x)) c). set (d1 := with_cctx (Some c') false d). set (s1 := set_puds (<[i := d1]> (in_puds s)) s).
  rewrite (bind_done _ _ s (Packet len x) s1) by (by rewrite (bind_done _ _ _ _ _ (enc_packet_run last Hlast i d c u x s H1 H4 H5 Hu Hiv Hx))). cbn [p_len p_data].
  destruct x as [|k x]; [done|]. destruct (Z.ltb_spec len 1); [unfold len in *; cbn in *; lia|]. rewrite Hp. cbn in Hb.
  assert (Hl : (i < length (in_puds s))%nat) by by eapply lookup_lt_Some. assert (Hi1 : in_puds s1 !! i = Some d1) by by apply list_lookup_insert_eq.
  rewrite (bind_done _ _ _ _ _ (upd_pud_run i d1 _ s1 Hi1)). apply andb_prop in Hb as [-> ->]. cbn [andb]. set (d2 := with_opaque _ d1). set (s2 := set_puds (<[i := d2]> (in_puds s1)) s1).
  replace ((negb (lctrl pki) || negb (lalt pki)) && true && true) with true by (destruct (lctrl pki), (lalt pki); done). cbv iota.
  assert (Hi2 : in_puds s2 !! i = Some d2) by (apply list_lookup_insert_eq; by eapply lookup_lt_Some). assert (He2 : held s2 i d2 h ud kd q y c' []) by by split. assert (A2 : alone s2 i d2 h q c' b) by by destruct A.
  destruct (grab_end_run (S n) s2 i d2 h ud kd q y c' b [] He2 A2 ltac:(cbn; lia)) as (s' & d' & E & G). rewrite (bind_done _ _ _ _ _ E). exists s'. split; [done|apply G].
Qed.

Lemma release_run n s i d h ud kd q y c b u t x pki : conn s i d h ud kd q y c u t [] [] -> alone s i d h q c b ->
  ud_handler ud = Some priv_kbd_handle -> pd_opaque d = Some pki -> lctrl pki && lalt pki = false -> both_keys x = true -> Z.of_nat (length x) < 2 ^ 16 ->
  exists s1 s2, complete (pd_kdev d) x s = Done (tt, s1) /\ work (pd_kdev d) s1 = Done (tt, s2) /\ reap_all (S (S n)) h s2 = Oops UseAfterFree.
Proof.
  intros C A Hh Hp Hpk Hb Hx. destruct (delivered s i d h ud kd q y c u t x (al_k _ _ _ _ _ _ _ A) C) as (s1 & s2 & y' & w & E1 & E2 & Es & K & _). cbv zeta in Es. exists s1, s2. split; [done|]. split; [done|].
  pose proof C as [Hi Hd He Hf Hc Hu Hat Hsa Ho _ Hk _ _ Hq _ _ Hus Hiv _ _ _ _]. pose proof A as [A1 A2 A3 A4 A5 A6 A7]. set (kd2 := KDev _ _ _ _) in Es. set (ex := stream_xor (B := ctr_aes) u x) in *.
  assert (Hl : (pd_kdev d < length (in_kdevs s))%nat) by by eapply lookup_lt_Some. assert (Hk2 : in_kdevs s2 !! pd_kdev d = Some kd2) by (rewrite Es; by apply list_lookup_insert_eq).
  assert (Hu2 : us_heap (in_usbs s2) !! h = Some ud) by by rewrite Es. cbn [async_complete]. rewrite (bind_done _ _ _ _ _ (load_usb_run h ud s2 Hu2)), Hat. cbn [negb].
  rewrite (bind_done get _ s2 s2 s2 eq_refl), Hsa, Hk2. cbn [from_option id kd2 kd_given]. change (reverse [back ex]) with [back ex]. unfold back at 1. cbv iota beta.
  set (kd3 := KDev (kd_dev kd2) false (kd_count kd2) []). set (s3 := set_kdevs (<[pd_kdev d := kd3]> (in_kdevs s2)) s2).
  rewrite (bind_done (modify _) _ s2 tt s3) by (unfold modify; by rewrite (alter_as_insert _ _ _ _ Hk2)). set (p := urb_packet _ 0).
  assert (Ep : p = Packet (Z.of_nat (length x)) ex) by (unfold p, urb_packet; cbn; unfold ex; by rewrite length_stream_xor). assert (Hb3 : do_bench (in_ui s3) = false) by by (cbn; rewrite Es).
  destruct (bench_any (p_len p) s3 Hb3) as (v & Ev & Hv). rewrite (bind_done _ _ _ _ _ Ev). set (s4 := set_ui v s3). rewrite (bind_done _ _ _ _ _ (load_usb_run h ud s4 Hu2)), Hh, Ho, Ep. clear Ev.
  assert (Hk4 : in_kdevs s4 !! pd_kdev d = Some kd3) by (apply list_lookup_insert_eq; by eapply lookup_lt_Some).
  assert (He4 : held s4 i d h ud kd3 q y' c []) by (split; try done; [by cbn; rewrite Es|change (kst s4) with (kst s2); rewrite Es; apply lookup_insert_eq]).
  assert (A4' : alone s4 i d h q c b) by (split; try done; change (kst s4) with (kst s2); cbn; by rewrite Es).
  destruct (kbd_release_run n s4 i d h ud kd3 q y' c b u x pki He4 A4' Hus Hiv Hp Hpk Hb Hx) as (s5 & E5 & G5). rewrite (bind_done _ _ _ _ _ E5). cbn [fst Z.eqb].
  rewrite (bind_done (ret tt) _ s5 tt s5 eq_refl). apply bind_oops. unfold load_usb, bind, get. by rewrite G5.
Qed.
End Leave.

(** ** Properties *)

Section Properties.
Context `{BC : BlockCipher} (last : bytes) (Hlast : length last = 16%nat) (ops : @dhm_kex_ops ctr_aes) (pid : Z).


(** C33 Leaving private mode, with one device: the context is deactivated and the device is gone, but the packets that
    were encrypted and not yet reaped reach the guest encrypted, for the handler is taken away before the
    device is closed; the library's cipher stays where it was and the kernel's is behind those packets,
    so the two no longer agree when the device is connected again.  The device keeps its pointer
    to the USB device, and leaving private mode once more writes to freed memory. *)
Theorem release_loses_step s i d h ud kd q y c b u t gs n : conn s i d h ud kd q y c u t gs [] -> alone s i d h q c b -> (length gs < n)%nat ->
  exists s' d', sdl_grab_end (Some ops) pid (async_complete last (Some ops) pid n) s = Done (tt, s') /\
    gui_grab (in_ui s') = false /\ us_heap (in_usbs s') !! h = None /\ in_guest s' = in_guest s ++ ((fun x => (h, Data x)) <$> sealed u gs) /\
    in_puds s' !! i = Some d' /\ (exists c', pd_cctx d' = Some c' /\ pc_user c' = Some (Aesni (t_key u) (t_iv u))) /\
    (exists y', k_ctxs (kst s') !! q = Some y' /\ cc_activated y' = 0 /\ cc_cipher y' = Some (after u gs)) /\
    forall m, sdl_grab_end (Some ops) pid (async_complete last (Some ops) pid m) s' = Oops UseAfterFree.
Proof.
  intros C A Hn. pose proof C as [Hi Hd He Hf Hc Hu Hat Hsa _ _ Hk _ _ Hq _ Ht Hus _ Hg Ha _ _]. assert (Hh : held s i d h ud kd q y c (sealed u gs)) by by split.
  destruct (grab_end_run last Hlast ops pid n s i d h ud kd q y c b (sealed u gs) Hh A ltac:(by rewrite length_sealed)) as (s' & d' & E & G). exists s', d'. pose proof G as [G1 G2 G3 G4 G5 (G6 & G7 & G8) G9 G10 G11].
  split_and!; try done; [by exists c|exists (upd_activated 0 y); rewrite G1; split; [apply lookup_insert_eq|by rewrite <- Ha]|]. intros m. destruct A as [A1 A2 A3 A4 A5 A6 A7]. by eapply second_release_run.
Qed.

(** C34 The keys that end private mode.  When the packet with both keys of a connected keyboard reaches QEMU, the
    handler of the packet leaves private mode and with it frees the USB device, whose URBs [async_complete] is
    still reaping: it goes on with the freed device. *)
Theorem release_keys_free_device s i d h ud kd q y c b u t x pki n : conn s i d h ud kd q y c u t [] [] -> alone s i d h q c b ->
  ud_handler ud = Some priv_kbd_handle -> pd_opaque d = Some pki -> lctrl pki && lalt pki = false -> both_keys x = true -> Z.of_nat (length x) < 2 ^ 16 ->
  exists s1 s2, complete (pd_kdev d) x s = Done (tt, s1) /\ work (pd_kdev d) s1 = Done (tt, s2) /\
    async_complete last (Some ops) pid (S (S n)) h s2 = Oops UseAfterFree.
Proof. apply (release_run last Hlast). Qed.

(** C35 An URB that failed: the kernel gives it back as it is, and [async_complete] sets the length of the packet to
    a negative status before it calls the handler, which passes it on as the size of the data to
    decrypt: the library runs over the end of the packet. *)
Theorem failed_urb_overruns s i d h ud kd q y c u t ps x st n : conn s i d h ud kd q y c u t [] ps -> st < 0 -> Z.of_nat (length x) < 2 ^ 16 ->
  exists s1, in_kdev (pd_kdev d) (priv_schedule_giveback_urb 0 (Urb true (Some x)) st) s = Done (tt, s1) /\
    async_complete last (Some ops) pid (S n) h s1 = Oops OutOfBounds.
Proof. apply (error_overruns last Hlast). Qed.
End Properties.

Section Configured.
Context `{BC : BlockCipher} (P : polarssl) (ops : dhm_kex_ops) (p g x : Z) (prf : prf_fun) {KA : KexAgree P ops p g x prf}.
Context (pid : Z) (junk_u : aesni_state) (junk junk_iv : bytes) (Hj : length junk_iv = MAX_IV_LEN).

(** C11 The options -priv-input for any number of encrypted keyboards and mice, each at an endpoint that no context uses:
    QEMU exits, or every device is configured: its context is connected, the kernel's device uses it,
    and both sides are at the same place of the same key stream, so that private mode can be entered. *)
Theorem input_options_ready l s : ready s -> NoDup (snd <$> l) -> (forall k, k ∈ snd <$> l -> unused s k) -> k_id (kst s) + Z.of_nat (length l) < 2 ^ 31 ->
  let configs := (fun o => device_option (fst (fst o)) (snd o) (snd (fst o))) <$> l in
  let run := priv_input_options P (Some ops) pid junk_u junk junk_iv configs s in
  run = Oops Exit \/
  exists s', run = Done (tt, s') /\ ready s' /\ in_list s' = reverse (seq (length (in_puds s)) (length l)) ++ in_list s /\ in_guest s' = in_guest s.
Proof. intros. by apply (options_run P ops p g x prf). Qed.
End Configured.

(** ** A machine with a keyboard *)

#[local] Existing Instance aes_cipher.
#[local] Existing Instance wit_agree.
Definition wit_i0 : input :=
  Input (LS (set_refs (<[7%nat := None]> (k_refs wit_s0)) wit_s0) [] 0 [] (replicate 64 9) 3%nat) [KDev (Dev 7 0 (Some None) true) false 1 []] (Usbs ∅ [] 0 []) [] [] []
    (Ui false [] false false false 0 0 false).
Definition wit_keyboard : list (bool * bool * nat) := [(false, true, 0%nat)].
Definition wit_configs : list config := (fun o => device_option (fst (fst o)) (snd o) (snd (fst o))) <$> wit_keyboard.
Definition wit_config : M input unit := priv_input_options wit_ssl (Some wit_kex_ops) 42 (Aesni [] []) [] (repeat 0 64) wit_configs.
Definition wit_i1 : input := exec wit_config wit_i0.

Lemma wit_i0_ready : ready wit_i0.
Proof.
  assert (K : kinv (kst wit_i0)) by (apply kinv_ref_init; [apply kinv_loaded, wit_loaded|reflexivity]).
  split; [split; [exact K|done|done| |done]; by apply Forall_replicate|]. split; [|done]. split; try done.
  - by intros i Hi%not_elem_of_nil.
  - by intros i Hi%not_elem_of_nil.
  - by apply NoDup_nil.
  - intros k k' x x'. by destruct k as [|k], k' as [|k'].
  - intros h [x Hh]. change ((∅ : gmap nat usbdev) !! h = Some x) in Hh. by rewrite lookup_empty in Hh.
Qed.

Lemma wit_i0_unused k : k ∈ snd <$> wit_keyboard -> unused wit_i0 k.
Proof. intros ->%list_elem_of_singleton. exists (KDev (Dev 7 0 (Some None) true) false 1 []). by split_and!. Qed.

Lemma input_options_ready_witness : wit_config wit_i0 = Oops Exit \/ exists s', wit_config wit_i0 = Done (tt, s') /\ ready s'.
Proof.
  destruct (input_options_ready wit_ssl wit_kex_ops 23 5 6 wit_prf 42 (Aesni [] []) [] (repeat 0 64) eq_refl wit_keyboard wit_i0 wit_i0_ready) as [E|(s' & E & R & _)].
  - repeat constructor. by intros ?%not_elem_of_nil.
  - exact wit_i0_unused.
  - reflexivity.
  - left. exact E.
  - right. exists s'. split; [exact E|exact R].
Defined.

Lemma wit_config_done : match wit_config wit_i0 with Done (b, _) => Some b | Oops _ => None end = Some tt.
Proof. vm_compute. reflexivity. Qed.

Lemma wit_config_run : wit_config wit_i0 = Oops Exit \/ exists s', wit_config wit_i0 = Done (tt, s') /\ ready s' /\ in_list s' = [0%nat] /\ in_guest s' = [].
Proof.
  apply (options_run wit_ssl wit_kex_ops 23 5 6 wit_prf 42 (Aesni [] []) [] (repeat 0 64) eq_refl wit_keyboard wit_i0 wit_i0_ready);
    [repeat constructor; by intros ?%not_elem_of_nil|exact wit_i0_unused|reflexivity].
Qed.

Lemma wit_i1_ready : ready wit_i1 /\ in_list wit_i1 = [0%nat] /\ in_guest wit_i1 = [].
Proof.
  pose proof wit_config_done as D. apply (run_done wit_config wit_i0 (fun _ s' => ready s' /\ in_list s' = [0%nat] /\ in_guest s' = []) tt); [|exact D].
  destruct wit_config_run as [E|(s' & E & H)]; [rewrite E in D; discriminate D|]. exists tt, s'. split; [exact E|exact H].
Qed.


(** The keyboard connected *)
Definition wit_i2 : input := exec (sdl_grab_start (Some wit_kex_ops) 42) wit_i1.

Lemma wit_i2_pud : (fun d => (pd_dev d, pd_ops d, pd_opaque d, pd_kdev d, pc_backend <$> pd_cctx d)) <$> in_puds wit_i2 !! 0%nat
  = Some (Some 0%nat, usb_kbd_ops, Some (Kbd false false), 0%nat, Some (BKern (KernBackend 3 1))).
Proof. vm_compute. reflexivity. Qed.
Lemma wit_i2_rest : in_list wit_i2 = [0%nat] /\ us_bus (in_usbs wit_i2) = [0%nat] /\ ud_handler <$> us_heap (in_usbs wit_i2) !! 0%nat = Some (Some priv_kbd_handle) /\
  do_bench (in_ui wit_i2) = false.
Proof. vm_compute. split_and!; reflexivity. Qed.
Lemma wit_i2_kernel : (fun k => d_ref (kd_dev k)) <$> in_kdevs wit_i2 !! 0%nat = Some 7%nat /\ k_refs (kst wit_i2) !! 7%nat = Some (Some 0%nat) /\ k_files (kst wit_i2) !! 3%nat = Some (Some 0%nat).
Proof. vm_compute. split_and!; reflexivity. Qed.

Lemma wit_i2_conn : exists d ud kd y c u b, conn wit_i2 0 d 0 ud kd 0 y c u u [] [] /\ alone wit_i2 0 d 0 0 c b /\
  ud_handler ud = Some priv_kbd_handle /\ pd_opaque d = Some (Kbd false false).
Proof.
  destruct wit_i1_ready as ([_ C] & L & G). destruct (grab_start_run (replicate 16 3) eq_refl wit_kex_ops 42 wit_i1 C) as (hs & s' & E & Se & _).
  assert (s' = wit_i2) as -> by (unfold wit_i2, exec; by rewrite E). rewrite L in Se. destruct (se_conn _ _ _ _ Se 0%nat ltac:(by left)) as (d & ud & kd & q & y & c & u & t & gs & ps & Cn & Ef).
  symmetry in Ef. apply app_eq_nil in Ef as [-> ->]. pose proof Cn as [Hi Hd _ _ Hc Hu _ _ _ _ Hk _ Hr _ _ _ _ _ _ Ht _ _]. cbn in Ht. subst t.
  destruct wit_i2_rest as (W1 & W2 & W3 & W4), wit_i2_kernel as (W5 & W6 & W7). pose proof wit_i2_pud as W. rewrite Hi in W. injection W as V1 V2 V3 V4 V5.
  assert (hs 0%nat = 0%nat) as Eh by congruence. rewrite Eh in *. rewrite Hu in W3. injection W3 as W3. rewrite V4 in Hk. rewrite Hk in W5. injection W5 as W5. rewrite W5, W6 in Hr. injection Hr as <-.
  rewrite Hc in V5. injection V5 as V5. exists d, ud, kd, y, c, u, (KernBackend 3 1). split; [exact Cn|]. split; [|split; [exact W3|exact V3]].
  split; [apply Se|exact W4|exact W1|exact W2|left; exact V2|exact V5|exact W7].
Qed.

(** Left ctrl and left alt *)
Definition wit_keys : bytes := [5; 0; 0; 0; 0; 0; 0; 0].

Lemma release_loses_step_witness : exists s', sdl_grab_end (Some wit_kex_ops) 42 (async_complete (replicate 16 3) (Some wit_kex_ops) 42 1) wit_i2 = Done (tt, s') /\
  sdl_grab_end (Some wit_kex_ops) 42 (async_complete (replicate 16 3) (Some wit_kex_ops) 42 1) s' = Oops UseAfterFree.
Proof.
  destruct wit_i2_conn as (d & ud & kd & y & c & u & b & C & A & _).
  destruct (release_loses_step (replicate 16 3) eq_refl wit_kex_ops 42 wit_i2 0 d 0 ud kd 0 y c b u u [] 1 C A) as (s' & d' & E & _ & _ & _ & _ & _ & _ & H); [cbn; lia|].
  exists s'. split; [exact E|exact (H 1%nat)].
Defined.

Lemma release_keys_free_device_witness : exists d s1 s2, complete (pd_kdev d) wit_keys wit_i2 = Done (tt, s1) /\ work (pd_kdev d) s1 = Done (tt, s2) /\
  async_complete (replicate 16 3) (Some wit_kex_ops) 42 2 0 s2 = Oops UseAfterFree.
Proof.
  destruct wit_i2_conn as (d & ud & kd & y & c & u & b & C & A & Hh & Ho). exists d.
  apply (release_keys_free_device (replicate 16 3) eq_refl wit_kex_ops 42 wit_i2 0 d 0 ud kd 0 y c b u u wit_keys (Kbd false false) 0 C A Hh Ho); reflexivity.
Defined.

Lemma failed_urb_overruns_witness : exists d s1, in_kdev (pd_kdev d) (priv_schedule_giveback_urb 0 (Urb true (Some (zeros 8))) (- EPIPE)) wit_i2 = Done (tt, s1) /\
  async_complete (replicate 16 3) (Some wit_kex_ops) 42 1 0 s1 = Oops OutOfBounds.
Proof.
  destruct wit_i2_conn as (d & ud & kd & y & c & u & b & C & _). exists d.
  apply (failed_urb_overruns (replicate 16 3) eq_refl wit_kex_ops 42 wit_i2 0 d 0 ud kd 0 y c u u [] (zeros 8) (- EPIPE) 0 C); reflexivity.
Defined.
